(* ===== verification/_CoqProject ===== *)
-Q . S2P
Prelude.v
Types.v
Codecs.v
Validation.v
Frame.v
Auth.v
Registry.v
World.v
Paths.v
BlobStore.v
Upload.v
UploadClient.v
UploadFrame.v
Trace.v
Config.v
ConfigLoad.v
Metrics.v
Persistence.v
Repo.v
TreeStore.v
TreeService.v
Server.v
BlobApi.v
Cleanup.v
Runtime.v
Staging.v
Queue.v
LogStream.v
Lifecycle.v
Invariants.v
Safety.v
Versions.v
Text.v
MakeConf.v
MetricsText.v
PortageFiles.v
WorkerSetup.v
Effects.v
Relay.v
Docker.v
Signing.v
Tasks.v
Startup.v
Builder.v
CliRun.v
CliConfigFile.v
Disk.v
LocalState.v
LocalSafety.v
SyncReport.v
Progress.v
Terminal.v
Routes.v
Payloads.v
Negotiation.v
Trees.v
Restore.v
Locations.v
Confine.v
ApplyConfig.v
Parity.v
FinalState.v
