(* ===== verification/Prelude.v ===== *)
(** * Verification of remerge

    remerge builds Gentoo packages on a server: a command-line client reads the
    Portage configuration of its machine, uploads the files the build needs as
    content-addressed blobs and submits a workorder; the server queues the order,
    stages its files, runs it in a worker container and serves the binary packages;
    the client then fetches the packages, restores the worker's final state and runs
    [emerge] locally.  This library models the server, the client, the worker and the
    types they share (the Rust crates [server], [cli], [worker], [observability] and
    [types] under [src/crates]) and proves what makes them correct.

    ** The files, in order of dependency

    Shared:
    - [Prelude] (this file): results, machine integers, bytes, strings, sorting,
      ordered iteration and counting lemmas, notations and hints shared by all files.
    - [Types]: the data of [crates/types]; [Codecs]: their equality and encodings.
    - [Validation]: [types/validation.rs], the check of package atoms.
    - [Frame]: the binary chunk frames of [types/api.rs] and [types/compression.rs].

    The server:
    - [Auth]: [server/auth.rs], certificates and roles.
    - [Registry]: [server/registry.rs], clients and their active workorder.
    - [World]: files, clock and failures; the monad the file-system code is
      written in, and footprint reasoning; [Paths]: components of a path string.
    - [BlobStore]: [server/blob_store.rs], content-addressed storage.
    - [Upload]: the upload sessions and the WebSocket handler of [server/api.rs];
      [UploadClient]: the other side, [cli/client.rs]; [UploadFrame]: which files an
      upload touches.
    - [Trace]: [observability/lib.rs]; [Config]: [server/config.rs], with its [load]
      in [ConfigLoad]; [Metrics] and [MetricsText]: [server/metrics.rs] and the page it
      renders; [Persistence]: [server/persistence.rs]; [Repo]: [server/repo.rs];
      [TreeStore]: [server/tree_store.rs], and [TreeService]: when storing succeeds.
    - [Server]: [AppState] of [server/state.rs] and the workorder handlers of
      [server/api.rs]; [BlobApi]: its blob handlers; [Relay]: its progress connection.
    - [Cleanup]: the clean-up of the snapshot stores in [server/runtime.rs];
      [Runtime]: the staging and ingestion code of that file; [Staging]: the theorems
      about them.
    - [Queue]: [server/queue.rs]; [LogStream]: the task in it that reads a
      container's output; [Docker]: [server/docker.rs]; [Signing]:
      [server/signing.rs]; [Tasks]: the background tasks of [server/main.rs], and
      [Startup]: [main] itself.  [Routes]: the router of [server/api.rs] and the
      addresses that [cli/client.rs] asks for.
    - [Lifecycle]: requests, queue loop, tasks and eviction as one state machine;
      [Invariants]: what every step of it keeps; [Safety]: the theorems about it.

    The client and the worker:
    - [Versions]: the comparison of versions and the installed packages of
      [cli/portage.rs]; [Text]: lines and words.
    - [MakeConf]: make.conf, as the client reads it ([cli/portage.rs],
      [cli/cflags.rs]) and as the worker writes it ([worker/portage_setup.rs]).
    - [PortageFiles]: the rest of the client's configuration reader, up to
      [read_config]; [WorkerSetup]: the rest of [worker/portage_setup.rs].
    - [Effects]: programs as trees of requests to the outside; [Builder]:
      [worker/builder.rs], [worker/crossdev.rs] and [worker/main.rs] as such
      programs; [CliRun]: the client's main flow, [Cli::run] of [cli/args.rs].
    - [CliConfigFile]: [cli/config.rs].
    - [Disk]: a disk with directories, symbolic links and times, and the download of
      a file to it ([cli/client.rs]); [LocalState]: what [cli/args.rs] does to the
      client's disk after a build; [LocalSafety]: the theorems about it; [Trees]:
      walking directories; [SyncReport]: the report of the package synchronisation.
    - [Restore], [Locations]: the parts of [worker/portage_setup.rs] that copy staged
      snapshots, link the profile and make the places of the repositories; [Confine]:
      what they leave alone; [ApplyConfig]: the whole set-up, on one disk; [Parity]: [worker/parity.rs], the
      capture of the final state; [FinalState]: the way of that state from the worker
      to the client.
    - [Progress]: the progress stream of [cli/client.rs]; [Terminal]: what it prints,
      the typed input it forwards and the modes of the terminal.
    - [Payloads]: the client's manifest and the blobs it uploads fit together;
      [Negotiation]: the requests of [cli/client.rs] and their answers, and the
      negotiation of blobs run against the handlers of the server.

    ** How the program is represented

    A struct is a record, an enum an inductive type, a [HashMap] a [gmap] (where the
    order of iteration matters it is a parameter, [HashIter] or [SetIter], of which
    only permutation is assumed), a [BTreeMap] a [gmap] read in the order of its keys
    ([btree_items]), a path the list of its components, an integer a [Z] with the
    wrap-around written out.  [Result] is the sum of [Prelude], [?] is [let?], and a
    panic is a constructor of its own or [None].  Times are seconds since 1970; the hours
    that the configuration gives are cast from [u64] to [i64] as the code does and
    subtracted with the bounds of chrono ([hours_before]), so that a clean-up or an
    eviction with absurd hours panics or takes the period for a negative one.

    File-system code of the server and of the worker's set-up runs in the monad [Comp]
    of [World]: every operation takes an entry of a fault schedule and may fail with
    any error; a failing write leaves any prefix.  The code that works on whole trees
    of the client or the worker runs on [Disk], which has the same faults and also
    resolves symbolic links.  The writers of [WorkerSetup] are written against an
    interface, [SetupFs], of which both are instances.  Theorems that quantify over the schedule cover all I/O failures.

    The main flows of client and worker, and what the server asks of Docker and gpg,
    are programs of [Effects]: [runs p t a] says
    that [p], answered as the trace [t] records, ends with [a].  Theorems about all
    [runs] hold whatever the outside answers; the insides of the requests are the
    other files.  [interp_state] answers the requests of a program by handlers with a
    state, which is how [Negotiation] puts the client in front of the server.

    Code outside the repository is a parameter: SHA-256, zstd, adler32, serde_json
    (as codecs with a round trip), the TOML parser, the [http] crate, the Docker engine,
    gpg, rustls, axum's choice of a route ([PathChoice]), the environment of the process,
    the commands that the client runs ([Commands]).  Each class of laws has a concrete
    instance, used in the witnesses.  In [Queue] the outcome of staging and ingestion
    is an argument of the step; [Runtime] models what happens inside.

    Concurrency is interleaving: an event of [Lifecycle] is one atomic step.  A
    request is atomic; the queue loop is cut between selecting, claiming and spawning;
    a task is cut at every wait (image, staging, container start, container run) and
    between setting the final status and reporting it.  Locks held inside one step
    and the microscopic order of counter updates are not modelled.

    ** What the theorems show

    - The running server ([Safety], [Queue]): processing is exclusive and bounded by
      the worker slots, nothing gets stuck, every order comes to an end, the built ones with a result,
      and leaves no resource behind, the gauges are what the steps make them, and a client has at most
      one active order as long as nothing is cancelled; and where these guarantees
      end: a cancelled order resumes, a client can then have two active orders, the
      queue gauge underflows after a restart, and an order evicted while its image is
      being built makes its task panic.
    - Snapshots ([Cleanup], [Staging]): staging is confined to the runtime directory
      and the stores, a staged order finds exactly its snapshot, the clean-up spares
      what staged orders refer to and deletes the rest oldest first down to the
      floor, so that the two together keep a staged order intact; normalisation is
      idempotent; and where it goes wrong: two spellings of one name overwrite a
      blob, and the blobs of an order that is still queued can be deleted.
    - Build output ([LogStream]): the events found do not depend on how the output is
      cut into chunks; the 65th one suspends the relay.
    - Requests ([Server], [BlobApi], [Relay]): admission, access control, cancellation,
      eviction; the blob requests refine a map from digests to contents; a progress
      connection delivers in order, everything unless it lags (which it tells only the
      server's log), and closes after the last output.
    - Around the server ([Docker], [Signing], [Tasks], [ConfigLoad], [MetricsText]):
      started containers do not leak, a built image is not stale, the announced key is
      the one that signs, the image reaper keeps images in use, a loaded configuration
      is well typed and sane, the metrics page reads back, and a socket is served only
      when everything it needs is there ([Startup]); and where they fail: two
      compilers share an image, a misspelt authentication mode opens the server.
    - Storage ([BlobStore], [Upload], [UploadClient], [Persistence], [Repo]):
      integrity of the store under any failures where hard links are supported, refinement of an abstract map,
      end-to-end delivery of an upload over lossy connections, uploads of different
      blobs that do not touch each other ([UploadFrame]), atomic saves, what a
      restart recovers, which package versions survive a clean-up; and the uploads
      that cannot succeed and the copy fallback that can leave a damaged blob.
    - The client ([CliRun], [Payloads], [CliConfigFile], [Progress], [LocalSafety]):
      what is submitted was validated and its blobs were uploaded, the local [emerge]
      runs only after a complete build, a successful reconciliation has made the
      manifest true and stays within the approved places as long as there are no
      symbolic links, the identity of a machine persists, waiting for a result ends;
      what is typed is forwarded in order and the terminal gets its modes back
      ([Terminal]); the summary of a synchronisation counts what happened, and its
      progress lines are bounded ([SyncReport]); and the manifest that leads the client
      to /etc/passwd.
    - Client and server together ([Negotiation], [Routes]): after the negotiation the
      server can rebuild everything that the manifest announces, although connections
      break; and every address the client asks for leads to the handler it means.
    - The worker ([Builder], [WorkerSetup], [ApplyConfig], [MakeConf], [Restore],
      [FinalState]): success means that the order was built, the whole set-up puts the configuration
      in place as it was sent, whatever it restores in between, what is written reads
      back, every repository gets a place, staged snapshots are restored exactly,
      and the final state is captured exactly and arrives at the client; and an option
      that passes as an atom, and trees whose capture fails.
    - Codecs, orders and checks ([Validation], [Frame], [Auth], [Registry], [Trace],
      [Config], [Versions]): exact grammars, round trips, authenticity of identities,
      change detection, repair of configurations, version comparison as a preorder.

    ** Fuel and bounds

    Fuel is the length of the buffer in [LogStream.process_lines] and of the bytes in
    [utf8_lossy], of which every turn takes some, the length of the text in
    [MakeConf.parse_loop] (each turn consumes a character), and the number of chunks
    of an upload ([UploadClient.send_chunks]): it is the length of the payload, each
    chunk is non-empty, and [stream_upload_delivers] proves that uploads complete.
    The four connection attempts and the three upload attempts are the code's own
    limits.  [Disk.MAX_LINKS] is the kernel's limit of 40 links on the way to a file.
    [Progress.MAX_POLLS] is 27: five seconds of polls 200 ms apart, which
    [await_result_ready_ends] proves enough; [rounds] in [stream_progress] bounds the
    turns of a stream that has no end of its own.  [depth] in [read_profile_packages]
    bounds the chain of parent profiles, which the code does not.  A walk over a tree
    ([Trees.walk_from]) has one unit of fuel more than the disk has nodes, of which the
    directories are some ([walk_total]); [Tasks.dir_size] has the length of the longest path,
    and standard input is offered 50 times ([Relay]), as in the code.  The state machine
    needs no fuel: [server_drains] bounds the number of its steps.

    ** What is not modelled

    The parsing of command lines (clap), the accept loop of TLS connections, extractors
    and other layers of axum; serving the files of
    the package repository, which is left to the HTTP library; logging and the export of
    traces; the entry point of the client ([cli/main.rs]).  In [Queue] the requests to
    Docker, staging and ingestion appear by their outcome; the files [Docker] and
    [Runtime] model them, and the two are not composed. *)

From Stdlib Require Export Strings.Ascii.
From Stdlib Require Strings.String.
From stdpp Require Export base gmap strings list fin_maps sorting pretty.
From Stdlib Require Export ZArith Lia.
From Stdlib Require Import Strings.Byte.

#[global] Open Scope Z_scope.
(** stdpp's solvers clear hypotheses that are gone already. *)
#[export] Set Warnings "-clear-no-such-hyp".

(** ** Results

    Rust's [Result<T, E>]. *)
Inductive Result (A E : Type) : Type :=
| Ok (a : A)
| Err (e : E).
Arguments Ok {A E} a.
Arguments Err {A E} e.

#[global] Instance Result_eq_dec `{EqDecision A, EqDecision E} : EqDecision (Result A E).
Proof. solve_decision. Defined.

Definition is_ok {A E} (r : Result A E) : bool :=
  match r with Ok _ => true | Err _ => false end.

(** [o.is_some()] *)
Definition is_some {A} (o : option A) : bool :=
  match o with Some _ => true | None => false end.

(** [e.ok()] *)
Definition ok_opt {A E} (r : Result A E) : option A :=
  match r with Ok a => Some a | Err _ => None end.

(** [r.map_err(f)] *)
Definition map_err {A E F} (f : E -> F) (r : Result A E) : Result A F :=
  match r with Ok a => Ok a | Err e => Err (f e) end.

(** [o.ok_or(e)] *)
Definition ok_or {A E} (o : option A) (e : E) : Result A E :=
  match o with Some a => Ok a | None => Err e end.

Definition rbind {A B E} (r : Result A E) (k : A -> Result B E) : Result B E :=
  match r with Ok a => k a | Err e => Err e end.

Declare Scope remerge_scope.
Delimit Scope remerge_scope with remerge.

(** The [?] operator of Rust on [Result]. *)
Notation "'let?' x := r 'in' k" := (rbind r (fun x => k))
  (at level 10, x pattern, r at level 100, k at level 200) : remerge_scope.
#[global] Open Scope remerge_scope.

(** ** Machine integers *)

Definition u64_modulus : Z := 2 ^ 64.
Definition u64_max : Z := u64_modulus - 1.
Definition u64_ok (z : Z) : Prop := 0 <= z <= u64_max.
Definition u32_ok (z : Z) : Prop := 0 <= z < 2 ^ 32.

(** [AtomicU64::fetch_add] and [fetch_sub] wrap around. *)
Definition u64_wrapping_add (a b : Z) : Z := (a + b) mod u64_modulus.
Definition u64_wrapping_sub (a b : Z) : Z := (a - b) mod u64_modulus.
Definition u64_saturating_add (a b : Z) : Z := Z.min (a + b) u64_max.
Definition u64_saturating_sub (a b : Z) : Z := Z.max (a - b) 0.

(** [x as i64] of a [u64]. *)
Definition i64_max : Z := 2 ^ 63 - 1.
Definition u64_as_i64 (z : Z) : Z := if z <=? i64_max then z else z - u64_modulus.

(** ** Times

    Seconds since 1970.  [chrono::Duration::hours(n)] panics beyond [i64::MAX]
    milliseconds, and [DateTime - Duration] before [DateTime::<Utc>::MIN_UTC] and after
    [MAX_UTC]; a panic is [None].  [hours_before t n] is
    [t - Duration::hours(n as i64)]. *)
Definition duration_hours (n : Z) : option Z := if Z.abs (n * 3600) <=? i64_max / 1000 then Some (n * 3600) else None.
Definition date_ok (t : Z) : bool := (-8334601228800 <=? t) && (t <=? 8210266876799).
Definition date_sub (t d : Z) : option Z := if date_ok (t - d) then Some (t - d) else None.
Definition hours_before (t n : Z) : option Z := match duration_hours (u64_as_i64 n) with Some d => date_sub t d | None => None end.

(** Hours that lead from one date to another are what they say. *)
Lemma hours_before_small t n : date_ok t = true -> 0 <= n -> date_ok (t - n * 3600) = true -> hours_before t n = Some (t - n * 3600).
Proof.
  unfold date_ok. rewrite !andb_true_iff, !Z.leb_le. intros [Ht1 Ht2] Hn [Hd1 Hd2]. unfold hours_before, u64_as_i64, duration_hours, date_sub, date_ok, i64_max.
  destruct (Z.leb_spec n (2 ^ 63 - 1)); [|lia]. destruct (Z.leb_spec (Z.abs (n * 3600)) ((2 ^ 63 - 1) / 1000)) as [_|Hb]; cycle 1.
  { change ((2 ^ 63 - 1) / 1000) with 9223372036854775 in Hb. lia. }
  destruct (Z.leb_spec (-8334601228800) (t - n * 3600)); [|lia]. by destruct (Z.leb_spec (t - n * 3600) 8210266876799); [|lia].
Qed.

(** Hours in the range of [i64] are not misread: the subtraction is the expected one or panics. *)
Lemma hours_before_Some t n u : n <= i64_max -> hours_before t n = Some u -> u = t - n * 3600.
Proof.
  intros Hn. unfold hours_before, u64_as_i64, duration_hours, date_sub. destruct (Z.leb_spec n i64_max); [|lia].
  repeat case_match; congruence.
Qed.

(** ** Bytes *)

Abbreviation byte := Byte.byte.
Abbreviation bytes := (list byte).

Definition byte_to_Z (b : byte) : Z := Z.of_N (Byte.to_N b).
Definition byte_of_Z (z : Z) : byte :=
  default Byte.x00 (Byte.of_N (Z.to_N (z mod 256))).

Definition blen (b : bytes) : Z := Z.of_nat (length b).

Lemma byte_to_Z_range b : 0 <= byte_to_Z b < 256.
Proof. unfold byte_to_Z. pose proof (Byte.to_N_bounded b). lia. Qed.

Lemma byte_to_of_Z z : byte_to_Z (byte_of_Z z) = z mod 256.
Proof.
  unfold byte_to_Z, byte_of_Z.
  pose proof (Z.mod_pos_bound z 256 ltac:(lia)) as Hz.
  destruct (Byte.of_N (Z.to_N (z mod 256))) as [b|] eqn:E; simpl.
  - apply Byte.to_of_N in E. rewrite E. lia.
  - apply Byte.of_N_None_iff in E. lia.
Qed.

Lemma byte_of_to_Z b : byte_of_Z (byte_to_Z b) = b.
Proof.
  unfold byte_of_Z. rewrite Z.mod_small by apply byte_to_Z_range.
  unfold byte_to_Z. rewrite N2Z.id, Byte.of_to_N. done.
Qed.

#[global] Instance byte_eq_dec : EqDecision byte := Byte.byte_eq_dec.

#[global] Instance byte_countable : Countable byte.
Proof.
  refine (inj_countable Byte.to_N Byte.of_N _). intros b. apply Byte.of_to_N.
Defined.

Lemma blen_nonneg b : 0 <= blen b.
Proof. unfold blen. lia. Qed.

Lemma blen_app a b : blen (a ++ b) = blen a + blen b.
Proof. unfold blen. rewrite length_app. lia. Qed.

(** Big-endian integers: [to_be_bytes] and [from_be_bytes]. *)
Fixpoint to_be_bytes (n : nat) (z : Z) : bytes :=
  match n with
  | O => []
  | S m => byte_of_Z (z / 256 ^ Z.of_nat m) :: to_be_bytes m z
  end.

Fixpoint from_be_bytes (l : bytes) : Z :=
  match l with
  | [] => 0
  | b :: r => byte_to_Z b * 256 ^ Z.of_nat (length r) + from_be_bytes r
  end.

Lemma length_to_be_bytes n z : length (to_be_bytes n z) = n.
Proof. induction n; simpl; congruence. Qed.

Lemma from_be_bytes_range l : 0 <= from_be_bytes l < 256 ^ Z.of_nat (length l).
Proof.
  induction l as [|b r IH]; simpl; [lia|].
  pose proof (byte_to_Z_range b).
  rewrite Nat2Z.inj_succ, Z.pow_succ_r by lia. nia.
Qed.

Lemma from_to_be_bytes n z : from_be_bytes (to_be_bytes n z) = z mod 256 ^ Z.of_nat n.
Proof.
  induction n as [|n IH]; simpl; [by rewrite Z.mod_1_r|].
  rewrite byte_to_of_Z, IH, length_to_be_bytes.
  rewrite Nat2Z.inj_succ, Z.pow_succ_r by lia.
  rewrite (Z.mul_comm 256).
  rewrite (Z.rem_mul_r z (256 ^ Z.of_nat n) 256) by lia. lia.
Qed.

Lemma from_to_be_bytes_small n z :
  0 <= z < 256 ^ Z.of_nat n -> from_be_bytes (to_be_bytes n z) = z.
Proof. intros H. rewrite from_to_be_bytes. by apply Z.mod_small. Qed.

Lemma to_be_bytes_mod n m z :
  (n <= m)%nat -> to_be_bytes n (z mod 256 ^ Z.of_nat m) = to_be_bytes n z.
Proof.
  revert z. induction n as [|n IH]; intros z H; simpl; [done|].
  f_equal; [|apply IH; lia].
  rewrite <- (byte_of_to_Z (byte_of_Z (_ / _))), byte_to_of_Z.
  rewrite <- (byte_of_to_Z (byte_of_Z (z / _))), byte_to_of_Z. f_equal.
  replace (Z.of_nat m) with (Z.of_nat n + Z.succ (Z.of_nat (m - S n))) by lia.
  rewrite Z.pow_add_r, Z.rem_mul_r by lia.
  rewrite Z.add_comm, (Z.mul_comm (256 ^ Z.of_nat n) (_ mod _)), Z.div_add_l by lia.
  rewrite (Z.div_small (_ mod _)) by (apply Z.mod_pos_bound; lia).
  rewrite Z.add_0_r, Z.pow_succ_r, Z.rem_mul_r by lia.
  rewrite (Z.mul_comm 256), Z.mod_add by lia. by rewrite Z.mod_mod by lia.
Qed.

Lemma to_from_be_bytes l : to_be_bytes (length l) (from_be_bytes l) = l.
Proof.
  induction l as [|b r IH]; simpl; [done|].
  pose proof (from_be_bytes_range r).
  f_equal.
  - rewrite Z.div_add_l by lia. rewrite Z.div_small by lia.
    by rewrite Z.add_0_r, byte_of_to_Z.
  - etransitivity; [|exact IH].
    rewrite <- (to_be_bytes_mod (length r) (length r)) by lia.
    f_equal. rewrite (Z.add_comm (_ * _)), Z.mod_add by lia. by apply Z.mod_small.
Qed.

(** ** Strings

    A Rust [&str] is modelled by its bytes, a [string]; the functions below are
    the [str] methods the code uses.  Character predicates of the source are
    all tests for ASCII characters, so testing bytes and testing [char]s agree;
    [trim] and [to_lowercase] are modelled on the ASCII range. *)

Abbreviation chars := String.list_ascii_of_string.
Abbreviation of_chars := String.string_of_list_ascii.

Definition slen (s : string) : Z := Z.of_nat (String.length s).
Definition code (c : ascii) : Z := Z.of_N (N_of_ascii c).
Definition in_range (lo hi : Z) (c : ascii) : bool := (lo <=? code c) && (code c <=? hi).

Definition is_ascii_digit : ascii -> bool := in_range 48 57.
Definition is_ascii_upper : ascii -> bool := in_range 65 90.
Definition is_ascii_lower : ascii -> bool := in_range 97 122.
Definition is_ascii_alphanumeric (c : ascii) : bool :=
  is_ascii_digit c || is_ascii_upper c || is_ascii_lower c.
Definition is_ascii_hexdigit (c : ascii) : bool :=
  is_ascii_digit c || in_range 65 70 c || in_range 97 102 c.
Definition is_whitespace (c : ascii) : bool := in_range 9 13 c || (code c =? 32).
Definition to_ascii_lowercase (c : ascii) : ascii :=
  if is_ascii_upper c then ascii_of_N (N_of_ascii c + 32) else c.

Definition is_empty (s : string) : bool :=
  match s with EmptyString => true | _ => false end.
Definition all_chars (p : ascii -> bool) (s : string) : bool := forallb p (chars s).
Definition any_char (p : ascii -> bool) (s : string) : bool := existsb p (chars s).
Definition contains_char (c : ascii) (s : string) : bool := any_char (Ascii.eqb c) s.
Definition lowercase (s : string) : string := of_chars (map to_ascii_lowercase (chars s)).
Definition retain_chars (p : ascii -> bool) (s : string) : string :=
  of_chars (List.filter p (chars s)).

Fixpoint strip_prefix (p s : string) : option string :=
  match p, s with
  | EmptyString, _ => Some s
  | String a p', String b s' => if Ascii.eqb a b then strip_prefix p' s' else None
  | String _ _, EmptyString => None
  end.

Definition starts_with (p s : string) : bool := bool_decide (is_Some (strip_prefix p s)).

Fixpoint split_once (c : ascii) (s : string) : option (string * string) :=
  match s with
  | EmptyString => None
  | String a r =>
      if Ascii.eqb a c then Some (EmptyString, r)
      else match split_once c r with
           | Some (l, r') => Some (String a l, r')
           | None => None
           end
  end.

Fixpoint drop_while {A} (p : A -> bool) (l : list A) : list A :=
  match l with
  | [] => []
  | x :: r => if p x then drop_while p r else l
  end.

Definition trim_start (s : string) : string := of_chars (drop_while is_whitespace (chars s)).
Definition trim_end (s : string) : string :=
  of_chars (rev (drop_while is_whitespace (rev (chars s)))).
Definition trim (s : string) : string := trim_end (trim_start s).

Lemma of_chars_chars s : of_chars (chars s) = s.
Proof. apply String.string_of_list_ascii_of_string. Qed.

Lemma chars_of_chars l : chars (of_chars l) = l.
Proof. apply String.list_ascii_of_string_of_list_ascii. Qed.

Lemma chars_app a b : chars (a +:+ b) = chars a ++ chars b.
Proof. induction a as [|c a IH]; simpl; [done|by rewrite IH]. Qed.

Lemma length_chars s : length (chars s) = String.length s.
Proof. induction s as [|c s IH]; simpl; [done|by rewrite IH]. Qed.

Lemma is_empty_true s : is_empty s = true <-> s = "".
Proof. by destruct s. Qed.

Lemma is_empty_false s : is_empty s = false <-> s <> "".
Proof. by destruct s. Qed.

Lemma all_chars_spec p s : all_chars p s = true <-> Forall (fun c => p c = true) (chars s).
Proof. unfold all_chars. by rewrite forallb_forall, List.Forall_forall. Qed.

Lemma all_chars_app p a b : all_chars p (a +:+ b) = all_chars p a && all_chars p b.
Proof. unfold all_chars. by rewrite chars_app, forallb_app. Qed.

Lemma any_char_spec p s : any_char p s = true <-> exists c, c ∈ chars s /\ p c = true.
Proof.
  unfold any_char. rewrite existsb_exists.
  by setoid_rewrite list_elem_of_In.
Qed.

Lemma any_char_false p s : any_char p s = false <-> forall c, c ∈ chars s -> p c = false.
Proof.
  rewrite <- not_true_iff_false, any_char_spec. split.
  - intros H c Hc. apply not_true_iff_false. eauto.
  - intros H (c & Hc & Hp). rewrite (H c Hc) in Hp. done.
Qed.

Lemma any_char_app p a b : any_char p (a +:+ b) = any_char p a || any_char p b.
Proof. unfold any_char. by rewrite chars_app, existsb_app. Qed.

Lemma contains_char_spec c s : contains_char c s = true <-> c ∈ chars s.
Proof.
  unfold contains_char. rewrite any_char_spec. split.
  - intros (d & Hd & He). apply Ascii.eqb_eq in He. by subst.
  - intros H. exists c. by rewrite Ascii.eqb_refl.
Qed.

Lemma strip_prefix_Some p s r : strip_prefix p s = Some r <-> s = p +:+ r.
Proof.
  revert s. induction p as [|a p IH]; intros s; simpl.
  - split; [by intros [= ->]|by intros ->].
  - destruct s as [|b s]; [done|].
    destruct (Ascii.eqb_spec a b) as [->|Hne].
    + rewrite IH. split; [by intros ->|by intros [= ->]].
    + split; [done|by intros [= ]].
Qed.

Lemma strip_prefix_app p r : strip_prefix p (p +:+ r) = Some r.
Proof. by apply strip_prefix_Some. Qed.

Lemma split_once_Some c s a b :
  split_once c s = Some (a, b) <-> s = a +:+ String c b /\ c ∉ chars a.
Proof.
  revert a. induction s as [|d s IH]; intros a; simpl.
  - split; [done|]. intros [H _]. by destruct a.
  - destruct (Ascii.eqb_spec d c) as [->|Hne].
    + split.
      * intros [= <- <-]. split; [done|]. apply not_elem_of_nil.
      * intros [H Ha]. destruct a as [|e a]; simpl in *; [by inversion H|].
        inversion H; subst. destruct Ha. apply list_elem_of_here.
    + destruct (split_once c s) as [[l r]|] eqn:E.
      * split.
        -- intros [= <- <-]. destruct (IH l) as [[-> Hl] _]; [done|].
           split; [done|]. simpl. rewrite elem_of_cons. intros [?|?]; congruence.
        -- intros [H Ha]. destruct a as [|e a]; simpl in *; [by inversion H|].
           inversion H; subst. rewrite not_elem_of_cons in Ha. destruct Ha as [_ Ha].
           destruct (IH a) as [_ IH']. specialize (IH' (conj eq_refl Ha)). by simplify_eq.
      * split; [done|]. intros [H Ha]. destruct a as [|e a]; simpl in *; [by inversion H|].
        inversion H; subst. rewrite not_elem_of_cons in Ha. destruct Ha as [_ Ha].
        destruct (IH a) as [_ IH']. by specialize (IH' (conj eq_refl Ha)).
Qed.

Lemma split_once_None c s : split_once c s = None <-> c ∉ chars s.
Proof.
  induction s as [|d s IH]; simpl.
  - split; [intros _; apply not_elem_of_nil|done].
  - rewrite not_elem_of_cons. destruct (Ascii.eqb_spec d c) as [->|Hne].
    + split; [done|]. by intros [[] _].
    + destruct (split_once c s) as [[l r]|].
      * split; [done|]. intros [_ H]. by apply IH in H.
      * split; [|done]. intros _. split; [congruence|]. by apply IH.
Qed.

(** [o.or_else(|| p)] *)
Definition or_else {A} (o p : option A) : option A :=
  match o with Some _ => o | None => p end.

Infix "<|>" := or_else (at level 55, right associativity) : remerge_scope.

(** Facts about single characters are decided by enumerating the 256 bytes. *)
Ltac ascii_cases c := destruct c as [[] [] [] [] [] [] [] []]; vm_compute; try done; try congruence.

Lemma string_app_assoc a b c : (a +:+ b) +:+ c = a +:+ (b +:+ c).
Proof. induction a as [|x a IH]; [done|]. exact (f_equal (String x) IH). Qed.

Lemma string_app_nil_r a : a +:+ "" = a.
Proof. induction a as [|x a IH]; [done|]. exact (f_equal (String x) IH). Qed.

Lemma chars_cons c s : chars (String c s) = c :: chars s.
Proof. done. Qed.

Lemma all_chars_any_char p q s :
  (forall c, p c = true -> q c = false) -> all_chars p s = true -> any_char q s = false.
Proof.
  rewrite all_chars_spec, any_char_false, Forall_forall. eauto.
Qed.

Lemma chars_inj s t : chars s = chars t -> s = t.
Proof. intros H. by rewrite <- (of_chars_chars s), H, of_chars_chars. Qed.

Create HintDb remerge.
Create Rewrite HintDb remerge.
#[export] Hint Rewrite of_chars_chars chars_of_chars chars_app string_app_assoc
  string_app_nil_r blen_app length_to_be_bytes : remerge.
#[export] Hint Resolve blen_nonneg byte_to_Z_range : remerge.

(** Split every boolean conjunction and reflected comparison in the context. *)
Ltac reflect_bools :=
  repeat match goal with
  | H : _ && _ = true |- _ => apply andb_true_iff in H; destruct H
  | H : _ || _ = false |- _ => apply orb_false_iff in H; destruct H
  | H : negb _ = true |- _ => apply negb_true_iff in H
  | H : negb _ = false |- _ => apply negb_false_iff in H
  | H : (_ <? _) = true |- _ => apply Z.ltb_lt in H
  | H : (_ <? _) = false |- _ => apply Z.ltb_ge in H
  | H : (_ <=? _) = true |- _ => apply Z.leb_le in H
  | H : (_ <=? _) = false |- _ => apply Z.leb_gt in H
  | H : (_ =? _) = true |- _ => apply Z.eqb_eq in H
  | H : (_ =? _) = false |- _ => apply Z.eqb_neq in H
  | H : bool_decide _ = true |- _ => apply bool_decide_eq_true in H
  | H : bool_decide _ = false |- _ => apply bool_decide_eq_false in H
  end.

(** ** Encodings

    An encoding of any countable type as bytes: the reference instance of the
    codecs that the components take as parameters. *)
Fixpoint positive_to_bytes (p : positive) : bytes :=
  match p with
  | xH => []
  | xO q => Byte.x00 :: positive_to_bytes q
  | xI q => Byte.x01 :: positive_to_bytes q
  end.

Fixpoint positive_of_bytes (b : bytes) : positive :=
  match b with
  | [] => xH
  | x :: r => if bool_decide (x = Byte.x00) then xO (positive_of_bytes r) else xI (positive_of_bytes r)
  end.

Lemma positive_of_to_bytes p : positive_of_bytes (positive_to_bytes p) = p.
Proof. induction p as [p IH|p IH|]; simpl; by rewrite ?IH. Qed.

Definition to_bytes `{Countable A} (a : A) : bytes := positive_to_bytes (encode a).
Definition of_bytes `{Countable A} (b : bytes) : option A := countable.decode (positive_of_bytes b).

Lemma of_to_bytes `{Countable A} (a : A) : of_bytes (to_bytes a) = Some a.
Proof. unfold of_bytes, to_bytes. rewrite positive_of_to_bytes. apply decode_encode. Qed.

(** ** Splitting strings *)

(** [s.split(c)] *)
Fixpoint split_on (c : ascii) (s : string) : list string :=
  match s with
  | EmptyString => [""]
  | String a r =>
      if Ascii.eqb a c then "" :: split_on c r
      else match split_on c r with
           | [] => [String a ""]
           | x :: rest => String a x :: rest
           end
  end.

Lemma split_on_none c s : c ∉ chars s -> split_on c s = [s].
Proof.
  induction s as [|a s IH]; [done|]. rewrite chars_cons, not_elem_of_cons. intros [Hne Hs]. cbn [split_on].
  destruct (Ascii.eqb_spec a c); [congruence|]. by rewrite IH.
Qed.

Lemma split_on_app c a s : c ∉ chars a -> split_on c (a +:+ String c s) = a :: split_on c s.
Proof.
  induction a as [|x a IH].
  - intros _. change ("" +:+ String c s) with (String c s). cbn [split_on]. by rewrite Ascii.eqb_refl.
  - rewrite chars_cons, not_elem_of_cons. intros [Hne Ha].
    change (String x a +:+ String c s) with (String x (a +:+ String c s)). cbn [split_on].
    destruct (Ascii.eqb_spec x c); [congruence|]. by rewrite (IH Ha).
Qed.

Lemma lowercase_app a b : lowercase (a +:+ b) = lowercase a +:+ lowercase b.
Proof.
  apply chars_inj. unfold lowercase. rewrite (chars_app (of_chars _)), !chars_of_chars, chars_app. apply map_app.
Qed.

(** [a.eq_ignore_ascii_case(b)] *)
Definition eq_ignore_ascii_case (a b : string) : bool := bool_decide (lowercase a = lowercase b).

(** ** Stable sorting by an integer key ([slice::sort_by_key]) *)
Section SortByKey.
Context {A : Type} (key : A -> Z).

Fixpoint insert_by_key (x : A) (l : list A) : list A :=
  match l with
  | [] => [x]
  | y :: r => if key x <=? key y then x :: l else y :: insert_by_key x r
  end.

Definition sort_by_key (l : list A) : list A := fold_right insert_by_key [] l.

Lemma insert_by_key_Permutation x l : insert_by_key x l ≡ₚ x :: l.
Proof.
  induction l as [|y r IH]; simpl; [done|]. case_match; [done|]. rewrite IH. apply Permutation_swap.
Qed.

Lemma sort_by_key_Permutation l : sort_by_key l ≡ₚ l.
Proof. induction l as [|x l IH]; simpl; [done|]. by rewrite insert_by_key_Permutation, IH. Qed.

Definition key_le (x y : A) : Prop := key x <= key y.

Lemma insert_by_key_sorted x l : StronglySorted key_le l -> StronglySorted key_le (insert_by_key x l).
Proof.
  induction 1 as [|y r Hs IH Hall]; simpl; [repeat constructor|].
  destruct (Z.leb_spec (key x) (key y)) as [Hle|Hlt].
  - constructor; [by constructor|]. constructor; [done|].
    eapply Forall_impl; [exact Hall|]. unfold key_le. intros z Hz. lia.
  - constructor; [done|]. rewrite insert_by_key_Permutation. constructor; [unfold key_le; lia|done].
Qed.

Lemma sort_by_key_sorted l : StronglySorted key_le (sort_by_key l).
Proof. induction l as [|x l IH]; simpl; [constructor|]. by apply insert_by_key_sorted. Qed.

(** [iter.min_by_key(key)]: the first of the smallest elements. *)
Definition min_step (acc : option A) (x : A) : option A :=
  match acc with
  | None => Some x
  | Some y => if key x <? key y then Some x else Some y
  end.
Definition min_by_key (l : list A) : option A := fold_left min_step l None.

Lemma min_step_Some l acc y :
  fold_left min_step l acc = Some y ->
  (acc = Some y \/ y ∈ l) /\ (forall x, x ∈ l \/ acc = Some x -> key y <= key x).
Proof.
  revert acc. induction l as [|z l IH]; intros acc; simpl.
  - intros ->. split; [by left|]. intros x [Hx|Hx]; [by apply not_elem_of_nil in Hx|]. injection Hx as ->. lia.
  - intros Hf. apply IH in Hf as [Hin Hmin]. unfold min_step in *. split.
    + destruct acc as [a|]; [destruct (key z <? key a)|]; destruct Hin as [Hin|Hin];
        try (right; by apply list_elem_of_further); try (injection Hin as <-; right; apply list_elem_of_here).
      by left.
    + intros x [Hx|Hx].
      * apply elem_of_cons in Hx as [->|Hx]; [|by apply Hmin; left].
        destruct acc as [a|]; [|by apply Hmin; right].
        destruct (Z.ltb_spec (key z) (key a)); [by apply Hmin; right|].
        specialize (Hmin a (or_intror eq_refl)). lia.
      * subst acc. destruct (Z.ltb_spec (key z) (key x)) as [Hlt|]; [|by apply Hmin; right].
        specialize (Hmin z (or_intror eq_refl)). lia.
Qed.

Lemma min_by_key_Some l y : min_by_key l = Some y -> y ∈ l /\ forall x, x ∈ l -> key y <= key x.
Proof. intros Hf. apply min_step_Some in Hf as [[?|?] Hmin]; [done|]. split; [done|]. auto. Qed.

Lemma min_by_key_None l : min_by_key l = None -> l = [].
Proof.
  assert (Hs : forall l a, fold_left min_step l (Some a) <> None).
  { clear l. induction l as [|x l IH]; intros a; simpl; [done|]. destruct (key x <? key a); apply IH. }
  destruct l as [|x l]; [done|]. unfold min_by_key. simpl. intros Hf. by apply Hs in Hf.
Qed.
End SortByKey.

(** ** Counting the entries of a map *)
Section CountIf.
Context `{Countable K} {V : Type} (f : V -> bool).

Definition count_if (m : gmap K V) : Z := Z.of_nat (size (filter (fun kv => f kv.2 = true) m)).

(** Whether an optional entry counts. *)
Definition counts (o : option V) : Z := match o with Some v => if f v then 1 else 0 | None => 0 end.

Lemma count_if_empty : count_if ∅ = 0.
Proof. unfold count_if. by rewrite map_filter_empty, map_size_empty. Qed.

Lemma count_if_delete m k : count_if (delete k m) = count_if m - counts (m !! k).
Proof.
  unfold count_if, counts. rewrite map_filter_delete, map_size_delete.
  destruct (m !! k) as [v|] eqn:E; [destruct (f v) eqn:Ef|].
  - rewrite (proj2 (map_lookup_filter_Some _ m k v)) by done.
    assert (size (filter (fun kv => f kv.2 = true) m) <> 0)%nat; [|simpl; lia].
    apply (map_size_ne_0_lookup_2 _ k). exists v. by apply map_lookup_filter_Some.
  - rewrite (proj2 (map_lookup_filter_None _ m k)); [unfold id; lia|]. right. intros v' Hv'. simplify_eq. simpl. congruence.
  - rewrite (proj2 (map_lookup_filter_None _ m k)) by (by left). unfold id. lia.
Qed.

Lemma count_if_insert m k v :
  count_if (<[k := v]> m) = count_if m - counts (m !! k) + counts (Some v).
Proof.
  rewrite <- insert_delete_eq, <- count_if_delete. unfold count_if, counts. destruct (f v) eqn:Ef.
  - rewrite map_filter_insert_True by done. rewrite map_size_insert_None; [lia|].
    apply map_lookup_filter_None. left. apply lookup_delete_eq.
  - rewrite map_filter_insert_not'; [lia|simpl; congruence|].
    intros y. by rewrite lookup_delete_eq.
Qed.

Lemma count_if_nonneg m : 0 <= count_if m.
Proof. unfold count_if. lia. Qed.

Lemma counts_bound o : 0 <= counts o <= 1.
Proof. unfold counts. repeat case_match; lia. Qed.

End CountIf.

(** ** Ordered iteration

    A [BTreeMap<String, V>] or [BTreeSet<String>] is iterated in the order of the
    bytes of its keys. *)

Definition string_le (a b : string) : Prop := String.leb a b = true.

#[global] Instance string_le_dec : RelDecision string_le.
Proof. intros a b. unfold string_le. apply _. Defined.

Definition btree_elements (X : gset string) : list string := merge_sort string_le (elements X).
Definition btree_keys {V} (m : gmap string V) : list string := merge_sort string_le ((map_to_list m).*1).
(** [for (k, v) in &m] *)
Definition btree_items {V} (m : gmap string V) : list (string * V) :=
  omap (fun k => (fun v => (k, v)) <$> m !! k) (btree_keys m).

Lemma elem_of_btree_elements X s : s ∈ btree_elements X <-> s ∈ X.
Proof. unfold btree_elements. by rewrite merge_sort_Permutation, elem_of_elements. Qed.

Lemma elem_of_btree_keys {V} (m : gmap string V) k : k ∈ btree_keys m <-> is_Some (m !! k).
Proof.
  unfold btree_keys. rewrite merge_sort_Permutation, list_elem_of_fmap. split.
  - intros ([k' v] & -> & Hin). apply elem_of_map_to_list in Hin. simpl. eauto.
  - intros [v Hv]. exists (k, v). by rewrite elem_of_map_to_list.
Qed.

Lemma elem_of_btree_items {V} (m : gmap string V) k v : (k, v) ∈ btree_items m <-> m !! k = Some v.
Proof.
  unfold btree_items. rewrite list_elem_of_omap. split.
  - intros (k' & _ & Hf). destruct (m !! k') eqn:E; simpl in Hf; by simplify_eq.
  - intros Hv. exists k. rewrite elem_of_btree_keys, Hv. by split; [eauto|].
Qed.

Lemma NoDup_btree_keys {V} (m : gmap string V) : NoDup (btree_keys m).
Proof. unfold btree_keys. rewrite merge_sort_Permutation. apply NoDup_fst_map_to_list. Qed.

Lemma btree_items_keys {V} (m : gmap string V) : (btree_items m).*1 = btree_keys m.
Proof.
  unfold btree_items. assert (Hall : Forall (fun k => is_Some (m !! k)) (btree_keys m)).
  { apply Forall_forall. intros k. by rewrite elem_of_btree_keys. }
  induction Hall as [|k ks [v Hv] _ IH]; [done|]. cbn [omap list_omap]. rewrite Hv. cbn. f_equal. exact IH.
Qed.

Lemma NoDup_btree_items {V} (m : gmap string V) : NoDup (btree_items m).*1.
Proof. rewrite btree_items_keys. apply NoDup_btree_keys. Qed.

Lemma NoDup_btree_elements X : NoDup (btree_elements X).
Proof. unfold btree_elements. rewrite merge_sort_Permutation. apply NoDup_elements. Qed.
