(* ===== verification/Types.v ===== *)
(** * Shared data types ([crates/types])

    The structs and enums the CLI, the server and the worker exchange, with the
    source's constructors and fields (a field [f] of a struct [S] is named with
    a short prefix of [S]).  UUIDs are 128-bit numbers, here [N]; [DateTime<Utc>]
    is a count of seconds, here [Z]; [BTreeMap] and [HashMap] are [gmap]s. *)

From S2P Require Import Prelude.

Abbreviation Uuid := N.
Abbreviation ClientId := N.
Abbreviation WorkorderId := N.
Abbreviation DateTime := Z.

(** ** [client.rs] *)

Inductive ClientRole := Main | Follower.

#[global] Instance ClientRole_eq_dec : EqDecision ClientRole.
Proof. solve_decision. Defined.

Definition ClientRole_display (r : ClientRole) : string :=
  match r with Main => "main" | Follower => "follower" end.

Definition ClientRole_from_str (s : string) : Result ClientRole string :=
  if bool_decide (s = "main") then Ok Main
  else if bool_decide (s = "follower") then Ok Follower
  else Err ("unknown role '" +:+ s +:+ "' (expected 'main' or 'follower')").

Record ClientState := {
  cs_client_id : ClientId;
  cs_config_hash : string;
  cs_system_hash : string;
  cs_last_seen : DateTime;
  cs_active_workorder : option WorkorderId;
}.

#[global] Instance ClientState_eq_dec : EqDecision ClientState.
Proof. solve_decision. Defined.

Record ConfigDiff := { portage_changed : bool; system_changed : bool }.

#[global] Instance ConfigDiff_eq_dec : EqDecision ConfigDiff.
Proof. solve_decision. Defined.

Definition ConfigDiff_is_empty (d : ConfigDiff) : bool :=
  negb (portage_changed d) && negb (system_changed d).

(** ** [auth.rs] *)

Inductive AuthMode := AuthNone | Mtls | Mixed.

#[global] Instance AuthMode_eq_dec : EqDecision AuthMode.
Proof. solve_decision. Defined.

Definition AuthMode_display (m : AuthMode) : string :=
  match m with AuthNone => "none" | Mtls => "mtls" | Mixed => "mixed" end.

Definition AuthMode_from_str (s : string) : Result AuthMode string :=
  if bool_decide (s = "none") then Ok AuthNone
  else if bool_decide (s = "mtls") then Ok Mtls
  else if bool_decide (s = "mixed") then Ok Mixed
  else Err ("unknown auth mode '" +:+ s +:+ "' (expected 'none', 'mtls', or 'mixed')").

(** ** [trace.rs] *)

Record TraceContext := { tc_trace_id : string; tc_traceparent : string }.

#[global] Instance TraceContext_eq_dec : EqDecision TraceContext.
Proof. solve_decision. Defined.

(** ** [portage.rs] *)

Definition SNAPSHOT_MANIFEST_VERSION_V1 : Z := 1.

Record SnapshotEntry := { se_digest : string; se_size : Z; se_mtime_secs : Z }.

#[global] Instance SnapshotEntry_eq_dec : EqDecision SnapshotEntry.
Proof. solve_decision. Defined.

Record RepoSnapshotManifest := {
  rsm_tree_digest : string;
  rsm_entries : gmap string SnapshotEntry;
}.

#[global] Instance RepoSnapshotManifest_eq_dec : EqDecision RepoSnapshotManifest.
Proof. solve_decision. Defined.

Definition RepoSnapshotManifest_default : RepoSnapshotManifest :=
  {| rsm_tree_digest := ""; rsm_entries := ∅ |}.

Record SnapshotManifest := {
  sm_version : Z;
  sm_repo_snapshots : gmap string RepoSnapshotManifest;
  sm_distfiles : gmap string SnapshotEntry;
}.

#[global] Instance SnapshotManifest_eq_dec : EqDecision SnapshotManifest.
Proof. solve_decision. Defined.

Definition SnapshotManifest_default : SnapshotManifest :=
  {| sm_version := SNAPSHOT_MANIFEST_VERSION_V1; sm_repo_snapshots := ∅; sm_distfiles := ∅ |}.

Record MakeConf := {
  mc_cflags : string;
  mc_cxxflags : string;
  mc_ldflags : string;
  mc_makeopts : string;
  mc_use_flags : list string;
  mc_features : list string;
  mc_accept_license : string;
  mc_accept_keywords : string;
  mc_emerge_default_opts : string;
  mc_chost : string;
  mc_cpu_flags : option (string * list string);
  mc_original_cflags : option string;
  mc_use_expand : gmap string (list string);
  mc_extra : gmap string string;
  mc_use_flags_resolved : bool;
}.

#[global] Instance MakeConf_eq_dec : EqDecision MakeConf.
Proof. solve_decision. Defined.

Definition MakeConf_default : MakeConf := {|
  mc_cflags := "-O2 -pipe";
  mc_cxxflags := "${CFLAGS}";
  mc_ldflags := "-Wl,-O1 -Wl,--as-needed";
  mc_makeopts := "-j1";
  mc_use_flags := [];
  mc_features := [];
  mc_accept_license := "-* @FREE";
  mc_accept_keywords := "amd64";
  mc_emerge_default_opts := "";
  mc_chost := "x86_64-pc-linux-gnu";
  mc_cpu_flags := None;
  mc_original_cflags := None;
  mc_use_expand := ∅;
  mc_extra := ∅;
  mc_use_flags_resolved := false;
|}.

Record PackageUseEntry := { pu_atom : string; pu_flags : list string }.
Record PackageKeywordEntry := { pk_atom : string; pk_keywords : list string }.
Record PackageLicenseEntry := { pl_atom : string; pl_licenses : list string }.
Record PackageEnvEntry := { pe_atom : string; pe_env_file : string }.

Record PortageConfig := {
  pc_make_conf : MakeConf;
  pc_package_use : list PackageUseEntry;
  pc_package_accept_keywords : list PackageKeywordEntry;
  pc_package_license : list PackageLicenseEntry;
  pc_package_mask : list string;
  pc_package_unmask : list string;
  pc_package_env : list PackageEnvEntry;
  pc_env_files : gmap string string;
  pc_repos_conf : gmap string string;
  pc_snapshot_manifest : SnapshotManifest;
  pc_repo_snapshots : gmap string (gmap string string);
  pc_repo_snapshot_refs : gmap string (gmap string string);
  pc_repo_snapshot_trees : gmap string string;
  pc_patches : gmap string string;
  pc_profile_overlay : gmap string string;
  pc_distfile_snapshots : gmap string bytes;
  pc_distfile_snapshot_refs : gmap string string;
  pc_profile : string;
  pc_world : list string;
}.

Record SystemIdentity := {
  si_arch : string;
  si_chost : string;
  si_gcc_version : string;
  si_libc_version : string;
  si_kernel_version : string;
  si_python_targets : list string;
  si_profile : string;
}.

#[global] Instance SystemIdentity_eq_dec : EqDecision SystemIdentity.
Proof. solve_decision. Defined.

(** ** [workorder.rs] *)

Inductive WorkorderStatus :=
| Pending
| Provisioning
| Building
| Completed
| Failed (reason : string)
| Cancelled.

#[global] Instance WorkorderStatus_eq_dec : EqDecision WorkorderStatus.
Proof. solve_decision. Defined.

Record Workorder := {
  wo_id : WorkorderId;
  wo_client_id : ClientId;
  wo_role : ClientRole;
  wo_atoms : list string;
  wo_emerge_args : list string;
  wo_portage_config : PortageConfig;
  wo_system_id : SystemIdentity;
  wo_trace_context : option TraceContext;
  wo_status : WorkorderStatus;
  wo_created_at : DateTime;
  wo_updated_at : DateTime;
}.

Inductive BuildEvent :=
| StatusChanged (from to : WorkorderStatus)
| Log (line : string)
| PackageBuilt (atom : string) (duration_secs : Z)
| PackageFailed (atom reason : string)
| Finished (built failed : list string).

#[global] Instance BuildEvent_eq_dec : EqDecision BuildEvent.
Proof. solve_decision. Defined.

Record BuildProgress := {
  bp_workorder_id : WorkorderId;
  bp_trace_id : option string;
  bp_event : BuildEvent;
  bp_timestamp : DateTime;
}.

Record ParityFileEntry := { pfe_digest : string; pfe_size : Z; pfe_mtime_secs : Z }.
Record ParityDirectoryEntry := { pde_mtime_secs : Z }.
Record ParitySymlinkEntry := { pse_digest : string; pse_size : Z; pse_mtime_secs : Z }.

Record ParityManifest := {
  pm_files : gmap string ParityFileEntry;
  pm_directories : gmap string ParityDirectoryEntry;
  pm_symlinks : gmap string ParitySymlinkEntry;
}.

Definition ParityManifest_default : ParityManifest :=
  {| pm_files := ∅; pm_directories := ∅; pm_symlinks := ∅ |}.

Record BuiltPackage := {
  bpk_atom : string;
  bpk_binpkg_path : string;
  bpk_sha256 : string;
  bpk_size : Z;
}.

Record FailedPackage := {
  fpk_atom : string;
  fpk_reason : string;
  fpk_build_log : option string;
}.

Record WorkorderResult := {
  wr_workorder_id : WorkorderId;
  wr_built_packages : list BuiltPackage;
  wr_failed_packages : list FailedPackage;
  wr_binhost_uri : string;
  wr_fetched_distfiles : gmap string SnapshotEntry;
  wr_parity_manifest : ParityManifest;
}.

(** The three [matches!] tests on a status that the server repeats. *)
Definition is_active (s : WorkorderStatus) : bool :=
  match s with Pending | Provisioning | Building => true | _ => false end.
Definition is_terminal (s : WorkorderStatus) : bool :=
  match s with Completed | Cancelled | Failed _ => true | _ => false end.
Definition is_in_flight (s : WorkorderStatus) : bool :=
  match s with Provisioning | Building => true | _ => false end.

Lemma is_terminal_active s : is_terminal s = negb (is_active s).
Proof. by destruct s. Qed.

(** [w.status = ...; w.updated_at = ...] *)
Definition with_status (st : WorkorderStatus) (now : DateTime) (w : Workorder) : Workorder := {|
  wo_id := wo_id w; wo_client_id := wo_client_id w; wo_role := wo_role w;
  wo_atoms := wo_atoms w; wo_emerge_args := wo_emerge_args w;
  wo_portage_config := wo_portage_config w; wo_system_id := wo_system_id w;
  wo_trace_context := wo_trace_context w;
  wo_status := st; wo_created_at := wo_created_at w; wo_updated_at := now;
|}.

(** ** Parsing and printing of the two configuration enums *)

Lemma ClientRole_from_str_display r : ClientRole_from_str (ClientRole_display r) = Ok r.
Proof. by destruct r. Qed.

Lemma ClientRole_from_str_Ok s r : ClientRole_from_str s = Ok r -> ClientRole_display r = s.
Proof. unfold ClientRole_from_str. repeat case_bool_decide; by intros [= <-]. Qed.

Lemma AuthMode_from_str_display m : AuthMode_from_str (AuthMode_display m) = Ok m.
Proof. by destruct m. Qed.

Lemma AuthMode_from_str_Ok s m : AuthMode_from_str s = Ok m -> AuthMode_display m = s.
Proof. unfold AuthMode_from_str. repeat case_bool_decide; by intros [= <-]. Qed.
