(* ===== verification/Codecs.v ===== *)
(** * Reference encodings of the shared types

    Every shared type is countable, which gives it an encoding as bytes with the
    round-trip law that the theorems ask of [serde_json].  Used only to run the
    model on concrete states. *)

From S2P Require Import Prelude Types.

#[global] Instance ClientRole_countable : Countable ClientRole.
Proof.
  refine (inj_countable' (fun r => match r with Main => true | Follower => false end)
    (fun b => if b then Main else Follower) _). by intros [].
Defined.

#[global] Instance ClientState_countable : Countable ClientState.
Proof.
  refine (inj_countable' (fun s => (cs_client_id s, cs_config_hash s, cs_system_hash s, cs_last_seen s,
    cs_active_workorder s)) (fun '(a, b, c, d, e) => {| cs_client_id := a; cs_config_hash := b;
    cs_system_hash := c; cs_last_seen := d; cs_active_workorder := e |}) _). by intros [].
Defined.

#[global] Instance TraceContext_countable : Countable TraceContext.
Proof.
  refine (inj_countable' (fun t => (tc_trace_id t, tc_traceparent t))
    (fun '(a, b) => {| tc_trace_id := a; tc_traceparent := b |}) _). by intros [].
Defined.

#[global] Instance SnapshotEntry_countable : Countable SnapshotEntry.
Proof.
  refine (inj_countable' (fun s => (se_digest s, se_size s, se_mtime_secs s))
    (fun '(a, b, c) => {| se_digest := a; se_size := b; se_mtime_secs := c |}) _). by intros [].
Defined.

#[global] Instance RepoSnapshotManifest_countable : Countable RepoSnapshotManifest.
Proof.
  refine (inj_countable' (fun s => (rsm_tree_digest s, rsm_entries s))
    (fun '(a, b) => {| rsm_tree_digest := a; rsm_entries := b |}) _). by intros [].
Defined.

#[global] Instance SnapshotManifest_countable : Countable SnapshotManifest.
Proof.
  refine (inj_countable' (fun s => (sm_version s, sm_repo_snapshots s, sm_distfiles s))
    (fun '(a, b, c) => {| sm_version := a; sm_repo_snapshots := b; sm_distfiles := c |}) _). by intros [].
Defined.

#[global] Instance MakeConf_countable : Countable MakeConf.
Proof.
  refine (inj_countable' (fun s => (mc_cflags s, mc_cxxflags s, mc_ldflags s, mc_makeopts s, mc_use_flags s,
    mc_features s, mc_accept_license s, mc_accept_keywords s, mc_emerge_default_opts s, mc_chost s,
    mc_cpu_flags s, mc_original_cflags s, mc_use_expand s, mc_extra s, mc_use_flags_resolved s))
    (fun '(a, b, c, d, e, f, g, h, i, j, k, l, m, n, o) => {| mc_cflags := a; mc_cxxflags := b;
    mc_ldflags := c; mc_makeopts := d; mc_use_flags := e; mc_features := f; mc_accept_license := g;
    mc_accept_keywords := h; mc_emerge_default_opts := i; mc_chost := j; mc_cpu_flags := k;
    mc_original_cflags := l; mc_use_expand := m; mc_extra := n; mc_use_flags_resolved := o |}) _).
  by intros [].
Defined.

#[global] Instance PackageUseEntry_eq_dec : EqDecision PackageUseEntry.
Proof. solve_decision. Defined.
#[global] Instance PackageUseEntry_countable : Countable PackageUseEntry.
Proof.
  refine (inj_countable' (fun s => (pu_atom s, pu_flags s))
    (fun '(a, b) => {| pu_atom := a; pu_flags := b |}) _). by intros [].
Defined.

#[global] Instance PackageKeywordEntry_eq_dec : EqDecision PackageKeywordEntry.
Proof. solve_decision. Defined.
#[global] Instance PackageKeywordEntry_countable : Countable PackageKeywordEntry.
Proof.
  refine (inj_countable' (fun s => (pk_atom s, pk_keywords s))
    (fun '(a, b) => {| pk_atom := a; pk_keywords := b |}) _). by intros [].
Defined.

#[global] Instance PackageLicenseEntry_eq_dec : EqDecision PackageLicenseEntry.
Proof. solve_decision. Defined.
#[global] Instance PackageLicenseEntry_countable : Countable PackageLicenseEntry.
Proof.
  refine (inj_countable' (fun s => (pl_atom s, pl_licenses s))
    (fun '(a, b) => {| pl_atom := a; pl_licenses := b |}) _). by intros [].
Defined.

#[global] Instance PackageEnvEntry_eq_dec : EqDecision PackageEnvEntry.
Proof. solve_decision. Defined.
#[global] Instance PackageEnvEntry_countable : Countable PackageEnvEntry.
Proof.
  refine (inj_countable' (fun s => (pe_atom s, pe_env_file s))
    (fun '(a, b) => {| pe_atom := a; pe_env_file := b |}) _). by intros [].
Defined.

#[global] Instance PortageConfig_eq_dec : EqDecision PortageConfig.
Proof. solve_decision. Defined.
#[global] Instance PortageConfig_countable : Countable PortageConfig.
Proof.
  refine (inj_countable' (fun s => (pc_make_conf s, pc_package_use s, pc_package_accept_keywords s,
    pc_package_license s, pc_package_mask s, pc_package_unmask s, pc_package_env s, pc_env_files s,
    pc_repos_conf s, pc_snapshot_manifest s, pc_repo_snapshots s, pc_repo_snapshot_refs s,
    pc_repo_snapshot_trees s, pc_patches s, pc_profile_overlay s, pc_distfile_snapshots s,
    pc_distfile_snapshot_refs s, pc_profile s, pc_world s))
    (fun '(a, b, c, d, e, f, g, h, i, j, k, l, m, n, o, p, q, r, t) => {| pc_make_conf := a;
    pc_package_use := b; pc_package_accept_keywords := c; pc_package_license := d; pc_package_mask := e;
    pc_package_unmask := f; pc_package_env := g; pc_env_files := h; pc_repos_conf := i;
    pc_snapshot_manifest := j; pc_repo_snapshots := k; pc_repo_snapshot_refs := l;
    pc_repo_snapshot_trees := m; pc_patches := n; pc_profile_overlay := o; pc_distfile_snapshots := p;
    pc_distfile_snapshot_refs := q; pc_profile := r; pc_world := t |}) _). by intros [].
Defined.

#[global] Instance SystemIdentity_countable : Countable SystemIdentity.
Proof.
  refine (inj_countable' (fun s => (si_arch s, si_chost s, si_gcc_version s, si_libc_version s,
    si_kernel_version s, si_python_targets s, si_profile s))
    (fun '(a, b, c, d, e, f, g) => {| si_arch := a; si_chost := b; si_gcc_version := c;
    si_libc_version := d; si_kernel_version := e; si_python_targets := f; si_profile := g |}) _). by intros [].
Defined.

#[global] Instance WorkorderStatus_countable : Countable WorkorderStatus.
Proof.
  refine (inj_countable' (fun s => match s with Pending => (0, "") | Provisioning => (1, "") | Building => (2, "")
      | Completed => (3, "") | Failed r => (4, r) | Cancelled => (5, "") end)
    (fun '(k, r) => if k =? 0 then Pending else if k =? 1 then Provisioning else if k =? 2 then Building
      else if k =? 3 then Completed else if k =? 4 then Failed r else Cancelled) _). by intros [].
Defined.

#[global] Instance Workorder_eq_dec : EqDecision Workorder.
Proof. solve_decision. Defined.
#[global] Instance Workorder_countable : Countable Workorder.
Proof.
  refine (inj_countable' (fun s => (wo_id s, wo_client_id s, wo_role s, wo_atoms s, wo_emerge_args s,
    wo_portage_config s, wo_system_id s, wo_trace_context s, wo_status s, wo_created_at s, wo_updated_at s))
    (fun '(a, b, c, d, e, f, g, h, i, j, k) => {| wo_id := a; wo_client_id := b; wo_role := c; wo_atoms := d;
    wo_emerge_args := e; wo_portage_config := f; wo_system_id := g; wo_trace_context := h; wo_status := i;
    wo_created_at := j; wo_updated_at := k |}) _). by intros [].
Defined.

#[global] Instance ParityFileEntry_eq_dec : EqDecision ParityFileEntry.
Proof. solve_decision. Defined.
#[global] Instance ParityFileEntry_countable : Countable ParityFileEntry.
Proof.
  refine (inj_countable' (fun s => (pfe_digest s, pfe_size s, pfe_mtime_secs s))
    (fun '(a, b, c) => {| pfe_digest := a; pfe_size := b; pfe_mtime_secs := c |}) _). by intros [].
Defined.

#[global] Instance ParityDirectoryEntry_eq_dec : EqDecision ParityDirectoryEntry.
Proof. solve_decision. Defined.
#[global] Instance ParityDirectoryEntry_countable : Countable ParityDirectoryEntry.
Proof.
  refine (inj_countable' (fun s => pde_mtime_secs s) (fun a => {| pde_mtime_secs := a |}) _). by intros [].
Defined.

#[global] Instance ParitySymlinkEntry_eq_dec : EqDecision ParitySymlinkEntry.
Proof. solve_decision. Defined.
#[global] Instance ParitySymlinkEntry_countable : Countable ParitySymlinkEntry.
Proof.
  refine (inj_countable' (fun s => (pse_digest s, pse_size s, pse_mtime_secs s))
    (fun '(a, b, c) => {| pse_digest := a; pse_size := b; pse_mtime_secs := c |}) _). by intros [].
Defined.

#[global] Instance ParityManifest_eq_dec : EqDecision ParityManifest.
Proof. solve_decision. Defined.
#[global] Instance ParityManifest_countable : Countable ParityManifest.
Proof.
  refine (inj_countable' (fun s => (pm_files s, pm_directories s, pm_symlinks s))
    (fun '(a, b, c) => {| pm_files := a; pm_directories := b; pm_symlinks := c |}) _). by intros [].
Defined.

#[global] Instance BuiltPackage_eq_dec : EqDecision BuiltPackage.
Proof. solve_decision. Defined.
#[global] Instance BuiltPackage_countable : Countable BuiltPackage.
Proof.
  refine (inj_countable' (fun s => (bpk_atom s, bpk_binpkg_path s, bpk_sha256 s, bpk_size s))
    (fun '(a, b, c, d) => {| bpk_atom := a; bpk_binpkg_path := b; bpk_sha256 := c; bpk_size := d |}) _).
  by intros [].
Defined.

#[global] Instance FailedPackage_eq_dec : EqDecision FailedPackage.
Proof. solve_decision. Defined.
#[global] Instance FailedPackage_countable : Countable FailedPackage.
Proof.
  refine (inj_countable' (fun s => (fpk_atom s, fpk_reason s, fpk_build_log s))
    (fun '(a, b, c) => {| fpk_atom := a; fpk_reason := b; fpk_build_log := c |}) _). by intros [].
Defined.

#[global] Instance WorkorderResult_eq_dec : EqDecision WorkorderResult.
Proof. solve_decision. Defined.
#[global] Instance WorkorderResult_countable : Countable WorkorderResult.
Proof.
  refine (inj_countable' (fun s => (wr_workorder_id s, wr_built_packages s, wr_failed_packages s,
    wr_binhost_uri s, wr_fetched_distfiles s, wr_parity_manifest s))
    (fun '(a, b, c, d, e, f) => {| wr_workorder_id := a; wr_built_packages := b; wr_failed_packages := c;
    wr_binhost_uri := d; wr_fetched_distfiles := e; wr_parity_manifest := f |}) _). by intros [].
Defined.
