(* ===== verification/Validation.v ===== *)
(** * Package atom validation ([crates/types/src/validation.rs])

    [validate_atom] guards every atom before it reaches [emerge].  The file
    translates it, gives the language it accepts as an inductive grammar and
    proves that the two agree. *)

From S2P Require Import Prelude.

Module Validation.

Inductive AtomValidationError :=
| Empty
| DangerousCharacters
| InvalidFormat (msg : string).

#[global] Instance AtomValidationError_eq_dec : EqDecision AtomValidationError.
Proof. solve_decision. Defined.

Definition AtomValidationError_display (e : AtomValidationError) : string :=
  match e with
  | Empty => "atom is empty"
  | DangerousCharacters => "atom contains dangerous shell metacharacters"
  | InvalidFormat msg => "invalid atom format: " +:+ msg
  end.

(** The 15 characters of [SHELL_CHARS], by code: back quote, dollar, backslash,
    both quotes, semicolon, ampersand, bar, parentheses, braces, newline,
    carriage return and NUL. *)
Definition SHELL_CHARS : list Z := [96; 36; 92; 34; 39; 59; 38; 124; 40; 41; 123; 125; 10; 13; 0].

Definition is_shell_char (c : ascii) : bool := existsb (Z.eqb (code c)) SHELL_CHARS.

(** [c.is_ascii_alphanumeric() || c == '-' || c == '_'] *)
Definition is_name_char (c : ascii) : bool :=
  is_ascii_alphanumeric c || (code c =? 45) || (code c =? 95).

(** [c.is_ascii_alphanumeric() || matches!(c, '-' | '_' | '.' | '+' | '*')] *)
Definition is_package_char (c : ascii) : bool :=
  is_ascii_alphanumeric c || existsb (Z.eqb (code c)) [45; 95; 46; 43; 42].

Definition slash : ascii := "/"%char.

Definition validate_package_name (package : string) : Result unit AtomValidationError :=
  if is_empty package then Err (InvalidFormat "empty package name")
  else if negb (all_chars is_package_char package)
  then Err (InvalidFormat "invalid package name characters")
  else Ok tt.

Definition strip_operator (atom : string) : string :=
  default atom
    (strip_prefix ">=" atom <|> strip_prefix "<=" atom <|> strip_prefix "=" atom <|>
     strip_prefix ">" atom <|> strip_prefix "<" atom <|> strip_prefix "~" atom).

Definition validate_atom (atom : string) : Result unit AtomValidationError :=
  if is_empty atom then Err Empty
  else if any_char is_shell_char atom then Err DangerousCharacters
  else match strip_prefix "@" atom with
  | Some set_name =>
      if is_empty set_name then Err (InvalidFormat "empty set name")
      else if negb (all_chars is_name_char set_name)
      then Err (InvalidFormat "invalid set name characters")
      else Ok tt
  | None =>
      let stripped := strip_operator atom in
      match split_once slash stripped with
      | Some (category, package) =>
          if contains_char slash package then Err (InvalidFormat "too many '/' separators")
          else if is_empty category then Err (InvalidFormat "empty category")
          else if negb (all_chars is_name_char category)
          then Err (InvalidFormat "invalid category characters")
          else if is_empty package then Err (InvalidFormat "empty package name")
          else validate_package_name package
      | None =>
          if bool_decide (stripped <> atom)
          then Err (InvalidFormat "version operators require a qualified category/package atom")
          else validate_package_name stripped
      end
  end.

(** ** The accepted language *)

Definition operators : list string := [""; ">="; "<="; "="; ">"; "<"; "~"].

Definition name_ok (s : string) : Prop := s <> "" /\ all_chars is_name_char s = true.
Definition package_ok (s : string) : Prop := s <> "" /\ all_chars is_package_char s = true.

Inductive ValidAtom : string -> Prop :=
| ValidSet name : name_ok name -> ValidAtom ("@" +:+ name)
| ValidQualified op category package :
    op ∈ operators -> name_ok category -> package_ok package ->
    ValidAtom (op +:+ category +:+ "/" +:+ package)
| ValidBare package : package_ok package -> ValidAtom package.

(** ** Agreement *)

Lemma name_char_package_char c : is_name_char c = true -> is_package_char c = true.
Proof. ascii_cases c. Qed.

Lemma package_char_not_shell c : is_package_char c = true -> is_shell_char c = false.
Proof. ascii_cases c. Qed.

Lemma package_char_not_slash c : is_package_char c = true -> Ascii.eqb slash c = false.
Proof. ascii_cases c. Qed.

Lemma name_char_not_shell c : is_name_char c = true -> is_shell_char c = false.
Proof. intros H. by apply package_char_not_shell, name_char_package_char. Qed.

Lemma name_char_not_slash c : is_name_char c = true -> Ascii.eqb slash c = false.
Proof. intros H. by apply package_char_not_slash, name_char_package_char. Qed.

Lemma package_no_slash s : all_chars is_package_char s = true -> slash ∉ chars s.
Proof.
  intros H. rewrite <- contains_char_spec. apply not_true_iff_false.
  by apply (all_chars_any_char is_package_char), H; first apply package_char_not_slash.
Qed.

Lemma name_no_slash s : all_chars is_name_char s = true -> slash ∉ chars s.
Proof.
  intros H. rewrite <- contains_char_spec. apply not_true_iff_false.
  by apply (all_chars_any_char is_name_char), H; first apply name_char_not_slash.
Qed.

Lemma validate_package_name_Ok s : validate_package_name s = Ok tt <-> package_ok s.
Proof.
  unfold validate_package_name, package_ok. rewrite <- is_empty_false.
  destruct (is_empty s), (all_chars is_package_char s); simpl; intuition congruence.
Qed.

(** A word that starts with a package character carries no operator and is
    not a set. *)
Lemma strip_operator_package_char c s :
  is_package_char c = true -> strip_operator (String c s) = String c s.
Proof. intros H. ascii_cases c. Qed.

Lemma strip_at_package_char c s :
  is_package_char c = true -> strip_prefix "@" (String c s) = None.
Proof. intros H. ascii_cases c. Qed.

Lemma strip_operator_op op c s :
  op ∈ operators -> is_name_char c = true ->
  strip_operator (op +:+ String c s) = String c s /\
  strip_prefix "@" (op +:+ String c s) = None /\
  any_char is_shell_char op = false /\
  is_empty (op +:+ String c s) = false.
Proof.
  unfold operators. rewrite !elem_of_cons, elem_of_nil.
  intros H Hc. assert (Hp := name_char_package_char c Hc).
  destruct H as [->|[->|[->|[->|[->|[->|[->|[]]]]]]]];
    (split; [|split; [|split; done]]); try done.
  - by apply strip_operator_package_char.
  - by apply strip_at_package_char.
  - ascii_cases c.
  - ascii_cases c.
Qed.

Lemma strip_operator_split atom :
  exists op, op ∈ operators /\ atom = op +:+ strip_operator atom.
Proof.
  unfold strip_operator, operators.
  repeat match goal with
  | |- context [strip_prefix ?p atom] =>
      destruct (strip_prefix p atom) eqn:?; cbn [or_else default];
      [match goal with H : strip_prefix p atom = Some _ |- _ =>
         apply strip_prefix_Some in H; exists p; split; [set_solver|exact H] end|]
  end.
  exists "". split; [set_solver|done].
Qed.

Lemma validate_atom_sound atom : validate_atom atom = Ok tt -> ValidAtom atom.
Proof.
  unfold validate_atom. destruct (is_empty atom); [done|].
  destruct (any_char is_shell_char atom); [done|].
  destruct (strip_prefix "@" atom) as [name|] eqn:Eat.
  - apply strip_prefix_Some in Eat as ->.
    destruct (is_empty name) eqn:He; [done|].
    destruct (all_chars is_name_char name) eqn:Ha; [|done].
    intros _. constructor. split; [by apply is_empty_false|done].
  - destruct (strip_operator_split atom) as (op & Hop & Hatom).
    destruct (split_once slash (strip_operator atom)) as [[cat pkg]|] eqn:Es.
    + apply split_once_Some in Es as [Es _].
      destruct (contains_char slash pkg); [done|].
      destruct (is_empty cat) eqn:Ec; [done|].
      destruct (all_chars is_name_char cat) eqn:Ha; [|done].
      destruct (is_empty pkg); [done|]. simpl.
      rewrite validate_package_name_Ok. intros Hp.
      rewrite Hatom, Es. apply ValidQualified; [done| |done].
      split; [by apply is_empty_false|done].
    + case_bool_decide as Hne; [done|]. rewrite Hne.
      rewrite validate_package_name_Ok. apply ValidBare.
Qed.

Lemma validate_atom_complete atom : ValidAtom atom -> validate_atom atom = Ok tt.
Proof.
  intros [name [Hne Ha]|op cat pkg Hop [Hne Ha] Hp|pkg Hp].
  - unfold validate_atom. change ("@" +:+ name) with (String "@" name).
    change (any_char is_shell_char (String "@" name)) with (any_char is_shell_char name).
    rewrite (all_chars_any_char is_name_char _ _ name_char_not_shell Ha). simpl.
    apply is_empty_false in Hne. by rewrite Hne, Ha.
  - destruct cat as [|c cat]; [done|]. clear Hne.
    assert (Hc : is_name_char c = true) by (apply andb_true_iff in Ha; tauto).
    change (String c cat +:+ "/" +:+ pkg) with (String c (cat +:+ "/" +:+ pkg)).
    destruct (strip_operator_op op c (cat +:+ "/" +:+ pkg) Hop Hc) as (H1 & H2 & H3 & H4).
    unfold validate_atom. rewrite H4, any_char_app, H3, H2, H1. clear H1 H2 H3 H4.
    change (String c (cat +:+ "/" +:+ pkg)) with (String c cat +:+ "/" +:+ pkg).
    rewrite !any_char_app, (all_chars_any_char _ _ _ name_char_not_shell Ha).
    rewrite (all_chars_any_char _ _ _ package_char_not_shell (proj2 Hp)). simpl (_ || _).
    assert (split_once slash (String c cat +:+ "/" +:+ pkg) = Some (String c cat, pkg)) as ->.
    { apply split_once_Some. split; [done|]. by apply name_no_slash. }
    destruct Hp as [Hpe Hpa].
    assert (contains_char slash pkg = false) as ->.
    { apply not_true_iff_false. rewrite contains_char_spec. by apply package_no_slash. }
    rewrite Ha. apply is_empty_false in Hpe as Hpe'. rewrite Hpe'. simpl.
    by apply validate_package_name_Ok.
  - assert (Hok := Hp). destruct Hp as [Hne Ha]. destruct pkg as [|c pkg]; [done|].
    assert (Hc : is_package_char c = true) by (apply andb_true_iff in Ha; tauto).
    unfold validate_atom. rewrite (all_chars_any_char _ _ _ package_char_not_shell Ha).
    rewrite strip_at_package_char, strip_operator_package_char by done. simpl (is_empty _).
    assert (split_once slash (String c pkg) = None) as ->.
    { by apply split_once_None, package_no_slash. }
    rewrite bool_decide_false by tauto. by apply validate_package_name_Ok.
Qed.

(** The characters an accepted atom can hold. *)
Definition is_atom_char (c : ascii) : bool :=
  is_package_char c || existsb (Z.eqb (code c)) [47; 64; 60; 61; 62; 126].

Lemma package_chars_atom_chars s : all_chars is_package_char s = true -> all_chars is_atom_char s = true.
Proof.
  rewrite !all_chars_spec. intros H. eapply Forall_impl; [exact H|].
  intros c Hc. unfold is_atom_char. by rewrite Hc.
Qed.

Lemma name_chars_atom_chars s : all_chars is_name_char s = true -> all_chars is_atom_char s = true.
Proof.
  intros H. apply package_chars_atom_chars. revert H. rewrite !all_chars_spec.
  intros H. eapply Forall_impl; [exact H|apply name_char_package_char].
Qed.

Lemma atom_char_safe c : is_atom_char c = true -> is_shell_char c = false /\ is_whitespace c = false.
Proof. ascii_cases c; intros; split; done. Qed.

Lemma valid_atom_chars atom : ValidAtom atom -> atom <> "" /\ all_chars is_atom_char atom = true.
Proof.
  intros [name [Hne Ha]|op cat pkg Hop [Hne Ha] [_ Hp]|pkg [Hne Hp]].
  - split; [done|]. by rewrite all_chars_app, (name_chars_atom_chars _ Ha).
  - split.
    + destruct cat; [done|]. intros E. apply (f_equal chars) in E.
      rewrite chars_app in E. apply app_eq_nil in E as [_ E]. done.
    + rewrite !all_chars_app, (name_chars_atom_chars _ Ha), (package_chars_atom_chars _ Hp).
      revert Hop. unfold operators. rewrite !elem_of_cons, elem_of_nil.
      intros [->|[->|[->|[->|[->|[->|[->|[]]]]]]]]; done.
  - split; [done|]. by apply package_chars_atom_chars.
Qed.

(** C35.  [validate_atom] accepts exactly the documented forms: a set [@name], a
    possibly version-qualified [category/package], or a bare package name. *)
Theorem validate_atom_iff_grammar atom : validate_atom atom = Ok tt <-> ValidAtom atom.
Proof. split; [apply validate_atom_sound|apply validate_atom_complete]. Qed.

(** An accepted atom is safe to hand to a shell-like consumer: it has no
    shell metacharacter and no white space, and it is not empty. *)
Theorem validate_atom_safe atom :
  validate_atom atom = Ok tt ->
  atom <> "" /\ forall c, c ∈ chars atom -> is_shell_char c = false /\ is_whitespace c = false.
Proof.
  intros H. apply validate_atom_sound in H. apply valid_atom_chars in H as [Hne Hall].
  split; [done|]. intros c Hc. rewrite all_chars_spec, Forall_forall in Hall.
  apply atom_char_safe. by apply Hall.
Qed.

Lemma validate_atom_safe_witness :
  ">=dev-libs/openssl-3.0" <> "" /\
  forall c, c ∈ chars ">=dev-libs/openssl-3.0" -> is_shell_char c = false /\ is_whitespace c = false.
Proof. apply (validate_atom_safe ">=dev-libs/openssl-3.0"). vm_compute. reflexivity. Defined.

End Validation.
