(* ===== verification/Frame.v ===== *)
(** * Chunk frames and transport compression

    The binary framing of snapshot uploads ([crates/types/src/api.rs],
    [SnapshotBlobChunkHeader]) and the decision when a zstd variant is worth
    keeping ([crates/types/src/compression.rs]).  The Adler-32 checksum comes
    from the [adler2] crate and zstd from the [zstd] crate: both are parameters. *)

From S2P Require Import Prelude.

Definition SNAPSHOT_BLOB_PROTOCOL_VERSION : Z := 1.
Definition SNAPSHOT_BLOB_CHUNK_MAGIC : bytes := [Byte.x52; Byte.x4d; Byte.x43; Byte.x48].
Definition SNAPSHOT_BLOB_DEFAULT_CHUNK_SIZE_BYTES : Z := 10 * 1024 * 1024.
Definition SNAPSHOT_BLOB_CHUNK_HEADER_LEN : Z := 36.
Definition SNAPSHOT_BLOB_ENCODING_ZSTD : string := "zstd".

(** The [adler32_slice] function of the [adler2] crate; it returns a [u32]. *)
Class Adler32 := adler32_slice : bytes -> Z.
Class Adler32Laws `{Adler32} : Prop := adler32_u32 : forall p, u32_ok (adler32_slice p).

Record SnapshotBlobChunkHeader := {
  sequence : Z;
  offset_bytes : Z;
  payload_size_bytes : Z;
  payload_checksum : Z;
}.

#[global] Instance SnapshotBlobChunkHeader_eq_dec : EqDecision SnapshotBlobChunkHeader.
Proof. solve_decision. Defined.

Inductive SnapshotBlobChunkFrameError :=
| FrameTooShort (expected actual : Z)
| InvalidMagic
| UnsupportedVersion (v : Z)
| UnsupportedFlags (f : Z)
| NonZeroReserved
| PayloadSizeMismatch (declared actual : Z)
| ChecksumMismatch (expected actual : Z)
| PayloadTooLarge.

#[global] Instance SnapshotBlobChunkFrameError_eq_dec : EqDecision SnapshotBlobChunkFrameError.
Proof. solve_decision. Defined.

Section Frame.
Context `{Adler32}.

Definition from_payload (seq offset : Z) (payload : bytes) : SnapshotBlobChunkHeader := {|
  sequence := seq;
  offset_bytes := offset;
  payload_size_bytes := blen payload;
  payload_checksum := adler32_slice payload;
|}.

Definition encode_with_payload (h : SnapshotBlobChunkHeader) (payload : bytes) :
    Result bytes SnapshotBlobChunkFrameError :=
  if negb (blen payload =? payload_size_bytes h)
  then Err (PayloadSizeMismatch (payload_size_bytes h) (blen payload))
  else if negb (adler32_slice payload =? payload_checksum h)
  then Err (ChecksumMismatch (payload_checksum h) (adler32_slice payload))
  else Ok (SNAPSHOT_BLOB_CHUNK_MAGIC
           ++ [byte_of_Z SNAPSHOT_BLOB_PROTOCOL_VERSION]
           ++ [byte_of_Z 0]
           ++ to_be_bytes 2 0
           ++ to_be_bytes 8 (sequence h)
           ++ to_be_bytes 8 (offset_bytes h)
           ++ to_be_bytes 8 (payload_size_bytes h)
           ++ to_be_bytes 4 (payload_checksum h)
           ++ payload).

(** [frame[lo..hi]] *)
Definition slice (lo hi : nat) (l : bytes) : bytes := take (hi - lo) (drop lo l).

Definition decode (frame : bytes) :
    Result (SnapshotBlobChunkHeader * bytes) SnapshotBlobChunkFrameError :=
  if blen frame <? SNAPSHOT_BLOB_CHUNK_HEADER_LEN
  then Err (FrameTooShort SNAPSHOT_BLOB_CHUNK_HEADER_LEN (blen frame))
  else if negb (bool_decide (slice 0 4 frame = SNAPSHOT_BLOB_CHUNK_MAGIC))
  then Err InvalidMagic
  else
  let version := from_be_bytes (slice 4 5 frame) in
  if negb (version =? SNAPSHOT_BLOB_PROTOCOL_VERSION) then Err (UnsupportedVersion version)
  else
  let flags := from_be_bytes (slice 5 6 frame) in
  if negb (flags =? 0) then Err (UnsupportedFlags flags)
  else
  let reserved := from_be_bytes (slice 6 8 frame) in
  if negb (reserved =? 0) then Err NonZeroReserved
  else
  let seq := from_be_bytes (slice 8 16 frame) in
  let offset := from_be_bytes (slice 16 24 frame) in
  let size := from_be_bytes (slice 24 32 frame) in
  let checksum := from_be_bytes (slice 32 36 frame) in
  let payload := drop 36 frame in
  if negb (blen payload =? size) then Err (PayloadSizeMismatch size (blen payload))
  else
  let actual_checksum := adler32_slice payload in
  if negb (actual_checksum =? checksum) then Err (ChecksumMismatch checksum actual_checksum)
  else Ok ({| sequence := seq; offset_bytes := offset;
              payload_size_bytes := size; payload_checksum := checksum |}, payload).

(** The fields are in the range of their Rust types. *)
Definition header_ok (h : SnapshotBlobChunkHeader) : Prop :=
  u64_ok (sequence h) /\ u64_ok (offset_bytes h) /\
  u64_ok (payload_size_bytes h) /\ u32_ok (payload_checksum h).

(** ** Round trip *)

(** The bytes of an encoded frame, and what [decode] reads out of each slice. *)
Definition frame_of (seq offset size checksum : Z) (payload : bytes) : bytes :=
  SNAPSHOT_BLOB_CHUNK_MAGIC ++ [byte_of_Z 1] ++ [byte_of_Z 0] ++ to_be_bytes 2 0 ++
  to_be_bytes 8 seq ++ to_be_bytes 8 offset ++ to_be_bytes 8 size ++
  to_be_bytes 4 checksum ++ payload.

Lemma blen_frame_of a b c d p : blen (frame_of a b c d p) = 36 + blen p.
Proof. unfold frame_of. rewrite !blen_app. unfold blen. simpl length. lia. Qed.

Lemma decode_frame_of a b c d p :
  u64_ok a -> u64_ok b -> u64_ok c -> u32_ok d ->
  decode (frame_of a b c d p) =
    if negb (blen p =? c) then Err (PayloadSizeMismatch c (blen p))
    else if negb (adler32_slice p =? d) then Err (ChecksumMismatch d (adler32_slice p))
    else Ok ({| sequence := a; offset_bytes := b;
                payload_size_bytes := c; payload_checksum := d |}, p).
Proof.
  unfold u64_ok, u32_ok, u64_max, u64_modulus. intros Ha Hb Hc Hd.
  pose proof (blen_nonneg p).
  unfold decode. rewrite blen_frame_of.
  change (slice 8 16 (frame_of a b c d p)) with (to_be_bytes 8 a).
  change (slice 16 24 (frame_of a b c d p)) with (to_be_bytes 8 b).
  change (slice 24 32 (frame_of a b c d p)) with (to_be_bytes 8 c).
  change (slice 32 36 (frame_of a b c d p)) with (to_be_bytes 4 d).
  change (drop 36 (frame_of a b c d p)) with p.
  change (slice 0 4 (frame_of a b c d p)) with SNAPSHOT_BLOB_CHUNK_MAGIC.
  change (from_be_bytes (slice 4 5 (frame_of a b c d p))) with 1.
  change (from_be_bytes (slice 5 6 (frame_of a b c d p))) with 0.
  change (from_be_bytes (slice 6 8 (frame_of a b c d p))) with 0.
  rewrite !from_to_be_bytes_small by lia.
  unfold SNAPSHOT_BLOB_CHUNK_HEADER_LEN.
  destruct (Z.ltb_spec (36 + blen p) 36); [lia|].
  by rewrite bool_decide_true by done.
Qed.

Lemma encode_with_payload_Ok h p f :
  encode_with_payload h p = Ok f <->
  blen p = payload_size_bytes h /\ adler32_slice p = payload_checksum h /\
  f = frame_of (sequence h) (offset_bytes h) (payload_size_bytes h) (payload_checksum h) p.
Proof.
  unfold encode_with_payload.
  destruct (Z.eqb_spec (blen p) (payload_size_bytes h)); simpl; [|intuition congruence].
  destruct (Z.eqb_spec (adler32_slice p) (payload_checksum h)); simpl; [|intuition congruence].
  split; [intros [= <-]; done|intros (_ & _ & ->); done].
Qed.

Lemma be_bytes_exact n l z : length l = n -> from_be_bytes l = z -> l = to_be_bytes n z.
Proof. intros <- <-. by rewrite to_from_be_bytes. Qed.

Lemma from_be_bytes_bound n l : length l = n -> 0 <= from_be_bytes l < 256 ^ Z.of_nat n.
Proof. intros <-. apply from_be_bytes_range. Qed.

(** Peel a list of at least 36 bytes into its first 36 bytes and a tail. *)
Ltac peel_header f :=
  do 36 (destruct f as [|? f]; [exfalso; unfold blen in *; simpl in *; lia|]).

Lemma decode_Ok_frame_of f h p :
  decode f = Ok (h, p) ->
  header_ok h /\ blen p = payload_size_bytes h /\ adler32_slice p = payload_checksum h /\
  f = frame_of (sequence h) (offset_bytes h) (payload_size_bytes h) (payload_checksum h) p.
Proof.
  unfold decode, SNAPSHOT_BLOB_CHUNK_HEADER_LEN, SNAPSHOT_BLOB_PROTOCOL_VERSION.
  destruct (Z.ltb_spec (blen f) 36) as [|Hlen]; [done|].
  case_bool_decide as Hm; simpl; [|done].
  destruct (Z.eqb_spec (from_be_bytes (slice 4 5 f)) 1) as [Hv|]; simpl; [|done].
  destruct (Z.eqb_spec (from_be_bytes (slice 5 6 f)) 0) as [Hf|]; simpl; [|done].
  destruct (Z.eqb_spec (from_be_bytes (slice 6 8 f)) 0) as [Hr|]; simpl; [|done].
  destruct (Z.eqb_spec (blen (drop 36 f)) (from_be_bytes (slice 24 32 f))); simpl; [|done].
  destruct (Z.eqb_spec (adler32_slice (drop 36 f)) (from_be_bytes (slice 32 36 f))); simpl; [|done].
  intros [= <- <-]. simpl.
  unfold header_ok, u64_ok, u32_ok, u64_max, u64_modulus. simpl.
  peel_header f.
  apply be_bytes_exact with (n := 1%nat) in Hv, Hf; [|done..].
  apply be_bytes_exact with (n := 2%nat) in Hr; [|done].
  repeat split; try done;
    try (match goal with |- context [from_be_bytes ?l] =>
           pose proof (from_be_bytes_range l) as Hb; simpl (length _) in Hb; lia end).
  unfold frame_of.
  match goal with |- ?l = _ => change l with
    (slice 0 4 l ++ slice 4 5 l ++ slice 5 6 l ++ slice 6 8 l ++ slice 8 16 l ++
     slice 16 24 l ++ slice 24 32 l ++ slice 32 36 l ++ drop 36 l) end.
  rewrite Hm, Hv, Hf, Hr. repeat f_equal; by apply be_bytes_exact.
Qed.

End Frame.

(** ** Compression policy *)

Definition MIN_ZSTD_VARIANT_BYTES : Z := 64 * 1024.
Definition MIN_ZSTD_SAVINGS_NUMERATOR : Z := 10.
Definition MIN_ZSTD_SAVINGS_DENOMINATOR : Z := 100.

(** The products are [u64] multiplications; they are written with the
    wrap-around of a release build. *)
Definition compression_is_worthwhile (raw_size_bytes encoded_size_bytes : Z) : bool :=
  (encoded_size_bytes <? raw_size_bytes) &&
  (((raw_size_bytes * MIN_ZSTD_SAVINGS_NUMERATOR) mod u64_modulus) <=?
   ((u64_saturating_sub raw_size_bytes encoded_size_bytes * MIN_ZSTD_SAVINGS_DENOMINATOR)
      mod u64_modulus)).

(** The [zstd] crate: [encode_all] at level 3 and [decode_all]; both return an
    [io::Result]. *)
Class Zstd := {
  zstd_encode_all : bytes -> option bytes;
  zstd_decode_all : bytes -> option bytes;
}.
Class ZstdLaws `{Zstd} : Prop :=
  zstd_decode_encode : forall raw enc, zstd_encode_all raw = Some enc -> zstd_decode_all enc = Some raw.

Definition encode_zstd_if_worthwhile `{Zstd} (raw_bytes : bytes) : Result (option bytes) unit :=
  if blen raw_bytes <? MIN_ZSTD_VARIANT_BYTES then Ok None
  else match zstd_encode_all raw_bytes with
  | None => Err tt
  | Some encoded =>
      if compression_is_worthwhile (blen raw_bytes) (blen encoded)
      then Ok (Some encoded) else Ok None
  end.

Definition decode_zstd `{Zstd} (encoded_bytes : bytes) : Result bytes unit :=
  ok_or (zstd_decode_all encoded_bytes) tt.

(** No overflow happens below 2^57 bytes (128 PiB), and there the test is "the
    variant saves at least a tenth of the raw size". *)
Lemma compression_is_worthwhile_spec raw enc :
  0 <= enc -> 0 <= raw < 2 ^ 57 ->
  compression_is_worthwhile raw enc = true <-> enc < raw /\ 10 * enc <= 9 * raw.
Proof.
  intros He Hr. unfold compression_is_worthwhile, u64_saturating_sub, u64_modulus,
    MIN_ZSTD_SAVINGS_NUMERATOR, MIN_ZSTD_SAVINGS_DENOMINATOR.
  rewrite andb_true_iff, Z.ltb_lt, Z.leb_le.
  rewrite !Z.mod_small by lia. lia.
Qed.

Lemma encode_zstd_if_worthwhile_Some `{Zstd} raw enc :
  encode_zstd_if_worthwhile raw = Ok (Some enc) ->
  MIN_ZSTD_VARIANT_BYTES <= blen raw /\ zstd_encode_all raw = Some enc /\ blen enc < blen raw.
Proof.
  unfold encode_zstd_if_worthwhile. destruct (Z.ltb_spec (blen raw) MIN_ZSTD_VARIANT_BYTES); [done|].
  destruct (zstd_encode_all raw) as [e|]; [|done].
  destruct (compression_is_worthwhile _ _) eqn:E; [|done].
  intros [= ->]. unfold compression_is_worthwhile in E. reflect_bools. done.
Qed.

(** C36.  Frame codec: a byte string decodes to a header and payload exactly when
    it is the encoding of them with every header field in its machine range.  So
    [decode] inverts [encode_with_payload], no two frames decode to the same
    chunk, and a frame whose checksum or declared size is wrong never decodes. *)
Theorem decode_iff_encode `{Adler32} f h p :
  decode f = Ok (h, p) <-> header_ok h /\ encode_with_payload h p = Ok f.
Proof.
  rewrite encode_with_payload_Ok. split.
  - intros Hd. apply decode_Ok_frame_of in Hd. tauto.
  - intros ((H1 & H2 & H3 & H4) & Hs & Hc & ->).
    rewrite decode_frame_of by done. rewrite Hs, Hc, !Z.eqb_refl. by destruct h.
Qed.

(** The frame the client sends for a chunk is accepted by the server with
    the sequence number, offset and payload the client put in it. *)
Theorem decode_from_payload `{Adler32, !Adler32Laws} seq off p :
  u64_ok seq -> u64_ok off -> u64_ok (blen p) ->
  exists f, encode_with_payload (from_payload seq off p) p = Ok f /\
            decode f = Ok (from_payload seq off p, p).
Proof.
  intros Hs Ho Hl. exists (frame_of seq off (blen p) (adler32_slice p) p).
  assert (He : encode_with_payload (from_payload seq off p) p =
               Ok (frame_of seq off (blen p) (adler32_slice p) p)).
  { by apply encode_with_payload_Ok. }
  split; [exact He|]. rewrite decode_frame_of by (done || apply adler32_u32).
  by rewrite !Z.eqb_refl.
Qed.

(** The checksum of the Adler-32 definition, used by the witnesses. *)
Definition adler32_reference (p : bytes) : Z :=
  let '(a, b) := fold_left (fun '(a, b) x =>
    let a' := (a + byte_to_Z x) mod 65521 in (a', (b + a') mod 65521)) p (1, 0) in
  b * 65536 + a.

Lemma adler32_reference_u32 p : u32_ok (adler32_reference p).
Proof.
  unfold adler32_reference, u32_ok.
  assert (Hinv : forall l a b, 0 <= a < 65521 -> 0 <= b < 65521 ->
    let '(a', b') := fold_left (fun '(a, b) x =>
      let a' := (a + byte_to_Z x) mod 65521 in (a', (b + a') mod 65521)) l (a, b) in
    0 <= a' < 65521 /\ 0 <= b' < 65521).
  { induction l as [|x l IH]; intros a b Ha Hb; simpl; [done|].
    apply IH; apply Z.mod_pos_bound; lia. }
  specialize (Hinv p 1 0 ltac:(lia) ltac:(lia)).
  destruct (fold_left _ p (1, 0)) as [a b]. lia.
Qed.

Lemma decode_from_payload_witness :
  exists f, @encode_with_payload adler32_reference
              (@from_payload adler32_reference 7 100 [Byte.x61; Byte.x62])
              [Byte.x61; Byte.x62] = Ok f /\
            @decode adler32_reference f =
              Ok (@from_payload adler32_reference 7 100 [Byte.x61; Byte.x62],
                  [Byte.x61; Byte.x62]).
Proof.
  apply (@decode_from_payload adler32_reference adler32_reference_u32);
    unfold u64_ok; vm_compute; split; discriminate.
Defined.
