(* ===== verification/Auth.v ===== *)
(** * Client authentication ([crates/server/src/auth.rs])

    [CertRegistry] resolves the identity of a request from the certificate
    fingerprint header that the reverse proxy forwards, or from the request
    body, depending on the authentication mode.  Header names and values are
    those of the [http] crate: parsing a header name and reading a value as text
    are parameters. *)

From S2P Require Import Prelude Types.

(** [HeaderName::parse] and [HeaderValue::to_str].  A header map gives the raw
    value of the first header with a (parsed) name. *)
Class HttpLib := {
  parse_header_name : string -> option string;
  header_value_to_str : string -> option string;
}.

(** [to_str] yields the text of the value itself, when it is visible ASCII. *)
Class HttpLibLaws `{HttpLib} : Prop :=
  header_value_to_str_same : forall v s, header_value_to_str v = Some s -> s = v.

Abbreviation HeaderMap := (gmap string string).

Module Auth.

Definition DEFAULT_CERT_HEADER : string := "X-Client-Cert-Fingerprint".

Record CertEntry := {
  ce_fingerprint : string;
  ce_client_id : ClientId;
  ce_role : ClientRole;
  ce_label : option string;
}.

Record AuthConfig := {
  ac_mode : AuthMode;
  ac_cert_header : string;
  ac_clients : list CertEntry;
}.

Definition AuthConfig_default : AuthConfig :=
  {| ac_mode := AuthNone; ac_cert_header := DEFAULT_CERT_HEADER; ac_clients := [] |}.

Record CertRegistry := {
  cr_mode : AuthMode;
  cr_cert_header : string;
  cr_entries : gmap string CertEntry;
}.

Inductive AuthMethod :=
| SelfDeclared
| Certificate (fingerprint : string) (label : option string).

Record ResolvedIdentity := {
  ri_client_id : ClientId;
  ri_role : ClientRole;
  ri_method : AuthMethod;
}.

Inductive AuthError :=
| CertificateRequired
| MainRequiresCert
| UnknownCertificate (fp : string).

Definition AuthError_display (e : AuthError) : string :=
  match e with
  | CertificateRequired => "client certificate required (mTLS mode)"
  | MainRequiresCert => "main clients must authenticate via mTLS (mixed mode)"
  | UnknownCertificate fp => "unknown client certificate: " +:+ fp
  end.

Definition AuthError_status_code (e : AuthError) : Z :=
  match e with
  | CertificateRequired | UnknownCertificate _ => 401
  | MainRequiresCert => 403
  end.

(** [without_prefix.replace([':', ' '], "")] keeps every other character. *)
Definition is_separator (c : ascii) : bool := (code c =? 58) || (code c =? 32).

Definition normalise_fingerprint (fp : string) : string :=
  let lower := lowercase (trim fp) in
  let without_prefix := default lower (strip_prefix "sha256:" lower) in
  retain_chars (fun c => negb (is_separator c)) without_prefix.

Section Registry.
Context `{HttpLib}.

(** [.map(|e| (normalise_fingerprint(..), e)).collect()]: a later entry with the
    same key replaces an earlier one. *)
Definition CertRegistry_new (config : AuthConfig) : CertRegistry := {|
  cr_mode := ac_mode config;
  cr_cert_header :=
    default "x-client-cert-fingerprint" (parse_header_name (ac_cert_header config));
  cr_entries :=
    fold_left (fun m e => <[normalise_fingerprint (ce_fingerprint e) := e]> m)
              (ac_clients config) ∅;
|}.

Definition extract_fingerprint (r : CertRegistry) (headers : HeaderMap) : option string :=
  match headers !! cr_cert_header r with
  | None => None
  | Some value =>
      match header_value_to_str value with
      | None => None
      | Some raw =>
          let normalised := normalise_fingerprint raw in
          if is_empty normalised then None else Some normalised
      end
  end.

Definition identity_of_entry (entry : CertEntry) : ResolvedIdentity := {|
  ri_client_id := ce_client_id entry;
  ri_role := ce_role entry;
  ri_method := Certificate (normalise_fingerprint (ce_fingerprint entry)) (ce_label entry);
|}.

Definition resolve (r : CertRegistry) (headers : HeaderMap)
    (body_client_id : ClientId) (body_role : ClientRole) : Result ResolvedIdentity AuthError :=
  let cert_fp := extract_fingerprint r headers in
  match cr_mode r with
  | AuthNone =>
      Ok {| ri_client_id := body_client_id; ri_role := body_role; ri_method := SelfDeclared |}
  | Mtls =>
      let? fp := ok_or cert_fp CertificateRequired in
      let? entry := ok_or (cr_entries r !! fp) (UnknownCertificate fp) in
      Ok (identity_of_entry entry)
  | Mixed =>
      match cert_fp with
      | Some fp =>
          let? entry := ok_or (cr_entries r !! fp) (UnknownCertificate fp) in
          Ok (identity_of_entry entry)
      | None =>
          if bool_decide (body_role = Main) then Err MainRequiresCert
          else Ok {| ri_client_id := body_client_id; ri_role := Follower;
                     ri_method := SelfDeclared |}
      end
  end.

Definition resolve_header_only (r : CertRegistry) (headers : HeaderMap) : option ClientId :=
  match extract_fingerprint r headers with
  | None => None
  | Some fp => ce_client_id <$> cr_entries r !! fp
  end.

(** ** The lookup table *)

Lemma cr_entries_lookup config fp e :
  cr_entries (CertRegistry_new config) !! fp = Some e ->
  e ∈ ac_clients config /\ normalise_fingerprint (ce_fingerprint e) = fp.
Proof.
  simpl. set (ins := fun m e => <[_ := e]> m).
  assert (Hgen : forall l m, (fold_left ins l m : gmap string CertEntry) !! fp = Some e ->
    m !! fp = Some e \/ (e ∈ l /\ normalise_fingerprint (ce_fingerprint e) = fp)).
  { induction l as [|x l IH]; intros m; simpl; [by left|].
    intros Hl. apply IH in Hl as [Hl|[? ?]].
    - unfold ins in Hl. apply lookup_insert_Some in Hl as [[? ->]|[_ ?]]; [|by left].
      right. split; [apply list_elem_of_here|done].
    - right. split; [by apply list_elem_of_further|done]. }
  intros Hl. apply Hgen in Hl as [Hl|?]; [by rewrite lookup_empty in Hl|done].
Qed.

(** The certificate a request presents: the normalised value of the configured
    header. *)
Definition presents (config : AuthConfig) (headers : HeaderMap) (fp : string) : Prop :=
  exists value, headers !! cr_cert_header (CertRegistry_new config) = Some value /\
                normalise_fingerprint value = fp /\ fp <> "".

Lemma extract_fingerprint_presents `{!HttpLibLaws} config headers fp :
  extract_fingerprint (CertRegistry_new config) headers = Some fp -> presents config headers fp.
Proof.
  unfold extract_fingerprint, presents.
  destruct (headers !! cr_cert_header (CertRegistry_new config)) as [v|]; [|done].
  destruct (header_value_to_str v) as [raw|] eqn:Hv; [|done].
  apply header_value_to_str_same in Hv as ->.
  destruct (is_empty _) eqn:He; [done|]. intros [= <-].
  exists v. by rewrite <- is_empty_false.
Qed.

(** A registered certificate backs the identity [id]. *)
Definition certified (config : AuthConfig) (headers : HeaderMap) (id : ResolvedIdentity) : Prop :=
  exists e, e ∈ ac_clients config /\
            presents config headers (normalise_fingerprint (ce_fingerprint e)) /\
            id = identity_of_entry e.

Lemma entry_certified `{!HttpLibLaws} config headers fp e :
  extract_fingerprint (CertRegistry_new config) headers = Some fp ->
  cr_entries (CertRegistry_new config) !! fp = Some e ->
  certified config headers (identity_of_entry e).
Proof.
  intros Hx He. apply cr_entries_lookup in He as [Hin <-].
  exists e. eauto using extract_fingerprint_presents.
Qed.

(** C37.  With authentication enabled, an accepted request has the identity and
    role of a certificate registered in the configuration and presented in the
    configured header; the single exception is mixed mode, where a request
    without a certificate keeps its self-declared client id but only as a
    follower. *)
Theorem resolve_authentic `{!HttpLibLaws} config headers cid role id :
  ac_mode config <> AuthNone ->
  resolve (CertRegistry_new config) headers cid role = Ok id ->
  certified config headers id \/
  (ac_mode config = Mixed /\
   extract_fingerprint (CertRegistry_new config) headers = None /\
   role = Follower /\
   id = {| ri_client_id := cid; ri_role := Follower; ri_method := SelfDeclared |}).
Proof.
  intros Hmode. unfold resolve. simpl (cr_mode _).
  destruct (ac_mode config) eqn:Em; [done| |];
    destruct (extract_fingerprint (CertRegistry_new config) headers) as [fp|] eqn:Hx;
    cbn [ok_or rbind]; try done.
  1,2: destruct (cr_entries (CertRegistry_new config) !! fp) as [e|] eqn:He;
       cbn [ok_or rbind]; [|done];
       intros [= <-]; left; by eapply entry_certified.
  case_bool_decide; [done|]. intros [= <-]. right. by destruct role.
Qed.

End Registry.

(** ** Fingerprint formats *)

(** The text of a fingerprint: hexadecimal digits with [:] and space separators. *)
Definition is_fp_char (c : ascii) : bool := is_ascii_hexdigit c || is_separator c.

Definition hex_digits (s : string) : string :=
  lowercase (retain_chars (fun c => negb (is_separator c)) s).

Lemma filter_drop_while {A} (p f : A -> bool) l :
  Forall (fun x => p x = true -> f x = false) l ->
  List.filter f (drop_while p l) = List.filter f l.
Proof.
  induction 1 as [|x l Hx Hl IH]; simpl; [done|].
  destruct (p x) eqn:E; [|done]. by rewrite (Hx eq_refl).
Qed.

Lemma drop_while_app_stop {A} (p : A -> bool) l x r :
  p x = false -> drop_while p (l ++ x :: r) = drop_while p l ++ x :: r.
Proof.
  intros Hx. induction l as [|y l IH]; simpl; [by rewrite Hx|]. by destruct (p y).
Qed.

Lemma fp_char_space c : is_fp_char c = true -> is_whitespace c = true -> negb (is_separator c) = false.
Proof. ascii_cases c. Qed.

Lemma separator_lowercase c : is_separator (to_ascii_lowercase c) = is_separator c.
Proof. ascii_cases c. Qed.

Lemma fp_char_lowercase c : is_fp_char c = true -> Ascii.eqb "s" (to_ascii_lowercase c) = false.
Proof. ascii_cases c. Qed.

Lemma filter_lowercase l :
  List.filter (fun c => negb (is_separator c)) (map to_ascii_lowercase l) =
  map to_ascii_lowercase (List.filter (fun c => negb (is_separator c)) l).
Proof.
  induction l as [|c l IH]; simpl; [done|]. rewrite separator_lowercase, IH.
  by destruct (is_separator c).
Qed.

Lemma filter_trim_end s :
  all_chars is_fp_char s = true ->
  List.filter (fun c => negb (is_separator c)) (chars (trim_end s)) =
  List.filter (fun c => negb (is_separator c)) (chars s).
Proof.
  rewrite all_chars_spec. intros Hs. unfold trim_end. rewrite chars_of_chars, filter_rev, filter_drop_while.
  - by rewrite filter_rev, rev_involutive.
  - apply Forall_rev. eapply Forall_impl; [exact Hs|]. apply fp_char_space.
Qed.

Lemma drop_while_Forall {A} (P : A -> Prop) (p : A -> bool) l :
  Forall P l -> Forall P (drop_while p l).
Proof. induction 1; simpl; [done|]. destruct (p x); [done|by constructor]. Qed.

Lemma all_chars_trim_start p s : all_chars p s = true -> all_chars p (trim_start s) = true.
Proof.
  rewrite !all_chars_spec. unfold trim_start. rewrite chars_of_chars. apply drop_while_Forall.
Qed.

Lemma all_chars_trim_end p s : all_chars p s = true -> all_chars p (trim_end s) = true.
Proof.
  rewrite !all_chars_spec. unfold trim_end. rewrite chars_of_chars.
  intros Hs. by apply Forall_rev, drop_while_Forall, Forall_rev.
Qed.

Lemma trim_end_prefix p c s :
  is_whitespace c = false -> trim_end (p +:+ String c s) = p +:+ String c (trim_end s).
Proof.
  intros Hc. apply chars_inj. unfold trim_end.
  rewrite chars_of_chars, !chars_app, !chars_cons, chars_of_chars.
  rewrite rev_app_distr. simpl. rewrite <- app_assoc. simpl.
  rewrite drop_while_app_stop by done.
  rewrite rev_app_distr. simpl. by rewrite rev_involutive, <- app_assoc.
Qed.

Lemma strip_sha256_fp s :
  all_chars is_fp_char s = true -> strip_prefix "sha256:" (lowercase s) = None.
Proof.
  destruct s as [|c s]; [done|]. intros Hs. apply andb_true_iff in Hs as [Hc _].
  change (lowercase (String c s)) with (String (to_ascii_lowercase c) (lowercase s)).
  cbn [strip_prefix]. by rewrite fp_char_lowercase.
Qed.

Lemma retain_lowercase_trim_end s :
  all_chars is_fp_char s = true ->
  retain_chars (fun c => negb (is_separator c)) (lowercase (trim_end s)) = hex_digits s.
Proof.
  intros Hs. unfold retain_chars, lowercase, hex_digits. rewrite chars_of_chars, filter_lowercase.
  rewrite filter_trim_end by done. unfold lowercase, retain_chars. by rewrite chars_of_chars.
Qed.

Lemma hex_digits_trim_start s :
  all_chars is_fp_char s = true -> hex_digits (trim_start s) = hex_digits s.
Proof.
  rewrite all_chars_spec. intros Hs. unfold hex_digits, retain_chars, trim_start.
  rewrite chars_of_chars, filter_drop_while; [done|].
  eapply Forall_impl; [exact Hs|]. apply fp_char_space.
Qed.

(** The documented fingerprint formats are one key: hexadecimal digits in
    either case, with or without [:] and space separators and with or without a
    [sha256:] or [SHA256:] prefix, all normalise to the bare lowercase digits. *)
Theorem normalise_fingerprint_formats s :
  all_chars is_fp_char s = true ->
  normalise_fingerprint s = hex_digits s /\
  normalise_fingerprint ("sha256:" +:+ s) = hex_digits s /\
  normalise_fingerprint ("SHA256:" +:+ s) = hex_digits s.
Proof.
  intros Hs. unfold normalise_fingerprint, trim. split.
  - rewrite strip_sha256_fp by (by apply all_chars_trim_end, all_chars_trim_start).
    simpl. rewrite retain_lowercase_trim_end by (by apply all_chars_trim_start).
    by apply hex_digits_trim_start.
  - change ("sha256:" +:+ s) with ("sha256" +:+ String ":" s).
    change ("SHA256:" +:+ s) with ("SHA256" +:+ String ":" s).
    change (trim_start ("sha256" +:+ String ":" s)) with (of_chars (chars ("sha256" +:+ String ":" s))).
    change (trim_start ("SHA256" +:+ String ":" s)) with (of_chars (chars ("SHA256" +:+ String ":" s))).
    rewrite !of_chars_chars, !trim_end_prefix by done.
    change (lowercase ("sha256" +:+ String ":" (trim_end s))) with ("sha256:" +:+ lowercase (trim_end s)).
    change (lowercase ("SHA256" +:+ String ":" (trim_end s))) with ("sha256:" +:+ lowercase (trim_end s)).
    rewrite strip_prefix_app. simpl. by rewrite retain_lowercase_trim_end.
Qed.

Lemma normalise_fingerprint_formats_witness :
  normalise_fingerprint "AB:cd 0F" = hex_digits "AB:cd 0F" /\
  normalise_fingerprint ("sha256:" +:+ "AB:cd 0F") = hex_digits "AB:cd 0F" /\
  normalise_fingerprint ("SHA256:" +:+ "AB:cd 0F") = hex_digits "AB:cd 0F".
Proof. apply (normalise_fingerprint_formats "AB:cd 0F"). vm_compute. reflexivity. Defined.

(** ** Witnesses *)

(** A concrete [http] library: header names are lowercased, values are text when
    every byte is printable ASCII. *)
Definition http_reference : HttpLib := {|
  parse_header_name := fun s => if is_empty s then None else Some (lowercase s);
  header_value_to_str := fun v => if all_chars (in_range 32 126) v then Some v else None;
|}.

Lemma http_reference_laws : @HttpLibLaws http_reference.
Proof. intros v s. simpl. destruct (all_chars _ v); congruence. Qed.

Definition demo_config : AuthConfig := {|
  ac_mode := Mixed;
  ac_cert_header := DEFAULT_CERT_HEADER;
  ac_clients := [{| ce_fingerprint := "sha256:AA:BB"; ce_client_id := 5%N;
                    ce_role := Main; ce_label := None |}];
|}.
Definition demo_headers : HeaderMap := {["x-client-cert-fingerprint" := "aabb"]}.
Definition demo_identity : ResolvedIdentity := {|
  ri_client_id := 5%N; ri_role := Main; ri_method := Certificate "aabb" None |}.

Lemma resolve_authentic_witness :
  @certified http_reference demo_config demo_headers demo_identity \/
  (ac_mode demo_config = Mixed /\
   @extract_fingerprint http_reference (@CertRegistry_new http_reference demo_config) demo_headers = None /\
   Follower = Follower /\
   demo_identity = {| ri_client_id := 9%N; ri_role := Follower; ri_method := SelfDeclared |}).
Proof.
  apply (@resolve_authentic http_reference http_reference_laws demo_config demo_headers 9%N Follower
           demo_identity); [discriminate|vm_compute; reflexivity].
Defined.

End Auth.
