(* ===== verification/Registry.v ===== *)
(** * Client registry ([crates/server/src/registry.rs])

    The registry maps a client id to its last known configuration hashes and to
    its active workorder.  [hash_json] (serde_json + SHA-256) is a parameter; the
    registry relies on nothing but its being a function. *)

From S2P Require Import Prelude Types.

(** [hash_json] at the two types it is used at. *)
Class ConfigHash := {
  hash_portage_config : PortageConfig -> string;
  hash_system_identity : SystemIdentity -> string;
}.

Module Registry.

Inductive RegistryError :=
| ActiveWorkorder (id : WorkorderId)
| NoMainClient
| ConfigMismatch.

#[global] Instance RegistryError_eq_dec : EqDecision RegistryError.
Proof. solve_decision. Defined.

Abbreviation ClientRegistry := (gmap ClientId ClientState).

Definition ClientRegistry_new : ClientRegistry := ∅.

Definition with_active (a : option WorkorderId) (s : ClientState) : ClientState := {|
  cs_client_id := cs_client_id s; cs_config_hash := cs_config_hash s;
  cs_system_hash := cs_system_hash s; cs_last_seen := cs_last_seen s;
  cs_active_workorder := a |}.

Definition with_last_seen (t : DateTime) (s : ClientState) : ClientState := {|
  cs_client_id := cs_client_id s; cs_config_hash := cs_config_hash s;
  cs_system_hash := cs_system_hash s; cs_last_seen := t;
  cs_active_workorder := cs_active_workorder s |}.

(** [clients.get(&client_id)] has an active workorder. *)
Definition active_of (clients : ClientRegistry) (c : ClientId) : option WorkorderId :=
  s ← clients !! c; cs_active_workorder s.

Section Operations.
Context `{ConfigHash}.

Definition update (now : DateTime) (clients : ClientRegistry) (client_id : ClientId)
    (role : ClientRole) (portage_config : PortageConfig) (system_id : SystemIdentity) :
    Result ConfigDiff RegistryError * ClientRegistry :=
  let config_hash := hash_portage_config portage_config in
  let system_hash := hash_system_identity system_id in
  match active_of clients client_id with
  | Some active_id => (Err (ActiveWorkorder active_id), clients)
  | None =>
      let diff : Result ConfigDiff RegistryError :=
        match clients !! client_id with
        | Some existing =>
            let diff := {|
              portage_changed := bool_decide (cs_config_hash existing <> config_hash);
              system_changed := bool_decide (cs_system_hash existing <> system_hash) |} in
            if bool_decide (role = Follower) && (portage_changed diff || system_changed diff)
            then Err ConfigMismatch else Ok diff
        | None =>
            if bool_decide (role = Follower) then Err NoMainClient
            else Ok {| portage_changed := true; system_changed := true |}
        end in
      match diff with
      | Err e => (Err e, clients)
      | Ok diff =>
          let clients' :=
            if bool_decide (role = Main) then
              <[client_id := {| cs_client_id := client_id; cs_config_hash := config_hash;
                                cs_system_hash := system_hash; cs_last_seen := now;
                                cs_active_workorder := None |}]> clients
            else alter (with_last_seen now) client_id clients in
          (Ok diff, clients')
      end
  end.

Definition set_active_workorder (clients : ClientRegistry) (client_id : ClientId)
    (workorder_id : WorkorderId) : ClientRegistry :=
  alter (with_active (Some workorder_id)) client_id clients.

Definition clear_active_workorder (clients : ClientRegistry) (client_id : ClientId) :
    ClientRegistry :=
  alter (with_active None) client_id clients.

Definition get (clients : ClientRegistry) (client_id : ClientId) : option ClientState :=
  clients !! client_id.

(** ** Lookup lemmas *)

Lemma active_of_set clients c w : is_Some (clients !! c) ->
  active_of (set_active_workorder clients c w) c = Some w.
Proof.
  intros [s Hs]. unfold active_of, set_active_workorder. by rewrite lookup_alter_eq, Hs.
Qed.

Lemma active_of_set_ne clients c d w : c <> d ->
  active_of (set_active_workorder clients c w) d = active_of clients d.
Proof. intros Hne. unfold active_of, set_active_workorder. by rewrite lookup_alter_ne. Qed.

Lemma active_of_clear clients c : active_of (clear_active_workorder clients c) c = None.
Proof.
  unfold active_of, clear_active_workorder. rewrite lookup_alter_eq.
  by destruct (clients !! c).
Qed.

Lemma active_of_clear_ne clients c d : c <> d ->
  active_of (clear_active_workorder clients c) d = active_of clients d.
Proof. intros Hne. unfold active_of, clear_active_workorder. by rewrite lookup_alter_ne. Qed.

Lemma update_active now clients c r pc si w :
  active_of clients c = Some w ->
  update now clients c r pc si = (Err (ActiveWorkorder w), clients).
Proof. unfold update. by intros ->. Qed.

(** What a successful update leaves behind. *)
Lemma update_Ok_inv now clients c r pc si d clients' :
  update now clients c r pc si = (Ok d, clients') ->
  active_of clients c = None /\
  active_of clients' c = None /\ is_Some (clients' !! c) /\
  (forall c', c' <> c -> clients' !! c' = clients !! c').
Proof.
  unfold update. destruct (active_of clients c) as [a|] eqn:Ha; [done|].
  unfold active_of in *.
  destruct (clients !! c) as [s|] eqn:Hs; simpl in *; destruct r; cbn -[lookup insert alter];
    repeat case_match; intros; simplify_eq; repeat split;
    rewrite ?lookup_insert_eq, ?lookup_alter_eq, ?Hs; simpl; eauto;
    intros c' Hne; by rewrite ?lookup_insert_ne, ?lookup_alter_ne.
Qed.

Lemma update_Err_same now clients c r pc si e clients' :
  update now clients c r pc si = (Err e, clients') -> clients' = clients.
Proof. unfold update. repeat case_match; intros; by simplify_eq. Qed.

(** ** Sequences of operations *)

Inductive Op :=
| OpUpdate (now : DateTime) (c : ClientId) (r : ClientRole) (pc : PortageConfig) (si : SystemIdentity)
| OpSetActive (c : ClientId) (w : WorkorderId)
| OpClear (c : ClientId).

Definition run_op (clients : ClientRegistry) (op : Op) : ClientRegistry :=
  match op with
  | OpUpdate now c r pc si => snd (update now clients c r pc si)
  | OpSetActive c w => set_active_workorder clients c w
  | OpClear c => clear_active_workorder clients c
  end.

(** The operation neither marks nor clears the active workorder of [c]. *)
Definition leaves_active (c : ClientId) (op : Op) : Prop :=
  match op with
  | OpUpdate _ _ _ _ _ => True
  | OpSetActive c' _ | OpClear c' => c' <> c
  end.

Lemma run_op_active c w clients op :
  leaves_active c op -> active_of clients c = Some w ->
  active_of (run_op clients op) c = Some w.
Proof.
  destruct op as [now c' r pc si|c' w'|c']; simpl; intros Hop Ha.
  - destruct (decide (c' = c)) as [->|Hne].
    + by rewrite (update_active _ _ _ _ _ _ _ Ha).
    + destruct (update now clients c' r pc si) as [[d|e] clients'] eqn:Hu; simpl.
      * apply update_Ok_inv in Hu as (_ & _ & _ & Ho).
        unfold active_of in *. by rewrite Ho.
      * apply update_Err_same in Hu. by subst.
  - by rewrite active_of_set_ne.
  - by rewrite active_of_clear_ne.
Qed.

(** One active workorder per client: once a workorder is marked active for a
    client, every later submission of that client is rejected with that workorder,
    whatever other registry operations run in between, until the mark is cleared. *)
Theorem update_rejected_while_active clients c w ops now r pc si :
  is_Some (clients !! c) ->
  Forall (leaves_active c) ops ->
  fst (update now (fold_left run_op ops (set_active_workorder clients c w)) c r pc si) =
    Err (ActiveWorkorder w).
Proof.
  intros Hc Hops.
  assert (Ha : active_of (fold_left run_op ops (set_active_workorder clients c w)) c = Some w).
  { pose proof (active_of_set clients c w Hc) as H0. revert H0.
    generalize (set_active_workorder clients c w). clear Hc clients.
    induction Hops as [|op ops Hop Hops IH]; intros clients Ha; simpl; [done|].
    by apply IH, run_op_active. }
  by rewrite (update_active _ _ _ _ _ _ _ Ha).
Qed.

(** A follower never changes configuration: whatever it sends, accepted or
    not, no client appears and every stored hash and active mark stays as it was. *)
Theorem follower_update_keeps_config now clients c pc si c' :
  (fun s => (cs_config_hash s, cs_system_hash s, cs_active_workorder s)) <$>
    snd (update now clients c Follower pc si) !! c' =
  (fun s => (cs_config_hash s, cs_system_hash s, cs_active_workorder s)) <$> clients !! c'.
Proof.
  destruct (update now clients c Follower pc si) as [[d|e] clients'] eqn:Hu; simpl.
  - revert Hu. unfold update. destruct (active_of clients c); [done|].
    destruct (clients !! c) as [s|] eqn:Hs; simpl; [|done].
    destruct (_ || _); simpl; [done|]. intros [= _ <-]. rewrite lookup_alter.
    case_decide as Hd; [|done]. subst. by rewrite Hs.
  - apply update_Err_same in Hu. by subst.
Qed.

(** Change detection: after the main client pushes a configuration, pushing
    the same one again reports no change, a follower sending it is accepted with
    an empty diff, and a different hash is reported as a change. *)
Theorem update_then_update now clients c pc si d clients' :
  update now clients c Main pc si = (Ok d, clients') ->
  forall now' r pc' si',
    fst (update now' clients' c r pc' si') =
      let diff := {|
        portage_changed := bool_decide (hash_portage_config pc <> hash_portage_config pc');
        system_changed := bool_decide (hash_system_identity si <> hash_system_identity si') |} in
      if bool_decide (r = Follower) && negb (ConfigDiff_is_empty diff)
      then Err ConfigMismatch else Ok diff.
Proof.
  intros Hu now' r pc' si'.
  assert (Hs : clients' !! c = Some {| cs_client_id := c; cs_config_hash := hash_portage_config pc;
     cs_system_hash := hash_system_identity si; cs_last_seen := now; cs_active_workorder := None |}).
  { revert Hu. unfold update. destruct (active_of clients c); [done|].
    destruct (clients !! c); simpl; intros [= _ <-]; apply lookup_insert_eq. }
  unfold update, active_of. rewrite Hs. simpl.
  unfold ConfigDiff_is_empty. simpl. rewrite negb_andb, !negb_involutive.
  by destruct (bool_decide (r = Follower) && _).
Qed.

End Operations.

(** ** Witnesses *)

Definition hash_reference : ConfigHash := {|
  hash_portage_config := fun pc => pc_profile pc;
  hash_system_identity := fun si => si_chost si;
|}.

Definition demo_portage_config : PortageConfig := {|
  pc_make_conf := MakeConf_default; pc_package_use := []; pc_package_accept_keywords := [];
  pc_package_license := []; pc_package_mask := []; pc_package_unmask := [];
  pc_package_env := []; pc_env_files := ∅; pc_repos_conf := ∅;
  pc_snapshot_manifest := SnapshotManifest_default; pc_repo_snapshots := ∅;
  pc_repo_snapshot_refs := ∅; pc_repo_snapshot_trees := ∅; pc_patches := ∅;
  pc_profile_overlay := ∅; pc_distfile_snapshots := ∅; pc_distfile_snapshot_refs := ∅;
  pc_profile := "default/linux/amd64/23.0"; pc_world := [];
|}.

Definition demo_system : SystemIdentity := {|
  si_arch := "amd64"; si_chost := "x86_64-pc-linux-gnu"; si_gcc_version := "13.2.0";
  si_libc_version := "2.38"; si_kernel_version := "6.6.0";
  si_python_targets := ["python3_12"]; si_profile := "default/linux/amd64/23.0";
|}.

Definition demo_clients : ClientRegistry :=
  snd (@update hash_reference 100 ClientRegistry_new 1%N Main demo_portage_config demo_system).

Lemma update_rejected_while_active_witness :
  fst (@update hash_reference 300
         (fold_left (@run_op hash_reference) [@OpUpdate 200 2%N Main demo_portage_config demo_system; OpClear 2%N]
            (set_active_workorder demo_clients 1%N 42%N)) 1%N Main demo_portage_config demo_system) =
    Err (ActiveWorkorder 42%N).
Proof.
  apply (@update_rejected_while_active hash_reference).
  - vm_compute. eexists. reflexivity.
  - repeat constructor. discriminate.
Defined.

Lemma update_then_update_witness :
  fst (@update hash_reference 200 demo_clients 1%N Follower demo_portage_config demo_system) =
    Ok {| portage_changed := false; system_changed := false |}.
Proof.
  pose proof (@update_then_update hash_reference 100 ClientRegistry_new 1%N demo_portage_config demo_system
    {| portage_changed := true; system_changed := true |} demo_clients
    ltac:(vm_compute; reflexivity) 200 Follower demo_portage_config demo_system) as H.
  exact H.
Defined.

End Registry.
