(* ===== verification/World.v ===== *)
(** * Files, clocks and failures

    The file operations of [tokio::fs] that the server uses, on a finite map from
    paths to contents, with everything that can go wrong: every operation
    consumes one entry of a fault schedule and may fail with an arbitrary error,
    and a failing write may leave any prefix of the data behind.  A theorem that
    quantifies over the schedule covers every pattern of I/O failures; with the
    empty schedule nothing fails.

    Directories are not entities of the model (the code creates the parent
    directory before every write); creating one can only fail by a fault.  A hard
    link gets the contents of the file it is made for; where the code writes through
    one of two names, in the staging area, [Runtime] keeps track of the names of a
    file and updates all of them. *)

From S2P Require Import Prelude.

(** A path is its list of components. *)
Abbreviation path := (list string).

Definition join (p : path) (s : string) : path := p ++ [s].

Fixpoint display_components (p : path) : string :=
  match p with
  | [] => ""
  | [s] => s
  | s :: r => s +:+ "/" +:+ display_components r
  end.
Definition display (p : path) : string := display_components p.

(** The io errors the code distinguishes: two [ErrorKind]s, the errnos that make
    [link_or_copy_into_place] or [try_reflink_blocking] fall back to another way,
    and the rest. *)
Inductive IoError :=
| NotFound | AlreadyExists | EXDEV | EMLINK | EPERM | EOPNOTSUPP | EINVAL | ENOTTY | ENOSYS | OtherIo.

#[global] Instance IoError_eq_dec : EqDecision IoError.
Proof. solve_decision. Defined.

(** [anyhow::Error]: an io error under a context message, a message of
    [anyhow::bail!], or a parse failure under a context message. *)
Inductive Error :=
| IoErr (kind : IoError) (context : string)
| ParseErr (context : string)
| Bail (msg : string).

#[global] Instance Error_eq_dec : EqDecision Error.
Proof. solve_decision. Defined.

(** [error.to_string()]: the outermost message. *)
Definition Error_to_string (e : Error) : string :=
  match e with IoErr _ c => c | ParseErr c => c | Bail m => m end.

(** [.context(..)] on an error that is already there. *)
Definition in_context (ctx : string) (e : Error) : Error :=
  match e with IoErr k _ => IoErr k ctx | ParseErr _ => ParseErr ctx | Bail _ => Bail ctx end.
Definition contextual {A} (ctx : string) (r : Result A Error) : Result A Error := map_err (in_context ctx) r.

Lemma contextual_ok {A} ctx (r : Result A Error) a : contextual ctx r = Ok a -> r = Ok a.
Proof. destruct r; simpl; congruence. Qed.

(** [is_not_found_error]: [downcast_ref::<io::Error>()] finds the io error under
    its context. *)
Definition is_not_found_error (e : Error) : bool :=
  match e with IoErr NotFound _ => true | _ => false end.

(** A failure of one operation; a write that fails may have created the file
    with a prefix of the data. *)
Record Fault := { fault_error : IoError; fault_written : option nat }.

Record World := {
  files : gmap path bytes;
  faults : list (option Fault);
  next_uuid : N;
  clock : Z;
}.

Definition with_files (f : gmap path bytes) (w : World) : World :=
  {| files := f; faults := faults w; next_uuid := next_uuid w; clock := clock w |}.

Definition pop_fault (w : World) : option Fault * World :=
  match faults w with
  | [] => (None, w)
  | f :: r => (f, {| files := files w; faults := r; next_uuid := next_uuid w; clock := clock w |})
  end.

(** ** The monad

    Computations on a state that return a result; on the world, an io result
    ([FsOp]) or an anyhow result ([IO]). *)
Definition StateResult (S E A : Type) : Type := S -> Result A E * S.
Abbreviation Comp := (StateResult World).
Abbreviation FsOp := (Comp IoError).
Abbreviation IO := (Comp Error).

Definition ret {S E A} (a : A) : StateResult S E A := fun w => (Ok a, w).
Definition throw {S E A} (e : E) : StateResult S E A := fun w => (Err e, w).
Definition bind {S E A B} (m : StateResult S E A) (k : A -> StateResult S E B) : StateResult S E B :=
  fun w => match m w with
           | (Ok a, w') => k a w'
           | (Err e, w') => (Err e, w')
           end.
(** [match m.await { Ok(a) => .., Err(e) => .. }] *)
Definition try_ {S E F A B} (m : StateResult S E A) (k : Result A E -> StateResult S F B) : StateResult S F B :=
  fun w => let '(r, w') := m w in k r w'.

Notation "'do' x <- m ;; k" := (bind m (fun x => k))
  (at level 100, x pattern, m at next level, k at level 200, right associativity) : remerge_scope.
Notation "m ;; k" := (bind m (fun _ => k)) (at level 100, k at level 200, right associativity) : remerge_scope.

Lemma bind_ret_l {S E A B} (a : A) (k : A -> StateResult S E B) : bind (ret a) k = k a.
Proof. done. Qed.

Lemma bind_throw_l {S E A B} (e : E) (k : A -> StateResult S E B) : bind (throw e) k = throw e.
Proof. done. Qed.

(** [.with_context(|| ..)] on an io result. *)
Definition with_context {S A} (ctx : string) (m : StateResult S IoError A) : StateResult S Error A :=
  fun w => match m w with
           | (Ok a, w') => (Ok a, w')
           | (Err e, w') => (Err (IoErr e ctx), w')
           end.

(** [for x in xs { s = f(s, x)?; }] *)
Fixpoint fold_io {W E A S} (f : S -> A -> StateResult W E S) (xs : list A) (s : S) : StateResult W E S :=
  match xs with
  | [] => ret s
  | x :: rest => do s <- f s x ;; fold_io f rest s
  end.
(** [for x in xs { f(x)?; }] *)
Definition for_io {W E A} (f : A -> StateResult W E unit) (xs : list A) : StateResult W E unit := fold_io (fun _ x => f x) xs tt.

Definition now {E} : Comp E Z := fun w => (Ok (clock w), w).

(** [Uuid::new_v4()], printed in decimal. *)
Definition new_uuid {E} : Comp E string := fun w =>
  (Ok (pretty (next_uuid w)),
   {| files := files w; faults := faults w; next_uuid := next_uuid w + 1; clock := clock w |}).

(** Run [good] unless the schedule says that this operation fails; [bad] is the
    effect a failing operation has on the files. *)
Definition guarded {A} (bad : option nat -> World -> World) (good : FsOp A) : FsOp A :=
  fun w => let '(f, w') := pop_fault w in
           match f with
           | Some ft => (Err (fault_error ft), bad (fault_written ft) w')
           | None => good w'
           end.

Definition no_effect (_ : option nat) (w : World) : World := w.
Definition partial_write (p : path) (b : bytes) (n : option nat) (w : World) : World :=
  match n with Some k => with_files (<[p := take k b]> (files w)) w | None => w end.

(** ** Operations *)

Definition fs_create_dir_all (p : path) : FsOp unit := guarded no_effect (ret tt).

(** [tokio::fs::metadata(p).await?.len()] *)
Definition fs_metadata_len (p : path) : FsOp Z :=
  guarded no_effect (fun w => match files w !! p with
    | Some b => (Ok (blen b), w)
    | None => (Err NotFound, w)
    end).

Definition fs_read (p : path) : FsOp bytes :=
  guarded no_effect (fun w => match files w !! p with
    | Some b => (Ok b, w)
    | None => (Err NotFound, w)
    end).

(** [tokio::fs::write]: create or truncate. *)
Definition fs_write (p : path) (b : bytes) : FsOp unit :=
  guarded (partial_write p b) (fun w => (Ok tt, with_files (<[p := b]> (files w)) w)).

Definition fs_hard_link (src dst : path) : FsOp unit :=
  guarded no_effect (fun w => match files w !! src, files w !! dst with
    | None, _ => (Err NotFound, w)
    | Some _, Some _ => (Err AlreadyExists, w)
    | Some b, None => (Ok tt, with_files (<[dst := b]> (files w)) w)
    end).

(** [OpenOptions::new().write(true).create_new(true).open(p)] *)
Definition fs_create_new (p : path) : FsOp unit :=
  guarded no_effect (fun w => match files w !! p with
    | Some _ => (Err AlreadyExists, w)
    | None => (Ok tt, with_files (<[p := []]> (files w)) w)
    end).

(** [tokio::io::copy(&mut source_file, &mut file)] into a file just created. *)
Definition fs_copy_into (src_bytes : bytes) (dst : path) : FsOp unit :=
  guarded (partial_write dst src_bytes)
    (fun w => (Ok tt, with_files (<[dst := src_bytes]> (files w)) w)).

Definition fs_rename (src dst : path) : FsOp unit :=
  guarded no_effect (fun w => match files w !! src with
    | None => (Err NotFound, w)
    | Some b => (Ok tt, with_files (<[dst := b]> (delete src (files w))) w)
    end).

Definition fs_remove_file (p : path) : FsOp unit :=
  guarded no_effect (fun w => match files w !! p with
    | None => (Err NotFound, w)
    | Some _ => (Ok tt, with_files (delete p (files w)) w)
    end).

(** [OpenOptions::new().create(true).append(true).open(p)] *)
Definition fs_open_append (p : path) : FsOp unit :=
  guarded no_effect (fun w => match files w !! p with
    | Some _ => (Ok tt, w)
    | None => (Ok tt, with_files (<[p := []]> (files w)) w)
    end).

(** [file.write_all(payload)] on a file opened for appending. *)
Definition partial_append (p : path) (b : bytes) (n : option nat) (w : World) : World :=
  match n with
  | Some k => with_files (<[p := default [] (files w !! p) ++ take k b]> (files w)) w
  | None => w
  end.
Definition fs_append (p : path) (b : bytes) : FsOp unit :=
  guarded (partial_append p b) (fun w =>
    (Ok tt, with_files (<[p := default [] (files w !! p) ++ b]> (files w)) w)).

Definition fs_flush : FsOp unit := guarded no_effect (ret tt).

(** ** Reasoning about computations

    [wp m Q w]: from world [w], the computation [m] ends in a result and world
    that satisfy [Q]. *)
Definition wp {E A} (m : Comp E A) (Q : Result A E -> World -> Prop) (w : World) : Prop :=
  Q (fst (m w)) (snd (m w)).

Lemma wp_ret {E A} (a : A) Q w : Q (Ok a) w -> wp (ret (E := E) a) Q w.
Proof. done. Qed.

Lemma wp_throw {E A} (e : E) Q w : Q (Err e) w -> wp (throw (A := A) e) Q w.
Proof. done. Qed.

Lemma wp_bind {E A B} (m : Comp E A) (k : A -> Comp E B) Q w :
  wp m (fun r w' => match r with Ok a => wp (k a) Q w' | Err e => Q (Err e) w' end) w ->
  wp (bind m k) Q w.
Proof. unfold wp, bind. destruct (m w) as [[a|e] w']; done. Qed.

Lemma wp_try {E F A B} (m : Comp E A) (k : Result A E -> Comp F B) Q w :
  wp m (fun r w' => wp (k r) Q w') w -> wp (try_ m k) Q w.
Proof. unfold wp, try_. by destruct (m w). Qed.

Lemma wp_with_context {A} ctx (m : FsOp A) Q w :
  wp m (fun r w' => Q (map_err (fun e => IoErr e ctx) r) w') w -> wp (with_context ctx m) Q w.
Proof. unfold wp, with_context. by destruct (m w) as [[a|e] w']. Qed.

Lemma wp_mono {E A} (m : Comp E A) (Q R : Result A E -> World -> Prop) w :
  wp m Q w -> (forall r w', Q r w' -> R r w') -> wp m R w.
Proof. unfold wp. eauto. Qed.

(** Run the first command of a sequence by its lemma and go on in its result. *)
Ltac wp_step L :=
  first [apply wp_bind | apply wp_try]; try apply wp_with_context;
  eapply wp_mono; [eapply L; eauto|cbv beta].

(** ** Footprints

    [Foot P w w']: going from [w] to [w'] changed only files whose paths satisfy
    [P] and used up a prefix of the fault schedule.  [foots P m]: every run of [m]
    does so. *)
Record Foot (P : path -> Prop) (w w' : World) : Prop := {
  foot_files : forall p, ~ P p -> files w' !! p = files w !! p;
  foot_faults : exists used, faults w = used ++ faults w';
}.

Definition foots {E A} (P : path -> Prop) (m : Comp E A) : Prop := forall w, Foot P w (snd (m w)).

Lemma foot_refl P w : Foot P w w.
Proof. split; [done|]. by exists []. Qed.

Lemma foot_trans P w1 w2 w3 : Foot P w1 w2 -> Foot P w2 w3 -> Foot P w1 w3.
Proof.
  intros [F1 (u1 & L1)] [F2 (u2 & L2)]. split.
  - intros p Hp. by rewrite F2, F1.
  - exists (u1 ++ u2). by rewrite L1, L2, app_assoc.
Qed.

Lemma foots_weaken {E A : Type} (P Q : path -> Prop) (m : Comp E A) :
  (forall p, P p -> Q p) -> foots P m -> foots Q m.
Proof. intros HPQ Hm w. destruct (Hm w) as [Hf Hs]. split; [|done]. eauto. Qed.

Lemma foots_ret {E A} P (a : A) : foots P (ret (E := E) a).
Proof. intros w. apply foot_refl. Qed.

Lemma foots_throw {E A} P (e : E) : foots P (throw (A := A) e).
Proof. intros w. apply foot_refl. Qed.

Lemma foots_bind {E A B} P (m : Comp E A) (k : A -> Comp E B) :
  foots P m -> (forall a, foots P (k a)) -> foots P (bind m k).
Proof.
  intros Hm Hk w. unfold bind. specialize (Hm w). destruct (m w) as [[a|e] w1]; [|done].
  eapply foot_trans; [exact Hm|apply Hk].
Qed.

Lemma foots_try {E F A B} P (m : Comp E A) (k : Result A E -> Comp F B) :
  foots P m -> (forall r, foots P (k r)) -> foots P (try_ m k).
Proof.
  intros Hm Hk w. unfold try_. specialize (Hm w). destruct (m w) as [r w1].
  eapply foot_trans; [exact Hm|apply Hk].
Qed.

Lemma foots_with_context {A} P ctx (m : FsOp A) : foots P m -> foots P (with_context ctx m).
Proof. intros Hm w. unfold with_context. specialize (Hm w). by destruct (m w) as [[a|e] w1]. Qed.

Lemma foots_now {E} P : foots P (now (E := E)).
Proof. intros w. apply foot_refl. Qed.

Lemma foots_new_uuid {E} P : foots P (new_uuid (E := E)).
Proof. intros w. split; [done|]. by exists []. Qed.

Lemma foot_pop P w : Foot P w (snd (pop_fault w)).
Proof.
  unfold pop_fault. destruct (faults w) as [|f r] eqn:E; simpl; [apply foot_refl|].
  split; [done|]. exists [f]. by rewrite E.
Qed.

Lemma foots_guarded {A} P bad (good : FsOp A) :
  (forall n w, Foot P w (bad n w)) -> foots P good -> foots P (guarded bad good).
Proof.
  intros Hb Hg w. unfold guarded. pose proof (foot_pop P w) as Hp.
  destruct (pop_fault w) as [[f|] w1]; simpl in *; eapply foot_trans; eauto; apply Hg.
Qed.

Lemma foot_insert (P : path -> Prop) p b w : P p -> Foot P w (with_files (<[p := b]> (files w)) w).
Proof.
  intros Hp. split; [|by exists []]. intros q Hq. simpl. rewrite lookup_insert_ne; [done|congruence].
Qed.

Lemma foot_delete (P : path -> Prop) p w : P p -> Foot P w (with_files (delete p (files w)) w).
Proof.
  intros Hp. split; [|by exists []]. intros q Hq. simpl. rewrite lookup_delete_ne; [done|congruence].
Qed.

Lemma foots_fold {E A S} P (f : S -> A -> Comp E S) xs s :
  (forall s x, x ∈ xs -> foots P (f s x)) -> foots P (fold_io f xs s).
Proof.
  revert s. induction xs as [|x xs IH]; intros s Hf; cbn [fold_io]; [apply foots_ret|].
  apply foots_bind; [apply Hf; set_solver|]. intros s'. apply IH. intros; apply Hf; set_solver.
Qed.

Lemma foots_for {E A} P (f : A -> Comp E unit) xs : (forall x, x ∈ xs -> foots P (f x)) -> foots P (for_io f xs).
Proof. intros Hf. apply foots_fold. auto. Qed.

Create HintDb foots.
#[export] Hint Resolve foot_refl foot_insert foot_delete foots_ret foots_throw foots_now foots_new_uuid
  foots_with_context : foots.

(** Prove a footprint by following the structure of the program. *)
Ltac foots_step :=
  first
    [ progress eauto with foots
    | apply foots_bind; [|intros ?] | apply foots_try; [|intros ?] | apply foots_with_context
    | match goal with |- foots _ (match ?x with _ => _ end) => destruct x end
    | progress cbv zeta ].
Ltac solve_foots := repeat foots_step.

Lemma foots_create_dir_all P p : foots P (fs_create_dir_all p).
Proof. apply foots_guarded; [intros; apply foot_refl|apply foots_ret]. Qed.

Lemma foots_metadata_len P p : foots P (fs_metadata_len p).
Proof.
  apply foots_guarded; [intros; apply foot_refl|].
  intros w. destruct (files w !! p); apply foot_refl.
Qed.

Lemma foots_read P p : foots P (fs_read p).
Proof.
  apply foots_guarded; [intros; apply foot_refl|].
  intros w. destruct (files w !! p); apply foot_refl.
Qed.

Lemma foots_write (P : path -> Prop) p b : P p -> foots P (fs_write p b).
Proof.
  intros Hp. apply foots_guarded; [|intros w; by apply foot_insert].
  intros [n|] w; simpl; [by apply foot_insert|apply foot_refl].
Qed.

Lemma foots_rename (P : path -> Prop) p q : P p -> P q -> foots P (fs_rename p q).
Proof.
  intros Hp Hq. apply foots_guarded; [intros; apply foot_refl|].
  intros w. destruct (files w !! p); simpl; [|apply foot_refl].
  split; [|by exists []]. intros r Hr. simpl.
  rewrite lookup_insert_ne, lookup_delete_ne; congruence.
Qed.

Lemma foots_remove_file (P : path -> Prop) p : P p -> foots P (fs_remove_file p).
Proof.
  intros Hp. apply foots_guarded; [intros; apply foot_refl|].
  intros w. destruct (files w !! p); simpl; [by apply foot_delete|apply foot_refl].
Qed.

Lemma foots_open_append (P : path -> Prop) p : P p -> foots P (fs_open_append p).
Proof.
  intros Hp. apply foots_guarded; [intros; apply foot_refl|].
  intros w. destruct (files w !! p); simpl; [apply foot_refl|by apply foot_insert].
Qed.

Lemma foots_append (P : path -> Prop) p b : P p -> foots P (fs_append p b).
Proof.
  intros Hp. apply foots_guarded; [|intros w; by apply foot_insert].
  intros [n|] w; simpl; [by apply foot_insert|apply foot_refl].
Qed.

Lemma foots_flush P : foots P fs_flush.
Proof. apply foots_guarded; [intros; apply foot_refl|apply foots_ret]. Qed.

#[export] Hint Resolve foots_create_dir_all foots_metadata_len foots_read foots_write foots_rename
  foots_remove_file foots_open_append foots_append foots_flush : foots.

(** ** What each writing operation can do, failures included *)

(** Everything but the files and the schedule stays. *)
Definition same_env (w w' : World) : Prop :=
  next_uuid w' = next_uuid w /\ clock w' = clock w /\ (faults w = [] -> faults w' = []).

Lemma same_env_trans w1 w2 w3 : same_env w1 w2 -> same_env w2 w3 -> same_env w1 w3.
Proof. unfold same_env. intros (? & ? & ?) (? & ? & ?). split_and!; [congruence|congruence|auto]. Qed.

(** Where no fault is scheduled an operation does its work. *)
Lemma guarded_quiet {A} bad (good : FsOp A) w : faults w = [] -> guarded bad good w = good w.
Proof. intros Hw. unfold guarded, pop_fault. by rewrite Hw. Qed.

Lemma pop_fault_env w : same_env w (snd (pop_fault w)) /\ files (snd (pop_fault w)) = files w /\
  (faults w = [] -> fst (pop_fault w) = None).
Proof. unfold pop_fault, same_env. destruct (faults w) eqn:E; simpl; split_and!; congruence. Qed.

Lemma create_dir_all_cases p w :
  let '(r, w') := fs_create_dir_all p w in
  same_env w w' /\ files w' = files w /\ (faults w = [] -> r = Ok tt).
Proof.
  unfold fs_create_dir_all, guarded. destruct (pop_fault_env w) as (He & Hf & Hn).
  destruct (pop_fault w) as [[f|] w1]; simpl in *; split_and!; try done. intros Hw. by specialize (Hn Hw).
Qed.

Lemma write_cases p b w :
  let '(r, w') := fs_write p b w in
  same_env w w' /\
  (r = Ok tt /\ files w' = <[p := b]> (files w) \/
   is_ok r = false /\ faults w <> [] /\
   (files w' = files w \/ exists k, files w' = <[p := take k b]> (files w))).
Proof.
  unfold fs_write, guarded. destruct (pop_fault_env w) as (He & Hf & Hn).
  destruct (pop_fault w) as [[f|] w1]; simpl in *.
  - assert (faults w <> []) by (intros Hw; by specialize (Hn Hw)).
    destruct (fault_written f) as [k|]; simpl; (split; [done|]); right; split_and!; try done; rewrite Hf; eauto.
  - split; [done|]. left. by rewrite Hf.
Qed.

Lemma rename_cases p q w :
  let '(r, w') := fs_rename p q w in
  same_env w w' /\
  ((exists b, files w !! p = Some b /\ r = Ok tt /\ files w' = <[q := b]> (delete p (files w))) \/
   is_ok r = false /\ files w' = files w /\ (faults w = [] -> files w !! p = None)).
Proof.
  unfold fs_rename, guarded. destruct (pop_fault_env w) as (He & Hf & Hn).
  destruct (pop_fault w) as [[f|] w1]; simpl in *.
  - split; [done|]. right. split_and!; [done|done|]. intros Hw. by specialize (Hn Hw).
  - rewrite Hf. destruct (files w !! p) as [b|] eqn:E; simpl; (split; [done|]).
    + left. exists b. done.
    + right. done.
Qed.

(** ** Computations that only look

    [observes Q m]: [m] changes neither files nor clock, and what it returns
    satisfies [Q] of them. *)
Definition observes {E A : Type} (Q : gmap path bytes -> Z -> A -> Prop) (m : Comp E A) : Prop :=
  forall w, files (snd (m w)) = files w /\ clock (snd (m w)) = clock w /\
    match fst (m w) with Ok a => Q (files w) (clock w) a | Err _ => True end.

Lemma observes_ret {E A : Type} Q (a : A) : (forall fs t, Q fs t a) -> observes Q (ret (E := E) a).
Proof. intros Ha w. simpl. auto. Qed.

Lemma observes_throw {E A : Type} Q (e : E) : observes (A := A) Q (throw e).
Proof. by intros w. Qed.

Lemma observes_bind {E A B : Type} P Q (m : Comp E A) (k : A -> Comp E B) :
  observes P m -> (forall a, observes (fun fs t b => P fs t a -> Q fs t b) (k a)) -> observes Q (bind m k).
Proof.
  intros Hm Hk w. unfold bind. specialize (Hm w). destruct (m w) as [[a|e] w1]; simpl in *; [|done].
  destruct Hm as (Hf & Hc & Hp). specialize (Hk a w1). destruct (k a w1) as [[b|e] w2]; simpl in *;
    destruct Hk as (Hf' & Hc' & Hq); rewrite Hf', Hc', Hf, Hc; [|done]. rewrite Hf, Hc in Hq. auto.
Qed.

Lemma observes_try {E F A B : Type} P Q (m : Comp E A) (k : Result A E -> Comp F B) :
  observes P m ->
  (forall r, observes (fun fs t b => match r with Ok a => P fs t a | Err _ => True end -> Q fs t b) (k r)) ->
  observes Q (try_ m k).
Proof.
  intros Hm Hk w. unfold try_. specialize (Hm w). destruct (m w) as [r w1]; simpl in *.
  destruct Hm as (Hf & Hc & Hp). specialize (Hk r w1). destruct (k r w1) as [[b|e] w2]; simpl in *;
    destruct Hk as (Hf' & Hc' & Hq); rewrite Hf', Hc', Hf, Hc; [|done]. rewrite Hf, Hc in Hq. auto.
Qed.

Lemma observes_mono {E A : Type} (P Q : gmap path bytes -> Z -> A -> Prop) (m : Comp E A) :
  observes P m -> (forall fs t a, P fs t a -> Q fs t a) -> observes Q m.
Proof.
  intros Hm HPQ w. destruct (Hm w) as (? & ? & Hp). split_and!; [done..|]. by destruct (fst (m w)); [apply HPQ|].
Qed.

Lemma observes_with_context {A : Type} Q ctx (m : FsOp A) : observes Q m -> observes Q (with_context ctx m).
Proof. intros Hm w. unfold with_context. specialize (Hm w). by destruct (m w) as [[a|e] w1]. Qed.

Lemma observes_guarded {A : Type} Q (good : FsOp A) : observes Q good -> observes Q (guarded no_effect good).
Proof.
  intros Hg w. unfold guarded. destruct (pop_fault_env w) as ((_ & Hc & _) & Hf & _).
  destruct (pop_fault w) as [[f|] w1]; simpl in *; [done|].
  specialize (Hg w1). by rewrite Hf, Hc in Hg.
Qed.

Lemma observes_now {E} : observes (fun _ t a => a = t) (now (E := E)).
Proof. by intros w. Qed.

Lemma observes_read p : observes (fun fs _ b => fs !! p = Some b) (fs_read p).
Proof. apply observes_guarded. intros w. by destruct (files w !! p) eqn:E; simpl. Qed.

Lemma observes_metadata_len p : observes (fun fs _ n => exists b, fs !! p = Some b /\ n = blen b) (fs_metadata_len p).
Proof. apply observes_guarded. intros w. destruct (files w !! p) eqn:E; simpl; eauto. Qed.

Create HintDb observes.
#[export] Hint Resolve observes_throw observes_now observes_read observes_metadata_len observes_with_context : observes.
