(* ===== verification/Paths.v ===== *)
(** * Components of a path string ([std::path])

    [Path::components] on Unix, the file-name checks that [runtime.rs] and the
    clients build on it, and where the joined paths lie. *)

From S2P Require Import Prelude World.

Inductive Component := RootDir | CurDir | ParentDir | Normal (s : string).

#[global] Instance Component_eq_dec : EqDecision Component.
Proof. solve_decision. Defined.

(** A segment that is not the first: empty ones and [.] are dropped. *)
Definition segment (s : string) : option Component :=
  if bool_decide (s = "" \/ s = ".") then None
  else if bool_decide (s = "..") then Some ParentDir
  else Some (Normal s).

(** [Path::new(s).components()]: a leading [/] is the root, a leading [.] is kept. *)
Definition components (s : string) : list Component :=
  match split_on "/"%char s with
  | first :: rest =>
      if is_empty s then []
      else if is_empty first then RootDir :: omap segment rest
      else if bool_decide (first = ".") then CurDir :: omap segment rest
      else omap segment (first :: rest)
  | [] => []
  end.

Definition is_absolute (s : string) : bool := starts_with "/" s.

(** The file that [base.join(s)] names, [.] and [..] resolved. *)
Definition push (base : path) (c : Component) : path :=
  match c with
  | RootDir => []
  | CurDir => base
  | ParentDir => removelast base
  | Normal n => join base n
  end.
Definition join_str (base : path) (s : string) : path := fold_left push (components s) base.

(** [base.join(rel)] for a relative path of components, [.] and [..] resolved. *)
Definition join_path (base rel : path) : path :=
  fold_left (fun b c => if bool_decide (c = "..") then removelast b else if bool_decide (c = ".") then b else join b c) rel base.

(** [p.starts_with(base)] *)
Definition under (base p : path) : Prop := exists q, p = base ++ q.

(** ** The checks *)

Definition is_normal (c : Component) : bool := match c with Normal _ => true | _ => false end.

Definition is_single_normal_path_component (name : string) : bool :=
  match components name with [Normal _] => true | _ => false end.

Definition sanitize_file_name (name : string) : Result string Error :=
  if negb (is_single_normal_path_component name) then Err (Bail ("invalid file name '" +:+ name +:+ "'")) else Ok name.

Definition sanitize_distfile_name (name : string) : Result string Error :=
  if negb (is_single_normal_path_component name) then Err (Bail ("invalid distfile name '" +:+ name +:+ "'")) else Ok name.

(** The loop over the components pushes every normal one. *)
Fixpoint push_normals (err : Error) (safe : path) (cs : list Component) : Result path Error :=
  match cs with
  | [] => Ok safe
  | Normal n :: rest => push_normals err (join safe n) rest
  | _ :: _ => Err err
  end.

Definition sanitize_relative_path (s : string) : Result path Error :=
  let err := Bail ("invalid relative path '" +:+ s +:+ "'") in
  if is_empty s || is_absolute s then Err err else push_normals err [] (components s).

(** ** What the checks guarantee *)

Lemma under_refl base : under base base.
Proof. exists []. by rewrite app_nil_r. Qed.

Lemma under_app base p q : under base p -> under base (p ++ q).
Proof. intros [r ->]. exists (r ++ q). by rewrite app_assoc. Qed.

Lemma under_trans a b c : under a b -> under b c -> under a c.
Proof. intros [p ->] [q ->]. exists (p ++ q). by rewrite app_assoc. Qed.

Lemma under_join base p s : under base p -> under base (join p s).
Proof. apply under_app. Qed.

(** A component that names a file in its directory. *)
Definition file_name_ok (s : string) : Prop := s <> "" /\ s <> "." /\ s <> ".." /\ "/"%char ∉ chars s.

Lemma split_on_no_sep c s : Forall (fun x => c ∉ chars x) (split_on c s).
Proof.
  induction s as [|a s IH]; simpl; [constructor; [apply not_elem_of_nil|constructor]|].
  destruct (Ascii.eqb_spec a c) as [->|Hne]; [constructor; [apply not_elem_of_nil|done]|].
  destruct (split_on c s) as [|x xs]; [constructor; [|constructor]|].
  - rewrite chars_cons. apply not_elem_of_cons. split; [congruence|apply not_elem_of_nil].
  - apply Forall_cons in IH as [Hx Hxs]. constructor; [|done]. rewrite chars_cons. by apply not_elem_of_cons.
Qed.

Lemma components_normal s n : Normal n ∈ components s -> file_name_ok n.
Proof.
  unfold components. pose proof (split_on_no_sep "/"%char s) as Hs.
  assert (Hseg : forall l, Forall (fun x => "/"%char ∉ chars x) l -> Normal n ∈ omap segment l -> file_name_ok n).
  { intros l Hl Hin. apply list_elem_of_omap in Hin as (x & Hx & Hn). unfold segment in Hn.
    repeat case_bool_decide; simplify_eq. rewrite Forall_forall in Hl. specialize (Hl _ Hx).
    unfold file_name_ok. tauto. }
  destruct (split_on "/"%char s) as [|first rest]; [intros Hin; by apply elem_of_nil in Hin|].
  apply Forall_cons in Hs as Hs'. destruct Hs' as [_ Hrest].
  destruct (is_empty s); [intros Hin; by apply elem_of_nil in Hin|].
  destruct (is_empty first); [|case_bool_decide].
  1,2: intros Hin; apply elem_of_cons in Hin as [Hin|Hin]; [done|]; eauto.
  intros Hin. eauto.
Qed.

Lemma join_str_single base name :
  is_single_normal_path_component name = true -> exists n, file_name_ok n /\ join_str base name = join base n.
Proof.
  unfold is_single_normal_path_component, join_str. intros Hs.
  destruct (components name) as [|[| | |n] [|]] eqn:E; try done.
  exists n. split; [|done]. apply (components_normal name). rewrite E. apply list_elem_of_here.
Qed.

Lemma push_normals_Ok err safe cs p :
  push_normals err safe cs = Ok p -> exists ns, cs = map Normal ns /\ p = safe ++ ns.
Proof.
  revert safe. induction cs as [|[| | |n] cs IH]; intros safe; cbn [push_normals]; try done.
  - intros [= <-]. exists []. by rewrite app_nil_r.
  - intros Hp. apply IH in Hp as (ns & -> & ->). exists (n :: ns). unfold join. by rewrite <- app_assoc.
Qed.

(** A relative path that passes the check names a file strictly below its base. *)
Lemma sanitize_relative_path_Ok s p :
  sanitize_relative_path s = Ok p -> Forall file_name_ok p /\ components s = map Normal p.
Proof.
  unfold sanitize_relative_path. cbv zeta. destruct (is_empty s || is_absolute s); [done|]. intros Hp.
  apply push_normals_Ok in Hp as (ns & Hc & ->). split; [|done]. apply Forall_forall. intros n Hn.
  apply (components_normal s). rewrite Hc. by apply list_elem_of_fmap_2.
Qed.

Lemma join_sanitized base s p : sanitize_relative_path s = Ok p -> join_path base p = base ++ p.
Proof.
  intros [Hok _]%sanitize_relative_path_Ok. revert base. induction Hok as [|c p (_ & Hdot & Hdots & _) _ IH]; intros base; simpl; [by rewrite app_nil_r|].
  rewrite !bool_decide_eq_false_2, IH by done. unfold join. by rewrite <- app_assoc.
Qed.
