(* ===== verification/BlobStore.v ===== *)
(** * Content-addressed blob store ([crates/server/src/blob_store.rs])

    A blob lives at [<state>/blobs/<digest[..2]>/<digest[2..]>], its metadata and
    its zstd variant beside it under the extensions [meta.json] and [zst].  Every
    file is written under a temporary name and then linked or renamed into place.
    SHA-256 ([sha2] with [hex]) and the JSON codec of the metadata ([serde_json])
    are parameters. *)

From S2P Require Import Prelude World Frame.

(** [hex::encode(Sha256::digest(bytes))]: 64 hexadecimal digits. *)
Class Sha256 := sha256_hex : bytes -> string.
Class Sha256Laws `{Sha256} : Prop := sha256_hex_digits : forall b,
  String.length (sha256_hex b) = 64%nat /\ all_chars is_ascii_hexdigit (sha256_hex b) = true.

Inductive BlobEncoding := EncZstd.

#[global] Instance BlobEncoding_eq_dec : EqDecision BlobEncoding.
Proof. solve_decision. Defined.
#[global] Instance BlobEncoding_countable : Countable BlobEncoding.
Proof. by refine (inj_countable (fun _ => tt) (fun _ => Some EncZstd) _); intros []. Defined.

Definition file_extension (e : BlobEncoding) : string :=
  match e with EncZstd => "zst" end.

Record BlobMetadata := {
  canonical_digest : string;
  raw_size_bytes : Z;
  last_referenced_at : Z;
  encoded_variants : gmap BlobEncoding Z;
}.

(** [serde_json] at [BlobMetadata]; parsing is given the current time because a
    missing [last_referenced_at] defaults to it. *)
Class BlobMetadataCodec := {
  blob_metadata_to_vec : BlobMetadata -> bytes;
  blob_metadata_from_slice : Z -> bytes -> option BlobMetadata;
}.
Class BlobMetadataCodecLaws `{BlobMetadataCodec} : Prop :=
  blob_metadata_roundtrip : forall now m,
    blob_metadata_from_slice now (blob_metadata_to_vec m) = Some m.

Record StoredBlob := { sb_digest : string; sb_path : path }.
Record VerifiedBlobStoreResult := { vbs_blob : StoredBlob; vbs_uploaded : bool }.
Record StoredEncodedBlobVariant := {
  sev_digest : string; sev_encoding : BlobEncoding; sev_path : path; sev_encoded_size_bytes : Z;
}.

(** ** Paths *)

Definition BLOBS_SUBDIR : string := "blobs".

(** [&s[..n]] and [&s[n..]] *)
Definition str_take (n : nat) (s : string) : string := of_chars (take n (chars s)).
Definition str_drop (n : nat) (s : string) : string := of_chars (drop n (chars s)).

Definition parent (p : path) : option path :=
  match p with [] => None | _ => Some (removelast p) end.

(** [Path::file_stem]: the name up to its last dot, unless that dot is leading. *)
Definition file_stem (name : string) : string :=
  match split_once "."%char (of_chars (rev (chars name))) with
  | Some (_, l) => if is_empty l then name else of_chars (rev (chars l))
  | None => name
  end.

Definition with_extension (p : path) (ext : string) : path :=
  match last p with
  | None => p
  | Some name => removelast p ++ [file_stem name +:+ "." +:+ ext]
  end.

Definition validate_digest (digest : string) : Result unit Error :=
  if negb (slen digest =? 64) || negb (all_chars is_ascii_hexdigit digest)
  then Err (Bail ("invalid sha256 digest '" +:+ digest +:+ "'"))
  else Ok tt.

Definition file_name (digest : string) : Result string Error :=
  let? _ := validate_digest digest in Ok (str_drop 2 digest).

Definition blob_path (state_dir : path) (digest : string) : Result path Error :=
  let? _ := validate_digest digest in
  let? name := file_name digest in
  Ok (join (join (join state_dir BLOBS_SUBDIR) (str_take 2 digest)) name).

Definition encoded_blob_path (state_dir : path) (digest : string) (encoding : BlobEncoding) :
    Result path Error :=
  let? path := blob_path state_dir digest in Ok (with_extension path (file_extension encoding)).

Definition metadata_path (state_dir : path) (digest : string) : Result path Error :=
  let? path := blob_path state_dir digest in Ok (with_extension path "meta.json").

(** ** Writing files *)

(** Lift a pure result, or a missing value with a context, into a computation. *)
Definition lift {A} (r : Result A Error) : IO A :=
  match r with Ok a => ret a | Err e => throw e end.
Definition context {A} (o : option A) (msg : string) : IO A :=
  match o with Some a => ret a | None => throw (Bail msg) end.

Definition is_link_fallback (e : IoError) : bool :=
  match e with EXDEV | EMLINK | EPERM | EOPNOTSUPP => true | _ => false end.

Definition link_or_copy_into_place (source target : path) : IO bool :=
  try_ (fs_hard_link source target) (fun r =>
  match r with
  | Ok _ => ret true
  | Err AlreadyExists => ret false
  | Err e =>
      if is_link_fallback e then
        try_ (fs_create_new target) (fun r =>
        match r with
        | Err AlreadyExists => ret false
        | Err e => throw (IoErr e ("Failed to create " +:+ display target))
        | Ok _ =>
            do source_bytes <- with_context ("Failed to open " +:+ display source) (fs_read source) ;;
            with_context ("Failed to copy " +:+ display source +:+ " into " +:+ display target)
              (fs_copy_into source_bytes target) ;;
            ret true
        end)
      else throw (IoErr e ("Failed to link " +:+ display source +:+ " into " +:+ display target))
  end).

(** The [CleanupTempFile] guard removes the temporary file on every exit after
    it was armed: [disarm] after a success, [drop] after a failure. *)
Definition with_cleanup {A} (temp : path) (m : IO A) : IO A :=
  try_ m (fun r => try_ (fs_remove_file temp) (fun _ => lift r)).

Definition write_bytes_atomically (parent target : path) (stem : string) (b : bytes) : IO bool :=
  do id <- new_uuid ;;
  let temp := join parent (stem +:+ ".tmp-" +:+ id) in
  with_context ("Failed to write " +:+ display temp) (fs_write temp b) ;;
  with_cleanup temp (link_or_copy_into_place temp target).

Definition write_bytes_with_atomic_replace (parent target : path) (stem : string) (b : bytes) :
    IO unit :=
  do id <- new_uuid ;;
  let temp := join parent (stem +:+ ".tmp-" +:+ id) in
  with_context ("Failed to write " +:+ display temp) (fs_write temp b) ;;
  try_ (fs_rename temp target) (fun r =>
  match r with
  | Ok _ => ret tt
  | Err e =>
      try_ (fs_remove_file temp) (fun _ =>
      throw (IoErr e ("Failed to move " +:+ display temp +:+ " into " +:+ display target)))
  end).

Definition remove_file_if_exists (p : path) : IO unit :=
  try_ (fs_remove_file p) (fun r =>
  match r with
  | Ok _ => ret tt
  | Err NotFound => ret tt
  | Err e => throw (IoErr e ("Failed to remove " +:+ display p))
  end).

(** ** Operations *)
Section Operations.
Context `{Sha256, BlobMetadataCodec, Zstd}.

Definition load_blob_metadata (state_dir : path) (digest : string) : IO BlobMetadata :=
  do path <- lift (metadata_path state_dir digest) ;;
  do b <- with_context ("Failed to read " +:+ display path) (fs_read path) ;;
  do t <- now ;;
  match blob_metadata_from_slice t b with
  | Some m => ret m
  | None => throw (ParseErr ("Failed to parse " +:+ display path))
  end.

Definition persist_blob_metadata (state_dir : path) (digest : string) (m : BlobMetadata) : IO unit :=
  do target <- lift (metadata_path state_dir digest) ;;
  do parent <- context (parent target) "blob metadata path should always have a parent directory" ;;
  with_context ("Failed to create " +:+ display parent) (fs_create_dir_all parent) ;;
  let b := blob_metadata_to_vec m in
  do name <- lift (file_name digest) ;;
  write_bytes_with_atomic_replace parent target (name +:+ ".meta.json") b.

Definition ensure_blob_metadata (state_dir : path) (digest : string) (raw_size : Z) :
    IO BlobMetadata :=
  try_ (load_blob_metadata state_dir digest) (fun r =>
  match r with
  | Ok m =>
      if negb (bool_decide (canonical_digest m = digest)) then
        throw (Bail ("blob metadata digest mismatch: expected " +:+ digest +:+ ", got "
                     +:+ canonical_digest m))
      else if negb (raw_size_bytes m =? raw_size) then
        throw (Bail ("blob metadata size mismatch for " +:+ digest +:+ ": expected "
                     +:+ pretty raw_size +:+ ", got " +:+ pretty (raw_size_bytes m)))
      else ret m
  | Err e =>
      if is_not_found_error e then
        do t <- now ;;
        let m := {| canonical_digest := digest; raw_size_bytes := raw_size;
                    last_referenced_at := t; encoded_variants := ∅ |} in
        persist_blob_metadata state_dir digest m ;; ret m
      else throw e
  end).

Definition with_variant (e : BlobEncoding) (n : Z) (m : BlobMetadata) : BlobMetadata := {|
  canonical_digest := canonical_digest m; raw_size_bytes := raw_size_bytes m;
  last_referenced_at := last_referenced_at m;
  encoded_variants := <[e := n]> (encoded_variants m) |}.

Definition with_last_referenced (t : Z) (m : BlobMetadata) : BlobMetadata := {|
  canonical_digest := canonical_digest m; raw_size_bytes := raw_size_bytes m;
  last_referenced_at := t; encoded_variants := encoded_variants m |}.

Definition store_encoded_blob_variant (state_dir : path) (digest : string) (raw_size : Z)
    (encoding : BlobEncoding) (b : bytes) : IO StoredEncodedBlobVariant :=
  do m <- ensure_blob_metadata state_dir digest raw_size ;;
  if negb (raw_size_bytes m =? raw_size) then
    throw (Bail ("blob raw size mismatch for " +:+ digest +:+ ": expected "
                 +:+ pretty (raw_size_bytes m) +:+ ", got " +:+ pretty raw_size))
  else
  do target <- lift (encoded_blob_path state_dir digest encoding) ;;
  do parent <- context (parent target) "encoded blob path should always have a parent directory" ;;
  with_context ("Failed to create " +:+ display parent) (fs_create_dir_all parent) ;;
  do name <- lift (file_name digest) ;;
  write_bytes_atomically parent target (name +:+ "." +:+ file_extension encoding) b ;;
  persist_blob_metadata state_dir digest (with_variant encoding (blen b) m) ;;
  ret {| sev_digest := digest; sev_encoding := encoding; sev_path := target;
         sev_encoded_size_bytes := blen b |}.

Definition maybe_store_zstd_variant (state_dir : path) (digest : string) (b : bytes) :
    IO (option StoredEncodedBlobVariant) :=
  let raw_size := blen b in
  do m <- ensure_blob_metadata state_dir digest raw_size ;;
  do encoded_path <- lift (encoded_blob_path state_dir digest EncZstd) ;;
  let compress :=
    match encode_zstd_if_worthwhile b with
    | Err _ => throw (IoErr OtherIo "zstd")
    | Ok None => ret None
    | Ok (Some compressed) =>
        do v <- store_encoded_blob_variant state_dir digest raw_size EncZstd compressed ;;
        ret (Some v)
    end in
  if bool_decide (is_Some (encoded_variants m !! EncZstd)) then
    try_ (fs_metadata_len encoded_path) (fun r => if is_ok r then ret None else compress)
  else compress.

Definition touch_blob (state_dir : path) (digest : string) (t : Z) : IO BlobMetadata :=
  lift (validate_digest digest) ;;
  do target <- lift (blob_path state_dir digest) ;;
  do raw_size <- with_context ("Failed to stat " +:+ display target) (fs_metadata_len target) ;;
  do m <- ensure_blob_metadata state_dir digest raw_size ;;
  let m := with_last_referenced t m in
  persist_blob_metadata state_dir digest m ;;
  ret m.

Definition store_blob_for_digest (state_dir : path) (digest : string) (b : bytes) :
    IO VerifiedBlobStoreResult :=
  lift (validate_digest digest) ;;
  let actual := sha256_hex b in
  if negb (bool_decide (actual = digest)) then
    throw (Bail ("blob digest mismatch: expected " +:+ digest +:+ ", got " +:+ actual))
  else
  do target <- lift (blob_path state_dir digest) ;;
  let raw_size := blen b in
  try_ (fs_metadata_len target) (fun r =>
  if is_ok r then
    ensure_blob_metadata state_dir digest raw_size ;;
    maybe_store_zstd_variant state_dir digest b ;;
    do t <- now ;;
    touch_blob state_dir digest t ;;
    ret {| vbs_blob := {| sb_digest := digest; sb_path := target |}; vbs_uploaded := false |}
  else
    do parent <- context (parent target) "blob path should always have a parent directory" ;;
    with_context ("Failed to create " +:+ display parent) (fs_create_dir_all parent) ;;
    do name <- lift (file_name digest) ;;
    do uploaded <- write_bytes_atomically parent target name b ;;
    ensure_blob_metadata state_dir digest raw_size ;;
    maybe_store_zstd_variant state_dir digest b ;;
    do t <- now ;;
    touch_blob state_dir digest t ;;
    ret {| vbs_blob := {| sb_digest := digest; sb_path := target |}; vbs_uploaded := uploaded |}).

Definition store_blob (state_dir : path) (b : bytes) : IO StoredBlob :=
  let digest := sha256_hex b in
  do result <- store_blob_for_digest state_dir digest b ;;
  ret (vbs_blob result).

Definition has_blob (state_dir : path) (digest : string) : IO bool :=
  do target <- lift (blob_path state_dir digest) ;;
  try_ (fs_metadata_len target) (fun r => ret (is_ok r)).

Fixpoint remove_variants (state_dir : path) (digest : string) (es : list BlobEncoding) : IO unit :=
  match es with
  | [] => ret tt
  | e :: rest =>
      do encoded_path <- lift (encoded_blob_path state_dir digest e) ;;
      remove_file_if_exists encoded_path ;;
      remove_variants state_dir digest rest
  end.

Definition delete_blob (state_dir : path) (digest : string) : IO unit :=
  try_ (load_blob_metadata state_dir digest) (fun r =>
  let metadata := ok_opt r in
  do raw_path <- lift (blob_path state_dir digest) ;;
  remove_file_if_exists raw_path ;;
  match metadata with
  | Some m => remove_variants state_dir digest ((map_to_list (encoded_variants m)).*1)
  | None => ret tt
  end ;;
  do metadata_path <- lift (metadata_path state_dir digest) ;;
  remove_file_if_exists metadata_path).

End Operations.

(** ** Paths of one digest

    Everything the store writes for a digest is [blob_file dir digest suffix] for
    some suffix; two such paths are equal only for the same digest and suffix. *)

Definition valid_digest (d : string) : Prop :=
  String.length d = 64%nat /\ all_chars is_ascii_hexdigit d = true.

Definition blob_file (dir : path) (d suffix : string) : path :=
  dir ++ [BLOBS_SUBDIR; str_take 2 d; str_drop 2 d +:+ suffix].
Definition shard_dir (dir : path) (d : string) : path := dir ++ [BLOBS_SUBDIR; str_take 2 d].

Lemma validate_digest_Ok d : validate_digest d = Ok tt <-> valid_digest d.
Proof.
  unfold validate_digest, valid_digest, slen.
  destruct (Z.eqb_spec (Z.of_nat (String.length d)) 64); simpl;
    destruct (all_chars is_ascii_hexdigit d); simpl; intuition (try congruence; lia).
Qed.

Lemma validate_digest_valid d : valid_digest d -> validate_digest d = Ok tt.
Proof. apply validate_digest_Ok. Qed.

Lemma validate_digest_cases d :
  (valid_digest d /\ validate_digest d = Ok tt) \/ (exists e, validate_digest d = Err e).
Proof.
  destruct (validate_digest d) as [[]|e] eqn:E; [left|eauto].
  split; [by apply validate_digest_Ok|done].
Qed.

Lemma str_take_drop n s : str_take n s +:+ str_drop n s = s.
Proof.
  apply chars_inj. unfold str_take, str_drop.
  by rewrite chars_app, !chars_of_chars, take_drop.
Qed.

Lemma string_app_inj_len a b c d :
  String.length a = String.length b -> a +:+ c = b +:+ d -> a = b /\ c = d.
Proof.
  rewrite <- !length_chars. intros Hl He. apply (f_equal chars) in He.
  rewrite !chars_app in He. apply app_inj_1 in He; [|done].
  destruct He. split; by apply chars_inj.
Qed.

Lemma blob_file_inj dir d d' s s' :
  valid_digest d -> valid_digest d' -> blob_file dir d s = blob_file dir d' s' -> d = d' /\ s = s'.
Proof.
  intros [Hl _] [Hl' _] He. unfold blob_file in He. apply app_inv_head in He.
  injection He as Ht Hd.
  assert (str_drop 2 d = str_drop 2 d' /\ s = s') as [Hd' ->].
  { apply string_app_inj_len; [|done].
    unfold str_drop. rewrite <- !length_chars, !chars_of_chars, !length_drop, !length_chars. lia. }
  split; [|done]. by rewrite <- (str_take_drop 2 d), <- (str_take_drop 2 d'), Ht, Hd'.
Qed.

Lemma blob_file_ne_suffix dir d s s' : s <> s' -> blob_file dir d s <> blob_file dir d s'.
Proof.
  intros Hs He. unfold blob_file in He. apply app_inv_head in He. injection He as He.
  apply Hs. by apply string_app_inj_len in He as [_ ?].
Qed.

Lemma file_name_eq d : valid_digest d -> file_name d = Ok (str_drop 2 d).
Proof. intros Hv. unfold file_name. by rewrite validate_digest_valid. Qed.

Lemma blob_path_eq dir d : valid_digest d -> blob_path dir d = Ok (blob_file dir d "").
Proof.
  intros Hv. unfold blob_path. rewrite validate_digest_valid, file_name_eq by done. simpl.
  unfold join, blob_file. by rewrite string_app_nil_r, <- !app_assoc.
Qed.

Lemma file_stem_no_dot s : "."%char ∉ chars s -> file_stem s = s.
Proof.
  intros Hs. unfold file_stem.
  replace (split_once _ _) with (@None (string * string)); [done|].
  symmetry. apply split_once_None. rewrite chars_of_chars.
  by rewrite list_elem_of_In, <- in_rev, <- list_elem_of_In.
Qed.

Lemma hexdigit_not_dot c : is_ascii_hexdigit c = true -> c <> "."%char.
Proof. ascii_cases c. Qed.

Lemma digest_name_no_dot d : valid_digest d -> "."%char ∉ chars (str_drop 2 d).
Proof.
  intros [_ Hh] Hin. apply all_chars_spec in Hh. rewrite Forall_forall in Hh.
  unfold str_drop in Hin. rewrite chars_of_chars in Hin.
  apply subseteq_drop in Hin.
  by apply Hh, hexdigit_not_dot in Hin.
Qed.

Lemma with_extension_blob_file dir d ext :
  valid_digest d -> with_extension (blob_file dir d "") ext = blob_file dir d ("." +:+ ext).
Proof.
  intros Hv. unfold with_extension, blob_file.
  replace (dir ++ [BLOBS_SUBDIR; str_take 2 d; str_drop 2 d +:+ ""])
    with ((dir ++ [BLOBS_SUBDIR; str_take 2 d]) ++ [str_drop 2 d]).
  - rewrite last_snoc, removelast_last, file_stem_no_dot by by apply digest_name_no_dot.
    by rewrite <- app_assoc.
  - by rewrite <- app_assoc, string_app_nil_r.
Qed.

Lemma encoded_blob_path_eq dir d e :
  valid_digest d -> encoded_blob_path dir d e = Ok (blob_file dir d ("." +:+ file_extension e)).
Proof.
  intros Hv. unfold encoded_blob_path. rewrite blob_path_eq by done. cbn [rbind].
  by rewrite with_extension_blob_file.
Qed.

Lemma metadata_path_eq dir d : valid_digest d -> metadata_path dir d = Ok (blob_file dir d ".meta.json").
Proof.
  intros Hv. unfold metadata_path. rewrite blob_path_eq by done. cbn [rbind].
  by rewrite with_extension_blob_file.
Qed.

Lemma invalid_paths dir d e :
  validate_digest d = Err e ->
  blob_path dir d = Err e /\ metadata_path dir d = Err e /\ file_name d = Err e /\
  forall en, encoded_blob_path dir d en = Err e.
Proof.
  intros He. unfold metadata_path, encoded_blob_path, blob_path, file_name. by rewrite He.
Qed.

Lemma parent_blob_file dir d s : parent (blob_file dir d s) = Some (shard_dir dir d).
Proof.
  unfold parent, blob_file, shard_dir. destruct dir as [|x dir]; [done|]. cbn [app].
  f_equal.
  replace (x :: dir ++ [BLOBS_SUBDIR; str_take 2 d; str_drop 2 d +:+ s])
    with ((x :: dir ++ [BLOBS_SUBDIR; str_take 2 d]) ++ [str_drop 2 d +:+ s])
    by by rewrite <- app_comm_cons, <- app_assoc.
  by rewrite removelast_last.
Qed.

Lemma join_shard dir d s : join (shard_dir dir d) (str_drop 2 d +:+ s) = blob_file dir d s.
Proof. unfold join, shard_dir, blob_file. by rewrite <- app_assoc. Qed.

(** ** Footprints

    Every operation on a digest touches only the files of that digest. *)

Definition blob_area (dir : path) (d : string) (p : path) : Prop :=
  valid_digest d /\ exists s, p = blob_file dir d s.

Lemma foots_lift {A} P (r : Result A Error) : foots P (lift r).
Proof. destruct r; solve_foots. Qed.
Lemma foots_context {A} P (o : option A) msg : foots P (context o msg).
Proof. destruct o; solve_foots. Qed.
Lemma foots_remove_if_exists (P : path -> Prop) p : P p -> foots P (remove_file_if_exists p).
Proof. intros Hp. unfold remove_file_if_exists. solve_foots. Qed.

Lemma remove_if_exists_quiet p w :
  faults w = [] -> remove_file_if_exists p w = (Ok tt, with_files (delete p (files w)) w).
Proof.
  intros Hw. unfold remove_file_if_exists, try_, fs_remove_file.
  rewrite guarded_quiet by done. destruct (files w !! p) as [b|] eqn:E; [done|].
  simpl. unfold ret. rewrite delete_id by done. by destruct w.
Qed.
#[export] Hint Resolve foots_lift foots_context foots_remove_if_exists : foots.

Lemma foots_create_new (P : path -> Prop) p : P p -> foots P (fs_create_new p).
Proof.
  intros Hp. apply foots_guarded; [intros; apply foot_refl|].
  intros w. destruct (files w !! p); simpl; [apply foot_refl|by apply foot_insert].
Qed.
Lemma foots_copy_into (P : path -> Prop) b p : P p -> foots P (fs_copy_into b p).
Proof.
  intros Hp. apply foots_guarded; [|intros w; by apply foot_insert].
  intros [n|] w; simpl; [by apply foot_insert|apply foot_refl].
Qed.
Lemma foots_hard_link (P : path -> Prop) p q : P q -> foots P (fs_hard_link p q).
Proof.
  intros Hq. apply foots_guarded; [intros; apply foot_refl|].
  intros w. destruct (files w !! p), (files w !! q); simpl; try apply foot_refl. by apply foot_insert.
Qed.
#[export] Hint Resolve foots_create_new foots_copy_into foots_hard_link : foots.

Lemma foots_link_or_copy (P : path -> Prop) p q : P q -> foots P (link_or_copy_into_place p q).
Proof. intros Hq. unfold link_or_copy_into_place. solve_foots. Qed.

Lemma foots_write_atomically (P : path -> Prop) parent target stem b :
  (forall id, P (join parent (stem +:+ ".tmp-" +:+ id))) -> P target ->
  foots P (write_bytes_atomically parent target stem b).
Proof.
  intros Ht Hp. unfold write_bytes_atomically, with_cleanup. solve_foots.
Qed.

Lemma foots_atomic_replace (P : path -> Prop) parent target stem b :
  (forall id, P (join parent (stem +:+ ".tmp-" +:+ id))) -> P target ->
  foots P (write_bytes_with_atomic_replace parent target stem b).
Proof. intros Ht Hp. unfold write_bytes_with_atomic_replace. solve_foots. Qed.

Section Footprints.
Context `{Sha256, BlobMetadataCodec, Zstd}.
Context (dir : path) (d : string).

Lemma area_file s : valid_digest d -> blob_area dir d (blob_file dir d s).
Proof. intros Hv. split; eauto. Qed.

Lemma area_temp s x : valid_digest d -> blob_area dir d (join (shard_dir dir d) ((str_drop 2 d +:+ s) +:+ x)).
Proof. intros Hv. rewrite string_app_assoc, join_shard. by apply area_file. Qed.

Lemma area_temp_raw x : valid_digest d -> blob_area dir d (join (shard_dir dir d) (str_drop 2 d +:+ x)).
Proof. intros Hv. rewrite join_shard. by apply area_file. Qed.
#[local] Hint Resolve area_file area_temp area_temp_raw foots_write_atomically foots_atomic_replace : foots.

(** Prove the footprint of an operation on [d], whose paths are known when [d] is
    valid; otherwise it fails before it does anything. *)
Ltac solve_area :=
  destruct (validate_digest_cases d) as [[Hv Hd]|[err Hd]];
  [ rewrite ?(metadata_path_eq _ _ Hv), ?(blob_path_eq _ _ Hv), ?(file_name_eq _ Hv), ?Hd,
      ?(encoded_blob_path_eq _ _ _ Hv)
  | destruct (invalid_paths dir d err Hd) as (Hbp & Hmp & Hfn & Hep);
    rewrite ?Hmp, ?Hbp, ?Hfn, ?Hd, ?Hep ];
  cbn [lift rbind];
  repeat first
    [ progress rewrite ?bind_ret_l, ?bind_throw_l, ?parent_blob_file
    | progress cbn [context]
    | foots_step ].

Lemma foots_load_blob P : foots P (load_blob_metadata dir d).
Proof. unfold load_blob_metadata. solve_foots. Qed.
#[local] Hint Resolve foots_load_blob : foots.

Lemma foots_persist_blob m : foots (blob_area dir d) (persist_blob_metadata dir d m).
Proof. unfold persist_blob_metadata. solve_area. Qed.
#[local] Hint Resolve foots_persist_blob : foots.

Lemma foots_ensure_blob n : foots (blob_area dir d) (ensure_blob_metadata dir d n).
Proof. unfold ensure_blob_metadata. solve_foots. Qed.
#[local] Hint Resolve foots_ensure_blob : foots.

(** Refreshing the metadata leaves the contents alone. *)
Definition side_area (p : path) : Prop := valid_digest d /\ exists c s, p = blob_file dir d (String c s).

Lemma side_file c s : valid_digest d -> side_area (blob_file dir d (String c s)).
Proof. intros Hv. split; eauto. Qed.

Lemma side_temp c s x : valid_digest d -> side_area (join (shard_dir dir d) ((str_drop 2 d +:+ String c s) +:+ x)).
Proof. intros Hv. rewrite string_app_assoc, join_shard. by apply side_file. Qed.
#[local] Hint Resolve side_file side_temp : foots.

Lemma foots_persist_side m : foots side_area (persist_blob_metadata dir d m).
Proof. unfold persist_blob_metadata. solve_area. Qed.
#[local] Hint Resolve foots_persist_side : foots.

Lemma foots_ensure_side n : foots side_area (ensure_blob_metadata dir d n).
Proof. unfold ensure_blob_metadata. solve_foots. Qed.
#[local] Hint Resolve foots_ensure_side : foots.

Lemma foots_touch_side t : foots side_area (touch_blob dir d t).
Proof. unfold touch_blob. solve_area. Qed.

Lemma foots_store_encoded n e b : foots (blob_area dir d) (store_encoded_blob_variant dir d n e b).
Proof. unfold store_encoded_blob_variant. solve_area. Qed.
#[local] Hint Resolve foots_store_encoded : foots.

Lemma foots_maybe_zstd b : foots (blob_area dir d) (maybe_store_zstd_variant dir d b).
Proof. unfold maybe_store_zstd_variant. solve_area. Qed.
#[local] Hint Resolve foots_maybe_zstd : foots.

Lemma foots_touch_blob t : foots (blob_area dir d) (touch_blob dir d t).
Proof. unfold touch_blob. solve_area. Qed.
#[local] Hint Resolve foots_touch_blob : foots.

Lemma foots_store_blob_for_digest b : foots (blob_area dir d) (store_blob_for_digest dir d b).
Proof. unfold store_blob_for_digest. solve_area. Qed.

Lemma foots_remove_variants es : foots (blob_area dir d) (remove_variants dir d es).
Proof. induction es as [|e es IH]; cbn [remove_variants]; [solve_foots|]. solve_area. Qed.
#[local] Hint Resolve foots_remove_variants : foots.

Lemma foots_delete_blob : foots (blob_area dir d) (delete_blob dir d).
Proof. unfold delete_blob. solve_area. Qed.

End Footprints.

(** ** The invariant

    [U] is the set of contents the system ever handles; SHA-256 is assumed not to
    collide on it.  [file_ok d s b]: contents [b] are right for the file of digest
    [d] with suffix [s] (temporary files may hold anything). *)
Section Invariant.
Context `{Sha256, BlobMetadataCodec, !BlobMetadataCodecLaws, Zstd, !ZstdLaws}.
Context (U : bytes -> Prop) (dir : path).

Definition collision_free : Prop :=
  forall a b, U a -> U b -> sha256_hex a = sha256_hex b -> a = b.

Definition raw_ok (d : string) (b : bytes) : Prop := U b /\ sha256_hex b = d.

Definition metadata_ok (d : string) (m : BlobMetadata) : Prop :=
  canonical_digest m = d /\ exists b, raw_ok d b /\ raw_size_bytes m = blen b.

Definition file_ok (d s : string) (b : bytes) : Prop :=
  (s = "" -> raw_ok d b) /\
  (s = ".meta.json" -> exists m, (forall t, blob_metadata_from_slice t b = Some m) /\ metadata_ok d m) /\
  (s = ".zst" -> exists raw, raw_ok d raw /\ zstd_decode_all b = Some raw).

Definition entry_ok (fs : gmap path bytes) (d : string) : Prop :=
  forall s b, fs !! blob_file dir d s = Some b -> file_ok d s b.

(** The whole store: every file of every digest is right. *)
Definition store_ok (fs : gmap path bytes) : Prop := forall d, valid_digest d -> entry_ok fs d.

(** No operation fails with one of the errors that make the store fall back from
    linking to copying: the file system supports hard links. *)
Definition links_supported (w : World) : Prop :=
  Forall (fun f => forall ft, f = Some ft -> is_link_fallback (fault_error ft) = false) (faults w).

(** What a run on digest [d] does to the world: it keeps the invariant, touches
    only files of [d], meets no fault when none is scheduled, and keeps the raw blob
    when [keep] is set; when it is not set, the run does not create it. *)
Record Run (keep : bool) (d : string) (w w' : World) : Prop := {
  run_entry : entry_ok (files w') d;
  run_links : links_supported w';
  run_frame : forall p, (forall s, p <> blob_file dir d s) -> files w' !! p = files w !! p;
  run_keep : keep = true -> forall b,
    files w !! blob_file dir d "" = Some b -> files w' !! blob_file dir d "" = Some b;
  run_absent : keep = false ->
    files w !! blob_file dir d "" = None -> files w' !! blob_file dir d "" = None;
  run_quiet : faults w = [] -> faults w' = [];
}.

Definition good (d : string) (w : World) : Prop := entry_ok (files w) d /\ links_supported w.

Lemma run_good k d w w' : Run k d w w' -> good d w'.
Proof. intros []. by split. Qed.

Lemma run_refl k d w : good d w -> Run k d w w.
Proof. intros []. by split. Qed.

Lemma run_trans k d w1 w2 w3 : Run k d w1 w2 -> Run k d w2 w3 -> Run k d w1 w3.
Proof.
  intros [E1 L1 F1 K1 A1 Q1] [E2 L2 F2 K2 A2 Q2]. split; [done|done| |by eauto..].
  intros p Hp. by rewrite F2, F1.
Qed.

Lemma run_same_files k d w w' : Run true d w w' -> files w' = files w -> Run k d w w'.
Proof. intros [] Hfs. split; try done; intros; by rewrite Hfs. Qed.

Hint Resolve run_good run_refl run_trans : core.

(** Inserting right contents and deleting keep an entry right. *)
Lemma entry_ok_insert fs d s b :
  file_ok d s b -> entry_ok fs d -> entry_ok (<[blob_file dir d s := b]> fs) d.
Proof.
  intros Hf He s' b'. destruct (decide (s = s')) as [->|Hne].
  - rewrite lookup_insert_eq. by intros [= <-].
  - rewrite lookup_insert_ne by by apply blob_file_ne_suffix. apply He.
Qed.

Lemma entry_ok_delete fs d p : entry_ok fs d -> entry_ok (delete p fs) d.
Proof. intros He s b Hl. apply lookup_delete_Some in Hl as [_ Hl]. by apply He. Qed.

Lemma run_insert d w s b :
  good d w -> file_ok d s b -> (s = "" -> files w !! blob_file dir d "" = None) ->
  Run true d w (with_files (<[blob_file dir d s := b]> (files w)) w).
Proof.
  intros [He Hl] Hf Hs. split; simpl; try done.
  - by apply entry_ok_insert.
  - intros p Hp. by rewrite lookup_insert_ne by (intros <-; by eapply Hp).
  - intros _ b' Hb'. destruct (decide (s = "")) as [->|Hne].
    + rewrite Hs in Hb' by done. done.
    + by rewrite lookup_insert_ne by by apply blob_file_ne_suffix.
Qed.

Lemma run_delete k d w s :
  good d w -> (k = true -> s <> "") ->
  Run k d w (with_files (delete (blob_file dir d s) (files w)) w).
Proof.
  intros [He Hl] Hs. split; simpl; try done.
  - by apply entry_ok_delete.
  - intros p Hp. by rewrite lookup_delete_ne by (intros <-; by eapply Hp).
  - intros Hk b' Hb'. by rewrite lookup_delete_ne by (apply blob_file_ne_suffix; auto).
  - intros _ Hn. by apply lookup_delete_None; right.
Qed.

Definition pop_world (w : World) : World := snd (pop_fault w).

Lemma run_pop k d w : good d w -> Run k d w (pop_world w).
Proof.
  intros [He Hl]. unfold pop_world, pop_fault, links_supported in *.
  destruct (faults w) as [|f r] eqn:E; simpl.
  - split; try done. unfold links_supported. by rewrite E.
  - apply Forall_cons in Hl as [_ Hl]. split; simpl; try done; congruence.
Qed.

Lemma wp_guarded {A} d k bad (good_op : FsOp A) (Q : Result A IoError -> World -> Prop) w :
  good d w ->
  (forall f, is_link_fallback (fault_error f) = false -> faults w <> [] ->
     Run k d w (pop_world w) -> Q (Err (fault_error f)) (bad (fault_written f) (pop_world w))) ->
  (Run k d w (pop_world w) -> wp good_op Q (pop_world w)) ->
  wp (guarded bad good_op) Q w.
Proof.
  intros Hg Hbad Hgood. pose proof (run_pop k d w Hg) as Hr. destruct Hg as [_ Hl].
  unfold wp, guarded, pop_world, pop_fault, links_supported in *.
  destruct (faults w) as [|[f|] r] eqn:E; simpl in *; [by apply Hgood| |by apply Hgood].
  apply Forall_cons in Hl as [Hf _]. apply Hbad; [by apply Hf|done|done].
Qed.

Lemma pop_world_files w : files (pop_world w) = files w.
Proof. unfold pop_world, pop_fault. by destruct (faults w). Qed.

(** ** File operations on the files of a digest *)

Lemma wp_create_dir_all d w p :
  good d w ->
  wp (fs_create_dir_all p) (fun r w' => Run true d w w' /\ files w' = files w /\
    (faults w = [] -> is_ok r = true)) w.
Proof.
  intros Hg. eapply (wp_guarded d true); [done|..].
  - intros f _ Hne Hr. split_and!; [done|apply pop_world_files|done].
  - intros Hr. split_and!; [done|apply pop_world_files|done].
Qed.

Lemma wp_metadata_len d w p :
  good d w ->
  wp (fs_metadata_len p) (fun r w' => Run true d w w' /\ files w' = files w /\
    (forall n, r = Ok n -> exists b, files w !! p = Some b /\ n = blen b) /\
    (faults w = [] -> forall b, files w !! p = Some b -> r = Ok (blen b))) w.
Proof.
  intros Hg. eapply (wp_guarded d true); [done|..].
  - intros f _ Hne Hr. split; [done|]. split; [apply pop_world_files|]. split; [done|done].
  - intros Hr. unfold wp. rewrite pop_world_files.
    destruct (files w !! p) as [b|]; simpl;
      (split; [done|]; split; [apply pop_world_files|]; split; intros; simplify_eq; eauto).
Qed.

Lemma wp_read d w p :
  good d w ->
  wp (fs_read p) (fun r w' => Run true d w w' /\ files w' = files w /\
    (forall b, r = Ok b -> files w !! p = Some b) /\
    (faults w = [] -> r = ok_or (files w !! p) NotFound)) w.
Proof.
  intros Hg. eapply (wp_guarded d true); [done|..].
  - intros f _ Hne Hr. split; [done|]. split; [apply pop_world_files|]. split; [done|done].
  - intros Hr. unfold wp. rewrite pop_world_files.
    destruct (files w !! p) as [b|]; simpl;
      (split; [done|]; split; [apply pop_world_files|]; split; intros; simplify_eq; eauto).
Qed.

(** A suffix whose contents do not matter. *)
Definition scratch (s : string) : Prop := s <> "" /\ s <> ".meta.json" /\ s <> ".zst".

Lemma scratch_file_ok d s b : scratch s -> file_ok d s b.
Proof. intros (? & ? & ?). repeat split; intros; congruence. Qed.

Lemma wp_write_scratch d w s b :
  good d w -> scratch s ->
  wp (fs_write (blob_file dir d s) b) (fun r w' => Run true d w w' /\
    (forall u, r = Ok u -> files w' !! blob_file dir d s = Some b) /\
    (forall s', s' <> s -> files w' !! blob_file dir d s' = files w !! blob_file dir d s') /\
    (faults w = [] -> is_ok r = true)) w.
Proof.
  intros Hg Hs.
  assert (Hins : forall b, Run true d w (pop_world w) ->
    Run true d w (with_files (<[blob_file dir d s := b]> (files w)) (pop_world w))).
  { intros c Hr. eapply run_trans; [exact Hr|]. rewrite <- (pop_world_files w) at 1.
    apply run_insert; eauto using scratch_file_ok. by intros ->; destruct Hs. }
  assert (Hne : forall c s', s' <> s ->
    <[blob_file dir d s := c]> (files w) !! blob_file dir d s' = files w !! blob_file dir d s').
  { intros c s' Hs'. by rewrite lookup_insert_ne by by apply blob_file_ne_suffix. }
  eapply (wp_guarded d true); [done|..].
  - intros f _ Hnf Hr. unfold partial_write. rewrite pop_world_files.
    destruct (fault_written f) as [k|]; simpl; [|rewrite pop_world_files]; split_and!; try done; by auto.
  - intros Hr. unfold wp. simpl. rewrite pop_world_files. simpl.
    rewrite lookup_insert_eq. split_and!; try done; by auto.
Qed.

Lemma wp_hard_link d w s s' b :
  good d w -> files w !! blob_file dir d s = Some b -> file_ok d s' b ->
  wp (fs_hard_link (blob_file dir d s) (blob_file dir d s')) (fun r w' => Run true d w w' /\
    (forall e, r = Err e -> is_link_fallback e = false) /\
    (faults w = [] -> files w' !! blob_file dir d s' <> None /\
       r = if is_some (files w !! blob_file dir d s') then Err AlreadyExists else Ok tt)) w.
Proof.
  intros Hg Hs Hf. eapply (wp_guarded d true); [done|..].
  - intros f Hlf Hnf Hr. split_and!; [done|by intros ? [= <-]|done].
  - intros Hr. unfold wp. rewrite pop_world_files, Hs.
    destruct (files w !! blob_file dir d s') as [b'|] eqn:E; simpl.
    + split_and!; [done|by intros ? [= <-]|]. intros _. by rewrite pop_world_files, E.
    + split_and!; [|done|by rewrite lookup_insert_eq].
      eapply run_trans; [exact Hr|]. rewrite <- (pop_world_files w) at 1.
      apply run_insert; [by eauto|done|]. intros ->. by rewrite pop_world_files.
Qed.

Lemma wp_rename d w s s' b :
  good d w -> files w !! blob_file dir d s = Some b -> file_ok d s' b -> s <> "" -> s' <> "" ->
  wp (fs_rename (blob_file dir d s) (blob_file dir d s')) (fun r w' => Run true d w w' /\
    (forall u, r = Ok u -> files w' !! blob_file dir d s' = Some b) /\
    (faults w = [] -> is_ok r = true)) w.
Proof.
  intros Hg Hs Hf Hn Hn'. eapply (wp_guarded d true); [done|..].
  - intros f Hlf Hnf Hr. by split_and!.
  - intros Hr. unfold wp. rewrite pop_world_files, Hs. simpl. rewrite lookup_insert_eq.
    split_and!; [|done|done].
    eapply run_trans; [exact Hr|]. rewrite <- (pop_world_files w).
    eapply run_trans; [apply (run_delete _ _ _ s); eauto|].
    set (wd := with_files (delete (blob_file dir d s) (files (pop_world w))) (pop_world w)).
    assert (Hgd : good d wd) by (eapply run_good, (run_delete true d (pop_world w) s); eauto).
    exact (run_insert d wd s' b Hgd Hf (fun E => False_ind _ (Hn' E))).
Qed.

Lemma wp_remove_file k d w s :
  good d w -> (k = true -> s <> "") ->
  wp (fs_remove_file (blob_file dir d s)) (fun r w' => Run k d w w' /\
    (r = Ok tt -> files w' !! blob_file dir d s = None) /\
    (faults w = [] -> files w' !! blob_file dir d s = None /\ (r = Ok tt \/ r = Err NotFound))) w.
Proof.
  intros Hg Hs. eapply (wp_guarded d k); [done|..].
  - intros f Hlf Hnf Hr. by split_and!.
  - intros Hr. unfold wp. rewrite pop_world_files.
    destruct (files w !! blob_file dir d s) as [b|] eqn:E; simpl.
    + rewrite lookup_delete_eq. split_and!; [|done|by auto].
      eapply run_trans; [exact Hr|]. rewrite <- (pop_world_files w).
      apply run_delete; eauto.
    + split_and!; [done|done|]. rewrite pop_world_files. by auto.
Qed.

(** ** The functions of the store *)

Lemma wp_link_or_copy d w s s' b :
  good d w -> files w !! blob_file dir d s = Some b -> file_ok d s' b ->
  wp (link_or_copy_into_place (blob_file dir d s) (blob_file dir d s')) (fun r w' => Run true d w w' /\
    (faults w = [] -> files w' !! blob_file dir d s' <> None /\
       r = Ok (negb (is_some (files w !! blob_file dir d s'))))) w.
Proof.
  intros Hg Hs Hf. unfold link_or_copy_into_place. wp_step wp_hard_link.
  intros r w1 (HR & Hlf & Hq). destruct r as [[]|e].
  - split; [done|]. intros Hw. destruct (Hq Hw) as [? Hr]. split; [done|].
    by destruct (files w !! blob_file dir d s').
  - specialize (Hlf e eq_refl).
    destruct e; try discriminate Hlf; simpl; (split; [done|]; intros Hw;
      destruct (Hq Hw) as [? Hr]; destruct (files w !! blob_file dir d s'); by inversion Hr).
Qed.

Lemma wp_with_cleanup {A} d w s (m : IO A) (Q : Result A Error -> Prop) s' :
  s <> "" -> s' <> s ->
  wp m (fun r w' => Run true d w w' /\ (faults w = [] -> files w' !! blob_file dir d s' <> None /\ Q r)) w ->
  wp (with_cleanup (blob_file dir d s) m) (fun r w' => Run true d w w' /\
    (faults w = [] -> Q r /\ (s' = "" -> files w' !! blob_file dir d "" <> None))) w.
Proof.
  intros Hs Hs' Hm. unfold with_cleanup. apply wp_try. eapply wp_mono; [exact Hm|cbv beta].
  intros r w1 [HR Hq]. wp_step (wp_remove_file true).
  intros r2 w2 (HR2 & _ & _).
  assert (Hres : wp (lift r) (fun r' w' => r' = r /\ w' = w2) w2) by by destruct r.
  eapply wp_mono; [exact Hres|]. intros r' w' [-> ->]. split; [by eauto|].
  intros Hw. destruct (Hq Hw) as [Hp Hr]. split; [done|]. intros ->.
  destruct (files w1 !! blob_file dir d "") eqn:E; [|done].
  by rewrite (run_keep _ _ _ _ HR2 eq_refl _ E).
Qed.

Lemma scratch_tmp s id : scratch (s +:+ ".tmp-" +:+ id).
Proof.
  assert (Hn : forall s', "-"%char ∉ chars s' -> s +:+ ".tmp-" +:+ id <> s').
  { intros s' Hs' <-. apply Hs'. rewrite !chars_app. rewrite !elem_of_app. right. left.
    vm_compute. by repeat constructor. }
  repeat split; apply Hn; vm_compute; intros Hin;
    repeat (apply elem_of_cons in Hin as [Hin|Hin]; [discriminate|]); by apply elem_of_nil in Hin.
Qed.
Hint Resolve scratch_tmp : core.

Lemma wp_write_bytes_atomically d w s b :
  good d w -> file_ok d s b -> ~ scratch s ->
  wp (write_bytes_atomically (shard_dir dir d) (blob_file dir d s) (str_drop 2 d +:+ s) b)
    (fun r w' => Run true d w w' /\
      (faults w = [] -> r = Ok (negb (is_some (files w !! blob_file dir d s))) /\
        (s = "" -> files w' !! blob_file dir d "" <> None))) w.
Proof.
  intros Hg Hf Hs. unfold write_bytes_atomically. apply wp_bind. unfold wp at 1. simpl.
  set (w0 := {| files := files w; faults := _; next_uuid := _; clock := _ |}).
  assert (Hg0 : good d w0) by exact Hg.
  assert (HR0 : Run true d w w0) by (destruct Hg; by split).
  set (id := pretty (next_uuid w)). rewrite !string_app_assoc, join_shard.
  set (t := s +:+ ".tmp-" +:+ id). assert (Ht : scratch t) by apply scratch_tmp.
  assert (Hst : s <> t) by (intros He; apply Hs; by rewrite He).
  wp_step wp_write_scratch. intros r w1 (HR1 & Hok & Hsame & Hq1). destruct r as [[]|e]; simpl.
  - specialize (Hok tt eq_refl).
    eapply wp_mono; [eapply (wp_with_cleanup _ _ _ _ (fun r => r = Ok (negb (is_some (files w1 !! blob_file dir d s)))) s)|].
    + apply Ht.
    + done.
    + eapply wp_link_or_copy; eauto.
    + intros r w2 [HR2 Hq2]. split; [by eauto|]. intros Hw.
      assert (faults w1 = []) as Hw1 by (apply (run_quiet _ _ _ _ HR1); done).
      destruct (Hq2 Hw1) as [-> Hp]. rewrite Hsame by done. auto.
  - split; [by eauto|]. intros Hw. by specialize (Hq1 Hw).
Qed.

Lemma wp_lift_Ok {A B} (r : Result A Error) a (k : A -> IO B) Q w :
  r = Ok a -> wp (k a) Q w -> wp (bind (lift r) k) Q w.
Proof. by intros ->. Qed.

Lemma wp_now {E B} (k : Z -> Comp E B) Q w : wp (k (clock w)) Q w -> wp (bind now k) Q w.
Proof. done. Qed.

Lemma wp_context_Some {A B} (o : option A) a msg (k : A -> IO B) Q w :
  o = Some a -> wp (k a) Q w -> wp (bind (context o msg) k) Q w.
Proof. by intros ->. Qed.

Lemma wp_load_blob_metadata d w :
  valid_digest d -> good d w ->
  wp (load_blob_metadata dir d) (fun r w' => Run true d w w' /\ files w' = files w /\
    (forall m, r = Ok m -> metadata_ok d m) /\
    (faults w = [] -> (exists m, r = Ok m) \/ (exists e, r = Err e /\ is_not_found_error e = true))) w.
Proof.
  intros Hv Hg. unfold load_blob_metadata.
  eapply wp_lift_Ok; [by apply metadata_path_eq|].
  wp_step wp_read. intros r w1 (HR & Hfs & Hr & Hq). destruct r as [mb|e]; simpl.
  - specialize (Hr mb eq_refl).
    destruct (proj1 Hg _ _ Hr) as (_ & Hm & _). destruct (Hm eq_refl) as (m & Hp & Hok).
    apply wp_now. rewrite Hp. split_and!; [done|done|by intros ? [= <-]|]. intros _. left. by exists m.
  - split_and!; [done|done|done|]. intros Hw. specialize (Hq Hw). right.
    destruct (files w !! blob_file dir d ".meta.json"); simpl in Hq; [done|].
    injection Hq as ->. by eexists.
Qed.

Lemma metadata_file_ok d m : metadata_ok d m -> file_ok d ".meta.json" (blob_metadata_to_vec m).
Proof.
  intros Hm. split_and!; [done| |done]. intros _. exists m.
  split; [|done]. intros t. apply blob_metadata_roundtrip.
Qed.

Lemma wp_atomic_replace d w s b :
  good d w -> file_ok d s b -> s <> "" ->
  wp (write_bytes_with_atomic_replace (shard_dir dir d) (blob_file dir d s) (str_drop 2 d +:+ s) b)
    (fun r w' => Run true d w w' /\
      (forall u, r = Ok u -> files w' !! blob_file dir d s = Some b) /\
      (faults w = [] -> is_ok r = true)) w.
Proof.
  intros Hg Hf Hs. unfold write_bytes_with_atomic_replace. apply wp_bind. unfold wp at 1. simpl.
  set (w0 := {| files := files w; faults := _; next_uuid := _; clock := _ |}).
  assert (Hg0 : good d w0) by exact Hg.
  assert (HR0 : Run true d w w0) by (destruct Hg; by split).
  set (id := pretty (next_uuid w)). rewrite !string_app_assoc, join_shard.
  set (t := s +:+ ".tmp-" +:+ id). assert (Ht : scratch t) by apply scratch_tmp.
  wp_step wp_write_scratch. intros r w1 (HR1 & Hok & _ & Hq1). destruct r as [[]|e]; simpl.
  - specialize (Hok tt eq_refl).
    wp_step wp_rename; [apply Ht|]. intros r w2 (HR2 & Hok2 & Hq2). destruct r as [[]|e]; simpl.
    + split_and!; [by eauto|by eauto|done].
    + wp_step (wp_remove_file true); [intros; apply Ht|].
      intros r w3 (HR3 & _ & _). simpl. split_and!; [by eauto 6|done|].
      intros Hw. apply (run_quiet _ _ _ _ HR1) in Hw. by specialize (Hq2 Hw).
  - split_and!; [by eauto|done|]. intros Hw. by specialize (Hq1 Hw).
Qed.

Lemma wp_persist_blob_metadata d w m :
  valid_digest d -> good d w -> metadata_ok d m ->
  wp (persist_blob_metadata dir d m) (fun r w' => Run true d w w' /\
    (forall u, r = Ok u -> files w' !! blob_file dir d ".meta.json" = Some (blob_metadata_to_vec m)) /\
    (faults w = [] -> is_ok r = true)) w.
Proof.
  intros Hv Hg Hm. unfold persist_blob_metadata.
  eapply wp_lift_Ok; [by apply metadata_path_eq|].
  eapply wp_context_Some; [apply parent_blob_file|].
  wp_step wp_create_dir_all. intros r w1 (HR1 & _ & Hq1). destruct r as [[]|e]; simpl.
  - eapply wp_lift_Ok; [by apply file_name_eq|].
    eapply wp_mono; [eapply wp_atomic_replace; eauto using metadata_file_ok; done|].
    intros r w2 (HR2 & Hok2 & Hq2). split_and!; [by eauto|done|].
    intros Hw. apply Hq2. by apply (run_quiet _ _ _ _ HR1).
  - split_and!; [done|done|]. intros Hw. by specialize (Hq1 Hw).
Qed.

Lemma wp_ensure_blob_metadata d w b :
  valid_digest d -> good d w -> raw_ok d b ->
  wp (ensure_blob_metadata dir d (blen b)) (fun r w' => Run true d w w' /\
    (forall m, r = Ok m -> metadata_ok d m /\ raw_size_bytes m = blen b) /\
    (collision_free -> faults w = [] -> is_ok r = true)) w.
Proof.
  intros Hv Hg Hb. unfold ensure_blob_metadata.
  wp_step wp_load_blob_metadata. intros r w1 (HR1 & Hfs & Hm & Hq). destruct r as [m|e].
  - destruct (Hm m eq_refl) as [Hd (b' & Hb' & Hsz)].
    rewrite bool_decide_true by done. simpl.
    destruct (Z.eqb_spec (raw_size_bytes m) (blen b)); simpl.
    + split_and!; [done| |done]. intros ? [= <-]. split; [|done]. split; eauto.
    + split_and!; [done|done|]. intros CF _. destruct Hb as [HU Hs], Hb' as [HU' Hs'].
      rewrite (CF b' b) in Hsz by congruence. done.
  - destruct (is_not_found_error e) eqn:Ee.
    + apply wp_now. set (m := {| canonical_digest := d; raw_size_bytes := _; last_referenced_at := _; encoded_variants := _ |}).
      assert (Hmo : metadata_ok d m) by (split; eauto).
      wp_step wp_persist_blob_metadata. intros r w2 (HR2 & _ & Hq2). destruct r as [[]|e2]; simpl.
      * split_and!; [by eauto|by intros ? [= <-]|done].
      * split_and!; [by eauto|done|]. intros _ Hw. apply (run_quiet _ _ _ _ HR1) in Hw.
        by specialize (Hq2 Hw).
    + split_and!; [done|done|]. intros _ Hw. destruct (Hq Hw) as [[m ?]|(e' & [= <-] & ?)]; [done|congruence].
Qed.

Lemma wp_store_encoded d w raw e :
  valid_digest d -> good d w -> raw_ok d raw -> zstd_decode_all e = Some raw ->
  wp (store_encoded_blob_variant dir d (blen raw) EncZstd e) (fun r w' => Run true d w w' /\
    (collision_free -> faults w = [] -> is_ok r = true)) w.
Proof.
  intros Hv Hg Hraw He. unfold store_encoded_blob_variant.
  wp_step wp_ensure_blob_metadata. intros r w1 (HR1 & Hm & Hq1). destruct r as [m|e1]; simpl.
  2:{ split; [done|]. intros CF Hw. by specialize (Hq1 CF Hw). }
  destruct (Hm m eq_refl) as [Hmo Hsz]. rewrite Hsz, Z.eqb_refl. cbn [negb].
  eapply wp_lift_Ok; [by apply encoded_blob_path_eq|].
  eapply wp_context_Some; [apply parent_blob_file|].
  wp_step wp_create_dir_all. intros r w2 (HR2 & _ & Hq2). destruct r as [[]|e2]; simpl.
  2:{ split; [by eauto|]. intros CF Hw. apply (run_quiet _ _ _ _ HR1) in Hw. by specialize (Hq2 Hw). }
  eapply wp_lift_Ok; [by apply file_name_eq|].
  assert (Hzf : file_ok d ".zst" e) by (split_and!; [done|done|by eauto]).
  wp_step wp_write_bytes_atomically; [by intros (_ & _ & [])|].
  intros r w3 (HR3 & Hq3). destruct r as [u|e3]; simpl.
  2:{ split; [by eauto|]. intros CF Hw. apply (run_quiet _ _ _ _ HR1), (run_quiet _ _ _ _ HR2) in Hw.
      by destruct (Hq3 Hw). }
  assert (Hmo' : metadata_ok d (with_variant EncZstd (blen e) m)) by exact Hmo.
  wp_step wp_persist_blob_metadata. intros r w4 (HR4 & _ & Hq4). destruct r as [[]|e4]; simpl.
  - split; [by eauto 6|done].
  - split; [by eauto 6|]. intros CF Hw.
    apply (run_quiet _ _ _ _ HR1), (run_quiet _ _ _ _ HR2), (run_quiet _ _ _ _ HR3) in Hw.
    by specialize (Hq4 Hw).
Qed.

Lemma wp_maybe_store_zstd d w b :
  valid_digest d -> good d w -> raw_ok d b ->
  wp (maybe_store_zstd_variant dir d b) (fun r w' => Run true d w w' /\
    (collision_free -> is_ok (encode_zstd_if_worthwhile b) = true -> faults w = [] -> is_ok r = true)) w.
Proof.
  intros Hv Hg Hb. unfold maybe_store_zstd_variant.
  wp_step wp_ensure_blob_metadata. intros r w1 (HR1 & Hm & Hq1). destruct r as [m|e1]; simpl.
  2:{ split; [done|]. intros CF _ Hw. by specialize (Hq1 CF Hw). }
  eapply wp_lift_Ok; [by apply encoded_blob_path_eq|].
  match goal with |- wp (if _ then _ else ?c) _ _ => set (compress := c) end.
  assert (Hc : forall w2, good d w2 -> wp compress (fun r w' => Run true d w2 w' /\
    (collision_free -> is_ok (encode_zstd_if_worthwhile b) = true -> faults w2 = [] -> is_ok r = true)) w2).
  { intros w2 Hg2. subst compress.
    destruct (encode_zstd_if_worthwhile b) as [[e|]|[]] eqn:Ez; simpl;
      [|by split; auto|by split; auto].
    apply encode_zstd_if_worthwhile_Some in Ez as (_ & Ez & _).
    pose proof (zstd_decode_encode _ _ Ez). wp_step wp_store_encoded.
    intros r w3 (HR3 & Hq3). destruct r; simpl; split; auto. }
  assert (Hfin : forall w2, Run true d w w2 -> wp compress (fun r w' => Run true d w w' /\
    (collision_free -> is_ok (encode_zstd_if_worthwhile b) = true -> faults w = [] -> is_ok r = true)) w2).
  { intros w2 HR2. eapply wp_mono; [apply Hc; eauto|]. intros r w3 (HR3 & Hq3). split; [by eauto|].
    intros CF Hz Hw. apply Hq3; [done|done|]. by apply (run_quiet _ _ _ _ HR2). }
  case_bool_decide; [|by apply Hfin].
  wp_step wp_metadata_len. intros r w2 (HR2 & _). destruct r; simpl.
  - by split; eauto.
  - apply Hfin. eauto.
Qed.

Lemma wp_touch_blob d w t :
  valid_digest d -> good d w ->
  wp (touch_blob dir d t) (fun r w' => Run true d w w' /\
    (forall m, r = Ok m -> exists b, files w' !! blob_file dir d "" = Some b /\ raw_ok d b) /\
    (files w !! blob_file dir d "" = None -> is_ok r = false /\ files w' = files w) /\
    (collision_free -> faults w = [] -> files w !! blob_file dir d "" <> None -> is_ok r = true)) w.
Proof.
  intros Hv Hg. unfold touch_blob.
  eapply wp_lift_Ok; [by apply validate_digest_valid|].
  eapply wp_lift_Ok; [by apply blob_path_eq|].
  wp_step wp_metadata_len. intros r w1 (HR1 & Hfs & Hok & Hq1). destruct r as [n|e]; simpl.
  2:{ split_and!; [done|done|done|]. intros CF Hw Hp. destruct (files w !! _) eqn:E; [|done].
      by specialize (Hq1 Hw _ eq_refl). }
  destruct (Hok n eq_refl) as (b & Hb & ->). rewrite Hb.
  assert (Hraw : raw_ok d b) by (apply (proj1 (proj1 Hg _ _ Hb)); done).
  wp_step wp_ensure_blob_metadata. intros r w2 (HR2 & Hm & Hq2). destruct r as [m|e]; simpl.
  2:{ split_and!; [by eauto|done|done|]. intros CF Hw _. apply (run_quiet _ _ _ _ HR1) in Hw.
      by specialize (Hq2 CF Hw). }
  destruct (Hm m eq_refl) as [Hmo _].
  assert (Hmo' : metadata_ok d (with_last_referenced t m)) by exact Hmo.
  wp_step wp_persist_blob_metadata. intros r w3 (HR3 & _ & Hq3). destruct r as [[]|e]; simpl.
  - split_and!; [by eauto|intros _ _|done|done]. exists b. split; [|done].
    rewrite <- Hfs in Hb. apply (run_keep _ _ _ _ HR3 eq_refl), (run_keep _ _ _ _ HR2 eq_refl), Hb.
  - split_and!; [by eauto|done|done|]. intros CF Hw _.
    apply (run_quiet _ _ _ _ HR1), (run_quiet _ _ _ _ HR2) in Hw. by specialize (Hq3 Hw).
Qed.

(** The steps both branches of [store_blob_for_digest] end with. *)
Lemma wp_store_tail d w b (res : VerifiedBlobStoreResult) :
  valid_digest d -> good d w -> raw_ok d b ->
  wp (ensure_blob_metadata dir d (blen b) ;;
      maybe_store_zstd_variant dir d b ;;
      do t <- now ;;
      touch_blob dir d t ;;
      ret res) (fun r w' => Run true d w w' /\
    (forall v, r = Ok v -> v = res /\ exists b', files w' !! blob_file dir d "" = Some b' /\ raw_ok d b') /\
    (collision_free -> is_ok (encode_zstd_if_worthwhile b) = true -> faults w = [] ->
       files w !! blob_file dir d "" <> None -> is_ok r = true)) w.
Proof.
  intros Hv Hg Hb.
  wp_step wp_ensure_blob_metadata. intros r w1 (HR1 & _ & Hq1). destruct r as [m|e]; simpl.
  2:{ split_and!; [done|done|]. intros CF _ Hw. by specialize (Hq1 CF Hw). }
  wp_step wp_maybe_store_zstd. intros r w2 (HR2 & Hq2). destruct r as [v|e]; simpl.
  2:{ split_and!; [by eauto|done|]. intros CF Hz Hw. apply (run_quiet _ _ _ _ HR1) in Hw.
      by specialize (Hq2 CF Hz Hw). }
  apply wp_now. wp_step wp_touch_blob. intros r w3 (HR3 & Hok3 & _ & Hq3). destruct r as [m3|e]; simpl.
  - split_and!; [by eauto| |done]. intros ? [= <-]. split; [done|]. by eapply Hok3.
  - split_and!; [by eauto|done|]. intros CF Hz Hw Hp.
    apply (run_quiet _ _ _ _ HR1), (run_quiet _ _ _ _ HR2) in Hw.
    apply (Hq3 CF Hw). destruct (files w !! _) as [b'|] eqn:E; [|done].
    by rewrite (run_keep _ _ _ _ HR2 eq_refl b') by by apply (run_keep _ _ _ _ HR1 eq_refl).
Qed.

(** The branch that writes a blob that was not found. *)
Lemma wp_store_fresh d w b (res : bool -> VerifiedBlobStoreResult) :
  valid_digest d -> good d w -> raw_ok d b ->
  wp (do p <- context (parent (blob_file dir d "")) "blob path should always have a parent directory" ;;
      with_context ("Failed to create " +:+ display p) (fs_create_dir_all p) ;;
      do name <- lift (file_name d) ;;
      do uploaded <- write_bytes_atomically p (blob_file dir d "") name b ;;
      ensure_blob_metadata dir d (blen b) ;;
      maybe_store_zstd_variant dir d b ;;
      do t <- now ;;
      touch_blob dir d t ;;
      ret (res uploaded)) (fun r w' => Run true d w w' /\
    (forall v, r = Ok v -> (exists u, v = res u) /\
       exists b', files w' !! blob_file dir d "" = Some b' /\ raw_ok d b') /\
    (collision_free -> is_ok (encode_zstd_if_worthwhile b) = true -> faults w = [] ->
       r = Ok (res (negb (is_some (files w !! blob_file dir d "")))))) w.
Proof.
  intros Hv Hg Hb.
  eapply wp_context_Some; [apply parent_blob_file|].
  wp_step wp_create_dir_all. intros r w2 (HR2 & Hfs & Hq2). destruct r as [[]|e2]; simpl.
  2:{ split_and!; [done|done|]. intros _ _ Hw. by specialize (Hq2 Hw). }
  eapply wp_lift_Ok; [by apply file_name_eq|].
  rewrite <- (string_app_nil_r (str_drop 2 d)).
  assert (Hrf : file_ok d "" b) by by split_and!.
  wp_step wp_write_bytes_atomically; [by intros [[] _]|].
  intros r w3 (HR3 & Hq3). destruct r as [u|e3]; simpl.
  2:{ split_and!; [by eauto|done|]. intros _ _ Hw. apply (run_quiet _ _ _ _ HR2) in Hw.
      by destruct (Hq3 Hw). }
  eapply wp_mono; [eapply wp_store_tail; eauto|]. intros r w4 (HR4 & Hv4 & Hq4).
  split_and!; [by eauto 6| |].
  - intros v ->. destruct (Hv4 v eq_refl) as [-> ?]. eauto.
  - intros CF Hz Hw. apply (run_quiet _ _ _ _ HR2) in Hw. destruct (Hq3 Hw) as [[= ->] Hp].
    assert (Hok4 : is_ok r = true).
    { apply Hq4; [done|done|by apply (run_quiet _ _ _ _ HR3)|by apply Hp]. }
    destruct r as [v|]; [|done]. destruct (Hv4 v eq_refl) as [-> _]. by rewrite Hfs.
Qed.

Lemma wp_store_blob_for_digest d w b :
  U b -> good d w ->
  wp (store_blob_for_digest dir d b) (fun r w' => Run true d w w' /\
    (forall v, r = Ok v -> sb_digest (vbs_blob v) = d /\ sha256_hex b = d /\
       exists b', files w' !! blob_file dir d "" = Some b' /\ raw_ok d b') /\
    (collision_free -> is_ok (encode_zstd_if_worthwhile b) = true -> faults w = [] ->
       valid_digest d -> sha256_hex b = d ->
       exists v, r = Ok v /\ vbs_uploaded v = negb (is_some (files w !! blob_file dir d "")))) w.
Proof.
  intros HU Hg. unfold store_blob_for_digest.
  destruct (validate_digest_cases d) as [[Hv Hve]|[e He]].
  2:{ rewrite He. split_and!; [by apply run_refl|done|]. intros _ _ _ Hv.
      by rewrite validate_digest_valid in He. }
  eapply wp_lift_Ok; [exact Hve|]. cbn beta. case_bool_decide as Hs; cbn [negb].
  2:{ split_and!; [by apply run_refl|done|done]. }
  assert (Hb : raw_ok d b) by done.
  eapply wp_lift_Ok; [by apply blob_path_eq|].
  wp_step wp_metadata_len. intros r w1 (HR1 & Hfs & Hok & Hq). destruct r as [n|e]; cbn [is_ok].
  - destruct (Hok n eq_refl) as (b0 & Hb0 & _). rewrite Hb0.
    eapply wp_mono; [eapply wp_store_tail; eauto|]. intros r w2 (HR2 & Hv2 & Hq2).
    split_and!; [by eauto| |].
    + intros v ->. destruct (Hv2 v eq_refl) as [-> ?]. done.
    + intros CF Hz Hw _ _. assert (Hok2 : is_ok r = true).
      { apply Hq2; [done|done|by apply (run_quiet _ _ _ _ HR1)|]. by rewrite Hfs, Hb0. }
      destruct r as [v|]; [|done]. destruct (Hv2 v eq_refl) as [-> _]. eauto.
  - eapply wp_mono.
    { eapply (wp_store_fresh d w1 b (fun u => {| vbs_blob := {| sb_digest := d; sb_path := blob_file dir d "" |};
        vbs_uploaded := u |})); eauto. }
    intros r w2 (HR2 & Hv2 & Hq2). split_and!; [by eauto| |].
    + intros v ->. destruct (Hv2 v eq_refl) as [[u ->] ?]. done.
    + intros CF Hz Hw _ _. eexists. split; [by apply Hq2; [..|apply (run_quiet _ _ _ _ HR1)]|].
      by rewrite Hfs.
Qed.

(** [delete_blob] *)
Lemma wp_remove_if_exists k d w s :
  good d w -> (k = true -> s <> "") ->
  wp (remove_file_if_exists (blob_file dir d s)) (fun r w' => Run k d w w' /\
    (faults w = [] -> r = Ok tt /\ files w' !! blob_file dir d s = None)) w.
Proof.
  intros Hg Hs. unfold remove_file_if_exists. wp_step wp_remove_file.
  intros r w1 (HR & _ & Hq). destruct r as [[]|e]; simpl.
  - split; [done|]. intros Hw. by destruct (Hq Hw).
  - destruct e; simpl; (split; [done|]; intros Hw; destruct (Hq Hw) as [? [?|?]]; by simplify_eq).
Qed.

Lemma wp_remove_variants k d w es :
  valid_digest d -> good d w ->
  wp (remove_variants dir d es) (fun r w' => Run k d w w' /\ (faults w = [] -> r = Ok tt)) w.
Proof.
  intros Hv. revert w. induction es as [|e es IH]; intros w Hg; cbn [remove_variants].
  - by split; [apply run_refl|].
  - eapply wp_lift_Ok; [by apply encoded_blob_path_eq|].
    wp_step (wp_remove_if_exists k).
    intros r w1 (HR1 & Hq1). destruct r as [[]|e1].
    + eapply wp_mono; [eapply IH; eauto|]. intros r w2 (HR2 & Hq2). split; [by eauto|].
      intros Hw. by apply Hq2, (run_quiet _ _ _ _ HR1).
    + split; [done|]. intros Hw. by destruct (Hq1 Hw).
Qed.

Lemma wp_delete_blob d w :
  valid_digest d -> good d w ->
  wp (delete_blob dir d) (fun r w' => Run false d w w' /\
    (faults w = [] -> r = Ok tt /\ files w' !! blob_file dir d "" = None /\
       files w' !! blob_file dir d ".meta.json" = None)) w.
Proof.
  intros Hv Hg. unfold delete_blob.
  wp_step wp_load_blob_metadata. intros r w1 (HR1' & Hfs & _ & _).
  assert (HR1 : Run false d w w1) by by apply run_same_files. clear HR1'.
  eapply wp_lift_Ok; [by apply blob_path_eq|].
  wp_step (wp_remove_if_exists false).
  intros r2 w2 (HR2 & Hq2). destruct r2 as [[]|e].
  2:{ split; [by eauto|]. intros Hw. apply (run_quiet _ _ _ _ HR1) in Hw. by destruct (Hq2 Hw). }
  apply wp_bind. eapply (wp_mono _ (fun r3 w3 => Run false d w2 w3 /\ (faults w2 = [] -> r3 = Ok tt))).
  { destruct (ok_opt r) as [m|]; [by apply wp_remove_variants; eauto|]. split; [by eauto|done]. }
  intros r3 w3 (HR3 & Hq3). destruct r3 as [[]|e].
  2:{ split; [by eauto|]. intros Hw. apply (run_quiet _ _ _ _ HR1), (run_quiet _ _ _ _ HR2) in Hw.
      by specialize (Hq3 Hw). }
  eapply wp_lift_Ok; [by apply metadata_path_eq|].
  eapply wp_mono; [eapply (wp_remove_if_exists false); eauto; done|].
  intros r4 w4 (HR4 & Hq4). split; [by eauto|]. intros Hw.
  apply (run_quiet _ _ _ _ HR1) in Hw. destruct (Hq2 Hw) as [_ Habs].
  apply (run_quiet _ _ _ _ HR2), (run_quiet _ _ _ _ HR3) in Hw. destruct (Hq4 Hw) as [-> ?].
  split_and!; [done| |done].
  by apply (run_absent _ _ _ _ HR4), (run_absent _ _ _ _ HR3).
Qed.

Lemma wp_has_blob d w :
  valid_digest d -> good d w ->
  wp (has_blob dir d) (fun r w' => Run true d w w' /\ files w' = files w /\
    (exists b, r = Ok b /\ (b = true -> is_Some (files w !! blob_file dir d ""))) /\
    (faults w = [] -> r = Ok (is_some (files w !! blob_file dir d "")))) w.
Proof.
  intros Hv Hg. unfold has_blob. eapply wp_lift_Ok; [by apply blob_path_eq|].
  wp_step wp_metadata_len. intros r w1 (HR & Hfs & Hok & Hq). split_and!; [done|done| |].
  - exists (is_ok r). split; [done|]. destruct r as [n|e]; [|done].
    destruct (Hok n eq_refl) as (b & -> & _). by eauto.
  - intros Hw. simpl. f_equal. destruct (files w !! blob_file dir d "") as [b|] eqn:E.
    + by rewrite (Hq Hw b eq_refl).
    + destruct r as [n|]; [|done]. by destruct (Hok n eq_refl) as (b & ? & _).
Qed.

(** ** Sequences of operations *)

Inductive StoreOp :=
| OpStore (d : string) (b : bytes)
| OpHas (d : string)
| OpTouch (d : string)
| OpDelete (d : string).

(** What the caller of an operation observes. *)
Inductive Outcome := Uploaded (new : bool) | Found (present : bool) | Done | OpFailed.

Definition outcome {A} (f : A -> Outcome) (r : Result A Error) : Outcome :=
  match r with Ok a => f a | Err _ => OpFailed end.

Definition run_store_op (op : StoreOp) (w : World) : Outcome * World :=
  match op with
  | OpStore d b => let '(r, w') := store_blob_for_digest dir d b w in (outcome (fun v => Uploaded (vbs_uploaded v)) r, w')
  | OpHas d => let '(r, w') := has_blob dir d w in (outcome Found r, w')
  | OpTouch d => let '(r, w') := touch_blob dir d (clock w) w in (outcome (fun _ => Done) r, w')
  | OpDelete d => let '(r, w') := delete_blob dir d w in (outcome (fun _ => Done) r, w')
  end.

Fixpoint run_store_ops (ops : list StoreOp) (w : World) : list Outcome * World :=
  match ops with
  | [] => ([], w)
  | op :: rest =>
      let '(o, w1) := run_store_op op w in
      let '(os, w2) := run_store_ops rest w1 in (o :: os, w2)
  end.

(** The contents an operation brings in belong to [U]. *)
Definition op_contents (op : StoreOp) : Prop := match op with OpStore _ b => U b | _ => True end.

(** The abstract store: a map from digests to contents. *)
Definition spec_op (op : StoreOp) (s : gmap string bytes) : Outcome * gmap string bytes :=
  match op with
  | OpStore d b =>
      if is_ok (validate_digest d) && bool_decide (sha256_hex b = d)
      then (Uploaded (negb (is_some (s !! d))), <[d := b]> s) else (OpFailed, s)
  | OpHas d => if is_ok (validate_digest d) then (Found (is_some (s !! d)), s) else (OpFailed, s)
  | OpTouch d => if is_some (s !! d) then (Done, s) else (OpFailed, s)
  | OpDelete d => if is_ok (validate_digest d) then (Done, delete d s) else (OpFailed, s)
  end.

Fixpoint spec_ops (ops : list StoreOp) (s : gmap string bytes) : list Outcome * gmap string bytes :=
  match ops with
  | [] => ([], s)
  | op :: rest =>
      let '(o, s1) := spec_op op s in
      let '(os, s2) := spec_ops rest s1 in (o :: os, s2)
  end.

(** The files of [w] represent the abstract store [s]. *)
Definition represents (w : World) (s : gmap string bytes) : Prop :=
  forall d, s !! d = if is_ok (validate_digest d) then files w !! blob_file dir d "" else None.

Lemma store_ok_run k d w w' :
  store_ok (files w) -> Run k d w w' -> valid_digest d -> store_ok (files w').
Proof.
  intros Hok HR Hv d' Hv' s b Hl. destruct (decide (d = d')) as [<-|Hne].
  - by apply (run_entry _ _ _ _ HR).
  - apply Hok; [done|]. rewrite <- (run_frame _ _ _ _ HR); [done|].
    intros s' He. by apply blob_file_inj in He as [? _].
Qed.

Lemma store_ok_good d w : store_ok (files w) -> links_supported w -> valid_digest d -> good d w.
Proof. intros Hok Hl Hv. split; [by apply Hok|done]. Qed.

Lemma represents_run k d w w' s o :
  valid_digest d -> Run k d w w' -> represents w s -> files w' !! blob_file dir d "" = o ->
  represents w' (partial_alter (fun _ => o) d s).
Proof.
  intros Hv HR Hrep Ho d'. destruct (decide (d = d')) as [<-|Hne].
  - rewrite lookup_partial_alter_eq. by rewrite validate_digest_valid.
  - rewrite lookup_partial_alter_ne by done. rewrite Hrep.
    destruct (validate_digest d') eqn:E; [|done]. simpl.
    assert (Hv' : valid_digest d') by (destruct a; by apply validate_digest_Ok).
    symmetry. apply (run_frame _ _ _ _ HR). intros s' He. by apply blob_file_inj in He as [? _].
Qed.

(** On an invalid digest every operation fails and changes nothing. *)
Lemma run_store_op_invalid op d e w :
  match op with OpStore d _ | OpHas d | OpTouch d | OpDelete d => d end = d ->
  validate_digest d = Err e -> run_store_op op w = (OpFailed, w).
Proof.
  intros Hd He. destruct op as [d' b|d'|d'|d']; subst d'; simpl;
    unfold store_blob_for_digest, has_blob, touch_blob, delete_blob, load_blob_metadata;
    destruct (invalid_paths dir d e He) as (Hp & Hm & _);
    unfold try_, bind; rewrite ?He, ?Hp, ?Hm; done.
Qed.

Definition op_digest (op : StoreOp) : string :=
  match op with OpStore d _ | OpHas d | OpTouch d | OpDelete d => d end.

(** Every operation on a valid digest is a run on that digest. *)
Lemma run_store_op_run op w :
  valid_digest (op_digest op) -> op_contents op -> good (op_digest op) w ->
  exists k, Run k (op_digest op) w (snd (run_store_op op w)).
Proof.
  intros Hv HU Hg. destruct op as [d b|d|d|d]; simpl in *.
  - pose proof (wp_store_blob_for_digest d w b HU Hg) as Hw. unfold wp in Hw.
    destruct (store_blob_for_digest dir d b w). exists true. apply Hw.
  - pose proof (wp_has_blob d w Hv Hg) as Hw. unfold wp in Hw.
    destruct (has_blob dir d w). exists true. apply Hw.
  - pose proof (wp_touch_blob d w (clock w) Hv Hg) as Hw. unfold wp in Hw.
    destruct (touch_blob dir d (clock w) w). exists true. apply Hw.
  - pose proof (wp_delete_blob d w Hv Hg) as Hw. unfold wp in Hw.
    destruct (delete_blob dir d w). exists false. apply Hw.
Qed.

Lemma run_store_op_ok op w :
  op_contents op -> store_ok (files w) -> links_supported w ->
  store_ok (files (snd (run_store_op op w))) /\ links_supported (snd (run_store_op op w)).
Proof.
  intros HU Hok Hl. destruct (validate_digest_cases (op_digest op)) as [[Hv _]|[e He]].
  - destruct (run_store_op_run op w Hv HU) as [k HR]; [by apply store_ok_good|].
    split; [by eapply store_ok_run|by apply (run_links _ _ _ _ HR)].
  - by rewrite (run_store_op_invalid op _ e w eq_refl He).
Qed.

Lemma store_op_refines_valid op w s :
  collision_free ->
  (forall d b, op = OpStore d b -> is_ok (encode_zstd_if_worthwhile b) = true) ->
  valid_digest (op_digest op) -> op_contents op -> good (op_digest op) w ->
  faults w = [] -> represents w s ->
  fst (run_store_op op w) = fst (spec_op op s) /\
  represents (snd (run_store_op op w)) (snd (spec_op op s)).
Proof.
  intros CF Hz Hv HU Hg Hw Hrep. pose proof (Hrep (op_digest op)) as Hd.
  rewrite validate_digest_valid in Hd by done. simpl in Hd.
  destruct op as [d b|d|d|d]; simpl in *; rewrite ?(validate_digest_valid d Hv); simpl.
  - pose proof (wp_store_blob_for_digest d w b HU Hg) as Hwp. unfold wp in Hwp.
    destruct (store_blob_for_digest dir d b w) as [r w'] eqn:E. simpl in *.
    destruct Hwp as (HR & Hok & Hq). case_bool_decide as Hs.
    + destruct (Hq CF (Hz d b eq_refl) Hw Hv Hs) as (v & -> & Hu). simpl. rewrite Hu, Hd.
      split; [done|]. destruct (Hok v eq_refl) as (_ & _ & b' & Hb' & HU' & Hs').
      rewrite (CF b' b) in Hb' by congruence. by eapply represents_run.
    + unfold store_blob_for_digest in E. rewrite (validate_digest_valid d Hv) in E.
      unfold bind in E. simpl in E. rewrite bool_decide_false in E by done.
      injection E as <- <-. done.
  - pose proof (wp_has_blob d w Hv Hg) as Hwp. unfold wp in Hwp.
    destruct (has_blob dir d w) as [r w']. simpl in *. destruct Hwp as (_ & Hfs & _ & Hq).
    rewrite (Hq Hw), Hd. split; [done|]. intros d'. by rewrite Hfs.
  - pose proof (wp_touch_blob d w (clock w) Hv Hg) as Hwp. unfold wp in Hwp.
    destruct (touch_blob dir d (clock w) w) as [r w']. simpl in *.
    destruct Hwp as (HR & _ & Habs & Hq). destruct (files w !! blob_file dir d "") as [b|] eqn:E.
    + rewrite Hd. simpl. specialize (Hq CF Hw ltac:(done)). destruct r; [|done]. split; [done|].
      replace s with (partial_alter (fun _ => Some b) d s).
      * eapply represents_run; [done|done|done|]. by apply (run_keep _ _ _ _ HR).
      * apply map_eq. intros i. destruct (decide (d = i)) as [<-|];
          [by rewrite lookup_partial_alter_eq|by rewrite lookup_partial_alter_ne].
    + rewrite Hd. simpl. destruct (Habs eq_refl) as [Hr Hfs]. destruct r; [done|].
      split; [done|]. intros d'. by rewrite Hfs.
  - pose proof (wp_delete_blob d w Hv Hg) as Hwp. unfold wp in Hwp.
    destruct (delete_blob dir d w) as [r w']. simpl in *. destruct Hwp as (HR & Hq).
    destruct (Hq Hw) as (-> & Hn & _). split; [done|]. by eapply represents_run.
Qed.

Lemma store_op_refines op w s :
  collision_free ->
  (forall d b, op = OpStore d b -> is_ok (encode_zstd_if_worthwhile b) = true) ->
  op_contents op -> store_ok (files w) -> faults w = [] -> represents w s ->
  fst (run_store_op op w) = fst (spec_op op s) /\
  represents (snd (run_store_op op w)) (snd (spec_op op s)) /\
  faults (snd (run_store_op op w)) = [].
Proof.
  intros CF Hz HU Hok Hw Hrep.
  destruct (validate_digest_cases (op_digest op)) as [[Hv _]|[e He]].
  - assert (Hg : good (op_digest op) w).
    { apply store_ok_good; [done| |done]. unfold links_supported. rewrite Hw. constructor. }
    destruct (store_op_refines_valid op w s) as [? ?]; try done. split_and!; [done|done|].
    destruct (run_store_op_run op w Hv HU Hg) as [k HR]. by apply (run_quiet _ _ _ _ HR).
  - rewrite (run_store_op_invalid op _ e w eq_refl He).
    pose proof (Hrep (op_digest op)) as Hd. rewrite He in Hd. simpl in Hd.
    destruct op as [d b|d|d|d]; simpl in *; rewrite ?He, ?Hd; by split_and!.
Qed.

Lemma run_store_ops_cons op ops w :
  run_store_ops (op :: ops) w =
  (fst (run_store_op op w) :: fst (run_store_ops ops (snd (run_store_op op w))),
   snd (run_store_ops ops (snd (run_store_op op w)))).
Proof. simpl. destruct (run_store_op op w) as [o w1]. simpl. by destruct (run_store_ops ops w1). Qed.

Lemma spec_ops_cons op ops s :
  spec_ops (op :: ops) s =
  (fst (spec_op op s) :: fst (spec_ops ops (snd (spec_op op s))),
   snd (spec_ops ops (snd (spec_op op s)))).
Proof. simpl. destruct (spec_op op s) as [o s1]. simpl. by destruct (spec_ops ops s1). Qed.

(** C5.  Integrity of the blob store under failures: whatever operations run and
    whichever of their file operations fail or stop half way (hard links being
    supported), afterwards every blob file still hashes to its name, every
    metadata file still parses, names its digest and states its blob's size, and
    every zstd variant still decompresses to the blob of its digest. *)
Theorem blob_store_integrity ops w :
  Forall op_contents ops -> links_supported w -> store_ok (files w) ->
  store_ok (files (snd (run_store_ops ops w))).
Proof.
  intros Hops. revert w. induction Hops as [|op ops Hop Hops IH]; intros w Hl Hok; [done|].
  rewrite run_store_ops_cons. destruct (run_store_op_ok op w Hop Hok Hl). by apply IH.
Qed.

(** C4.  Refinement: on a file system where nothing fails, every sequence of
    store, has, touch and delete calls gives its callers exactly the answers of
    the abstract store, a map from digests to contents, and leaves files that
    represent the abstract store's final map. *)
Theorem blob_store_refines ops w s :
  collision_free ->
  Forall (fun op => op_contents op /\
    forall d b, op = OpStore d b -> is_ok (encode_zstd_if_worthwhile b) = true) ops ->
  faults w = [] -> store_ok (files w) -> represents w s ->
  fst (run_store_ops ops w) = fst (spec_ops ops s) /\
  represents (snd (run_store_ops ops w)) (snd (spec_ops ops s)).
Proof.
  intros CF Hops. revert w s.
  induction Hops as [|op ops [Hop Hz] Hops IH]; intros w s Hw Hok Hrep; [done|].
  rewrite run_store_ops_cons, spec_ops_cons.
  destruct (store_op_refines op w s) as (Ho & Hrep' & Hw'); try done.
  destruct (run_store_op_ok op w Hop Hok) as [Hok' _].
  { unfold links_supported. rewrite Hw. constructor. }
  destruct (IH _ _ Hw' Hok' Hrep') as [Hos ?]. simpl. by rewrite Ho, Hos.
Qed.

(** A successful upload is durable and verified: when
    [store_blob_for_digest] reports success, whatever failures happened on the
    way, the digest is that of the uploaded bytes and the blob file holds exactly
    those bytes. *)
Theorem store_blob_success_stored d b w v w' :
  collision_free -> U b -> entry_ok (files w) d -> links_supported w ->
  store_blob_for_digest dir d b w = (Ok v, w') ->
  sha256_hex b = d /\ files w' !! blob_file dir d "" = Some b.
Proof.
  intros CF HU He Hl Hrun.
  pose proof (wp_store_blob_for_digest d w b HU (conj He Hl)) as Hw. unfold wp in Hw.
  rewrite Hrun in Hw. simpl in Hw. destruct Hw as (_ & Hok & _).
  destruct (Hok v eq_refl) as (_ & Hs & b' & Hb' & HU' & Hs'). split; [done|].
  by rewrite (CF b b') by congruence.
Qed.

End Invariant.

(** ** Hard links unavailable

    When [hard_link] fails with one of the four fallback errors the store copies
    the temporary file over a newly created target.  The copy is not atomic. *)

(** If the file system refuses hard links and the copy of the fallback path
    fails after creating the target, the upload is reported as failed but leaves
    an empty file at the blob's final path, and [has_blob] then reports the digest
    as present. *)
Theorem copy_fallback_leaves_truncated_blob
    `{Sha256, !Sha256Laws, BlobMetadataCodec, Zstd} dir b w :
  files w !! blob_file dir (sha256_hex b) "" = None ->
  faults w = [None; None; None; Some {| fault_error := EPERM; fault_written := None |};
              None; None; Some {| fault_error := OtherIo; fault_written := Some 0%nat |}] ->
  let '(r, w') := store_blob_for_digest dir (sha256_hex b) b w in
  is_ok r = false /\ files w' !! blob_file dir (sha256_hex b) "" = Some [] /\
  fst (has_blob dir (sha256_hex b) w') = Ok true.
Proof.
  intros Habs Hf. destruct w as [fs ft u c]. simpl in Habs, Hf. subst ft.
  set (d := sha256_hex b) in *. assert (Hv : valid_digest d) by apply sha256_hex_digits.
  set (t := ".tmp-" +:+ pretty u). assert (Ht : t <> "") by done.
  unfold store_blob_for_digest, has_blob.
  rewrite validate_digest_valid, blob_path_eq, file_name_eq by done.
  rewrite bool_decide_true by done.
  unfold bind, try_, lift, context. simpl. rewrite parent_blob_file.
  unfold write_bytes_atomically, with_cleanup, link_or_copy_into_place, bind, try_, ret.
  unfold fs_metadata_len, guarded, pop_fault. simpl. rewrite Habs. simpl.
  fold t. rewrite join_shard.
  unfold no_effect, fs_create_new, guarded, pop_fault. simpl.
  rewrite lookup_insert_ne by by apply blob_file_ne_suffix. rewrite Habs. simpl.
  unfold with_context, fs_read, guarded, pop_fault. simpl.
  rewrite lookup_insert_ne by (apply blob_file_ne_suffix; congruence).
  rewrite lookup_insert_eq. simpl.
  unfold fs_remove_file, guarded, pop_fault. simpl.
  rewrite !lookup_insert_ne by (apply blob_file_ne_suffix; congruence).
  rewrite lookup_insert_eq. simpl.
  rewrite lookup_delete_ne by by apply blob_file_ne_suffix.
  by rewrite lookup_insert_eq.
Qed.

(** ** Reference instances, for the concrete runs *)

Fixpoint hex_of (n : nat) (z : Z) : string :=
  match n with
  | O => ""
  | S m => String (nth (Z.to_nat (z mod 16)) (chars "0123456789abcdef") "0"%char) (hex_of m (z / 16))
  end.

(** A polynomial hash modulo 2^256, printed as 64 hexadecimal digits. *)
Definition sha256_reference (b : bytes) : string :=
  hex_of 64 (fold_left (fun acc x => (acc * 257 + byte_to_Z x + 1) mod 2 ^ 256) b 0).

Lemma hex_of_digits n z :
  String.length (hex_of n z) = n /\ all_chars is_ascii_hexdigit (hex_of n z) = true.
Proof.
  revert z. induction n as [|n IH]; intros z; [done|]. destruct (IH (z / 16)) as [Hl Ha].
  cbn [hex_of]. split; [simpl; by rewrite Hl|].
  unfold all_chars in *. rewrite chars_cons. cbn [forallb]. rewrite Ha, andb_true_r.
  generalize (Z.to_nat (z mod 16)). intros k.
  do 16 (destruct k as [|k]; [reflexivity|]). by destruct k.
Qed.

Lemma sha256_reference_laws : @Sha256Laws sha256_reference.
Proof. intros b. apply hex_of_digits. Qed.

#[global] Instance BlobMetadata_eq_dec : EqDecision BlobMetadata.
Proof. solve_decision. Defined.
#[global] Instance BlobMetadata_countable : Countable BlobMetadata.
Proof.
  refine (inj_countable'
    (fun m => (canonical_digest m, raw_size_bytes m, last_referenced_at m, encoded_variants m))
    (fun '(a, b, c, d) => {| canonical_digest := a; raw_size_bytes := b;
       last_referenced_at := c; encoded_variants := d |}) _).
  by intros [].
Defined.

Definition codec_reference : BlobMetadataCodec := {|
  blob_metadata_to_vec m := to_bytes m;
  blob_metadata_from_slice _ b := of_bytes b;
|}.

Lemma codec_reference_laws : @BlobMetadataCodecLaws codec_reference.
Proof. intros t m. apply of_to_bytes. Qed.

(** Storing without compression: an instance of [zstd] that keeps the bytes. *)
Definition zstd_reference : Zstd := {|
  zstd_encode_all b := Some b;
  zstd_decode_all b := Some b;
|}.

Lemma zstd_reference_laws : @ZstdLaws zstd_reference.
Proof. intros raw enc. by intros [= <-]. Qed.

Definition demo_dir : path := ["var"; "lib"; "remerge"].
Definition demo_world (ft : list (option Fault)) : World :=
  {| files := ∅; faults := ft; next_uuid := 0; clock := 1000 |}.
Definition demo_blob : bytes := [Byte.x61; Byte.x62; Byte.x63].
(** A digest with 64 times the same digit. *)
Definition digest_of (c : ascii) : string := String.string_of_list_ascii (replicate 64 c).
Definition demo_digest : string := sha256_reference demo_blob.
Definition demo_contents (b : bytes) : Prop := b = demo_blob.
(** The metadata write of the first upload fails half way. *)
Definition demo_faults : list (option Fault) :=
  [None; None; None; None; None; None; None;
   Some {| fault_error := OtherIo; fault_written := Some 5%nat |}].

Lemma demo_store_ok `{Sha256, BlobMetadataCodec, Zstd} U ft : store_ok U demo_dir (files (demo_world ft)).
Proof. intros d _ s b Hl. simpl in Hl. by rewrite lookup_empty in Hl. Qed.

Lemma demo_collision_free `{Sha256} : collision_free demo_contents.
Proof. by intros a b -> ->. Qed.

Lemma demo_links : links_supported (demo_world demo_faults).
Proof. repeat constructor; intros ft; by intros [= <-]. Qed.

Lemma blob_store_integrity_witness :
  @store_ok sha256_reference codec_reference zstd_reference demo_contents demo_dir
    (files (snd (@run_store_ops sha256_reference codec_reference zstd_reference demo_dir
      [OpStore demo_digest demo_blob; OpHas demo_digest; OpDelete demo_digest] (demo_world demo_faults)))).
Proof.
  apply (@blob_store_integrity sha256_reference codec_reference codec_reference_laws
    zstd_reference zstd_reference_laws).
  - repeat constructor.
  - apply demo_links.
  - apply demo_store_ok.
Defined.

Lemma blob_store_refines_witness :
  let ops := [OpStore demo_digest demo_blob; OpStore demo_digest demo_blob; OpHas demo_digest;
              OpTouch demo_digest; OpDelete demo_digest; OpHas demo_digest] in
  let run := @run_store_ops sha256_reference codec_reference zstd_reference demo_dir ops (demo_world []) in
  fst run = fst (@spec_ops sha256_reference ops ∅) /\
  represents demo_dir (snd run) (snd (@spec_ops sha256_reference ops ∅)).
Proof.
  apply (@blob_store_refines sha256_reference codec_reference codec_reference_laws
    zstd_reference zstd_reference_laws demo_contents).
  - apply demo_collision_free.
  - repeat constructor; intros d b; try done. all: intros [= <- <-]; reflexivity.
  - reflexivity.
  - apply demo_store_ok.
  - intros d. rewrite lookup_empty. by destruct (is_ok _); rewrite ?lookup_empty.
Defined.

Lemma store_blob_success_stored_witness :
  match @store_blob_for_digest sha256_reference codec_reference zstd_reference demo_dir
          demo_digest demo_blob (demo_world []) with
  | (Ok v, w') => sha256_reference demo_blob = demo_digest /\
                  files w' !! blob_file demo_dir demo_digest "" = Some demo_blob
  | _ => False
  end.
Proof.
  destruct (@store_blob_for_digest sha256_reference codec_reference zstd_reference demo_dir
          demo_digest demo_blob (demo_world [])) as [[v|e] w'] eqn:E.
  - apply (@store_blob_success_stored sha256_reference codec_reference codec_reference_laws
      zstd_reference zstd_reference_laws demo_contents demo_dir demo_digest demo_blob (demo_world []) v w').
    + apply demo_collision_free.
    + reflexivity.
    + apply demo_store_ok. apply (hex_of_digits 64).
    + constructor.
    + exact E.
  - apply (f_equal (fun x => is_ok (fst x))) in E. vm_compute in E. discriminate E.
Defined.

Lemma copy_fallback_leaves_truncated_blob_witness :
  let '(r, w') := @store_blob_for_digest sha256_reference codec_reference zstd_reference demo_dir
    demo_digest demo_blob (demo_world
      [None; None; None; Some {| fault_error := EPERM; fault_written := None |};
       None; None; Some {| fault_error := OtherIo; fault_written := Some 0%nat |}]) in
  is_ok r = false /\ files w' !! blob_file demo_dir demo_digest "" = Some [] /\
  fst (has_blob demo_dir demo_digest w') = Ok true.
Proof.
  apply (@copy_fallback_leaves_truncated_blob sha256_reference sha256_reference_laws
    codec_reference zstd_reference demo_dir demo_blob); reflexivity.
Defined.
