(* ===== verification/Upload.v ===== *)
(** * Blob upload sessions, server side ([crates/server/src/api.rs])

    A client uploads a blob over a WebSocket: an [upload_init] message, then binary
    chunk frames.  The server keeps the received bytes and the session's metadata
    in two files per digest, so that a later connection resumes where an earlier
    one stopped, and moves the bytes into the blob store when all have arrived. *)

From S2P Require Import Prelude Types World Frame BlobStore.

(** ** Messages ([crates/types/src/api.rs]) *)

Record SnapshotBlobEncodingOffer := { offer_encoding : string; offer_size_bytes : Z }.

(** [SnapshotBlobClientControlMessage::UploadInit], the only constructor. *)
Record UploadInit := {
  ui_version : Z;
  ui_workorder_id : Uuid;
  ui_digest : string;
  ui_total_size_bytes : Z;
  ui_chunk_size_bytes : Z;
  ui_capability_flags : list string;
  ui_offered_encodings : list SnapshotBlobEncodingOffer;
}.

Inductive SnapshotBlobServerControlMessage :=
| UploadResume (version : Z) (workorder_id : Uuid) (digest : string) (next_offset_bytes : Z)
    (next_sequence : Z) (selected_encoding : option string) (expected_size_bytes : Z)
| UploadAck (version : Z) (workorder_id : Uuid) (digest : string) (sequence : Z)
    (offset_bytes : Z) (size_bytes : Z) (received_bytes : Z)
| UploadComplete (version : Z) (workorder_id : Uuid) (digest : string) (uploaded : bool)
| UploadError (version : Z) (workorder_id : option Uuid) (digest : option string)
    (code message : string).

(** ** Sessions *)

Record BlobUploadSession := {
  bus_workorder_id : Uuid;
  bus_digest : string;
  bus_raw_size_bytes : Z;
  bus_stream_size_bytes : Z;
  bus_chunk_size_bytes : Z;
  bus_selected_encoding : option string;
  bus_next_sequence : Z;
  bus_received_bytes : Z;
}.

Record PersistedBlobUploadState := {
  us_digest : string;
  us_raw_size_bytes : Z;
  us_stream_size_bytes : Z;
  us_chunk_size_bytes : Z;
  us_selected_encoding : option string;
  us_next_sequence : Z;
  us_next_offset_bytes : Z;
  us_received_bytes : Z;
}.

#[global] Instance PersistedBlobUploadState_eq_dec : EqDecision PersistedBlobUploadState.
Proof. solve_decision. Defined.

Definition with_progress (seq received : Z) (s : PersistedBlobUploadState) :
    PersistedBlobUploadState := {|
  us_digest := us_digest s; us_raw_size_bytes := us_raw_size_bytes s;
  us_stream_size_bytes := us_stream_size_bytes s; us_chunk_size_bytes := us_chunk_size_bytes s;
  us_selected_encoding := us_selected_encoding s;
  us_next_sequence := seq; us_next_offset_bytes := received; us_received_bytes := received |}.

(** [serde_json] at [PersistedBlobUploadState]. *)
Class UploadStateCodec := {
  upload_state_to_vec : PersistedBlobUploadState -> bytes;
  upload_state_from_slice : bytes -> option PersistedBlobUploadState;
}.
Class UploadStateCodecLaws `{UploadStateCodec} : Prop :=
  upload_state_roundtrip : forall s, upload_state_from_slice (upload_state_to_vec s) = Some s.

Definition BLOB_UPLOAD_SESSION_SUBDIR : string := "blob-upload-sessions".

Definition blob_upload_session_dir (state_dir : path) : path := join state_dir BLOB_UPLOAD_SESSION_SUBDIR.
Definition blob_upload_session_meta_path (state_dir : path) (digest : string) : path :=
  join (blob_upload_session_dir state_dir) (digest +:+ ".json").
Definition blob_upload_session_part_path (state_dir : path) (digest : string) : path :=
  join (blob_upload_session_dir state_dir) (digest +:+ ".part").

(** [{:?}] of an [Option<String>]. *)
Definition debug_option (o : option string) : string :=
  let quote := String "034"%char "" in
  match o with None => "None" | Some s => "Some(" +:+ quote +:+ s +:+ quote +:+ ")" end.

Section Sessions.
Context `{Sha256, BlobMetadataCodec, Zstd, UploadStateCodec, Adler32}.

Definition load_blob_upload_state (state_dir : path) (digest : string) :
    IO (option PersistedBlobUploadState) :=
  let meta_path := blob_upload_session_meta_path state_dir digest in
  try_ (fs_read meta_path) (fun r =>
  match r with
  | Ok b =>
      match upload_state_from_slice b with
      | Some s => ret (Some s)
      | None => throw (ParseErr ("Failed to parse " +:+ display meta_path))
      end
  | Err NotFound => ret None
  | Err e => throw (IoErr e ("Failed to read " +:+ display meta_path))
  end).

Definition persist_blob_upload_state (state_dir : path) (state : PersistedBlobUploadState) : IO unit :=
  let session_dir := blob_upload_session_dir state_dir in
  with_context ("Failed to create " +:+ display session_dir) (fs_create_dir_all session_dir) ;;
  let meta_path := blob_upload_session_meta_path state_dir (us_digest state) in
  do id <- new_uuid ;;
  let temp_path := join session_dir (us_digest state +:+ ".json.tmp-" +:+ id) in
  let body := upload_state_to_vec state in
  with_context ("Failed to write " +:+ display temp_path) (fs_write temp_path body) ;;
  with_context ("Failed to persist " +:+ display meta_path) (fs_rename temp_path meta_path) ;;
  ret tt.

Definition remove_blob_upload_state (state_dir : path) (digest : string) : IO unit :=
  remove_file_if_exists (blob_upload_session_meta_path state_dir digest) ;;
  remove_file_if_exists (blob_upload_session_part_path state_dir digest) ;;
  ret tt.

(** [match tokio::fs::metadata(&part_path)]: a missing part file counts as empty. *)
Definition staged_bytes (part_path : path) : IO Z :=
  try_ (fs_metadata_len part_path) (fun r =>
  match r with
  | Ok n => ret n
  | Err NotFound => ret 0
  | Err e => throw (IoErr e ("Failed to stat " +:+ display part_path))
  end).

Definition prepare_blob_upload_session (state_dir : path) (digest : string)
    (raw_size stream_size chunk_size : Z) (encoding : option string) :
    IO PersistedBlobUploadState :=
  let session_dir := blob_upload_session_dir state_dir in
  with_context ("Failed to create " +:+ display session_dir) (fs_create_dir_all session_dir) ;;
  let part_path := blob_upload_session_part_path state_dir digest in
  do loaded <- load_blob_upload_state state_dir digest ;;
  let state := default {|
    us_digest := digest; us_raw_size_bytes := raw_size; us_stream_size_bytes := stream_size;
    us_chunk_size_bytes := chunk_size; us_selected_encoding := encoding;
    us_next_sequence := 0; us_next_offset_bytes := 0; us_received_bytes := 0 |} loaded in
  if negb (us_raw_size_bytes state =? raw_size) then
    throw (Bail ("Upload session for " +:+ digest +:+ " expects raw size "
      +:+ pretty (us_raw_size_bytes state) +:+ ", got " +:+ pretty raw_size))
  else if negb (us_stream_size_bytes state =? stream_size) then
    throw (Bail ("Upload session for " +:+ digest +:+ " expects stream size "
      +:+ pretty (us_stream_size_bytes state) +:+ ", got " +:+ pretty stream_size))
  else if negb (us_chunk_size_bytes state =? chunk_size) then
    throw (Bail ("Upload session for " +:+ digest +:+ " expects chunk size "
      +:+ pretty (us_chunk_size_bytes state) +:+ ", got " +:+ pretty chunk_size))
  else if negb (bool_decide (us_selected_encoding state = encoding)) then
    throw (Bail ("Upload session for " +:+ digest +:+ " expects encoding "
      +:+ debug_option (us_selected_encoding state) +:+ ", got " +:+ debug_option encoding))
  else
  do received <- staged_bytes part_path ;;
  if stream_size <? received then
    remove_blob_upload_state state_dir digest ;;
    throw (Bail ("Upload session for " +:+ digest +:+ " exceeds declared size: "
      +:+ pretty received +:+ " > " +:+ pretty stream_size))
  else
  let differs := negb (us_received_bytes state =? received) || negb (us_next_offset_bytes state =? received) in
  if differs && negb (received =? 0) then
    throw (Bail ("Upload session for " +:+ digest +:+ " is inconsistent: metadata records offset "
      +:+ pretty (us_received_bytes state) +:+ " / " +:+ pretty (us_next_offset_bytes state)
      +:+ " but staged bytes total " +:+ pretty received))
  else
  let state := if differs then with_progress 0 0 state else state in
  if (0 <? received) && (us_next_sequence state =? 0) then
    throw (Bail ("Upload session for " +:+ digest
      +:+ " is missing exact resume sequence metadata at offset " +:+ pretty received))
  else
  let state := with_progress (us_next_sequence state) received state in
  persist_blob_upload_state state_dir state ;;
  ret state.

Definition append_blob_upload_chunk (state_dir : path) (digest : string)
    (raw_size stream_size chunk_size : Z) (encoding : option string) (payload : bytes) :
    IO PersistedBlobUploadState :=
  do state <- prepare_blob_upload_session state_dir digest raw_size stream_size chunk_size encoding ;;
  let next_received := u64_wrapping_add (us_received_bytes state) (blen payload) in
  if stream_size <? next_received then
    throw (Bail ("Upload chunk would exceed declared size for " +:+ digest +:+ ": "
      +:+ pretty next_received +:+ " > " +:+ pretty stream_size))
  else if (blen payload =? 0) && (next_received <? stream_size) then
    throw (Bail ("Non-final chunk for " +:+ digest +:+ " must not be empty"))
  else
  let part_path := blob_upload_session_part_path state_dir digest in
  with_context ("Failed to open " +:+ display part_path) (fs_open_append part_path) ;;
  with_context ("Failed to append to " +:+ display part_path) (fs_append part_path payload) ;;
  with_context ("Failed to flush " +:+ display part_path) fs_flush ;;
  let state := with_progress (u64_saturating_add (us_next_sequence state) 1) next_received state in
  persist_blob_upload_state state_dir state ;;
  ret state.

(** The raw bytes of a completed stream. *)
Definition decode_stream (encoding : option string) (stream_bytes : bytes) : IO bytes :=
  match encoding with
  | None => ret stream_bytes
  | Some e =>
      if bool_decide (e = SNAPSHOT_BLOB_ENCODING_ZSTD) then
        match decode_zstd stream_bytes with
        | Ok raw => ret raw
        | Err _ => throw (IoErr OtherIo "zstd")
        end
      else throw (Bail ("unsupported upload encoding '" +:+ e +:+ "'"))
  end.

Definition finalize_blob_upload_session (state_dir : path) (digest : string) :
    IO VerifiedBlobStoreResult :=
  do loaded <- load_blob_upload_state state_dir digest ;;
  do state <- context loaded ("No upload session found for " +:+ digest) ;;
  let part_path := blob_upload_session_part_path state_dir digest in
  do received <- staged_bytes part_path ;;
  let state := with_progress (us_next_sequence state) received state in
  if negb (us_received_bytes state =? us_stream_size_bytes state) then
    throw (Bail ("Upload session for " +:+ digest +:+ " is incomplete: "
      +:+ pretty (us_received_bytes state) +:+ " of "
      +:+ pretty (us_stream_size_bytes state) +:+ " bytes received"))
  else
  do stream_bytes <- with_context ("Failed to read " +:+ display part_path) (fs_read part_path) ;;
  do raw_bytes <- decode_stream (us_selected_encoding state) stream_bytes ;;
  if negb (blen raw_bytes =? us_raw_size_bytes state) then
    throw (Bail ("Upload session for " +:+ digest +:+ " decoded to " +:+ pretty (blen raw_bytes)
      +:+ " raw bytes, expected " +:+ pretty (us_raw_size_bytes state)))
  else
  do stored <- store_blob_for_digest state_dir digest raw_bytes ;;
  (if bool_decide (us_selected_encoding state = Some SNAPSHOT_BLOB_ENCODING_ZSTD) then
     store_encoded_blob_variant state_dir digest (us_raw_size_bytes state) EncZstd stream_bytes ;;
     ret tt
   else ret tt) ;;
  remove_blob_upload_state state_dir digest ;;
  ret stored.

Definition select_upload_encoding (raw_size : Z) (capability_flags : list string)
    (offered : list SnapshotBlobEncodingOffer) : Result (option string * Z) Error :=
  let fallback :=
    match List.find (fun o => negb (bool_decide (offer_encoding o = SNAPSHOT_BLOB_ENCODING_ZSTD))) offered with
    | Some offer => Err (Bail ("unsupported offered upload encoding '" +:+ offer_encoding offer +:+ "'"))
    | None => Ok (None, raw_size)
    end in
  if existsb (fun f => bool_decide (f = SNAPSHOT_BLOB_ENCODING_ZSTD)) capability_flags then
    match List.find (fun o => bool_decide (offer_encoding o = SNAPSHOT_BLOB_ENCODING_ZSTD)) offered with
    | Some offer => Ok (Some (offer_encoding offer), offer_size_bytes offer)
    | None => fallback
    end
  else fallback.

(** ** The WebSocket handler

    The handler's reaction to one incoming message: what it sends, the session it
    goes on with ([None] when it returns), and the arguments of its call of
    [record_snapshot_blob_upload], if it makes one.  [delivered] says whether the
    control message the handler depends on could be sent; a failing send ends the
    handler. *)
Record Reaction := {
  sent : list SnapshotBlobServerControlMessage;
  session : option BlobUploadSession;
  recorded : option (Z * bool);
}.

Definition closing (ms : list SnapshotBlobServerControlMessage) (m : option (Z * bool)) : Reaction :=
  {| sent := ms; session := None; recorded := m |}.

Definition send_blob_upload_error (wid : option Uuid) (digest : option string) (code message : string) :
    Reaction :=
  closing [UploadError SNAPSHOT_BLOB_PROTOCOL_VERSION wid digest code message] None.

(** Finalize and report, as all three places that complete an upload do;
    [before] are the messages already sent. *)
Definition complete_upload (state_dir : path) (before : list SnapshotBlobServerControlMessage)
    (wid : Uuid) (digest : string) (raw_size : Z) : IO Reaction :=
  try_ (finalize_blob_upload_session state_dir digest) (fun r =>
  match r with
  | Err e => ret {| sent := before ++ [UploadError SNAPSHOT_BLOB_PROTOCOL_VERSION (Some wid) (Some digest)
                                         "store_failed" (Error_to_string e)];
                    session := None; recorded := None |}
  | Ok stored =>
      ret (closing (before ++ [UploadComplete SNAPSHOT_BLOB_PROTOCOL_VERSION wid
                                 (sb_digest (vbs_blob stored)) (vbs_uploaded stored)])
             (Some (raw_size, vbs_uploaded stored)))
  end).

(** From [prepare_blob_upload_session] to the start of the frame loop. *)
Definition start_session (state_dir : path) (init : UploadInit) (encoding : option string)
    (stream_size : Z) (delivered : bool) : IO Reaction :=
  let wid := ui_workorder_id init in
  let digest := ui_digest init in
  let total := ui_total_size_bytes init in
  let chunk_size := ui_chunk_size_bytes init in
  try_ (prepare_blob_upload_session state_dir digest total stream_size chunk_size encoding) (fun r =>
  match r with
  | Err e => ret (send_blob_upload_error (Some wid) (Some digest) "resume_prepare_failed" (Error_to_string e))
  | Ok resumed =>
      if us_received_bytes resumed =? stream_size then
        complete_upload state_dir [] wid digest total
      else
      let resume := UploadResume SNAPSHOT_BLOB_PROTOCOL_VERSION wid digest
        (us_next_offset_bytes resumed) (us_next_sequence resumed)
        (us_selected_encoding resumed) (us_stream_size_bytes resumed) in
      if negb delivered then ret (closing [] None)
      else
      let session := {|
        bus_workorder_id := wid; bus_digest := digest; bus_raw_size_bytes := total;
        bus_stream_size_bytes := stream_size; bus_chunk_size_bytes := chunk_size;
        bus_selected_encoding := encoding; bus_next_sequence := us_next_sequence resumed;
        bus_received_bytes := us_next_offset_bytes resumed |} in
      if bus_stream_size_bytes session =? 0 then
        complete_upload state_dir [resume] wid digest total
      else ret {| sent := [resume]; session := Some session; recorded := None |}
  end).

(** The handler up to the frame loop, on the parsed [upload_init]. *)
Definition handle_upload_init (state_dir : path) (init : UploadInit) (delivered : bool) : IO Reaction :=
  let wid := ui_workorder_id init in
  let digest := ui_digest init in
  let total := ui_total_size_bytes init in
  if negb (ui_version init =? SNAPSHOT_BLOB_PROTOCOL_VERSION) then
    ret (send_blob_upload_error (Some wid) (Some digest) "unsupported_version"
      ("Blob stream protocol version " +:+ pretty (ui_version init) +:+ " is unsupported; expected "
       +:+ pretty SNAPSHOT_BLOB_PROTOCOL_VERSION))
  else if negb (ui_chunk_size_bytes init =? SNAPSHOT_BLOB_DEFAULT_CHUNK_SIZE_BYTES) then
    ret (send_blob_upload_error (Some wid) (Some digest) "unsupported_chunk_size"
      ("Blob stream chunk size must be " +:+ pretty SNAPSHOT_BLOB_DEFAULT_CHUNK_SIZE_BYTES
       +:+ " bytes in v1"))
  else
  match select_upload_encoding total (ui_capability_flags init) (ui_offered_encodings init) with
  | Err e => ret (send_blob_upload_error (Some wid) (Some digest) "unsupported_encoding" (Error_to_string e))
  | Ok (encoding, stream_size) =>
      try_ (has_blob state_dir digest) (fun r =>
      match r with
      | Err e => ret (send_blob_upload_error (Some wid) (Some digest) "invalid_digest" (Error_to_string e))
      | Ok true =>
          try_ (remove_blob_upload_state state_dir digest) (fun _ =>
          ret (closing [UploadComplete SNAPSHOT_BLOB_PROTOCOL_VERSION wid digest false]
                 (Some (total, false))))
      | Ok false => start_session state_dir init encoding stream_size delivered
      end)
  end.

Definition SnapshotBlobChunkFrameError_display (e : SnapshotBlobChunkFrameError) : string :=
  match e with
  | FrameTooShort expected actual =>
      "chunk frame too short: expected at least " +:+ pretty expected +:+ " bytes, got " +:+ pretty actual
  | InvalidMagic => "invalid chunk frame magic"
  | UnsupportedVersion v => "unsupported chunk frame version " +:+ pretty v
  | UnsupportedFlags f => "unsupported chunk frame flags " +:+ pretty f
  | NonZeroReserved => "reserved chunk frame bytes must be zero"
  | PayloadSizeMismatch declared actual =>
      "chunk payload size mismatch: header says " +:+ pretty declared +:+ " bytes, frame has " +:+ pretty actual
  | ChecksumMismatch expected actual =>
      "chunk payload checksum mismatch: expected " +:+ pretty expected +:+ ", got " +:+ pretty actual
  | PayloadTooLarge => "chunk payload too large to encode"
  end.

Definition with_received (seq received : Z) (s : BlobUploadSession) : BlobUploadSession := {|
  bus_workorder_id := bus_workorder_id s; bus_digest := bus_digest s;
  bus_raw_size_bytes := bus_raw_size_bytes s; bus_stream_size_bytes := bus_stream_size_bytes s;
  bus_chunk_size_bytes := bus_chunk_size_bytes s; bus_selected_encoding := bus_selected_encoding s;
  bus_next_sequence := seq; bus_received_bytes := received |}.

(** One binary frame of the loop. *)
Definition handle_chunk_frame (state_dir : path) (s : BlobUploadSession) (frame : bytes) (delivered : bool) :
    IO Reaction :=
  let fail code msg := ret (send_blob_upload_error (Some (bus_workorder_id s)) (Some (bus_digest s)) code msg) in
  match decode frame with
  | Err e => fail "invalid_chunk_frame" (SnapshotBlobChunkFrameError_display e)
  | Ok (header, payload) =>
      if negb (sequence header =? bus_next_sequence s) then
        fail "unexpected_sequence" ("Expected chunk sequence " +:+ pretty (bus_next_sequence s)
          +:+ ", got " +:+ pretty (sequence header))
      else if negb (offset_bytes header =? bus_received_bytes s) then
        fail "unexpected_offset" ("Expected chunk offset " +:+ pretty (bus_received_bytes s)
          +:+ ", got " +:+ pretty (offset_bytes header))
      else if bus_chunk_size_bytes s <? payload_size_bytes header then
        fail "chunk_too_large" ("Chunk size " +:+ pretty (payload_size_bytes header)
          +:+ " exceeds the negotiated " +:+ pretty (bus_chunk_size_bytes s) +:+ " bytes")
      else
      let next_received := u64_saturating_add (bus_received_bytes s) (payload_size_bytes header) in
      if bus_stream_size_bytes s <? next_received then
        fail "blob_too_large" ("Received " +:+ pretty next_received
          +:+ " bytes, which exceeds the declared blob length " +:+ pretty (bus_stream_size_bytes s))
      else
      try_ (append_blob_upload_chunk state_dir (bus_digest s) (bus_raw_size_bytes s)
              (bus_stream_size_bytes s) (bus_chunk_size_bytes s) (bus_selected_encoding s) payload) (fun r =>
      match r with
      | Err e => fail "persist_failed" (Error_to_string e)
      | Ok persisted =>
          let s := with_received (us_next_sequence persisted) (us_received_bytes persisted) s in
          if negb delivered then ret (closing [] None)
          else
          let ack := UploadAck SNAPSHOT_BLOB_PROTOCOL_VERSION (bus_workorder_id s) (bus_digest s)
            (sequence header) (offset_bytes header) (payload_size_bytes header) (bus_received_bytes s) in
          if bus_received_bytes s =? bus_stream_size_bytes s then
            complete_upload state_dir [ack] (bus_workorder_id s) (bus_digest s) (bus_raw_size_bytes s)
          else ret {| sent := [ack]; session := Some s; recorded := None |}
      end)
  end.

(** A WebSocket message; a text message carries what parsing it as
    [SnapshotBlobClientControlMessage] gives. *)
Inductive WsMessage :=
| WsBinary (frame : bytes)
| WsText (parsed : Result UploadInit string)
| WsClose
| WsPing
| WsReadError.

Definition handle_loop_message (state_dir : path) (s : BlobUploadSession) (m : WsMessage) (delivered : bool) :
    IO Reaction :=
  match m with
  | WsReadError => ret (closing [] None)
  | WsBinary frame => handle_chunk_frame state_dir s frame delivered
  | WsText _ =>
      ret (send_blob_upload_error (Some (bus_workorder_id s)) (Some (bus_digest s))
        "unexpected_control_frame" "Chunk payloads must be sent as binary frames after upload_init")
  | WsClose => ret (closing [] None)
  | WsPing => ret {| sent := []; session := Some s; recorded := None |}
  end.

Fixpoint upload_loop (state_dir : path) (s : BlobUploadSession) (ms : list (WsMessage * bool)) :
    IO (list SnapshotBlobServerControlMessage) :=
  match ms with
  | [] => ret []
  | (m, delivered) :: rest =>
      do r <- handle_loop_message state_dir s m delivered ;;
      match session r with
      | None => ret (sent r)
      | Some s' => do more <- upload_loop state_dir s' rest ;; ret (sent r ++ more)
      end
  end.

(** [handle_blob_upload_ws] on a whole connection: the incoming messages, each
    with whether the control message it provokes can be delivered. *)
Definition handle_blob_upload_ws (state_dir : path) (ms : list (WsMessage * bool)) :
    IO (list SnapshotBlobServerControlMessage) :=
  match ms with
  | [] => ret []
  | (WsReadError, _) :: _ => ret []
  | (WsText (Ok init), delivered) :: rest =>
      do r <- handle_upload_init state_dir init delivered ;;
      match session r with
      | None => ret (sent r)
      | Some s => do more <- upload_loop state_dir s rest ;; ret (sent r ++ more)
      end
  | (WsText (Err e), _) :: _ =>
      ret (sent (send_blob_upload_error None None "invalid_init_json" ("Failed to parse upload_init: " +:+ e)))
  | _ :: _ =>
      ret (sent (send_blob_upload_error None None "invalid_init_frame"
        "The first blob-stream frame must be an upload_init text message"))
  end.

End Sessions.

(** ** Uploads never damage the blob store *)

Definition in_sessions (dir p : path) : Prop := exists name, p = dir ++ [BLOB_UPLOAD_SESSION_SUBDIR; name].

Lemma session_file_in dir name : in_sessions dir (join (blob_upload_session_dir dir) name).
Proof. exists name. unfold join, blob_upload_session_dir, join. by rewrite <- app_assoc. Qed.
#[local] Hint Resolve session_file_in : foots.

Lemma session_not_blob dir d s : ~ in_sessions dir (blob_file dir d s).
Proof.
  intros [name He]. apply (f_equal length) in He.
  unfold blob_file in He. rewrite !length_app in He. simpl in He. lia.
Qed.

Section SessionFootprints.
Context `{Sha256, BlobMetadataCodec, Zstd, UploadStateCodec, Adler32}.

Lemma foots_load dir d : foots (in_sessions dir) (load_blob_upload_state dir d).
Proof. unfold load_blob_upload_state. solve_foots. Qed.

Lemma foots_persist dir s : foots (in_sessions dir) (persist_blob_upload_state dir s).
Proof. unfold persist_blob_upload_state. solve_foots; apply session_file_in. Qed.

Lemma foots_remove dir d : foots (in_sessions dir) (remove_blob_upload_state dir d).
Proof.
  unfold remove_blob_upload_state. solve_foots; apply foots_remove_if_exists; apply session_file_in.
Qed.

Lemma foots_staged (P : path -> Prop) p : foots P (staged_bytes p).
Proof. unfold staged_bytes. solve_foots. Qed.

#[local] Hint Resolve foots_load foots_persist foots_remove foots_staged : foots.

Lemma foots_prepare dir d a b c e : foots (in_sessions dir) (prepare_blob_upload_session dir d a b c e).
Proof. unfold prepare_blob_upload_session. solve_foots. Qed.
#[local] Hint Resolve foots_prepare : foots.

Lemma foots_append_chunk dir d a b c e p : foots (in_sessions dir) (append_blob_upload_chunk dir d a b c e p).
Proof. unfold append_blob_upload_chunk. solve_foots; apply session_file_in. Qed.

Lemma foots_decode_stream (P : path -> Prop) e b : foots P (decode_stream e b).
Proof. unfold decode_stream. solve_foots. Qed.
End SessionFootprints.

#[export] Hint Resolve foots_load foots_persist foots_remove foots_staged foots_prepare
  foots_append_chunk foots_decode_stream : foots.

Section Safety.
Context `{Sha256, !Sha256Laws, BlobMetadataCodec, !BlobMetadataCodecLaws, Zstd, !ZstdLaws,
  UploadStateCodec, Adler32}.
Context (dir : path).

(** The store is right (for arbitrary contents) and hard links are supported. *)
Definition store_inv (w : World) : Prop := store_ok (fun _ => True) dir (files w) /\ links_supported w.

Lemma store_inv_good d w : store_inv w -> valid_digest d -> good (fun _ => True) dir d w.
Proof. intros [Hok Hl] Hv. by apply store_ok_good. Qed.

Lemma store_inv_run k d w w' :
  store_inv w -> Run (fun _ => True) dir k d w w' -> valid_digest d -> store_inv w'.
Proof.
  intros [Hok Hl] HR Hv. split; [by eapply store_ok_run|]. by apply (run_links _ _ _ _ _ _ HR).
Qed.

Lemma store_inv_foot w w' : store_inv w -> Foot (in_sessions dir) w w' -> store_inv w'.
Proof.
  intros [Hok Hl] [Hfs (u & Hu)]. split.
  - intros d Hv s b Hb. apply Hok; [done|]. by rewrite <- Hfs by apply session_not_blob.
  - unfold links_supported in *. rewrite Hu in Hl. by apply Forall_app in Hl as [_ ?].
Qed.

Lemma keeps_foots {E A} (m : Comp E A) w :
  foots (in_sessions dir) m -> store_inv w -> wp m (fun _ w' => store_inv w') w.
Proof. intros Hm Hi. unfold wp. eapply store_inv_foot; [exact Hi|apply Hm]. Qed.

Lemma keeps_store d b w :
  store_inv w -> wp (store_blob_for_digest dir d b)
    (fun r w' => store_inv w' /\ (is_ok r = true -> valid_digest d /\ sha256_hex b = d)) w.
Proof.
  intros Hi. destruct (validate_digest_cases d) as [[Hv _]|[e He]].
  - eapply wp_mono; [apply (wp_store_blob_for_digest (fun _ => True) dir d w b); [done|by apply store_inv_good]|].
    intros r w' (HR & Hok & _). split; [by eapply store_inv_run|].
    destruct r as [v|]; [|done]. destruct (Hok v eq_refl) as (_ & ? & _). done.
  - unfold store_blob_for_digest. rewrite He. by split.
Qed.

Lemma keeps_finalize d w : store_inv w -> wp (finalize_blob_upload_session dir d) (fun _ w' => store_inv w') w.
Proof.
  intros Hi. unfold finalize_blob_upload_session.
  apply wp_bind. eapply wp_mono; [apply keeps_foots; [apply foots_load|exact Hi]|].
  intros [loaded|e] w1 Hi1; [|done].
  destruct loaded as [st|]; [|done]. apply wp_bind. simpl.
  apply wp_bind. eapply wp_mono; [apply keeps_foots; [apply foots_staged|exact Hi1]|].
  intros [n|e] w2 Hi2; [|done]. simpl.
  destruct (negb (n =? _)); [done|].
  apply wp_bind, wp_with_context. eapply wp_mono; [apply keeps_foots; [apply foots_read|exact Hi2]|].
  intros [sb|e] w3 Hi3; [|done]. simpl.
  apply wp_bind.
  assert (Hdec : wp (decode_stream (us_selected_encoding st) sb) (fun r w' => w' = w3 /\
    (forall raw, r = Ok raw -> us_selected_encoding st = Some SNAPSHOT_BLOB_ENCODING_ZSTD ->
       zstd_decode_all sb = Some raw)) w3).
  { unfold decode_stream, decode_zstd, wp. destruct (us_selected_encoding st) as [e|]; [|done].
    case_bool_decide; [|done]. destruct (zstd_decode_all sb); [|done]. split; [done|]. by intros ? [= <-]. }
  eapply wp_mono; [exact Hdec|]. intros [raw|e] w4 [-> Hraw]; [|done].
  destruct (Z.eqb_spec (blen raw) (us_raw_size_bytes st)) as [Hsz|]; [|done]. cbn [negb].
  apply wp_bind. eapply wp_mono; [by apply keeps_store|].
  intros [stored|e] w5 [Hi5 Hst]; [|done]. destruct (Hst eq_refl) as [Hv Hs].
  apply wp_bind. eapply (wp_mono _ (fun _ w' => store_inv w')).
  { case_bool_decide as Hz; [|done]. apply wp_bind. rewrite <- Hsz.
    eapply wp_mono; [apply (wp_store_encoded (fun _ => True) dir d w5 raw sb); eauto using store_inv_good; done|].
    intros [v|e] w6 [HR _]; by eapply store_inv_run. }
  intros [u|e] w6 Hi6; [|done].
  apply wp_bind. eapply wp_mono; [apply keeps_foots; [apply foots_remove|exact Hi6]|].
  by intros [u'|e] w7 Hi7.
Qed.

Lemma keeps_complete before wid d n w :
  store_inv w -> wp (complete_upload dir before wid d n) (fun _ w' => store_inv w') w.
Proof.
  intros Hi. unfold complete_upload. apply wp_try.
  eapply wp_mono; [by apply keeps_finalize|]. by intros [v|e] w1 Hi1.
Qed.

Lemma keeps_start_session init e n dl w :
  store_inv w -> wp (start_session dir init e n dl) (fun _ w' => store_inv w') w.
Proof.
  intros Hi. unfold start_session. apply wp_try.
  eapply wp_mono; [apply keeps_foots; [apply foots_prepare|exact Hi]|].
  intros [st|e'] w1 Hi1; [|done].
  repeat case_match; try done; by apply keeps_complete.
Qed.

Lemma keeps_init init dl w :
  store_inv w -> wp (handle_upload_init dir init dl) (fun _ w' => store_inv w') w.
Proof.
  intros Hi. unfold handle_upload_init. do 2 (case_match; [done|]).
  destruct (select_upload_encoding _ _ _) as [[e n]|e]; [|done].
  destruct (validate_digest_cases (ui_digest init)) as [[Hv _]|[er He]].
  - apply wp_try. eapply wp_mono; [by apply (wp_has_blob (fun _ => True)), store_inv_good|].
    intros r w1 (HR & _). assert (Hi1 : store_inv w1) by by eapply store_inv_run.
    destruct r as [[]|e']; [|by apply keeps_start_session|done].
    apply wp_try. eapply wp_mono; [apply keeps_foots; [apply foots_remove|exact Hi1]|]. done.
  - destruct (invalid_paths dir _ _ He) as (Hp & _). unfold has_blob, wp, try_, bind. by rewrite Hp.
Qed.

Lemma keeps_message s m dl w :
  store_inv w -> wp (handle_loop_message dir s m dl) (fun _ w' => store_inv w') w.
Proof.
  intros Hi. destruct m as [frame| | | |]; try done. unfold handle_loop_message, handle_chunk_frame.
  destruct (decode frame) as [[h p]|e]; [|done].
  repeat (case_match; [done|]). apply wp_try.
  eapply wp_mono; [apply keeps_foots; [apply foots_append_chunk|exact Hi]|].
  intros [st|e] w1 Hi1; [|done].
  repeat case_match; try done. by apply keeps_complete.
Qed.

Lemma keeps_loop s ms w : store_inv w -> wp (upload_loop dir s ms) (fun _ w' => store_inv w') w.
Proof.
  revert s w. induction ms as [|[m dl] ms IH]; intros s w Hi; [done|]. cbn [upload_loop].
  apply wp_bind. eapply wp_mono; [by apply keeps_message|].
  intros [r|e] w1 Hi1; [|done]. destruct (session r) as [s'|]; [|done].
  apply wp_bind. eapply wp_mono; [by apply IH|]. by intros [more|e] w2 Hi2.
Qed.

(** C7.  No upload can damage the blob store: whatever a client sends on an upload
    connection, whichever control messages cannot be delivered, and whichever file
    operations fail (hard links being supported), every file of the store is right
    after the connection if it was before: no blob is stored under a digest that is
    not its own, no variant that does not decompress to its blob. *)
Theorem upload_preserves_store ms w :
  store_ok (fun _ => True) dir (files w) -> links_supported w ->
  store_ok (fun _ => True) dir (files (snd (handle_blob_upload_ws dir ms w))).
Proof.
  intros Hok Hl. assert (Hi : store_inv w) by done.
  enough (wp (handle_blob_upload_ws dir ms) (fun _ w' => store_inv w') w) as [? _] by done.
  unfold handle_blob_upload_ws. destruct ms as [|[[f|[init|e]| | |] dl] rest]; try done.
  apply wp_bind. eapply wp_mono; [by apply keeps_init|].
  intros [r|e] w1 Hi1; [|done]. destruct (session r) as [s|]; [|done].
  apply wp_bind. eapply wp_mono; [by apply keeps_loop|]. by intros [more|e] w2 Hi2.
Qed.

End Safety.

(** ** Sessions on a file system where nothing fails *)

Section Progress.
Context `{Sha256, !Sha256Laws, BlobMetadataCodec, !BlobMetadataCodecLaws, Zstd, !ZstdLaws,
  UploadStateCodec, !UploadStateCodecLaws, Adler32}.
Context (dir : path).

Abbreviation meta_at d := (blob_upload_session_meta_path dir d).
Abbreviation part_at d := (blob_upload_session_part_path dir d).
Abbreviation temp_at d id := (join (blob_upload_session_dir dir) (d +:+ ".json.tmp-" +:+ id)).

Lemma session_file_inj d s s' :
  join (blob_upload_session_dir dir) (d +:+ s) = join (blob_upload_session_dir dir) (d +:+ s') -> s = s'.
Proof.
  unfold join. intros He. apply app_inv_head in He. injection He as He.
  by apply string_app_inj_len in He as [_ ?].
Qed.

Lemma meta_ne_part d : meta_at d <> part_at d.
Proof. intros He. by apply session_file_inj in He. Qed.

Lemma temp_ne d id : temp_at d id <> meta_at d /\ temp_at d id <> part_at d.
Proof. split; intros He; apply session_file_inj in He; discriminate He. Qed.

(** What a quiet step on sessions leaves: no faults, the blob files as they were. *)
Definition quiet_step (w w' : World) : Prop := faults w' = [] /\ Foot (in_sessions dir) w w'.

Lemma quiet_step_trans w1 w2 w3 : quiet_step w1 w2 -> quiet_step w2 w3 -> quiet_step w1 w3.
Proof. intros [? ?] [? ?]. split; [done|]. by eapply foot_trans. Qed.

Lemma quiet_step_blob w w' d s : quiet_step w w' -> files w' !! blob_file dir d s = files w !! blob_file dir d s.
Proof. intros [_ [Hf _]]. apply Hf, session_not_blob. Qed.

Lemma quiet_foot w w' : faults w = [] -> Foot (in_sessions dir) w w' -> quiet_step w w'.
Proof.
  intros Hw Hf. split; [|done]. destruct Hf as [_ (u & Hu)]. rewrite Hw in Hu.
  by symmetry in Hu; apply app_eq_nil in Hu as [_ ?].
Qed.

Lemma persist_quiet st w :
  faults w = [] ->
  wp (persist_blob_upload_state dir st) (fun r w' => r = Ok tt /\ quiet_step w w' /\
    files w' !! meta_at (us_digest st) = Some (upload_state_to_vec st) /\
    files w' !! part_at (us_digest st) = files w !! part_at (us_digest st)) w.
Proof.
  intros Hw. set (d := us_digest st).
  assert (Hq : quiet_step w (snd (persist_blob_upload_state dir st w)))
    by (apply quiet_foot; [done|apply foots_persist]).
  destruct (temp_ne d (pretty (next_uuid w))) as [Htm Htp]. pose proof (meta_ne_part d) as Hmp.
  revert Hq. unfold wp, persist_blob_upload_state, bind, with_context, fs_create_dir_all, new_uuid,
    fs_write, fs_rename. rewrite guarded_quiet by done. unfold ret at 1 2 3. cbn -[guarded].
  rewrite guarded_quiet by done. cbn -[guarded]. rewrite guarded_quiet by done. cbn.
  rewrite lookup_insert_eq. cbn. intros Hq. split_and!; [done|done|by rewrite lookup_insert_eq|].
  by rewrite lookup_insert_ne, lookup_delete_ne, lookup_insert_ne.
Qed.

(** The session of digest [d] as its two files show it: [p] has arrived, in [seq]
    chunks. *)
Record SessionAt (st : PersistedBlobUploadState) (p : bytes) (w : World) : Prop := {
  sa_quiet : faults w = [];
  sa_meta : files w !! meta_at (us_digest st) = Some (upload_state_to_vec st);
  sa_part : default [] (files w !! part_at (us_digest st)) = p;
  sa_received : us_received_bytes st = blen p;
  sa_offset : us_next_offset_bytes st = blen p;
  sa_sequence : p <> [] -> 0 < us_next_sequence st;
}.

Definition fresh_state (d : string) (raw stream chunk : Z) (e : option string) : PersistedBlobUploadState :=
  {| us_digest := d; us_raw_size_bytes := raw; us_stream_size_bytes := stream; us_chunk_size_bytes := chunk;
     us_selected_encoding := e; us_next_sequence := 0; us_next_offset_bytes := 0; us_received_bytes := 0 |}.

(** Nothing has been uploaded for [d] yet. *)
Definition no_session (d : string) (w : World) : Prop :=
  faults w = [] /\ files w !! meta_at d = None /\ files w !! part_at d = None.

Lemma read_quiet p w :
  faults w = [] -> fs_read p w = (ok_or (files w !! p) NotFound, w).
Proof. intros Hw. unfold fs_read. rewrite guarded_quiet by done. by destruct (files w !! p). Qed.

Lemma staged_quiet p w :
  faults w = [] -> staged_bytes p w = (Ok (blen (default [] (files w !! p))), w).
Proof.
  intros Hw. unfold staged_bytes, try_, fs_metadata_len. rewrite guarded_quiet by done.
  by destruct (files w !! p).
Qed.

Lemma load_quiet d w :
  faults w = [] ->
  load_blob_upload_state dir d w =
    (match files w !! meta_at d with
     | None => Ok None
     | Some b => match upload_state_from_slice b with
                 | Some s => Ok (Some s)
                 | None => Err (ParseErr ("Failed to parse " +:+ display (meta_at d)))
                 end
     end, w).
Proof.
  intros Hw. unfold load_blob_upload_state, try_. rewrite read_quiet by done.
  destruct (files w !! meta_at d) as [b|]; simpl; [|done]. by destruct (upload_state_from_slice b).
Qed.

Lemma create_dir_quiet p w : faults w = [] -> fs_create_dir_all p w = (Ok tt, w).
Proof. intros Hw. unfold fs_create_dir_all. by rewrite guarded_quiet. Qed.

Lemma with_progress_same st p : us_received_bytes st = blen p -> us_next_offset_bytes st = blen p ->
  with_progress (us_next_sequence st) (blen p) st = st.
Proof. intros Hr Ho. unfold with_progress. rewrite <- Ho at 1. rewrite <- Hr. by destruct st. Qed.

(** Resuming a session whose parameters agree. *)
Lemma prepare_resumes st p w :
  SessionAt st p w -> blen p <= us_stream_size_bytes st ->
  wp (prepare_blob_upload_session dir (us_digest st) (us_raw_size_bytes st) (us_stream_size_bytes st)
        (us_chunk_size_bytes st) (us_selected_encoding st))
     (fun r w' => r = Ok st /\ quiet_step w w' /\ SessionAt st p w' /\
        files w' !! part_at (us_digest st) = files w !! part_at (us_digest st)) w.
Proof.
  intros [Hw Hm Hp Hr Ho Hs] Hle. unfold prepare_blob_upload_session.
  apply wp_bind, wp_with_context. unfold wp at 1. rewrite create_dir_quiet by done. simpl.
  apply wp_bind. unfold wp at 1. rewrite load_quiet, Hm, upload_state_roundtrip by done. simpl.
  rewrite !Z.eqb_refl, bool_decide_true by done. cbn [negb].
  apply wp_bind. unfold wp at 1. rewrite staged_quiet, Hp by done. simpl.
  rewrite Hr, Ho, Z.eqb_refl. destruct (Z.ltb_spec (us_stream_size_bytes st) (blen p)); [lia|]. simpl.
  replace ((0 <? blen p) && (us_next_sequence st =? 0)) with false.
  2:{ symmetry. destruct p as [|x p]; [done|].
      assert (0 < us_next_sequence st) by by apply Hs. rewrite andb_comm.
      destruct (Z.eqb_spec (us_next_sequence st) 0); [lia|done]. }
  rewrite with_progress_same by done.
  apply wp_bind. eapply wp_mono; [by apply persist_quiet|]. simpl.
  intros r w' (-> & Hq & Hm' & Hp'). unfold wp. simpl. split_and!; [done|done| |done].
  split; try done; [by destruct Hq|by rewrite Hp'].
Qed.

Lemma prepare_fresh d raw stream chunk e w :
  no_session d w -> 0 <= stream ->
  wp (prepare_blob_upload_session dir d raw stream chunk e)
     (fun r w' => r = Ok (fresh_state d raw stream chunk e) /\ quiet_step w w' /\
        SessionAt (fresh_state d raw stream chunk e) [] w' /\ files w' !! part_at d = None) w.
Proof.
  intros (Hw & Hm & Hp) Hst. unfold prepare_blob_upload_session.
  apply wp_bind, wp_with_context. unfold wp at 1. rewrite create_dir_quiet by done. simpl.
  apply wp_bind. unfold wp at 1. rewrite load_quiet, Hm by done. simpl.
  rewrite !Z.eqb_refl, bool_decide_true by done. cbn [negb].
  apply wp_bind. unfold wp at 1. rewrite staged_quiet, Hp by done. simpl.
  change (blen []) with 0. destruct (Z.ltb_spec stream 0); [lia|]. simpl.
  fold (fresh_state d raw stream chunk e).
  change (with_progress 0 0 _) with (fresh_state d raw stream chunk e).
  apply wp_bind. eapply wp_mono; [by apply persist_quiet|]. simpl.
  intros r w' (-> & Hq & Hm' & Hp'). unfold wp. simpl. split_and!; [done|done| |exact (eq_trans Hp' Hp)].
  split; try done; [by destruct Hq|].
  change (us_digest (fresh_state d raw stream chunk e)) with d. by rewrite Hp', Hp.
Qed.

Lemma append_quiet p c w :
  faults w = [] ->
  exists w', (forall ctx1 ctx2 ctx3 (B : Type) (k : IO B),
    (with_context ctx1 (fs_open_append p) ;; with_context ctx2 (fs_append p c) ;;
     with_context ctx3 fs_flush ;; k) w = k w') /\
    faults w' = [] /\ files w' !! p = Some (default [] (files w !! p) ++ c) /\
    (forall q, q <> p -> files w' !! q = files w !! q).
Proof.
  intros Hw. unfold bind, with_context, fs_open_append, fs_append, fs_flush, ret.
  destruct (files w !! p) as [b|] eqn:E.
  - eexists. split.
    + intros ctx1 ctx2 ctx3 B k. rewrite guarded_quiet, E by done. cbn -[guarded].
      rewrite guarded_quiet by done. cbn -[guarded]. rewrite guarded_quiet by done. cbn. by rewrite E.
    + cbn. rewrite lookup_insert_eq. split_and!; [done|done|].
      intros q Hq. by rewrite lookup_insert_ne.
  - eexists. split.
    + intros ctx1 ctx2 ctx3 B k. rewrite guarded_quiet, E by done. cbn -[guarded].
      rewrite guarded_quiet by done. cbn -[guarded]. rewrite guarded_quiet by done. cbn. done.
    + cbn. rewrite !lookup_insert_eq. split_and!; [done|done|].
      intros q Hq. by rewrite !lookup_insert_ne.
Qed.

(** A chunk that fits extends the session by its payload. *)
Lemma append_extends st p c w :
  SessionAt st p w -> c <> [] -> blen p + blen c <= us_stream_size_bytes st ->
  us_stream_size_bytes st <= u64_max -> 0 <= us_next_sequence st ->
  let st' := with_progress (u64_saturating_add (us_next_sequence st) 1) (blen (p ++ c)) st in
  wp (append_blob_upload_chunk dir (us_digest st) (us_raw_size_bytes st) (us_stream_size_bytes st)
        (us_chunk_size_bytes st) (us_selected_encoding st) c)
     (fun r w' => r = Ok st' /\ quiet_step w w' /\ SessionAt st' (p ++ c) w' /\
        files w' !! part_at (us_digest st) = Some (p ++ c)) w.
Proof.
  intros HS Hc Hle Hmax Hseq st'. pose proof (blen_nonneg p). pose proof (blen_nonneg c).
  assert (0 < blen c) by (destruct c; [done|unfold blen; simpl; lia]).
  assert (Hwrap : u64_wrapping_add (blen p) (blen c) = blen (p ++ c)).
  { rewrite blen_app. apply Z.mod_small. unfold u64_max in *. lia. }
  assert (Hqs : forall r w', append_blob_upload_chunk dir (us_digest st) (us_raw_size_bytes st)
    (us_stream_size_bytes st) (us_chunk_size_bytes st) (us_selected_encoding st) c w = (r, w') -> quiet_step w w').
  { intros r w' He. apply quiet_foot; [apply HS|].
    pose proof (foots_append_chunk dir (us_digest st) (us_raw_size_bytes st) (us_stream_size_bytes st)
      (us_chunk_size_bytes st) (us_selected_encoding st) c w) as Hf. by rewrite He in Hf. }
  enough (Hm : wp (append_blob_upload_chunk dir (us_digest st) (us_raw_size_bytes st)
    (us_stream_size_bytes st) (us_chunk_size_bytes st) (us_selected_encoding st) c)
    (fun r w' => r = Ok st' /\ SessionAt st' (p ++ c) w' /\
       files w' !! part_at (us_digest st) = Some (p ++ c)) w).
  { unfold wp in *. destruct (append_blob_upload_chunk _ _ _ _ _ _ _ w) as [r w'] eqn:E.
    specialize (Hqs _ _ eq_refl). simpl in *. tauto. }
  unfold append_blob_upload_chunk. apply wp_bind.
  eapply wp_mono; [apply prepare_resumes; [exact HS|lia]|].
  intros r w1 (-> & Hq1 & HS1 & Hp1). simpl. rewrite (sa_received _ _ _ HS), Hwrap, blen_app.
  destruct (Z.ltb_spec (us_stream_size_bytes st) (blen p + blen c)); [lia|].
  destruct (Z.eqb_spec (blen c) 0); [lia|]. simpl.
  destruct (append_quiet (part_at (us_digest st)) c w1) as (w2 & Hrun & Hw2 & Hpart & Hother); [apply HS1|].
  unfold wp. rewrite Hrun. rewrite (sa_part _ _ _ HS1) in Hpart. rewrite <- blen_app.
  eapply wp_bind, wp_mono; [by apply persist_quiet|]. simpl.
  intros r w3 (-> & Hq3 & Hm3 & Hp3). unfold wp. simpl. rewrite Hp3, Hpart.
  split_and!; [done| |done]. split; simpl; try done.
  - by destruct Hq3.
  - by rewrite Hp3, Hpart.
  - intros _. unfold u64_saturating_add, u64_max, u64_modulus. lia.
Qed.

(** ** Completing an upload *)

Context (U : bytes -> Prop).

(** [stream] carries [raw] under the selected encoding. *)
Definition carries (e : option string) (stream raw : bytes) : Prop :=
  (e = None /\ stream = raw) \/
  (e = Some SNAPSHOT_BLOB_ENCODING_ZSTD /\ zstd_decode_all stream = Some raw).

Lemma decode_stream_carries e stream raw w :
  carries e stream raw -> decode_stream e stream w = (Ok raw, w).
Proof.
  intros [[-> ->]|[-> Hz]]; [done|]. unfold decode_stream, decode_zstd.
  rewrite bool_decide_true by done. by rewrite Hz.
Qed.

Lemma run_session_file k d w w' name :
  Run U dir k d w w' -> files w' !! join (blob_upload_session_dir dir) name =
                        files w !! join (blob_upload_session_dir dir) name.
Proof.
  intros HR. apply (run_frame _ _ _ _ _ _ HR). intros s He.
  apply (session_not_blob dir d s). rewrite <- He. apply session_file_in.
Qed.

Lemma remove_quiet d w :
  faults w = [] ->
  wp (remove_blob_upload_state dir d) (fun r w' => r = Ok tt /\ quiet_step w w' /\ no_session d w') w.
Proof.
  intros Hw. unfold remove_blob_upload_state.
  assert (Hq : quiet_step w (snd (remove_blob_upload_state dir d w)))
    by (apply quiet_foot; [done|apply foots_remove]).
  unfold remove_blob_upload_state in Hq. pose proof (meta_ne_part d) as Hmp.
  revert Hq. unfold wp, bind. rewrite remove_if_exists_quiet by done. simpl. rewrite remove_if_exists_quiet by done. simpl.
  intros Hq. split_and!; [done|done|]. split_and!; simpl; [done| |by rewrite lookup_delete_eq].
  rewrite lookup_delete_ne by done. by rewrite lookup_delete_eq.
Qed.

Lemma quiet_links w : faults w = [] -> links_supported w.
Proof. intros Hw. unfold links_supported. rewrite Hw. constructor. Qed.

Lemma quiet_store_ok w w' : quiet_step w w' -> store_ok U dir (files w) -> store_ok U dir (files w').
Proof. intros Hq Hok d Hv s b. rewrite (quiet_step_blob _ _ _ _ Hq). by apply Hok. Qed.

(** The facts about an upload that stay fixed while it runs. *)
Record UploadPlan (d : string) (raw stream : bytes) (e : option string) : Prop := {
  plan_collision_free : collision_free U;
  plan_contents : U raw;
  plan_digest : sha256_hex raw = d;
  plan_zstd : is_ok (encode_zstd_if_worthwhile raw) = true;
  plan_carries : carries e stream raw;
  plan_nonempty : stream <> [];
  plan_u64 : blen stream <= u64_max;
}.

Lemma plan_valid d raw stream e : UploadPlan d raw stream e -> valid_digest d.
Proof. intros []. subst d. apply sha256_hex_digits. Qed.

Lemma store_quiet d raw stream e w :
  UploadPlan d raw stream e -> faults w = [] -> store_ok U dir (files w) ->
  wp (store_blob_for_digest dir d raw) (fun r w' => exists v, r = Ok v /\
    sb_digest (vbs_blob v) = d /\ vbs_uploaded v = negb (is_some (files w !! blob_file dir d "")) /\
    Run U dir true d w w' /\ store_ok U dir (files w') /\ faults w' = [] /\
    files w' !! blob_file dir d "" = Some raw) w.
Proof.
  intros HP Hw Hok. pose proof (plan_valid _ _ _ _ HP) as Hv. destruct HP as [CF HU Hd Hz _ _ _].
  assert (Hg : good U dir d w) by (apply store_ok_good; auto using quiet_links).
  eapply wp_mono; [by apply (wp_store_blob_for_digest U)|].
  intros r w' (HR & Hst & Hq). destruct (Hq CF Hz Hw Hv Hd) as (v & -> & Hu).
  destruct (Hst v eq_refl) as (Hsd & _ & b & Hb & HUb & Hsb).
  exists v. split_and!; [done|done|done|done|by eapply store_ok_run| |].
  - by apply (run_quiet _ _ _ _ _ _ HR).
  - by rewrite (CF raw b) by congruence.
Qed.

Lemma variant_quiet d raw stream e w :
  UploadPlan d raw stream e -> faults w = [] -> store_ok U dir (files w) ->
  files w !! blob_file dir d "" = Some raw ->
  wp (if bool_decide (e = Some SNAPSHOT_BLOB_ENCODING_ZSTD) then
        store_encoded_blob_variant dir d (blen raw) EncZstd stream ;; ret tt
      else ret tt)
    (fun r w' => r = Ok tt /\ Run U dir true d w w' /\ store_ok U dir (files w')) w.
Proof.
  intros HP Hw Hok Hb. pose proof (plan_valid _ _ _ _ HP) as Hv. destruct HP as [CF HU Hd _ Hc _ _].
  assert (Hg : good U dir d w) by (apply store_ok_good; auto using quiet_links).
  case_bool_decide as He; [|by split_and!; [|apply run_refl|]].
  destruct Hc as [[Hn _]|[_ Hz]]; [congruence|].
  apply wp_bind. eapply wp_mono; [by apply (wp_store_encoded U dir d w raw stream)|].
  intros r w' [HR Hq]. specialize (Hq CF Hw). destruct r as [v|]; [|done].
  split_and!; [done|done|by eapply store_ok_run].
Qed.

(** A complete session becomes a stored blob and leaves nothing behind. *)
Lemma finalize_stores st raw stream w :
  UploadPlan (us_digest st) raw stream (us_selected_encoding st) ->
  us_raw_size_bytes st = blen raw -> us_stream_size_bytes st = blen stream ->
  SessionAt st stream w -> files w !! part_at (us_digest st) = Some stream ->
  store_ok U dir (files w) ->
  wp (finalize_blob_upload_session dir (us_digest st)) (fun r w' => exists v, r = Ok v /\
    sb_digest (vbs_blob v) = us_digest st /\
    vbs_uploaded v = negb (is_some (files w !! blob_file dir (us_digest st) "")) /\
    no_session (us_digest st) w' /\ store_ok U dir (files w') /\
    files w' !! blob_file dir (us_digest st) "" = Some raw) w.
Proof.
  intros HP Hraw Hstream HS Hpart Hok. pose proof (sa_quiet _ _ _ HS) as Hw.
  unfold finalize_blob_upload_session.
  apply wp_bind. unfold wp at 1. rewrite load_quiet, (sa_meta _ _ _ HS), upload_state_roundtrip by done. simpl.
  apply wp_bind. unfold wp at 1. simpl.
  apply wp_bind. unfold wp at 1. rewrite staged_quiet, Hpart by done. simpl.
  rewrite Hstream, Z.eqb_refl. cbn [negb].
  apply wp_bind, wp_with_context. unfold wp at 1. rewrite read_quiet, Hpart by done. simpl.
  apply wp_bind. unfold wp at 1. erewrite decode_stream_carries by apply HP. simpl.
  rewrite Hraw, Z.eqb_refl. cbn [negb].
  apply wp_bind. eapply wp_mono; [by eapply store_quiet|].
  intros r w1 (v & -> & Hvd & Hvu & HR1 & Hok1 & Hw1 & Hb1). simpl.
  apply wp_bind. eapply wp_mono; [by eapply variant_quiet|].
  intros r w2 (-> & HR2 & Hok2). simpl.
  assert (Hw2 : faults w2 = []) by by apply (run_quiet _ _ _ _ _ _ HR2).
  apply wp_bind. eapply wp_mono; [by apply remove_quiet|].
  intros r w3 (-> & Hq3 & Hns). unfold wp. simpl. exists v. split_and!; [done|done|done|done| |].
  - by eapply quiet_store_ok.
  - rewrite (quiet_step_blob _ _ _ _ Hq3). by apply (run_keep _ _ _ _ _ _ HR2).
Qed.

(** ** The handler on a well-behaved client *)

Section Plan.
Context (d : string) (raw stream : bytes) (e : option string).
Context (Hplan : UploadPlan d raw stream e).

Abbreviation chunk_limit := SNAPSHOT_BLOB_DEFAULT_CHUNK_SIZE_BYTES.

(** The persisted state of this upload after [p]. *)
Record OwnState (st : PersistedBlobUploadState) (p : bytes) : Prop := {
  own_digest : us_digest st = d;
  own_raw : us_raw_size_bytes st = blen raw;
  own_stream : us_stream_size_bytes st = blen stream;
  own_chunk : us_chunk_size_bytes st = chunk_limit;
  own_encoding : us_selected_encoding st = e;
  own_sequence : 0 <= us_next_sequence st <= blen p;
}.

(** [p] is staged: either nothing was ever uploaded, or a session holds it. *)
Definition staged (p : bytes) (w : World) : Prop :=
  (p = [] /\ no_session d w) \/ (exists st, OwnState st p /\ SessionAt st p w).

(** What is true between messages while the blob is not stored. *)
Record Uploading (p : bytes) (w : World) : Prop := {
  up_staged : staged p w;
  up_prefix : p `prefix_of` stream;
  up_store : store_ok U dir (files w);
  up_absent : files w !! blob_file dir d "" = None;
}.

(** What is true once it is stored. *)
Record Stored (w : World) : Prop := {
  stored_quiet : faults w = [];
  stored_store : store_ok U dir (files w);
  stored_blob : files w !! blob_file dir d "" = Some raw;
}.

Lemma uploading_quiet p w : Uploading p w -> faults w = [].
Proof. intros [[[_ [? _]]|(st & _ & HS)] _ _ _]; [done|]. apply HS. Qed.

Lemma blen_prefix p q : p `prefix_of` q -> blen p <= blen q.
Proof. intros [r ->]. rewrite blen_app. pose proof (blen_nonneg r). lia. Qed.

Lemma prefix_full p q : p `prefix_of` q -> blen p = blen q -> p = q.
Proof.
  intros [r ->]. rewrite blen_app. intros Hl. assert (Hr : length r = 0%nat) by (unfold blen in Hl; lia).
  destruct r; [|done]. by rewrite app_nil_r.
Qed.

Lemma prepare_staged p w :
  Uploading p w ->
  wp (prepare_blob_upload_session dir d (blen raw) (blen stream) chunk_limit e)
     (fun r w' => exists st, r = Ok st /\ OwnState st p /\ SessionAt st p w' /\ Uploading p w' /\
        (p <> [] -> files w' !! part_at d = Some p)) w.
Proof.
  intros [Hst Hpre Hok Habs]. pose proof (blen_prefix _ _ Hpre) as Hle.
  destruct Hst as [[-> Hns]|(st & HO & HS)].
  - eapply wp_mono; [by apply prepare_fresh; [|pose proof (blen_nonneg stream)]|].
    intros r w' (-> & Hq & HS' & _). eexists. split; [done|].
    assert (HO : OwnState (fresh_state d (blen raw) (blen stream) chunk_limit e) []) by (split; done).
    split_and!; [done|done| |done]. split; [right; eauto|done|by eapply quiet_store_ok|].
    by rewrite (quiet_step_blob _ _ _ _ Hq).
  - destruct HO as [Hd Hr Hs Hc He Hseq].
    rewrite <- Hd, <- Hr, <- Hs, <- Hc, <- He.
    eapply wp_mono; [apply prepare_resumes; [exact HS|lia]|].
    intros r w' (-> & Hq & HS' & Hp'). exists st. split; [done|].
    assert (HO : OwnState st p) by (by split).
    split_and!; [done|done| |].
    + split; [right; eauto|done|by eapply quiet_store_ok|]. by rewrite (quiet_step_blob _ _ _ _ Hq).
    + intros Hne. pose proof (sa_part _ _ _ HS') as Hpp.
      destruct (files w' !! part_at (us_digest st)) as [b|]; simpl in Hpp; congruence.
Qed.

Lemma complete_stores st before wid n w :
  OwnState st stream -> SessionAt st stream w -> Uploading stream w ->
  wp (complete_upload dir before wid d n) (fun r w' =>
    r = Ok (closing (before ++ [UploadComplete SNAPSHOT_BLOB_PROTOCOL_VERSION wid d true]) (Some (n, true))) /\
    Stored w') w.
Proof.
  intros HO HS HU. pose proof HO as [Hd Hr Hs Hc He _].
  assert (Hpart : files w !! part_at (us_digest st) = Some stream).
  { pose proof (sa_part _ _ _ HS) as Hpp. pose proof (plan_nonempty _ _ _ _ Hplan).
    destruct (files w !! part_at (us_digest st)) as [b|]; simpl in Hpp; congruence. }
  unfold complete_upload. apply wp_try. rewrite <- Hd.
  eapply wp_mono.
  { apply (finalize_stores st raw stream w); [by rewrite Hd, He|done|done|done|done|apply HU]. }
  intros r w' (v & -> & Hvd & Hvu & Hns & Hok & Hb). simpl.
  rewrite Hd in Hvu. rewrite (up_absent _ _ HU) in Hvu. simpl in Hvu. unfold wp. simpl. rewrite Hvd, Hvu.
  split; [done|]. split; [apply Hns|done|by rewrite <- Hd].
Qed.

(** The [upload_init] of this upload. *)
Record OwnInit (init : UploadInit) : Prop := {
  init_version : ui_version init = SNAPSHOT_BLOB_PROTOCOL_VERSION;
  init_digest : ui_digest init = d;
  init_total : ui_total_size_bytes init = blen raw;
  init_chunk : ui_chunk_size_bytes init = chunk_limit;
  init_encoding : select_upload_encoding (blen raw) (ui_capability_flags init) (ui_offered_encodings init)
                  = Ok (e, blen stream);
}.

Definition own_session (wid : Uuid) (seq received : Z) : BlobUploadSession := {|
  bus_workorder_id := wid; bus_digest := d; bus_raw_size_bytes := blen raw;
  bus_stream_size_bytes := blen stream; bus_chunk_size_bytes := chunk_limit;
  bus_selected_encoding := e; bus_next_sequence := seq; bus_received_bytes := received |}.

Lemma has_blob_quiet w :
  faults w = [] -> store_ok U dir (files w) ->
  wp (has_blob dir d) (fun r w' => r = Ok (is_some (files w !! blob_file dir d "")) /\
    faults w' = [] /\ files w' = files w) w.
Proof.
  intros Hw Hok. assert (Hv : valid_digest d) by by eapply plan_valid.
  eapply wp_mono; [apply (wp_has_blob U); [done|apply store_ok_good; auto using quiet_links]|].
  intros r w' (HR & Hfs & _ & Hq). split_and!; [by apply Hq| |done].
  by apply (run_quiet _ _ _ _ _ _ HR).
Qed.

Lemma same_files_uploading p w w' :
  Uploading p w -> files w' = files w -> faults w' = [] -> Uploading p w'.
Proof.
  intros [Hst Hpre Hok Habs] Hf Hw. split; try done; try by rewrite Hf.
  destruct Hst as [[-> (_ & Hm & Hp)]|(st & HO & [Hw' Hm Hp Hr Ho Hs])].
  - left. split; [done|]. split_and!; [done|by rewrite Hf..].
  - right. exists st. split; [done|]. split; try done; by rewrite Hf.
Qed.

(** The three outcomes of [upload_init] for an upload in progress: it completes
    (everything had already arrived), it resumes after [p], or the reply is lost. *)
Lemma init_uploading init dl p w :
  OwnInit init -> Uploading p w ->
  wp (handle_upload_init dir init dl) (fun r w' => exists rx, r = Ok rx /\
    if bool_decide (p = stream) then
      rx = closing [UploadComplete SNAPSHOT_BLOB_PROTOCOL_VERSION (ui_workorder_id init) d true]
             (Some (blen raw, true)) /\ Stored w'
    else Uploading p w' /\
      if dl then exists st, OwnState st p /\ SessionAt st p w' /\
        rx = {| sent := [UploadResume SNAPSHOT_BLOB_PROTOCOL_VERSION (ui_workorder_id init) d (blen p)
                           (us_next_sequence st) e (blen stream)];
                session := Some (own_session (ui_workorder_id init) (us_next_sequence st) (blen p));
                recorded := None |}
      else rx = closing [] None) w.
Proof.
  intros [Hver Hdig Htot Hch Hsel] HU. pose proof (uploading_quiet _ _ HU) as Hw.
  unfold handle_upload_init. rewrite Hver, Hch, Hdig, Htot, Hsel, !Z.eqb_refl. cbn [negb].
  apply wp_try. eapply wp_mono; [apply has_blob_quiet; [done|apply HU]|].
  intros r w1 (-> & Hw1 & Hf1). rewrite (up_absent _ _ HU). cbn [is_some].
  assert (HU1 : Uploading p w1) by by eapply same_files_uploading.
  unfold start_session. rewrite Hdig, Htot, Hch. apply wp_try. eapply wp_mono; [by apply prepare_staged|].
  intros r w2 (st & -> & HO & HS & HU2 & _).
  rewrite (sa_received _ _ _ HS), (sa_offset _ _ _ HS), (own_encoding _ _ HO), (own_stream _ _ HO).
  case_bool_decide as Hfull.
  - subst p. rewrite Z.eqb_refl. eapply wp_mono; [by apply (complete_stores st)|].
    intros r w3 [-> Hst]. by eexists.
  - destruct (Z.eqb_spec (blen p) (blen stream)) as [Hl|_].
    { by destruct Hfull; apply prefix_full; [apply HU|]. }
    destruct dl; cbn [negb]; [|by eexists]. simpl.
    assert (blen stream <> 0).
    { pose proof (plan_nonempty _ _ _ _ Hplan). destruct stream; [done|unfold blen; simpl; lia]. }
    destruct (Z.eqb_spec (blen stream) 0); [done|]. unfold wp. simpl.
    eexists. split; [done|]. split; [done|]. exists st. by split_and!.
Qed.

(** An [upload_init] for a blob that is stored is answered at once. *)
Lemma init_stored init dl w :
  OwnInit init -> Stored w ->
  wp (handle_upload_init dir init dl) (fun r w' =>
    r = Ok (closing [UploadComplete SNAPSHOT_BLOB_PROTOCOL_VERSION (ui_workorder_id init) d false]
              (Some (blen raw, false))) /\ Stored w') w.
Proof.
  intros [Hver Hdig Htot Hch Hsel] [Hw Hok Hb].
  unfold handle_upload_init. rewrite Hver, Hch, Hdig, Htot, Hsel, !Z.eqb_refl. cbn [negb].
  apply wp_try. eapply wp_mono; [by apply has_blob_quiet|].
  intros r w1 (-> & Hw1 & Hf1). rewrite Hb. cbn [is_some].
  apply wp_try. eapply wp_mono; [by apply remove_quiet|].
  intros r w2 (-> & Hq & _). unfold wp. simpl. split; [done|]. split.
  - apply Hq.
  - eapply quiet_store_ok; [done|by rewrite Hf1].
  - by rewrite (quiet_step_blob _ _ _ _ Hq), Hf1.
Qed.

(** One chunk frame of the client. *)
Lemma chunk_frame_step `{!Adler32Laws} st p c wid frame dl w :
  OwnState st p -> SessionAt st p w -> Uploading p w ->
  c <> [] -> blen c <= chunk_limit -> (p ++ c) `prefix_of` stream ->
  encode_with_payload (from_payload (us_next_sequence st) (blen p) c) c = Ok frame ->
  wp (handle_chunk_frame dir (own_session wid (us_next_sequence st) (blen p)) frame dl)
    (fun r w' => exists rx, r = Ok rx /\
      let ack := UploadAck SNAPSHOT_BLOB_PROTOCOL_VERSION wid d (us_next_sequence st) (blen p) (blen c)
                   (blen (p ++ c)) in
      if negb dl then rx = closing [] None /\ Uploading (p ++ c) w'
      else if bool_decide (p ++ c = stream) then
        rx = closing [ack; UploadComplete SNAPSHOT_BLOB_PROTOCOL_VERSION wid d true] (Some (blen raw, true)) /\
        Stored w'
      else exists st', OwnState st' (p ++ c) /\ SessionAt st' (p ++ c) w' /\ Uploading (p ++ c) w' /\
        us_next_sequence st' = us_next_sequence st + 1 /\
        rx = {| sent := [ack];
                session := Some (own_session wid (us_next_sequence st') (blen (p ++ c))); recorded := None |}) w.
Proof.
  intros HO HS HU Hne Hlim Hpre Henc. pose proof HO as [Hd Hr Hs Hc He Hseq].
  pose proof (blen_prefix _ _ Hpre) as Hle. rewrite blen_app in Hle.
  pose proof (blen_nonneg p). pose proof (blen_nonneg c). pose proof (plan_u64 _ _ _ _ Hplan) as Hmax.
  assert (Hcpos : 0 < blen c) by (destruct c; [done|unfold blen; simpl; lia]).
  assert (Hdec : decode frame = Ok (from_payload (us_next_sequence st) (blen p) c, c)).
  { apply encode_with_payload_Ok in Henc as (_ & _ & ->).
    cbn [from_payload sequence offset_bytes payload_size_bytes payload_checksum].
    rewrite decode_frame_of by (unfold u64_ok; lia || apply adler32_u32). by rewrite !Z.eqb_refl. }
  assert (Hsat : u64_saturating_add (us_next_sequence st) 1 = us_next_sequence st + 1).
  { unfold u64_saturating_add. lia. }
  unfold handle_chunk_frame. rewrite Hdec. simpl. rewrite !Z.eqb_refl. cbn [negb].
  destruct (Z.ltb_spec chunk_limit (blen c)); [lia|].
  replace (u64_saturating_add (blen p) (blen c)) with (blen p + blen c) by (unfold u64_saturating_add; lia).
  destruct (Z.ltb_spec (blen stream) (blen p + blen c)); [lia|].
  apply wp_try. rewrite <- Hd, <- Hr, <- Hs, <- Hc, <- He.
  eapply wp_mono; [apply (append_extends st p c w HS Hne); lia|].
  intros r w' (-> & Hq & HS' & Hpart). rewrite Hsat in *. rewrite ?Hd, ?Hr, ?Hs, ?Hc, ?He.
  set (st' := with_progress _ _ st) in *.
  assert (HO' : OwnState st' (p ++ c)).
  { split; try done. simpl. rewrite blen_app. lia. }
  assert (HU' : Uploading (p ++ c) w').
  { split; [right; eauto|done|eapply quiet_store_ok; [done|apply HU]|].
    rewrite (quiet_step_blob _ _ _ _ Hq). apply HU. }
  cbn [with_received bus_received_bytes bus_stream_size_bytes us_received_bytes].
  destruct dl; cbn [negb]; [|by eexists].
  case_bool_decide as Hfull.
  - change (us_received_bytes st') with (blen (p ++ c)). rewrite Hfull in HO', HS', HU' |- *.
    rewrite Z.eqb_refl. eapply wp_mono; [by apply (complete_stores st')|].
    intros r w2 [-> Hst]. by eexists.
  - change (us_received_bytes st') with (blen (p ++ c)).
    destruct (Z.eqb_spec (blen (p ++ c)) (blen stream)) as [Hl|_].
    { by destruct Hfull; apply prefix_full. }
    unfold wp. simpl. eexists. split; [done|]. exists st'. by split_and!.
Qed.

End Plan.
End Progress.

(** ** Uploads that cannot succeed *)

Section Stuck.
Context `{Sha256, !Sha256Laws, BlobMetadataCodec, Zstd, UploadStateCodec, !UploadStateCodecLaws, Adler32}.
Context (dir : path).

Lemma has_blob_absent d w :
  valid_digest d -> faults w = [] -> files w !! blob_file dir d "" = None ->
  has_blob dir d w = (Ok false, w).
Proof.
  intros Hv Hw Habs. unfold has_blob, bind, lift, try_, fs_metadata_len. rewrite blob_path_eq by done.
  unfold ret at 1. rewrite guarded_quiet by done. by rewrite Habs.
Qed.

(** The empty blob cannot be uploaded over the WebSocket: with nothing
    failing, the server answers a correct [upload_init] for it with
    [store_failed], because completing the upload reads a part file that no chunk
    ever created. *)
Theorem zero_length_upload_fails init dl w :
  ui_version init = SNAPSHOT_BLOB_PROTOCOL_VERSION ->
  ui_chunk_size_bytes init = SNAPSHOT_BLOB_DEFAULT_CHUNK_SIZE_BYTES ->
  ui_digest init = sha256_hex [] -> ui_total_size_bytes init = 0 ->
  ui_offered_encodings init = [] ->
  no_session dir (sha256_hex []) w -> files w !! blob_file dir (sha256_hex []) "" = None ->
  let '(r, w') := handle_upload_init dir init dl w in
  r = Ok (send_blob_upload_error (Some (ui_workorder_id init)) (Some (sha256_hex [])) "store_failed"
            ("Failed to read " +:+ display (blob_upload_session_part_path dir (sha256_hex [])))) /\
  files w' !! blob_file dir (sha256_hex []) "" = None.
Proof.
  intros Hver Hch Hd Ht Ho Hns Habs. set (d := sha256_hex []) in *.
  assert (Hv : valid_digest d) by apply sha256_hex_digits. pose proof Hns as (Hw & _ & _).
  unfold handle_upload_init, select_upload_encoding. rewrite Hver, Hch, Hd, Ht, Ho, !Z.eqb_refl. cbn [negb].
  replace (if existsb _ _ then _ else _) with (@Ok (option string * Z) Error (None, 0)) by by destruct (existsb _ _).
  unfold try_ at 1. rewrite has_blob_absent by done.
  unfold start_session, try_ at 1. rewrite Hd, Ht, Hch.
  pose proof (prepare_fresh dir d 0 0 SNAPSHOT_BLOB_DEFAULT_CHUNK_SIZE_BYTES None w Hns ltac:(lia)) as Hp.
  unfold wp in Hp. destruct (prepare_blob_upload_session _ _ _ _ _ _ w) as [r w1]. simpl in Hp.
  destruct Hp as (-> & Hq & HS & Hpart). pose proof (sa_quiet _ _ _ _ HS) as Hw1. simpl.
  unfold complete_upload, finalize_blob_upload_session, try_, bind, context, with_context.
  pose proof (sa_meta _ _ _ _ HS) as Hm. simpl in Hm.
  rewrite load_quiet, Hm, upload_state_roundtrip by done. simpl.
  rewrite staged_quiet, Hpart by done. simpl. rewrite read_quiet, Hpart by done. simpl.
  split; [done|]. by rewrite (quiet_step_blob _ _ _ _ _ Hq).
Qed.

(** A session in which as many bytes have arrived as were announced, but not the
    right ones. *)
Record Poisoned (d : string) (st : PersistedBlobUploadState) (p : bytes) (w : World) : Prop := {
  po_session : SessionAt dir st p w;
  po_part : files w !! blob_upload_session_part_path dir d = Some p;
  po_digest : us_digest st = d;
  po_valid : valid_digest d;
  po_stream : us_stream_size_bytes st = blen p;
  po_raw : us_raw_size_bytes st = blen p;
  po_encoding : us_selected_encoding st = None;
  po_wrong : sha256_hex p <> d;
  po_absent : files w !! blob_file dir d "" = None;
}.

Lemma poisoned_prepare d st p raw stream chunk e w :
  Poisoned d st p w ->
  wp (prepare_blob_upload_session dir d raw stream chunk e) (fun r w' => Poisoned d st p w' /\
    (r = Ok st /\ stream = blen p \/ is_ok r = false)) w.
Proof.
  intros HP. pose proof HP as [HS Hpart Hd Hv Hs Hr He Hne Habs]. subst d. pose proof (sa_quiet _ _ _ _ HS) as Hw.
  destruct (decide (us_raw_size_bytes st = raw /\ us_stream_size_bytes st = stream /\
    us_chunk_size_bytes st = chunk /\ us_selected_encoding st = e)) as [(<- & <- & <- & <-)|Hdiff].
  - eapply wp_mono; [apply prepare_resumes; [exact HS|lia]|].
    intros r w' (-> & Hq & HS' & Hp'). split; [|by left]. split; try done.
    + by rewrite Hp'.
    + by rewrite (quiet_step_blob _ _ _ _ _ Hq).
  - unfold prepare_blob_upload_session.
    apply wp_bind, wp_with_context. unfold wp at 1. rewrite create_dir_quiet by done. simpl.
    apply wp_bind. unfold wp at 1. pose proof (sa_meta _ _ _ _ HS) as Hm.
    rewrite load_quiet, Hm, upload_state_roundtrip by done. simpl.
    do 3 (case_match; [by split; [|right]|]). reflect_bools.
    case_bool_decide; [by destruct Hdiff|]. by split; [|right].
Qed.

Lemma poisoned_complete d st p wid n w :
  Poisoned d st p w ->
  wp (complete_upload dir [] wid d n) (fun r w' => Poisoned d st p w' /\
    exists msg, r = Ok (send_blob_upload_error (Some wid) (Some d) "store_failed" msg)) w.
Proof.
  intros HP. pose proof HP as [HS Hpart Hd Hv Hs Hr He Hne Habs]. pose proof (sa_quiet _ _ _ _ HS) as Hw.
  unfold wp, complete_upload, finalize_blob_upload_session, try_, bind, context, with_context.
  pose proof (sa_meta _ _ _ _ HS) as Hm. rewrite Hd in Hm.
  rewrite load_quiet, Hm, upload_state_roundtrip by done. simpl.
  rewrite staged_quiet, Hpart by done. simpl. rewrite Hs, Z.eqb_refl. simpl.
  rewrite read_quiet, Hpart by done. simpl. rewrite He. simpl. rewrite Hr, Z.eqb_refl. simpl.
  unfold store_blob_for_digest, bind. rewrite validate_digest_valid by done. simpl.
  rewrite bool_decide_false by done. simpl. split; [done|]. by eexists.
Qed.

(** A failed upload blocks its digest: once a session has received the
    announced number of bytes but not the bytes of its digest, every later
    [upload_init] for that digest is answered with an error and leaves the session
    as it was, although nothing fails and whatever the client then wants to send. *)
Theorem poisoned_session_is_permanent d st p init dl w :
  Poisoned d st p w -> ui_digest init = d ->
  let '(r, w') := handle_upload_init dir init dl w in
  Poisoned d st p w' /\
  exists code msg, r = Ok (send_blob_upload_error (Some (ui_workorder_id init)) (Some d) code msg).
Proof.
  intros HP Hd. pose proof HP as [HS _ _ Hv _ _ _ _ Habs]. pose proof (sa_quiet _ _ _ _ HS) as Hw.
  unfold handle_upload_init. rewrite Hd.
  destruct (negb (ui_version init =? _)); [by split; eauto|].
  destruct (negb (ui_chunk_size_bytes init =? _)); [by split; eauto|].
  destruct (select_upload_encoding _ _ _) as [[e n]|er]; [|by split; eauto].
  unfold try_ at 1. rewrite has_blob_absent by done.
  unfold start_session, try_ at 1. rewrite Hd.
  pose proof (poisoned_prepare d st p (ui_total_size_bytes init) n (ui_chunk_size_bytes init) e w HP) as Hp.
  unfold wp in Hp. destruct (prepare_blob_upload_session _ _ _ _ _ _ w) as [r w1]. simpl in Hp.
  destruct Hp as [HP1 [[-> ->]|Hr]]; [|destruct r; [done|by split; eauto]].
  rewrite (sa_received _ _ _ _ (po_session _ _ _ _ HP1)), Z.eqb_refl.
  pose proof (poisoned_complete d st p (ui_workorder_id init) (ui_total_size_bytes init) w1 HP1) as Hc.
  unfold wp in Hc. destruct (complete_upload _ _ _ _ _ w1) as [r w2]. simpl in Hc.
  destruct Hc as (HP2 & msg & ->). by split; eauto.
Qed.

End Stuck.

(** ** Concrete runs *)

#[global] Instance PersistedBlobUploadState_countable : Countable PersistedBlobUploadState.
Proof.
  refine (inj_countable'
    (fun s => (us_digest s, us_raw_size_bytes s, us_stream_size_bytes s, us_chunk_size_bytes s,
               us_selected_encoding s, us_next_sequence s, us_next_offset_bytes s, us_received_bytes s))
    (fun '(a, b, c, d, e, f, g, h) => {| us_digest := a; us_raw_size_bytes := b; us_stream_size_bytes := c;
       us_chunk_size_bytes := d; us_selected_encoding := e; us_next_sequence := f;
       us_next_offset_bytes := g; us_received_bytes := h |}) _).
  by intros [].
Defined.

Definition upload_codec_reference : UploadStateCodec := {|
  upload_state_to_vec s := to_bytes s;
  upload_state_from_slice b := of_bytes b;
|}.

Lemma upload_codec_reference_laws : @UploadStateCodecLaws upload_codec_reference.
Proof. intros s. apply of_to_bytes. Qed.

Definition demo_init (digest : string) (size : Z) : UploadInit := {|
  ui_version := 1; ui_workorder_id := 7; ui_digest := digest; ui_total_size_bytes := size;
  ui_chunk_size_bytes := SNAPSHOT_BLOB_DEFAULT_CHUNK_SIZE_BYTES;
  ui_capability_flags := []; ui_offered_encodings := [] |}.

Lemma upload_preserves_store_witness :
  @store_ok sha256_reference codec_reference zstd_reference (fun _ => True) demo_dir
    (files (snd (@handle_blob_upload_ws sha256_reference codec_reference zstd_reference
      upload_codec_reference adler32_reference demo_dir
      [(WsText (Ok (demo_init demo_digest 3)), true); (WsPing, true); (WsBinary [Byte.x00], true)]
      (demo_world demo_faults)))).
Proof.
  apply (@upload_preserves_store sha256_reference codec_reference
    codec_reference_laws zstd_reference zstd_reference_laws).
  - apply demo_store_ok.
  - apply demo_links.
Defined.

Lemma zero_length_upload_fails_witness :
  let '(r, w') := @handle_upload_init sha256_reference codec_reference zstd_reference
    upload_codec_reference demo_dir (demo_init (sha256_reference []) 0) true (demo_world []) in
  r = Ok (send_blob_upload_error (Some 7%N) (Some (sha256_reference [])) "store_failed"
            ("Failed to read " +:+ display (blob_upload_session_part_path demo_dir (sha256_reference [])))) /\
  files w' !! blob_file demo_dir (sha256_reference []) "" = None.
Proof.
  apply (@zero_length_upload_fails sha256_reference sha256_reference_laws codec_reference
    zstd_reference upload_codec_reference upload_codec_reference_laws
    demo_dir (demo_init (sha256_reference []) 0) true (demo_world []));
    try reflexivity. by split_and!.
Defined.

(** Three wrong bytes have arrived for [demo_digest]. *)
Definition wrong_blob : bytes := [Byte.x78; Byte.x79; Byte.x7a].
Definition wrong_state : PersistedBlobUploadState :=
  with_progress 1 3 (fresh_state demo_digest 3 3 SNAPSHOT_BLOB_DEFAULT_CHUNK_SIZE_BYTES None).
Definition poisoned_world : World := {|
  files := {[ blob_upload_session_meta_path demo_dir demo_digest :=
                @upload_state_to_vec upload_codec_reference wrong_state;
              blob_upload_session_part_path demo_dir demo_digest := wrong_blob ]};
  faults := []; next_uuid := 5; clock := 1000 |}.

Lemma poisoned_world_ok :
  @Poisoned sha256_reference upload_codec_reference demo_dir demo_digest wrong_state wrong_blob poisoned_world.
Proof.
  assert (Hpart : files poisoned_world !! blob_upload_session_part_path demo_dir demo_digest = Some wrong_blob).
  { unfold poisoned_world. cbn [files]. rewrite lookup_insert_ne by apply meta_ne_part. apply lookup_singleton_eq. }
  split; [|exact Hpart|exact eq_refl|apply (hex_of_digits 64)|exact eq_refl|exact eq_refl|exact eq_refl| |].
  - unfold poisoned_world. split; [exact eq_refl|apply lookup_insert_eq| |exact eq_refl|exact eq_refl|intros _; exact eq_refl].
    exact (f_equal (default []) Hpart).
  - vm_compute. discriminate.
  - unfold poisoned_world. cbn [files]. rewrite lookup_insert_ne, lookup_singleton_ne; [done|..]; intros He;
      apply (session_not_blob demo_dir demo_digest EmptyString); rewrite <- He; apply session_file_in.
Qed.

Lemma poisoned_session_is_permanent_witness :
  let '(r, w') := @handle_upload_init sha256_reference codec_reference zstd_reference
    upload_codec_reference demo_dir (demo_init demo_digest 3) true poisoned_world in
  @Poisoned sha256_reference upload_codec_reference demo_dir demo_digest wrong_state wrong_blob w' /\
  exists code msg, r = Ok (send_blob_upload_error (Some 7%N) (Some demo_digest) code msg).
Proof.
  apply (@poisoned_session_is_permanent sha256_reference codec_reference
    zstd_reference upload_codec_reference upload_codec_reference_laws demo_dir demo_digest
    wrong_state wrong_blob (demo_init demo_digest 3) true poisoned_world); [|reflexivity].
  apply poisoned_world_ok.
Defined.
