(* ===== verification/UploadClient.v ===== *)
(** * Blob upload, client side ([crates/cli/src/client.rs])

    [stream_upload_blob] connects, announces the blob, sends the chunks the server
    still misses in sizes chosen by an adaptive policy, and reconnects when the
    connection is lost.  The client runs here against the server of [Upload] over a
    connection that may lose any request or reply. *)

From S2P Require Import Prelude Types World Frame BlobStore Upload.

(** ** The chunk-size policy *)

Definition SNAPSHOT_BLOB_STREAM_MAX_CONNECTION_ATTEMPTS : nat := 4.
(** In milliseconds. *)
Definition SNAPSHOT_BLOB_STREAM_SLOW_ACK_THRESHOLD : Z := 150.
Definition SNAPSHOT_BLOB_STREAM_MIN_CHUNK_SIZE_BYTES : Z := 256 * 1024.
Definition SNAPSHOT_BLOB_STREAM_GROW_AFTER_HEALTHY_ACKS : Z := 2.

Record SnapshotBlobChunkPolicy := {
  current_chunk_size_bytes : Z;
  max_chunk_size_bytes : Z;
  min_chunk_size_bytes : Z;
  healthy_ack_streak : Z;
}.

Definition policy_new (max_chunk_size : Z) : SnapshotBlobChunkPolicy := {|
  current_chunk_size_bytes := max_chunk_size;
  max_chunk_size_bytes := max_chunk_size;
  min_chunk_size_bytes := Z.min SNAPSHOT_BLOB_STREAM_MIN_CHUNK_SIZE_BYTES (Z.max max_chunk_size 1);
  healthy_ack_streak := 0 |}.

Definition chunk_size_for_remaining (p : SnapshotBlobChunkPolicy) (remaining : Z) : Z :=
  Z.min (current_chunk_size_bytes p) (Z.max remaining 1).

Definition with_current (c : Z) (p : SnapshotBlobChunkPolicy) : SnapshotBlobChunkPolicy := {|
  current_chunk_size_bytes := c; max_chunk_size_bytes := max_chunk_size_bytes p;
  min_chunk_size_bytes := min_chunk_size_bytes p; healthy_ack_streak := healthy_ack_streak p |}.
Definition with_streak (n : Z) (p : SnapshotBlobChunkPolicy) : SnapshotBlobChunkPolicy := {|
  current_chunk_size_bytes := current_chunk_size_bytes p; max_chunk_size_bytes := max_chunk_size_bytes p;
  min_chunk_size_bytes := min_chunk_size_bytes p; healthy_ack_streak := n |}.

Definition shrink (p : SnapshotBlobChunkPolicy) : SnapshotBlobChunkPolicy :=
  with_current (Z.max (current_chunk_size_bytes p / 2) (min_chunk_size_bytes p)) p.

Definition grow (p : SnapshotBlobChunkPolicy) : SnapshotBlobChunkPolicy :=
  with_current (Z.max (Z.min ((current_chunk_size_bytes p * 2) mod u64_modulus) (max_chunk_size_bytes p))
                  (min_chunk_size_bytes p)) p.

Definition on_ack (ack_latency : Z) (p : SnapshotBlobChunkPolicy) : SnapshotBlobChunkPolicy :=
  if SNAPSHOT_BLOB_STREAM_SLOW_ACK_THRESHOLD <=? ack_latency then with_streak 0 (shrink p)
  else
  let p := with_streak (healthy_ack_streak p + 1) p in
  if SNAPSHOT_BLOB_STREAM_GROW_AFTER_HEALTHY_ACKS <=? healthy_ack_streak p
  then with_streak 0 (grow p) else p.

Definition on_reconnect (p : SnapshotBlobChunkPolicy) : SnapshotBlobChunkPolicy := with_streak 0 (shrink p).

(** ** Payloads and envelopes *)

Record SnapshotBlobUploadPayload := {
  pl_raw_bytes : bytes;
  pl_zstd_bytes : option bytes;
  pl_offered_encodings : list SnapshotBlobEncodingOffer;
}.

(** A client error is the text [{error:#}] prints. *)
Abbreviation CliResult A := (Result A string).

Definition prepare_upload_payload `{Zstd} (b : bytes) : CliResult SnapshotBlobUploadPayload :=
  match encode_zstd_if_worthwhile b with
  | Err _ => Err "zstd"
  | Ok None => Ok {| pl_raw_bytes := b; pl_zstd_bytes := None; pl_offered_encodings := [] |}
  | Ok (Some compressed) =>
      Ok {| pl_raw_bytes := b; pl_zstd_bytes := Some compressed;
            pl_offered_encodings := [{| offer_encoding := SNAPSHOT_BLOB_ENCODING_ZSTD;
                                        offer_size_bytes := blen compressed |}] |}
  end.

Definition payload_for_selected_encoding (pl : SnapshotBlobUploadPayload) (selected : option string) :
    CliResult bytes :=
  match selected with
  | None => Ok (pl_raw_bytes pl)
  | Some e =>
      if bool_decide (e = SNAPSHOT_BLOB_ENCODING_ZSTD) then
        ok_or (pl_zstd_bytes pl) "server selected zstd upload without a prepared zstd payload"
      else Err ("Blob stream server selected unsupported upload encoding '" +:+ e +:+ "'")
  end.

Definition validate_blob_upload_envelope (version : Z) (wid : Uuid) (digest response_digest : string)
    (response_wid : option Uuid) : CliResult unit :=
  if negb (version =? SNAPSHOT_BLOB_PROTOCOL_VERSION) then
    Err ("Blob stream protocol version mismatch for " +:+ digest +:+ ": expected "
         +:+ pretty SNAPSHOT_BLOB_PROTOCOL_VERSION +:+ ", got " +:+ pretty version)
  else if negb (bool_decide (response_digest = digest)) then
    Err ("Blob stream digest mismatch: expected " +:+ digest +:+ ", got " +:+ response_digest)
  else if negb (bool_decide (response_wid = Some wid)) then
    Err ("Blob stream workorder ID mismatch: expected " +:+ pretty wid)
  else Ok tt.

(** [haystack.contains(needle)] *)
Fixpoint contains_str (needle haystack : string) : bool :=
  starts_with needle haystack ||
  match haystack with EmptyString => false | String _ r => contains_str needle r end.

Definition is_retryable_blob_stream_error (error : string) : bool :=
  let message := lowercase error in
  contains_str "failed to connect to snapshot blob stream" message
  || contains_str "failed to send blob chunk" message
  || contains_str "blob stream read failed" message
  || contains_str "blob stream closed unexpectedly" message
  || contains_str "blob stream closed before completing upload" message
  || contains_str "timed out waiting for blob upload control frame" message.

(** ** The upload loop *)

(** What the connection does to one request and its replies. *)
Inductive Exchange := Deliver | LostRequest | LostReply | LostCompletion.

Definition reply_delivered (x : Exchange) : bool := match x with LostReply => false | _ => true end.
Definition received (x : Exchange) (ms : list SnapshotBlobServerControlMessage) :
    list SnapshotBlobServerControlMessage :=
  match x with Deliver => ms | LostCompletion => take 1 ms | LostRequest | LostReply => [] end.

(** [recv_blob_upload_control]: the next control message, or the error of a
    connection that was closed. *)
Definition recv_blob_upload_control (digest : string) (inbox : list SnapshotBlobServerControlMessage) :
    CliResult (SnapshotBlobServerControlMessage * list SnapshotBlobServerControlMessage) :=
  match inbox with
  | [] => Err ("Blob stream closed unexpectedly while uploading " +:+ digest)
  | m :: rest => Ok (m, rest)
  end.

(** After the last chunk: wait for [upload_complete]. *)
Definition await_completion (wid : Uuid) (digest : string) (inbox : list SnapshotBlobServerControlMessage) :
    CliResult bool :=
  let? (m, _) := recv_blob_upload_control digest inbox in
  match m with
  | UploadComplete version rwid rdigest uploaded =>
      let? _ := validate_blob_upload_envelope version wid digest rdigest (Some rwid) in Ok uploaded
  | UploadError _ _ _ code message =>
      Err ("Blob stream upload failed while completing " +:+ digest +:+ " (" +:+ code +:+ "): " +:+ message)
  | _ => Err ("Unexpected blob upload completion frame for " +:+ digest)
  end.

(** What the client checks of an [upload_ack]; it goes on at the acknowledged
    offset. *)
Definition check_ack (wid : Uuid) (digest : string) (next_sequence next_offset : Z) (chunk : bytes)
    (m : SnapshotBlobServerControlMessage) : CliResult Z :=
  match m with
  | UploadAck version rwid rdigest seq offset size received_bytes =>
      let? _ := validate_blob_upload_envelope version wid digest rdigest (Some rwid) in
      if negb (seq =? next_sequence) then
        Err ("Blob stream ack sequence mismatch for " +:+ digest +:+ ": expected "
             +:+ pretty next_sequence +:+ ", got " +:+ pretty seq)
      else if negb (offset =? next_offset) then
        Err ("Blob stream ack offset mismatch for " +:+ digest +:+ ": expected "
             +:+ pretty next_offset +:+ ", got " +:+ pretty offset)
      else if negb (size =? blen chunk) then
        Err ("Blob stream ack size mismatch for " +:+ digest +:+ ": expected "
             +:+ pretty (blen chunk) +:+ ", got " +:+ pretty size)
      else Ok received_bytes
  | UploadError _ _ _ code message =>
      Err ("Blob stream upload failed while sending " +:+ digest +:+ " chunk "
           +:+ pretty next_sequence +:+ " (" +:+ code +:+ "): " +:+ message)
  | _ => Err ("Unexpected blob upload control frame after chunk " +:+ pretty next_sequence
              +:+ " for " +:+ digest)
  end.

Section Client.
Context `{Sha256, BlobMetadataCodec, Zstd, UploadStateCodec, Adler32}.
Context (dir : path).

(** One chunk: send the frame, let the server handle it, read the reply.  The
    result is the acknowledged offset, the server's session and the messages that
    are still unread. *)
Definition send_chunk (x : Exchange) (wid : Uuid) (digest : string)
    (s : option BlobUploadSession) (next_sequence next_offset : Z) (chunk : bytes) (w : World) :
    CliResult (Z * option BlobUploadSession * list SnapshotBlobServerControlMessage) * World :=
  match encode_with_payload (from_payload next_sequence next_offset chunk) chunk with
  | Err _ => (Err "Failed to encode snapshot chunk frame", w)
  | Ok frame =>
      match x, s with
      | LostRequest, _ =>
          (Err ("Failed to send blob chunk " +:+ pretty next_sequence +:+ " for " +:+ digest), w)
      | _, None => (Err ("Blob stream closed unexpectedly while uploading " +:+ digest), w)
      | _, Some s =>
          match handle_chunk_frame dir s frame (reply_delivered x) w with
          | (Err _, w') => (Err ("Blob stream read failed while uploading " +:+ digest), w')
          | (Ok rx, w') =>
              ((let? (m, rest) := recv_blob_upload_control digest (received x (sent rx)) in
                let? offset := check_ack wid digest next_sequence next_offset chunk m in
                Ok (offset, session rx, rest)), w')
          end
      end
  end.

(** The [while next_offset < selected_bytes.len()] loop; [net] and [lat] give what
    happens to the i-th exchange and how long its acknowledgement takes.  [fuel]
    bounds the number of chunks. *)
Fixpoint send_chunks (fuel : nat) (net : nat -> Exchange) (lat : nat -> Z) (i : nat) (wid : Uuid)
    (digest : string) (selected : bytes) (s : option BlobUploadSession)
    (inbox : list SnapshotBlobServerControlMessage) (policy : SnapshotBlobChunkPolicy)
    (next_offset next_sequence : Z) (w : World) :
    CliResult bool * SnapshotBlobChunkPolicy * World :=
  if next_offset <? blen selected then
    match fuel with
    | O => (Err "out of fuel", policy, w)
    | S fuel =>
        let size := chunk_size_for_remaining policy (blen selected - next_offset) in
        let chunk := slice (Z.to_nat next_offset) (Z.to_nat (next_offset + size)) selected in
        match send_chunk (net i) wid digest s next_sequence next_offset chunk w with
        | (Err e, w') => (Err e, policy, w')
        | (Ok (offset, s', inbox'), w') =>
            send_chunks fuel net lat (S i) wid digest selected s' inbox' (on_ack (lat i) policy)
              offset (next_sequence + 1) w'
        end
    end
  else (await_completion wid digest inbox, policy, w).

Definition upload_init_for (wid : Uuid) (digest : string) (b : bytes) (pl : SnapshotBlobUploadPayload) :
    UploadInit := {|
  ui_version := SNAPSHOT_BLOB_PROTOCOL_VERSION; ui_workorder_id := wid; ui_digest := digest;
  ui_total_size_bytes := blen b; ui_chunk_size_bytes := SNAPSHOT_BLOB_DEFAULT_CHUNK_SIZE_BYTES;
  ui_capability_flags := map offer_encoding (pl_offered_encodings pl);
  ui_offered_encodings := pl_offered_encodings pl |}.

(** A connection that was established: [x] is what happens to [upload_init]. *)
Definition run_connection (x : Exchange) (net : nat -> Exchange) (lat : nat -> Z) (wid : Uuid)
    (digest : string) (b : bytes) (pl : SnapshotBlobUploadPayload) (policy : SnapshotBlobChunkPolicy)
    (w : World) : CliResult bool * SnapshotBlobChunkPolicy * World :=
  match handle_upload_init dir (upload_init_for wid digest b pl) (reply_delivered x) w with
  | (Err _, w') => (Err ("Blob stream read failed while uploading " +:+ digest), policy, w')
  | (Ok rx, w') =>
      match recv_blob_upload_control digest (received x (sent rx)) with
      | Err e => (Err e, policy, w')
      | Ok (UploadResume version rwid rdigest offset seq encoding expected, rest) =>
          match
            let? _ := validate_blob_upload_envelope version wid digest rdigest (Some rwid) in
            let? selected := payload_for_selected_encoding pl encoding in
            if negb (expected =? blen selected) then
              Err ("Blob stream server selected an unexpected payload length for " +:+ digest
                   +:+ ": expected " +:+ pretty (blen selected) +:+ ", got " +:+ pretty expected)
            else Ok selected
          with
          | Err e => (Err e, policy, w')
          | Ok selected =>
              send_chunks (length selected) net lat 1 wid digest selected (session rx) rest
                policy offset seq w'
          end
      | Ok (UploadError _ _ _ code message, _) =>
          (Err ("Blob stream upload failed during init (" +:+ code +:+ "): " +:+ message), policy, w')
      | Ok (UploadComplete version rwid rdigest uploaded, _) =>
          ((let? _ := validate_blob_upload_envelope version wid digest rdigest (Some rwid) in
            Ok uploaded), policy, w')
      | Ok (_, _) => (Err "Unexpected blob upload control frame before streaming", policy, w')
      end
  end.

(** One connection attempt. *)
Definition upload_attempt (net : nat -> Exchange) (lat : nat -> Z) (url : string) (wid : Uuid)
    (digest : string) (b : bytes) (pl : SnapshotBlobUploadPayload) (policy : SnapshotBlobChunkPolicy)
    (w : World) : CliResult bool * SnapshotBlobChunkPolicy * World :=
  match net 0%nat with
  | LostRequest => (Err ("Failed to connect to snapshot blob stream " +:+ url), policy, w)
  | x => run_connection x net lat wid digest b pl policy w
  end.

(** The [for attempt in 1..=attempts] loop, [remaining] attempts before its end. *)
Fixpoint upload_attempts (remaining : nat) (nets : nat -> nat -> Exchange) (lats : nat -> nat -> Z)
    (url : string) (wid : Uuid) (digest : string) (b : bytes) (pl : SnapshotBlobUploadPayload)
    (attempt : nat) (policy : SnapshotBlobChunkPolicy) (w : World) : CliResult bool * World :=
  match remaining with
  | O => (Err ("snapshot blob stream loop ended unexpectedly for " +:+ digest), w)
  | S remaining =>
      match upload_attempt (nets attempt) (lats attempt) url wid digest b pl policy w with
      | (Ok uploaded, _, w') => (Ok uploaded, w')
      | (Err e, policy', w') =>
          if negb (Nat.eqb remaining 0) && is_retryable_blob_stream_error e then
            upload_attempts remaining nets lats url wid digest b pl (S attempt) (on_reconnect policy') w'
          else
            (Err ("Failed to stream snapshot blob " +:+ digest +:+ " after "
                  +:+ pretty SNAPSHOT_BLOB_STREAM_MAX_CONNECTION_ATTEMPTS +:+ " connection attempt(s): " +:+ e), w')
      end
  end.

Definition stream_upload_blob (nets : nat -> nat -> Exchange) (lats : nat -> nat -> Z) (url : string)
    (wid : Uuid) (digest : string) (b : bytes) (w : World) : CliResult bool * World :=
  let attempts := Nat.max SNAPSHOT_BLOB_STREAM_MAX_CONNECTION_ATTEMPTS 1 in
  match prepare_upload_payload b with
  | Err e => (Err e, w)
  | Ok pl =>
      upload_attempts attempts nets lats url wid digest b pl 1
        (policy_new SNAPSHOT_BLOB_DEFAULT_CHUNK_SIZE_BYTES) w
  end.

End Client.

(** ** The policy stays within its bounds *)

Record policy_ok (p : SnapshotBlobChunkPolicy) : Prop := {
  policy_min : 1 <= min_chunk_size_bytes p;
  policy_low : min_chunk_size_bytes p <= current_chunk_size_bytes p;
  policy_high : current_chunk_size_bytes p <= max_chunk_size_bytes p;
  policy_max : max_chunk_size_bytes p <= SNAPSHOT_BLOB_DEFAULT_CHUNK_SIZE_BYTES;
}.

Lemma policy_new_ok n : 1 <= n <= SNAPSHOT_BLOB_DEFAULT_CHUNK_SIZE_BYTES -> policy_ok (policy_new n).
Proof. unfold SNAPSHOT_BLOB_DEFAULT_CHUNK_SIZE_BYTES. intros Hn. split; simpl; unfold SNAPSHOT_BLOB_STREAM_MIN_CHUNK_SIZE_BYTES, SNAPSHOT_BLOB_DEFAULT_CHUNK_SIZE_BYTES; lia. Qed.

Lemma shrink_ok p : policy_ok p -> policy_ok (shrink p).
Proof.
  intros [H1 H2 H3 H4]. split; simpl; try done.
  - lia.
  - pose proof (Z.div_lt (current_chunk_size_bytes p) 2). lia.
Qed.

Lemma grow_ok p : policy_ok p -> policy_ok (grow p).
Proof. intros [H1 H2 H3 H4]. split; simpl; try done; lia. Qed.

Lemma with_streak_ok n p : policy_ok p -> policy_ok (with_streak n p).
Proof. by intros []. Qed.

Lemma on_ack_ok l p : policy_ok p -> policy_ok (on_ack l p).
Proof.
  intros Hp. unfold on_ack. case_match; [auto using with_streak_ok, shrink_ok|].
  case_match; auto using with_streak_ok, grow_ok.
Qed.

Lemma on_reconnect_ok p : policy_ok p -> policy_ok (on_reconnect p).
Proof. intros Hp. unfold on_reconnect. auto using with_streak_ok, shrink_ok. Qed.

Lemma chunk_size_bounds p n :
  policy_ok p -> 1 <= n ->
  1 <= chunk_size_for_remaining p n <= Z.min n SNAPSHOT_BLOB_DEFAULT_CHUNK_SIZE_BYTES.
Proof. intros [H1 H2 H3 H4] Hn. unfold chunk_size_for_remaining. lia. Qed.

(** Events the policy reacts to. *)
Inductive PolicyEvent := Acked (latency : Z) | Reconnected.
Definition policy_step (p : SnapshotBlobChunkPolicy) (ev : PolicyEvent) : SnapshotBlobChunkPolicy :=
  match ev with Acked l => on_ack l p | Reconnected => on_reconnect p end.

Lemma policy_steps_ok evs p : policy_ok p -> policy_ok (fold_left policy_step evs p).
Proof.
  revert p. induction evs as [|[l|] evs IH]; intros p Hp; simpl; [done|..]; apply IH;
    auto using on_ack_ok, on_reconnect_ok.
Qed.

(** After any history of acknowledgements and reconnects the next chunk is
    never empty, never longer than what is left to send, and never longer than the
    10 MiB the server accepts. *)
Theorem chunk_policy_bounds evs remaining :
  1 <= remaining ->
  let p := fold_left policy_step evs (policy_new SNAPSHOT_BLOB_DEFAULT_CHUNK_SIZE_BYTES) in
  1 <= chunk_size_for_remaining p remaining <= Z.min remaining SNAPSHOT_BLOB_DEFAULT_CHUNK_SIZE_BYTES.
Proof.
  intros Hr p. apply chunk_size_bounds; [|done]. apply policy_steps_ok, policy_new_ok.
  unfold SNAPSHOT_BLOB_DEFAULT_CHUNK_SIZE_BYTES. lia.
Qed.

Lemma chunk_policy_bounds_witness :
  1 <= chunk_size_for_remaining (fold_left policy_step [Acked 10; Acked 200; Reconnected]
         (policy_new SNAPSHOT_BLOB_DEFAULT_CHUNK_SIZE_BYTES)) 5000000
    <= Z.min 5000000 SNAPSHOT_BLOB_DEFAULT_CHUNK_SIZE_BYTES.
Proof. apply chunk_policy_bounds. lia. Defined.

(** ** Retryable errors *)

Lemma contains_prefix a b : contains_str a (a +:+ b) = true.
Proof.
  assert (Hs : starts_with a (a +:+ b) = true).
  { unfold starts_with. apply bool_decide_eq_true. rewrite strip_prefix_app. by eexists. }
  destruct (a +:+ b); cbn [contains_str]; by rewrite Hs.
Qed.

Lemma closed_retryable d :
  is_retryable_blob_stream_error ("Blob stream closed unexpectedly while uploading " +:+ d) = true.
Proof.
  unfold is_retryable_blob_stream_error. rewrite lowercase_app.
  change (lowercase "Blob stream closed unexpectedly while uploading ")
    with ("blob stream closed unexpectedly" +:+ " while uploading ").
  rewrite (string_app_assoc _ " while uploading "), (contains_prefix "blob stream closed unexpectedly").
  by rewrite !orb_true_r.
Qed.

Lemma send_retryable x : is_retryable_blob_stream_error ("Failed to send blob chunk " +:+ x) = true.
Proof.
  unfold is_retryable_blob_stream_error. rewrite lowercase_app.
  change (lowercase "Failed to send blob chunk ") with ("failed to send blob chunk" +:+ " ").
  rewrite (string_app_assoc _ " "), (contains_prefix "failed to send blob chunk"). by rewrite !orb_true_r.
Qed.

Lemma connect_retryable x :
  is_retryable_blob_stream_error ("Failed to connect to snapshot blob stream " +:+ x) = true.
Proof.
  unfold is_retryable_blob_stream_error. rewrite lowercase_app.
  change (lowercase "Failed to connect to snapshot blob stream ")
    with ("failed to connect to snapshot blob stream" +:+ " ").
  rewrite (string_app_assoc _ " "), (contains_prefix "failed to connect to snapshot blob stream"). done.
Qed.

Lemma envelope_ok wid d :
  validate_blob_upload_envelope SNAPSHOT_BLOB_PROTOCOL_VERSION wid d d (Some wid) = Ok tt.
Proof. unfold validate_blob_upload_envelope. by rewrite !bool_decide_true. Qed.

(** ** Delivery *)

Section Delivery.
Context `{Sha256, !Sha256Laws, BlobMetadataCodec, !BlobMetadataCodecLaws, Zstd, !ZstdLaws,
  UploadStateCodec, !UploadStateCodecLaws, Adler32, !Adler32Laws}.
Context (dir : path) (U : bytes -> Prop).
Context (d : string) (raw stream : bytes) (e : option string).
Context (Hplan : UploadPlan U d raw stream e).

Abbreviation Uploading := (Uploading dir U d raw stream e).
Abbreviation Stored := (Stored dir U d raw).
Abbreviation OwnState := (OwnState d raw stream e).

(** The upload is under way or done. *)
Definition UnderWay (w : World) : Prop := (exists p, Uploading p w) \/ Stored w.

(** What one attempt achieves: it succeeds with the blob stored, or it fails with a
    retryable error and the upload is still under way; it succeeds if [reliable]. *)
Definition attempt_ok (reliable : Prop) (r : CliResult bool) (w' : World) : Prop :=
  match r with
  | Ok _ => Stored w'
  | Err er => UnderWay w' /\ is_retryable_blob_stream_error er = true /\ ~ reliable
  end.

Lemma next_chunk p n :
  p `prefix_of` stream -> 1 <= n <= blen stream - blen p ->
  let c := slice (Z.to_nat (blen p)) (Z.to_nat (blen p + n)) stream in
  c <> [] /\ blen c = n /\ (p ++ c) `prefix_of` stream.
Proof.
  intros [q Hq] Hn c. rewrite Hq in Hn. rewrite blen_app in Hn. unfold blen in Hn, c |- *.
  assert (Hc : c = take (Z.to_nat n) q).
  { subst c. unfold slice. rewrite Hq, Nat2Z.id, drop_app_length. f_equal. lia. }
  rewrite Hc. assert (Hl : length (take (Z.to_nat n) q) = Z.to_nat n) by (rewrite length_take; lia).
  split_and!.
  - intros He. rewrite He in Hl. simpl in Hl. lia.
  - rewrite Hl. lia.
  - rewrite Hq. apply prefix_app. by apply prefix_take.
Qed.

(** One chunk over the network. *)
Lemma send_chunk_step x wid st p c w :
  OwnState st p -> SessionAt dir st p w -> Uploading p w ->
  c <> [] -> blen c <= SNAPSHOT_BLOB_DEFAULT_CHUNK_SIZE_BYTES -> (p ++ c) `prefix_of` stream ->
  let '(r, w') := send_chunk dir x wid d (Some (own_session d raw stream e wid (us_next_sequence st) (blen p)))
                    (us_next_sequence st) (blen p) c w in
  match r with
  | Err er => UnderWay w' /\ is_retryable_blob_stream_error er = true /\ x <> Deliver
  | Ok (offset, s', inbox) => offset = blen (p ++ c) /\
      if bool_decide (p ++ c = stream) then
        Stored w' /\ (inbox = [] /\ x <> Deliver \/
                      inbox = [UploadComplete SNAPSHOT_BLOB_PROTOCOL_VERSION wid d true])
      else exists st', OwnState st' (p ++ c) /\ SessionAt dir st' (p ++ c) w' /\ Uploading (p ++ c) w' /\
        us_next_sequence st' = us_next_sequence st + 1 /\ inbox = [] /\
        s' = Some (own_session d raw stream e wid (us_next_sequence st') (blen (p ++ c)))
  end.
Proof.
  intros HO HS HU Hne Hlim Hpre. unfold send_chunk.
  assert (Henc : encode_with_payload (from_payload (us_next_sequence st) (blen p) c) c =
    Ok (frame_of (us_next_sequence st) (blen p) (blen c) (adler32_slice c) c)) by by apply encode_with_payload_Ok.
  rewrite Henc.
  pose proof (chunk_frame_step dir U d raw stream e Hplan st p c wid _ (reply_delivered x) w
    HO HS HU Hne Hlim Hpre Henc) as Hstep. unfold wp in Hstep.
  destruct x; cbn [reply_delivered] in Hstep;
    try (destruct (handle_chunk_frame _ _ _ _ w) as [r w']; simpl in Hstep; destruct Hstep as (rx & -> & Hrx)).
  - cbn [negb] in Hrx. case_bool_decide as Hfull.
    + destruct Hrx as [-> Hst]. unfold check_ack. simpl. rewrite envelope_ok. simpl. rewrite !Z.eqb_refl. simpl.
      split; [done|]. split; [done|by right].
    + destruct Hrx as (st' & HO' & HS' & HU' & Hseq & ->). unfold check_ack. simpl. rewrite envelope_ok. simpl.
      rewrite !Z.eqb_refl. simpl. split; [done|]. by exists st'.
  - split_and!; [left; by exists p| |done]. apply send_retryable.
  - destruct Hrx as [-> HU']. simpl. split_and!; [left; by eexists| |done]. apply closed_retryable.
  - cbn [negb] in Hrx. case_bool_decide as Hfull.
    + destruct Hrx as [-> Hst]. unfold check_ack. simpl. rewrite envelope_ok. simpl. rewrite !Z.eqb_refl. simpl.
      split; [done|]. split; [done|by left].
    + destruct Hrx as (st' & HO' & HS' & HU' & Hseq & ->). unfold check_ack. simpl. rewrite envelope_ok. simpl.
      rewrite !Z.eqb_refl. simpl. split; [done|]. by exists st'.
Qed.

Lemma send_chunks_delivers fuel net lat i wid st p policy w :
  policy_ok policy ->
  OwnState st p -> SessionAt dir st p w -> Uploading p w -> p <> stream ->
  (length stream - length p <= fuel)%nat ->
  let '(r, policy', w') := send_chunks dir fuel net lat i wid d stream
     (Some (own_session d raw stream e wid (us_next_sequence st) (blen p))) [] policy
     (blen p) (us_next_sequence st) w in
  policy_ok policy' /\ attempt_ok (forall j, net j = Deliver) r w'.
Proof.
  revert i st p policy w. induction fuel as [|fuel IH]; intros i st p policy w Hpol HO HS HU Hne Hfuel.
  - exfalso. pose proof (up_prefix _ _ _ _ _ _ _ _ HU) as Hpre. apply Hne, prefix_full; [done|].
    pose proof (blen_prefix _ _ Hpre). unfold blen in *. lia.
  - cbn [send_chunks]. pose proof (up_prefix _ _ _ _ _ _ _ _ HU) as Hpre.
    pose proof (blen_prefix _ _ Hpre) as Hle.
    assert (Hlt : blen p < blen stream).
    { destruct (decide (blen p = blen stream)) as [He|]; [|lia]. by destruct Hne; apply prefix_full. }
    destruct (Z.ltb_spec (blen p) (blen stream)); [|lia].
    destruct (chunk_size_bounds policy (blen stream - blen p) Hpol ltac:(lia)) as [Hlo Hhi].
    set (n := chunk_size_for_remaining _ _) in *.
    destruct (next_chunk p n Hpre ltac:(lia)) as (Hcne & Hclen & Hcpre).
    set (c := slice _ _ stream) in *.
    pose proof (send_chunk_step (net i) wid st p c w HO HS HU Hcne ltac:(lia) Hcpre) as Hstep.
    destruct (send_chunk _ _ _ _ _ _ _ _ w) as [[[[offset s'] inbox]|er] w'].
    + destruct Hstep as [-> Hstep]. case_bool_decide as Hfull.
      * destruct Hstep as [Hst Hinbox]. rewrite Hfull.
        assert (Hend : forall f, send_chunks dir f net lat (S i) wid d stream s' inbox (on_ack (lat i) policy)
          (blen stream) (us_next_sequence st + 1) w' = (await_completion wid d inbox, on_ack (lat i) policy, w')).
        { intros f. destruct f; cbn [send_chunks]; by rewrite Z.ltb_irrefl. }
        rewrite Hend. split; [by apply on_ack_ok|]. destruct Hinbox as [[-> Hx]| ->].
        -- split_and!; [by right|apply closed_retryable|]. intros Hall. by apply Hx, Hall.
        -- unfold await_completion, recv_blob_upload_control. cbn [rbind]. by rewrite envelope_ok.
      * destruct Hstep as (st' & HO' & HS' & HU' & Hseq & -> & ->). rewrite <- Hseq.
        apply IH; [by apply on_ack_ok|done|done|done|done|].
        rewrite length_app. assert (length c <> 0%nat) by by destruct c. lia.
    + split; [done|]. destruct Hstep as (Hu & Hret & Hx). split_and!; [done|done|].
      intros Hall. by apply Hx, Hall.
Qed.

(** The announcement of the prepared payload selects [e] and [stream]. *)
Definition payload_plan (pl : SnapshotBlobUploadPayload) : Prop :=
  prepare_upload_payload raw = Ok pl /\ payload_for_selected_encoding pl e = Ok stream /\
  (e = None <-> pl_zstd_bytes pl = None).

Lemma own_init wid pl : payload_plan pl -> OwnInit d raw stream e (upload_init_for wid d raw pl).
Proof.
  intros (Hprep & Hsel & Hz). split; try done. simpl.
  unfold prepare_upload_payload in Hprep.
  destruct (encode_zstd_if_worthwhile raw) as [[c|]|]; simplify_eq/=.
  - destruct e as [enc|]; [|by destruct Hz as [Hz _]; specialize (Hz eq_refl)].
    unfold payload_for_selected_encoding in Hsel. case_bool_decide; [|done]. simpl in Hsel. by simplify_eq.
  - destruct e as [enc|]; [by destruct Hz as [_ Hz]; specialize (Hz eq_refl)|]. by simplify_eq/=.
Qed.

Lemma run_connection_ok x net lat wid pl policy w :
  x <> LostRequest -> payload_plan pl -> policy_ok policy -> UnderWay w ->
  let '(r, policy', w') := run_connection dir x net lat wid d raw pl policy w in
  policy_ok policy' /\ attempt_ok (x = Deliver /\ forall j, net j = Deliver) r w'.
Proof.
  intros Hx Hpl Hpol Hun. unfold run_connection.
  pose proof (own_init wid pl Hpl) as HI. destruct Hpl as (_ & Hsel & _).
  assert (Hlost : forall w', UnderWay w' ->
    attempt_ok (LostReply = Deliver /\ (forall j, net j = Deliver))
      (Err ("Blob stream closed unexpectedly while uploading " +:+ d)) w').
  { intros w' Hw'. split_and!; [done|apply closed_retryable|by intros [? _]]. }
  destruct Hun as [[p HU]|HSt].
  - pose proof (init_uploading dir U d raw stream e Hplan _ (reply_delivered x) p w HI HU) as Hin.
    unfold wp in Hin. destruct (handle_upload_init _ _ _ w) as [r w'].
    destruct Hin as (rx & Hr & Hrx). simpl in Hr, Hrx. subst r.
    case_bool_decide as Hfull.
    + destruct Hrx as [-> HSt]. destruct x; simpl; rewrite ?envelope_ok; try done.
      split; [done|]. apply Hlost. by right.
    + destruct Hrx as [HU' Hrx]. assert (Hun' : UnderWay w') by (left; by exists p).
      destruct x; cbn [reply_delivered] in Hrx; [|done| |].
      2:{ subst rx. simpl. split; [done|]. by apply Hlost. }
      all: destruct Hrx as (st & HO & HS & ->); simpl; rewrite envelope_ok; simpl; rewrite Hsel; simpl;
        rewrite Z.eqb_refl; simpl;
        pose proof (send_chunks_delivers (length stream) net lat 1 wid st p policy w' Hpol HO HS HU' Hfull
          ltac:(lia)) as Hd; destruct (send_chunks _ _ _ _ _ _ _ _ _ _ _ _ _ w') as [[r pol] w2];
        destruct Hd as [? Hd]; split; [done|]; destruct r; [done|]; destruct Hd as (? & ? & Hnr);
        split_and!; [done|done|]; by intros [_ Hall].
  - pose proof (init_stored dir U d raw stream e Hplan _ (reply_delivered x) w HI HSt) as Hin.
    unfold wp in Hin. destruct (handle_upload_init _ _ _ w) as [r w'].
    destruct Hin as [Hr HSt']. simpl in Hr, HSt'. subst r.
    destruct x; simpl; rewrite ?envelope_ok; try done.
    split; [done|]. apply Hlost. by right.
Qed.

Lemma upload_attempt_ok net lat url wid pl policy w :
  payload_plan pl -> policy_ok policy -> UnderWay w ->
  let '(r, policy', w') := upload_attempt dir net lat url wid d raw pl policy w in
  policy_ok policy' /\ attempt_ok (forall j, net j = Deliver) r w'.
Proof.
  intros Hpl Hpol Hun. unfold upload_attempt.
  destruct (net 0%nat) eqn:Hx.
  2:{ split; [done|]. split_and!; [done|apply connect_retryable|].
      intros Hall. specialize (Hall 0%nat). congruence. }
  all: match goal with |- context [run_connection dir ?x _ _ _ _ _ _ _ _] =>
         pose proof (run_connection_ok x net lat wid pl policy w ltac:(done) Hpl Hpol Hun) as Hc end;
    destruct (run_connection _ _ _ _ _ _ _ _ _ w) as [[r pol] w']; destruct Hc as [? Hc];
    split; [done|]; destruct r; [done|]; destruct Hc as (? & ? & Hnr); split_and!; [done|done|];
    intros Hall; apply Hnr; split; [|done]; by rewrite <- Hx, Hall.
Qed.

Lemma upload_attempts_deliver n nets lats url wid pl a policy w :
  payload_plan pl -> policy_ok policy -> UnderWay w ->
  (exists k, (k < n)%nat /\ forall j, nets (a + k)%nat j = Deliver) ->
  exists u w', upload_attempts dir n nets lats url wid d raw pl a policy w = (Ok u, w') /\ Stored w'.
Proof.
  intros Hpl. revert a policy w. induction n as [|n IH]; intros a policy w Hpol Hun (k & Hk & Hrel); [lia|].
  cbn [upload_attempts].
  pose proof (upload_attempt_ok (nets a) (lats a) url wid pl policy w Hpl Hpol Hun) as Ha.
  destruct (upload_attempt _ _ _ _ _ _ _ _ _ w) as [[[u|er] policy'] w']; destruct Ha as [Hpol' Ha].
  - by exists u, w'.
  - destruct Ha as (Hun' & Hret & Hnr). destruct k as [|k].
    { destruct Hnr. intros j. by rewrite <- (Hrel j), Nat.add_0_r. }
    rewrite Hret. destruct n as [|n]; [lia|]. cbn [Nat.eqb negb andb].
    apply IH; [by apply on_reconnect_ok|done|]. exists k. split; [lia|].
    intros j. rewrite <- (Hrel j). f_equal. lia.
Qed.

(** Whatever the connections lose, an upload that fails can be continued. *)
Lemma upload_attempts_sound n nets lats url wid pl a policy w :
  payload_plan pl -> policy_ok policy -> UnderWay w ->
  match upload_attempts dir n nets lats url wid d raw pl a policy w with
  | (Ok _, w') => Stored w'
  | (Err _, w') => UnderWay w'
  end.
Proof.
  intros Hpl. revert a policy w. induction n as [|n IH]; intros a policy w Hpol Hun; [done|]. cbn [upload_attempts].
  pose proof (upload_attempt_ok (nets a) (lats a) url wid pl policy w Hpl Hpol Hun) as Ha.
  destruct (upload_attempt _ _ _ _ _ _ _ _ _ w) as [[[u|er] policy'] w']; destruct Ha as [Hpol' Ha]; [done|].
  destruct Ha as (Hun' & _ & _). destruct (_ && _); [|done]. apply IH; [by apply on_reconnect_ok|done].
Qed.

Definition reliable (nets : nat -> nat -> Exchange) : Prop :=
  exists k, (1 <= k <= SNAPSHOT_BLOB_STREAM_MAX_CONNECTION_ATTEMPTS)%nat /\ forall j, nets k j = Deliver.

Lemma stream_upload_outcome nets lats url wid pl w :
  payload_plan pl -> UnderWay w ->
  match stream_upload_blob dir nets lats url wid d raw w with
  | (Ok _, w') => Stored w'
  | (Err _, w') => UnderWay w' /\ ~ reliable nets
  end.
Proof.
  intros Hpl Hun. unfold stream_upload_blob. pose proof Hpl as (Hprep & _). rewrite Hprep.
  assert (Hpol : policy_ok (policy_new SNAPSHOT_BLOB_DEFAULT_CHUNK_SIZE_BYTES)).
  { apply policy_new_ok. unfold SNAPSHOT_BLOB_DEFAULT_CHUNK_SIZE_BYTES. lia. }
  pose proof (upload_attempts_sound (Nat.max SNAPSHOT_BLOB_STREAM_MAX_CONNECTION_ATTEMPTS 1) nets lats url wid pl 1 _ w Hpl Hpol Hun) as Hs.
  destruct (upload_attempts _ _ _ _ _ _ _ _ _ _ _ w) as [[u|er] w'] eqn:E; [done|]. split; [done|]. intros (k & Hk & Hrel).
  destruct (upload_attempts_deliver (Nat.max SNAPSHOT_BLOB_STREAM_MAX_CONNECTION_ATTEMPTS 1) nets lats url wid pl 1 _ w Hpl Hpol Hun) as (u & w2 & He & _).
  - exists (k - 1)%nat. unfold SNAPSHOT_BLOB_STREAM_MAX_CONNECTION_ATTEMPTS in *. split; [lia|]. intros j. rewrite <- (Hrel j). f_equal. lia.
  - congruence.
Qed.

(** C6.  End-to-end delivery: on a disk that does not fail, uploading a non-empty blob
    succeeds, with exactly the blob's bytes stored under its digest, whenever one of
    the four connection attempts loses nothing, whatever the earlier attempts lost (requests, replies
    with the server having already acted on the request, or only the completion
    notice), whatever prefix of the same stream earlier uploads had left staged and whatever
    chunk sizes the measured latencies lead to. *)
Theorem stream_upload_delivers nets lats url wid pl w :
  payload_plan pl -> UnderWay w ->
  (exists k, (1 <= k <= SNAPSHOT_BLOB_STREAM_MAX_CONNECTION_ATTEMPTS)%nat /\ forall j, nets k j = Deliver) ->
  exists u w', stream_upload_blob dir nets lats url wid d raw w = (Ok u, w') /\
    files w' !! blob_file dir d "" = Some raw /\ store_ok U dir (files w').
Proof.
  intros Hpl Hun Hrel. pose proof (stream_upload_outcome nets lats url wid pl w Hpl Hun) as Ho.
  destruct (stream_upload_blob _ _ _ _ _ _ _ w) as [[u|er] w']; [|by destruct Ho]. exists u, w'. split; [done|]. by destruct Ho.
Qed.

End Delivery.

(** ** A concrete upload: the first acknowledgement is lost, the second attempt
    loses nothing. *)

Definition demo_nets (attempt j : nat) : Exchange :=
  if Nat.eqb attempt 1 && Nat.eqb j 1 then LostReply else Deliver.

Lemma demo_plan : @UploadPlan sha256_reference zstd_reference demo_contents demo_digest demo_blob demo_blob None.
Proof.
  split; [apply demo_collision_free|done|done|done|by left|done|].
  vm_compute. discriminate.
Qed.

Lemma demo_under_way :
  @UnderWay sha256_reference codec_reference zstd_reference upload_codec_reference demo_dir demo_contents
    demo_digest demo_blob demo_blob None (demo_world []).
Proof.
  left. exists []. split; [left; by split_and!|apply prefix_nil|apply demo_store_ok|done].
Qed.

Lemma stream_upload_delivers_witness :
  exists u w', @stream_upload_blob sha256_reference codec_reference zstd_reference upload_codec_reference
      adler32_reference demo_dir demo_nets (fun _ _ => 20) "ws://localhost" 7 demo_digest demo_blob
      (demo_world []) = (Ok u, w') /\
    files w' !! blob_file demo_dir demo_digest "" = Some demo_blob /\
    @store_ok sha256_reference codec_reference zstd_reference demo_contents demo_dir (files w').
Proof.
  apply (@stream_upload_delivers sha256_reference sha256_reference_laws codec_reference codec_reference_laws
    zstd_reference zstd_reference_laws upload_codec_reference upload_codec_reference_laws
    adler32_reference adler32_reference_u32 demo_dir demo_contents demo_digest demo_blob demo_blob None demo_plan
    demo_nets (fun _ _ => 20) "ws://localhost" 7%N
    {| pl_raw_bytes := demo_blob; pl_zstd_bytes := None; pl_offered_encodings := [] |} (demo_world [])).
  - by split_and!.
  - apply demo_under_way.
  - exists 2%nat. split; [unfold SNAPSHOT_BLOB_STREAM_MAX_CONNECTION_ATTEMPTS; lia|done].
Defined.
