(* ===== verification/UploadFrame.v ===== *)
(** * Uploads of different blobs do not interfere

    [prepare_blob_upload_session] writes the session file of the digest it finds in
    the persisted state, not of the digest it was asked for.  As long as the state of
    every session names the digest of its own file ([honest]), an upload touches only
    the files of its own blob - the blob and its variants in the store, its session
    files - whatever fails, and the sessions stay honest. *)

From S2P Require Import Prelude Types World Frame BlobStore Upload UploadClient.

Section Frame.
Context `{Sha256, BlobMetadataCodec, Zstd, UploadStateCodec, !UploadStateCodecLaws, Adler32}.
Context (dir : path).

Definition session_file (d suffix : string) : path := join (blob_upload_session_dir dir) (d +:+ suffix).

(** The files of the upload of [d]. *)
Definition upload_area (d : string) (p : path) : Prop := blob_area dir d p \/ exists s, p = session_file d s.

(** The session of [d] is that of [d]. *)
Definition honest_fs (fs : gmap path bytes) (d : string) : Prop :=
  forall b st, fs !! blob_upload_session_meta_path dir d = Some b -> upload_state_from_slice b = Some st -> us_digest st = d.
Definition honest (d : string) (w : World) : Prop := honest_fs (files w) d.

(** [tame d I m]: from an honest session of [d], [m] touches only files of [d], keeps
    the session honest, and a value it returns satisfies [I]. *)
Definition tame {E A : Type} (d : string) (I : A -> Prop) (m : Comp E A) : Prop :=
  forall w, honest d w ->
    Foot (upload_area d) w (snd (m w)) /\ honest d (snd (m w)) /\ match fst (m w) with Ok a => I a | Err _ => True end.

Abbreviation any := (fun _ => True).

Lemma tame_ret {E A : Type} d (I : A -> Prop) a : I a -> tame d I (ret (E := E) a).
Proof. intros Ha w Hw. split_and!; [apply foot_refl|done|done]. Qed.
Lemma tame_throw {E A : Type} d (I : A -> Prop) (e : E) : tame d I (throw e).
Proof. intros w Hw. split_and!; [apply foot_refl|done|done]. Qed.
Lemma tame_bind {E A B : Type} d I J (m : Comp E A) (k : A -> Comp E B) :
  tame d I m -> (forall a, I a -> tame d J (k a)) -> tame d J (bind m k).
Proof.
  intros Hm Hk w Hw. unfold bind. destruct (Hm w Hw) as (Hf & Hh & Hi). destruct (m w) as [[a|e] w1]; [|done].
  destruct (Hk a Hi w1 Hh) as (Hf' & ? & ?). split_and!; [by eapply foot_trans|done|done].
Qed.
Lemma tame_try {E F A B : Type} d I J (m : Comp E A) (k : Result A E -> Comp F B) :
  tame d I m -> (forall a, I a -> tame d J (k (Ok a))) -> (forall e, tame d J (k (Err e))) -> tame d J (try_ m k).
Proof.
  intros Hm Hk He w Hw. unfold try_. destruct (Hm w Hw) as (Hf & Hh & Hi). destruct (m w) as [[a|e] w1].
  - destruct (Hk a Hi w1 Hh) as (Hf' & ? & ?). split_and!; [by eapply foot_trans|done|done].
  - destruct (He e w1 Hh) as (Hf' & ? & ?). split_and!; [by eapply foot_trans|done|done].
Qed.
Lemma tame_with_context {A : Type} d (I : A -> Prop) ctx (m : FsOp A) : tame d I m -> tame d I (with_context ctx m).
Proof. intros Hm w Hw. unfold with_context. destruct (Hm w Hw) as (Hf & Hh & Hi). by destruct (m w) as [[a|e] w1]. Qed.

(** What leaves the session metadata alone is tame. *)
Lemma tame_foots {E A : Type} (P : path -> Prop) d (m : Comp E A) :
  (forall p, P p -> upload_area d p /\ p <> blob_upload_session_meta_path dir d) -> foots P m -> tame d any m.
Proof.
  intros HP Hm w Hw. destruct (Hm w) as [Hf Hs]. split_and!.
  - split; [|done]. intros p Hp. apply Hf. intros Hp'. by destruct (HP p Hp').
  - unfold honest, honest_fs. rewrite Hf; [done|]. intros Hp. by destruct (HP _ Hp).
  - by destruct (fst (m w)).
Qed.

Lemma tame_blob {E A : Type} d (m : Comp E A) : foots (blob_area dir d) m -> tame d any m.
Proof.
  apply tame_foots. intros p Hp. split; [by left|]. destruct Hp as [_ [s ->]]. intros He.
  apply (session_not_blob dir d s). rewrite He. apply session_file_in.
Qed.
Lemma tame_reads {E A : Type} d (m : Comp E A) : foots (fun _ => False) m -> tame d any m.
Proof. by apply tame_foots. Qed.
Lemma tame_session {E A : Type} d s (m : Comp E A) : s <> ".json" -> foots (eq (session_file d s)) m -> tame d any m.
Proof.
  intros Hs. apply tame_foots. intros p <-. split; [right; by eexists|]. intros He. apply Hs.
  unfold session_file, blob_upload_session_meta_path, join in He. apply app_inv_head in He. injection He as He.
  by apply string_app_inj_len in He as [_ ?].
Qed.
Lemma tame_weaken {E A : Type} d (I : A -> Prop) (m : Comp E A) : tame d I m -> tame d any m.
Proof. intros Hm w Hw. destruct (Hm w Hw) as (? & ? & _). split_and!; [done|done|]. by destruct (fst (m w)). Qed.

Lemma session_area d s : upload_area d (session_file d s).
Proof. right. by eexists. Qed.

(** *** Sessions *)

Lemma observes_load d : observes (fun fs _ o => match o with
    | Some st => exists b, fs !! blob_upload_session_meta_path dir d = Some b /\ upload_state_from_slice b = Some st
    | None => True
    end) (load_blob_upload_state dir d).
Proof.
  unfold load_blob_upload_state. cbv zeta. eapply observes_try; [apply observes_read|]. intros [b|[]]; try apply observes_throw; [|by apply observes_ret].
  destruct (upload_state_from_slice b) as [st|] eqn:Es; [|apply observes_throw]. apply observes_ret. intros fs t Hb. eauto.
Qed.

Lemma tame_load d : tame d (fun o => forall st, o = Some st -> us_digest st = d) (load_blob_upload_state dir d).
Proof.
  intros w Hw. destruct (observes_load d w) as (Hfs & _ & Hr). split_and!.
  - split; [by intros; rewrite Hfs|]. apply (foots_load dir d w).
  - unfold honest. by rewrite Hfs.
  - destruct (fst _) as [[st|]|e]; [|done|done]. destruct Hr as (b & Hb & Hs). intros ? [= <-]. by eapply Hw.
Qed.

Lemma tame_write_meta d body st c1 c2 s :
  s <> ".json" -> upload_state_from_slice body = Some st -> us_digest st = d ->
  tame d any (with_context c1 (fs_write (session_file d s) body) ;;
              with_context c2 (fs_rename (session_file d s) (blob_upload_session_meta_path dir d)) ;; ret tt).
Proof.
  intros Hs Hst Hd w Hw. set (m := bind _ _).
  assert (Hf : foots (upload_area d) m).
  { subst m. apply foots_bind; [apply foots_with_context, foots_write, session_area|]. intros _.
    apply foots_bind; [|intros; apply foots_ret]. apply foots_with_context, foots_rename; apply session_area. }
  split_and!; [apply Hf| |by destruct (fst (m w))]. clear Hf.
  assert (Hne : session_file d s <> blob_upload_session_meta_path dir d).
  { intros He. apply Hs. unfold session_file, blob_upload_session_meta_path, join in He. apply app_inv_head in He. injection He as He.
    by apply string_app_inj_len in He as [_ ?]. }
  assert (Hkeep : forall c fs, honest_fs fs d -> honest_fs (<[session_file d s := c]> fs) d).
  { intros c fs Hh b st'. rewrite lookup_insert_ne by done. apply Hh. }
  subst m. unfold bind, with_context. pose proof (write_cases (session_file d s) body w) as Hwr.
  destruct (fs_write (session_file d s) body w) as [r w1]. cbn in Hwr. destruct Hwr as (_ & [[-> Hf]|(Hr & _ & Hf)]).
  - assert (Hh1 : honest d w1) by (unfold honest; rewrite Hf; by apply Hkeep).
    pose proof (rename_cases (session_file d s) (blob_upload_session_meta_path dir d) w1) as Hre.
    destruct (fs_rename _ _ w1) as [[[]|e] w2]; cbn in *.
    + destruct Hre as (_ & [(b & Hb & _ & Hf2)|[? _]]); [|done]. rewrite Hf, lookup_insert_eq in Hb. injection Hb as <-.
      unfold honest, honest_fs. rewrite Hf2, lookup_insert_eq. by intros b st' [= <-] ?; simplify_eq.
    + destruct Hre as (_ & [(? & _ & ? & _)|(_ & Hf2 & _)]); [done|]. unfold honest. rewrite Hf2. exact Hh1.
  - destruct r as [u|e]; [done|]. cbn. unfold honest. destruct Hf as [-> |[k ->]]; [done|by apply Hkeep].
Qed.

Lemma tame_persist d st : us_digest st = d -> tame d any (persist_blob_upload_state dir st).
Proof.
  intros <-. unfold persist_blob_upload_state. cbv zeta.
  eapply tame_bind; [apply tame_with_context, tame_reads, foots_create_dir_all|]. intros _ _.
  eapply tame_bind; [apply tame_reads, foots_new_uuid|]. intros id _. eapply tame_write_meta; [done|apply upload_state_roundtrip|done].
Qed.

Lemma tame_remove d : tame d any (remove_blob_upload_state dir d).
Proof.
  unfold remove_blob_upload_state. eapply tame_bind with (I := any).
  - intros w Hw. split_and!; [apply foots_remove_if_exists, session_area| |by destruct (fst _)].
    unfold remove_file_if_exists, try_, fs_remove_file, guarded. destruct (pop_fault_env w) as (_ & Hf & _).
    destruct (pop_fault w) as [[f|] w1]; cbn in *.
    + unfold honest. destruct (fault_error f); unfold no_effect; cbn; by rewrite Hf.
    + destruct (files w1 !! _) eqn:E; unfold honest; cbn; [|by rewrite Hf]. intros b st. by rewrite lookup_delete_eq.
  - intros _ _. eapply tame_bind; [|intros; by apply tame_ret]. eapply (tame_session d ".part"); [done|]. by apply foots_remove_if_exists.
Qed.

Lemma tame_staged d p : tame d any (staged_bytes p).
Proof. apply tame_reads, foots_staged. Qed.

(** Takes a sequence of tame computations apart; reads are tame. *)
Ltac tame_step :=
  first
    [ apply tame_throw
    | match goal with |- tame _ _ (if ?b then _ else _) => destruct b end
    | eapply tame_bind; [solve [apply tame_with_context, tame_reads; eauto with foots | apply tame_staged | apply tame_remove]|intros ? _] ].

Abbreviation of_digest d := (fun st => us_digest st = d).

Lemma tame_prepare d raw stream chunk e : tame d (of_digest d) (prepare_blob_upload_session dir d raw stream chunk e).
Proof.
  unfold prepare_blob_upload_session. cbv zeta. tame_step. eapply tame_bind; [apply tame_load|]. intros loaded Hl.
  set (st := default _ loaded). assert (Hd : us_digest st = d) by (destruct loaded as [s|]; [by apply Hl|done]).
  repeat tame_step. all: eapply tame_bind; [apply tame_persist|intros; apply tame_ret]; cbn; by try destruct (_ || _).
Qed.

Lemma tame_append d raw stream chunk e payload :
  tame d (of_digest d) (append_blob_upload_chunk dir d raw stream chunk e payload).
Proof.
  unfold append_blob_upload_chunk. eapply tame_bind; [apply tame_prepare|]. intros st Hst. cbv zeta. do 2 tame_step. { apply tame_throw. }
  eapply tame_bind; [apply tame_with_context; by eapply (tame_session d ".part"), foots_open_append|]. intros _ _.
  eapply tame_bind; [apply tame_with_context; by eapply (tame_session d ".part"), foots_append|]. intros _ _. tame_step.
  eapply tame_bind; [by apply tame_persist|]. intros _ _. by apply tame_ret.
Qed.

Lemma tame_finalize d : tame d any (finalize_blob_upload_session dir d).
Proof.
  unfold finalize_blob_upload_session. eapply tame_bind; [apply tame_load|]. intros loaded _. cbv zeta.
  eapply tame_bind with (I := any); [destruct loaded; [by apply tame_ret|apply tame_throw]|]. intros st _. repeat tame_step.
  eapply tame_bind; [apply tame_reads, foots_decode_stream|]. intros raw _. tame_step; [apply tame_throw|].
  eapply tame_bind; [apply tame_blob, foots_store_blob_for_digest|]. intros stored _. eapply tame_bind with (I := any).
  { case_bool_decide; [|by apply tame_ret]. eapply tame_bind; [apply tame_blob, foots_store_encoded|]. intros; by apply tame_ret. }
  intros _ _. eapply tame_bind; [apply tame_remove|]. intros _ _. by apply tame_ret.
Qed.

Lemma tame_complete d before wid n : tame d (fun r => session r = None) (complete_upload dir before wid d n).
Proof. unfold complete_upload. eapply tame_try; [apply tame_finalize|..]; intros; by apply tame_ret. Qed.

(** A session of the handler is that of [d]. *)
Definition of_session (d : string) (r : Reaction) : Prop := forall s, session r = Some s -> bus_digest s = d.

Lemma closing_session d ms m : of_session d (closing ms m).
Proof. by intros s. Qed.
Lemma tame_ends {E : Type} d (m : Comp E Reaction) : tame d (fun r => session r = None) m -> tame d (of_session d) m.
Proof.
  intros Hm w Hw. destruct (Hm w Hw) as (? & ? & Hr). split_and!; [done|done|]. destruct (fst (m w)); [|done]. intros s. by rewrite Hr.
Qed.

Lemma tame_init init dl : tame (ui_digest init) (of_session (ui_digest init)) (handle_upload_init dir init dl).
Proof.
  unfold handle_upload_init. cbv zeta. do 2 (case_match; [by apply tame_ret|]). destruct (select_upload_encoding _ _ _) as [[e n]|e]; [|by apply tame_ret].
  eapply tame_try with (I := any); [| |intros; by apply tame_ret].
  { apply tame_reads. unfold has_blob. solve_foots. }
  intros [|] _; [eapply tame_try; [apply tame_remove|intros; by apply tame_ret..]|].
  unfold start_session. cbv zeta. eapply tame_try; [apply tame_prepare| |intros; by apply tame_ret]. intros st Hst.
  repeat case_match; first [apply tame_ends, tame_complete | apply tame_ret; intros ? Hs; cbn in Hs; by simplify_eq].
Qed.

Lemma tame_chunk s frame dl : tame (bus_digest s) (of_session (bus_digest s)) (handle_chunk_frame dir s frame dl).
Proof.
  unfold handle_chunk_frame. cbv zeta. destruct (decode frame) as [[h p]|e]; [|by apply tame_ret]. repeat (case_match; [by apply tame_ret|]).
  eapply tame_try; [apply tame_append| |intros; by apply tame_ret]. intros st Hst.
  cbn [bus_digest with_received]. repeat case_match; first [apply tame_ends, tame_complete | apply tame_ret; intros ? Hs; cbn in Hs; by simplify_eq].
Qed.

(** *** The client on its connections *)

(** What the exchanges of one upload do to the server. *)
Record own_step (d : string) (w w' : World) : Prop := {
  os_foot : Foot (upload_area d) w w';
  os_honest : honest d w';
}.
Lemma own_step_refl d w : honest d w -> own_step d w w.
Proof. split; [apply foot_refl|done]. Qed.
Lemma own_step_trans d w1 w2 w3 : own_step d w1 w2 -> own_step d w2 w3 -> own_step d w1 w3.
Proof. intros [F1 _] [F2 ?]. split; [by eapply foot_trans|done]. Qed.

Lemma send_chunk_own x wid d s seq off chunk w :
  honest d w -> (forall s0, s = Some s0 -> bus_digest s0 = d) ->
  own_step d w (snd (send_chunk dir x wid d s seq off chunk w)) /\
  match fst (send_chunk dir x wid d s seq off chunk w) with
  | Ok (_, s', _) => forall s0, s' = Some s0 -> bus_digest s0 = d
  | Err _ => True
  end.
Proof.
  intros Hw Hs. unfold send_chunk. destruct (encode_with_payload _ _) as [frame|]; [|split; [by apply own_step_refl|done]].
  assert (Hh : forall s0, s = Some s0 -> let '(r, w') := handle_chunk_frame dir s0 frame (reply_delivered x) w in
    own_step d w w' /\ match r with Ok rx => of_session d rx | Err _ => True end).
  { intros s0 ->. specialize (Hs s0 eq_refl). subst d. pose proof (tame_chunk s0 frame (reply_delivered x) w Hw) as (? & ? & ?).
    by destruct (handle_chunk_frame _ _ _ _ _). }
  destruct x, s as [s0|]; try (split; [by apply own_step_refl|done]).
  all: specialize (Hh s0 eq_refl); destruct (handle_chunk_frame _ _ _ _ _) as [[rx|e] w']; destruct Hh as [Hst Hr]; (split; [done|]); cbn;
    try done; destruct (recv_blob_upload_control d _) as [[m rest]|]; cbn; try done; destruct (check_ack _ _ _ _ _ _); cbn; done.
Qed.

Lemma send_chunks_own fuel net lat i wid d selected s inbox policy off seq w :
  honest d w -> (forall s0, s = Some s0 -> bus_digest s0 = d) ->
  own_step d w (snd (send_chunks dir fuel net lat i wid d selected s inbox policy off seq w)).
Proof.
  revert i s inbox policy off seq w. induction fuel as [|fuel IH]; intros i s inbox policy off seq w Hw Hs; cbn [send_chunks];
    (destruct (off <? blen selected); [|by apply own_step_refl]); [by apply own_step_refl|].
  pose proof (send_chunk_own (net i) wid d s seq off
    (slice (Z.to_nat off) (Z.to_nat (off + chunk_size_for_remaining policy (blen selected - off))) selected) w Hw Hs) as [Hst Hr].
  destruct (send_chunk _ _ _ _ _ _ _ _ w) as [[[[o s'] inbox']|e] w']; cbn in Hst, Hr; [|done].
  eapply own_step_trans; [exact Hst|]. apply IH; [apply Hst|done].
Qed.

Lemma run_connection_own x net lat wid d b pl policy w :
  honest d w -> own_step d w (snd (run_connection dir x net lat wid d b pl policy w)).
Proof.
  intros Hw. unfold run_connection. pose proof (tame_init (upload_init_for wid d b pl) (reply_delivered x) w Hw) as (Hf & Hh & Hr).
  destruct (handle_upload_init _ _ _ w) as [[rx|e] w']; cbn in Hf, Hh, Hr; [|by split].
  assert (Hst : own_step d w w') by by split. destruct (recv_blob_upload_control d _) as [[m rest]|e]; [|done].
  destruct m; try done. match goal with |- context [match ?e with Ok _ => _ | Err _ => _ end] => destruct e as [selected|] end; [|done].
  eapply own_step_trans; [exact Hst|]. apply send_chunks_own; [done|]. intros s0 Hs0. by apply Hr.
Qed.

Lemma upload_attempts_own n nets lats url wid d b pl a policy w :
  honest d w -> own_step d w (snd (upload_attempts dir n nets lats url wid d b pl a policy w)).
Proof.
  revert a policy w. induction n as [|n IH]; intros a policy w Hw; cbn [upload_attempts]; [by apply own_step_refl|].
  assert (Hst : own_step d w (snd (upload_attempt dir (nets a) (lats a) url wid d b pl policy w))).
  { unfold upload_attempt. destruct (nets a 0%nat); try (by apply own_step_refl); by apply run_connection_own. }
  destruct (upload_attempt _ _ _ _ _ _ _ _ _ w) as [[[u|er] policy'] w']; cbn in Hst; [done|].
  destruct (_ && _); [|done]. eapply own_step_trans; [exact Hst|]. apply IH, Hst.
Qed.

(** A whole upload of [d], with its reconnects, touches only files of [d]. *)
Lemma stream_upload_own nets lats url wid d b w :
  honest d w -> own_step d w (snd (stream_upload_blob dir nets lats url wid d b w)).
Proof.
  intros Hw. unfold stream_upload_blob. destruct (prepare_upload_payload b); [by apply upload_attempts_own|by apply own_step_refl].
Qed.

(** The files of two blobs are disjoint. *)
Lemma upload_area_disjoint d d' p : valid_digest d -> valid_digest d' -> d <> d' -> upload_area d p -> ~ upload_area d' p.
Proof.
  intros Hv Hv' Hne [[_ [s ->]]|[s ->]] [[_ [s' He]]|[s' He]].
  - apply blob_file_inj in He as [? _]; done.
  - apply (session_not_blob dir d s). rewrite He. apply session_file_in.
  - apply (session_not_blob dir d' s'). rewrite <- He. apply session_file_in.
  - unfold session_file, join in He. apply app_inv_head in He. injection He as He. apply Hne.
    destruct Hv as [Hl _], Hv' as [Hl' _]. by apply string_app_inj_len in He as [? _]; [|rewrite Hl, Hl'].
Qed.
End Frame.
