(* ===== verification/Trace.v ===== *)
(** * Trace contexts ([crates/observability/src/lib.rs])

    Parsing of the W3C [traceparent] header that a submission may carry, and the
    contexts that the client and the server generate.  The identifiers of a new
    context come from the generator of the OpenTelemetry library; they are arguments. *)

From S2P Require Import Prelude Types.

Definition dash : ascii := "-"%char.

Definition parse_trace_context (traceparent : string) : option TraceContext :=
  let normalized := lowercase (trim traceparent) in
  match split_on dash normalized with
  | [version; trace_id; span_id; flags] =>
      if negb (bool_decide (version = "00"))
         || negb (slen trace_id =? 32)
         || negb (slen span_id =? 16)
         || negb (slen flags =? 2)
         || bool_decide (trace_id = "00000000000000000000000000000000")
         || bool_decide (span_id = "0000000000000000")
         || negb (all_chars is_ascii_hexdigit trace_id)
         || negb (all_chars is_ascii_hexdigit span_id)
         || negb (all_chars is_ascii_hexdigit flags)
      then None
      else Some {| tc_trace_id := trace_id;
                   tc_traceparent := "00-" +:+ trace_id +:+ "-" +:+ span_id +:+ "-" +:+ flags |}
  | _ => None
  end.

(** [new_trace_context], with the identifiers that the generator gives. *)
Definition new_trace_context (trace_id span_id : string) : TraceContext :=
  {| tc_trace_id := trace_id; tc_traceparent := "00-" +:+ trace_id +:+ "-" +:+ span_id +:+ "-01" |}.

(** Spans are exported when one of the two variables is set. *)
Definition otlp_configured (var_is_set : string -> bool) : bool :=
  var_is_set "OTEL_EXPORTER_OTLP_ENDPOINT" || var_is_set "OTEL_EXPORTER_OTLP_TRACES_ENDPOINT".

(** The text of a trace context that was parsed. *)
Lemma parse_trace_context_Some t c :
  parse_trace_context t = Some c ->
  exists span flags,
    tc_traceparent c = "00-" +:+ tc_trace_id c +:+ "-" +:+ span +:+ "-" +:+ flags /\
    slen (tc_trace_id c) = 32 /\ slen span = 16 /\ slen flags = 2 /\
    tc_trace_id c <> "00000000000000000000000000000000" /\ span <> "0000000000000000" /\
    all_chars is_ascii_hexdigit (tc_trace_id c) = true /\ all_chars is_ascii_hexdigit span = true /\
    all_chars is_ascii_hexdigit flags = true /\
    (exists v rest, split_on dash (lowercase (trim t)) = v :: tc_trace_id c :: span :: flags :: rest).
Proof.
  unfold parse_trace_context. destruct (split_on dash (lowercase (trim t))) as [|v [|a [|b [|f [|]]]]]; try done.
  destruct (_ || _) eqn:E; [done|]. intros [= <-]. reflect_bools. exists b, f. simpl. split_and!; eauto.
Qed.

Lemma split_pieces_lower c s x : x ∈ split_on c (lowercase s) -> lowercase x = x.
Proof.
  assert (Hi : forall a, to_ascii_lowercase (to_ascii_lowercase a) = to_ascii_lowercase a) by (intros a; ascii_cases a).
  unfold lowercase at 1. induction (chars s) as [|a l IH] in x |- *; simpl.
  - intros Hx. apply list_elem_of_singleton in Hx as ->. done.
  - destruct (Ascii.eqb _ c).
    + intros Hx. apply elem_of_cons in Hx as [->|Hx]; [done|]. by apply IH.
    + destruct (split_on c (of_chars (map to_ascii_lowercase l))) as [|y rest] eqn:E.
      * intros Hx. apply list_elem_of_singleton in Hx as ->.
        unfold lowercase. simpl. by rewrite Hi.
      * intros Hx. apply elem_of_cons in Hx as [->|Hx].
        -- unfold lowercase. simpl. rewrite Hi. f_equal. apply IH. apply list_elem_of_here.
        -- apply IH. by apply list_elem_of_further.
Qed.

Lemma hex_no_dash s : all_chars is_ascii_hexdigit s = true -> dash ∉ chars s.
Proof.
  intros Hs Hin. apply all_chars_spec in Hs. rewrite Forall_forall in Hs. specialize (Hs _ Hin). done.
Qed.

Lemma trim_no_space s : any_char is_whitespace s = false -> trim s = s.
Proof.
  intros Hs. rewrite any_char_false in Hs.
  assert (Hd : forall l, (forall c, c ∈ l -> is_whitespace c = false) -> drop_while is_whitespace l = l).
  { intros l Hl. destruct l as [|c l]; [done|]. simpl. by rewrite (Hl c (list_elem_of_here _ _)). }
  unfold trim, trim_start, trim_end. rewrite (Hd (chars s) Hs), of_chars_chars.
  rewrite Hd; [by rewrite rev_involutive, of_chars_chars|].
  intros c Hc. apply Hs. by rewrite list_elem_of_In, <- in_rev, <- list_elem_of_In in Hc.
Qed.

Lemma traceparent_no_space id span flags :
  all_chars is_ascii_hexdigit id = true -> all_chars is_ascii_hexdigit span = true ->
  all_chars is_ascii_hexdigit flags = true ->
  any_char is_whitespace ("00-" +:+ id +:+ "-" +:+ span +:+ "-" +:+ flags) = false.
Proof.
  intros H1 H2 H3.
  assert (Hh : forall s, all_chars is_ascii_hexdigit s = true -> any_char is_whitespace s = false).
  { intros s Hs. eapply all_chars_any_char; [|exact Hs]. intros c. ascii_cases c. }
  rewrite !any_char_app, (Hh id), (Hh span), (Hh flags) by done. done.
Qed.

(** Identifiers as the standard wants them: [n] lower-case hexadecimal digits, not all zero. *)
Record identifier (n : Z) (zero x : string) : Prop := {
  id_length : slen x = n; id_hex : all_chars is_ascii_hexdigit x = true; id_lower : lowercase x = x; id_nonzero : x <> zero }.
Abbreviation trace_identifier := (identifier 32 "00000000000000000000000000000000").
Abbreviation span_identifier := (identifier 16 "0000000000000000").

(** A header in normal form is read as it is. *)
Lemma parse_normal_form id span flags :
  trace_identifier id -> span_identifier span -> slen flags = 2 -> all_chars is_ascii_hexdigit flags = true -> lowercase flags = flags ->
  let t := "00-" +:+ id +:+ "-" +:+ span +:+ "-" +:+ flags in
  parse_trace_context t = Some {| tc_trace_id := id; tc_traceparent := t |}.
Proof.
  intros [L1 X1 W1 N1] [L2 X2 W2 N2] L3 X3 W3 t. subst t. unfold parse_trace_context. rewrite trim_no_space by by apply traceparent_no_space.
  rewrite !lowercase_app, W1, W2, W3.
  change (lowercase "00-") with ("00" +:+ String dash ""). change (lowercase "-") with (String dash "").
  rewrite string_app_assoc.
  assert (Hd : forall x, String dash "" +:+ x = String dash x) by done. rewrite !Hd.
  rewrite split_on_app, split_on_app, split_on_app, split_on_none by (by apply hex_no_dash || by vm_compute).
  rewrite L1, L2, L3, X1, X2, X3, (bool_decide_false _ N1), (bool_decide_false _ N2). done.
Qed.

(** A parsed trace context is in normal form: the [traceparent] the server
    forwards to the worker parses again, to the same context, so the trace id a
    workorder is reported under is the one the worker continues; and that id has
    32 hexadecimal digits, not all zero. *)
Theorem parse_trace_context_normal t c :
  parse_trace_context t = Some c ->
  parse_trace_context (tc_traceparent c) = Some c /\
  slen (tc_trace_id c) = 32 /\ all_chars is_ascii_hexdigit (tc_trace_id c) = true /\
  tc_trace_id c <> "00000000000000000000000000000000".
Proof.
  intros Hp. destruct (parse_trace_context_Some t c Hp) as
    (span & flags & Ht & L1 & L2 & L3 & N1 & N2 & X1 & X2 & X3 & v & rest & Hsp).
  split_and!; [|done..].
  assert (Hlow : forall x, x ∈ [tc_trace_id c; span; flags] -> lowercase x = x).
  { intros x Hx. apply (split_pieces_lower dash (trim t)). rewrite Hsp.
    apply elem_of_cons. right. apply elem_of_cons in Hx as [->|Hx]; [apply list_elem_of_here|].
    apply list_elem_of_further. apply elem_of_cons in Hx as [->|Hx]; [apply list_elem_of_here|].
    apply list_elem_of_further. apply list_elem_of_singleton in Hx as ->. apply list_elem_of_here. }
  assert (Hl : lowercase (tc_trace_id c) = tc_trace_id c /\ lowercase span = span /\ lowercase flags = flags)
    by (split_and!; apply Hlow; repeat (apply list_elem_of_here || apply list_elem_of_further)).
  destruct Hl as (W1 & W2 & W3). rewrite Ht, (parse_normal_form (tc_trace_id c) span flags) by (done || by split).
  f_equal. destruct c as [tid tp]. simpl in *. by rewrite Ht.
Qed.

(** A context the client generates arrives as it was: the server reads from the header
    the trace id the client logs. *)
Lemma new_context_arrives trace_id span_id :
  trace_identifier trace_id -> span_identifier span_id ->
  parse_trace_context (tc_traceparent (new_trace_context trace_id span_id)) = Some (new_trace_context trace_id span_id).
Proof. intros Ht Hs. by apply (parse_normal_form trace_id span_id "01"). Qed.

Lemma parse_trace_context_normal_witness :
  let t := " 00-0AF7651916CD43DD8448EB211C80319C-b7ad6b7169203331-01" in
  let c := {| tc_trace_id := "0af7651916cd43dd8448eb211c80319c";
              tc_traceparent := "00-0af7651916cd43dd8448eb211c80319c-b7ad6b7169203331-01" |} in
  parse_trace_context (tc_traceparent c) = Some c /\
  slen (tc_trace_id c) = 32 /\ all_chars is_ascii_hexdigit (tc_trace_id c) = true /\
  tc_trace_id c <> "00000000000000000000000000000000".
Proof.
  intros t c. apply (parse_trace_context_normal t c). vm_compute. reflexivity.
Defined.
