(* ===== verification/Config.v ===== *)
(** * Server configuration ([crates/server/src/config.rs])

    The configuration record, its defaults and [validate], which repairs values
    that are out of range.  Whether [repos_dir] exists is a parameter of
    [validate]. *)

From S2P Require Import Prelude Types World Auth.

Record SigningConfig := { gpg_key : option string; gpg_home : option string }.
Definition SigningConfig_default : SigningConfig := {| gpg_key := None; gpg_home := None |}.
Definition signing_enabled (s : SigningConfig) : bool := is_some (gpg_key s) && is_some (gpg_home s).

Record TlsConfig := { tls_cert : path; tls_key : path }.

(** [load_average] is the bit pattern of its [f32]: the server never computes
    with it. *)
Record ServerConfig := {
  binpkg_dir : path;
  binhost_url : string;
  docker_socket : string;
  worker_image_prefix : string;
  max_workers : Z;
  max_active_workorders : Z;
  request_body_size_bytes : Z;
  build_timeout_secs : Z;
  worker_idle_timeout : Z;
  worker_memory_bytes : Z;
  worker_cpu_shares : Z;
  worker_network_mode : string;
  worker_binpkg_mount : string;
  auth : Auth.AuthConfig;
  signing : SigningConfig;
  parallel_jobs : option Z;
  load_average : option Z;
  tls : option TlsConfig;
  state_dir : path;
  retention_hours : Z;
  worker_binary : option path;
  max_retained_workorders : Z;
  log_json : bool;
  repos_dir : option path;
  binpkg_disk_warn_bytes : Z;
  worker_base_image : option string;
  skip_worker_sync : bool;
  snapshot_cache_grace_period_hours : Z;
  snapshot_cache_hard_delete_hours : Z;
  snapshot_min_retained_bytes : Z;
}.

Definition default_binpkg_dir : path := ["var"; "cache"; "remerge"; "binpkgs"].
Definition default_binhost_url : string := "http://localhost:7654/binpkgs".
Definition default_docker_socket : string := "unix:///var/run/docker.sock".
Definition default_worker_image_prefix : string := "remerge-worker".
Definition default_max_workers : Z := 4.
Definition default_max_active_workorders : Z := 256.
Definition default_request_body_size_bytes : Z := 2 * 1024 * 1024.
Definition default_build_timeout_secs : Z := 4 * 60 * 60.
Definition default_worker_idle_timeout : Z := 3600.
Definition default_worker_memory_bytes : Z := 4 * 1024 * 1024 * 1024.
Definition default_worker_cpu_shares : Z := 1024.
Definition default_worker_network_mode : string := "bridge".
Definition default_worker_binpkg_mount : string := "/var/cache/binpkgs".
Definition default_state_dir : path := ["var"; "lib"; "remerge"].
Definition default_retention_hours : Z := 24.
Definition default_max_retained_workorders : Z := 1000.
Definition default_binpkg_disk_warn_bytes : Z := 10 * 1024 * 1024 * 1024.
Definition default_snapshot_cache_grace_period_hours : Z := 7 * 24.
Definition default_snapshot_cache_hard_delete_hours : Z := 30 * 24.
Definition default_snapshot_min_retained_bytes : Z := 10 * 1024 * 1024 * 1024.

Definition ServerConfig_default : ServerConfig := {|
  binpkg_dir := default_binpkg_dir;
  binhost_url := default_binhost_url;
  docker_socket := default_docker_socket;
  worker_image_prefix := default_worker_image_prefix;
  max_workers := default_max_workers;
  max_active_workorders := default_max_active_workorders;
  request_body_size_bytes := default_request_body_size_bytes;
  build_timeout_secs := default_build_timeout_secs;
  worker_idle_timeout := default_worker_idle_timeout;
  worker_memory_bytes := default_worker_memory_bytes;
  worker_cpu_shares := default_worker_cpu_shares;
  worker_network_mode := default_worker_network_mode;
  worker_binpkg_mount := default_worker_binpkg_mount;
  auth := Auth.AuthConfig_default;
  signing := SigningConfig_default;
  parallel_jobs := None;
  load_average := None;
  tls := None;
  state_dir := default_state_dir;
  retention_hours := default_retention_hours;
  worker_binary := None;
  max_retained_workorders := default_max_retained_workorders;
  log_json := false;
  repos_dir := None;
  binpkg_disk_warn_bytes := default_binpkg_disk_warn_bytes;
  worker_base_image := None;
  skip_worker_sync := false;
  snapshot_cache_grace_period_hours := default_snapshot_cache_grace_period_hours;
  snapshot_cache_hard_delete_hours := default_snapshot_cache_hard_delete_hours;
  snapshot_min_retained_bytes := default_snapshot_min_retained_bytes;
|}.

(** [validate]; [is_directory p] is [path.is_dir()] for an existing [p], [None]
    when [p] does not exist. *)
Definition validate (is_directory : path -> option bool) (c : ServerConfig) : ServerConfig :=
  let hard := if snapshot_cache_hard_delete_hours c =? 0
              then default_snapshot_cache_hard_delete_hours else snapshot_cache_hard_delete_hours c in
  let grace := if snapshot_cache_grace_period_hours c =? 0
               then default_snapshot_cache_grace_period_hours else snapshot_cache_grace_period_hours c in
  {|
  binpkg_dir := binpkg_dir c; binhost_url := binhost_url c; docker_socket := docker_socket c;
  worker_image_prefix := worker_image_prefix c; max_workers := max_workers c;
  max_active_workorders := max_active_workorders c;
  request_body_size_bytes :=
    if request_body_size_bytes c =? 0 then default_request_body_size_bytes else request_body_size_bytes c;
  build_timeout_secs := build_timeout_secs c; worker_idle_timeout := worker_idle_timeout c;
  worker_memory_bytes :=
    if worker_memory_bytes c <=? 0 then default_worker_memory_bytes else worker_memory_bytes c;
  worker_cpu_shares := if worker_cpu_shares c <=? 0 then default_worker_cpu_shares else worker_cpu_shares c;
  worker_network_mode :=
    if is_empty (trim (worker_network_mode c)) then default_worker_network_mode else worker_network_mode c;
  worker_binpkg_mount := worker_binpkg_mount c; auth := auth c; signing := signing c;
  parallel_jobs := parallel_jobs c; load_average := load_average c; tls := tls c; state_dir := state_dir c;
  retention_hours := retention_hours c; worker_binary := worker_binary c;
  max_retained_workorders := max_retained_workorders c; log_json := log_json c;
  repos_dir :=
    match repos_dir c with
    | None => None
    | Some p => match is_directory p with Some true => Some p | _ => None end
    end;
  binpkg_disk_warn_bytes := binpkg_disk_warn_bytes c; worker_base_image := worker_base_image c;
  skip_worker_sync := skip_worker_sync c;
  snapshot_cache_grace_period_hours := grace;
  snapshot_cache_hard_delete_hours :=
    if hard <? grace then default_snapshot_cache_hard_delete_hours else hard;
  snapshot_min_retained_bytes := snapshot_min_retained_bytes c |}.

(** What the rest of the server may rely on after [validate]. *)
Record config_sane (is_directory : path -> option bool) (c : ServerConfig) : Prop := {
  sane_body : 0 < request_body_size_bytes c;
  sane_memory : 0 < worker_memory_bytes c;
  sane_cpu : 0 < worker_cpu_shares c;
  sane_network : trim (worker_network_mode c) <> "";
  sane_grace : 0 < snapshot_cache_grace_period_hours c;
  sane_hard : 0 < snapshot_cache_hard_delete_hours c;
  sane_repos : forall p, repos_dir c = Some p -> is_directory p = Some true;
}.

(** The unsigned fields of a configuration as parsed. *)
Definition config_unsigned (c : ServerConfig) : Prop :=
  0 <= request_body_size_bytes c /\ 0 <= snapshot_cache_grace_period_hours c /\
  0 <= snapshot_cache_hard_delete_hours c.

(** [validate] repairs every configuration: body limit, memory, CPU weight and
    both cache windows become positive, the network mode is not blank, a
    [repos_dir] that is kept is an existing directory; a configuration that was
    already right is not changed; and the hard-delete window ends up at least as
    long as the grace period exactly when it was so or the grace period is at most
    the 720 hours of the default. *)
Theorem validate_repairs is_directory c :
  config_unsigned c ->
  let c' := validate is_directory c in
  config_sane is_directory c' /\
  (config_sane is_directory c ->
   snapshot_cache_grace_period_hours c <= snapshot_cache_hard_delete_hours c -> c' = c) /\
  (snapshot_cache_grace_period_hours c' <= snapshot_cache_hard_delete_hours c' <->
   snapshot_cache_grace_period_hours c <= 720 \/
   snapshot_cache_grace_period_hours c <= snapshot_cache_hard_delete_hours c).
Proof.
  intros (Hb & Hg & Hh). split_and!.
  - split; simpl; unfold default_request_body_size_bytes, default_worker_memory_bytes,
      default_worker_cpu_shares, default_snapshot_cache_grace_period_hours,
      default_snapshot_cache_hard_delete_hours.
    + destruct (Z.eqb_spec (request_body_size_bytes c) 0); lia.
    + destruct (Z.leb_spec (worker_memory_bytes c) 0); lia.
    + destruct (Z.leb_spec (worker_cpu_shares c) 0); lia.
    + destruct (is_empty (trim (worker_network_mode c))) eqn:E; [done|].
      by apply is_empty_false.
    + destruct (Z.eqb_spec (snapshot_cache_grace_period_hours c) 0); lia.
    + repeat case_match; reflect_bools; lia.
    + intros p. destruct (repos_dir c) as [q|]; [|done].
      destruct (is_directory q) as [[]|] eqn:E; [|done|done]. by intros [= <-].
  - intros [H1 H2 H3 H4 H5 H6 H7] Hle. destruct c; simpl in *. unfold validate. simpl.
    apply is_empty_false in H4. rewrite H4.
    repeat match goal with
    | |- context [?a =? 0] => destruct (Z.eqb_spec a 0); [lia|]
    | |- context [?a <=? 0] => destruct (Z.leb_spec a 0); [lia|]
    | |- context [?a <? ?b] => destruct (Z.ltb_spec a b); [lia|]
    end.
    f_equal. destruct repos_dir0 as [q|]; [|done]. by rewrite (H7 q eq_refl).
  - simpl. unfold default_snapshot_cache_hard_delete_hours, default_snapshot_cache_grace_period_hours.
    repeat match goal with
    | |- context [?a =? 0] => destruct (Z.eqb_spec a 0)
    | |- context [?a <? ?b] => destruct (Z.ltb_spec a b)
    end; lia.
Qed.

(** A grace period longer than the default hard-delete window survives
    [validate]. *)
Definition long_grace_config : ServerConfig :=
  let c := ServerConfig_default in {|
  binpkg_dir := binpkg_dir c; binhost_url := binhost_url c; docker_socket := docker_socket c;
  worker_image_prefix := worker_image_prefix c; max_workers := max_workers c;
  max_active_workorders := max_active_workorders c;
  request_body_size_bytes := request_body_size_bytes c; build_timeout_secs := build_timeout_secs c;
  worker_idle_timeout := worker_idle_timeout c; worker_memory_bytes := worker_memory_bytes c;
  worker_cpu_shares := worker_cpu_shares c; worker_network_mode := worker_network_mode c;
  worker_binpkg_mount := worker_binpkg_mount c; auth := auth c; signing := signing c;
  parallel_jobs := parallel_jobs c; load_average := load_average c; tls := tls c; state_dir := state_dir c;
  retention_hours := retention_hours c; worker_binary := worker_binary c;
  max_retained_workorders := max_retained_workorders c; log_json := log_json c; repos_dir := repos_dir c;
  binpkg_disk_warn_bytes := binpkg_disk_warn_bytes c; worker_base_image := worker_base_image c;
  skip_worker_sync := skip_worker_sync c;
  snapshot_cache_grace_period_hours := 1000; snapshot_cache_hard_delete_hours := 900;
  snapshot_min_retained_bytes := snapshot_min_retained_bytes c |}.

Lemma validate_repairs_witness :
  let c' := validate (fun _ => None) long_grace_config in
  config_sane (fun _ => None) c' /\
  (config_sane (fun _ => None) long_grace_config -> 1000 <= 900 -> c' = long_grace_config) /\
  (snapshot_cache_grace_period_hours c' <= snapshot_cache_hard_delete_hours c' <->
   1000 <= 720 \/ 1000 <= 900).
Proof.
  apply (validate_repairs (fun _ => None) long_grace_config).
  unfold config_unsigned. simpl. unfold default_request_body_size_bytes. lia.
Defined.
