(* ===== verification/ConfigLoad.v ===== *)
(** * Loading the server configuration ([ServerConfig::load] in [crates/server/src/config.rs])

    The file, then the [REMERGE_*] variables of the environment, then the search for the
    worker binary beside the server, then [validate].  The TOML reader, the reader of
    [f32] literals and the environment of the process are parameters.  A path is the file
    it names from the working directory of the process. *)

From S2P Require Import Prelude Types World Paths Auth Config.

(** ** [str::parse] for the integer types *)

Inductive IntTy := U32 | U64 | Usize | I64.
Definition int_min (t : IntTy) : Z := match t with I64 => - 2 ^ 63 | _ => 0 end.
Definition int_max (t : IntTy) : Z := match t with U32 => 2 ^ 32 - 1 | U64 | Usize => 2 ^ 64 - 1 | I64 => 2 ^ 63 - 1 end.
Definition fits (t : IntTy) (z : Z) : Prop := int_min t <= z <= int_max t.
Definition fits_b (t : IntTy) (z : Z) : bool := (int_min t <=? z) && (z <=? int_max t).

Fixpoint digits_value (acc : Z) (l : list ascii) : option Z :=
  match l with
  | [] => Some acc
  | c :: r => if is_ascii_digit c then digits_value (10 * acc + (code c - 48)) r else None
  end.
Definition parse_digits (l : list ascii) : option Z := match l with [] => None | _ => digits_value 0 l end.

(** One leading [+] is accepted, a leading [-] by the signed types only; no digits, another
    character or a value out of range is an error. *)
Definition parse_int (t : IntTy) (s : string) : option Z :=
  let value := match chars s with
    | "+"%char :: r => parse_digits r
    | "-"%char :: r => match t with I64 => Z.opp <$> parse_digits r | _ => None end
    | l => parse_digits l
    end in
  match value with Some z => if fits_b t z then Some z else None | None => None end.

(** ** [load] *)

Record Process := {
  env_var : string -> option string;      (* std::env::var(..).ok() *)
  working_dir : path;
  current_exe : option path;
  is_file : path -> bool;
  is_directory : path -> option bool;     (* None: the path does not exist *)
}.

Section Load.
Context (toml_from_str : string -> Result ServerConfig Error) (parse_f32 : string -> option Z) (proc : Process).

(** [if let Ok(v) = std::env::var(name)] and, for the parsed ones, [&& let Ok(n) = v.parse()]. *)
Definition env_or (name old : string) : string := match env_var proc name with Some v => v | None => old end.
Definition env_opt (name : string) (old : option string) : option string := match env_var proc name with Some v => Some v | None => old end.
Definition env_int (t : IntTy) (name : string) (old : Z) : Z :=
  match env_var proc name with Some v => match parse_int t v with Some n => n | None => old end | None => old end.
Definition env_path (name : string) (old : path) : path := match env_var proc name with Some v => join_str (working_dir proc) v | None => old end.
Definition env_opt_path (name : string) (old : option path) : option path :=
  match env_var proc name with Some v => Some (join_str (working_dir proc) v) | None => old end.
Definition env_bool (name : string) (old : bool) : bool :=
  match env_var proc name with Some v => bool_decide (v = "1") || eq_ignore_ascii_case v "true" | None => old end.

Definition apply_env (c : ServerConfig) : ServerConfig := {|
  binpkg_dir := env_path "REMERGE_BINPKG_DIR" (binpkg_dir c);
  binhost_url := env_or "REMERGE_BINHOST_URL" (binhost_url c);
  docker_socket := env_or "REMERGE_DOCKER_SOCKET" (docker_socket c);
  worker_image_prefix := env_or "REMERGE_WORKER_IMAGE_PREFIX" (worker_image_prefix c);
  max_workers := env_int Usize "REMERGE_MAX_WORKERS" (max_workers c);
  max_active_workorders := env_int Usize "REMERGE_MAX_ACTIVE_WORKORDERS" (max_active_workorders c);
  request_body_size_bytes := env_int Usize "REMERGE_REQUEST_BODY_SIZE_BYTES" (request_body_size_bytes c);
  build_timeout_secs := env_int U64 "REMERGE_BUILD_TIMEOUT_SECS" (build_timeout_secs c);
  worker_idle_timeout := env_int U64 "REMERGE_WORKER_IDLE_TIMEOUT" (worker_idle_timeout c);
  worker_memory_bytes := env_int I64 "REMERGE_WORKER_MEMORY_BYTES" (worker_memory_bytes c);
  worker_cpu_shares := env_int I64 "REMERGE_WORKER_CPU_SHARES" (worker_cpu_shares c);
  worker_network_mode := env_or "REMERGE_WORKER_NETWORK_MODE" (worker_network_mode c);
  worker_binpkg_mount := env_or "REMERGE_WORKER_BINPKG_MOUNT" (worker_binpkg_mount c);
  auth := {|
    Auth.ac_mode := match env_var proc "REMERGE_AUTH_MODE" with
               | Some v => match AuthMode_from_str v with Ok mode => mode | Err _ => Auth.ac_mode (auth c) end
               | None => Auth.ac_mode (auth c)
               end;
    Auth.ac_cert_header := env_or "REMERGE_AUTH_CERT_HEADER" (Auth.ac_cert_header (auth c));
    Auth.ac_clients := Auth.ac_clients (auth c) |};
  signing := {| gpg_key := env_opt "REMERGE_GPG_KEY" (gpg_key (signing c)); gpg_home := env_opt "REMERGE_GPG_HOME" (gpg_home (signing c)) |};
  parallel_jobs := match env_var proc "REMERGE_PARALLEL_JOBS" with
                   | Some v => match parse_int U32 v with Some n => Some n | None => parallel_jobs c end
                   | None => parallel_jobs c
                   end;
  load_average := match env_var proc "REMERGE_LOAD_AVERAGE" with
                  | Some v => match parse_f32 v with Some x => Some x | None => load_average c end
                  | None => load_average c
                  end;
  tls := tls c;
  state_dir := env_path "REMERGE_STATE_DIR" (state_dir c);
  retention_hours := env_int U64 "REMERGE_RETENTION_HOURS" (retention_hours c);
  worker_binary :=
    match env_opt_path "REMERGE_WORKER_BINARY" (worker_binary c) with
    | Some p => Some p
    | None =>
        match current_exe proc with
        | Some exe => let sibling := removelast exe ++ ["remerge-worker"] in if is_file proc sibling then Some sibling else None
        | None => None
        end
    end;
  max_retained_workorders := env_int Usize "REMERGE_MAX_RETAINED_WORKORDERS" (max_retained_workorders c);
  log_json := env_bool "REMERGE_LOG_JSON" (log_json c);
  repos_dir := env_opt_path "REMERGE_REPOS_DIR" (repos_dir c);
  binpkg_disk_warn_bytes := env_int U64 "REMERGE_BINPKG_DISK_WARN_BYTES" (binpkg_disk_warn_bytes c);
  worker_base_image := env_opt "REMERGE_WORKER_BASE_IMAGE" (worker_base_image c);
  skip_worker_sync := env_bool "REMERGE_SKIP_WORKER_SYNC" (skip_worker_sync c);
  snapshot_cache_grace_period_hours := env_int U64 "REMERGE_SNAPSHOT_CACHE_GRACE_PERIOD_HOURS" (snapshot_cache_grace_period_hours c);
  snapshot_cache_hard_delete_hours := env_int U64 "REMERGE_SNAPSHOT_CACHE_HARD_DELETE_HOURS" (snapshot_cache_hard_delete_hours c);
  snapshot_min_retained_bytes := env_int U64 "REMERGE_SNAPSHOT_MIN_RETAINED_BYTES" (snapshot_min_retained_bytes c);
|}.

(** [content] is the result of [std::fs::read_to_string(path)]. *)
Definition file_config (content : Result string IoError) : Result ServerConfig Error :=
  match content with
  | Ok text => contextual "Failed to parse server config" (toml_from_str text)
  | Err _ => Ok ServerConfig_default
  end.

Definition load (content : Result string IoError) : Result ServerConfig Error :=
  match file_config content with
  | Ok config => Ok (validate (is_directory proc) (apply_env config))
  | Err e => Err e
  end.

End Load.

(** ** Types of the fields *)

(** The integer fields, the variable that sets each and its type. *)
Definition int_settings : list (string * IntTy * (ServerConfig -> Z)) := [
  ("REMERGE_MAX_WORKERS", Usize, max_workers);
  ("REMERGE_MAX_ACTIVE_WORKORDERS", Usize, max_active_workorders);
  ("REMERGE_REQUEST_BODY_SIZE_BYTES", Usize, request_body_size_bytes);
  ("REMERGE_BUILD_TIMEOUT_SECS", U64, build_timeout_secs);
  ("REMERGE_WORKER_IDLE_TIMEOUT", U64, worker_idle_timeout);
  ("REMERGE_WORKER_MEMORY_BYTES", I64, worker_memory_bytes);
  ("REMERGE_WORKER_CPU_SHARES", I64, worker_cpu_shares);
  ("REMERGE_RETENTION_HOURS", U64, retention_hours);
  ("REMERGE_MAX_RETAINED_WORKORDERS", Usize, max_retained_workorders);
  ("REMERGE_BINPKG_DISK_WARN_BYTES", U64, binpkg_disk_warn_bytes);
  ("REMERGE_SNAPSHOT_CACHE_GRACE_PERIOD_HOURS", U64, snapshot_cache_grace_period_hours);
  ("REMERGE_SNAPSHOT_CACHE_HARD_DELETE_HOURS", U64, snapshot_cache_hard_delete_hours);
  ("REMERGE_SNAPSHOT_MIN_RETAINED_BYTES", U64, snapshot_min_retained_bytes)].

(** Every field lies in its Rust type: the integers, the job count and the bit pattern of
    the load average. *)
Definition config_typed (c : ServerConfig) : Prop :=
  Forall (fun '(_, t, field) => fits t (field c)) int_settings /\
  (forall n, parallel_jobs c = Some n -> fits U32 n) /\
  (forall x, load_average c = Some x -> fits U32 x).

(** ** Reading integers *)

Lemma fits_b_spec t z : fits_b t z = true <-> fits t z.
Proof. unfold fits_b, fits. rewrite andb_true_iff, !Z.leb_le. done. Qed.

Lemma parse_int_fits t s z : parse_int t s = Some z -> fits t z.
Proof. unfold parse_int. case_match; [|done]. destruct (fits_b t _) eqn:E; [|done]. intros [= <-]. by apply fits_b_spec. Qed.

Lemma digit_code n : (n < 10)%N -> is_ascii_digit (pretty_N_char n) = true /\ code (pretty_N_char n) - 48 = Z.of_N n.
Proof.
  intros Hn. assert (Hin : In n (map N.of_nat (seq 0 10))) by (apply in_map_iff; exists (N.to_nat n); rewrite in_seq; lia).
  simpl in Hin. by repeat destruct Hin as [<-|Hin].
Qed.

(** [pretty_N_go] puts the digits of [x] in front. *)
Lemma digits_value_pretty_go x : forall s acc,
  exists acc', digits_value acc (chars (pretty_N_go x s)) = digits_value acc' (chars s) /\ (acc = 0 -> acc' = Z.of_N x).
Proof.
  induction (N.lt_wf_0 x) as [x _ IH]; intros s acc. destruct (decide (0 < x)%N) as [Hx|Hx].
  - rewrite pretty_N_go_step by done.
    destruct (IH (x `div` 10)%N ltac:(apply N.div_lt; lia) (String (pretty_N_char (x `mod` 10)) s) acc) as (acc1 & -> & Hacc).
    pose proof (N.mod_lt x 10 ltac:(lia)) as Hm. destruct (digit_code _ Hm) as [Hd Hc].
    change (chars (String ?a ?b)) with (a :: chars b). cbn [digits_value]. rewrite Hd, Hc. eexists. split; [reflexivity|].
    intros Ha. rewrite (Hacc Ha). pose proof (N.div_mod x 10 ltac:(lia)). lia.
  - assert (x = 0%N) as -> by lia. rewrite pretty_N_go_0. exists acc. split; [done|]. lia.
Qed.

Lemma pretty_N_digits (n : N) : exists d r, chars (pretty n) = d :: r /\ is_ascii_digit d = true /\ digits_value 0 (d :: r) = Some (Z.of_N n).
Proof.
  destruct (decide (n = 0%N)) as [->|Hn]; [by exists "0"%char, []|].
  assert (pretty n = pretty_N_go n "") as -> by (unfold pretty, pretty_N; by rewrite decide_False).
  destruct (digits_value_pretty_go n "" 0) as (acc & Hv & Ha). specialize (Ha eq_refl). subst acc.
  destruct (chars (pretty_N_go n "")) as [|d r] eqn:E.
  - simpl in Hv. injection Hv. lia.
  - exists d, r. split_and!; [done| |by rewrite Hv]. simpl in Hv. by destruct (is_ascii_digit d).
Qed.

Lemma parse_int_digits t d r z : is_ascii_digit d = true -> digits_value 0 (d :: r) = Some z -> fits t z -> parse_int t (of_chars (d :: r)) = Some z.
Proof.
  intros Hd Hv Hf. unfold parse_int. rewrite chars_of_chars. apply fits_b_spec in Hf.
  destruct d as [[] [] [] [] [] [] [] []]; try done; unfold parse_digits; rewrite Hv, Hf; done.
Qed.

(** Every integer of the type reads back from its decimal form. *)
Lemma parse_int_pretty t z : fits t z -> parse_int t (pretty z) = Some z.
Proof.
  intros Hf. destruct z as [|p|p].
  - transitivity (if fits_b t 0 then Some 0 else None); [reflexivity|]. apply fits_b_spec in Hf. by rewrite Hf.
  - change (pretty (Z.pos p)) with (pretty (Npos p)).
    destruct (pretty_N_digits (Npos p)) as (d & r & He & Hd & Hv).
    rewrite <- (of_chars_chars (pretty (Npos p))), He. by apply parse_int_digits.
  - change (pretty (Z.neg p)) with (String "-" (pretty (Npos p))).
    destruct (pretty_N_digits (Npos p)) as (d & r & He & Hd & Hv).
    destruct t; [unfold fits in Hf; simpl in Hf; lia..|].
    transitivity (match Z.opp <$> parse_digits (chars (pretty (Npos p))) with Some z => if fits_b I64 z then Some z else None | None => None end);
      [reflexivity|].
    rewrite He. unfold parse_digits. rewrite Hv. apply fits_b_spec in Hf. change (Z.opp <$> Some (Z.of_N (Npos p))) with (Some (Z.neg p)).
    cbn match. by rewrite Hf.
Qed.

(** ** The result of [load] *)

Section Typed.
Context (toml_from_str : string -> Result ServerConfig Error) (parse_f32 : string -> option Z) (proc : Process).

Abbreviation load := (load toml_from_str parse_f32 proc).
Abbreviation apply_env := (apply_env parse_f32 proc).

Lemma env_int_fits t name old : fits t old -> fits t (env_int proc t name old).
Proof. intros Hf. unfold env_int. repeat case_match; try done. by eapply parse_int_fits. Qed.

(** A variable of the environment that holds the decimal form of a value sets its field. *)
Lemma apply_env_sets c name t field n :
  (name, t, field) ∈ int_settings -> env_var proc name = Some (pretty n) -> fits t n -> field (apply_env c) = n.
Proof.
  intros Hin He Hf. unfold int_settings in Hin.
  repeat (apply elem_of_cons in Hin as [[= -> -> ->]|Hin];
    [cbn [max_workers max_active_workorders request_body_size_bytes build_timeout_secs worker_idle_timeout worker_memory_bytes
          worker_cpu_shares retention_hours max_retained_workorders binpkg_disk_warn_bytes snapshot_cache_grace_period_hours
          snapshot_cache_hard_delete_hours snapshot_min_retained_bytes ConfigLoad.apply_env];
     unfold env_int; rewrite He, parse_int_pretty by done; reflexivity|]).
  by apply elem_of_nil in Hin.
Qed.

Hypothesis parse_f32_bits : forall s x, parse_f32 s = Some x -> fits U32 x.

Lemma apply_env_typed c : config_typed c -> config_typed (apply_env c).
Proof.
  intros (Hi & Hj & Hl). split_and!.
  - unfold int_settings in *. rewrite !Forall_cons in *. destruct_and!. rewrite Forall_nil.
    split_and!; try done; by apply env_int_fits.
  - simpl. intros n. repeat case_match; intros [= ->] || apply Hj; try done. by eapply parse_int_fits.
  - simpl. intros n. repeat case_match; intros [= ->] || apply Hl; try done. by eapply parse_f32_bits.
Qed.

Lemma validate_typed is_dir c : config_typed c -> config_typed (validate is_dir c).
Proof.
  intros (Hi & Hj & Hl). split_and!; [|exact Hj|exact Hl].
  unfold int_settings in *. rewrite !Forall_cons in *. destruct_and!. rewrite Forall_nil.
  split_and!; try done; simpl; repeat case_match; try done; unfold fits; simpl; vm_compute; split; discriminate.
Qed.

Lemma default_typed : config_typed ServerConfig_default.
Proof.
  split_and!; [|discriminate..]. unfold int_settings. rewrite !Forall_cons, Forall_nil.
  split_and!; try done; unfold fits; vm_compute; split; discriminate.
Qed.

(** Repair leaves the positive fields alone, a hard-delete window that is too short apart. *)
Lemma validate_keeps is_dir c name t field :
  (name, t, field) ∈ int_settings -> (name = "REMERGE_SNAPSHOT_CACHE_HARD_DELETE_HOURS" -> snapshot_cache_grace_period_hours (validate is_dir c) <= field c) ->
  0 < field c -> field (validate is_dir c) = field c.
Proof.
  intros Hin Hhard Hpos. unfold int_settings in Hin.
  repeat (apply elem_of_cons in Hin as [[= -> -> ->]|Hin]; [first [specialize (Hhard eq_refl)|clear Hhard]; simpl in *; repeat case_match; reflect_bools; done || lia|]).
  by apply elem_of_nil in Hin.
Qed.

Hypothesis toml_typed : forall s c, toml_from_str s = Ok c -> config_typed c.

Lemma file_typed content c :
  file_config toml_from_str content = Ok c -> config_typed c.
Proof.
  unfold file_config. destruct content as [text|]; [|intros [= <-]; apply default_typed].
  destruct (toml_from_str text) as [c'|] eqn:E; [|done]. intros [= <-]. by eapply toml_typed.
Qed.

Lemma typed_unsigned c : config_typed c -> config_unsigned c.
Proof. intros (Hi & _ & _). unfold int_settings in Hi. rewrite !Forall_cons in Hi. unfold fits in Hi. simpl in Hi. unfold config_unsigned. lia. Qed.
End Typed.

(** C27. What [ServerConfig::load] returns is well typed and sane, whatever the file and the
    environment say: every integer field lies in the range of its Rust type, limits and cache
    windows are positive, the network mode is not blank and a kept [repos_dir] is a directory.
    A variable that holds the decimal form of a positive value of the field's type sets the
    field, overriding the file, unless it is the hard-delete window and shorter than the
    grace period.  It fails only when the file can be read and is not a configuration. *)
Theorem load_typed toml_from_str parse_f32 proc content :
  (forall s c, toml_from_str s = Ok c -> config_typed c) ->
  (forall s x, parse_f32 s = Some x -> fits U32 x) ->
  match load toml_from_str parse_f32 proc content with
  | Ok c =>
      config_typed c /\ config_sane (is_directory proc) c /\
      (forall name t field n,
         (name, t, field) ∈ int_settings -> env_var proc name = Some (pretty n) -> fits t n -> 0 < n ->
         (name = "REMERGE_SNAPSHOT_CACHE_HARD_DELETE_HOURS" -> snapshot_cache_grace_period_hours c <= n) -> field c = n)
  | Err e => exists text e0, content = Ok text /\ toml_from_str text = Err e0 /\ e = in_context "Failed to parse server config" e0
  end.
Proof.
  intros Htoml Hf32. unfold load. destruct (file_config toml_from_str content) as [c|e] eqn:E.
  - assert (config_typed (apply_env parse_f32 proc c)) as Ht by (apply apply_env_typed, (file_typed _ Htoml _ _ E); done).
    split_and!; [by apply validate_typed|by apply validate_repairs, typed_unsigned|].
    intros name t field n Hin He Hn Hpos Hhard. pose proof (apply_env_sets parse_f32 _ c _ _ _ _ Hin He Hn) as Hset.
    rewrite (validate_keeps _ _ name t field); [done|done|intros Hname; rewrite Hset; by apply Hhard|lia].
  - unfold file_config in E. destruct content as [text|]; [|done]. destruct (toml_from_str text) as [|e0] eqn:E0; [done|]. injection E as <-. eauto.
Qed.

(** A process whose environment sets the number of workers, and a reader that knows one file. *)
Definition demo_env (vars : list (string * string)) : Process := {|
  env_var name := (list_to_map vars : gmap string string) !! name;
  working_dir := ["srv"]; current_exe := Some ["usr"; "bin"; "remerge-server"];
  is_file p := bool_decide (p = ["usr"; "bin"; "remerge-worker"]); is_directory _ := None |}.
Definition demo_toml (s : string) : Result ServerConfig Error :=
  if is_empty s then Ok ServerConfig_default else Err (Bail "expected an equals").
Definition demo_vars : Process := demo_env [("REMERGE_MAX_WORKERS", "12"); ("REMERGE_WORKER_CPU_SHARES", "-5"); ("REMERGE_RETENTION_HOURS", "x")].

Lemma load_typed_witness :
  match load demo_toml (fun _ => None) demo_vars (Ok "") with
  | Ok c =>
      config_typed c /\ config_sane (is_directory demo_vars) c /\
      (forall name t field n,
         (name, t, field) ∈ int_settings -> env_var demo_vars name = Some (pretty n) -> fits t n -> 0 < n ->
         (name = "REMERGE_SNAPSHOT_CACHE_HARD_DELETE_HOURS" -> snapshot_cache_grace_period_hours c <= n) -> field c = n)
  | Err _ => False
  end.
Proof.
  pose proof (load_typed demo_toml (fun _ => None) demo_vars (Ok "")) as H.
  destruct (load demo_toml _ demo_vars (Ok "")) as [c|e] eqn:E; [|vm_compute in E; discriminate].
  apply H; [|discriminate]. intros s c'. unfold demo_toml. destruct (is_empty s); [|discriminate]. intros [= <-]. apply default_typed.
Defined.

(** The environment of the example: a set value, one that [validate] repairs, one that is
    not a number, and the worker found beside the server. *)
Example demo_load :
  match load demo_toml (fun _ => None) demo_vars (Ok "") with
  | Ok c => (max_workers c, worker_cpu_shares c, retention_hours c, worker_binary c)
  | Err _ => (0, 0, 0, None)
  end = (12, 1024, 24, Some ["usr"; "bin"; "remerge-worker"]).
Proof. vm_compute. reflexivity. Qed.

(** A mode that is not spelled exactly as [none], [mtls] or [mixed] is ignored without a word,
    and so is a file that cannot be read: both leave a server that authenticates nobody. *)
Example misspelt_mode_opens_server e :
  match load demo_toml (fun _ => None) (demo_env [("REMERGE_AUTH_MODE", "mTLS")]) (Err e) with
  | Ok c => Auth.ac_mode (auth c) = AuthNone
  | Err _ => False
  end.
Proof. vm_compute. reflexivity. Qed.

(** No workers at all is accepted: nothing the server queues is ever built. *)
Example zero_workers_accepted :
  match load demo_toml (fun _ => None) (demo_env [("REMERGE_MAX_WORKERS", "0")]) (Ok "") with
  | Ok c => max_workers c = 0
  | Err _ => False
  end.
Proof. vm_compute. reflexivity. Qed.
