(* ===== verification/Metrics.v ===== *)
(** * Metrics ([crates/server/src/metrics.rs])

    The atomic counters and gauges.  A counter is named by a constructor; all are
    [AtomicU64], whose [fetch_add] and [fetch_sub] wrap around. *)

From S2P Require Import Prelude.

Inductive Counter :=
| workorders_submitted | workorders_completed | workorders_failed | workorders_cancelled
| builds_active | builds_total_duration_secs | queue_depth | binpkg_disk_usage_bytes
| worker_image_builds_total | worker_image_build_duration_secs_total
| worker_container_starts_total | worker_container_startup_duration_secs_total
| cleanup_success_total | cleanup_failure_total | cleanup_reclaimed_bytes_total
| snapshot_missing_blob_queries_total | snapshot_missing_blob_digests_total
| snapshot_missing_blob_digests_missing_total
| snapshot_blob_uploads_total | snapshot_blob_upload_dedup_hits_total | snapshot_blob_upload_bytes_total
| snapshot_blob_downloads_total | snapshot_blob_download_bytes_total
| snapshot_runtime_stages_total | snapshot_runtime_stage_bytes_total
| package_builds_total | package_build_duration_secs_total.

#[global] Instance Counter_eq_dec : EqDecision Counter.
Proof. solve_decision. Defined.

Record PackageBuildMetrics := { pbm_builds_total : Z; pbm_duration_secs_total : Z }.
Definition PackageBuildMetrics_default : PackageBuildMetrics :=
  {| pbm_builds_total := 0; pbm_duration_secs_total := 0 |}.

Record Metrics := {
  counter : Counter -> Z;
  package_builds_by_atom : gmap string PackageBuildMetrics;
}.

Definition Metrics_new : Metrics := {| counter := fun _ => 0; package_builds_by_atom := ∅ |}.

Definition set_counter (c : Counter) (v : Z) (m : Metrics) : Metrics := {|
  counter := fun d => if bool_decide (d = c) then v else counter m d;
  package_builds_by_atom := package_builds_by_atom m |}.

Definition fetch_add (c : Counter) (n : Z) (m : Metrics) : Metrics :=
  set_counter c (u64_wrapping_add (counter m c) n) m.
Definition fetch_sub (c : Counter) (n : Z) (m : Metrics) : Metrics :=
  set_counter c (u64_wrapping_sub (counter m c) n) m.

Definition record_worker_image_build (duration_secs : Z) (m : Metrics) : Metrics :=
  fetch_add worker_image_build_duration_secs_total duration_secs (fetch_add worker_image_builds_total 1 m).

Definition record_worker_container_start (duration_secs : Z) (m : Metrics) : Metrics :=
  fetch_add worker_container_startup_duration_secs_total duration_secs
    (fetch_add worker_container_starts_total 1 m).

Definition record_cleanup (success : bool) (m : Metrics) : Metrics :=
  fetch_add (if success then cleanup_success_total else cleanup_failure_total) 1 m.

Definition record_cleanup_reclaimed_bytes (reclaimed : Z) (m : Metrics) : Metrics :=
  fetch_add cleanup_reclaimed_bytes_total reclaimed m.

Definition record_snapshot_missing_blob_query (digests missing : Z) (m : Metrics) : Metrics :=
  fetch_add snapshot_missing_blob_digests_missing_total missing
    (fetch_add snapshot_missing_blob_digests_total digests
      (fetch_add snapshot_missing_blob_queries_total 1 m)).

Definition record_snapshot_blob_upload (raw_size : Z) (uploaded : bool) (m : Metrics) : Metrics :=
  let m := fetch_add snapshot_blob_upload_bytes_total raw_size (fetch_add snapshot_blob_uploads_total 1 m) in
  if uploaded then m else fetch_add snapshot_blob_upload_dedup_hits_total 1 m.

Definition record_snapshot_blob_download (served : Z) (m : Metrics) : Metrics :=
  fetch_add snapshot_blob_download_bytes_total served (fetch_add snapshot_blob_downloads_total 1 m).

Definition record_snapshot_runtime_stage (materialized : Z) (m : Metrics) : Metrics :=
  fetch_add snapshot_runtime_stage_bytes_total materialized (fetch_add snapshot_runtime_stages_total 1 m).

Definition MAX_PACKAGE_BUILD_METRIC_SERIES : Z := 128.

(** The per-package sums are plain [u64] additions, written with the wrap-around of
    a release build. *)
Definition record_package_build (atom : string) (duration_secs : Z) (m : Metrics) : Metrics :=
  let m := fetch_add package_build_duration_secs_total duration_secs (fetch_add package_builds_total 1 m) in
  let by_atom := package_builds_by_atom m in
  if negb (is_some (by_atom !! atom)) && (MAX_PACKAGE_BUILD_METRIC_SERIES <=? Z.of_nat (size by_atom)) then m
  else
  let entry := default PackageBuildMetrics_default (by_atom !! atom) in
  {| counter := counter m;
     package_builds_by_atom := <[atom := {|
       pbm_builds_total := u64_wrapping_add (pbm_builds_total entry) 1;
       pbm_duration_secs_total := u64_wrapping_add (pbm_duration_secs_total entry) duration_secs |}]> by_atom |}.

(** ** Facts *)

Lemma counter_set c d v m : counter (set_counter c v m) d = if bool_decide (d = c) then v else counter m d.
Proof. done. Qed.

Lemma counter_add c d n m :
  counter (fetch_add c n m) d = if bool_decide (d = c) then u64_wrapping_add (counter m c) n else counter m d.
Proof. done. Qed.

Lemma counter_sub c d n m :
  counter (fetch_sub c n m) d = if bool_decide (d = c) then u64_wrapping_sub (counter m c) n else counter m d.
Proof. done. Qed.

Lemma counter_record_package_build atom n m d :
  d <> package_builds_total -> d <> package_build_duration_secs_total ->
  counter (record_package_build atom n m) d = counter m d.
Proof.
  intros H1 H2. unfold record_package_build.
  assert (Hc : counter (fetch_add package_build_duration_secs_total n (fetch_add package_builds_total 1 m)) d
    = counter m d) by by rewrite !counter_add, !bool_decide_false.
  case_match; exact Hc.
Qed.

Lemma size_insert_le {V} (m : gmap string V) k v :
  (size (<[k := v]> m) <= S (size m))%nat.
Proof.
  destruct (m !! k) eqn:E.
  - rewrite map_size_insert_Some; [lia|by eexists].
  - rewrite map_size_insert_None by done. lia.
Qed.

Lemma record_package_build_series atom n m :
  Z.of_nat (size (package_builds_by_atom m)) <= MAX_PACKAGE_BUILD_METRIC_SERIES ->
  Z.of_nat (size (package_builds_by_atom (record_package_build atom n m))) <= MAX_PACKAGE_BUILD_METRIC_SERIES.
Proof.
  intros Hle. unfold record_package_build. cbn [package_builds_by_atom fetch_add set_counter].
  destruct (package_builds_by_atom m !! atom) as [v|] eqn:E; cbn [is_some negb andb].
  - cbn [package_builds_by_atom]. rewrite map_size_insert_Some; [done|by eexists].
  - case_match; [done|]. reflect_bools. cbn [package_builds_by_atom].
    pose proof (size_insert_le (package_builds_by_atom m) atom {|
       pbm_builds_total := u64_wrapping_add 0 1;
       pbm_duration_secs_total := u64_wrapping_add 0 n |}). simpl. lia.
Qed.
