(* ===== verification/Persistence.v ===== *)
(** * Saved state ([crates/server/src/persistence.rs])

    Workorders, results and clients are saved as three JSON files, each written
    under a temporary name and renamed into place, and loaded when the server
    starts.  [serde_json] at the three map types is a parameter. *)

From S2P Require Import Prelude Types Codecs World BlobStore Registry.

Class StateCodec := {
  workorders_to_json : gmap WorkorderId Workorder -> bytes;
  workorders_from_json : bytes -> option (gmap WorkorderId Workorder);
  results_to_json : gmap WorkorderId WorkorderResult -> bytes;
  results_from_json : bytes -> option (gmap WorkorderId WorkorderResult);
  clients_to_json : gmap ClientId ClientState -> bytes;
  clients_from_json : bytes -> option (gmap ClientId ClientState);
}.
Class StateCodecLaws `{StateCodec} : Prop := {
  workorders_json_roundtrip : forall m, workorders_from_json (workorders_to_json m) = Some m;
  results_json_roundtrip : forall m, results_from_json (results_to_json m) = Some m;
  clients_json_roundtrip : forall m, clients_from_json (clients_to_json m) = Some m;
}.

(** [.context(..)] on an [anyhow::Result]. *)
Definition recontext {A} (ctx : string) (m : IO A) : IO A := fun w =>
  match m w with
  | (Ok a, w') => (Ok a, w')
  | (Err (IoErr k _), w') => (Err (IoErr k ctx), w')
  | (Err (ParseErr _), w') => (Err (ParseErr ctx), w')
  | (Err (Bail _), w') => (Err (Bail ctx), w')
  end.

Definition workorders_path (state_dir : path) : path := join state_dir "workorders.json".
Definition results_path (state_dir : path) : path := join state_dir "results.json".
Definition clients_path (state_dir : path) : path := join state_dir "clients.json".

Definition write_json_with_atomic_replace (p : path) (json : bytes) : IO unit :=
  do parent <- context (parent p) "persistence path must have parent" ;;
  with_context ("Failed to create " +:+ display parent) (fs_create_dir_all parent) ;;
  do name <- context (last p) "persistence path must have utf-8 file name" ;;
  do id <- new_uuid ;;
  let temp := join parent ("." +:+ name +:+ ".tmp-" +:+ id) in
  with_context ("Failed to write " +:+ display temp) (fs_write temp json) ;;
  with_context ("Failed to move " +:+ display temp +:+ " into " +:+ display p) (fs_rename temp p) ;;
  ret tt.

(** [path.exists()], then [read_to_string] and [from_str]; a missing file is the
    empty map. *)
Definition fs_exists {E} (p : path) : Comp E bool := fun w => (Ok (is_some (files w !! p)), w).

Definition load_json {A} (p : path) (name : string) (empty : A) (parse : bytes -> option A) : IO A :=
  do present <- fs_exists p ;;
  if negb present then ret empty
  else
  do json <- with_context ("Failed to read " +:+ name) (fs_read p) ;;
  match parse json with
  | Some a => ret a
  | None => throw (ParseErr ("Failed to parse " +:+ name))
  end.

Section Persistence.
Context `{StateCodec}.

Definition save_workorders (state_dir : path) (workorders : gmap WorkorderId Workorder) : IO unit :=
  recontext "Failed to write workorders.json"
    (write_json_with_atomic_replace (workorders_path state_dir) (workorders_to_json workorders)) ;;
  ret tt.

(** The loop of [load_workorders]: an order that was in flight starts over. *)
Definition reset_in_flight (t : DateTime) (w : Workorder) : Workorder :=
  if is_in_flight (wo_status w) then with_status Pending t w else w.

Definition load_workorders (state_dir : path) : IO (gmap WorkorderId Workorder) :=
  do workorders <- load_json (workorders_path state_dir) "workorders.json" ∅ workorders_from_json ;;
  do t <- now ;;
  ret (reset_in_flight t <$> workorders).

Definition save_results (state_dir : path) (results : gmap WorkorderId WorkorderResult) : IO unit :=
  recontext "Failed to write results.json"
    (write_json_with_atomic_replace (results_path state_dir) (results_to_json results)) ;;
  ret tt.

Definition load_results (state_dir : path) : IO (gmap WorkorderId WorkorderResult) :=
  load_json (results_path state_dir) "results.json" ∅ results_from_json.

Definition save_clients (state_dir : path) (clients : gmap ClientId ClientState) : IO unit :=
  recontext "Failed to write clients.json"
    (write_json_with_atomic_replace (clients_path state_dir) (clients_to_json clients)) ;;
  ret tt.

(** The loop of [load_clients]: no client has an active workorder after a start. *)
Definition clear_active (s : ClientState) : ClientState := {|
  cs_client_id := cs_client_id s; cs_config_hash := cs_config_hash s; cs_system_hash := cs_system_hash s;
  cs_last_seen := cs_last_seen s; cs_active_workorder := None |}.

Definition load_clients (state_dir : path) : IO (gmap ClientId ClientState) :=
  do clients <- load_json (clients_path state_dir) "clients.json" ∅ clients_from_json ;;
  ret (clear_active <$> clients).

(** One tick of [run_periodic_save]; failures are only logged. *)
Definition periodic_save (state_dir : path) (results : gmap WorkorderId WorkorderResult)
    (workorders : gmap WorkorderId Workorder) (clients : gmap ClientId ClientState) : IO unit :=
  try_ (save_results state_dir results) (fun _ =>
  try_ (save_workorders state_dir workorders) (fun _ =>
  try_ (save_clients state_dir clients) (fun _ => ret tt))).

(** ** Atomic replacement *)

Lemma parent_join dir n : parent (join dir n) = Some dir.
Proof. unfold parent, join. destruct dir as [|x dir]; [done|]. cbn [app]. by rewrite app_comm_cons, removelast_last. Qed.

Lemma last_join dir n : last (join dir n) = Some n.
Proof. apply last_snoc. Qed.

Lemma join_inj dir m n : join dir m = join dir n -> m = n.
Proof. unfold join. intros He. apply app_inv_head in He. by injection He. Qed.

(** The temporary name of [name] under the [k]-th identifier. *)
Definition temp_name (name : string) (k : N) : string := "." +:+ name +:+ ".tmp-" +:+ pretty k.

(** Saving, failures included: the target holds the new contents if the save
    succeeds and is unchanged if it fails, and nothing else changes but the
    temporary file. *)
Lemma write_json_atomic dir name json w :
  head (chars name) <> Some "."%char ->
  let '(r, w') := write_json_with_atomic_replace (join dir name) json w in
  files w' !! join dir name = (if is_ok r then Some json else files w !! join dir name) /\
  (forall q, q <> join dir name -> q <> join dir (temp_name name (next_uuid w)) ->
     files w' !! q = files w !! q) /\
  clock w' = clock w /\ (faults w = [] -> is_ok r = true /\ faults w' = []).
Proof.
  intros Hn. set (temp := join dir (temp_name name (next_uuid w))).
  assert (Ht : temp <> join dir name).
  { intros He. apply join_inj in He. rewrite <- He in Hn. by apply Hn. }
  unfold write_json_with_atomic_replace, bind, context. rewrite parent_join, last_join.
  unfold ret at 1 2. unfold with_context. pose proof (create_dir_all_cases dir w) as H1.
  destruct (fs_create_dir_all dir w) as [r1 w1]. destruct H1 as ((Hu1 & Hc1 & Hq1) & Hf1 & Hok1).
  destruct r1 as [[]|e1].
  2:{ simpl. rewrite Hf1. split_and!; try done. intros Hw. by specialize (Hok1 Hw). }
  unfold new_uuid. set (w1' := {| files := files w1; faults := _; next_uuid := _; clock := _ |}).
  rewrite Hu1. fold (temp_name name (next_uuid w)). fold temp.
  pose proof (write_cases temp json w1') as H2. destruct (fs_write temp json w1') as [r2 w2].
  destruct H2 as ((Hu2 & Hc2 & Hq2) & H2). simpl in Hc2, Hq2, H2. rewrite Hf1 in H2.
  destruct H2 as [[-> Hf2]|(Hr2 & Hne & Hf2)].
  2:{ destruct r2; [done|]. cbn [is_ok]. split_and!.
      - destruct Hf2 as [->|[k ->]]; [done|]. by rewrite lookup_insert_ne.
      - intros q _ Hq. destruct Hf2 as [->|[k ->]]; [done|]. by rewrite lookup_insert_ne.
      - congruence.
      - intros Hw. by rewrite (Hq1 Hw) in Hne. }
  pose proof (rename_cases temp (join dir name) w2) as H3. destruct (fs_rename temp _ w2) as [r3 w3].
  destruct H3 as ((Hu3 & Hc3 & Hq3) & H3). rewrite Hf2 in H3. rewrite lookup_insert_eq in H3.
  destruct H3 as [(b & [= <-] & -> & Hf3)|(Hr3 & Hf3 & Hne)].
  - simpl. rewrite Hf3, lookup_insert_eq. split_and!; [done| |congruence|by auto].
    intros q Hq Hqt. by rewrite lookup_insert_ne, lookup_delete_ne, lookup_insert_ne.
  - destruct r3; [done|]. simpl. rewrite Hf3. split_and!.
    + by rewrite lookup_insert_ne.
    + intros q _ Hq. by rewrite lookup_insert_ne.
    + congruence.
    + intros Hw. by specialize (Hne (Hq2 (Hq1 Hw))).
Qed.

Lemma recontext_spec {A} ctx (m : IO A) w :
  snd (recontext ctx m w) = snd (m w) /\ is_ok (fst (recontext ctx m w)) = is_ok (fst (m w)).
Proof. unfold recontext. by destruct (m w) as [[a|[]] w']. Qed.

(** The three saves as instances of one statement: [name] is replaced by [json]. *)
Definition saves (m : IO unit) (dir : path) (name : string) (json : bytes) : Prop := forall w,
  let '(r, w') := m w in
  files w' !! join dir name = (if is_ok r then Some json else files w !! join dir name) /\
  (forall other, head (chars other) <> Some "."%char -> other <> name ->
     files w' !! join dir other = files w !! join dir other) /\
  clock w' = clock w /\ (faults w = [] -> r = Ok tt /\ faults w' = []).

Lemma save_saves ctx dir name json :
  head (chars name) <> Some "."%char ->
  saves (recontext ctx (write_json_with_atomic_replace (join dir name) json) ;; ret tt) dir name json.
Proof.
  intros Hn w. pose proof (write_json_atomic dir name json w Hn) as Hw.
  destruct (recontext_spec ctx (write_json_with_atomic_replace (join dir name) json) w) as [Hs Hok].
  unfold bind. destruct (recontext ctx _ w) as [r w'].
  destruct (write_json_with_atomic_replace (join dir name) json w) as [r0 w0]. simpl in Hs, Hok. subst w0.
  destruct Hw as (Htgt & Hframe & Hc & Hq). rewrite <- Hok in Htgt, Hq.
  assert (Hother : forall other, head (chars other) <> Some "."%char -> other <> name ->
     files w' !! join dir other = files w !! join dir other).
  { intros other Ho Hne. apply Hframe.
    - intros He. by apply join_inj in He.
    - intros He. apply join_inj in He. by rewrite He in Ho. }
  destruct r as [[]|e]; simpl in *; split_and!; try done.
  - intros Hw. by destruct (Hq Hw).
  - intros Hw. by destruct (Hq Hw).
Qed.

Lemma save_workorders_saves dir m : saves (save_workorders dir m) dir "workorders.json" (workorders_to_json m).
Proof. by apply save_saves. Qed.
Lemma save_results_saves dir m : saves (save_results dir m) dir "results.json" (results_to_json m).
Proof. by apply save_saves. Qed.
Lemma save_clients_saves dir m : saves (save_clients dir m) dir "clients.json" (clients_to_json m).
Proof. by apply save_saves. Qed.

(** The saved state as a start of the server would see it. *)
Record Saved := {
  saved_workorders : option (gmap WorkorderId Workorder);
  saved_results : option (gmap WorkorderId WorkorderResult);
  saved_clients : option (gmap ClientId ClientState);
}.

Definition saved_state (dir : path) (w : World) : Saved := {|
  saved_workorders := files w !! workorders_path dir ≫= workorders_from_json;
  saved_results := files w !! results_path dir ≫= results_from_json;
  saved_clients := files w !! clients_path dir ≫= clients_from_json |}.

Lemma load_json_quiet {A} p name (empty : A) parse w :
  faults w = [] ->
  ok_opt (fst (load_json p name empty parse w)) =
    (match files w !! p with None => Some empty | Some b => parse b end) /\
  snd (load_json p name empty parse w) = w.
Proof.
  intros Hw. unfold load_json, bind, fs_exists, with_context, fs_read, guarded, pop_fault.
  destruct (files w !! p) as [b|] eqn:E; simpl; [|done].
  rewrite Hw. simpl. rewrite E. simpl. by destruct (parse b).
Qed.

(** A save on which nothing fails leaves the three encodings in place. *)
Lemma periodic_save_state dir rs ws cs w :
  faults w = [] ->
  let w' := snd (periodic_save dir rs ws cs w) in
  faults w' = [] /\ files w' !! workorders_path dir = Some (workorders_to_json ws) /\
  files w' !! results_path dir = Some (results_to_json rs) /\
  files w' !! clients_path dir = Some (clients_to_json cs).
Proof.
  intros Hw. unfold periodic_save, try_.
  pose proof (save_results_saves dir rs w) as H1. destruct (save_results dir rs w) as [r1 w1].
  destruct H1 as (T1 & _ & _ & Q1). destruct (Q1 Hw) as [-> Hw1].
  pose proof (save_workorders_saves dir ws w1) as H2. destruct (save_workorders dir ws w1) as [r2 w2].
  destruct H2 as (T2 & O2 & _ & Q2). destruct (Q2 Hw1) as [-> Hw2].
  pose proof (save_clients_saves dir cs w2) as H3. destruct (save_clients dir cs w2) as [r3 w3].
  destruct H3 as (T3 & O3 & _ & Q3). destruct (Q3 Hw2) as [-> Hw3].
  simpl. unfold workorders_path, results_path, clients_path.
  rewrite (O3 "workorders.json"), (O3 "results.json"), (O2 "results.json") by done. done.
Qed.

(** C26.  Saving is atomic: whichever file operations of a periodic save fail or
    stop half way, each of the three state files afterwards parses to either the
    state that was being saved or exactly what it held before; and if nothing
    fails, all three hold the new state. *)
Theorem periodic_save_atomic `{!StateCodecLaws} dir rs ws cs w :
  let '(r, w') := periodic_save dir rs ws cs w in
  let old := saved_state dir w in
  let new := saved_state dir w' in
  r = Ok tt /\
  (saved_workorders new = Some ws \/ saved_workorders new = saved_workorders old) /\
  (saved_results new = Some rs \/ saved_results new = saved_results old) /\
  (saved_clients new = Some cs \/ saved_clients new = saved_clients old) /\
  (faults w = [] -> new = {| saved_workorders := Some ws; saved_results := Some rs; saved_clients := Some cs |}).
Proof.
  unfold periodic_save, try_.
  pose proof (save_results_saves dir rs w) as H1. destruct (save_results dir rs w) as [r1 w1].
  destruct H1 as (T1 & O1 & _ & Q1).
  pose proof (save_workorders_saves dir ws w1) as H2. destruct (save_workorders dir ws w1) as [r2 w2].
  destruct H2 as (T2 & O2 & _ & Q2).
  pose proof (save_clients_saves dir cs w2) as H3. destruct (save_clients dir cs w2) as [r3 w3].
  destruct H3 as (T3 & O3 & _ & Q3).
  unfold ret. unfold saved_state, workorders_path, results_path, clients_path.
  rewrite (O3 "workorders.json"), (O3 "results.json"), (O2 "results.json") by done.
  rewrite T3, T2, T1, (O2 "clients.json"), (O1 "clients.json"), (O1 "workorders.json") by done.
  split; [done|]. cbn [saved_workorders saved_results saved_clients].
  split_and!.
  - destruct (is_ok r2); [left; apply workorders_json_roundtrip|by right].
  - destruct (is_ok r1); [left; apply results_json_roundtrip|by right].
  - destruct (is_ok r3); [left; apply clients_json_roundtrip|by right].
  - intros Hw. destruct (Q1 Hw) as [-> Hw1]. destruct (Q2 Hw1) as [-> Hw2]. destruct (Q3 Hw2) as [-> _].
    simpl. by rewrite workorders_json_roundtrip, results_json_roundtrip, clients_json_roundtrip.
Qed.

(** C25.  What a restart recovers: after a save and a start on which nothing fails,
    exactly the saved workorders are back; the ones that were provisioning or building
    are pending with the time of the load and are otherwise field for field as saved,
    the others - pending and finished ones - are unchanged; results are as saved; clients
    are as saved but none has an active workorder. *)
Theorem restart_recovers `{!StateCodecLaws} dir rs ws cs w :
  faults w = [] ->
  let w' := snd (periodic_save dir rs ws cs w) in
  exists ws', load_workorders dir w' = (Ok ws', w') /\
    (forall id, match ws !! id with
       | None => ws' !! id = None
       | Some o => exists o', ws' !! id = Some o' /\
           (is_in_flight (wo_status o) = false -> o' = o) /\
           (is_in_flight (wo_status o) = true -> o' = {|
              wo_id := wo_id o; wo_client_id := wo_client_id o; wo_role := wo_role o; wo_atoms := wo_atoms o;
              wo_emerge_args := wo_emerge_args o; wo_portage_config := wo_portage_config o; wo_system_id := wo_system_id o;
              wo_trace_context := wo_trace_context o; wo_status := Pending; wo_created_at := wo_created_at o; wo_updated_at := clock w' |})
       end) /\
    load_results dir w' = (Ok rs, w') /\
    load_clients dir w' = (Ok (clear_active <$> cs), w').
Proof.
  intros Hw w'. destruct (periodic_save_state dir rs ws cs w Hw) as (Hq & F1 & F2 & F3). fold w' in Hq, F1, F2, F3.
  exists (reset_in_flight (clock w') <$> ws).
  assert (Hload : forall A p name (empty : A) parse b a, files w' !! p = Some b -> parse b = Some a ->
    load_json p name empty parse w' = (Ok a, w')).
  { intros A p name empty parse b a Hp Ha. destruct (load_json_quiet p name empty parse w' Hq) as [Hr Hs].
    rewrite Hp, Ha in Hr. destruct (load_json p name empty parse w') as [[a'|] w2]; by simplify_eq/=. }
  split_and!.
  - unfold load_workorders, bind. erewrite Hload; [done|done|apply workorders_json_roundtrip].
  - intros id. rewrite lookup_fmap. destruct (ws !! id) as [o|]; simpl; [|done].
    eexists. split; [done|]. unfold reset_in_flight. destruct (wo_status o) eqn:E; simpl; by split_and!.
  - eapply Hload; [done|apply results_json_roundtrip].
  - unfold load_clients, bind. erewrite Hload; [done|done|apply clients_json_roundtrip].
Qed.

End Persistence.

(** ** Concrete runs *)

Definition state_codec_reference : StateCodec := {|
  workorders_to_json := to_bytes; workorders_from_json := of_bytes;
  results_to_json := to_bytes; results_from_json := of_bytes;
  clients_to_json := to_bytes; clients_from_json := of_bytes |}.

Lemma state_codec_reference_laws : @StateCodecLaws state_codec_reference.
Proof. split; intros m; apply of_to_bytes. Qed.

Definition demo_order (id : WorkorderId) (client : ClientId) (st : WorkorderStatus) (created : Z) : Workorder := {|
  wo_id := id; wo_client_id := client; wo_role := Main; wo_atoms := ["dev-libs/openssl"]; wo_emerge_args := [];
  wo_portage_config := Registry.demo_portage_config; wo_system_id := Registry.demo_system;
  wo_trace_context := None; wo_status := st; wo_created_at := created; wo_updated_at := created |}.
Definition demo_orders : gmap WorkorderId Workorder :=
  {[1%N := demo_order 1 7 Building 10; 2%N := demo_order 2 8 Completed 20]}.

Lemma periodic_save_atomic_witness :
  let '(r, w') := @periodic_save state_codec_reference demo_dir ∅ demo_orders ∅ (demo_world demo_faults) in
  let old := @saved_state state_codec_reference demo_dir (demo_world demo_faults) in
  let new := @saved_state state_codec_reference demo_dir w' in
  r = Ok tt /\
  (saved_workorders new = Some demo_orders \/ saved_workorders new = saved_workorders old) /\
  (saved_results new = Some ∅ \/ saved_results new = saved_results old) /\
  (saved_clients new = Some ∅ \/ saved_clients new = saved_clients old) /\
  (faults (demo_world demo_faults) = [] ->
   new = {| saved_workorders := Some demo_orders; saved_results := Some ∅; saved_clients := Some ∅ |}).
Proof. apply (@periodic_save_atomic state_codec_reference state_codec_reference_laws). Defined.

Lemma restart_recovers_witness :
  let w' := snd (@periodic_save state_codec_reference demo_dir ∅ demo_orders ∅ (demo_world [])) in
  exists ws', @load_workorders state_codec_reference demo_dir w' = (Ok ws', w') /\
    (forall id, match demo_orders !! id with
       | None => ws' !! id = None
       | Some o => exists o', ws' !! id = Some o' /\
           (is_in_flight (wo_status o) = false -> o' = o) /\
           (is_in_flight (wo_status o) = true -> o' = {|
              wo_id := wo_id o; wo_client_id := wo_client_id o; wo_role := wo_role o; wo_atoms := wo_atoms o;
              wo_emerge_args := wo_emerge_args o; wo_portage_config := wo_portage_config o; wo_system_id := wo_system_id o;
              wo_trace_context := wo_trace_context o; wo_status := Pending; wo_created_at := wo_created_at o; wo_updated_at := clock w' |})
       end) /\
    @load_results state_codec_reference demo_dir w' = (Ok ∅, w') /\
    @load_clients state_codec_reference demo_dir w' = (Ok (clear_active <$> ∅), w').
Proof. apply (@restart_recovers state_codec_reference state_codec_reference_laws). reflexivity. Defined.
