(* ===== verification/Repo.v ===== *)
(** * Binary package repository ([crates/server/src/repo.rs])

    The scan of the package directory, the [Packages] index and the removal of old
    versions, on the files of the world.  In what order a directory or a hash map is
    enumerated is a parameter. *)

From S2P Require Import Prelude World BlobStore.

(** An unspecified order of enumeration: of [read_dir] and of a [HashMap]. *)
Class SetIter := set_iter : gset string -> list string.
Class SetIterLaws `{SetIter} : Prop := set_iter_perm : forall X, set_iter X ≡ₚ elements X.

Record PackageMeta := {
  cpv : string;
  filename : string;
  relative_path : string;
  pkg_size : Z;
  pkg_sha256 : string;
  is_gpkg : bool;
}.

(** [s.strip_suffix(x)] and [s.ends_with(x)] *)
Definition reverse (s : string) : string := of_chars (rev (chars s)).
Definition strip_suffix (x s : string) : option string := reverse <$> strip_prefix (reverse x) (reverse s).
Definition ends_with (x s : string) : bool := is_some (strip_suffix x s).

(** The loop of [extract_package_base], from the last index down: [i] bytes are
    left to try. *)
Fixpoint extract_base_from (s : list ascii) (i : nat) : list ascii :=
  match i with
  | O => s
  | S j =>
      match s !! j, s !! S j with
      | Some c, Some n => if Ascii.eqb c "-" && is_ascii_digit n then take j s else extract_base_from s j
      | _, _ => extract_base_from s j
      end
  end.

Definition extract_package_base (cpv : string) : string :=
  of_chars (extract_base_from (chars cpv) (length (chars cpv))).

(** ** Directories of the model *)

(** The rest of a path below a directory. *)
Fixpoint strip_path (dir p : path) : option path :=
  match dir, p with
  | [], _ => Some p
  | x :: d, y :: q => if String.eqb x y then strip_path d q else None
  | _ :: _, [] => None
  end.

(** The names of the entries of a directory. *)
Definition entry_name (dir p : path) : option string :=
  match strip_path dir p with Some (n :: _) => Some n | _ => None end.
Definition entry_names (fs : gmap path bytes) (dir : path) : gset string :=
  list_to_set (omap (entry_name dir) (elements (dom fs))).

Definition has_file (fs : gmap path bytes) (p : path) : bool := is_some (fs !! p).
(** A directory of the model is one that has entries. *)
Definition has_dir (fs : gmap path bytes) (dir : path) : bool :=
  existsb (fun p => match strip_path dir p with Some (_ :: _) => true | _ => false end) (elements (dom fs)).

(** [path.is_file()] and [path.is_dir()]: an error is [false]. *)
Definition fs_test (f : gmap path bytes -> bool) : IO bool :=
  try_ (guarded no_effect (fun w => (Ok (f (files w)), w))) (fun r =>
  match r with Ok b => ret b | Err _ => ret false end).

(** An io error returned by a plain [?]. *)
Definition plain {A} (m : FsOp A) : IO A := with_context "I/O error" m.

(** [dir.next_entry().await?]: which entry it yields is decided by the listing. *)
Definition next_entry : IO unit := plain (guarded no_effect (ret tt)).

Definition string_bytes (s : string) : bytes := String.list_byte_of_string s.

(** [BinpkgRepo::init] *)
Definition repo_init (root : path) : IO unit := with_context "Failed to create binpkg repo directory" (fs_create_dir_all root).

Section Repo.
Context `{Sha256, SetIter}.

Definition fs_read_dir (dir : path) : FsOp (list string) :=
  guarded no_effect (fun w => (Ok (set_iter (entry_names (files w) dir)), w)).

Definition meta_of (filename : string) (category : option string) (data : bytes) : PackageMeta :=
  let name_without_ext :=
    default filename (strip_suffix ".gpkg.tar" filename <|> strip_suffix ".tbz2" filename) in
  {| cpv := match category with Some cat => cat +:+ "/" +:+ name_without_ext | None => name_without_ext end;
     filename := filename;
     relative_path := match category with Some cat => cat +:+ "/" +:+ filename | None => filename end;
     pkg_size := blen data;
     pkg_sha256 := sha256_hex data;
     is_gpkg := ends_with ".gpkg.tar" filename |}.

Definition read_package_meta (dir : path) (filename : string) (category : option string) : IO PackageMeta :=
  do data <- plain (fs_read (join dir filename)) ;;
  ret (meta_of filename category data).

(** The name of a package file; [Path::extension] of [".tbz2"] is [None]. *)
Definition is_package_file (filename : string) : bool :=
  ends_with ".gpkg.tar" filename ||
  (ends_with ".tbz2" filename && negb (bool_decide (filename = ".tbz2"))).

(** The loop of [scan_directory] over the entries of the directory. *)
Fixpoint scan_entries (dir : path) (category : option string) (names : list string)
    (entries : list PackageMeta) : IO (list PackageMeta) :=
  match names with
  | [] => next_entry ;; ret entries
  | n :: rest =>
      next_entry ;;
      do is_file <- fs_test (fun fs => has_file fs (join dir n)) ;;
      if is_file && is_package_file n then
        try_ (read_package_meta dir n category) (fun r =>
        match r with
        | Ok m => scan_entries dir category rest (entries ++ [m])
        | Err _ => scan_entries dir category rest entries
        end)
      else scan_entries dir category rest entries
  end.

Definition scan_directory (dir : path) (category : option string) (entries : list PackageMeta) :
    IO (list PackageMeta) :=
  try_ (fs_read_dir dir) (fun r =>
  match r with
  | Err _ => ret entries
  | Ok names => scan_entries dir category names entries
  end).

Definition is_category (dir_name : string) : bool :=
  contains_char "-" dir_name && negb (starts_with "." dir_name) && negb (bool_decide (dir_name = "Packages")).

(** The loop of [scan_packages] over the category directories. *)
Fixpoint scan_categories (root : path) (names : list string) (entries : list PackageMeta) :
    IO (list PackageMeta) :=
  match names with
  | [] => next_entry ;; ret entries
  | n :: rest =>
      next_entry ;;
      do is_dir <- fs_test (fun fs => has_dir fs (join root n)) ;;
      if is_dir && is_category n then
        do entries <- scan_directory (join root n) (Some n) entries ;;
        scan_categories root rest entries
      else scan_categories root rest entries
  end.

Definition scan_packages (root : path) : IO (list PackageMeta) :=
  do entries <- scan_directory root None [] ;;
  do names <- plain (fs_read_dir root) ;;
  scan_categories root names entries.

Definition newline : string := String "010"%char "".

Definition index_entry (m : PackageMeta) : string :=
  "CPV: " +:+ cpv m +:+ newline +:+ "SIZE: " +:+ pretty (pkg_size m) +:+ newline +:+
  "SHA256: " +:+ pkg_sha256 m +:+ newline +:+ "PATH: " +:+ relative_path m +:+ newline +:+
  (if is_gpkg m then "BINPKG_FORMAT: gpkg" +:+ newline else "") +:+ newline.

(** The contents [regenerate_index] writes. *)
Definition index_content (entries : list PackageMeta) : string :=
  "PACKAGES: " +:+ pretty (length entries) +:+ newline +:+ newline +:+
  fold_right (fun m acc => index_entry m +:+ acc) "" entries.

Definition regenerate_index (root : path) : IO unit :=
  do entries <- scan_packages root ;;
  write_bytes_with_atomic_replace root (join root "Packages") "Packages" (string_bytes (index_content entries)).

(** ** Removing old versions *)

(** Byte-wise order of file names, [a.filename.cmp(&b.filename)]: [true] when [a]
    is not greater. *)
Fixpoint string_leb (a b : string) : bool :=
  match a, b with
  | EmptyString, _ => true
  | String _ _, EmptyString => false
  | String x a', String y b' => if code x =? code y then string_leb a' b' else code x <? code y
  end.

Fixpoint insert_by_name (x : PackageMeta) (l : list PackageMeta) : list PackageMeta :=
  match l with
  | [] => [x]
  | y :: r => if string_leb (filename x) (filename y) then x :: l else y :: insert_by_name x r
  end.
Definition sort_by_name (l : list PackageMeta) : list PackageMeta := fold_right insert_by_name [] l.

(** The versions of one package that [cleanup_old_versions] deletes. *)
Definition old_versions (keep : nat) (versions : list PackageMeta) : list PackageMeta :=
  if Nat.leb (length versions) keep then []
  else take (length versions - keep) (sort_by_name versions).

(** The group of a base name. *)
Definition package_base (m : PackageMeta) : string := extract_package_base (cpv m).
Definition versions_of (entries : list PackageMeta) (base : string) : list PackageMeta :=
  List.filter (fun m => bool_decide (package_base m = base)) entries.
Definition bases_of (entries : list PackageMeta) : gset string := list_to_set (map package_base entries).

(** [self.root.join(&entry.relative_path)] *)
Definition package_path (root : path) (m : PackageMeta) : path := root ++ split_on "/" (relative_path m).

(** Remove files, counting those that could be removed. *)
Fixpoint remove_packages (root : path) (ms : list PackageMeta) (removed : Z) : IO Z :=
  match ms with
  | [] => ret removed
  | m :: rest =>
      try_ (fs_remove_file (package_path root m)) (fun r =>
      match r with
      | Err _ => remove_packages root rest removed
      | Ok _ => remove_packages root rest (removed + 1)
      end)
  end.

Definition cleanup_old_versions (root : path) (keep : nat) : IO Z :=
  do entries <- scan_packages root ;;
  do removed <- remove_packages root
    (concat (map (fun b => old_versions keep (versions_of entries b)) (set_iter (bases_of entries)))) 0 ;;
  (if 0 <? removed then regenerate_index root else ret tt) ;;
  ret removed.

End Repo.

(** ** Facts *)

Lemma insert_by_name_Permutation x l : insert_by_name x l ≡ₚ x :: l.
Proof.
  induction l as [|y r IH]; simpl; [done|]. case_match; [done|]. rewrite IH. apply Permutation_swap.
Qed.

Lemma sort_by_name_Permutation l : sort_by_name l ≡ₚ l.
Proof. induction l as [|x l IH]; simpl; [done|]. by rewrite insert_by_name_Permutation, IH. Qed.

Lemma extract_base_from_spec s i :
  (i <= length s)%nat ->
  let r := extract_base_from s i in
  (exists j, (j < i)%nat /\ r = take j s /\ s !! j = Some "-"%char /\
     exists n, s !! S j = Some n /\ is_ascii_digit n = true) \/
  (r = s /\ forall j c n, (j < i)%nat -> s !! j = Some c -> s !! S j = Some n ->
     c = "-"%char -> is_ascii_digit n = false).
Proof.
  induction i as [|i IH]; intros Hi; simpl.
  - right. split; [done|]. intros j. lia.
  - destruct (IH ltac:(lia)) as [(j & Hj & Hr & Hc & Hn)|[Hr Hno]];
      destruct (s !! i) as [c|] eqn:Ec; destruct (s !! S i) as [n|] eqn:En.
    1: destruct (Ascii.eqb_spec c "-") as [->|]; [destruct (is_ascii_digit n) eqn:Ed|]; simpl;
         left; [exists i|exists j|exists j]; split_and!; eauto; lia.
    1-3: left; exists j; split_and!; eauto; lia.
    1: destruct (Ascii.eqb_spec c "-") as [->|Hcd]; [destruct (is_ascii_digit n) eqn:Ed|]; simpl.
    1: left; exists i; split_and!; eauto.
    all: right; split; [done|]; intros k c' n' Hk Hc' Hn' ->;
         destruct (decide (k = i)) as [->|]; [|by eapply (Hno k); eauto; lia];
         rewrite ?Ec, ?En in *; simplify_eq; try done.
Qed.

Lemma versions_of_base entries base m : m ∈ versions_of entries base -> package_base m = base.
Proof.
  unfold versions_of. rewrite list_elem_of_In, filter_In, bool_decide_eq_true. tauto.
Qed.

(** ** What the scan finds

    The package a file stands for, by where it is. *)
Section Scan.
Context `{Sha256, SetIter}.

Definition classify (root : path) (p : path) (data : bytes) : option PackageMeta :=
  match strip_path root p with
  | Some [n] => if is_package_file n then Some (meta_of n None data) else None
  | Some [c; n] => if is_category c && is_package_file n then Some (meta_of n (Some c) data) else None
  | _ => None
  end.

(** All packages of a directory tree, in no particular order. *)
Definition packages (fs : gmap path bytes) (root : path) : list PackageMeta :=
  omap (fun '(p, data) => classify root p data) (map_to_list fs).

(** No component of a path contains a slash. *)
Definition slash_free (fs : gmap path bytes) : Prop :=
  forall p data n, fs !! p = Some data -> n ∈ p -> "/"%char ∉ chars n.

Lemma strip_path_Some dir p q : strip_path dir p = Some q <-> p = dir ++ q.
Proof.
  revert p. induction dir as [|x dir IH]; intros p; simpl.
  { split; [by intros [= ->]|by intros ->]. }
  destruct p as [|y p]; [done|].
  destruct (String.eqb_spec x y) as [->|Hne]; rewrite ?IH; split; congruence.
Qed.

Lemma elem_of_entry_names fs dir n :
  n ∈ entry_names fs dir <-> exists q, is_Some (fs !! (dir ++ n :: q)).
Proof.
  unfold entry_names. rewrite elem_of_list_to_set, list_elem_of_omap. split.
  - intros (p & Hp & Hn). rewrite elem_of_elements, elem_of_dom in Hp. unfold entry_name in Hn.
    destruct (strip_path dir p) as [[|m q]|] eqn:E; simplify_eq. apply strip_path_Some in E as ->. eauto.
  - intros (q & Hq). exists (dir ++ n :: q). rewrite elem_of_elements, elem_of_dom. split; [done|].
    unfold entry_name. by rewrite (proj2 (strip_path_Some dir (dir ++ n :: q) (n :: q)) eq_refl).
Qed.

Lemma has_dir_true fs dir : has_dir fs dir = true <-> exists n, n ∈ entry_names fs dir.
Proof.
  unfold has_dir. rewrite existsb_exists. setoid_rewrite elem_of_entry_names. split.
  - intros (p & Hp & Hd). apply list_elem_of_In in Hp. rewrite elem_of_elements, elem_of_dom in Hp.
    destruct (strip_path dir p) as [[|n q]|] eqn:E; try done. apply strip_path_Some in E as ->. eauto.
  - intros (n & q & Hq). exists (dir ++ n :: q). rewrite <- list_elem_of_In, elem_of_elements, elem_of_dom.
    split; [done|]. by rewrite (proj2 (strip_path_Some dir (dir ++ n :: q) (n :: q)) eq_refl).
Qed.

(** *** The scan when nothing fails *)

Definition scan_list (fs : gmap path bytes) (dir : path) (category : option string) (names : list string) :
    list PackageMeta :=
  omap (fun n => if is_package_file n then meta_of n category <$> fs !! join dir n else None) names.

Definition scan_category (fs : gmap path bytes) (root : path) (n : string) : list PackageMeta :=
  if has_dir fs (join root n) && is_category n
  then scan_list fs (join root n) (Some n) (set_iter (entry_names fs (join root n))) else [].

Definition scan_all (fs : gmap path bytes) (root : path) : list PackageMeta :=
  let names := set_iter (entry_names fs root) in
  scan_list fs root None names ++ concat (map (scan_category fs root) names).

Lemma bind_Ok {E A B} (m : Comp E A) (k : A -> Comp E B) a w w' :
  m w = (Ok a, w') -> bind m k w = k a w'.
Proof. unfold bind. by intros ->. Qed.

Lemma try_eq {E F A B} (m : Comp E A) (k : Result A E -> Comp F B) r w w' :
  m w = (r, w') -> try_ m k w = k r w'.
Proof. unfold try_. by intros ->. Qed.

Lemma next_entry_quiet w : faults w = [] -> next_entry w = (Ok tt, w).
Proof. intros Hw. unfold next_entry, plain, with_context. by rewrite guarded_quiet. Qed.

Lemma fs_test_quiet f w : faults w = [] -> fs_test f w = (Ok (f (files w)), w).
Proof. intros Hw. unfold fs_test, try_. by rewrite guarded_quiet. Qed.

Lemma read_package_meta_quiet dir n cat w : faults w = [] ->
  read_package_meta dir n cat w =
    match files w !! join dir n with
    | Some data => (Ok (meta_of n cat data), w)
    | None => (Err (IoErr NotFound "I/O error"), w)
    end.
Proof.
  intros Hw. unfold read_package_meta, bind, plain, with_context, fs_read. rewrite guarded_quiet by done.
  by destruct (files w !! join dir n).
Qed.

Lemma scan_entries_quiet dir cat names acc w :
  faults w = [] -> scan_entries dir cat names acc w = (Ok (acc ++ scan_list (files w) dir cat names), w).
Proof.
  intros Hw. revert acc. induction names as [|n rest IH]; intros acc; simpl.
  - rewrite (bind_Ok _ _ tt w w) by by apply next_entry_quiet. by rewrite app_nil_r.
  - rewrite (bind_Ok _ _ tt w w) by by apply next_entry_quiet.
    rewrite (bind_Ok _ _ _ w w) by by apply fs_test_quiet. unfold has_file.
    destruct (files w !! join dir n) as [data|] eqn:E; destruct (is_package_file n) eqn:Ep;
      simpl; rewrite ?Ep; try apply IH.
    rewrite (try_eq _ _ (Ok (meta_of n cat data)) w w).
    + rewrite IH. simpl. by rewrite <- app_assoc.
    + by rewrite read_package_meta_quiet, E.
Qed.

Lemma scan_directory_quiet dir cat acc w :
  faults w = [] ->
  scan_directory dir cat acc w =
    (Ok (acc ++ scan_list (files w) dir cat (set_iter (entry_names (files w) dir))), w).
Proof.
  intros Hw. unfold scan_directory, fs_read_dir.
  rewrite (try_eq _ _ (Ok (set_iter (entry_names (files w) dir))) w w) by by rewrite guarded_quiet.
  by apply scan_entries_quiet.
Qed.

Lemma scan_categories_quiet root names acc w :
  faults w = [] ->
  scan_categories root names acc w = (Ok (acc ++ concat (map (scan_category (files w) root) names)), w).
Proof.
  intros Hw. revert acc. induction names as [|n rest IH]; intros acc; simpl.
  - rewrite (bind_Ok _ _ tt w w) by by apply next_entry_quiet. by rewrite app_nil_r.
  - rewrite (bind_Ok _ _ tt w w) by by apply next_entry_quiet.
    rewrite (bind_Ok _ _ _ w w) by by apply fs_test_quiet. unfold scan_category at 1.
    destruct (has_dir (files w) (join root n) && is_category n); simpl; [|apply IH].
    rewrite (bind_Ok _ _ _ w w) by by apply scan_directory_quiet. rewrite IH. by rewrite <- app_assoc.
Qed.

Lemma scan_packages_quiet root w :
  faults w = [] -> scan_packages root w = (Ok (scan_all (files w) root), w).
Proof.
  intros Hw. unfold scan_packages.
  rewrite (bind_Ok _ _ _ w w) by by apply scan_directory_quiet.
  rewrite (bind_Ok _ _ (set_iter (entry_names (files w) root)) w w).
  - rewrite scan_categories_quiet by done. done.
  - unfold plain, with_context, fs_read_dir. by rewrite guarded_quiet.
Qed.

(** *** The scan finds every package once *)

Lemma string_app_inj_l a b c : a +:+ c = b +:+ c -> a = b.
Proof.
  intros He. apply chars_inj. apply (f_equal chars) in He. rewrite !chars_app in He.
  by apply app_inv_tail in He.
Qed.

Lemma NoDup_omap_inj {A B} (f : A -> option B) l :
  (forall x y b, x ∈ l -> y ∈ l -> f x = Some b -> f y = Some b -> x = y) -> NoDup l -> NoDup (omap f l).
Proof.
  intros Hf Hl. revert Hf. induction Hl as [|x l Hx Hl IH]; intros Hf; simpl; [constructor|].
  assert (NoDup (omap f l)) by (apply IH; intros ????? ; apply Hf; by constructor).
  destruct (f x) as [b|] eqn:E; [|done]. constructor; [|done].
  intros (y & Hy & Hb)%list_elem_of_omap. rewrite (Hf x y b) in Hx; try done; by constructor.
Qed.

Lemma NoDup_concat_map {A B} (f : A -> list B) l :
  (forall x, NoDup (f x)) -> (forall x y b, b ∈ f x -> b ∈ f y -> x = y) -> NoDup l -> NoDup (concat (map f l)).
Proof.
  intros Hn Hf. induction 1 as [|x l Hx Hl IH]; simpl; [constructor|].
  apply NoDup_app. split_and!; [done| |done].
  intros b Hb Hb'. apply list_elem_of_In, in_concat in Hb' as (bs & Hbs & Hbb).
  apply in_map_iff in Hbs as (y & <- & Hy). apply list_elem_of_In in Hy, Hbb.
  by rewrite (Hf x y b Hb Hbb) in Hx.
Qed.

Lemma meta_of_inj n n' cat cat' data data' :
  meta_of n cat data = meta_of n' cat' data' -> n = n' /\ cat = cat'.
Proof.
  unfold meta_of. intros He. apply (f_equal (fun m => (filename m, relative_path m))) in He. simpl in He.
  injection He as <- Hr. split; [done|].
  assert (Hno : forall c s, s <> c +:+ "/" +:+ s).
  { intros c s Hs. apply (f_equal (fun s => length (chars s))) in Hs.
    rewrite !chars_app, !length_app in Hs. simpl in Hs. lia. }
  destruct cat as [c|], cat' as [c'|]; try done.
  - rewrite <- !string_app_assoc in Hr. apply string_app_inj_l, string_app_inj_l in Hr. by subst.
  - by symmetry in Hr; apply Hno in Hr.
  - by apply Hno in Hr.
Qed.

Lemma classify_inv root p data m :
  classify root p data = Some m ->
  exists n cat, is_package_file n = true /\ m = meta_of n cat data /\
    match cat with
    | None => p = root ++ [n]
    | Some c => is_category c = true /\ p = root ++ [c; n]
    end.
Proof.
  unfold classify. destruct (strip_path root p) as [q|] eqn:E; [|done]. apply strip_path_Some in E.
  destruct q as [|n [|n' [|]]]; try done; case_match eqn:Ep; intros; simplify_eq.
  - by exists n, None.
  - apply andb_true_iff in Ep as [Hc Hn]. by exists n', (Some n).
Qed.

Lemma classify_None_path root n data :
  is_package_file n = true -> classify root (root ++ [n]) data = Some (meta_of n None data).
Proof.
  intros Hn. unfold classify. rewrite (proj2 (strip_path_Some root (root ++ [n]) [n]) eq_refl). by rewrite Hn.
Qed.

Lemma classify_Some_path root c n data :
  is_category c = true -> is_package_file n = true ->
  classify root (root ++ [c; n]) data = Some (meta_of n (Some c) data).
Proof.
  intros Hc Hn. unfold classify. rewrite (proj2 (strip_path_Some root (root ++ [c; n]) [c; n]) eq_refl).
  by rewrite Hc, Hn.
Qed.

Lemma elem_of_packages fs root m :
  m ∈ packages fs root <-> exists p data, fs !! p = Some data /\ classify root p data = Some m.
Proof.
  unfold packages. rewrite list_elem_of_omap. split.
  - intros ([p data] & Hp & Hm). apply elem_of_map_to_list in Hp. eauto.
  - intros (p & data & Hp & Hm). exists (p, data). by rewrite elem_of_map_to_list.
Qed.

Lemma NoDup_packages fs root : NoDup (packages fs root).
Proof.
  unfold packages. apply NoDup_omap_inj; [|apply NoDup_map_to_list].
  intros [p d] [q e] m Hp Hq Hm Hm'. apply elem_of_map_to_list in Hp, Hq.
  apply classify_inv in Hm as (n & cat & _ & -> & Hcat), Hm' as (n' & cat' & _ & He & Hcat').
  apply meta_of_inj in He as [<- <-]. assert (p = q) as ->; [|congruence].
  destruct cat; [destruct Hcat, Hcat'|]; congruence.
Qed.

Lemma elem_of_scan_list fs dir cat names m :
  m ∈ scan_list fs dir cat names <->
  exists n data, n ∈ names /\ is_package_file n = true /\ fs !! join dir n = Some data /\ m = meta_of n cat data.
Proof.
  unfold scan_list. rewrite list_elem_of_omap. split.
  - intros (n & Hn & Hm). destruct (is_package_file n) eqn:E; [|done].
    destruct (fs !! join dir n) as [data|] eqn:Ed; simplify_eq/=. by exists n, data.
  - intros (n & data & Hn & Hp & Hd & ->). exists n. by rewrite Hp, Hd.
Qed.

Lemma NoDup_scan_list fs dir cat names : NoDup names -> NoDup (scan_list fs dir cat names).
Proof.
  intros Hn. apply NoDup_omap_inj; [|done]. intros x y m _ _ Hx Hy.
  destruct (is_package_file x), (is_package_file y); try done.
  destruct (fs !! join dir x), (fs !! join dir y); try done. simpl in Hx, Hy.
  rewrite <- Hy in Hx. apply (inj Some), meta_of_inj in Hx. tauto.
Qed.

Context `{!SetIterLaws}.

Lemma elem_of_set_iter (X : gset string) n : n ∈ set_iter X <-> n ∈ X.
Proof. by rewrite set_iter_perm, elem_of_elements. Qed.

Lemma NoDup_set_iter (X : gset string) : NoDup (set_iter X).
Proof. rewrite set_iter_perm. apply NoDup_elements. Qed.

Lemma elem_of_scan_category fs root c m :
  m ∈ scan_category fs root c <->
  exists n data, is_category c = true /\ is_package_file n = true /\
    fs !! (root ++ [c; n]) = Some data /\ m = meta_of n (Some c) data.
Proof.
  unfold scan_category. assert (Hj : forall n, join (join root c) n = root ++ [c; n]).
  { intros n. unfold join. by rewrite <- app_assoc. }
  assert (Hin : forall n data, fs !! (root ++ [c; n]) = Some data -> n ∈ entry_names fs (join root c)).
  { intros n data Hd. rewrite elem_of_entry_names. exists []. rewrite <- Hj in Hd. exists data. exact Hd. }
  destruct (has_dir fs (join root c)) eqn:Ed, (is_category c) eqn:Ec; simpl.
  2,4: split; [by intros ?%elem_of_nil|by intros (? & ? & [=] & _)].
  - rewrite elem_of_scan_list. setoid_rewrite Hj. split.
    + intros (n & data & _ & Hp & Hd & ->). by exists n, data.
    + intros (n & data & _ & Hp & Hd & ->). exists n, data. split_and!; try done.
      apply elem_of_set_iter. eauto.
  - split; [by intros ?%elem_of_nil|]. intros (n & data & _ & Hp & Hd & ->).
    rewrite (proj2 (has_dir_true fs (join root c))) in Ed; [done|]. eauto.
Qed.

Lemma elem_of_scan_all fs root m : m ∈ scan_all fs root <-> m ∈ packages fs root.
Proof.
  unfold scan_all. rewrite elem_of_app, elem_of_scan_list, elem_of_packages, list_elem_of_In, in_concat. split.
  - intros [(n & data & Hn & Hp & Hd & ->)|(ms & Hms & Hm)].
    + exists (root ++ [n]), data. split; [done|]. by apply classify_None_path.
    + apply in_map_iff in Hms as (c & <- & Hc). apply list_elem_of_In, elem_of_scan_category in Hm
        as (n & data & Hcat & Hp & Hd & ->).
      exists (root ++ [c; n]), data. split; [done|]. by apply classify_Some_path.
  - intros (p & data & Hd & Hm). apply classify_inv in Hm as (n & [c|] & Hp & -> & Hcat).
    + destruct Hcat as [Hc ->]. right. exists (scan_category fs root c). split.
      * apply in_map, list_elem_of_In. rewrite elem_of_set_iter, elem_of_entry_names. exists [n]. by rewrite Hd.
      * apply list_elem_of_In, elem_of_scan_category. by exists n, data.
    + subst p. left. exists n, data. split_and!; try done.
      rewrite elem_of_set_iter, elem_of_entry_names. exists []. by rewrite Hd.
Qed.

Lemma scan_all_packages fs root : scan_all fs root ≡ₚ packages fs root.
Proof.
  apply NoDup_Permutation; [|apply NoDup_packages|apply elem_of_scan_all].
  unfold scan_all. apply NoDup_app. split_and!.
  - apply NoDup_scan_list, NoDup_set_iter.
  - intros m Hm Hm'. apply elem_of_scan_list in Hm as (n & d & _ & _ & _ & ->).
    apply list_elem_of_In, in_concat in Hm' as (ms & Hms & Hm'). apply in_map_iff in Hms as (c & <- & _).
    apply list_elem_of_In, elem_of_scan_category in Hm' as (n' & d' & _ & _ & _ & He).
    by apply meta_of_inj in He as [].
  - apply NoDup_concat_map; [| |apply NoDup_set_iter].
    + intros c. unfold scan_category. case_match; [apply NoDup_scan_list, NoDup_set_iter|constructor].
    + intros c c' m Hm Hm'. apply elem_of_scan_category in Hm as (n & d & _ & _ & _ & ->).
      apply elem_of_scan_category in Hm' as (n' & d' & _ & _ & _ & He).
      apply meta_of_inj in He as [_ He]. congruence.
Qed.

End Scan.

(** ** Removing old versions *)

(** The versions of a package that stay: the last [keep] by file name. *)
Definition kept (keep : nat) (versions : list PackageMeta) : list PackageMeta :=
  drop (length versions - keep) (sort_by_name versions).

#[global] Instance PackageMeta_eq_dec : EqDecision PackageMeta.
Proof. solve_decision. Defined.

Lemma length_sort_by_name l : length (sort_by_name l) = length l.
Proof. by rewrite sort_by_name_Permutation. Qed.

Lemma old_kept keep vs : old_versions keep vs ++ kept keep vs ≡ₚ vs.
Proof.
  rewrite <- (sort_by_name_Permutation vs) at 3. unfold old_versions, kept.
  destruct (Nat.leb_spec (length vs) keep) as [Hle|Hgt].
  - replace (length vs - keep)%nat with 0%nat by lia. done.
  - by rewrite take_drop.
Qed.

Lemma filter_not_old keep vs : NoDup vs ->
  filter (fun m => m ∉ old_versions keep vs) vs ≡ₚ kept keep vs.
Proof.
  intros Hn. rewrite <- (old_kept keep vs) in Hn. apply NoDup_app in Hn as (Ho & Hd & Hk).
  apply NoDup_Permutation; [|done|].
  - apply NoDup_filter. rewrite <- (old_kept keep vs). by apply NoDup_app.
  - intros m. assert (Hin : m ∈ vs <-> m ∈ old_versions keep vs ++ kept keep vs) by by rewrite old_kept.
    rewrite list_elem_of_filter, Hin, elem_of_app.
    split; [tauto|]. intros Hm. split; [|tauto]. intros Hm'. by apply (Hd m).
Qed.

Lemma elem_of_versions_of entries b m : m ∈ versions_of entries b <-> m ∈ entries /\ package_base m = b.
Proof. unfold versions_of. by rewrite list_elem_of_In, filter_In, bool_decide_eq_true, <- list_elem_of_In. Qed.

Lemma NoDup_versions_of entries b : NoDup entries -> NoDup (versions_of entries b).
Proof. intros Hn. apply NoDup_ListNoDup, List.NoDup_filter, NoDup_ListNoDup, Hn. Qed.

Lemma old_versions_sub keep entries b m :
  m ∈ old_versions keep (versions_of entries b) -> m ∈ entries /\ package_base m = b.
Proof.
  intros Hm. apply elem_of_versions_of. rewrite <- (old_kept keep). apply elem_of_app. by left.
Qed.

Section Cleanup.
Context `{Sha256, SetIter, !SetIterLaws}.

Definition all_old (keep : nat) (entries : list PackageMeta) : list PackageMeta :=
  concat (map (fun b => old_versions keep (versions_of entries b)) (set_iter (bases_of entries))).

Lemma elem_of_all_old keep entries m :
  m ∈ all_old keep entries <-> m ∈ old_versions keep (versions_of entries (package_base m)).
Proof.
  unfold all_old. rewrite list_elem_of_In, in_concat. split.
  - intros (ms & Hms & Hm). apply in_map_iff in Hms as (b & <- & _). apply list_elem_of_In in Hm.
    by destruct (old_versions_sub _ _ _ _ Hm) as [_ ->].
  - intros Hm. exists (old_versions keep (versions_of entries (package_base m))).
    split; [|by apply list_elem_of_In]. apply in_map_iff. eexists. split; [done|].
    apply list_elem_of_In. rewrite elem_of_set_iter. unfold bases_of. rewrite elem_of_list_to_set.
    apply list_elem_of_fmap. exists m. split; [done|]. by apply (old_versions_sub _ _ _ _ Hm).
Qed.

Lemma NoDup_all_old keep entries : NoDup entries -> NoDup (all_old keep entries).
Proof.
  intros Hn. apply NoDup_concat_map; [| |apply NoDup_set_iter].
  - intros b. pose proof (NoDup_versions_of entries b Hn) as Hv. rewrite <- (old_kept keep) in Hv.
    by apply NoDup_app in Hv as [Hold _].
  - intros b b' m Hb Hb'. apply old_versions_sub in Hb, Hb'. destruct Hb, Hb'. congruence.
Qed.

Lemma classify_package_path fs root p data m :
  slash_free fs -> fs !! p = Some data -> classify root p data = Some m -> package_path root m = p.
Proof.
  intros Hsf Hp Hm. apply classify_inv in Hm as (n & [c|] & _ & -> & Hcat); unfold package_path;
    cbn [relative_path meta_of].
  - destruct Hcat as [_ ->]. change ("/" +:+ n) with (String "/" n). rewrite split_on_app, split_on_none; [done| |];
      eapply Hsf; try done; rewrite elem_of_app, !elem_of_cons; tauto.
  - subst p. rewrite split_on_none; [done|]. eapply Hsf; [done|]. rewrite elem_of_app, elem_of_cons. tauto.
Qed.

Lemma packages_path fs root m : slash_free fs -> m ∈ packages fs root ->
  exists data, fs !! package_path root m = Some data /\ classify root (package_path root m) data = Some m.
Proof.
  intros Hsf (p & data & Hp & Hm)%elem_of_packages. exists data.
  by rewrite (classify_package_path fs root p data m).
Qed.

Lemma NoDup_package_paths fs root ms :
  slash_free fs -> (forall m, m ∈ ms -> m ∈ packages fs root) -> NoDup ms ->
  NoDup (map (package_path root) ms).
Proof.
  intros Hsf Hin Hn. induction Hn as [|m ms Hm Hn IH]; simpl; [constructor|].
  constructor; [|apply IH; intros; apply Hin; by constructor].
  intros (m' & He & Hm')%list_elem_of_fmap.
  destruct (packages_path fs root m Hsf) as (d & Hd & Hc); [apply Hin; by constructor|].
  destruct (packages_path fs root m' Hsf) as (d' & Hd' & Hc'); [apply Hin; by constructor|].
  rewrite He in Hd, Hc. assert (d' = d) as -> by congruence. assert (m' = m) as -> by congruence. done.
Qed.

(** The files without some paths. *)
Definition without (ps : list path) (fs : gmap path bytes) : gmap path bytes :=
  filter (fun pd => pd.1 ∉ ps) fs.

Lemma lookup_without ps fs p : without ps fs !! p = if decide (p ∈ ps) then None else fs !! p.
Proof.
  apply option_eq. intros data. unfold without. rewrite map_lookup_filter_Some. simpl.
  case_decide; naive_solver.
Qed.

Lemma remove_packages_quiet root ms removed w :
  faults w = [] -> NoDup (map (package_path root) ms) ->
  (forall m, m ∈ ms -> is_Some (files w !! package_path root m)) ->
  remove_packages root ms removed w =
    (Ok (removed + Z.of_nat (length ms)), with_files (without (map (package_path root) ms) (files w)) w).
Proof.
  revert removed w. induction ms as [|m ms IH]; intros removed w Hw Hn Hin; cbn [remove_packages].
  - unfold ret. f_equal; [by rewrite Z.add_0_r|]. destruct w as [fs ft u c]. unfold with_files. simpl. f_equal.
    apply map_eq. intros p. by rewrite lookup_without.
  - inversion Hn as [|? ? Hm Hn']; subst. destruct (Hin m) as [data Hd]; [by constructor|].
    set (w1 := with_files (delete (package_path root m) (files w)) w).
    rewrite (try_eq _ _ (Ok tt) w w1).
    + rewrite IH; [|done|done|].
      * f_equal; [simpl; f_equal; lia|]. subst w1. unfold with_files. simpl. f_equal. apply map_eq. intros p.
        rewrite !lookup_without. destruct (decide (p = package_path root m)) as [->|Hne].
        -- rewrite lookup_delete_eq. do 2 case_decide; try done. exfalso. set_solver.
        -- rewrite lookup_delete_ne by done. do 2 case_decide; try done; exfalso; set_solver.
      * intros m' Hm'. simpl. rewrite lookup_delete_ne; [apply Hin; by constructor|].
        intros He. apply Hm. rewrite He. by apply list_elem_of_fmap_2.
    + unfold fs_remove_file. rewrite guarded_quiet by done. by rewrite Hd.
Qed.

Lemma packages_without root fs ms : slash_free fs ->
  (forall m, m ∈ ms -> m ∈ packages fs root) ->
  packages (without (map (package_path root) ms) fs) root ≡ₚ filter (fun m => m ∉ ms) (packages fs root).
Proof.
  intros Hsf Hms. apply NoDup_Permutation; [apply NoDup_packages|apply NoDup_filter, NoDup_packages|].
  intros m. rewrite list_elem_of_filter, !elem_of_packages. setoid_rewrite lookup_without. split.
  - intros (p & data & Hp & Hm). case_decide as Hin; [done|]. split; [|by eauto].
    intros Hmm. apply Hin. rewrite <- (classify_package_path fs root p data m) by done.
    by apply list_elem_of_fmap_2.
  - intros (Hm & p & data & Hp & Hc). exists p, data. split; [|done].
    rewrite decide_False; [done|]. intros (m' & -> & Hm')%list_elem_of_fmap.
    destruct (packages_path fs root m' Hsf (Hms _ Hm')) as (d' & Hd' & Hc'). by simplify_eq.
Qed.

Lemma packages_insert root fs p data :
  (forall d, classify root p d = None) -> packages (<[p := data]> fs) root ≡ₚ packages fs root.
Proof.
  intros Hc. apply NoDup_Permutation; [apply NoDup_packages..|]. intros m. rewrite !elem_of_packages. split.
  - intros (q & d & Hq & Hm). apply lookup_insert_Some in Hq as [[<- <-]|[_ Hq]]; [by rewrite Hc in Hm|eauto].
  - intros (q & d & Hq & Hm). exists q, d. rewrite lookup_insert_ne; [done|]. intros ->. by rewrite Hc in Hm.
Qed.

Lemma classify_index root data : classify root (join root "Packages") data = None.
Proof.
  unfold classify, join. by rewrite (proj2 (strip_path_Some root (root ++ ["Packages"]) ["Packages"]) eq_refl).
Qed.

(** The temporary name of the index. *)
Definition index_temp (root : path) (w : World) : path := join root ("Packages.tmp-" +:+ pretty (next_uuid w)).

Lemma regenerate_index_quiet root w :
  faults w = [] -> files w !! index_temp root w = None ->
  exists w', regenerate_index root w = (Ok tt, w') /\
    files w' = <[join root "Packages" := string_bytes (index_content (scan_all (files w) root))]> (files w).
Proof.
  intros Hw Hfresh. unfold regenerate_index. rewrite (bind_Ok _ _ _ w w) by by apply scan_packages_quiet.
  set (data := string_bytes _). unfold write_bytes_with_atomic_replace, bind, new_uuid.
  fold (index_temp root w). unfold with_context, fs_write. rewrite guarded_quiet by done.
  unfold try_, fs_rename. rewrite guarded_quiet by done. simpl. rewrite lookup_insert_eq. simpl.
  eexists. split; [done|]. simpl. by rewrite delete_insert_id.
Qed.

Lemma versions_left keep entries remaining b :
  NoDup entries -> remaining ≡ₚ filter (fun m => m ∉ all_old keep entries) entries ->
  versions_of remaining b ≡ₚ kept keep (versions_of entries b).
Proof.
  intros Hn Hr. pose proof (NoDup_versions_of entries b Hn) as Hv.
  rewrite <- filter_not_old by done. apply NoDup_Permutation.
  - apply NoDup_versions_of. rewrite Hr. by apply NoDup_filter.
  - by apply NoDup_filter.
  - intros m. rewrite list_elem_of_filter, !elem_of_versions_of, Hr, list_elem_of_filter, elem_of_all_old.
    split; [intros [[? ?] <-]|intros (? & ? & <-)]; auto.
Qed.

(** The removal step of a clean-up on which nothing fails. *)
Lemma remove_old_quiet root keep w :
  faults w = [] -> slash_free (files w) ->
  let entries := scan_all (files w) root in
  exists fs1, remove_packages root (all_old keep entries) 0 w =
      (Ok (Z.of_nat (length (all_old keep entries))), with_files fs1 w) /\
    (forall p, files w !! p = None -> fs1 !! p = None) /\
    (forall p, (forall data, classify root p data = None) -> fs1 !! p = files w !! p) /\
    (forall fs, packages fs root ≡ₚ packages fs1 root -> forall b,
       versions_of (scan_all fs root) b ≡ₚ kept keep (versions_of entries b)).
Proof.
  intros Hw Hsf entries. set (old := all_old keep entries).
  assert (He : entries ≡ₚ packages (files w) root) by apply scan_all_packages.
  assert (Hne : NoDup entries) by (rewrite He; apply NoDup_packages).
  assert (Hold : forall m, m ∈ old -> m ∈ packages (files w) root).
  { intros m Hm. rewrite <- He. apply elem_of_all_old in Hm. by apply (old_versions_sub _ _ _ _ Hm). }
  exists (without (map (package_path root) old) (files w)). split_and!.
  - rewrite remove_packages_quiet; [done|done| |].
    + eapply NoDup_package_paths; eauto using NoDup_all_old.
    + intros m Hm. destruct (packages_path (files w) root m Hsf (Hold m Hm)) as (d & Hd & _). by rewrite Hd.
  - intros p Hp. rewrite lookup_without. by case_decide.
  - intros p Hp. rewrite lookup_without, decide_False; [done|].
    intros (m & -> & Hm)%list_elem_of_fmap.
    destruct (packages_path (files w) root m Hsf (Hold m Hm)) as (d & _ & Hc). by rewrite Hp in Hc.
  - intros fs Hfs b. apply versions_left; [done|]. rewrite scan_all_packages, Hfs.
    rewrite packages_without by done. f_equiv. by symmetry.
Qed.

(** Clean-up keeps the last versions: if no file operation fails, then for
    every package exactly the last [keep] of its versions by file name remain (all
    of them if there are fewer), every file that is neither a package nor the index
    is untouched, and when something was removed the [Packages] index lists the
    packages that remain. *)
Theorem cleanup_keeps_last_versions root keep w :
  faults w = [] -> slash_free (files w) -> files w !! index_temp root w = None ->
  exists removed w', cleanup_old_versions root keep w = (Ok removed, w') /\
    (forall b, versions_of (scan_all (files w') root) b ≡ₚ kept keep (versions_of (scan_all (files w) root) b)) /\
    (forall p, p <> join root "Packages" -> (forall data, classify root p data = None) ->
       files w' !! p = files w !! p) /\
    (0 < removed -> exists entries, entries ≡ₚ scan_all (files w') root /\
       files w' !! join root "Packages" = Some (string_bytes (index_content entries))).
Proof.
  intros Hw Hsf Hfresh. destruct (remove_old_quiet root keep w Hw Hsf) as (fs1 & Hrm & Hno & Hother & Hleft).
  set (entries := scan_all (files w) root) in *. set (n := length (all_old keep entries)) in *.
  set (w1 := with_files fs1 w) in *.
  unfold cleanup_old_versions. rewrite (bind_Ok _ _ _ w w) by by apply scan_packages_quiet.
  rewrite (bind_Ok _ _ _ w w1) by exact Hrm. exists (Z.of_nat n).
  destruct (0 <? Z.of_nat n) eqn:Ep; reflect_bools.
  - destruct (regenerate_index_quiet root w1) as (w2 & Hre & Hf2); [done|by apply Hno|].
    exists w2. rewrite (bind_Ok _ _ tt w1 w2) by exact Hre. simpl in Hf2.
    assert (Hp2 : packages (files w2) root ≡ₚ packages fs1 root).
    { rewrite Hf2. apply packages_insert. intros d. apply classify_index. }
    split_and!; [done|by apply Hleft| |].
    + intros p Hp Hc. rewrite Hf2, lookup_insert_ne by done. by apply Hother.
    + intros _. exists (scan_all fs1 root). split; [by rewrite !scan_all_packages, Hp2|].
      by rewrite Hf2, lookup_insert_eq.
  - exists w1. rewrite (bind_Ok _ _ tt w1 w1) by done. split_and!; [done|by apply Hleft| |lia].
    intros p _. apply Hother.
Qed.

End Cleanup.

(** ** Concrete runs *)

Definition set_iter_reference : SetIter := elements.
Lemma set_iter_reference_laws : @SetIterLaws set_iter_reference.
Proof. intros X. done. Qed.

Definition demo_repo : World := {|
  files := list_to_map (map (fun v => (["binpkgs"; "dev-libs"; "foo-" +:+ v +:+ ".gpkg.tar"], string_bytes v))
                          ["1.7"; "1.8"; "1.9"; "1.10"]);
  faults := []; next_uuid := 1; clock := 0 |}.

Lemma slash_free_check fs :
  forallb (fun p => forallb (fun n => negb (contains_char "/" n)) p) (elements (dom fs)) = true -> slash_free fs.
Proof.
  rewrite forallb_forall. intros Hc p data n Hp Hn Hs.
  assert (Hin : In p (elements (dom fs))).
  { apply list_elem_of_In, elem_of_elements, elem_of_dom. eauto. }
  specialize (Hc p Hin). rewrite forallb_forall in Hc. apply list_elem_of_In in Hn.
  specialize (Hc n Hn). apply contains_char_spec in Hs. by rewrite Hs in Hc.
Qed.

Lemma cleanup_keeps_last_versions_witness :
  let w := demo_repo in
  let iter := set_iter_reference in
  exists removed w',
    @cleanup_old_versions sha256_reference set_iter_reference ["binpkgs"] 3 w = (Ok removed, w') /\
    (forall b, versions_of (@scan_all sha256_reference iter (files w') ["binpkgs"]) b ≡ₚ
       kept 3 (versions_of (@scan_all sha256_reference iter (files w) ["binpkgs"]) b)) /\
    (forall p, p <> join ["binpkgs"] "Packages" -> (forall data, @classify sha256_reference ["binpkgs"] p data = None) ->
       files w' !! p = files w !! p) /\
    (0 < removed -> exists entries, entries ≡ₚ @scan_all sha256_reference iter (files w') ["binpkgs"] /\
       files w' !! join ["binpkgs"] "Packages" = Some (string_bytes (index_content entries))).
Proof.
  apply (@cleanup_keeps_last_versions sha256_reference set_iter_reference set_iter_reference_laws).
  - reflexivity.
  - apply slash_free_check. vm_compute. reflexivity.
  - vm_compute. reflexivity.
Defined.

(** The order of file names is not the order of versions: with versions 1.7,
    1.8, 1.9 and 1.10 of a package present, the clean-up the server runs (which
    keeps three) deletes 1.10, the newest, and keeps the three older ones. *)
Theorem cleanup_removes_newest_version :
  let '(r, w') := @cleanup_old_versions sha256_reference set_iter_reference ["binpkgs"] 3 demo_repo in
  r = Ok 1 /\
  files w' !! ["binpkgs"; "dev-libs"; "foo-1.10.gpkg.tar"] = None /\
  is_Some (files w' !! ["binpkgs"; "dev-libs"; "foo-1.7.gpkg.tar"]) /\
  is_Some (files w' !! ["binpkgs"; "dev-libs"; "foo-1.8.gpkg.tar"]) /\
  is_Some (files w' !! ["binpkgs"; "dev-libs"; "foo-1.9.gpkg.tar"]).
Proof. vm_compute. eauto 10. Qed.
