(* ===== verification/TreeStore.v ===== *)
(** * Snapshot trees ([crates/server/src/tree_store.rs])

    A tree is the manifest of a repository snapshot, [path -> digest], stored as
    JSON under [<state>/trees/<sha256>.json] with its metadata and a zstd variant
    beside it.  The JSON codecs of [serde_json] are parameters. *)

From S2P Require Import Prelude World Frame BlobStore Repo.

Definition TREES_SUBDIR : string := "trees".

Record TreeMetadata := {
  tm_canonical_digest : string;
  tm_raw_size_bytes : Z;
  tm_last_referenced_at : Z;
  tm_encoded_variants : gmap BlobEncoding Z;
}.

(** [serde_json] at [TreeManifest] and [TreeMetadata]; a missing
    [last_referenced_at] defaults to the current time. *)
Class TreeCodec := {
  tree_manifest_to_vec : gmap string string -> bytes;
  tree_metadata_to_vec : TreeMetadata -> bytes;
  tree_metadata_from_slice : Z -> bytes -> option TreeMetadata;
}.
Class TreeCodecLaws `{TreeCodec} : Prop := {
  tree_manifest_to_vec_inj : Inj (=) (=) tree_manifest_to_vec;
  tree_metadata_roundtrip : forall now m, tree_metadata_from_slice now (tree_metadata_to_vec m) = Some m;
}.

Record StoredTree := { st_digest : string; st_path : path }.

(** ** Paths *)

Definition tree_file (state_dir : path) (name : string) : path := join (join state_dir TREES_SUBDIR) name.

Definition tree_path (state_dir : path) (digest : string) : Result path Error :=
  let? _ := validate_digest digest in Ok (tree_file state_dir (digest +:+ ".json")).

Definition encoded_tree_path (state_dir : path) (digest : string) (encoding : BlobEncoding) : Result path Error :=
  let? _ := validate_digest digest in
  Ok (tree_file state_dir (digest +:+ "." +:+ match encoding with EncZstd => "zst" end)).

Definition tree_metadata_path (state_dir : path) (digest : string) : Result path Error :=
  let? _ := validate_digest digest in Ok (tree_file state_dir (digest +:+ ".meta.json")).

(** ** Operations *)

Section Trees.
Context `{Sha256, TreeCodec, Zstd, SetIter}.

Definition load_tree_metadata (state_dir : path) (digest : string) : IO TreeMetadata :=
  do path <- lift (tree_metadata_path state_dir digest) ;;
  do b <- with_context ("Failed to read " +:+ display path) (fs_read path) ;;
  do t <- now ;;
  match tree_metadata_from_slice t b with
  | Some m => ret m
  | None => throw (ParseErr ("Failed to parse " +:+ display path))
  end.

Definition persist_tree_metadata (state_dir : path) (digest : string) (m : TreeMetadata) : IO unit :=
  do path <- lift (tree_metadata_path state_dir digest) ;;
  do parent <- context (parent path) "tree metadata path should always have a parent directory" ;;
  with_context ("Failed to create " +:+ display parent) (fs_create_dir_all parent) ;;
  write_bytes_with_atomic_replace parent path (digest +:+ ".meta.json") (tree_metadata_to_vec m).

Definition ensure_tree_metadata (state_dir : path) (digest : string) (raw_size : Z) : IO TreeMetadata :=
  try_ (load_tree_metadata state_dir digest) (fun r =>
  match r with
  | Ok m => ret m
  | Err e =>
      if is_not_found_error e then
        do t <- now ;;
        let m := {| tm_canonical_digest := digest; tm_raw_size_bytes := raw_size;
                    tm_last_referenced_at := t; tm_encoded_variants := ∅ |} in
        persist_tree_metadata state_dir digest m ;; ret m
      else throw e
  end).

Definition tree_with_variant (e : BlobEncoding) (n : Z) (m : TreeMetadata) : TreeMetadata := {|
  tm_canonical_digest := tm_canonical_digest m; tm_raw_size_bytes := tm_raw_size_bytes m;
  tm_last_referenced_at := tm_last_referenced_at m;
  tm_encoded_variants := <[e := n]> (tm_encoded_variants m) |}.

Definition tree_with_last_referenced (t : Z) (m : TreeMetadata) : TreeMetadata := {|
  tm_canonical_digest := tm_canonical_digest m; tm_raw_size_bytes := tm_raw_size_bytes m;
  tm_last_referenced_at := t; tm_encoded_variants := tm_encoded_variants m |}.

(** [maybe_store_zstd_variant] of trees: the variant is written in place. *)
Definition tree_maybe_store_zstd_variant (state_dir : path) (digest : string) (b : bytes) : IO unit :=
  do m <- ensure_tree_metadata state_dir digest (blen b) ;;
  do encoded_path <- lift (encoded_tree_path state_dir digest EncZstd) ;;
  let compress :=
    match encode_zstd_if_worthwhile b with
    | Err _ => throw (IoErr OtherIo "zstd")
    | Ok None => ret tt
    | Ok (Some compressed) =>
        do parent <- context (parent encoded_path) "encoded tree path should always have a parent directory" ;;
        with_context ("Failed to create " +:+ display parent) (fs_create_dir_all parent) ;;
        with_context ("Failed to write " +:+ display encoded_path) (fs_write encoded_path compressed) ;;
        persist_tree_metadata state_dir digest (tree_with_variant EncZstd (blen compressed) m)
    end in
  if bool_decide (is_Some (tm_encoded_variants m !! EncZstd)) then
    try_ (fs_metadata_len encoded_path) (fun r => if is_ok r then ret tt else compress)
  else compress.

Definition touch_tree (state_dir : path) (digest : string) (t : Z) : IO TreeMetadata :=
  lift (validate_digest digest) ;;
  do path <- lift (tree_path state_dir digest) ;;
  do raw_size <- with_context ("Failed to stat " +:+ display path) (fs_metadata_len path) ;;
  do m <- ensure_tree_metadata state_dir digest raw_size ;;
  let m := tree_with_last_referenced t m in
  persist_tree_metadata state_dir digest m ;;
  ret m.

Definition store_tree (state_dir : path) (entries : gmap string string) : IO StoredTree :=
  let b := tree_manifest_to_vec entries in
  let digest := sha256_hex b in
  do path <- lift (tree_path state_dir digest) ;;
  let raw_size := blen b in
  let tail :=
    ensure_tree_metadata state_dir digest raw_size ;;
    tree_maybe_store_zstd_variant state_dir digest b ;;
    do t <- now ;;
    touch_tree state_dir digest t ;;
    ret {| st_digest := digest; st_path := path |} in
  try_ (fs_metadata_len path) (fun r =>
  if is_ok r then tail
  else
    do parent <- context (parent path) "tree path should always have a parent directory" ;;
    with_context ("Failed to create " +:+ display parent) (fs_create_dir_all parent) ;;
    write_bytes_atomically parent path (digest +:+ ".json") b ;;
    tail).

Fixpoint remove_tree_variants (state_dir : path) (digest : string) (es : list BlobEncoding) : IO unit :=
  match es with
  | [] => ret tt
  | e :: rest =>
      do encoded_path <- lift (encoded_tree_path state_dir digest e) ;;
      remove_file_if_exists encoded_path ;;
      remove_tree_variants state_dir digest rest
  end.

Definition delete_tree (state_dir : path) (digest : string) : IO unit :=
  try_ (load_tree_metadata state_dir digest) (fun r =>
  let metadata := ok_opt r in
  do raw_path <- lift (tree_path state_dir digest) ;;
  remove_file_if_exists raw_path ;;
  match metadata with
  | Some m => remove_tree_variants state_dir digest ((map_to_list (tm_encoded_variants m)).*1)
  | None => ret tt
  end ;;
  do metadata_path <- lift (tree_metadata_path state_dir digest) ;;
  remove_file_if_exists metadata_path).

(** ** Listings of the two stores

    [read_dir] of a missing directory lists nothing, as the code treats it. *)

(** [entry.file_type().await?] *)
Definition file_type (f : gmap path bytes -> bool) : IO bool :=
  plain (guarded no_effect (fun w => (Ok (f (files w)), w))).

Record TreeMetadataRecord := { tmr_digest : string; tmr_metadata : TreeMetadata }.

Fixpoint list_tree_entries (state_dir : path) (names : list string) (records : list TreeMetadataRecord) :
    IO (list TreeMetadataRecord) :=
  match names with
  | [] => next_entry ;; ret records
  | name :: rest =>
      next_entry ;;
      do is_file <- file_type (fun fs => has_file fs (tree_file state_dir name)) ;;
      match strip_suffix ".meta.json" name with
      | Some digest =>
          if is_file then
            do m <- load_tree_metadata state_dir digest ;;
            list_tree_entries state_dir rest (records ++ [{| tmr_digest := digest; tmr_metadata := m |}])
          else list_tree_entries state_dir rest records
      | None => list_tree_entries state_dir rest records
      end
  end.

Definition list_tree_metadata (state_dir : path) : IO (list TreeMetadataRecord) :=
  let tree_root := join state_dir TREES_SUBDIR in
  try_ (fs_read_dir tree_root) (fun r =>
  match r with
  | Ok names => list_tree_entries state_dir names []
  | Err NotFound => ret []
  | Err e => throw (IoErr e ("Failed to read " +:+ display tree_root))
  end).

End Trees.

Section Blobs.
Context `{BlobMetadataCodec, SetIter}.

Record BlobMetadataRecord := { bmr_digest : string; bmr_metadata : BlobMetadata }.

Fixpoint list_blob_entries (state_dir : path) (shard : string) (names : list string)
    (records : list BlobMetadataRecord) : IO (list BlobMetadataRecord) :=
  match names with
  | [] => next_entry ;; ret records
  | name :: rest =>
      next_entry ;;
      do is_file <- file_type (fun fs => has_file fs (join (join (join state_dir BLOBS_SUBDIR) shard) name)) ;;
      match strip_suffix ".meta.json" name with
      | Some stem =>
          if is_file then
            let digest := shard +:+ stem in
            do m <- load_blob_metadata state_dir digest ;;
            list_blob_entries state_dir shard rest (records ++ [{| bmr_digest := digest; bmr_metadata := m |}])
          else list_blob_entries state_dir shard rest records
      | None => list_blob_entries state_dir shard rest records
      end
  end.

Fixpoint list_blob_shards (state_dir : path) (shards : list string) (records : list BlobMetadataRecord) :
    IO (list BlobMetadataRecord) :=
  match shards with
  | [] => next_entry ;; ret records
  | shard :: rest =>
      next_entry ;;
      let shard_path := join (join state_dir BLOBS_SUBDIR) shard in
      do is_dir <- file_type (fun fs => has_dir fs shard_path) ;;
      if negb is_dir then list_blob_shards state_dir rest records
      else
      do names <- with_context ("Failed to read " +:+ display shard_path) (fs_read_dir shard_path) ;;
      do records <- list_blob_entries state_dir shard names records ;;
      list_blob_shards state_dir rest records
  end.

Definition list_blob_metadata (state_dir : path) : IO (list BlobMetadataRecord) :=
  let blob_root := join state_dir BLOBS_SUBDIR in
  try_ (fs_read_dir blob_root) (fun r =>
  match r with
  | Ok shards => list_blob_shards state_dir shards []
  | Err NotFound => ret []
  | Err e => throw (IoErr e ("Failed to read " +:+ display blob_root))
  end).

End Blobs.

(** ** Paths of one tree *)

Definition tree_name (dir : path) (d suffix : string) : path := tree_file dir (d +:+ suffix).

Lemma tree_paths_eq dir d :
  valid_digest d ->
  tree_path dir d = Ok (tree_name dir d ".json") /\
  tree_metadata_path dir d = Ok (tree_name dir d ".meta.json") /\
  forall e, encoded_tree_path dir d e = Ok (tree_name dir d ("." +:+ file_extension e)).
Proof.
  intros Hv. unfold tree_path, tree_metadata_path, encoded_tree_path. rewrite validate_digest_valid by done.
  by split_and!; [| |intros []].
Qed.

Lemma tree_name_inj dir d d' s s' :
  valid_digest d -> valid_digest d' -> tree_name dir d s = tree_name dir d' s' -> d = d' /\ s = s'.
Proof.
  intros [Hl _] [Hl' _] He. unfold tree_name, tree_file, join in He.
  apply app_inv_head in He. injection He as He. apply string_app_inj_len in He; [done|congruence].
Qed.

Lemma blob_file_not_tree dir d s d' s' : blob_file dir d s <> tree_name dir d' s'.
Proof.
  unfold blob_file, tree_name, tree_file, join. rewrite <- app_assoc. simpl. intros He.
  by apply app_inv_head in He.
Qed.

(** ** What the operations look at *)

Section Looking.
Context `{Sha256, BlobMetadataCodec, TreeCodec, Zstd, SetIter}.

(** A record of a listing is the parsed metadata file of a valid digest. *)
Definition blob_listed (dir : path) (fs : gmap path bytes) (t : Z) (r : BlobMetadataRecord) : Prop :=
  valid_digest (bmr_digest r) /\
  exists b, fs !! blob_file dir (bmr_digest r) ".meta.json" = Some b /\
            blob_metadata_from_slice t b = Some (bmr_metadata r).
Definition tree_listed (dir : path) (fs : gmap path bytes) (t : Z) (r : TreeMetadataRecord) : Prop :=
  valid_digest (tmr_digest r) /\
  exists b, fs !! tree_name dir (tmr_digest r) ".meta.json" = Some b /\
            tree_metadata_from_slice t b = Some (tmr_metadata r).

Lemma observes_load_blob_metadata dir d :
  observes (fun fs t m => blob_listed dir fs t {| bmr_digest := d; bmr_metadata := m |}) (load_blob_metadata dir d).
Proof.
  unfold load_blob_metadata, blob_listed. destruct (validate_digest_cases d) as [[Hv _]|[e He]].
  - rewrite metadata_path_eq by done. simpl. unfold bind at 1, lift, ret at 1.
    eapply observes_bind; [apply observes_with_context, observes_read|]. intros b.
    eapply observes_bind; [apply observes_now|]. intros t.
    destruct (blob_metadata_from_slice t b) as [m|] eqn:Em; [|apply observes_throw].
    apply observes_ret. intros fs t' <- Hb. eauto.
  - destruct (invalid_paths dir d e He) as (_ & -> & _). by intros w.
Qed.

Lemma observes_load_tree_metadata dir d :
  observes (fun fs t m => tree_listed dir fs t {| tmr_digest := d; tmr_metadata := m |}) (load_tree_metadata dir d).
Proof.
  unfold load_tree_metadata, tree_listed. destruct (validate_digest_cases d) as [[Hv _]|[e He]].
  - destruct (tree_paths_eq dir d Hv) as (_ & -> & _). simpl. unfold bind at 1, lift, ret at 1.
    eapply observes_bind; [apply observes_with_context, observes_read|]. intros b.
    eapply observes_bind; [apply observes_now|]. intros t.
    destruct (tree_metadata_from_slice t b) as [m|] eqn:Em; [|apply observes_throw].
    apply observes_ret. intros fs t' <- Hb. eauto.
  - unfold tree_metadata_path. rewrite He. by intros w.
Qed.

Lemma observes_next_entry : observes (fun _ _ _ => True) next_entry.
Proof. apply observes_with_context, observes_guarded. by intros w. Qed.

Lemma observes_file_type f : observes (fun fs _ b => b = f fs) (file_type f).
Proof. apply observes_with_context, observes_guarded. by intros w. Qed.

Lemma observes_read_dir dir : observes (fun fs _ ns => ns = set_iter (entry_names fs dir)) (fs_read_dir dir).
Proof. apply observes_guarded. by intros w. Qed.

Lemma observes_list_blob_entries dir shard names acc :
  observes (fun fs t rs => Forall (blob_listed dir fs t) acc -> Forall (blob_listed dir fs t) rs)
    (list_blob_entries dir shard names acc).
Proof.
  revert acc. induction names as [|n rest IH]; intros acc; cbn [list_blob_entries].
  - eapply observes_bind; [apply observes_next_entry|]. intros []. by apply observes_ret.
  - eapply observes_bind; [apply observes_next_entry|]. intros [].
    eapply observes_bind; [apply observes_file_type|]. intros is_file.
    destruct (strip_suffix ".meta.json" n) as [stem|]; [destruct is_file|].
    2,3: eapply observes_mono; [apply IH|]; auto.
    eapply observes_bind; [apply observes_load_blob_metadata|]. intros m.
    eapply observes_mono; [apply IH|]. intros fs t rs Hrs Hm _ _ Hacc. apply Hrs, Forall_app. auto.
Qed.

Lemma observes_list_tree_entries dir names acc :
  observes (fun fs t rs => Forall (tree_listed dir fs t) acc -> Forall (tree_listed dir fs t) rs)
    (list_tree_entries dir names acc).
Proof.
  revert acc. induction names as [|n rest IH]; intros acc; cbn [list_tree_entries].
  - eapply observes_bind; [apply observes_next_entry|]. intros []. by apply observes_ret.
  - eapply observes_bind; [apply observes_next_entry|]. intros [].
    eapply observes_bind; [apply observes_file_type|]. intros is_file.
    destruct (strip_suffix ".meta.json" n) as [stem|]; [destruct is_file|].
    2,3: eapply observes_mono; [apply IH|]; auto.
    eapply observes_bind; [apply observes_load_tree_metadata|]. intros m.
    eapply observes_mono; [apply IH|]. intros fs t rs Hrs Hm _ _ Hacc. apply Hrs, Forall_app. auto.
Qed.

Lemma observes_list_blob_shards dir shards acc :
  observes (fun fs t rs => Forall (blob_listed dir fs t) acc -> Forall (blob_listed dir fs t) rs)
    (list_blob_shards dir shards acc).
Proof.
  revert acc. induction shards as [|n rest IH]; intros acc; cbn [list_blob_shards].
  - eapply observes_bind; [apply observes_next_entry|]. intros []. by apply observes_ret.
  - eapply observes_bind; [apply observes_next_entry|]. intros []. cbv zeta.
    eapply observes_bind; [apply observes_file_type|]. intros [|]; cbn [negb].
    2: eapply observes_mono; [apply IH|]; auto.
    eapply observes_bind; [apply observes_with_context, observes_read_dir|]. intros names.
    eapply observes_bind; [apply observes_list_blob_entries|]. intros rs.
    eapply observes_mono; [apply IH|]. auto.
Qed.

Lemma observes_list_blob_metadata dir :
  observes (fun fs t rs => Forall (blob_listed dir fs t) rs) (list_blob_metadata dir).
Proof.
  unfold list_blob_metadata. eapply observes_try; [apply observes_read_dir|]. intros [names|[]]; try apply observes_throw.
  - eapply observes_mono; [apply observes_list_blob_shards|]. auto.
  - apply observes_ret. auto.
Qed.

Lemma observes_list_tree_metadata dir :
  observes (fun fs t rs => Forall (tree_listed dir fs t) rs) (list_tree_metadata dir).
Proof.
  unfold list_tree_metadata. eapply observes_try; [apply observes_read_dir|]. intros [names|[]]; try apply observes_throw.
  - eapply observes_mono; [apply observes_list_tree_entries|]. auto.
  - apply observes_ret. auto.
Qed.

End Looking.

(** ** Footprints *)

Definition tree_area (dir : path) (d : string) (p : path) : Prop :=
  valid_digest d /\ exists s, p = tree_name dir d s.

Lemma parent_tree_name dir d s : parent (tree_name dir d s) = Some (join dir TREES_SUBDIR).
Proof.
  unfold parent, tree_name, tree_file, join. rewrite removelast_last.
  by destruct ((dir ++ [TREES_SUBDIR]) ++ [d +:+ s]) eqn:E; [destruct dir|].
Qed.

Section Footprints.
Context `{Sha256, TreeCodec, Zstd}.
Context (dir : path) (d : string).

Lemma tree_area_file s : valid_digest d -> tree_area dir d (tree_name dir d s).
Proof. intros Hv. split; eauto. Qed.
Lemma tree_area_temp s x : valid_digest d -> tree_area dir d (join (join dir TREES_SUBDIR) ((d +:+ s) +:+ x)).
Proof. intros Hv. rewrite string_app_assoc. by apply tree_area_file. Qed.
#[local] Hint Resolve tree_area_file tree_area_temp foots_write_atomically foots_atomic_replace : foots.

Ltac solve_tree_area :=
  destruct (validate_digest_cases d) as [[Hv Hd]|[err Hd]];
  [ destruct (tree_paths_eq dir d Hv) as (Htp & Hmp & Hep); rewrite ?Htp, ?Hmp, ?Hep, ?Hd
  | unfold tree_path, tree_metadata_path, encoded_tree_path; rewrite ?Hd ];
  cbn [lift rbind];
  repeat first
    [ progress rewrite ?bind_ret_l, ?bind_throw_l, ?parent_tree_name
    | progress cbn [context]
    | foots_step ].

Lemma foots_load_tree P : foots P (load_tree_metadata dir d).
Proof. unfold load_tree_metadata. solve_foots. Qed.
#[local] Hint Resolve foots_load_tree : foots.

Lemma foots_persist_tree m : foots (tree_area dir d) (persist_tree_metadata dir d m).
Proof. unfold persist_tree_metadata. solve_tree_area. Qed.
#[local] Hint Resolve foots_persist_tree : foots.

Lemma foots_ensure_tree n : foots (tree_area dir d) (ensure_tree_metadata dir d n).
Proof. unfold ensure_tree_metadata. solve_foots. Qed.
#[local] Hint Resolve foots_ensure_tree : foots.

Lemma foots_tree_zstd b : foots (tree_area dir d) (tree_maybe_store_zstd_variant dir d b).
Proof. unfold tree_maybe_store_zstd_variant. solve_tree_area. Qed.
#[local] Hint Resolve foots_tree_zstd : foots.

Lemma foots_touch_tree t : foots (tree_area dir d) (touch_tree dir d t).
Proof. unfold touch_tree. solve_tree_area. Qed.

Lemma foots_remove_tree_variants es : foots (tree_area dir d) (remove_tree_variants dir d es).
Proof. induction es as [|e es IH]; cbn [remove_tree_variants]; [solve_foots|]. solve_tree_area. Qed.
#[local] Hint Resolve foots_remove_tree_variants : foots.

Lemma foots_delete_tree : foots (tree_area dir d) (delete_tree dir d).
Proof. unfold delete_tree. solve_tree_area. Qed.

End Footprints.

#[local] Hint Resolve foots_ensure_tree foots_tree_zstd foots_touch_tree tree_area_file tree_area_temp
  foots_write_atomically : foots.

Lemma foots_store_tree `{Sha256, !Sha256Laws, TreeCodec, Zstd} dir entries :
  foots (tree_area dir (sha256_hex (tree_manifest_to_vec entries))) (store_tree dir entries).
Proof.
  unfold store_tree. cbv zeta. set (b := tree_manifest_to_vec entries).
  assert (Hv : valid_digest (sha256_hex b)) by apply sha256_hex_digits.
  destruct (tree_paths_eq dir _ Hv) as (-> & _). cbn [lift rbind].
  repeat first [ progress rewrite ?bind_ret_l, ?parent_tree_name | progress cbn [context] | foots_step ].
Qed.

Section ListingFootprints.
Context `{BlobMetadataCodec, TreeCodec, SetIter}.
Context (P : path -> Prop).

Lemma foots_look {A} (good : FsOp A) : (forall w, snd (good w) = w) -> foots P (guarded no_effect good).
Proof. intros Hg. apply foots_guarded; intros; [apply foot_refl|]. intros w. rewrite Hg. apply foot_refl. Qed.

Lemma foots_next_entry : foots P next_entry.
Proof. apply foots_with_context, foots_look. done. Qed.
Lemma foots_file_type f : foots P (file_type f).
Proof. apply foots_with_context, foots_look. done. Qed.
Lemma foots_read_dir dir : foots P (fs_read_dir dir).
Proof. apply foots_look. done. Qed.
#[local] Hint Resolve foots_next_entry foots_file_type foots_read_dir foots_load_blob foots_load_tree : foots.

Lemma foots_list_blob_entries dir shard names acc : foots P (list_blob_entries dir shard names acc).
Proof. revert acc. induction names as [|n ns IH]; intros acc; cbn [list_blob_entries]; solve_foots. Qed.
#[local] Hint Resolve foots_list_blob_entries : foots.

Lemma foots_list_blob_shards dir shards acc : foots P (list_blob_shards dir shards acc).
Proof. revert acc. induction shards as [|n ns IH]; intros acc; cbn [list_blob_shards]; solve_foots. Qed.
#[local] Hint Resolve foots_list_blob_shards : foots.

Lemma foots_list_tree_entries dir names acc : foots P (list_tree_entries dir names acc).
Proof. revert acc. induction names as [|n ns IH]; intros acc; cbn [list_tree_entries]; solve_foots. Qed.
#[local] Hint Resolve foots_list_tree_entries : foots.

Lemma foots_list_blobs dir : foots P (list_blob_metadata dir).
Proof. unfold list_blob_metadata. solve_foots. Qed.
Lemma foots_list_trees dir : foots P (list_tree_metadata dir).
Proof. unfold list_tree_metadata. solve_foots. Qed.

End ListingFootprints.

(** ** A reference instance, for the concrete runs *)

#[global] Instance TreeMetadata_eq_dec : EqDecision TreeMetadata.
Proof. solve_decision. Defined.
#[global] Instance TreeMetadata_countable : Countable TreeMetadata.
Proof.
  refine (inj_countable'
    (fun m => (tm_canonical_digest m, tm_raw_size_bytes m, tm_last_referenced_at m, tm_encoded_variants m))
    (fun '(a, b, c, d) => {| tm_canonical_digest := a; tm_raw_size_bytes := b;
       tm_last_referenced_at := c; tm_encoded_variants := d |}) _).
  by intros [].
Defined.

Definition tree_codec_reference : TreeCodec := {|
  tree_manifest_to_vec m := to_bytes m;
  tree_metadata_to_vec m := to_bytes m;
  tree_metadata_from_slice _ b := of_bytes b;
|}.

Lemma tree_codec_reference_laws : @TreeCodecLaws tree_codec_reference.
Proof.
  split.
  - intros a b He. cbn in He. apply (f_equal (of_bytes (A := gmap string string))) in He.
    rewrite !of_to_bytes in He. congruence.
  - intros t m. apply of_to_bytes.
Qed.
