(* ===== verification/TreeService.v ===== *)
(** * Storing a tree succeeds

    [store_tree] of [TreeStore] on a disk where nothing fails: it stores the listing
    under the digest of its serialised form, keeps what else is in the tree store,
    and never refuses.  With it the server can rebuild the snapshot manifest of a
    configuration that lists its files by digest ([Negotiation]). *)

From S2P Require Import Prelude World Frame BlobStore Repo TreeStore.

(** ** Atomic writes where nothing fails *)

Section Atomic.
Context (parent target : path) (stem : string) (b : bytes).

Definition temp_of (w : World) : path := join parent (stem +:+ ".tmp-" +:+ pretty (next_uuid w)).

Lemma replace_quiet w :
  faults w = [] ->
  wp (write_bytes_with_atomic_replace parent target stem b) (fun r w' => r = Ok tt /\ faults w' = [] /\
    files w' = <[target := b]> (delete (temp_of w) (<[temp_of w := b]> (files w)))) w.
Proof.
  intros Hw. unfold write_bytes_with_atomic_replace, wp, bind, try_, new_uuid, with_context, fs_write, fs_rename.
  rewrite guarded_quiet by done. cbn -[guarded]. rewrite guarded_quiet by done. cbn. rewrite lookup_insert_eq. done.
Qed.

Lemma atomically_quiet w :
  faults w = [] -> target <> temp_of w -> files w !! target = None ->
  wp (write_bytes_atomically parent target stem b) (fun r w' => r = Ok true /\ faults w' = [] /\
    files w' = delete (temp_of w) (<[target := b]> (<[temp_of w := b]> (files w)))) w.
Proof.
  intros Hw Hne Habs. unfold write_bytes_atomically, with_cleanup, link_or_copy_into_place, wp, bind, try_, new_uuid, with_context,
    fs_write, fs_hard_link, fs_remove_file.
  rewrite guarded_quiet by done. cbn -[guarded]. rewrite guarded_quiet by done. cbn -[guarded].
  change (join parent (stem +:+ ".tmp-" +:+ pretty (next_uuid w))) with (temp_of w).
  rewrite lookup_insert_eq, lookup_insert_ne, Habs by done. cbn -[guarded]. rewrite guarded_quiet by done. cbn.
  rewrite lookup_insert_ne, lookup_insert_eq by done. done.
Qed.
End Atomic.

(** ** The tree store *)

Section Store.
Context `{Sha256, !Sha256Laws, TreeCodec, !TreeCodecLaws, Zstd} (dir : path).

Abbreviation json d := (tree_name dir d ".json").
Abbreviation meta d := (tree_name dir d ".meta.json").

(** A listing is stored under its own digest, and metadata that is there parses. *)
Record tree_ok (fs : gmap path bytes) (d : string) : Prop := {
  tk_json : forall b, fs !! json d = Some b -> sha256_hex b = d;
  tk_meta : forall b, fs !! meta d = Some b -> exists m, forall t, tree_metadata_from_slice t b = Some m;
}.
Definition trees_ok (fs : gmap path bytes) : Prop := forall d, valid_digest d -> tree_ok fs d.

(** What a step on the metadata of [d] leaves: the listing as it was. *)
Record meta_step (d : string) (w w' : World) : Prop := {
  ms_quiet : faults w' = [];
  ms_meta : forall b, files w' !! meta d = Some b -> exists m, forall t, tree_metadata_from_slice t b = Some m;
  ms_json : files w' !! json d = files w !! json d;
}.

Lemma meta_step_trans d w1 w2 w3 : meta_step d w1 w2 -> meta_step d w2 w3 -> meta_step d w1 w3.
Proof. intros [] [Q2 M2 J2]. split; [done|done|congruence]. Qed.

Lemma tree_name_ne d s s' : s <> s' -> tree_name dir d s <> tree_name dir d s'.
Proof.
  intros Hne He. apply Hne. unfold tree_name, tree_file, join in He. apply app_inv_head in He. injection He as He.
  by apply string_app_inj_len in He as [_ ?].
Qed.

Lemma temp_tree_name d s w : temp_of (join dir TREES_SUBDIR) (d +:+ s) w = tree_name dir d (s +:+ ".tmp-" +:+ pretty (next_uuid w)).
Proof. unfold temp_of, tree_name, tree_file. by rewrite string_app_assoc. Qed.

(** The name of a temporary file ends in no name of the store. *)
Lemma temp_suffix_ne s s' id : "-"%char ∉ chars s' -> s +:+ ".tmp-" +:+ id <> s'.
Proof.
  intros Hs' <-. apply Hs'. rewrite !chars_app, !elem_of_app. right. left. vm_compute. by repeat constructor.
Qed.
Lemma suffix_plain : ("-"%char ∉ chars ".json") /\ ("-"%char ∉ chars ".meta.json").
Proof. by split; apply (bool_decide_unpack _); vm_compute. Qed.

Lemma persist_tree_quiet d m w :
  valid_digest d -> faults w = [] -> wp (persist_tree_metadata dir d m) (fun r w' => r = Ok tt /\ meta_step d w w') w.
Proof.
  intros Hv Hw. unfold persist_tree_metadata. destruct (tree_paths_eq dir d Hv) as (_ & -> & _).
  eapply wp_lift_Ok; [done|]. eapply wp_context_Some; [apply parent_tree_name|]. apply wp_bind, wp_with_context.
  unfold wp at 1, fs_create_dir_all. rewrite guarded_quiet by done. cbn [fst snd ret].
  eapply wp_mono; [by apply replace_quiet|cbv beta]. intros r w' (-> & Hw' & Hf). split; [done|]. rewrite temp_tree_name in Hf.
  destruct suffix_plain as [Hj Hm]. split; [done| |].
  - intros b. rewrite Hf, lookup_insert_eq. intros [= <-]. exists m. intros t. apply tree_metadata_roundtrip.
  - rewrite Hf, lookup_insert_ne by by apply tree_name_ne. rewrite lookup_delete_ne, lookup_insert_ne; [done| |]; by apply tree_name_ne, temp_suffix_ne.
Qed.

Lemma load_tree_quiet d w :
  valid_digest d -> faults w = [] -> tree_ok (files w) d ->
  wp (load_tree_metadata dir d) (fun r w' => w' = w /\ ((exists m, r = Ok m) \/ exists e, r = Err e /\ is_not_found_error e = true)) w.
Proof.
  intros Hv Hw Hok. unfold load_tree_metadata. destruct (tree_paths_eq dir d Hv) as (_ & -> & _). eapply wp_lift_Ok; [done|].
  apply wp_bind, wp_with_context. unfold wp at 1, fs_read. rewrite guarded_quiet by done.
  destruct (files w !! meta d) as [b|] eqn:Eb; cbn; [|split; [done|right; by eexists]].
  apply wp_now. destruct (tk_meta _ _ Hok b Eb) as [m Hm]. rewrite Hm. split; [done|left; by eexists].
Qed.

Lemma meta_step_refl d w : faults w = [] -> tree_ok (files w) d -> meta_step d w w.
Proof. intros Hw []. by split. Qed.
Lemma meta_step_ok d w w' : meta_step d w w' -> tree_ok (files w) d -> tree_ok (files w') d.
Proof. intros [Q M J] [HJ HM]. split; [by rewrite J|done]. Qed.

Lemma ensure_tree_quiet d n w :
  valid_digest d -> faults w = [] -> tree_ok (files w) d ->
  wp (ensure_tree_metadata dir d n) (fun r w' => is_ok r = true /\ meta_step d w w') w.
Proof.
  intros Hv Hw Hok. unfold ensure_tree_metadata. wp_step load_tree_quiet. intros r w1 [-> [[m ->]|(e & -> & ->)]].
  - split; [done|by apply meta_step_refl].
  - apply wp_now. apply wp_bind. eapply wp_mono; [by apply persist_tree_quiet|]. by intros r w2 [-> Hs].
Qed.

Lemma stat_len_quiet p w : faults w = [] -> fs_metadata_len p w = (match files w !! p with Some b => Ok (blen b) | None => Err NotFound end, w).
Proof. intros Hw. unfold fs_metadata_len. rewrite guarded_quiet by done. by destruct (files w !! p). Qed.

Lemma zstd_tree_quiet d b w :
  valid_digest d -> faults w = [] -> tree_ok (files w) d -> is_ok (encode_zstd_if_worthwhile b) = true ->
  wp (tree_maybe_store_zstd_variant dir d b) (fun r w' => r = Ok tt /\ meta_step d w w') w.
Proof.
  intros Hv Hw Hok Hz. unfold tree_maybe_store_zstd_variant. apply wp_bind. eapply wp_mono; [by apply ensure_tree_quiet|cbv beta].
  intros [m|e] w1 [Hr Hs]; [|done]. assert (Hw1 : faults w1 = []) by apply Hs.
  destruct (tree_paths_eq dir d Hv) as (_ & _ & ->). eapply wp_lift_Ok; [done|]. cbv zeta.
  match goal with |- context [if bool_decide _ then try_ _ (fun r => if is_ok r then ret tt else ?c) else ?c] =>
    assert (Hc : wp c (fun r w' => r = Ok tt /\ meta_step d w w') w1) end.
  { destruct (encode_zstd_if_worthwhile b) as [[c|]|]; [| |done]; [|by split].
    eapply wp_context_Some; [apply parent_tree_name|]. apply wp_bind, wp_with_context.
    unfold wp at 1, fs_create_dir_all. rewrite guarded_quiet by done. cbn [fst snd ret]. apply wp_bind, wp_with_context.
    unfold wp at 1, fs_write. rewrite guarded_quiet by done. cbn [fst snd].
    eapply wp_mono; [by apply persist_tree_quiet|cbv beta]. intros r w2 [-> Hs2]. split; [done|]. eapply meta_step_trans; [exact Hs|].
    destruct Hs2 as [Q2 M2 J2]. split; [done|done|]. rewrite J2. apply lookup_insert_ne. by apply tree_name_ne. }
  case_bool_decide; [|exact Hc]. apply wp_try. unfold wp at 1. rewrite stat_len_quiet by done. cbn [fst snd].
  destruct (files w1 !! _); [by split|exact Hc].
Qed.

Lemma touch_tree_quiet d b t w :
  valid_digest d -> faults w = [] -> tree_ok (files w) d -> files w !! json d = Some b ->
  wp (touch_tree dir d t) (fun r w' => is_ok r = true /\ meta_step d w w') w.
Proof.
  intros Hv Hw Hok Hb. unfold touch_tree. eapply wp_lift_Ok; [by apply validate_digest_valid|].
  destruct (tree_paths_eq dir d Hv) as (-> & _). eapply wp_lift_Ok; [done|]. apply wp_bind, wp_with_context.
  unfold wp at 1. rewrite stat_len_quiet, Hb by done. cbn [fst snd]. apply wp_bind. eapply wp_mono; [by apply ensure_tree_quiet|cbv beta].
  intros [m|e] w1 [Hr Hs]; [|done]. apply wp_bind. eapply wp_mono; [apply persist_tree_quiet; [done|apply Hs]|cbv beta].
  intros r w2 [-> Hs2]. split; [done|by eapply meta_step_trans].
Qed.

Abbreviation digest_of entries := (sha256_hex (tree_manifest_to_vec entries)).

(** Storing a listing succeeds and the listing is there under its digest. *)
Lemma store_tree_quiet entries w :
  faults w = [] -> trees_ok (files w) -> is_ok (encode_zstd_if_worthwhile (tree_manifest_to_vec entries)) = true ->
  wp (store_tree dir entries) (fun r w' => r = Ok {| st_digest := digest_of entries; st_path := json (digest_of entries) |} /\
    faults w' = [] /\ trees_ok (files w') /\ is_Some (files w' !! json (digest_of entries))) w.
Proof.
  intros Hw Hok Hz. set (b := tree_manifest_to_vec entries) in *. set (d := sha256_hex b).
  assert (Hv : valid_digest d) by apply sha256_hex_digits. pose proof (foots_store_tree dir entries w) as [Hframe _].
  assert (Hother : forall fs, (forall p, ~ tree_area dir d p -> fs !! p = files w !! p) -> tree_ok fs d -> trees_ok fs).
  { intros fs Hfs Hd d' Hv'. destruct (decide (d' = d)) as [->|Hne]; [done|].
    assert (Hout : forall s, ~ tree_area dir d (tree_name dir d' s)).
    { intros s [_ [s' He]]. apply tree_name_inj in He as [? _]; [|done..]. done. }
    destruct (Hok d' Hv'). split; intros c; rewrite Hfs by apply Hout; auto. }
  enough (Hd : wp (store_tree dir entries) (fun r w' => r = Ok {| st_digest := d; st_path := json d |} /\
     faults w' = [] /\ tree_ok (files w') d /\ is_Some (files w' !! json d)) w).
  { destruct Hd as (Hr & Hq & Ht & Hj). split_and!; [done|done|by apply Hother|done]. }
  clear Hframe Hother. unfold store_tree. cbv zeta. fold b. fold d. destruct (tree_paths_eq dir d Hv) as (-> & _). eapply wp_lift_Ok; [done|].
  set (tail := bind (ensure_tree_metadata dir d (blen b)) _).
  assert (Htail : forall w1 c, faults w1 = [] -> tree_ok (files w1) d -> files w1 !! json d = Some c ->
    wp tail (fun r w' => r = Ok {| st_digest := d; st_path := json d |} /\ faults w' = [] /\ tree_ok (files w') d /\ is_Some (files w' !! json d)) w1).
  { intros w1 c Hw1 Hok1 Hc. subst tail. apply wp_bind. eapply wp_mono; [by apply ensure_tree_quiet|cbv beta].
    intros [m|e] w2 [Hr Hs2]; [|done]. pose proof (meta_step_ok _ _ _ Hs2 Hok1) as Hok2. apply wp_bind.
    eapply wp_mono; [by apply zstd_tree_quiet; [|apply Hs2| |]|cbv beta]. intros r w3 [-> Hs3]. pose proof (meta_step_ok _ _ _ Hs3 Hok2) as Hok3.
    apply wp_now, wp_bind. assert (Hj3 : files w3 !! json d = Some c) by by rewrite (ms_json _ _ _ Hs3), (ms_json _ _ _ Hs2).
    eapply wp_mono; [eapply touch_tree_quiet; [done|apply Hs3|done|exact Hj3]|cbv beta]. intros [m'|e] w4 [Hr4 Hs4]; [|done].
    apply wp_ret. split_and!; [done|apply Hs4|by eapply meta_step_ok|]. by rewrite (ms_json _ _ _ Hs4), Hj3. }
  apply wp_try. unfold wp at 1. rewrite stat_len_quiet by done. cbn [fst snd]. destruct (files w !! json d) as [c|] eqn:Ec; cbn [is_ok].
  { eapply Htail; [done|by apply Hok|done]. }
  eapply wp_context_Some; [apply parent_tree_name|]. apply wp_bind, wp_with_context.
  unfold wp at 1, fs_create_dir_all. rewrite guarded_quiet by done. cbn [fst snd ret]. apply wp_bind.
  destruct suffix_plain as [Hj Hm].
  eapply wp_mono; [apply atomically_quiet; [done| |done]; rewrite temp_tree_name; by apply not_eq_sym, tree_name_ne, temp_suffix_ne|cbv beta].
  intros r w1 (-> & Hw1 & Hf). rewrite temp_tree_name in Hf.
  assert (Hj1 : files w1 !! json d = Some b).
  { rewrite Hf, lookup_delete_ne by by apply tree_name_ne, temp_suffix_ne. apply lookup_insert_eq. }
  apply (Htail w1 b); [done| |done]. split; [rewrite Hj1; by intros ? [= <-]|]. intros c.
  rewrite Hf, lookup_delete_ne by by apply tree_name_ne, temp_suffix_ne. rewrite lookup_insert_ne by by apply tree_name_ne.
  rewrite lookup_insert_ne by by apply tree_name_ne, temp_suffix_ne. by apply Hok.
Qed.

End Store.
