(* ===== verification/Server.v ===== *)
(** * Server state and request handlers

    [AppState] ([crates/server/src/state.rs]) and the REST handlers of
    [crates/server/src/api.rs] that read or change workorders and clients.  A
    handler is a function from the state to a response and the new state; its
    calls to the file system run on the [disk] of the state.  Broadcasts, stored
    results and container operations are recorded in [trail], newest last. *)

From S2P Require Import Prelude Types Validation World Auth Registry Trace Config Metrics Persistence.

(** [crates/server/src/runtime.rs] *)
Record SnapshotReferenceSet := {
  blob_digests : gset string;
  tree_digests : gset string;
  total_blob_bytes : Z;
  total_tree_bytes : Z;
  refs_last_referenced_at : DateTime;
}.

(** What the server did that the outside can observe. *)
Inductive Effect :=
| Broadcast (p : BuildProgress)
| ResultStored (id : WorkorderId)
| ContainerStopped (container : string)
| ContainerRemoved (container : string).

Record AppState := {
  clients : Registry.ClientRegistry;
  workorders : gmap WorkorderId Workorder;
  results : gmap WorkorderId WorkorderResult;
  progress_txs : gset WorkorderId;
  raw_output_txs : gset WorkorderId;
  stdin_txs : gset WorkorderId;
  free_workers : Z;
  container_ids : gmap WorkorderId string;
  image_last_used : gmap string Z;
  staged_workorder_references : gmap WorkorderId SnapshotReferenceSet;
  metrics : Metrics;
  disk : World;
  trail : list Effect;
}.

(** One setter per field. *)
Definition set_clients x s := {| clients := x; workorders := workorders s; results := results s;
  progress_txs := progress_txs s; raw_output_txs := raw_output_txs s; stdin_txs := stdin_txs s;
  free_workers := free_workers s; container_ids := container_ids s; image_last_used := image_last_used s;
  staged_workorder_references := staged_workorder_references s; metrics := metrics s; disk := disk s; trail := trail s |}.
Definition set_workorders x s := {| clients := clients s; workorders := x; results := results s;
  progress_txs := progress_txs s; raw_output_txs := raw_output_txs s; stdin_txs := stdin_txs s;
  free_workers := free_workers s; container_ids := container_ids s; image_last_used := image_last_used s;
  staged_workorder_references := staged_workorder_references s; metrics := metrics s; disk := disk s; trail := trail s |}.
Definition set_results x s := {| clients := clients s; workorders := workorders s; results := x;
  progress_txs := progress_txs s; raw_output_txs := raw_output_txs s; stdin_txs := stdin_txs s;
  free_workers := free_workers s; container_ids := container_ids s; image_last_used := image_last_used s;
  staged_workorder_references := staged_workorder_references s; metrics := metrics s; disk := disk s; trail := trail s |}.
Definition set_progress_txs x s := {| clients := clients s; workorders := workorders s; results := results s;
  progress_txs := x; raw_output_txs := raw_output_txs s; stdin_txs := stdin_txs s;
  free_workers := free_workers s; container_ids := container_ids s; image_last_used := image_last_used s;
  staged_workorder_references := staged_workorder_references s; metrics := metrics s; disk := disk s; trail := trail s |}.
Definition set_raw_output_txs x s := {| clients := clients s; workorders := workorders s; results := results s;
  progress_txs := progress_txs s; raw_output_txs := x; stdin_txs := stdin_txs s;
  free_workers := free_workers s; container_ids := container_ids s; image_last_used := image_last_used s;
  staged_workorder_references := staged_workorder_references s; metrics := metrics s; disk := disk s; trail := trail s |}.
Definition set_stdin_txs x s := {| clients := clients s; workorders := workorders s; results := results s;
  progress_txs := progress_txs s; raw_output_txs := raw_output_txs s; stdin_txs := x;
  free_workers := free_workers s; container_ids := container_ids s; image_last_used := image_last_used s;
  staged_workorder_references := staged_workorder_references s; metrics := metrics s; disk := disk s; trail := trail s |}.
Definition set_free_workers x s := {| clients := clients s; workorders := workorders s; results := results s;
  progress_txs := progress_txs s; raw_output_txs := raw_output_txs s; stdin_txs := stdin_txs s;
  free_workers := x; container_ids := container_ids s; image_last_used := image_last_used s;
  staged_workorder_references := staged_workorder_references s; metrics := metrics s; disk := disk s; trail := trail s |}.
Definition set_container_ids x s := {| clients := clients s; workorders := workorders s; results := results s;
  progress_txs := progress_txs s; raw_output_txs := raw_output_txs s; stdin_txs := stdin_txs s;
  free_workers := free_workers s; container_ids := x; image_last_used := image_last_used s;
  staged_workorder_references := staged_workorder_references s; metrics := metrics s; disk := disk s; trail := trail s |}.
Definition set_image_last_used x s := {| clients := clients s; workorders := workorders s; results := results s;
  progress_txs := progress_txs s; raw_output_txs := raw_output_txs s; stdin_txs := stdin_txs s;
  free_workers := free_workers s; container_ids := container_ids s; image_last_used := x;
  staged_workorder_references := staged_workorder_references s; metrics := metrics s; disk := disk s; trail := trail s |}.
Definition set_staged x s := {| clients := clients s; workorders := workorders s; results := results s;
  progress_txs := progress_txs s; raw_output_txs := raw_output_txs s; stdin_txs := stdin_txs s;
  free_workers := free_workers s; container_ids := container_ids s; image_last_used := image_last_used s;
  staged_workorder_references := x; metrics := metrics s; disk := disk s; trail := trail s |}.
Definition set_metrics x s := {| clients := clients s; workorders := workorders s; results := results s;
  progress_txs := progress_txs s; raw_output_txs := raw_output_txs s; stdin_txs := stdin_txs s;
  free_workers := free_workers s; container_ids := container_ids s; image_last_used := image_last_used s;
  staged_workorder_references := staged_workorder_references s; metrics := x; disk := disk s; trail := trail s |}.
Definition set_disk x s := {| clients := clients s; workorders := workorders s; results := results s;
  progress_txs := progress_txs s; raw_output_txs := raw_output_txs s; stdin_txs := stdin_txs s;
  free_workers := free_workers s; container_ids := container_ids s; image_last_used := image_last_used s;
  staged_workorder_references := staged_workorder_references s; metrics := metrics s; disk := x; trail := trail s |}.
Definition emit (e : Effect) s := {| clients := clients s; workorders := workorders s; results := results s;
  progress_txs := progress_txs s; raw_output_txs := raw_output_txs s; stdin_txs := stdin_txs s;
  free_workers := free_workers s; container_ids := container_ids s; image_last_used := image_last_used s;
  staged_workorder_references := staged_workorder_references s; metrics := metrics s; disk := disk s;
  trail := trail s ++ [e] |}.

Definition count_metric (f : Metrics -> Metrics) (s : AppState) : AppState := set_metrics (f (metrics s)) s.
Definition now_of (s : AppState) : DateTime := clock (disk s).
(** Run a computation on the disk; its result is only logged. *)
Definition on_disk {A} (m : IO A) (s : AppState) : AppState := set_disk (snd (m (disk s))) s.

(** ** Channels and reference tracking ([state.rs]) *)

Definition create_progress_channel (id : WorkorderId) (s : AppState) : AppState :=
  let s := set_raw_output_txs ({[id]} ∪ raw_output_txs s) s in
  set_progress_txs ({[id]} ∪ progress_txs s) s.

Definition create_stdin_channel (id : WorkorderId) (s : AppState) : AppState :=
  set_stdin_txs ({[id]} ∪ stdin_txs s) s.

Definition remove_workorder_channels (id : WorkorderId) (s : AppState) : AppState :=
  let s := set_progress_txs (progress_txs s ∖ {[id]}) s in
  let s := set_raw_output_txs (raw_output_txs s ∖ {[id]}) s in
  set_stdin_txs (stdin_txs s ∖ {[id]}) s.

Definition track_staged_workorder_references (id : WorkorderId) (r : SnapshotReferenceSet) (s : AppState) :
    AppState := set_staged (<[id := r]> (staged_workorder_references s)) s.
Definition clear_staged_workorder_references (id : WorkorderId) (s : AppState) : AppState :=
  set_staged (delete id (staged_workorder_references s)) s.

(** Iterating over a [HashMap] visits its entries in an unspecified order. *)
Class HashIter := hash_iter : forall V, gmap WorkorderId V -> list (WorkorderId * V).
Class HashIterLaws `{HashIter} : Prop :=
  hash_iter_perm : forall V (m : gmap WorkorderId V), hash_iter V m ≡ₚ map_to_list m.

(** Forget one workorder, as both phases of the eviction do. *)
Definition evict_one (s : AppState) (id : WorkorderId) : AppState :=
  let s := set_workorders (delete id (workorders s)) s in
  let s := set_results (delete id (results s)) s in
  let s := set_progress_txs (progress_txs s ∖ {[id]}) s in
  let s := set_raw_output_txs (raw_output_txs s ∖ {[id]}) s in
  let s := set_stdin_txs (stdin_txs s ∖ {[id]}) s in
  set_container_ids (delete id (container_ids s)) s.

Section Handlers.
Context `{ConfigHash, HttpLib, StateCodec, HashIter}.

(** The two phases of [AppState::evict_workorders]: the number of evicted workorders and the state. *)
Definition evict_before (cutoff : Z) (cfg : ServerConfig) (s : AppState) : Z * AppState :=
  let stale := map fst (List.filter (fun '(_, w) => is_terminal (wo_status w) && (wo_updated_at w <? cutoff))
                          (hash_iter _ (workorders s))) in
  let s := fold_left evict_one stale s in
  let evicted := Z.of_nat (length stale) in
  let cap := max_retained_workorders cfg in
  let len := Z.of_nat (size (workorders s)) in
  if (0 <? cap) && (cap <? len) then
    let excess := len - cap in
    let terminal := map (fun '(id, w) => (id, wo_updated_at w))
      (List.filter (fun '(_, w) => is_terminal (wo_status w)) (hash_iter _ (workorders s))) in
    let to_evict := map fst (take (Z.to_nat excess) (sort_by_key snd terminal)) in
    (evicted + Z.of_nat (length to_evict), fold_left evict_one to_evict s)
  else (evicted, s).

(** [AppState::evict_workorders]; [None] when the cut-off cannot be computed, which panics
    before anything is changed. *)
Definition evict_workorders (cfg : ServerConfig) (s : AppState) : option (Z * AppState) :=
  (fun cutoff => evict_before cutoff cfg s) <$> hours_before (now_of s) (retention_hours cfg).
(** The state the server goes on with. *)
Definition after_eviction (cfg : ServerConfig) (s : AppState) : AppState :=
  match evict_workorders cfg s with Some (_, s') => s' | None => s end.

(** [AppState::new]: the state after a start, from what is saved. *)
Definition restore (cfg : ServerConfig) (w : World) : AppState :=
  let '(ws, w) := load_workorders (state_dir cfg) w in
  let '(rs, w) := load_results (state_dir cfg) w in
  let '(cs, w) := load_clients (state_dir cfg) w in
  let persisted_workorders := default ∅ (ok_opt ws) in
  let live := dom (filter (fun '(_, o) => is_active (wo_status o) = true) persisted_workorders) in
  {| clients := default ∅ (ok_opt cs);
     workorders := persisted_workorders;
     results := default ∅ (ok_opt rs);
     progress_txs := live; raw_output_txs := live; stdin_txs := ∅;
     free_workers := max_workers cfg;
     container_ids := ∅; image_last_used := ∅; staged_workorder_references := ∅;
     metrics := Metrics_new; disk := w; trail := [] |}.

(** ** Submission *)

Record SubmitWorkorderRequest := {
  req_client_id : ClientId;
  req_role : ClientRole;
  req_atoms : list string;
  req_emerge_args : list string;
  req_portage_config : PortageConfig;
  req_system_id : SystemIdentity;
}.
Record SubmitWorkorderResponse := {
  resp_workorder_id : WorkorderId;
  resp_progress_ws_url : string;
  resp_trace_id : option string;
}.

(** An HTTP error: status code and body. *)
Abbreviation HttpResult A := (Result A (Z * string)).
Definition BAD_REQUEST : Z := 400.
Definition UNAUTHORIZED : Z := 401.
Definition FORBIDDEN : Z := 403.
Definition NOT_FOUND : Z := 404.
Definition CONFLICT : Z := 409.
Definition SERVICE_UNAVAILABLE : Z := 503.

Definition RegistryError_display (e : Registry.RegistryError) : string :=
  match e with
  | Registry.ActiveWorkorder id => "workorder " +:+ pretty id +:+ " is already active for this client ID"
  | Registry.NoMainClient => "no main client has registered for this client ID yet"
  | Registry.ConfigMismatch => "follower config differs from main client — followers cannot change config"
  end.

Definition header_str (headers : HeaderMap) (name : string) : option string :=
  headers !! name ≫= header_value_to_str.

(** [resolve_request_trace_context]; [fresh] is what [new_trace_context] generates. *)
Definition resolve_request_trace_context (headers : HeaderMap) (fresh : TraceContext) : TraceContext :=
  match header_str headers "traceparent" with
  | Some t => default fresh (parse_trace_context t)
  | None => fresh
  end.

Fixpoint validate_atoms (atoms : list string) : HttpResult unit :=
  match atoms with
  | [] => Ok tt
  | a :: rest =>
      match Validation.validate_atom a with
      | Err e => Err (BAD_REQUEST, "Invalid atom '" +:+ a +:+ "': " +:+ Validation.AtomValidationError_display e)
      | Ok _ => validate_atoms rest
      end
  end.

Definition is_active_order (w : Workorder) : bool := is_active (wo_status w).

(** [workorders.values().filter(..).count()] *)
Definition active_count (ws : gmap WorkorderId Workorder) : Z := count_if is_active_order ws.

Definition progress_ws_url (cfg : ServerConfig) (headers : HeaderMap) (id : WorkorderId) : string :=
  let host := default "localhost:7654" (header_str headers "host") in
  let scheme :=
    match header_str headers "x-forwarded-proto" with
    | Some proto => if eq_ignore_ascii_case proto "https" then "wss" else "ws"
    | None => if is_some (tls cfg) then "wss" else "ws"
    end in
  scheme +:+ "://" +:+ host +:+ "/api/v1/workorders/" +:+ pretty id +:+ "/progress".

(** What happens under the submission lock: admission, registration, insertion. *)
Definition admit_workorder (cfg : ServerConfig) (s : AppState) (client_id : ClientId) (role : ClientRole)
    (req : SubmitWorkorderRequest) (normalized : PortageConfig) (trace : TraceContext)
    (id : WorkorderId) (now : DateTime) : HttpResult Workorder * AppState :=
  if (0 <? max_active_workorders cfg) && (max_active_workorders cfg <=? active_count (workorders s)) then
    (Err (SERVICE_UNAVAILABLE, "Workorder capacity reached (limit " +:+ pretty (max_active_workorders cfg)
                               +:+ "). Retry later."), s)
  else
  match Registry.update now (clients s) client_id role (req_portage_config req) (req_system_id req) with
  | (Err e, cs) => (Err (CONFLICT, RegistryError_display e), set_clients cs s)
  | (Ok _, cs) =>
      let s := set_clients cs s in
      let workorder := {|
        wo_id := id; wo_client_id := client_id; wo_role := role; wo_atoms := req_atoms req;
        wo_emerge_args := req_emerge_args req; wo_portage_config := normalized;
        wo_system_id := req_system_id req; wo_trace_context := Some trace;
        wo_status := Pending; wo_created_at := now; wo_updated_at := now |} in
      let s := create_progress_channel id s in
      let s := set_workorders (<[id := workorder]> (workorders s)) s in
      let s := set_clients (Registry.set_active_workorder (clients s) client_id id) s in
      (Ok workorder, s)
  end.

(** [submit_workorder]; [normalize] is
    [runtime::normalize_portage_config_snapshots], [id] the new random id and
    [fresh] the trace context that is generated when the request carries none. *)
Definition submit_workorder (cfg : ServerConfig) (normalize : PortageConfig -> IO PortageConfig)
    (s : AppState) (headers : HeaderMap) (req : SubmitWorkorderRequest) (id : WorkorderId)
    (fresh : TraceContext) : HttpResult SubmitWorkorderResponse * AppState :=
  match validate_atoms (req_atoms req) with
  | Err e => (Err e, s)
  | Ok _ =>
  match Auth.resolve (Auth.CertRegistry_new (auth cfg)) headers (req_client_id req) (req_role req) with
  | Err e => (Err (Auth.AuthError_status_code e, Auth.AuthError_display e), s)
  | Ok ident =>
  let client_id := Auth.ri_client_id ident in
  let role := Auth.ri_role ident in
  let trace := resolve_request_trace_context headers fresh in
  let '(normalized, w) := normalize (req_portage_config req) (disk s) in
  let s := set_disk w s in
  match normalized with
  | Err e => (Err (BAD_REQUEST, Error_to_string e), s)
  | Ok normalized =>
  match admit_workorder cfg s client_id role req normalized trace id (now_of s) with
  | (Err e, s) => (Err e, s)
  | (Ok workorder, s) =>
      let s := count_metric (fetch_add workorders_submitted 1) s in
      let s := count_metric (fetch_add queue_depth 1) s in
      let s := on_disk (save_workorders (state_dir cfg) (workorders s)) s in
      let s := on_disk (save_clients (state_dir cfg) (clients s)) s in
      (Ok {| resp_workorder_id := id; resp_progress_ws_url := progress_ws_url cfg headers id;
             resp_trace_id := Some (tc_trace_id trace) |}, s)
  end end end end.

(** ** Queries and cancellation *)

Definition auth_mode (cfg : ServerConfig) : AuthMode := Auth.ac_mode (auth cfg).
Definition header_client (cfg : ServerConfig) (headers : HeaderMap) : option ClientId :=
  Auth.resolve_header_only (Auth.CertRegistry_new (auth cfg)) headers.

Record WorkorderSummary := {
  sum_id : WorkorderId; sum_atoms : list string; sum_status : WorkorderStatus; sum_created_at : DateTime;
}.

Definition list_workorders (cfg : ServerConfig) (s : AppState) (headers : HeaderMap) :
    Result (list WorkorderSummary) Z :=
  let summaries (visible : Workorder -> bool) :=
    map (fun '(_, w) => {| sum_id := wo_id w; sum_atoms := wo_atoms w; sum_status := wo_status w;
                           sum_created_at := wo_created_at w |})
        (List.filter (fun '(_, w) => visible w) (hash_iter _ (workorders s))) in
  if bool_decide (auth_mode cfg <> AuthNone) then
    let? cid := ok_or (header_client cfg headers) UNAUTHORIZED in
    Ok (summaries (fun w => bool_decide (wo_client_id w = cid)))
  else Ok (summaries (fun _ => true)).

Record WorkorderStatusResponse := {
  wsr_workorder_id : WorkorderId; wsr_status : WorkorderStatus;
  wsr_result : option WorkorderResult; wsr_trace_id : option string;
}.

Definition get_workorder (cfg : ServerConfig) (s : AppState) (headers : HeaderMap) (id : WorkorderId) :
    Result WorkorderStatusResponse Z :=
  let? workorder := ok_or (workorders s !! id) NOT_FOUND in
  let? _ :=
    if bool_decide (auth_mode cfg <> AuthNone) then
      match header_client cfg headers with
      | Some cid => if bool_decide (cid = wo_client_id workorder) then Ok tt else Err FORBIDDEN
      | None => Err UNAUTHORIZED
      end
    else Ok tt in
  Ok {| wsr_workorder_id := id; wsr_status := wo_status workorder; wsr_result := results s !! id;
        wsr_trace_id := tc_trace_id <$> wo_trace_context workorder |}.

Record CancelWorkorderResponse := { cwr_workorder_id : WorkorderId; cwr_cancelled : bool }.

(** The authorisation check of [cancel_workorder]. *)
Definition may_cancel (cfg : ServerConfig) (s : AppState) (headers : HeaderMap) (id : WorkorderId) :
    HttpResult unit :=
  if bool_decide (auth_mode cfg <> AuthNone) then
    match workorders s !! id with
    | Some workorder =>
        match header_client cfg headers with
        | Some cid =>
            if bool_decide (cid = wo_client_id workorder) then Ok tt
            else Err (FORBIDDEN, "You do not own this workorder")
        | None => Err (UNAUTHORIZED, "Authentication required to cancel workorders")
        end
    | None => Ok tt
    end
  else Ok tt.

(** [workorder.status = Cancelled]: [updated_at] is not touched. *)
Definition mark_cancelled (w : Workorder) : Workorder := with_status Cancelled (wo_updated_at w) w.

(** What cancelling does to an order that is active. *)
Definition cancel_order (id : WorkorderId) (workorder : Workorder) (s : AppState) : AppState :=
  let old_status := wo_status workorder in
  let s := set_workorders (<[id := mark_cancelled workorder]> (workorders s)) s in
  let s :=
    if bool_decide (id ∈ progress_txs s) then
      emit (Broadcast {| bp_workorder_id := id; bp_trace_id := tc_trace_id <$> wo_trace_context workorder;
                         bp_event := StatusChanged old_status Cancelled; bp_timestamp := now_of s |}) s
    else s in
  let s := set_clients (Registry.clear_active_workorder (clients s) (wo_client_id workorder)) s in
  let s := if bool_decide (old_status = Pending) then count_metric (fetch_sub queue_depth 1) s else s in
  let s :=
    if bool_decide (old_status = Building) then
      match container_ids s !! id with
      | Some container => emit (ContainerStopped container) s
      | None => s
      end
    else s in
  count_metric (fetch_add workorders_cancelled 1) s.

Definition cancel_workorder (cfg : ServerConfig) (s : AppState) (headers : HeaderMap) (id : WorkorderId) :
    HttpResult CancelWorkorderResponse * AppState :=
  match may_cancel cfg s headers id with
  | Err e => (Err e, s)
  | Ok _ =>
  match workorders s !! id with
  | None => (Err (NOT_FOUND, "Workorder not found"), s)
  | Some workorder =>
      if negb (is_active (wo_status workorder)) then
        (Ok {| cwr_workorder_id := id; cwr_cancelled := false |}, s)
      else (Ok {| cwr_workorder_id := id; cwr_cancelled := true |}, cancel_order id workorder s)
  end end.

Record ClientSummary := {
  csum_client_id : ClientId; csum_config_hash : string; csum_last_seen : DateTime;
  csum_active_workorder : option WorkorderId;
}.

Definition require_admin (cfg : ServerConfig) (headers : HeaderMap) : Result unit Z :=
  if bool_decide (auth_mode cfg <> AuthNone) then
    let? _ := ok_or (header_client cfg headers) UNAUTHORIZED in Ok tt
  else Ok tt.

Definition list_clients (cfg : ServerConfig) (s : AppState) (headers : HeaderMap) :
    Result (list ClientSummary) Z :=
  let? _ := require_admin cfg headers in
  Ok (map (fun '(_, c) => {| csum_client_id := cs_client_id c; csum_config_hash := cs_config_hash c;
             csum_last_seen := cs_last_seen c; csum_active_workorder := cs_active_workorder c |})
          (hash_iter _ (clients s))).

Definition get_client (cfg : ServerConfig) (s : AppState) (headers : HeaderMap) (id : ClientId) :
    Result ClientState Z :=
  let? _ := require_admin cfg headers in
  ok_or (Registry.get (clients s) id) NOT_FOUND.

Definition require_snapshot_auth (cfg : ServerConfig) (headers : HeaderMap) : HttpResult unit :=
  if bool_decide (auth_mode cfg <> AuthNone) then
    let? _ := ok_or (header_client cfg headers) (UNAUTHORIZED, "Authentication required") in Ok tt
  else Ok tt.

End Handlers.

(** ** Eviction *)

(** A map without some keys. *)
Definition drop_keys {V} (ids : list WorkorderId) (m : gmap WorkorderId V) : gmap WorkorderId V :=
  filter (fun kv => kv.1 ∉ ids) m.

Lemma lookup_drop_keys {V} ids (m : gmap WorkorderId V) id :
  drop_keys ids m !! id = if decide (id ∈ ids) then None else m !! id.
Proof.
  apply option_eq. intros v. unfold drop_keys. rewrite map_lookup_filter_Some. simpl.
  case_decide; split; [by intros []|done|by intros []|done].
Qed.
Lemma drop_keys_nil {V} (m : gmap WorkorderId V) : drop_keys [] m = m.
Proof. apply map_eq. intros id. rewrite lookup_drop_keys. by rewrite decide_False by set_solver. Qed.

Lemma drop_keys_cons {V} id ids (m : gmap WorkorderId V) : drop_keys ids (delete id m) = drop_keys (id :: ids) m.
Proof.
  apply map_eq. intros i. rewrite !lookup_drop_keys.
  destruct (decide (i = id)) as [->|Hne].
  - rewrite lookup_delete_eq, (decide_True (P := id ∈ id :: ids)) by by constructor. by case_decide.
  - rewrite lookup_delete_ne by done. do 2 case_decide; try done; rewrite elem_of_cons in *; tauto.
Qed.

Lemma size_drop_keys {V} ids (m : gmap WorkorderId V) :
  NoDup ids -> (forall id, id ∈ ids -> is_Some (m !! id)) -> (size (drop_keys ids m) + length ids = size m)%nat.
Proof.
  intros Hn. revert m. induction Hn as [|id ids Hid Hn IH]; intros m Hin; simpl.
  - replace (drop_keys [] m) with m; [lia|]. apply map_eq. intros i. by rewrite lookup_drop_keys.
  - rewrite <- drop_keys_cons. destruct (Hin id) as [v Hv]; [by constructor|].
    rewrite <- (insert_delete_id m id v Hv) at 2. rewrite map_size_insert_None by apply lookup_delete_eq.
    rewrite <- (IH (delete id m)); [lia|]. intros i Hi. rewrite lookup_delete_ne by congruence.
    apply Hin. by constructor.
Qed.

Lemma evict_all ids s :
  let s' := fold_left evict_one ids s in
  workorders s' = drop_keys ids (workorders s) /\ results s' = drop_keys ids (results s) /\
  container_ids s' = drop_keys ids (container_ids s) /\
  progress_txs s' = progress_txs s ∖ list_to_set ids /\
  raw_output_txs s' = raw_output_txs s ∖ list_to_set ids /\ stdin_txs s' = stdin_txs s ∖ list_to_set ids /\
  clients s' = clients s /\ metrics s' = metrics s /\ disk s' = disk s /\ free_workers s' = free_workers s.
Proof.
  revert s. induction ids as [|id ids IH]; intros s; simpl.
  - split_and!; try done; try (apply map_eq; intros i; by rewrite lookup_drop_keys); set_solver.
  - destruct (IH (evict_one s id)) as (-> & -> & -> & -> & -> & -> & -> & -> & -> & ->). simpl.
    rewrite !drop_keys_cons. split_and!; try done; set_solver.
Qed.

Section EvictionFacts.
Context `{HashIter, !HashIterLaws}.

(** The entries of a hash map that satisfy a test, in the order of iteration. *)
Lemma elem_of_hash_filter {V} (m : gmap WorkorderId V) (f : WorkorderId * V -> bool) id v :
  (id, v) ∈ List.filter f (hash_iter V m) <-> m !! id = Some v /\ f (id, v) = true.
Proof.
  by rewrite list_elem_of_In, filter_In, <- list_elem_of_In, hash_iter_perm, elem_of_map_to_list.
Qed.

Lemma NoDup_hash_filter {V} (m : gmap WorkorderId V) (f : WorkorderId * V -> bool) :
  NoDup (map fst (List.filter f (hash_iter V m))).
Proof.
  assert (Hn : NoDup (map fst (hash_iter V m))) by (rewrite hash_iter_perm; apply NoDup_fst_map_to_list).
  induction (hash_iter V m) as [|x l IH]; simpl in *; [constructor|].
  inversion Hn as [|? ? Hx Hl]; subst. specialize (IH Hl). destruct (f x); simpl; [|done]. constructor; [|done].
  intros (y & Hy & Hin)%list_elem_of_fmap. apply Hx. rewrite Hy. apply list_elem_of_fmap_2.
  apply list_elem_of_In, filter_In in Hin as [Hin _]. by apply list_elem_of_In.
Qed.

Definition is_stale (cutoff : Z) (w : Workorder) : bool := is_terminal (wo_status w) && (wo_updated_at w <? cutoff).

Lemma elem_of_selected (m : gmap WorkorderId Workorder) (f : WorkorderId * Workorder -> bool) id :
  id ∈ map fst (List.filter f (hash_iter _ m)) <-> exists w, m !! id = Some w /\ f (id, w) = true.
Proof.
  rewrite list_elem_of_fmap. split.
  - intros ([i w] & -> & Hw). apply elem_of_hash_filter in Hw. eauto.
  - intros (w & Hw). exists (id, w). by rewrite elem_of_hash_filter.
Qed.

(** The keys of the first [n] entries in order of age are those of entries, and
    entries that are left out are not older. *)
Lemma oldest_first n (l : list (WorkorderId * Z)) :
  NoDup (map fst l) ->
  let ids := map fst (take n (sort_by_key snd l)) in
  NoDup ids /\ length ids = Nat.min n (length l) /\
  (forall id, id ∈ ids -> id ∈ map fst l) /\
  (forall id id' t t', (id, t) ∈ l -> (id', t') ∈ l -> id ∈ ids -> id' ∉ ids -> t <= t').
Proof.
  intros Hn ids. pose proof (sort_by_key_Permutation snd l) as Hp. pose proof (sort_by_key_sorted snd l) as Hs.
  set (sl := sort_by_key snd l) in *. rewrite <- Hp in Hn.
  assert (Hsplit : map fst sl = ids ++ map fst (drop n sl)) by (unfold ids; by rewrite <- map_app, take_drop).
  rewrite Hsplit in Hn. apply NoDup_app in Hn as (Hn & Hd & _).
  split_and!; [done| | |].
  - unfold ids. by rewrite length_map, length_take, Hp.
  - intros id Hid. rewrite <- Hp, Hsplit, elem_of_app. by left.
  - intros id id' t t' Hin Hin' Hid Hid'. rewrite <- Hp in Hin, Hin'. rewrite <- (take_drop n sl) in Hin, Hin', Hs.
    apply elem_of_app in Hin as [Hin|Hin]; [|by destruct (Hd id Hid); apply (list_elem_of_fmap_2 fst _ _ Hin)].
    apply elem_of_app in Hin' as [Hin'|Hin']; [by destruct Hid'; apply (list_elem_of_fmap_2 fst _ _ Hin')|].
    by apply (StronglySorted_app_1_elem_of _ _ _ (id, t) (id', t') Hs).
Qed.

(** The ids the cap phase evicts: the [n] terminal orders updated longest ago. *)
Definition capped (n : nat) (m : gmap WorkorderId Workorder) : list WorkorderId :=
  map fst (take n (sort_by_key snd (map (fun '(id, w) => (id, wo_updated_at w))
    (List.filter (fun '(_, w) => is_terminal (wo_status w)) (hash_iter _ m))))).

Lemma capped_spec n m :
  let terminal id w := m !! id = Some w /\ is_terminal (wo_status w) = true in
  NoDup (capped n m) /\ (length (capped n m) <= n)%nat /\
  (forall id, id ∈ capped n m -> exists w, terminal id w) /\
  ((length (capped n m) < n)%nat -> forall id w, terminal id w -> id ∈ capped n m) /\
  (forall id id' w w', terminal id w -> terminal id' w' -> id ∈ capped n m -> id' ∉ capped n m ->
     wo_updated_at w <= wo_updated_at w').
Proof.
  intros terminal. unfold capped. set (l := List.filter _ (hash_iter Workorder m)).
  assert (Hl : forall id w, (id, w) ∈ l <-> terminal id w) by (intros; apply elem_of_hash_filter).
  set (tl := map _ l).
  assert (Hin : forall id w, terminal id w -> (id, wo_updated_at w) ∈ tl).
  { intros id w Hw. apply list_elem_of_fmap. exists (id, w). by rewrite Hl. }
  assert (Hfst : map fst tl = map fst l) by (unfold tl; rewrite map_map; apply map_ext; by intros []).
  destruct (oldest_first n tl) as (Hn & Hlen & Hsub & Hold); [rewrite Hfst; apply NoDup_hash_filter|].
  set (ids := map fst (take n (sort_by_key snd tl))) in *. split_and!.
  - done.
  - lia.
  - intros id Hid. apply Hsub in Hid. rewrite Hfst in Hid. apply list_elem_of_fmap in Hid as ([i w] & -> & Hw).
    exists w. by apply Hl.
  - intros Hlt id w Hw. assert (length ids = length tl) as Hall by lia.
    assert (Hids : ids = map fst (sort_by_key snd tl)).
    { unfold ids. rewrite take_ge; [done|]. rewrite sort_by_key_Permutation. lia. }
    rewrite Hids, sort_by_key_Permutation. by apply (list_elem_of_fmap_2 fst _ _ (Hin id w Hw)).
  - intros id id' w w' Hw Hw' Hid Hid'. by eapply (Hold id id'); eauto.
Qed.

(** The ids the retention phase evicts. *)
Definition stale_ids (cutoff : Z) (m : gmap WorkorderId Workorder) : list WorkorderId :=
  map fst (List.filter (fun '(_, w) => is_stale cutoff w) (hash_iter _ m)).

Lemma stale_spec cutoff m :
  NoDup (stale_ids cutoff m) /\
  (forall id, id ∈ stale_ids cutoff m <-> exists w, m !! id = Some w /\ is_stale cutoff w = true) /\
  (size (drop_keys (stale_ids cutoff m) m) + length (stale_ids cutoff m) = size m)%nat.
Proof.
  assert (Hst : forall id, id ∈ stale_ids cutoff m <-> exists w, m !! id = Some w /\ is_stale cutoff w = true)
    by apply (elem_of_selected m (fun '(_, w) => is_stale cutoff w)).
  assert (Hnd : NoDup (stale_ids cutoff m)) by apply NoDup_hash_filter.
  split_and!; [done..|]. apply size_drop_keys; [done|]. intros id (w & Hw & _)%Hst. eauto.
Qed.

(** An eviction pass as one list of ids, and which ids these are. *)
Lemma evict_spec cutoff cfg s :
  let cap := max_retained_workorders cfg in
  exists ids, snd (evict_before cutoff cfg s) = fold_left evict_one ids s /\
    fst (evict_before cutoff cfg s) = Z.of_nat (length ids) /\ NoDup ids /\
    (forall id, id ∈ ids -> exists w, workorders s !! id = Some w /\ is_terminal (wo_status w) = true) /\
    (forall id w, workorders s !! id = Some w -> is_stale cutoff w = true -> id ∈ ids) /\
    (0 < cap -> cap < Z.of_nat (size (workorders s)) - Z.of_nat (length ids) ->
       forall id w, workorders s !! id = Some w -> is_terminal (wo_status w) = true -> id ∈ ids) /\
    (forall id w, id ∈ ids -> workorders s !! id = Some w -> is_stale cutoff w = false ->
       0 < cap /\ cap <= Z.of_nat (size (workorders s)) - Z.of_nat (length ids) /\
       forall id' w', workorders s !! id' = Some w' -> is_terminal (wo_status w') = true -> id' ∉ ids ->
         wo_updated_at w <= wo_updated_at w').
Proof.
  intros cap. unfold evict_before. fold cap.
  change (map fst (List.filter _ (hash_iter Workorder (workorders s)))) with (stale_ids cutoff (workorders s)).
  destruct (stale_spec cutoff (workorders s)) as (Hnd & Hst & Hsz).
  set (stale := stale_ids cutoff (workorders s)) in *.
  assert (Hns : forall id w, workorders s !! id = Some w -> is_stale cutoff w = false -> id ∉ stale).
  { intros id w Hw Hs (w' & Hw' & Hs')%Hst. simplify_eq. congruence. }
  assert (Hterm : forall id, id ∈ stale -> exists w, workorders s !! id = Some w /\ is_terminal (wo_status w) = true).
  { intros id (w & Hw & [Ht _]%andb_true_iff)%Hst. eauto. }
  destruct (evict_all stale s) as (Hw1 & _). set (s1 := fold_left evict_one stale s) in *. rewrite <- Hw1 in Hsz.
  destruct ((0 <? cap) && (cap <? Z.of_nat (size (workorders s1)))) eqn:Ecap; simpl; cycle 1.
  { exists stale. split_and!; [done..| | |].
    - intros id w Hw Hs. apply Hst. eauto.
    - intros Hc Hlt. reflect_bools. lia.
    - intros id w Hid Hw Hs. by apply Hns in Hw. }
  apply andb_true_iff in Ecap as [Hc%Z.ltb_lt Hlt%Z.ltb_lt].
  set (n := Z.to_nat (Z.of_nat (size (workorders s1)) - cap)).
  destruct (capped_spec n (workorders s1)) as (Kn & Klen & Kin & Kall & Kold). fold (capped n (workorders s1)).
  set (ids := capped n (workorders s1)) in *.
  assert (Hl1 : forall id w, workorders s1 !! id = Some w <-> workorders s !! id = Some w /\ id ∉ stale).
  { intros id w. rewrite Hw1, lookup_drop_keys. case_decide; naive_solver. }
  exists (stale ++ ids). rewrite fold_left_app, length_app. split_and!; [done|lia| | | | |].
  - apply NoDup_app. split_and!; [done| |done]. intros id Hid (w & Hw & _)%Kin. by apply Hl1 in Hw as [].
  - intros id [Hid|(w & Hw & Ht)%Kin]%elem_of_app; [eauto|]. apply Hl1 in Hw as []. eauto.
  - intros id w Hw Hs. apply elem_of_app. left. apply Hst. eauto.
  - intros _ Hgt id w Hw Ht. apply elem_of_app. destruct (decide (id ∈ stale)) as [|Hid]; [by left|right].
    apply (Kall ltac:(lia) id w). split; [by apply Hl1|done].
  - intros id w Hid Hw Hs. split_and!; [done|lia|]. intros id' w' Hw' Ht' Hid'.
    rewrite elem_of_app in Hid, Hid'. assert (Hid0 : id ∉ stale) by by eapply Hns. destruct Hid as [|Hid]; [done|].
    destruct (Kin id Hid) as (w0 & Hw0 & Ht0). apply Hl1 in Hw0 as Hw0'. destruct Hw0'. simplify_eq.
    apply (Kold id id'); try tauto. split; [|done]. apply Hl1. tauto.
Qed.

(** What one pass does: [s'] is left of [s]. *)
Definition eviction_result (cutoff cap : Z) (s : AppState) (evicted : Z) (s' : AppState) : Prop :=
  let gone id := workorders s' !! id = None in
  evicted = Z.of_nat (size (workorders s)) - Z.of_nat (size (workorders s')) /\
  (forall id w, workorders s !! id = Some w ->
     (workorders s' !! id = Some w /\ results s' !! id = results s !! id) \/
     (gone id /\ is_terminal (wo_status w) = true /\ results s' !! id = None /\
       (id ∉ progress_txs s') /\ (id ∉ raw_output_txs s') /\ (id ∉ stdin_txs s'))) /\
  (forall id w, workorders s' !! id = Some w -> workorders s !! id = Some w /\ is_stale cutoff w = false) /\
  (0 < cap -> Z.of_nat (size (workorders s')) <= cap \/
     forall id w, workorders s' !! id = Some w -> is_terminal (wo_status w) = false) /\
  (forall id w, workorders s !! id = Some w -> gone id -> is_stale cutoff w = false ->
     0 < cap /\ cap <= Z.of_nat (size (workorders s')) /\
     forall id' w', workorders s' !! id' = Some w' -> is_terminal (wo_status w') = true ->
       wo_updated_at w <= wo_updated_at w').

Lemma evict_before_result cutoff cfg s :
  let '(evicted, s') := evict_before cutoff cfg s in eviction_result cutoff (max_retained_workorders cfg) s evicted s'.
Proof.
  destruct (evict_spec cutoff cfg s) as (ids & Hs & Hn & Hnd & Hterm & Hstale & Hcap & Hold).
  destruct (evict_before cutoff cfg s) as [evicted s']. simpl in Hs, Hn. subst s' evicted.
  destruct (evict_all ids s) as (Hw & Hr & _ & Hp & Hraw & Hstd & _). set (s' := fold_left evict_one ids s) in *.
  assert (Hsz : (size (workorders s') + length ids = size (workorders s))%nat).
  { rewrite Hw. apply size_drop_keys; [done|]. intros id (w & Hid & _)%Hterm. eauto. }
  assert (Hl : forall id, workorders s' !! id = if decide (id ∈ ids) then None else workorders s !! id)
    by (intros id; rewrite Hw; apply lookup_drop_keys).
  unfold eviction_result. cbv zeta. set (cap := max_retained_workorders cfg) in *. split_and!.
  - lia.
  - intros id w Hid. rewrite Hl, Hr, lookup_drop_keys, Hp, Hraw, Hstd. case_decide as Hin; [right|by left].
    destruct (Hterm id Hin) as (w' & Hw' & Ht). simplify_eq. split_and!; try done; set_solver.
  - intros id w Hid. rewrite Hl in Hid. case_decide as Hin; [done|]. split; [done|].
    destruct (is_stale cutoff w) eqn:E; [|done]. by destruct Hin; apply (Hstale id w).
  - intros Hc. destruct (Z.le_gt_cases (Z.of_nat (size (workorders s'))) cap) as [|Hgt]; [by left|right].
    intros id w Hid. rewrite Hl in Hid. case_decide as Hin; [done|].
    destruct (is_terminal (wo_status w)) eqn:E; [|done]. destruct Hin. apply (Hcap Hc ltac:(lia) id w Hid E).
  - intros id w Hid Hg Hns. rewrite Hl in Hg. case_decide as Hin; [|congruence].
    destruct (Hold id w Hin Hid Hns) as (Hc & Hle & Ho). split_and!; [done|lia|].
    intros id' w' Hid' Ht'. rewrite Hl in Hid'. case_decide; [done|]. eauto.
Qed.

(** C20.  When the retention time leads from the present to a date that exists, a pass
    of the eviction returns, forgets only finished orders and keeps its two promises: no
    pending, provisioning or building order is removed and no surviving order or
    result is changed; no finished order older than the retention time survives;
    afterwards the number of orders is within the cap or nothing finished is left to
    evict; the cap never evicts more than needed, and never an order while one
    updated earlier survives; results and channels of evicted orders are gone. *)
Theorem evict_workorders_correct cfg s :
  let cutoff := now_of s - retention_hours cfg * 3600 in
  0 <= retention_hours cfg -> date_ok (now_of s) = true -> date_ok cutoff = true ->
  exists evicted s', evict_workorders cfg s = Some (evicted, s') /\ eviction_result cutoff (max_retained_workorders cfg) s evicted s'.
Proof.
  intros cutoff Hh Hn Hc. pose proof (evict_before_result cutoff cfg s) as Hr. unfold evict_workorders. rewrite hours_before_small by done.
  cbn [fmap option_fmap option_map]. fold cutoff. destruct (evict_before cutoff cfg s) as [evicted s']. by exists evicted, s'.
Qed.

End EvictionFacts.

(** ** Submission *)

Section SubmitFacts.
Context `{ConfigHash, HttpLib, StateCodec}.

Lemma validate_atoms_Ok atoms u :
  validate_atoms atoms = Ok u -> Forall (fun a => Validation.validate_atom a = Ok tt) atoms.
Proof.
  induction atoms as [|a atoms IH]; simpl; [constructor|].
  destruct (Validation.validate_atom a) as [[]|e] eqn:E; [|done]. intros Hv. constructor; auto.
Qed.

(** The state apart from the disk. *)
Definition same_but_disk (s s' : AppState) : Prop := s' = set_disk (disk s') s.

(** What an admitted submission has done. *)
Record admitted (cfg : ServerConfig) (s : AppState) (req : SubmitWorkorderRequest) (client : ClientId)
    (role : ClientRole) (id : WorkorderId) (s' : AppState) : Prop := {
  adm_order : exists o, workorders s' = <[id := o]> (workorders s) /\ wo_id o = id /\ wo_status o = Pending /\
    wo_client_id o = client /\ wo_role o = role /\ wo_atoms o = req_atoms req /\ wo_system_id o = req_system_id req /\
    wo_emerge_args o = req_emerge_args req;
  adm_was_idle : Registry.active_of (clients s) client = None;
  adm_mark : Registry.active_of (clients s') client = Some id;
  adm_others : forall c, c <> client -> Registry.active_of (clients s') c = Registry.active_of (clients s) c;
  adm_capacity : 0 < max_active_workorders cfg -> active_count (workorders s) < max_active_workorders cfg;
  adm_progress : progress_txs s' = {[id]} ∪ progress_txs s;
  adm_raw : raw_output_txs s' = {[id]} ∪ raw_output_txs s;
  adm_results : results s' = results s;
  adm_free : free_workers s' = free_workers s;
}.

Lemma admit_workorder_cases cfg s client role req normalized trace id t :
  match admit_workorder cfg s client role req normalized trace id t with
  | (Err _, s') => s' = s
  | (Ok _, s') => admitted cfg s req client role id s' /\ metrics s' = metrics s /\ disk s' = disk s
  end.
Proof.
  unfold admit_workorder. destruct ((0 <? max_active_workorders cfg) && _) eqn:Ec; [done|].
  destruct (Registry.update t (clients s) client role (req_portage_config req) (req_system_id req)) as [[d|e] cs] eqn:Eu.
  - apply Registry.update_Ok_inv in Eu as (Ha & Ha' & Hin & Hoth). split; [|done]. split; simpl; try done.
    + eexists. by split_and!.
    + by apply Registry.active_of_set.
    + intros c Hc. rewrite Registry.active_of_set_ne by done. unfold Registry.active_of. by rewrite Hoth.
    + intros Hm. reflect_bools. lia.
  - apply Registry.update_Err_same in Eu as ->. by destruct s.
Qed.

(** Both ways a submission can go. *)
Lemma submit_workorder_cases cfg normalize s headers req id fresh :
  match submit_workorder cfg normalize s headers req id fresh with
  | (Err _, s') => same_but_disk s s'
  | (Ok resp, s') =>
      resp_workorder_id resp = id /\
      Forall (fun a => Validation.validate_atom a = Ok tt) (req_atoms req) /\
      (exists ident,
        Auth.resolve (Auth.CertRegistry_new (auth cfg)) headers (req_client_id req) (req_role req) = Ok ident /\
        admitted cfg s req (Auth.ri_client_id ident) (Auth.ri_role ident) id s') /\
      counter (metrics s') queue_depth = u64_wrapping_add (counter (metrics s) queue_depth) 1 /\
      counter (metrics s') builds_active = counter (metrics s) builds_active
  end.
Proof.
  unfold submit_workorder. destruct (validate_atoms (req_atoms req)) as [u|e] eqn:Ev; [|by destruct s].
  apply validate_atoms_Ok in Ev.
  destruct (Auth.resolve _ headers (req_client_id req) (req_role req)) as [ident|e] eqn:Er; [|by destruct s].
  destruct (normalize (req_portage_config req) (disk s)) as [[normalized|e] w]; [|done].
  set (s1 := set_disk w s).
  pose proof (admit_workorder_cases cfg s1 (Auth.ri_client_id ident) (Auth.ri_role ident) req normalized
    (resolve_request_trace_context headers fresh) id (now_of s1)) as Ha.
  destruct (admit_workorder cfg s1 _ _ req normalized _ id _) as [[o|e] s2]; [|by subst s2].
  destruct Ha as (Ha & Hm & _). split_and!; [done|done| | |].
  - exists ident. split; [done|]. destruct Ha. by split.
  - simpl. by rewrite Hm.
  - simpl. by rewrite Hm.
Qed.

(** C18.  Admission: a submission is refused without any effect on orders, clients,
    channels or counters (blobs and trees of its snapshots may have been stored), or it is
    accepted, and then every requested atom is
    valid, the submitter is the identity the authentication resolved and had no
    active order, there was room under the limit of active orders, and the new
    order is pending, has its channels and is the client's active order. *)
Theorem submit_workorder_admission cfg normalize s headers req id fresh :
  match submit_workorder cfg normalize s headers req id fresh with
  | (Err _, s') => same_but_disk s s'
  | (Ok resp, s') =>
      resp_workorder_id resp = id /\
      Forall (fun a => Validation.validate_atom a = Ok tt) (req_atoms req) /\
      (exists ident,
        Auth.resolve (Auth.CertRegistry_new (auth cfg)) headers (req_client_id req) (req_role req) = Ok ident /\
        admitted cfg s req (Auth.ri_client_id ident) (Auth.ri_role ident) id s') /\
      counter (metrics s') queue_depth = u64_wrapping_add (counter (metrics s) queue_depth) 1 /\
      counter (metrics s') builds_active = counter (metrics s) builds_active
  end.
Proof. apply submit_workorder_cases. Qed.

End SubmitFacts.

(** ** Who may see and cancel what *)

Section AccessFacts.
Context `{HttpLib, HashIter}.

Lemma header_client_certified `{!HttpLibLaws} cfg headers cid :
  header_client cfg headers = Some cid ->
  exists e, e ∈ Auth.ac_clients (auth cfg) /\ Auth.ce_client_id e = cid /\
    Auth.presents (auth cfg) headers (Auth.normalise_fingerprint (Auth.ce_fingerprint e)).
Proof.
  unfold header_client, Auth.resolve_header_only.
  destruct (Auth.extract_fingerprint _ headers) as [fp|] eqn:Ex; [|done].
  destruct (Auth.cr_entries _ !! fp) as [e|] eqn:Ee; [|done]. intros [= <-].
  apply Auth.cr_entries_lookup in Ee as [Hin <-]. apply Auth.extract_fingerprint_presents in Ex. eauto.
Qed.

(** The request carries a certificate registered for the client. *)
Definition speaks_for (cfg : ServerConfig) (headers : HeaderMap) (cid : ClientId) : Prop :=
  exists e, e ∈ Auth.ac_clients (auth cfg) /\ Auth.ce_client_id e = cid /\
    Auth.presents (auth cfg) headers (Auth.normalise_fingerprint (Auth.ce_fingerprint e)).

(** C19.  Access control: with authentication enabled, a listing, a query by id or a
    cancellation (not the progress connection) sees or cancels a workorder only with a certificate registered
    for the client that owns the order, and a listing contains all orders of that
    client. *)
Theorem workorder_access_control `{!HttpLibLaws, !HashIterLaws} cfg s headers :
  auth_mode cfg <> AuthNone ->
  (forall l, list_workorders cfg s headers = Ok l ->
     exists cid, speaks_for cfg headers cid /\
       forall x, x ∈ l <-> exists id w, workorders s !! id = Some w /\ wo_client_id w = cid /\
         x = {| sum_id := wo_id w; sum_atoms := wo_atoms w; sum_status := wo_status w;
                sum_created_at := wo_created_at w |}) /\
  (forall id r, get_workorder cfg s headers id = Ok r ->
     exists w, workorders s !! id = Some w /\ speaks_for cfg headers (wo_client_id w) /\
       wsr_status r = wo_status w /\ wsr_result r = results s !! id) /\
  (forall id r s', cancel_workorder cfg s headers id = (r, s') -> s' <> s ->
     exists w, workorders s !! id = Some w /\ speaks_for cfg headers (wo_client_id w)).
Proof.
  intros Hmode. split_and!.
  - unfold list_workorders. rewrite bool_decide_true by done.
    destruct (header_client cfg headers) as [cid|] eqn:Ec; simpl; [|done]. intros l [= <-].
    exists cid. split; [by apply header_client_certified|]. intros x. rewrite list_elem_of_fmap. split.
    + intros ([id w] & -> & Hw). apply elem_of_hash_filter in Hw as [Hw Hc].
      apply bool_decide_eq_true in Hc. eauto.
    + intros (id & w & Hw & Hc & ->). exists (id, w). rewrite elem_of_hash_filter. by rewrite bool_decide_true.
  - intros id r. unfold get_workorder. destruct (workorders s !! id) as [w|]; simpl; [|done].
    rewrite bool_decide_true by done. destruct (header_client cfg headers) as [cid|] eqn:Ec; [|done].
    case_bool_decide as Hc; simpl; [|done]. intros [= <-]. exists w. subst cid.
    split_and!; try done. by apply header_client_certified.
  - intros id r s'. unfold cancel_workorder, may_cancel. rewrite bool_decide_true by done.
    destruct (workorders s !! id) as [w|]; [|by intros; simplify_eq].
    destruct (header_client cfg headers) as [cid|] eqn:Ec; [|by intros; simplify_eq].
    case_bool_decide as Hc; [|by intros; simplify_eq]. intros _ _. exists w. subst cid.
    split; [done|]. by apply header_client_certified.
Qed.

(** What cancelling an active order changes. *)
Record cancelled (s : AppState) (id : WorkorderId) (w : Workorder) (s' : AppState) : Prop := {
  can_orders : workorders s' = <[id := mark_cancelled w]> (workorders s);
  can_clients : clients s' = Registry.clear_active_workorder (clients s) (wo_client_id w);
  can_results : results s' = results s;
  can_progress : progress_txs s' = progress_txs s;
  can_raw : raw_output_txs s' = raw_output_txs s;
  can_free : free_workers s' = free_workers s;
  can_containers : container_ids s' = container_ids s;
  can_disk : disk s' = disk s;
  can_depth : counter (metrics s') queue_depth =
    if bool_decide (wo_status w = Pending) then u64_wrapping_sub (counter (metrics s) queue_depth) 1
    else counter (metrics s) queue_depth;
  can_active : counter (metrics s') builds_active = counter (metrics s) builds_active;
  can_trail : trail s' = trail s ++
    (if bool_decide (id ∈ progress_txs s) then
       [Broadcast {| bp_workorder_id := id; bp_trace_id := tc_trace_id <$> wo_trace_context w;
                     bp_event := StatusChanged (wo_status w) Cancelled; bp_timestamp := now_of s |}] else []) ++
    (if bool_decide (wo_status w = Building) then
       match container_ids s !! id with Some c => [ContainerStopped c] | None => [] end else []);
}.

Lemma cancel_order_spec s id w : cancelled s id w (cancel_order id w s).
Proof.
  unfold cancel_order. split; destruct (bool_decide (id ∈ progress_txs s)) eqn:Ep;
    repeat (simpl; rewrite ?Ep; case_bool_decide || case_match); simpl; rewrite ?app_nil_r, <- ?app_assoc; done.
Qed.

Lemma cancel_workorder_cases cfg s headers id r s' :
  cancel_workorder cfg s headers id = (r, s') ->
  s' = s /\ (forall a, r = Ok a -> cwr_cancelled a = false) \/
  exists w, workorders s !! id = Some w /\ is_active (wo_status w) = true /\
    r = Ok {| cwr_workorder_id := id; cwr_cancelled := true |} /\ s' = cancel_order id w s.
Proof.
  unfold cancel_workorder. destruct (may_cancel cfg s headers id); [|intros; simplify_eq; left; done].
  destruct (workorders s !! id) as [w|]; [|intros; simplify_eq; left; done].
  destruct (is_active (wo_status w)) eqn:Ea; simpl; intros; simplify_eq; [right; eauto|left].
  split; [done|]. by intros ? [= <-].
Qed.

(** Cancellation: a cancellation either reports that it did nothing and leaves
    the state as it was, or the order was active, and then it is marked cancelled
    (its update time is not touched), the client's active mark is cleared, the
    status change is broadcast to whoever listens, the queue depth drops exactly if
    the order was still pending, the container is stopped exactly if the order was
    building and has one, and nothing is written to the disk. *)
Theorem cancel_workorder_effect cfg s headers id :
  match cancel_workorder cfg s headers id with
  | (Ok a, s') =>
      exists w, workorders s !! id = Some w /\ cwr_workorder_id a = id /\
        cwr_cancelled a = is_active (wo_status w) /\
        (if cwr_cancelled a then cancelled s id w s' else s' = s)
  | (Err (code, _), s') => s' = s /\ (workorders s !! id = None -> code = NOT_FOUND)
  end.
Proof.
  unfold cancel_workorder, may_cancel. destruct (workorders s !! id) as [w|] eqn:Ew.
  - assert (Hok : exists w0, Some w = Some w0 /\ id = id /\ is_active (wo_status w) = is_active (wo_status w0) /\
      (if is_active (wo_status w) then cancelled s id w0 (cancel_order id w s) else s = s)).
    { exists w. split_and!; [done..|]. destruct (is_active (wo_status w)); [apply cancel_order_spec|done]. }
    repeat case_match; simplify_eq/=; try done; reflect_bools;
      repeat match goal with E : is_active _ = _ |- _ => rewrite E in Hok end; eauto.
  - by destruct (bool_decide (auth_mode cfg <> AuthNone)).
Qed.

End AccessFacts.

(** ** Concrete runs *)

Definition hash_iter_reference : HashIter := fun V m => map_to_list m.
Lemma hash_iter_reference_laws : @HashIterLaws hash_iter_reference.
Proof. intros V m. done. Qed.

(** A state with the given orders and clients. *)
Definition demo_state (os : gmap WorkorderId Workorder) (cs : Registry.ClientRegistry) (w : World) : AppState := {|
  clients := cs; workorders := os; results := ∅; progress_txs := dom os; raw_output_txs := dom os; stdin_txs := ∅;
  free_workers := 4; container_ids := ∅; image_last_used := ∅; staged_workorder_references := ∅;
  metrics := Metrics_new; disk := w; trail := [] |}.

(** One building and one long completed order. *)
Definition demo_late : World := {| files := ∅; faults := []; next_uuid := 0; clock := 1000000 |}.

Lemma evict_workorders_correct_witness :
  let s := demo_state demo_orders ∅ demo_late in
  exists evicted s', @evict_workorders hash_iter_reference ServerConfig_default s = Some (evicted, s') /\
    eviction_result (now_of s - retention_hours ServerConfig_default * 3600) (max_retained_workorders ServerConfig_default) s evicted s'.
Proof.
  apply (@evict_workorders_correct hash_iter_reference hash_iter_reference_laws ServerConfig_default (demo_state demo_orders ∅ demo_late));
    vm_compute; done.
Defined.

(** The pass of the witness evicts the completed order and keeps the building one. *)
Example evict_demo :
  exists s', @evict_workorders hash_iter_reference ServerConfig_default (demo_state demo_orders ∅ demo_late) = Some (1, s') /\
    workorders s' !! 2%N = None /\ is_Some (workorders s' !! 1%N).
Proof. eexists. split; [vm_compute; reflexivity|]. vm_compute. eauto. Qed.

(** A configuration with other retention times. *)
Definition with_hours (n : Z) (c : ServerConfig) : ServerConfig := {|
  binpkg_dir := binpkg_dir c; binhost_url := binhost_url c; docker_socket := docker_socket c; worker_image_prefix := worker_image_prefix c;
  max_workers := max_workers c; max_active_workorders := max_active_workorders c; request_body_size_bytes := request_body_size_bytes c;
  build_timeout_secs := build_timeout_secs c; worker_idle_timeout := worker_idle_timeout c; worker_memory_bytes := worker_memory_bytes c;
  worker_cpu_shares := worker_cpu_shares c; worker_network_mode := worker_network_mode c; worker_binpkg_mount := worker_binpkg_mount c;
  auth := auth c; signing := signing c; parallel_jobs := parallel_jobs c; load_average := load_average c; tls := tls c;
  state_dir := state_dir c; retention_hours := n; worker_binary := worker_binary c; max_retained_workorders := max_retained_workorders c;
  log_json := log_json c; repos_dir := repos_dir c; binpkg_disk_warn_bytes := binpkg_disk_warn_bytes c; worker_base_image := worker_base_image c;
  skip_worker_sync := skip_worker_sync c; snapshot_cache_grace_period_hours := n; snapshot_cache_hard_delete_hours := n;
  snapshot_min_retained_bytes := snapshot_min_retained_bytes c |}.

(** A retention time that is read as -1 hour evicts the order that was completed this very second. *)
Example huge_retention_evicts :
  let s := demo_state demo_orders ∅ {| files := ∅; faults := []; next_uuid := 0; clock := 0 |} in
  exists s', @evict_workorders hash_iter_reference (with_hours u64_max ServerConfig_default) s = Some (1, s') /\ workorders s' !! 2%N = None.
Proof. eexists. split; [vm_compute; reflexivity|]. vm_compute. done. Qed.

Definition with_auth (a : Auth.AuthConfig) (c : ServerConfig) : ServerConfig := {|
  binpkg_dir := binpkg_dir c; binhost_url := binhost_url c; docker_socket := docker_socket c;
  worker_image_prefix := worker_image_prefix c; max_workers := max_workers c;
  max_active_workorders := max_active_workorders c;
  request_body_size_bytes := request_body_size_bytes c; build_timeout_secs := build_timeout_secs c;
  worker_idle_timeout := worker_idle_timeout c; worker_memory_bytes := worker_memory_bytes c;
  worker_cpu_shares := worker_cpu_shares c; worker_network_mode := worker_network_mode c;
  worker_binpkg_mount := worker_binpkg_mount c; auth := a; signing := signing c;
  parallel_jobs := parallel_jobs c; load_average := load_average c; tls := tls c; state_dir := state_dir c;
  retention_hours := retention_hours c; worker_binary := worker_binary c;
  max_retained_workorders := max_retained_workorders c; log_json := log_json c; repos_dir := repos_dir c;
  binpkg_disk_warn_bytes := binpkg_disk_warn_bytes c; worker_base_image := worker_base_image c;
  skip_worker_sync := skip_worker_sync c;
  snapshot_cache_grace_period_hours := snapshot_cache_grace_period_hours c;
  snapshot_cache_hard_delete_hours := snapshot_cache_hard_delete_hours c;
  snapshot_min_retained_bytes := snapshot_min_retained_bytes c |}.

(** Client 5 presents its certificate and asks for its order 3. *)
Definition demo_secured : ServerConfig := with_auth Auth.demo_config ServerConfig_default.
Definition demo_owned : AppState := demo_state {[3%N := demo_order 3 5 Building 30]} ∅ demo_late.

Lemma workorder_access_control_witness :
  exists w, workorders demo_owned !! 3%N = Some w /\
    @speaks_for Auth.http_reference demo_secured Auth.demo_headers (wo_client_id w) /\
    Building = wo_status w /\ None = results demo_owned !! 3%N.
Proof.
  destruct (@workorder_access_control Auth.http_reference hash_iter_reference Auth.http_reference_laws
    hash_iter_reference_laws demo_secured demo_owned Auth.demo_headers) as (_ & Hget & _); [discriminate|].
  apply (Hget 3%N {| wsr_workorder_id := 3%N; wsr_status := Building; wsr_result := None; wsr_trace_id := None |}).
  vm_compute. reflexivity.
Defined.
