(* ===== verification/BlobApi.v ===== *)
(** * Blob and information requests ([crates/server/src/api.rs])

    The handlers of the snapshot transport - which blobs are missing, upload, download -
    and the small public and observability handlers, as functions of the server state.
    They run the blob store ([BlobStore]) on the server's disk behind the check of the
    client certificate ([Auth]); the theorems carry the guarantees of the store over to
    what a client sees.  An error text that ends with the text of an io error is kept up
    to that text. *)

From S2P Require Import Prelude Types World Auth Frame Trace Config Metrics BlobStore Server.

Definition INTERNAL_SERVER_ERROR : Z := 500.

Abbreviation HttpIO := (Comp (Z * string)).
Abbreviation HttpResult A := (Result A (Z * string)).

(** ** Handlers *)
Section Handlers.
Context `{HttpLib, Sha256, BlobMetadataCodec, Zstd}.

Definition bad_request (e : Error) : Z * string := (BAD_REQUEST, Error_to_string e).
(** [.map_err(bad_request)?] *)
Definition or_bad_request {A} (m : IO A) : HttpIO A :=
  try_ m (fun r => match r with Ok a => ret a | Err e => throw (bad_request e) end).

Definition request_accepts_zstd (headers : HeaderMap) : bool :=
  match header_str headers "accept-encoding" with
  | Some value => existsb (fun token => eq_ignore_ascii_case (trim token) "zstd") (omap (fun token => head (split_on ";" token)) (split_on "," value))
  | None => false
  end.

(** Every blob handler checks the client, works on the disk, and counts a success. *)
Definition blob_handler {A} (cfg : ServerConfig) (s : AppState) (headers : HeaderMap) (io : HttpIO A) (count : A -> Metrics -> Metrics) :
    HttpResult A * AppState :=
  match require_snapshot_auth cfg headers with
  | Err e => (Err e, s)
  | Ok _ =>
      let '(r, w) := io (disk s) in
      let s := set_disk w s in
      match r with Ok a => (Ok a, count_metric (count a) s) | Err e => (Err e, s) end
  end.

Fixpoint missing_digests (state_dir : path) (digests : list string) : HttpIO (list string) :=
  match digests with
  | [] => ret []
  | digest :: rest =>
      do present <- or_bad_request (has_blob state_dir digest) ;;
      do missing <- missing_digests state_dir rest ;;
      ret (if present then missing else digest :: missing)
  end.

Definition find_missing_blobs (cfg : ServerConfig) (s : AppState) (headers : HeaderMap) (digests : list string) :
    HttpResult (list string) * AppState :=
  blob_handler cfg s headers (missing_digests (state_dir cfg) digests)
    (fun missing => record_snapshot_missing_blob_query (Z.of_nat (length digests)) (Z.of_nat (length missing))).

(** The digest and whether the blob is new. *)
Definition upload_blob (cfg : ServerConfig) (s : AppState) (headers : HeaderMap) (digest : string) (body : bytes) :
    HttpResult (string * bool) * AppState :=
  blob_handler cfg s headers
    (do stored <- or_bad_request (store_blob_for_digest (state_dir cfg) digest body) ;;
     ret (sb_digest (vbs_blob stored), vbs_uploaded stored))
    (fun response => record_snapshot_blob_upload (blen body) (snd response)).

(** A download: the content encoding and the body. *)
Record BlobResponse := { br_content_encoding : option string; br_body : bytes }.

(** The zstd variant, when the client takes it and the metadata has it. *)
Definition read_variant (state_dir : path) (digest : string) : HttpIO (option bytes) :=
  try_ (load_blob_metadata state_dir digest) (fun r => match r with
    | Ok metadata =>
        if bool_decide (is_Some (encoded_variants metadata !! EncZstd)) then
          do encoded_path <- or_bad_request (lift (encoded_blob_path state_dir digest EncZstd)) ;;
          try_ (fs_read encoded_path) (fun r => match r with
            | Ok b => ret (Some b)
            | Err NotFound => ret None
            | Err _ => throw (INTERNAL_SERVER_ERROR, "Failed to read " +:+ display encoded_path)
            end)
        else ret None
    | Err _ => ret None
    end).

Definition read_raw (state_dir : path) (digest : string) : HttpIO bytes :=
  do blob_path <- or_bad_request (lift (blob_path state_dir digest)) ;;
  try_ (fs_read blob_path) (fun r => match r with
    | Ok b => ret b
    | Err NotFound => throw (NOT_FOUND, "Snapshot blob " +:+ digest +:+ " not found")
    | Err _ => throw (INTERNAL_SERVER_ERROR, "Failed to read " +:+ display blob_path)
    end).

Definition read_blob (state_dir : path) (accepts_zstd : bool) (digest : string) : HttpIO BlobResponse :=
  do variant <- (if accepts_zstd then read_variant state_dir digest else ret None) ;;
  match variant with
  | Some b => ret {| br_content_encoding := Some "zstd"; br_body := b |}
  | None => do b <- read_raw state_dir digest ;; ret {| br_content_encoding := None; br_body := b |}
  end.

Definition download_blob (cfg : ServerConfig) (s : AppState) (headers : HeaderMap) (digest : string) : HttpResult BlobResponse * AppState :=
  blob_handler cfg s headers (read_blob (state_dir cfg) (request_accepts_zstd headers) digest)
    (fun response => record_snapshot_blob_download (blen (br_body response))).

(** What the client has after undoing the content encoding. *)
Definition decoded (r : BlobResponse) : option bytes :=
  match br_content_encoding r with Some _ => zstd_decode_all (br_body r) | None => Some (br_body r) end.

(** [protect_observability_and_binpkgs]: whether the request goes on. *)
Definition protect_observability_and_binpkgs (cfg : ServerConfig) (uri_path : string) (headers : HeaderMap) : Result unit Z :=
  let requires_auth := match auth_mode cfg with
    | AuthNone => false
    | Mtls => bool_decide (uri_path = "/metrics") || starts_with "/binpkgs" uri_path
    | Mixed => bool_decide (uri_path = "/metrics")
    end in
  if requires_auth && negb (is_some (header_client cfg headers)) then Err UNAUTHORIZED else Ok tt.

End Handlers.

(** ** What a client observes

    The requests of one or several clients, in the order in which the server handles
    them, and the answers. *)

Inductive BlobRequest := FindMissing (digests : list string) | PutBlob (digest : string) (body : bytes) | GetBlob (digest : string).
(** The body of a download is what the client has after decoding. *)
Inductive BlobAnswer := MissingAre (digests : list string) | StoredAs (digest : string) (uploaded : bool) | ContentIs (body : option bytes) | Status (code : Z).

Section Observed.
Context `{HttpLib, Sha256, BlobMetadataCodec, Zstd} (cfg : ServerConfig).

Definition answer {A} (f : A -> BlobAnswer) (x : HttpResult A * AppState) : BlobAnswer * AppState :=
  (match fst x with Ok a => f a | Err e => Status (fst e) end, snd x).

Definition handle_blob_request (s : AppState) (x : HeaderMap * BlobRequest) : BlobAnswer * AppState :=
  let '(headers, request) := x in
  match request with
  | FindMissing digests => answer MissingAre (find_missing_blobs cfg s headers digests)
  | PutBlob digest body => answer (fun r => StoredAs (fst r) (snd r)) (upload_blob cfg s headers digest body)
  | GetBlob digest => answer (fun r => ContentIs (decoded r)) (download_blob cfg s headers digest)
  end.

Fixpoint handle_blob_requests (s : AppState) (xs : list (HeaderMap * BlobRequest)) : list BlobAnswer * AppState :=
  match xs with
  | [] => ([], s)
  | x :: rest =>
      let '(a, s) := handle_blob_request s x in
      let '(answers, s) := handle_blob_requests s rest in (a :: answers, s)
  end.

(** The abstract service: a map from digests to contents. *)
Definition is_digest (d : string) : bool := is_ok (validate_digest d).
Definition spec_request (store : gmap string bytes) (x : HeaderMap * BlobRequest) : BlobAnswer * gmap string bytes :=
  let '(headers, request) := x in
  if negb (is_ok (require_snapshot_auth cfg headers)) then (Status UNAUTHORIZED, store)
  else match request with
  | FindMissing digests =>
      (if forallb is_digest digests then MissingAre (List.filter (fun d => negb (is_some (store !! d))) digests) else Status BAD_REQUEST, store)
  | PutBlob d b =>
      if is_digest d && bool_decide (sha256_hex b = d) then (StoredAs d (negb (is_some (store !! d))), <[d := b]> store)
      else (Status BAD_REQUEST, store)
  | GetBlob d =>
      (if is_digest d then match store !! d with Some b => ContentIs (Some b) | None => Status NOT_FOUND end else Status BAD_REQUEST, store)
  end.
Fixpoint spec_requests (store : gmap string bytes) (xs : list (HeaderMap * BlobRequest)) : list BlobAnswer * gmap string bytes :=
  match xs with
  | [] => ([], store)
  | x :: rest =>
      let '(a, store) := spec_request store x in
      let '(answers, store) := spec_requests store rest in (a :: answers, store)
  end.
End Observed.

Section Facts.
Context `{HttpLib, Sha256, BlobMetadataCodec, !BlobMetadataCodecLaws, Zstd, !ZstdLaws}.
Context (U : bytes -> Prop) (cfg : ServerConfig).
Abbreviation dir := (state_dir cfg).
Abbreviation good := (BlobStore.good U dir).
Abbreviation store_ok := (BlobStore.store_ok U dir).

(** A blob that has a variant is there itself. *)
Definition no_orphans (w : World) : Prop :=
  forall d, valid_digest d -> is_Some (files w !! blob_file dir d ".zst") -> is_Some (files w !! blob_file dir d "").

Lemma quiet_good d w : store_ok (files w) -> faults w = [] -> valid_digest d -> good d w.
Proof. intros Hok Hw Hv. apply store_ok_good; [done| |done]. unfold links_supported. rewrite Hw. constructor. Qed.

Lemma wp_or_bad_request {A} (m : IO A) Q w :
  wp m (fun r w' => Q (map_err bad_request r) w') w -> wp (or_bad_request m) Q w.
Proof. intros Hm. apply wp_try. eapply wp_mono; [exact Hm|]. by intros [a|e] w'. Qed.

Lemma wp_or_lift {A B} (r : Result A Error) a (k : A -> HttpIO B) Q w :
  r = Ok a -> wp (k a) Q w -> wp (bind (or_bad_request (lift r)) k) Q w.
Proof. by intros ->. Qed.

#[local] Hint Resolve run_good run_refl run_trans : core.

Lemma wp_read_variant d w :
  valid_digest d -> good d w ->
  wp (read_variant dir d) (fun r w' => Run U dir true d w w' /\ files w' = files w /\
    (forall b, r = Ok (Some b) -> files w !! blob_file dir d ".zst" = Some b) /\ (faults w = [] -> is_ok r = true)) w.
Proof.
  intros Hv Hg. unfold read_variant. wp_step wp_load_blob_metadata. intros r w1 (HR & Hfs & _ & _).
  destruct r as [m|e]; [|by split_and!]. case_bool_decide; [|by split_and!].
  eapply wp_or_lift; [by apply encoded_blob_path_eq|].
  wp_step wp_read. intros r w2 (HR2 & Hfs2 & Hb & Hq). assert (Hrun : Run U dir true d w w2) by by eapply run_trans.
  assert (Hfs' : files w2 = files w) by congruence. rewrite Hfs in Hb, Hq.
  destruct r as [b|e]; [split_and!; try done; intros b' [= <-]; by apply Hb|].
  assert (Hnf : faults w = [] -> e = NotFound).
  { intros Hw. specialize (Hq (run_quiet _ _ _ _ _ _ HR Hw)). by destruct (files w !! _); simplify_eq/=. }
  destruct e; try (split_and!; try done; intros Hw; by specialize (Hnf Hw)).
Qed.

Lemma wp_read_raw d w :
  valid_digest d -> good d w ->
  wp (read_raw dir d) (fun r w' => Run U dir true d w w' /\ files w' = files w /\
    (forall b, r = Ok b -> files w !! blob_file dir d "" = Some b) /\
    (faults w = [] -> match files w !! blob_file dir d "" with
       | Some b => r = Ok b
       | None => exists text, r = Err (NOT_FOUND, text)
       end)) w.
Proof.
  intros Hv Hg. unfold read_raw. eapply wp_or_lift; [by apply blob_path_eq|].
  wp_step wp_read. intros r w2 (HR2 & Hfs2 & Hb & Hq). destruct r as [b|e].
  - split_and!; [done|done|intros b' [= <-]; by apply Hb|]. by rewrite (Hb b eq_refl).
  - assert (Hnf : faults w = [] -> files w !! blob_file dir d "" = None /\ e = NotFound).
    { intros Hw. specialize (Hq Hw). by destruct (files w !! _); simplify_eq/=. }
    destruct e; split_and!; try done; intros Hw; destruct (Hnf Hw) as [-> ?]; try done. by eexists.
Qed.

(** A download that succeeds has the content of its digest, whatever failed; without
    failures it finds exactly what is there. *)
Lemma wp_read_blob accepts d w :
  valid_digest d -> good d w ->
  wp (read_blob dir accepts d) (fun r w' => Run U dir true d w w' /\ files w' = files w /\
    (forall resp, r = Ok resp -> exists raw, decoded resp = Some raw /\ raw_ok U d raw) /\
    (collision_free U -> faults w = [] -> no_orphans w -> match files w !! blob_file dir d "" with
       | Some b => exists resp, r = Ok resp /\ decoded resp = Some b
       | None => exists text, r = Err (NOT_FOUND, text)
       end)) w.
Proof.
  intros Hv Hg. unfold read_blob. assert (He : entry_ok U dir (files w) d) by apply Hg. apply wp_bind.
  apply wp_mono with (Q := fun r w' => Run U dir true d w w' /\ files w' = files w /\
    (forall b, r = Ok (Some b) -> files w !! blob_file dir d ".zst" = Some b) /\ (faults w = [] -> is_ok r = true)).
  { destruct accepts; [by apply wp_read_variant|]. apply wp_ret. by split_and!; auto. }
  intros [[b|]|e] w1 (HR & Hfs & Hz & Hq).
  - apply wp_ret. specialize (Hz b eq_refl). destruct (He _ _ Hz) as (_ & _ & (raw & Hraw & Hdec)); [done|].
    split_and!; [done|done|intros r [= <-]; by exists raw|]. intros CF _ Hno. destruct (Hno d Hv) as [b' Hb']; [by eexists|].
    rewrite Hb'. eexists. split; [done|]. unfold decoded. cbn. rewrite Hdec. f_equal. destruct (He _ _ Hb') as [[HU Hs] _]; [done|].
    destruct Hraw as [HU' Hs']. apply CF; [done|done|congruence].
  - wp_step wp_read_raw. intros r w2 (HR2 & Hfs2 & Hb & Hq2). rewrite Hfs in Hb, Hq2. destruct r as [b|e]; simpl.
    + apply wp_ret. split_and!; [by eauto|congruence| |].
      * intros r [= <-]. exists b. split; [done|]. by apply (He "" b (Hb b eq_refl)).
      * intros _ Hw _. rewrite (Hb b eq_refl). by eexists.
    + split_and!; [by eauto|congruence|done|]. intros _ Hw _. specialize (Hq2 (run_quiet _ _ _ _ _ _ HR Hw)).
      destruct (files w !! blob_file dir d ""); [done|]. destruct Hq2 as [t Ht]. simplify_eq. by eexists.
  - split_and!; [done|done|done|]. intros _ Hw _. by specialize (Hq Hw).
Qed.

(** ** Refinement *)

Record service_ok (s : AppState) (store : gmap string bytes) : Prop := {
  so_quiet : faults (disk s) = [];
  so_store : store_ok (files (disk s));
  so_orphans : no_orphans (disk s);
  so_represents : represents dir (disk s) store;
}.

Lemma service_same s s' store : files (disk s') = files (disk s) -> faults (disk s') = [] -> service_ok s store -> service_ok s' store.
Proof.
  intros Hfs Hw []. split; [done|by rewrite Hfs| |].
  - intros d. rewrite Hfs. by apply so_orphans0.
  - intros d. rewrite Hfs. by apply so_represents0.
Qed.

(** The blob is there. *)
Definition present (w : World) (d : string) : bool := is_some (files w !! blob_file dir d "").

Lemma has_blob_present d w :
  store_ok (files w) -> faults w = [] ->
  wp (has_blob dir d) (fun r w' => files w' = files w /\ faults w' = [] /\ if is_digest d then r = Ok (present w d) else exists e, r = Err e) w.
Proof.
  intros Hok Hw. unfold is_digest. destruct (validate_digest_cases d) as [[Hv Hd]|[e He]].
  - rewrite Hd. eapply wp_mono; [apply wp_has_blob; [done|by apply quiet_good]|].
    cbv beta. intros r w' (HR & Hfs' & _ & Hq). split_and!; [done|by apply (run_quiet _ _ _ _ _ _ HR)|]. by apply Hq.
  - rewrite He. unfold has_blob. destruct (invalid_paths dir d e He) as (-> & _). cbn. by split_and!; [..|eexists].
Qed.

(** A query lists the digests that are not there. *)
Lemma missing_digests_present ds w :
  store_ok (files w) -> faults w = [] ->
  wp (missing_digests dir ds) (fun r w' => files w' = files w /\ faults w' = [] /\
    if forallb is_digest ds then r = Ok (List.filter (fun d => negb (present w d)) ds) else exists text, r = Err (BAD_REQUEST, text)) w.
Proof.
  revert w. induction ds as [|d ds IH]; intros w Hok Hw; [by apply wp_ret|]. cbn [missing_digests forallb List.filter].
  apply wp_bind, wp_or_bad_request. eapply wp_mono; [by eapply has_blob_present|cbv beta]. intros r w1 (Hfs1 & Hw1 & Hr).
  destruct (is_digest d); simpl; [|destruct Hr as [e ->]; split_and!; [done|done|by eexists]]. rewrite Hr. simpl.
  apply wp_bind. eapply wp_mono; [apply IH; [by rewrite Hfs1|done]|cbv beta]. intros r2 w2 (Hfs2 & Hw2 & Hr2).
  assert (Hp : forall x, present w1 x = present w x) by (intros x; unfold present; by rewrite Hfs1).
  destruct (forallb is_digest ds).
  - rewrite Hr2. apply wp_ret. split_and!; [congruence|done|]. do 2 f_equal. rewrite (filter_ext _ (fun x => negb (present w x))) by (intros x; by rewrite Hp).
    by destruct (present w d).
  - destruct Hr2 as [t ->]. split_and!; [congruence|done|by eexists].
Qed.

Lemma missing_digests_spec ds s store :
  service_ok s store ->
  wp (missing_digests dir ds) (fun r w' => files w' = files (disk s) /\ faults w' = [] /\
    if forallb is_digest ds then r = Ok (List.filter (fun d => negb (is_some (store !! d))) ds) else exists text, r = Err (BAD_REQUEST, text)) (disk s).
Proof.
  intros [Hw Hok _ Hrep]. eapply wp_mono; [by apply missing_digests_present|cbv beta]. intros r w' (? & ? & Hr). split_and!; [done|done|].
  destruct (forallb is_digest ds) eqn:Ed; [|done]. rewrite Hr. f_equal. apply filter_ext_in. intros d Hd%list_elem_of_In.
  rewrite forallb_forall in Ed. specialize (Ed d (proj1 (list_elem_of_In _ _) Hd)). unfold is_digest in Ed. by rewrite (Hrep d), Ed.
Qed.

Lemma no_orphans_run d w w' :
  valid_digest d -> Run U dir true d w w' -> is_Some (files w' !! blob_file dir d "") -> no_orphans w -> no_orphans w'.
Proof.
  intros Hv HR Hd Hno d' Hv' Hz. destruct (decide (d' = d)) as [->|Hne]; [done|].
  assert (Hframe : forall x, files w' !! blob_file dir d' x = files w !! blob_file dir d' x).
  { intros x. apply (run_frame _ _ _ _ _ _ HR). intros y He. by apply blob_file_inj in He as [? _]. }
  rewrite Hframe in *. by apply Hno.
Qed.

(** A content that can be uploaded. *)
Definition uploadable (b : bytes) : Prop := U b /\ is_ok (encode_zstd_if_worthwhile b) = true.

Lemma upload_spec d b s store :
  collision_free U -> uploadable b -> service_ok s store ->
  wp (store_blob_for_digest dir d b) (fun r w' =>
    if is_digest d && bool_decide (sha256_hex b = d)
    then service_ok (set_disk w' s) (<[d := b]> store) /\
      exists v, r = Ok v /\ sb_digest (vbs_blob v) = d /\ vbs_uploaded v = negb (is_some (store !! d))
    else w' = disk s /\ exists e, r = Err e) (disk s).
Proof.
  intros CF [HU Hz] [Hw Hok Hno Hrep]. unfold is_digest. destruct (validate_digest_cases d) as [[Hv Hd]|[e He]].
  2:{ rewrite He. unfold store_blob_for_digest. rewrite He. split; [done|by eexists]. }
  rewrite Hd. simpl. case_bool_decide as Hs.
  - assert (Hg : good d (disk s)) by by apply quiet_good. eapply wp_mono; [by apply wp_store_blob_for_digest|cbv beta].
    intros r w' (HR & Hr & Hq). destruct (Hq CF Hz Hw Hv Hs) as (v & -> & Hu). destruct (Hr v eq_refl) as (Hdig & _ & b' & Hb' & HU' & Hs').
    rewrite (CF b' b) in Hb' by congruence. split.
    + split; simpl; [by apply (run_quiet _ _ _ _ _ _ HR)|by eapply store_ok_run|by eapply no_orphans_run|by eapply represents_run].
    + exists v. split_and!; [done|done|]. rewrite Hu, (Hrep d), Hd. done.
  - unfold store_blob_for_digest. rewrite Hd. unfold wp, bind, lift, ret. simpl. rewrite bool_decide_false by done. split; [done|by eexists].
Qed.

Definition request_contents (x : HeaderMap * BlobRequest) : Prop := match snd x with PutBlob _ b => uploadable b | _ => True end.

Lemma blob_handler_run {A} s headers (io : HttpIO A) count :
  require_snapshot_auth cfg headers = Ok tt ->
  fst (blob_handler cfg s headers io count) = fst (io (disk s)) /\ disk (snd (blob_handler cfg s headers io count)) = snd (io (disk s)).
Proof. intros Ha. unfold blob_handler. rewrite Ha. by destruct (io (disk s)) as [[]]. Qed.

Lemma service_disk s s' store : disk s' = disk s -> service_ok s store -> service_ok s' store.
Proof. intros Hd Hs. eapply service_same; [by rewrite Hd|rewrite Hd; apply Hs|done]. Qed.

Lemma request_refines x s store :
  collision_free U -> request_contents x -> service_ok s store ->
  fst (handle_blob_request cfg s x) = fst (spec_request cfg store x) /\
  service_ok (snd (handle_blob_request cfg s x)) (snd (spec_request cfg store x)).
Proof.
  intros CF Hx Hs. destruct x as [headers request]. unfold handle_blob_request, spec_request, answer.
  destruct (require_snapshot_auth cfg headers) as [[]|[code text]] eqn:Ea; simpl.
  2:{ assert (code = UNAUTHORIZED) as ->.
      { revert Ea. unfold require_snapshot_auth. case_bool_decide; [|done]. destruct (header_client cfg headers); [done|]. by intros [= <- _]. }
      destruct request; unfold find_missing_blobs, upload_blob, download_blob, blob_handler; by rewrite Ea. }
  assert (Hsame : forall w', files w' = files (disk s) -> faults w' = [] -> forall s', disk s' = w' -> service_ok s' store)
    by (intros w' ? ? s' <-; by eapply service_same).
  destruct request as [ds|d b|d]; simpl.
  - unfold find_missing_blobs. edestruct (@blob_handler_run (list string)) as [-> Hdisk]; [done|].
    pose proof (missing_digests_spec ds s store Hs) as (Hfs & Hw & Hr). split; [|by eapply Hsame].
    destruct (forallb is_digest ds); [by rewrite Hr|]. by destruct Hr as [t ->].
  - unfold upload_blob. edestruct (@blob_handler_run (string * bool)) as [-> Hdisk]; [done|].
    pose proof (upload_spec d b s store CF Hx Hs) as Hup. unfold wp in Hup. revert Hdisk Hup. unfold or_bad_request, bind, try_.
    destruct (store_blob_for_digest dir d b (disk s)) as [r w'] eqn:E. simpl. destruct (is_digest d && _).
    + intros Hdisk (Hs' & v & -> & Hdig & Hu). simpl in *. rewrite Hdig, Hu. split; [done|]. by eapply service_disk; [|exact Hs'].
    + intros Hdisk (-> & e & ->). simpl in *. split; [done|]. by eapply service_disk.
  - unfold download_blob. edestruct (@blob_handler_run BlobResponse) as [-> Hdisk]; [done|]. unfold is_digest.
    destruct (validate_digest_cases d) as [[Hv Hd]|[e He]].
    + rewrite Hd. simpl. pose proof (wp_read_blob (request_accepts_zstd headers) d (disk s) Hv) as Hrd.
      destruct Hrd as (HR & Hfs & _ & Hq); [apply quiet_good; [apply Hs|apply Hs|done]|].
      specialize (Hq CF (so_quiet _ _ Hs) (so_orphans _ _ Hs)). rewrite (so_represents _ _ Hs d), Hd. simpl.
      split; [|eapply Hsame; [exact Hfs|apply (run_quiet _ _ _ _ _ _ HR), Hs|done]].
      destruct (files (disk s) !! blob_file dir d "") as [b|]; [destruct Hq as (resp & -> & ->)|destruct Hq as [t ->]]; done.
    + rewrite He. simpl. destruct (invalid_paths dir d e He) as (Hbp & Hmp & _).
      assert (Hrun : read_blob dir (request_accepts_zstd headers) d (disk s) = (Err (bad_request e), disk s)).
      { unfold read_blob, read_variant, load_blob_metadata, read_raw, or_bad_request, bind, try_. rewrite Hbp, Hmp. by destruct (request_accepts_zstd headers). }
      rewrite Hrun in *. simpl in *. split; [done|]. by eapply service_disk.
Qed.

(** C21.  The blob service refines a map: without failures of the file system, any
    sequence of missing-blob queries, uploads and downloads, by whichever clients,
    gets the answers of an abstract map from digests to contents - a query lists
    exactly the digests that are not stored, a download has (after decoding) exactly
    the stored content or is 404, an upload is accepted only under its own digest -
    and unauthenticated requests get 401 and change nothing. *)
Theorem blob_api_refines xs s store :
  collision_free U -> Forall request_contents xs -> service_ok s store ->
  fst (handle_blob_requests cfg s xs) = fst (spec_requests cfg store xs) /\
  service_ok (snd (handle_blob_requests cfg s xs)) (snd (spec_requests cfg store xs)).
Proof.
  intros CF Hxs. revert s store. induction Hxs as [|x xs Hx Hxs IH]; intros s store Hs; [done|]. cbn [handle_blob_requests spec_requests].
  destruct (request_refines x s store CF Hx Hs) as [Ha Hs']. destruct (handle_blob_request cfg s x) as [a s1], (spec_request cfg store x) as [a' store1].
  simpl in *. subst a'. destruct (IH s1 store1 Hs') as [Has Hs'']. destruct (handle_blob_requests cfg s1 xs), (spec_requests cfg store1 xs). simpl in *.
  by subst.
Qed.

(** Under failures: whatever a download returns is the content of its digest. *)
Lemma download_authentic s headers d resp s' :
  store_ok (files (disk s)) -> links_supported (disk s) ->
  download_blob cfg s headers d = (Ok resp, s') ->
  exists raw, decoded resp = Some raw /\ sha256_hex raw = d.
Proof.
  intros Hok Hl Hrun. unfold download_blob, blob_handler in Hrun. destruct (require_snapshot_auth cfg headers); [|done].
  destruct (validate_digest_cases d) as [[Hv Hd]|[e He]].
  - pose proof (wp_read_blob (request_accepts_zstd headers) d (disk s) Hv) as (_ & _ & Hr & _); [by apply store_ok_good|].
    destruct (read_blob _ _ _ _) as [[r|e] w']; [|done]. injection Hrun as <- _. destruct (Hr r eq_refl) as (raw & Hdec & _ & Hs). by exists raw.
  - exfalso. revert Hrun. unfold read_blob, read_variant, load_blob_metadata, read_raw, or_bad_request, bind, try_.
    destruct (invalid_paths dir d e He) as (Hbp & Hmp & _). rewrite Hbp, Hmp. by destruct (request_accepts_zstd headers).
Qed.
End Facts.

(** ** Concrete runs *)

#[local] Instance api_sha : Sha256 := sha256_reference.
#[local] Existing Instance codec_reference.
#[local] Existing Instance codec_reference_laws.
#[local] Existing Instance zstd_reference.
#[local] Existing Instance zstd_reference_laws.
#[local] Existing Instance Auth.http_reference.

Definition api_state : AppState := demo_state ∅ ∅ (demo_world []).
Definition api_requests : list (HeaderMap * BlobRequest) :=
  [(∅, FindMissing [demo_digest]); (∅, PutBlob demo_digest demo_blob); (∅, FindMissing [demo_digest]); (∅, GetBlob demo_digest);
   (∅, PutBlob demo_digest [])].
Example api_answers :
  fst (handle_blob_requests ServerConfig_default api_state api_requests) =
  [MissingAre [demo_digest]; StoredAs demo_digest true; MissingAre []; ContentIs (Some demo_blob); Status BAD_REQUEST].
Proof. vm_compute. reflexivity. Qed.

Lemma blob_api_refines_witness :
  fst (handle_blob_requests ServerConfig_default api_state (take 4 api_requests)) = fst (spec_requests ServerConfig_default ∅ (take 4 api_requests)).
Proof.
  apply (blob_api_refines demo_contents ServerConfig_default (take 4 api_requests) api_state ∅).
  - intros a b -> ->. done.
  - repeat constructor.
  - split; [reflexivity| | |].
    + intros d Hv x b Hb. discriminate Hb.
    + intros d Hv [b Hb]. discriminate Hb.
    + intros d. rewrite lookup_empty. by destruct (is_ok _).
Defined.

(** [Accept-Encoding: zstd;q=0] refuses the encoding; the handler takes it for consent. *)
Example refused_encoding_accepted : request_accepts_zstd {["accept-encoding" := "gzip, zstd;q=0"]} = true.
Proof. vm_compute. reflexivity. Qed.
