(* ===== verification/Cleanup.v ===== *)
(** * Clean-up of the snapshot stores ([crates/server/src/runtime.rs])

    [cleanup_snapshot_storage] deletes blobs and trees that no staged workorder
    refers to and that have not been referenced for some time, oldest first, until
    the stores are down to their configured size.  The configured hours are cast to
    [i64] as in the code ([hours_before]): from 2^63 on they count backwards, and hours
    that lead out of the range of dates make the clean-up panic before it does anything. *)

From S2P Require Import Prelude World Frame BlobStore Config Repo TreeStore Server.

Record SnapshotCleanupSummary := { deleted_blobs : Z; deleted_trees : Z; reclaimed_bytes : Z }.
Definition SnapshotCleanupSummary_default : SnapshotCleanupSummary :=
  {| deleted_blobs := 0; deleted_trees := 0; reclaimed_bytes := 0 |}.

Inductive EntryKind := KBlob | KTree.

#[global] Instance EntryKind_eq_dec : EqDecision EntryKind.
Proof. solve_decision. Defined.

Record CleanupEntry := {
  ce_kind : EntryKind;
  ce_digest : string;
  ce_last_referenced_at : Z;
  ce_retained_bytes : Z;
}.

#[global] Instance CleanupEntry_eq_dec : EqDecision CleanupEntry.
Proof. solve_decision. Defined.

(** [raw_size_bytes + encoded_variants.values().sum()] on [u64]. *)
Definition retained_bytes (raw : Z) (variants : gmap BlobEncoding Z) : Z :=
  u64_wrapping_add raw (fold_left u64_wrapping_add (map_to_list variants).*2 0).

Definition blob_entry (r : BlobMetadataRecord) : CleanupEntry :=
  let m := bmr_metadata r in
  {| ce_kind := KBlob; ce_digest := bmr_digest r; ce_last_referenced_at := last_referenced_at m;
     ce_retained_bytes := retained_bytes (raw_size_bytes m) (encoded_variants m) |}.

Definition tree_entry (r : TreeMetadataRecord) : CleanupEntry :=
  let m := tmr_metadata r in
  {| ce_kind := KTree; ce_digest := tmr_digest r; ce_last_referenced_at := tm_last_referenced_at m;
     ce_retained_bytes := retained_bytes (tm_raw_size_bytes m) (tm_encoded_variants m) |}.

(** The accumulators of the two classification loops. *)
Record Classified := {
  total_retained_bytes : Z;
  floor_eligible : list CleanupEntry;
  hard_delete : list CleanupEntry;
}.

(** The body of both loops, given the digests that are in use. *)
Definition classify_entry (active : gset string) (grace_cutoff hard_delete_cutoff : Z) (c : Classified)
    (e : CleanupEntry) : Classified :=
  let total := u64_saturating_add (total_retained_bytes c) (ce_retained_bytes e) in
  if bool_decide (ce_digest e ∈ active) then
    {| total_retained_bytes := total; floor_eligible := floor_eligible c; hard_delete := hard_delete c |}
  else if ce_last_referenced_at e <=? hard_delete_cutoff then
    {| total_retained_bytes := total; floor_eligible := floor_eligible c; hard_delete := hard_delete c ++ [e] |}
  else if ce_last_referenced_at e <=? grace_cutoff then
    {| total_retained_bytes := total; floor_eligible := floor_eligible c ++ [e]; hard_delete := hard_delete c |}
  else {| total_retained_bytes := total; floor_eligible := floor_eligible c; hard_delete := hard_delete c |}.

Section Cleanup.
Context `{Sha256, BlobMetadataCodec, TreeCodec, Zstd, SetIter}.

Definition delete_cleanup_entry (state_dir : path) (e : CleanupEntry) (s : SnapshotCleanupSummary) :
    IO SnapshotCleanupSummary :=
  let reclaimed := u64_saturating_add (reclaimed_bytes s) (ce_retained_bytes e) in
  match ce_kind e with
  | KBlob =>
      delete_blob state_dir (ce_digest e) ;;
      ret {| deleted_blobs := deleted_blobs s + 1; deleted_trees := deleted_trees s; reclaimed_bytes := reclaimed |}
  | KTree =>
      delete_tree state_dir (ce_digest e) ;;
      ret {| deleted_blobs := deleted_blobs s; deleted_trees := deleted_trees s + 1; reclaimed_bytes := reclaimed |}
  end.

(** One of the two deletion loops: it stops at the floor. *)
Fixpoint delete_entries (state_dir : path) (floor : Z) (es : list CleanupEntry) (total : Z)
    (s : SnapshotCleanupSummary) : IO (Z * SnapshotCleanupSummary) :=
  match es with
  | [] => ret (total, s)
  | e :: rest =>
      if total <=? floor then ret (total, s)
      else
        do s <- delete_cleanup_entry state_dir e s ;;
        delete_entries state_dir floor rest (u64_saturating_sub total (ce_retained_bytes e)) s
  end.

(** [cleanup_snapshot_storage_at] after its cut-offs. *)
Definition cleanup_before (state_dir : path) (config : ServerConfig) (active_references : list SnapshotReferenceSet)
    (grace_cutoff hard_delete_cutoff : Z) : IO SnapshotCleanupSummary :=
  let active_blob_digests := ⋃ (blob_digests <$> active_references) in
  let active_tree_digests := ⋃ (tree_digests <$> active_references) in
  let floor := snapshot_min_retained_bytes config in
  let start := {| total_retained_bytes := 0; floor_eligible := []; hard_delete := [] |} in
  do blobs <- list_blob_metadata state_dir ;;
  let c := fold_left (classify_entry active_blob_digests grace_cutoff hard_delete_cutoff)
             (map blob_entry blobs) start in
  do trees <- list_tree_metadata state_dir ;;
  let c := fold_left (classify_entry active_tree_digests grace_cutoff hard_delete_cutoff)
             (map tree_entry trees) c in
  if total_retained_bytes c <=? floor then ret SnapshotCleanupSummary_default
  else
    do hard <- delete_entries state_dir floor (sort_by_key ce_last_referenced_at (hard_delete c))
                 (total_retained_bytes c) SnapshotCleanupSummary_default ;;
    do grace <- delete_entries state_dir floor (sort_by_key ce_last_referenced_at (floor_eligible c))
                  (fst hard) (snd hard) ;;
    ret (snd grace).

(** [None]: it panicked. *)
Definition cleanup_snapshot_storage_at (state_dir : path) (config : ServerConfig)
    (active_references : list SnapshotReferenceSet) (now : Z) : IO (option SnapshotCleanupSummary) :=
  match hours_before now (snapshot_cache_grace_period_hours config), hours_before now (snapshot_cache_hard_delete_hours config) with
  | Some grace_cutoff, Some hard_delete_cutoff =>
      do summary <- cleanup_before state_dir config active_references grace_cutoff hard_delete_cutoff ;; ret (Some summary)
  | _, _ => ret None
  end.

Definition cleanup_snapshot_storage (state_dir : path) (config : ServerConfig)
    (active_references : list SnapshotReferenceSet) : IO (option SnapshotCleanupSummary) :=
  do t <- World.now ;; cleanup_snapshot_storage_at state_dir config active_references t.

End Cleanup.

(** ** What the loops compute *)

Definition inactive (active : gset string) (e : CleanupEntry) : bool := negb (bool_decide (ce_digest e ∈ active)).
Definition is_hard (active : gset string) (h : Z) (e : CleanupEntry) : bool :=
  inactive active e && (ce_last_referenced_at e <=? h).
Definition is_grace (active : gset string) (g h : Z) (e : CleanupEntry) : bool :=
  inactive active e && (h <? ce_last_referenced_at e) && (ce_last_referenced_at e <=? g).

Lemma classify_all active g h es c :
  fold_left (classify_entry active g h) es c =
  {| total_retained_bytes := fold_left u64_saturating_add (map ce_retained_bytes es) (total_retained_bytes c);
     floor_eligible := floor_eligible c ++ List.filter (is_grace active g h) es;
     hard_delete := hard_delete c ++ List.filter (is_hard active h) es |}.
Proof.
  revert c. induction es as [|e es IH]; intros c; simpl; [rewrite !app_nil_r; by destruct c|].
  rewrite IH. unfold classify_entry, is_grace, is_hard, inactive.
  case_bool_decide; simpl; [done|].
  destruct (Z.leb_spec (ce_last_referenced_at e) h), (Z.ltb_spec h (ce_last_referenced_at e)); try lia; simpl.
  - by rewrite <- app_assoc.
  - destruct (ce_last_referenced_at e <=? g); simpl; [by rewrite <- app_assoc|done].
Qed.

(** ** Safety: whatever fails *)

Section Safety.
Context `{Sha256, BlobMetadataCodec, TreeCodec, Zstd, SetIter}.
Context (dir : path).

(** The files of an entry. *)
Definition entry_area (e : CleanupEntry) : path -> Prop :=
  match ce_kind e with KBlob => blob_area dir (ce_digest e) | KTree => tree_area dir (ce_digest e) end.

(** Computations that at most remove files. *)
Definition shrinks {E A : Type} (m : Comp E A) : Prop := forall w, files (snd (m w)) ⊆ files w.

Lemma shrinks_bind {E A B : Type} (m : Comp E A) (k : A -> Comp E B) :
  shrinks m -> (forall a, shrinks (k a)) -> shrinks (bind m k).
Proof.
  intros Hm Hk w. unfold bind. specialize (Hm w). destruct (m w) as [[a|e] w1]; [|done].
  etransitivity; [apply Hk|done].
Qed.

Lemma shrinks_try {E F A B : Type} (m : Comp E A) (k : Result A E -> Comp F B) :
  shrinks m -> (forall r, shrinks (k r)) -> shrinks (try_ m k).
Proof.
  intros Hm Hk w. unfold try_. specialize (Hm w). destruct (m w) as [r w1]. etransitivity; [apply Hk|done].
Qed.

Lemma shrinks_observes {E A : Type} Q (m : Comp E A) : observes Q m -> shrinks m.
Proof. intros Hm w. by destruct (Hm w) as (-> & _). Qed.

Lemma shrinks_ret {E A : Type} (a : A) : shrinks (ret (E := E) a).
Proof. by intros w. Qed.

Lemma shrinks_lift {A} (r : Result A Error) : shrinks (lift r).
Proof. by destruct r; intros w. Qed.

Lemma shrinks_remove_if_exists p : shrinks (remove_file_if_exists p).
Proof.
  apply shrinks_try; [|by intros [?|[]] w].
  intros w. unfold fs_remove_file, guarded. destruct (pop_fault_env w) as (_ & Hf & _).
  destruct (pop_fault w) as [[f|] w1]; simpl in *; rewrite <- Hf; [done|].
  destruct (files w1 !! p); simpl; [apply delete_subseteq|done].
Qed.

Create HintDb shrinks.
#[local] Hint Resolve shrinks_ret shrinks_lift shrinks_remove_if_exists shrinks_observes
  observes_load_blob_metadata observes_load_tree_metadata : shrinks.
Ltac solve_shrinks :=
  repeat first
    [ progress eauto with shrinks
    | apply shrinks_bind; [|intros ?] | apply shrinks_try; [|intros ?]
    | match goal with |- shrinks (match ?x with _ => _ end) => destruct x end ].

Lemma shrinks_remove_variants d es : shrinks (remove_variants dir d es) /\ shrinks (remove_tree_variants dir d es).
Proof. induction es as [|e es [IH1 IH2]]; split; simpl; solve_shrinks. Qed.

Lemma shrinks_delete d : shrinks (delete_blob dir d) /\ shrinks (delete_tree dir d).
Proof.
  unfold delete_blob, delete_tree. split; solve_shrinks; apply shrinks_remove_variants.
Qed.

Lemma delete_entry_area e s : shrinks (delete_cleanup_entry dir e s) /\ foots (entry_area e) (delete_cleanup_entry dir e s).
Proof.
  unfold delete_cleanup_entry, entry_area. destruct (ce_kind e); split.
  1,3: apply shrinks_bind; [apply shrinks_delete|intros; apply shrinks_ret].
  1,2: apply foots_bind; [first [apply foots_delete_blob|apply foots_delete_tree]|intros; apply foots_ret].
Qed.

Lemma delete_entries_area (P : path -> Prop) floor es total s :
  Forall (fun e => forall p, entry_area e p -> P p) es ->
  shrinks (delete_entries dir floor es total s) /\ foots P (delete_entries dir floor es total s).
Proof.
  intros Hall. revert total s. induction Hall as [|e es He Hall IH]; intros total s; cbn [delete_entries].
  - split; [apply shrinks_ret|apply foots_ret].
  - destruct (total <=? floor); [split; [apply shrinks_ret|apply foots_ret]|].
    destruct (delete_entry_area e s) as [Hs Hf]. split.
    + apply shrinks_bind; [done|]. intros s'. apply IH.
    + apply foots_bind; [by eapply foots_weaken|]. intros s'. apply IH.
Qed.

(** An entry stands for a metadata file of one of the stores. *)
Definition listed (fs : gmap path bytes) (t : Z) (e : CleanupEntry) : Prop :=
  match ce_kind e with
  | KBlob => exists r, blob_listed dir fs t r /\ e = blob_entry r
  | KTree => exists r, tree_listed dir fs t r /\ e = tree_entry r
  end.

Definition active_digests (refs : list SnapshotReferenceSet) (k : EntryKind) : gset string :=
  match k with KBlob => ⋃ (blob_digests <$> refs) | KTree => ⋃ (tree_digests <$> refs) end.

(** What the clean-up may remove: the files of a blob or tree that no staged order
    refers to and whose metadata says that it is idle since [cutoff]. *)
Definition expendable (refs : list SnapshotReferenceSet) (cutoff : Z) (w : World) (p : path) : Prop :=
  exists e, listed (files w) (clock w) e /\ (ce_digest e ∉ active_digests refs (ce_kind e)) /\
    ce_last_referenced_at e <= cutoff /\ entry_area e p.

Definition of_kind (k : EntryKind) (w : World) (e : CleanupEntry) : Prop :=
  ce_kind e = k /\ listed (files w) (clock w) e.

Lemma eligible_expendable refs g h w k es e :
  Forall (of_kind k w) es ->
  e ∈ List.filter (is_hard (active_digests refs k) h) es \/
  e ∈ List.filter (is_grace (active_digests refs k) g h) es ->
  forall p, entry_area e p -> expendable refs (Z.max g h) w p.
Proof.
  rewrite Forall_forall. intros Hl He p Hp. rewrite !list_elem_of_In, !filter_In in He.
  destruct He as [[He Hh]|[He Hh]]; apply list_elem_of_In, Hl in He as [Hk He];
    unfold is_hard, is_grace, inactive in Hh; rewrite ?andb_true_iff, negb_true_iff, bool_decide_eq_false in Hh;
    rewrite ?Z.leb_le in Hh; exists e; rewrite Hk; split_and!; try tauto; lia.
Qed.

Lemma blobs_of_kind w rs : Forall (blob_listed dir (files w) (clock w)) rs -> Forall (of_kind KBlob w) (map blob_entry rs).
Proof. intros Hl. apply Forall_map. eapply Forall_impl; [exact Hl|]. intros r Hr. split; [done|]. by exists r. Qed.

Lemma trees_of_kind w rs : Forall (tree_listed dir (files w) (clock w)) rs -> Forall (of_kind KTree w) (map tree_entry rs).
Proof. intros Hl. apply Forall_map. eapply Forall_impl; [exact Hl|]. intros r Hr. split; [done|]. by exists r. Qed.

End Safety.

(** The entries the two listings yield, and the order in which eligible ones go. *)
Section Effect.
Context `{Sha256, BlobMetadataCodec, TreeCodec, Zstd, SetIter}.
Context (dir : path) (config : ServerConfig) (refs : list SnapshotReferenceSet) (grace_cutoff hard_cutoff : Z).

Definition hard_entries (blobs trees : list CleanupEntry) : list CleanupEntry :=
  List.filter (is_hard (active_digests refs KBlob) hard_cutoff) blobs ++
  List.filter (is_hard (active_digests refs KTree) hard_cutoff) trees.
Definition grace_entries (blobs trees : list CleanupEntry) : list CleanupEntry :=
  List.filter (is_grace (active_digests refs KBlob) grace_cutoff hard_cutoff) blobs ++
  List.filter (is_grace (active_digests refs KTree) grace_cutoff hard_cutoff) trees.

Lemma cleanup_entries_expendable w blobs trees :
  Forall (of_kind dir KBlob w) blobs -> Forall (of_kind dir KTree w) trees ->
  forall f, f = hard_entries \/ f = grace_entries ->
  Forall (fun e => forall p, entry_area dir e p -> expendable dir refs (Z.max grace_cutoff hard_cutoff) w p)
    (sort_by_key ce_last_referenced_at (f blobs trees)).
Proof.
  intros Hb Ht f Hf. rewrite sort_by_key_Permutation, Forall_forall. intros e He.
  destruct Hf as [->| ->]; apply elem_of_app in He as [He|He].
  1,3: apply (eligible_expendable _ _ _ _ _ _ _ _ Hb); auto.
  1,2: apply (eligible_expendable _ _ _ _ _ _ _ _ Ht); auto.
Qed.

(** The two loops after the listings. *)
Definition deletion (total : Z) (hard grace : list CleanupEntry) : IO SnapshotCleanupSummary :=
  let floor := snapshot_min_retained_bytes config in
  if total <=? floor then ret SnapshotCleanupSummary_default
  else
    do h <- delete_entries dir floor (sort_by_key ce_last_referenced_at hard) total SnapshotCleanupSummary_default ;;
    do g <- delete_entries dir floor (sort_by_key ce_last_referenced_at grace) (fst h) (snd h) ;;
    ret (snd g).

Definition total_bytes (es : list CleanupEntry) : Z := fold_left u64_saturating_add (map ce_retained_bytes es) 0.

Lemma cleanup_phases w :
  cleanup_before dir config refs grace_cutoff hard_cutoff w =
  (do blobs <- list_blob_metadata dir ;;
   do trees <- list_tree_metadata dir ;;
   let bs := map blob_entry blobs in
   let ts := map tree_entry trees in
   deletion (total_bytes (bs ++ ts)) (hard_entries bs ts) (grace_entries bs ts)) w.
Proof.
  unfold cleanup_before. cbv zeta. unfold bind at 1. symmetry. unfold bind at 1. symmetry.
  destruct (list_blob_metadata dir w) as [[blobs|e] w1]; [|done].
  unfold bind at 1. symmetry. unfold bind at 1. symmetry.
  destruct (list_tree_metadata dir w1) as [[trees|e] w2]; [|done].
  unfold deletion, total_bytes. rewrite !classify_all, map_app, fold_left_app. done.
Qed.

Lemma deletion_area (P : path -> Prop) total hard grace :
  Forall (fun e => forall p, entry_area dir e p -> P p) (sort_by_key ce_last_referenced_at hard) ->
  Forall (fun e => forall p, entry_area dir e p -> P p) (sort_by_key ce_last_referenced_at grace) ->
  shrinks (deletion total hard grace) /\ foots P (deletion total hard grace).
Proof.
  intros Hh Hg. unfold deletion. cbv zeta. destruct (total <=? _); [split; [apply shrinks_ret|apply foots_ret]|].
  split.
  - apply shrinks_bind; [by apply (delete_entries_area dir P)|]. intros h.
    apply shrinks_bind; [by apply (delete_entries_area dir P)|]. intros g. apply shrinks_ret.
  - apply foots_bind; [by apply (delete_entries_area dir P)|]. intros h.
    apply foots_bind; [by apply (delete_entries_area dir P)|]. intros g. apply foots_ret.
Qed.

Lemma cleanup_run w :
  let '(_, w') := cleanup_before dir config refs grace_cutoff hard_cutoff w in
  files w' ⊆ files w /\ Foot (expendable dir refs (Z.max grace_cutoff hard_cutoff) w) w w'.
Proof.
  rewrite cleanup_phases. set (P := expendable _ _ _ _). unfold bind at 1.
  pose proof (observes_list_blob_metadata dir w) as Hb. pose proof (foots_list_blobs P dir w) as Fb.
  destruct (list_blob_metadata dir w) as [[blobs|e] w1]; simpl in *; [|by destruct Hb as (-> & _)].
  destruct Hb as (Hf1 & Hc1 & Hb). unfold bind at 1.
  pose proof (observes_list_tree_metadata dir w1) as Ht. pose proof (foots_list_trees P dir w1) as Ft.
  rewrite Hf1, Hc1 in Ht.
  destruct (list_tree_metadata dir w1) as [[trees|e] w2]; simpl in *; destruct Ht as (Hf2 & Hc2 & Ht).
  - rewrite <- Hf2. apply blobs_of_kind in Hb. apply trees_of_kind in Ht.
    pose proof (cleanup_entries_expendable w _ _ Hb Ht) as HP.
    destruct (deletion_area P (total_bytes (map blob_entry blobs ++ map tree_entry trees)) _ _ (HP _ (or_introl eq_refl)) (HP _ (or_intror eq_refl))) as [Hs Hd].
    specialize (Hs w2). specialize (Hd w2). destruct (deletion _ _ _ w2) as [r w3].
    split; [done|]. eapply foot_trans; [exact Fb|]. by eapply foot_trans; [exact Ft|].
  - rewrite Hf2. split; [done|]. by eapply foot_trans.
Qed.


(** ** Where nothing fails

    [erases ps m]: where no fault is scheduled [m] succeeds, removes the files
    [ps] and creates none. *)
Definition erases {A : Type} (ps : list path) (m : IO A) (Q : A -> Prop) : Prop :=
  forall w, faults w = [] -> exists a w', m w = (Ok a, w') /\ Q a /\ faults w' = [] /\
    files w' ⊆ files w /\ Forall (fun p => files w' !! p = None) ps.

Lemma erases_ret {A : Type} (a : A) (Q : A -> Prop) : Q a -> erases [] (ret a) Q.
Proof. intros Ha w Hw. exists a, w. by split_and!; try constructor. Qed.

Lemma erases_bind {A B : Type} ps qs (m : IO A) (k : A -> IO B) P Q :
  erases ps m P -> (forall a, P a -> erases qs (k a) Q) -> erases (ps ++ qs) (bind m k) Q.
Proof.
  intros Hm Hk w Hw. destruct (Hm w Hw) as (a & w1 & E1 & Ha & Hw1 & Hs1 & Hp1).
  destruct (Hk a Ha w1 Hw1) as (b & w2 & E2 & Hb & Hw2 & Hs2 & Hp2).
  exists b, w2. unfold bind. rewrite E1. split_and!; [done..|by etransitivity|].
  apply Forall_app. split; [|done]. eapply Forall_impl; [exact Hp1|].
  intros p Hp. by apply (lookup_weaken_None _ (files w1)).
Qed.

Lemma erases_lift {A B : Type} ps (a : A) (k : A -> IO B) Q : erases ps (k a) Q -> erases ps (bind (lift (Ok a)) k) Q.
Proof. done. Qed.

Lemma erases_try {A B : Type} ps P (m : IO A) (k : Result A Error -> IO B) Q :
  observes P m -> foots (fun _ => False) m -> (forall r, erases ps (k r) Q) -> erases ps (try_ m k) Q.
Proof.
  intros Ho Hf Hk w Hw. unfold try_. specialize (Ho w). destruct (Hf w) as [_ (used & Hu)].
  destruct (m w) as [r w1]; simpl in *. destruct Ho as (Hfs & _). rewrite Hw in Hu.
  symmetry in Hu. apply app_nil in Hu as [_ Hw1]. rewrite <- Hfs. by apply Hk.
Qed.

Lemma erases_remove p : erases [p] (remove_file_if_exists p) (fun _ => True).
Proof.
  intros w Hw. rewrite remove_if_exists_quiet by done. eexists _, _. split_and!; [done..|apply delete_subseteq|].
  apply Forall_singleton. simpl. apply lookup_delete_eq.
Qed.

Lemma erases_remove_variants d es :
  valid_digest d ->
  (exists ps, erases ps (remove_variants dir d es) (fun _ => True)) /\
  (exists ps, erases ps (remove_tree_variants dir d es) (fun _ => True)).
Proof.
  intros Hv. induction es as [|e es [[ps IH1] [qs IH2]]]; split; cbn [remove_variants remove_tree_variants].
  1,2: exists []; by apply erases_ret.
  - rewrite encoded_blob_path_eq by done. eexists. apply erases_lift.
    eapply erases_bind; [apply erases_remove|]. intros _ _. exact IH1.
  - destruct (tree_paths_eq dir d Hv) as (_ & _ & Hp). rewrite Hp. eexists. apply erases_lift.
    eapply erases_bind; [apply erases_remove|]. intros _ _. exact IH2.
Qed.

(** The file with the content of an entry and the one with its metadata. *)
Definition entry_files (e : CleanupEntry) : list path :=
  match ce_kind e with
  | KBlob => [blob_file dir (ce_digest e) ""; blob_file dir (ce_digest e) ".meta.json"]
  | KTree => [tree_name dir (ce_digest e) ".json"; tree_name dir (ce_digest e) ".meta.json"]
  end.

Lemma erases_weaken {A : Type} ps qs (m : IO A) P : (forall p, p ∈ qs -> p ∈ ps) -> erases ps m P -> erases qs m P.
Proof.
  intros Hs Hm w Hw. destruct (Hm w Hw) as (a & w' & E & Ha & Hf & Hsub & Hp). exists a, w'. split_and!; try done.
  rewrite Forall_forall in *. auto.
Qed.

Lemma erases_delete_blob d :
  valid_digest d ->
  erases [blob_file dir d ""; blob_file dir d ".meta.json"] (delete_blob dir d) (fun _ => True).
Proof.
  intros Hv. unfold delete_blob. eapply erases_try; [apply observes_load_blob_metadata|apply foots_load_blob|].
  intros r. cbv zeta. rewrite blob_path_eq, metadata_path_eq by done. apply erases_lift.
  assert (Hvar : exists ps, erases ps match ok_opt r with
    | Some m => remove_variants dir d (map_to_list (encoded_variants m)).*1 | None => ret tt end (fun _ => True)).
  { destruct (ok_opt r) as [m|]; [by apply erases_remove_variants|]. exists []. by apply erases_ret. }
  destruct Hvar as [ps Hvar]. eapply erases_weaken; [|eapply erases_bind; [apply erases_remove|intros _ _];
    eapply erases_bind; [exact Hvar|intros _ _; apply erases_lift, erases_remove]].
  intros p. rewrite !elem_of_cons, !elem_of_app. set_solver.
Qed.

Lemma erases_delete_tree d :
  valid_digest d ->
  erases [tree_name dir d ".json"; tree_name dir d ".meta.json"] (delete_tree dir d) (fun _ => True).
Proof.
  intros Hv. unfold delete_tree. eapply erases_try; [apply observes_load_tree_metadata|apply foots_load_tree|].
  intros r. cbv zeta. destruct (tree_paths_eq dir d Hv) as (-> & -> & _). apply erases_lift.
  assert (Hvar : exists ps, erases ps match ok_opt r with
    | Some m => remove_tree_variants dir d (map_to_list (tm_encoded_variants m)).*1 | None => ret tt end (fun _ => True)).
  { destruct (ok_opt r) as [m|]; [by apply erases_remove_variants|]. exists []. by apply erases_ret. }
  destruct Hvar as [ps Hvar]. eapply erases_weaken; [|eapply erases_bind; [apply erases_remove|intros _ _];
    eapply erases_bind; [exact Hvar|intros _ _; apply erases_lift, erases_remove]].
  intros p. rewrite !elem_of_cons, !elem_of_app. set_solver.
Qed.

(** What one deletion adds to the summary. *)
Definition add_entry (s : SnapshotCleanupSummary) (e : CleanupEntry) : SnapshotCleanupSummary := {|
  deleted_blobs := deleted_blobs s + match ce_kind e with KBlob => 1 | KTree => 0 end;
  deleted_trees := deleted_trees s + match ce_kind e with KBlob => 0 | KTree => 1 end;
  reclaimed_bytes := u64_saturating_add (reclaimed_bytes s) (ce_retained_bytes e) |}.

Lemma erases_delete_entry e s :
  valid_digest (ce_digest e) -> erases (entry_files e) (delete_cleanup_entry dir e s) (fun s' => s' = add_entry s e).
Proof.
  intros Hv. unfold entry_files, delete_cleanup_entry, add_entry. cbv zeta.
  destruct (ce_kind e); (eapply erases_weaken; [|eapply erases_bind;
    [first [by apply erases_delete_blob|by apply erases_delete_tree]|intros _ _; apply erases_ret]]).
  1,3: intros p Hp; rewrite elem_of_app; by left.
  all: by rewrite Z.add_0_r.
Qed.

(** What is left of [total] after some deletions. *)
Definition bytes_left (total : Z) (es : list CleanupEntry) : Z :=
  fold_left u64_saturating_sub (map ce_retained_bytes es) total.

(** The loop deletes the first [k] entries where [k] is the first number of
    deletions that brings the total down to [floor]. *)
Definition stops_at (floor total : Z) (es : list CleanupEntry) (k : nat) : Prop :=
  (k <= length es)%nat /\
  ((k < length es)%nat -> bytes_left total (take k es) <= floor) /\
  forall j, (j < k)%nat -> floor < bytes_left total (take j es).

Lemma erases_delete_entries floor es total s :
  Forall (fun e => valid_digest (ce_digest e)) es ->
  exists k, stops_at floor total es k /\
    erases (flat_map entry_files (take k es)) (delete_entries dir floor es total s)
      (fun r => r = (bytes_left total (take k es), fold_left add_entry (take k es) s)).
Proof.
  intros Hv. revert total s. induction Hv as [|e es He Hv IH]; intros total s; cbn [delete_entries].
  - exists 0%nat. split; [|by apply erases_ret]. split_and!; simpl; intros; lia.
  - destruct (Z.leb_spec total floor) as [Hle|Hgt].
    + exists 0%nat. split; [|by apply erases_ret]. split_and!; simpl; [lia|done|lia].
    + destruct (IH (u64_saturating_sub total (ce_retained_bytes e)) (add_entry s e)) as (k & (Hk1 & Hk2 & Hk3) & Hm).
      exists (S k). split.
      * split_and!; simpl; [lia|intros; apply Hk2; lia|]. intros [|j] Hj; simpl; [done|]. apply Hk3. lia.
      * simpl. eapply erases_bind; [by apply erases_delete_entry|]. intros ? ->. exact Hm.
Qed.

Lemma delete_entries_floor floor es total s w : total <= floor -> delete_entries dir floor es total s w = (Ok (total, s), w).
Proof. intros Hle. destruct es as [|e es]; cbn [delete_entries]; [done|]. by rewrite (proj2 (Z.leb_le _ _) Hle). Qed.

Lemma delete_entries_app floor es1 es2 total s w :
  delete_entries dir floor (es1 ++ es2) total s w =
  (do r <- delete_entries dir floor es1 total s ;; delete_entries dir floor es2 (fst r) (snd r)) w.
Proof.
  revert total s w. induction es1 as [|e es IH]; intros total s w; [done|]. cbn [app delete_entries].
  destruct (Z.leb_spec total floor) as [Hle|Hgt]; [symmetry; by apply delete_entries_floor|].
  unfold bind at 1. symmetry. unfold bind at 1 2. destruct (delete_cleanup_entry dir e s w) as [[s'|err] w1]; [|done].
  symmetry. apply IH.
Qed.

(** The two loops are one loop over the entries of both tiers. *)
Definition victims_queue (hard grace : list CleanupEntry) : list CleanupEntry :=
  sort_by_key ce_last_referenced_at hard ++ sort_by_key ce_last_referenced_at grace.

Lemma deletion_one_loop total hard grace w :
  deletion total hard grace w =
  (do r <- delete_entries dir (snapshot_min_retained_bytes config) (victims_queue hard grace) total
             SnapshotCleanupSummary_default ;; ret (snd r)) w.
Proof.
  unfold deletion, victims_queue. cbv zeta. symmetry. unfold bind at 1.
  destruct (Z.leb_spec total (snapshot_min_retained_bytes config)) as [Hle|Hgt].
  - by rewrite delete_entries_floor.
  - rewrite delete_entries_app. unfold bind. destruct (delete_entries dir _ _ total _ w) as [[r|e] w1]; done.
Qed.

Lemma queue_valid w bs ts :
  Forall (of_kind dir KBlob w) bs -> Forall (of_kind dir KTree w) ts ->
  Forall (fun e => valid_digest (ce_digest e)) (victims_queue (hard_entries bs ts) (grace_entries bs ts)).
Proof.
  intros Hb Ht. unfold victims_queue, hard_entries, grace_entries. rewrite !sort_by_key_Permutation.
  assert (Hval : forall k es f, Forall (of_kind dir k w) es -> Forall (fun e => valid_digest (ce_digest e)) (List.filter f es)).
  { intros k es f Hes. rewrite Forall_forall in *. intros e He. rewrite list_elem_of_In, filter_In in He.
    destruct He as [He _]. apply list_elem_of_In, Hes in He as [Hk Hl]. unfold listed in Hl. rewrite Hk in Hl.
    destruct k; destruct Hl as (r & [Hv _] & ->); exact Hv. }
  rewrite !Forall_app. split; split; eauto.
Qed.

End Effect.

Lemma active_not_expendable `{Sha256, BlobMetadataCodec, TreeCodec, Zstd, SetIter} dir refs cutoff w d p :
  d ∈ active_digests refs KBlob /\ blob_area dir d p \/ d ∈ active_digests refs KTree /\ tree_area dir d p ->
  ~ expendable dir refs cutoff w p.
Proof.
  intros Hd (e & _ & Hact & _ & Harea). unfold entry_area in Harea.
  destruct (ce_kind e), Hd as [[Hin [Hv [s ->]]]|[Hin [Hv [s ->]]]], Harea as [Hv' [s' He]].
  - apply blob_file_inj in He as [-> _]; [|done..]. done.
  - by apply (blob_file_not_tree dir (ce_digest e) s' d s).
  - by apply (blob_file_not_tree dir d s (ce_digest e) s').
  - apply tree_name_inj in He as [-> _]; [|done..]. done.
Qed.

(** The clean-up with the cut-offs it computes; without them nothing happens. *)
Lemma cleanup_cutoffs `{Sha256, BlobMetadataCodec, TreeCodec, Zstd, SetIter} dir config refs w r w' :
  cleanup_snapshot_storage dir config refs w = (r, w') ->
  w' = w \/ exists g h, hours_before (clock w) (snapshot_cache_grace_period_hours config) = Some g /\
    hours_before (clock w) (snapshot_cache_hard_delete_hours config) = Some h /\
    files w' ⊆ files w /\ Foot (expendable dir refs (Z.max g h) w) w w'.
Proof.
  unfold cleanup_snapshot_storage, bind, World.now, cleanup_snapshot_storage_at.
  destruct (hours_before _ (snapshot_cache_grace_period_hours config)) as [g|]; [|intros [= _ <-]; by left].
  destruct (hours_before _ (snapshot_cache_hard_delete_hours config)) as [h|]; [|intros [= _ <-]; by left].
  intros Hr. right. exists g, h. split_and!; [done..| |]; pose proof (cleanup_run dir config refs g h w) as Hrun; unfold bind in Hr;
    destruct (cleanup_before dir config refs g h w) as [[s|e] w1]; cbn in Hr; injection Hr as _ <-; apply Hrun.
Qed.

(** C16.  The clean-up never creates or changes a file, and whatever fails while it
    runs and whatever its configuration says, all files of a blob or tree that a staged
    workorder refers to survive; and if the two retention periods are in the range of
    [i64] hours, every file it removes belongs to a blob or tree that no staged workorder
    refers to and whose recorded last reference is at least as old as the shorter
    of the two periods. *)
Theorem cleanup_spares_active `{Sha256, BlobMetadataCodec, TreeCodec, Zstd, SetIter} dir config refs w :
  let '(_, w') := cleanup_snapshot_storage dir config refs w in
  let grace := snapshot_cache_grace_period_hours config in
  let hard := snapshot_cache_hard_delete_hours config in
  files w' ⊆ files w /\
  (forall d p,
    d ∈ active_digests refs KBlob /\ blob_area dir d p \/ d ∈ active_digests refs KTree /\ tree_area dir d p ->
    files w' !! p = files w !! p) /\
  (grace <= i64_max -> hard <= i64_max ->
   forall p, ~ expendable dir refs (clock w - Z.min grace hard * 3600) w p -> files w' !! p = files w !! p).
Proof.
  destruct (cleanup_snapshot_storage dir config refs w) as [r w'] eqn:Er. cbv zeta.
  destruct (cleanup_cutoffs dir config refs w r w' Er) as [->|(g & h & Hg & Hh & Hsub & Hfoot & _)]; [done|]. split_and!; [done| |].
  - intros d p Hd. apply Hfoot. intros Hx. by eapply active_not_expendable.
  - intros Hgm Hhm p Hp. apply Hfoot. apply hours_before_Some in Hg, Hh; [|done..]. subst g h.
    by replace (Z.max _ _) with (clock w - Z.min (snapshot_cache_grace_period_hours config) (snapshot_cache_hard_delete_hours config) * 3600) by lia.
Qed.


(** A world after a month: one blob in use, one forgotten. *)
Definition cleanup_config : ServerConfig := let c := ServerConfig_default in {|
  binpkg_dir := binpkg_dir c; binhost_url := binhost_url c;
  docker_socket := docker_socket c; worker_image_prefix := worker_image_prefix c;
  max_workers := max_workers c; max_active_workorders := max_active_workorders c;
  request_body_size_bytes := request_body_size_bytes c; build_timeout_secs := build_timeout_secs c;
  worker_idle_timeout := worker_idle_timeout c; worker_memory_bytes := worker_memory_bytes c;
  worker_cpu_shares := worker_cpu_shares c; worker_network_mode := worker_network_mode c;
  worker_binpkg_mount := worker_binpkg_mount c; auth := auth c;
  signing := signing c; parallel_jobs := parallel_jobs c;
  load_average := load_average c; tls := tls c;
  state_dir := state_dir c; retention_hours := retention_hours c;
  worker_binary := worker_binary c; max_retained_workorders := max_retained_workorders c;
  log_json := log_json c; repos_dir := repos_dir c;
  binpkg_disk_warn_bytes := binpkg_disk_warn_bytes c; worker_base_image := worker_base_image c;
  skip_worker_sync := skip_worker_sync c; snapshot_cache_grace_period_hours := snapshot_cache_grace_period_hours c;
  snapshot_cache_hard_delete_hours := snapshot_cache_hard_delete_hours c; snapshot_min_retained_bytes := 0 |}.

Section Demo.
(** Every metadata file says the same. *)
#[local] Instance cleanup_blob_codec : BlobMetadataCodec := {|
  blob_metadata_to_vec _ := [];
  blob_metadata_from_slice _ _ := Some {| canonical_digest := ""; raw_size_bytes := 3; last_referenced_at := 1000;
                                          encoded_variants := ∅ |} |}.
#[local] Existing Instance tree_codec_reference.
#[local] Existing Instance zstd_reference.
#[local] Existing Instance set_iter_reference.
#[local] Instance cleanup_sha256 : Sha256 := sha256_reference.

Definition demo_later : World := {|
  files := {[ blob_file demo_dir (digest_of "a") ".meta.json" := []; blob_file demo_dir (digest_of "b") ".meta.json" := [] ]};
  faults := []; next_uuid := 0; clock := 1000 + 31 * 24 * 3600 |}.
Definition demo_refs : list SnapshotReferenceSet :=
  [{| blob_digests := {[ digest_of "a" ]}; tree_digests := ∅; total_blob_bytes := 3; total_tree_bytes := 0;
      refs_last_referenced_at := 1000 |}].
Definition listed_blobs : list BlobMetadataRecord :=
  default [] (ok_opt (fst (list_blob_metadata demo_dir demo_later))).


(** Hours that are read as negative put the cut-off in the future: a blob that was referenced this very second goes;
    hours that lead out of the calendar make the clean-up panic. *)
Example huge_hours_delete_fresh :
  let fresh := {| files := files demo_later; faults := []; next_uuid := 0; clock := 1000 |} in
  let '(r, w') := cleanup_snapshot_storage demo_dir (with_hours u64_max cleanup_config) [] fresh in
  deleted_blobs <$> (r' ← ok_opt r; r') = Some 2 /\
  fst (cleanup_snapshot_storage demo_dir (with_hours (2 ^ 40) cleanup_config) [] fresh) = Ok None.
Proof. vm_compute. done. Qed.
End Demo.
