(* ===== verification/Runtime.v ===== *)
(** * Runtime staging ([crates/server/src/runtime.rs])

    Before a worker starts, the server turns the snapshots of an order into a
    manifest whose blobs and trees are all in the stores
    ([effective_snapshot_manifest]), lays the files out in the runtime directory of
    the order ([stage_workorder_runtime]) and collects what the order refers to.
    After the build it takes over what the worker left there.

    Staged files are reflinks, hard links or copies of the blobs.  A hard link
    shares its contents with the blob, so the staging carries along which of the
    files it made are hard links, and a copy into one of them writes to the blob as
    well ([fs_copy]). *)

From S2P Require Import Prelude Types World Paths Frame BlobStore Repo TreeStore Config Server.

Definition RUNTIME_SUBDIR : string := "runtime".

Record StagedWorkorderRuntime := {
  swr_runtime_dir : path;
  swr_workorder_json_path : path;
  swr_snapshot_references : SnapshotReferenceSet;
}.

(** [serde_json] at the types that cross the runtime directory. *)
Class RuntimeCodec := {
  workorder_to_vec : Workorder -> bytes;
  parity_manifest_from_slice : bytes -> option ParityManifest;
  distfile_manifest_from_slice : bytes -> option (gmap string SnapshotEntry);
}.

(** ** File operations on a tree with directories and hard links *)

(** The files made so far that are hard links, with the blob they share. *)
Abbreviation Links := (gmap path path).

(** [create_dir_all]: fails where a file is in the way. *)
Definition file_in_the_way (fs : gmap path bytes) (p : path) : bool :=
  existsb (fun n => is_some (fs !! take n p)) (seq 1 (length p)).
Definition fs_mkdirs (p : path) : FsOp unit :=
  guarded no_effect (fun w => if file_in_the_way (files w) p then (Err OtherIo, w) else (Ok tt, w)).

(** Opening for writing with [create_new]; [as_dir]: the name ends in [/] or [/.]. *)
Definition fs_create_at (p : path) (as_dir : bool) : FsOp unit :=
  guarded no_effect (fun w =>
    if as_dir then (Err OtherIo, w)
    else if is_some (files w !! p) || has_dir (files w) p then (Err AlreadyExists, w)
    else (Ok tt, with_files (<[p := []]> (files w)) w)).

(** [ioctl(target, FICLONE, source)] *)
Definition fs_ficlone (src_bytes : bytes) (dst : path) : FsOp unit :=
  guarded no_effect (fun w => (Ok tt, with_files (<[dst := src_bytes]> (files w)) w)).

Definition fs_link (src dst : path) : FsOp unit :=
  guarded no_effect (fun w => match files w !! src with
    | None => (Err NotFound, w)
    | Some b =>
        if is_some (files w !! dst) || has_dir (files w) dst then (Err AlreadyExists, w)
        else (Ok tt, with_files (<[dst := b]> (files w)) w)
    end).

(** The names of the file [dst]: itself or, for a hard link, its blob and the
    other links of the blob. *)
Definition names_of (links : Links) (dst : path) : list path :=
  match links !! dst with
  | Some blob => blob :: (filter (fun kv => kv.2 = blob) (map_to_list links)).*1
  | None => [dst]
  end.

Definition write_names (ns : list path) (b : bytes) (fs : gmap path bytes) : gmap path bytes :=
  fold_left (fun fs n => <[n := b]> fs) ns fs.

(** [tokio::fs::copy]: truncates the destination and then copies what the source
    holds, which is nothing when they are the same file. *)
Definition fs_copy (links : Links) (src dst : path) : FsOp unit :=
  let ns := names_of links dst in
  let content w := if bool_decide (src ∈ ns) then [] else default [] (files w !! src) in
  guarded
    (fun n w => match n with
      | Some k => with_files (write_names ns (take k (content w)) (files w)) w
      | None => w
      end)
    (fun w => match files w !! src with
      | None => (Err NotFound, w)
      | Some _ =>
          if has_dir (files w) dst then (Err OtherIo, w)
          else (Ok tt, with_files (write_names ns (content w) (files w)) w)
      end).

(** The files below a directory. *)
Definition below (fs : gmap path bytes) (dir : path) : list path :=
  List.filter (fun p => is_some (strip_path dir p)) ((map_to_list fs).*1).
Definition remove_all (ps : list path) (fs : gmap path bytes) : gmap path bytes :=
  fold_left (fun fs p => delete p fs) ps fs.

(** [remove_dir_all]; a failure may have removed some of the files. *)
Definition fs_remove_dir_all (dir : path) : FsOp unit :=
  guarded
    (fun n w => match n with
      | Some k => with_files (remove_all (take k (below (files w) dir)) (files w)) w
      | None => w
      end)
    (fun w => if has_dir (files w) dir
              then (Ok tt, with_files (remove_all (below (files w) dir) (files w)) w)
              else (Err NotFound, w)).

(** [tokio::fs::metadata(p).await] on a directory. *)
Definition fs_metadata_dir (p : path) : FsOp unit :=
  guarded no_effect (fun w => if has_dir (files w) p then (Ok tt, w) else (Err NotFound, w)).

(** ** Paths *)

Definition runtime_dir (state_dir : path) (id : WorkorderId) : path := join (join state_dir RUNTIME_SUBDIR) (pretty id).
Definition parity_runtime_dir (runtime_dir : path) : path := join runtime_dir "parity".
Definition distfile_output_manifest_path (runtime_dir : path) : path :=
  join (parity_runtime_dir runtime_dir) "distfiles.json".
Definition distfile_output_blobs_dir (runtime_dir : path) : path := join (parity_runtime_dir runtime_dir) "blobs".

(** Whether a name is spelled like a directory. *)
Definition spelled_as_dir (name : string) : bool :=
  match rev (split_on "/"%char name) with
  | s :: _ :: _ => is_empty s || bool_decide (s = ".")
  | _ => false
  end.

(** ** Configurations *)

(** The assignments to the snapshot fields at the end of
    [normalize_portage_config_snapshots] and of [stage_workorder_runtime]. *)
Definition with_snapshots (m : SnapshotManifest) (refs : gmap string (gmap string string))
    (trees : gmap string string) (distfile_refs : gmap string string) (c : PortageConfig) : PortageConfig := {|
  pc_make_conf := pc_make_conf c; pc_package_use := pc_package_use c;
  pc_package_accept_keywords := pc_package_accept_keywords c; pc_package_license := pc_package_license c;
  pc_package_mask := pc_package_mask c; pc_package_unmask := pc_package_unmask c;
  pc_package_env := pc_package_env c; pc_env_files := pc_env_files c; pc_repos_conf := pc_repos_conf c;
  pc_snapshot_manifest := m; pc_repo_snapshots := ∅; pc_repo_snapshot_refs := refs;
  pc_repo_snapshot_trees := trees; pc_patches := pc_patches c; pc_profile_overlay := pc_profile_overlay c;
  pc_distfile_snapshots := ∅; pc_distfile_snapshot_refs := distfile_refs;
  pc_profile := pc_profile c; pc_world := pc_world c |}.

Definition with_portage_config (c : PortageConfig) (w : Workorder) : Workorder := {|
  wo_id := wo_id w; wo_client_id := wo_client_id w; wo_role := wo_role w;
  wo_atoms := wo_atoms w; wo_emerge_args := wo_emerge_args w; wo_portage_config := c;
  wo_system_id := wo_system_id w; wo_trace_context := wo_trace_context w;
  wo_status := wo_status w; wo_created_at := wo_created_at w; wo_updated_at := wo_updated_at w |}.

(** [entries.iter().map(|(path, entry)| (path, entry.digest))] *)
Definition snapshot_refs (entries : gmap string SnapshotEntry) : gmap string string := se_digest <$> entries.

Section Runtime.
Context `{Sha256, BlobMetadataCodec, TreeCodec, Zstd, RuntimeCodec}.

(** ** The manifest of an order *)

Definition ensure_blob_exists (state_dir : path) (digest : string) : IO unit :=
  do source <- lift (blob_path state_dir digest) ;;
  with_context ("Missing referenced blob " +:+ digest +:+ " at " +:+ display source) (fs_metadata_len source) ;;
  ret tt.

Definition non_empty (o : option string) : option string :=
  match o with Some d => if is_empty d then None else Some d | None => None end.

Definition tree_mismatch (repo_name : string) : Error :=
  Bail ("repo snapshot tree digest mismatch for '" +:+ repo_name +:+ "'").

(** One inline file of a repository. *)
Definition inline_repo_entry (state_dir : path) (cfg : PortageConfig) (repo_name : string)
    (existing : option RepoSnapshotManifest) (entries : gmap string SnapshotEntry) (item : string * string) :
    IO (gmap string SnapshotEntry) :=
  let '(relative_path, content) := item in
  do stored <- store_blob state_dir (string_bytes content) ;;
  let digest := sb_digest stored in
  let existing_entry := existing ≫= fun repo => rsm_entries repo !! relative_path in
  let expected := pc_repo_snapshot_refs cfg !! repo_name ≫= fun refs => refs !! relative_path in
  if match expected with Some e => negb (bool_decide (digest = e)) | None => false end then
    throw (Bail ("repo snapshot refs for '" +:+ repo_name +:+ "' do not match inline payloads"))
  else
    ret (<[relative_path := {| se_digest := digest; se_size := slen content;
            se_mtime_secs := default 0 (se_mtime_secs <$> existing_entry) |}]> entries).

(** One file of a repository known by reference only. *)
Definition referenced_repo_entry (state_dir : path) (entries : gmap string SnapshotEntry)
    (item : string * string) : IO (gmap string SnapshotEntry) :=
  let '(relative_path, digest) := item in
  do metadata <- load_blob_metadata state_dir digest ;;
  ret (<[relative_path := {| se_digest := digest; se_size := raw_size_bytes metadata; se_mtime_secs := 0 |}]> entries).

Definition build_repo_snapshot_manifest (state_dir : path) (cfg : PortageConfig) (manifest : SnapshotManifest)
    (repo_name : string) : IO RepoSnapshotManifest :=
  let existing := sm_repo_snapshots manifest !! repo_name in
  match pc_repo_snapshots cfg !! repo_name with
  | Some snapshot =>
      do entries <- fold_io (inline_repo_entry state_dir cfg repo_name existing) (btree_items snapshot) ∅ ;;
      do tree <- store_tree state_dir (snapshot_refs entries) ;;
      let expected := or_else (non_empty (rsm_tree_digest <$> existing))
                              (non_empty (pc_repo_snapshot_trees cfg !! repo_name)) in
      if match expected with Some e => negb (bool_decide (st_digest tree = e)) | None => false end then
        throw (tree_mismatch repo_name)
      else ret {| rsm_tree_digest := st_digest tree; rsm_entries := entries |}
  | None =>
  match existing with
  | Some repo =>
      for_io (fun item => ensure_blob_exists state_dir (se_digest item.2)) (btree_items (rsm_entries repo)) ;;
      do tree <- store_tree state_dir (snapshot_refs (rsm_entries repo)) ;;
      if negb (is_empty (rsm_tree_digest repo)) && negb (bool_decide (st_digest tree = rsm_tree_digest repo)) then
        throw (tree_mismatch repo_name)
      else ret {| rsm_tree_digest := st_digest tree; rsm_entries := rsm_entries repo |}
  | None =>
  match pc_repo_snapshot_refs cfg !! repo_name with
  | Some refs =>
      do entries <- fold_io (referenced_repo_entry state_dir) (btree_items refs) ∅ ;;
      do tree <- store_tree state_dir refs ;;
      if match non_empty (pc_repo_snapshot_trees cfg !! repo_name) with
         | Some e => negb (bool_decide (st_digest tree = e)) | None => false end then
        throw (tree_mismatch repo_name)
      else ret {| rsm_tree_digest := st_digest tree; rsm_entries := entries |}
  | None => ret RepoSnapshotManifest_default
  end end end.

Definition build_distfile_snapshot_entry (state_dir : path) (cfg : PortageConfig) (manifest : SnapshotManifest)
    (name : string) : IO (option SnapshotEntry) :=
  match pc_distfile_snapshots cfg !! name with
  | Some b =>
      do stored <- store_blob state_dir b ;;
      let digest := sb_digest stored in
      if match pc_distfile_snapshot_refs cfg !! name with
         | Some e => negb (bool_decide (digest = e)) | None => false end then
        throw (Bail ("distfile snapshot digest mismatch for '" +:+ name +:+ "'"))
      else ret (Some {| se_digest := digest; se_size := blen b;
                        se_mtime_secs := default 0 (se_mtime_secs <$> sm_distfiles manifest !! name) |})
  | None =>
  match sm_distfiles manifest !! name with
  | Some entry => ensure_blob_exists state_dir (se_digest entry) ;; ret (Some entry)
  | None =>
  match pc_distfile_snapshot_refs cfg !! name with
  | Some digest =>
      do metadata <- load_blob_metadata state_dir digest ;;
      ret (Some {| se_digest := digest; se_size := raw_size_bytes metadata; se_mtime_secs := 0 |})
  | None => ret None
  end end end.

Definition with_repo (repo_name : string) (r : RepoSnapshotManifest) (m : SnapshotManifest) : SnapshotManifest :=
  {| sm_version := sm_version m; sm_repo_snapshots := <[repo_name := r]> (sm_repo_snapshots m);
     sm_distfiles := sm_distfiles m |}.
Definition with_distfile (name : string) (e : SnapshotEntry) (m : SnapshotManifest) : SnapshotManifest :=
  {| sm_version := sm_version m; sm_repo_snapshots := sm_repo_snapshots m;
     sm_distfiles := <[name := e]> (sm_distfiles m) |}.

Definition effective_repo (state_dir : path) (cfg : PortageConfig) (m : SnapshotManifest) (repo_name : string) :
    IO SnapshotManifest :=
  do r <- build_repo_snapshot_manifest state_dir cfg m repo_name ;;
  ret (if bool_decide (rsm_entries r = ∅) then m else with_repo repo_name r m).

Definition effective_distfile (state_dir : path) (cfg : PortageConfig) (m : SnapshotManifest) (name : string) :
    IO SnapshotManifest :=
  do e <- build_distfile_snapshot_entry state_dir cfg m name ;;
  ret (match e with Some e => with_distfile name e m | None => m end).

Definition effective_snapshot_manifest (state_dir : path) (cfg : PortageConfig) : IO SnapshotManifest :=
  let manifest := pc_snapshot_manifest cfg in
  if negb (sm_version manifest =? SNAPSHOT_MANIFEST_VERSION_V1) then
    throw (Bail ("unsupported snapshot manifest version " +:+ pretty (sm_version manifest)))
  else
    let repo_names := dom (pc_repo_snapshots cfg) ∪ dom (pc_repo_snapshot_refs cfg) ∪
                      dom (sm_repo_snapshots manifest) in
    do manifest <- fold_io (effective_repo state_dir cfg) (btree_elements repo_names) manifest ;;
    let distfile_names := dom (pc_distfile_snapshots cfg) ∪ dom (pc_distfile_snapshot_refs cfg) ∪
                          dom (sm_distfiles manifest) in
    fold_io (effective_distfile state_dir cfg) (btree_elements distfile_names) manifest.

(** ** References *)

Definition manifest_blob_digests (m : SnapshotManifest) : gset string :=
  list_to_set (concat (map (fun repo => map se_digest (map snd (map_to_list (rsm_entries repo))))
                           (map snd (map_to_list (sm_repo_snapshots m)))) ++
               map se_digest (map snd (map_to_list (sm_distfiles m)))).
Definition manifest_tree_digests (m : SnapshotManifest) : gset string :=
  list_to_set (List.filter (fun d => negb (is_empty d))
    (map rsm_tree_digest (map snd (map_to_list (sm_repo_snapshots m))))).

(** The size of a file is added; the sum is a [u64]. *)
Definition add_size (path_of : string -> Result path Error) (total : Z) (digest : string) : IO Z :=
  do path <- lift (path_of digest) ;;
  do n <- with_context ("Failed to stat " +:+ display path) (fs_metadata_len path) ;;
  ret (u64_wrapping_add total n).

Definition collect_snapshot_references (state_dir : path) (cfg : PortageConfig) : IO SnapshotReferenceSet :=
  do manifest <- effective_snapshot_manifest state_dir cfg ;;
  let blob_digests := manifest_blob_digests manifest in
  let tree_digests := manifest_tree_digests manifest in
  do total_blob_bytes <- fold_io (add_size (blob_path state_dir)) (btree_elements blob_digests) 0 ;;
  do total_tree_bytes <- fold_io (add_size (tree_path state_dir)) (btree_elements tree_digests) 0 ;;
  do t <- now ;;
  ret {| blob_digests := blob_digests; tree_digests := tree_digests; total_blob_bytes := total_blob_bytes;
         total_tree_bytes := total_tree_bytes; refs_last_referenced_at := t |}.

Definition touch_snapshot_references (state_dir : path) (refs : SnapshotReferenceSet) : IO unit :=
  for_io (fun d => touch_blob state_dir d (refs_last_referenced_at refs) ;; ret tt)
    (btree_elements (blob_digests refs)) ;;
  for_io (fun d => touch_tree state_dir d (refs_last_referenced_at refs) ;; ret tt)
    (btree_elements (tree_digests refs)).

Definition normalize_portage_config_snapshots (state_dir : path) (cfg : PortageConfig) : IO PortageConfig :=
  do manifest <- effective_snapshot_manifest state_dir cfg ;;
  ret (with_snapshots manifest
         ((fun repo => snapshot_refs (rsm_entries repo)) <$> sm_repo_snapshots manifest)
         (rsm_tree_digest <$> sm_repo_snapshots manifest)
         (snapshot_refs (sm_distfiles manifest)) cfg).

(** ** Laying out the files *)

(** [try_reflink]: whether the target is now a clone of the source. *)
Definition reflink_unsupported (e : IoError) : bool :=
  match e with EOPNOTSUPP | EXDEV | EINVAL | ENOTTY | ENOSYS | EPERM => true | _ => false end.

Definition try_reflink_blocking (source target : path) (as_dir : bool) : IO bool :=
  do content <- with_context ("Failed to open " +:+ display source) (fs_read source) ;;
  try_ (fs_create_at target as_dir) (fun r =>
  match r with
  | Err AlreadyExists => ret false
  | Err e => throw (IoErr e ("Failed to create " +:+ display target))
  | Ok _ =>
      try_ (fs_ficlone content target) (fun r =>
      match r with
      | Ok _ => ret true
      | Err e =>
          try_ (fs_remove_file target) (fun _ =>
          if reflink_unsupported e then ret false
          else throw (IoErr e ("Failed to reflink " +:+ display source +:+ " into " +:+ display target)))
      end)
  end).

Definition link_blob_into_target (source target : path) (as_dir : bool) (links : Links) : IO Links :=
  match parent target with
  | Some p => with_context ("Failed to create " +:+ display p) (fs_mkdirs p)
  | None => ret tt
  end ;;
  do cloned <- try_reflink_blocking source target as_dir ;;
  if cloned then ret links
  else
    try_ (fs_link source target) (fun r =>
    match r with
    | Ok _ => ret (<[target := source]> links)
    | Err AlreadyExists | Err EXDEV =>
        with_context ("Failed to copy " +:+ display source +:+ " to " +:+ display target)
          (fs_copy links source target) ;;
        ret links
    | Err e => throw (IoErr e ("Failed to link " +:+ display source +:+ " into " +:+ display target))
    end).

Definition materialize_blob_for_digest (state_dir target : path) (as_dir : bool) (digest : string) (links : Links) :
    IO Links :=
  do source <- lift (blob_path state_dir digest) ;;
  with_context ("Missing referenced blob " +:+ digest +:+ " at " +:+ display source) (fs_metadata_len source) ;;
  link_blob_into_target source target as_dir links.

(** What the loops over the manifest have collected. *)
Record Staged := {
  sg_links : Links;
  sg_refs : gmap string (gmap string string);
  sg_trees : gmap string string;
  sg_distfile_refs : gmap string string;
}.
Definition with_links (l : Links) (s : Staged) : Staged :=
  {| sg_links := l; sg_refs := sg_refs s; sg_trees := sg_trees s; sg_distfile_refs := sg_distfile_refs s |}.

Definition stage_repo_entry (state_dir repo_base : path) (links : Links) (item : string * SnapshotEntry) : IO Links :=
  do safe_relative <- lift (sanitize_relative_path item.1) ;;
  materialize_blob_for_digest state_dir (join_path repo_base safe_relative) false (se_digest item.2) links.

Definition stage_repo (state_dir repos_dir : path) (s : Staged) (item : string * RepoSnapshotManifest) : IO Staged :=
  let '(repo_name, repo) := item in
  do name <- lift (sanitize_file_name repo_name) ;;
  let repo_base := join_str repos_dir name in
  let refs := snapshot_refs (rsm_entries repo) in
  do links <- fold_io (stage_repo_entry state_dir repo_base) (btree_items (rsm_entries repo)) (sg_links s) ;;
  if bool_decide (refs = ∅) then ret (with_links links s)
  else
    do tree <- store_tree state_dir refs ;;
    if negb (is_empty (rsm_tree_digest repo)) && negb (bool_decide (st_digest tree = rsm_tree_digest repo)) then
      throw (tree_mismatch repo_name)
    else
      ret {| sg_links := links; sg_refs := <[repo_name := refs]> (sg_refs s);
             sg_trees := <[repo_name := st_digest tree]> (sg_trees s); sg_distfile_refs := sg_distfile_refs s |}.

Definition stage_distfile (state_dir distfiles_dir : path) (s : Staged) (item : string * SnapshotEntry) : IO Staged :=
  let '(name, entry) := item in
  do safe <- lift (sanitize_distfile_name name) ;;
  do links <- materialize_blob_for_digest state_dir (join_str distfiles_dir safe) (spelled_as_dir safe)
                (se_digest entry) (sg_links s) ;;
  ret {| sg_links := links; sg_refs := sg_refs s; sg_trees := sg_trees s;
         sg_distfile_refs := <[name := se_digest entry]> (sg_distfile_refs s) |}.

Definition stage_workorder_runtime (state_dir : path) (w : Workorder) : IO StagedWorkorderRuntime :=
  let rt := runtime_dir state_dir (wo_id w) in
  try_ (fs_metadata_dir rt) (fun r =>
  (if is_ok r then with_context ("Failed to clear " +:+ display rt) (fs_remove_dir_all rt) else ret tt) ;;
  let repos_dir := rt ++ ["snapshots"; "repos"] in
  let distfiles_dir := rt ++ ["snapshots"; "distfiles"] in
  plain (fs_mkdirs repos_dir) ;;
  plain (fs_mkdirs distfiles_dir) ;;
  plain (fs_mkdirs (rt ++ ["parity"; "blobs"])) ;;
  do manifest <- effective_snapshot_manifest state_dir (wo_portage_config w) ;;
  let start := {| sg_links := ∅; sg_refs := ∅; sg_trees := ∅; sg_distfile_refs := ∅ |} in
  do s <- fold_io (stage_repo state_dir repos_dir) (btree_items (sm_repo_snapshots manifest)) start ;;
  do s <- fold_io (stage_distfile state_dir distfiles_dir) (btree_items (sm_distfiles manifest)) s ;;
  let staged := with_portage_config
    (with_snapshots manifest (sg_refs s) (sg_trees s) (sg_distfile_refs s) (wo_portage_config w)) w in
  let workorder_json_path := join rt "workorder.json" in
  with_context ("Failed to write " +:+ display workorder_json_path)
    (fs_write workorder_json_path (workorder_to_vec staged)) ;;
  do refs <- collect_snapshot_references state_dir (wo_portage_config staged) ;;
  touch_snapshot_references state_dir refs ;;
  ret {| swr_runtime_dir := rt; swr_workorder_json_path := workorder_json_path;
         swr_snapshot_references := refs |}).

(** ** Taking over what the worker left *)

(** One file of the worker's output: [digest] is used as it stands in the manifest. *)
Definition ingest_blob (state_dir blobs_dir : path) (digest : string) : IO unit :=
  let blob := join_str blobs_dir digest in
  do b <- with_context ("Failed to read " +:+ display blob) (fs_read blob) ;;
  store_blob_for_digest state_dir digest b ;;
  ret tt.

(** [Some]: the manifest; [None]: there is none. *)
Definition read_manifest {A} (path : path) (parse : bytes -> option A) : IO (option A) :=
  try_ (fs_read path) (fun r =>
  match r with
  | Ok b => match parse b with Some m => ret (Some m) | None => throw (ParseErr ("Failed to parse " +:+ display path)) end
  | Err NotFound => ret None
  | Err e => throw (IoErr e ("Failed to read " +:+ display path))
  end).

Definition ingest_final_state_parity (state_dir runtime_dir : path) : IO ParityManifest :=
  let parity_dir := parity_runtime_dir runtime_dir in
  do m <- read_manifest (join parity_dir "manifest.json") parity_manifest_from_slice ;;
  match m with
  | None => ret ParityManifest_default
  | Some manifest =>
      for_io (fun item => ingest_blob state_dir (join parity_dir "blobs") (pfe_digest item.2))
        (btree_items (pm_files manifest)) ;;
      for_io (fun item => ingest_blob state_dir (join parity_dir "blobs") (pse_digest item.2))
        (btree_items (pm_symlinks manifest)) ;;
      ret manifest
  end.

Definition ingest_fetched_distfiles (state_dir runtime_dir : path) : IO (gmap string SnapshotEntry) :=
  do m <- read_manifest (distfile_output_manifest_path runtime_dir) distfile_manifest_from_slice ;;
  match m with
  | None => ret ∅
  | Some manifest =>
      for_io (fun item => ingest_blob state_dir (distfile_output_blobs_dir runtime_dir) (se_digest item.2))
        (btree_items manifest) ;;
      ret manifest
  end.

Definition cleanup_workorder_runtime (state_dir : path) (id : WorkorderId) : IO unit :=
  let rt := runtime_dir state_dir id in
  try_ (fs_remove_dir_all rt) (fun r =>
  match r with
  | Ok _ => ret tt
  | Err NotFound => ret tt
  | Err e => throw (IoErr e ("Failed to remove " +:+ display rt))
  end).

End Runtime.
