(* ===== verification/Staging.v ===== *)
(** * What staging does ([crates/server/src/runtime.rs])

    The files the operations of [Runtime] may touch, what a staged order finds in
    its runtime directory, what it refers to, and what a manifest that names one
    file twice does to the blob store. *)

From S2P Require Import Prelude Types World Paths Registry Frame BlobStore Repo TreeStore Config Persistence Server Cleanup Runtime.

(** ** Footprints with a condition on the result

    [yields P I m]: [m] touches only files in [P], and a value it returns
    satisfies [I]. *)
Definition yields {E A : Type} (P : path -> Prop) (I : A -> Prop) (m : Comp E A) : Prop :=
  forall w, Foot P w (snd (m w)) /\ match fst (m w) with Ok a => I a | Err _ => True end.

Lemma yields_ret {E A : Type} P (I : A -> Prop) (a : A) : I a -> yields P I (ret (E := E) a).
Proof. intros Ha w. split; [apply foot_refl|done]. Qed.

Lemma yields_throw {E A : Type} P (I : A -> Prop) (e : E) : yields P I (throw e).
Proof. intros w. split; [apply foot_refl|done]. Qed.

Lemma yields_bind {E A B : Type} P I J (m : Comp E A) (k : A -> Comp E B) :
  yields P I m -> (forall a, I a -> yields P J (k a)) -> yields P J (bind m k).
Proof.
  intros Hm Hk w. unfold bind. destruct (Hm w) as [Hf Hi]. destruct (m w) as [[a|e] w1]; [|done].
  destruct (Hk a Hi w1) as [Hf' Hj]. split; [by eapply foot_trans|done].
Qed.

Lemma yields_foots {E A : Type} P (m : Comp E A) : foots P m -> yields P (fun _ => True) m.
Proof. intros Hm w. split; [apply Hm|]. by destruct (fst (m w)). Qed.

Lemma foots_yields {E A : Type} P I (m : Comp E A) : yields P I m -> foots P m.
Proof. intros Hm w. apply Hm. Qed.

Lemma yields_try {E F A B : Type} P J (m : Comp E A) (k : Result A E -> Comp F B) :
  foots P m -> (forall r, yields P J (k r)) -> yields P J (try_ m k).
Proof.
  intros Hm Hk w. unfold try_. specialize (Hm w). destruct (m w) as [r w1].
  destruct (Hk r w1) as [Hf' Hj]. split; [by eapply foot_trans|done].
Qed.

Lemma yields_fold {E A S : Type} P (I : S -> Prop) (f : S -> A -> Comp E S) xs s :
  I s -> (forall s x, x ∈ xs -> I s -> yields P I (f s x)) -> yields P I (fold_io f xs s).
Proof.
  revert s. induction xs as [|x xs IH]; intros s Hs Hf; cbn [fold_io]; [by apply yields_ret|].
  eapply yields_bind; [apply Hf; [set_solver|done]|]. intros s' Hs'. apply IH; [done|].
  intros; apply Hf; [set_solver|done].
Qed.

Lemma yields_mono {E A : Type} (P Q : path -> Prop) (I J : A -> Prop) (m : Comp E A) :
  (forall p, P p -> Q p) -> (forall a, I a -> J a) -> yields P I m -> yields Q J m.
Proof.
  intros HPQ HIJ Hm w. destruct (Hm w) as [[Hf Hs] Hi]. split.
  - split; [|done]. intros p Hp. apply Hf. auto.
  - destruct (fst (m w)); auto.
Qed.

(** ** Areas *)

(** The files of the two stores, and of the runtime directory of an order. *)
Definition in_stores (dir p : path) : Prop := exists d, blob_area dir d p \/ tree_area dir d p.
Definition in_trees (dir p : path) : Prop := exists d, tree_area dir d p.
Definition staging_area (dir : path) (id : WorkorderId) (p : path) : Prop :=
  under (runtime_dir dir id) p \/ in_stores dir p.

Lemma under_runtime_not_blob dir id p d s : under (runtime_dir dir id) p -> p <> blob_file dir d s.
Proof.
  intros [q ->]. unfold runtime_dir, blob_file, join. rewrite <- !app_assoc. simpl. intros He.
  by apply app_inv_head in He.
Qed.

Lemma under_runtime_not_tree dir id p d s : under (runtime_dir dir id) p -> p <> tree_name dir d s.
Proof.
  intros [q ->]. unfold runtime_dir, tree_name, tree_file, join. rewrite <- !app_assoc. simpl. intros He.
  by apply app_inv_head in He.
Qed.

Section Footprints.
Context `{Sha256, !Sha256Laws, BlobMetadataCodec, TreeCodec, Zstd, RuntimeCodec}.
Context (dir : path).

Lemma blob_area_stores d p : blob_area dir d p -> in_stores dir p.
Proof. intros. exists d. by left. Qed.
Lemma tree_area_stores d p : tree_area dir d p -> in_stores dir p.
Proof. intros. exists d. by right. Qed.
Lemma trees_stores p : in_trees dir p -> in_stores dir p.
Proof. intros [d ?]. by eapply tree_area_stores. Qed.

Lemma foots_store_tree_in entries : foots (in_trees dir) (store_tree dir entries).
Proof. eapply foots_weaken; [|apply foots_store_tree]. intros p Hp. by eexists. Qed.

Lemma foots_store_blob b : foots (in_stores dir) (store_blob dir b).
Proof.
  unfold store_blob. cbv zeta. apply foots_bind; [|intros; apply foots_ret].
  eapply foots_weaken; [|apply foots_store_blob_for_digest]. intros p. apply blob_area_stores.
Qed.

Lemma foots_ensure_exists P d : foots P (ensure_blob_exists dir d).
Proof. unfold ensure_blob_exists. solve_foots. Qed.

Lemma foots_load_blob_any P d : foots P (load_blob_metadata dir d).
Proof. apply foots_load_blob. Qed.
#[local] Hint Resolve foots_store_blob foots_ensure_exists foots_load_blob_any : foots.

Lemma foots_store_tree_stores entries : foots (in_stores dir) (store_tree dir entries).
Proof. eapply foots_weaken; [|apply foots_store_tree_in]. apply trees_stores. Qed.
#[local] Hint Resolve foots_store_tree_stores : foots.

Lemma foots_build_repo cfg m r : foots (in_stores dir) (build_repo_snapshot_manifest dir cfg m r).
Proof.
  unfold build_repo_snapshot_manifest. cbv zeta.
  destruct (pc_repo_snapshots cfg !! r); [|destruct (sm_repo_snapshots m !! r); [|destruct (pc_repo_snapshot_refs cfg !! r)]].
  - apply foots_bind; [|intros; solve_foots]. apply foots_fold. intros s [p c] _. unfold inline_repo_entry. solve_foots.
  - apply foots_bind; [|intros; solve_foots]. apply foots_for. solve_foots.
  - apply foots_bind; [|intros; solve_foots]. apply foots_fold. intros s [p c] _. unfold referenced_repo_entry. solve_foots.
  - apply foots_ret.
Qed.

Lemma foots_effective cfg : foots (in_stores dir) (effective_snapshot_manifest dir cfg).
Proof.
  unfold effective_snapshot_manifest. cbv zeta. destruct (negb _); [apply foots_throw|].
  apply foots_bind; [|intros; apply foots_fold].
  - apply foots_fold. intros s r _. apply foots_bind; [apply foots_build_repo|intros; apply foots_ret].
  - intros s n _. apply foots_bind; [|intros; apply foots_ret]. unfold build_distfile_snapshot_entry. solve_foots.
Qed.

Lemma foots_add_size P path_of s d : foots P (add_size path_of s d).
Proof. unfold add_size. solve_foots. Qed.

Lemma foots_collect cfg : foots (in_stores dir) (collect_snapshot_references dir cfg).
Proof.
  unfold collect_snapshot_references. apply foots_bind; [apply foots_effective|]. intros m. cbv zeta.
  apply foots_bind; [apply foots_fold; intros; apply foots_add_size|]. intros ?.
  apply foots_bind; [apply foots_fold; intros; apply foots_add_size|]. intros ?. solve_foots.
Qed.

Lemma foots_touch_references refs : foots (in_stores dir) (touch_snapshot_references dir refs).
Proof.
  unfold touch_snapshot_references. apply foots_bind; [|intros ?]; apply foots_for; intros d _;
    (apply foots_bind; [|intros; apply foots_ret]).
  - eapply foots_weaken; [|apply foots_touch_blob]. intros p. apply blob_area_stores.
  - eapply foots_weaken; [|apply foots_touch_tree]. intros p. apply tree_area_stores.
Qed.

End Footprints.

(** ** Links and copies stay in their area *)

Definition links_in (P : path -> Prop) (links : Links) : Prop := forall t s, links !! t = Some s -> P t /\ P s.

Lemma names_of_in (P : path -> Prop) links dst :
  links_in P links -> P dst -> Forall P (names_of links dst).
Proof.
  intros Hl Hd. unfold names_of. destruct (links !! dst) as [b|] eqn:E; [|by repeat constructor].
  constructor; [by destruct (Hl dst b E)|]. apply Forall_fmap, Forall_forall. intros [t s] Hin.
  apply list_elem_of_filter in Hin as [_ Hin]. apply elem_of_map_to_list in Hin. by destruct (Hl t s Hin).
Qed.

Lemma write_names_other ns b fs p : p ∉ ns -> write_names ns b fs !! p = fs !! p.
Proof.
  unfold write_names. revert fs. induction ns as [|n ns IH]; intros fs Hp; simpl; [done|].
  rewrite IH by set_solver. rewrite lookup_insert_ne; [done|set_solver].
Qed.

Lemma remove_all_other ps fs p : p ∉ ps -> remove_all ps fs !! p = fs !! p.
Proof.
  unfold remove_all. revert fs. induction ps as [|n ns IH]; intros fs Hp; simpl; [done|].
  rewrite IH by set_solver. rewrite lookup_delete_ne; [done|set_solver].
Qed.

Lemma remove_all_none ps fs p : p ∈ ps \/ fs !! p = None -> remove_all ps fs !! p = None.
Proof.
  unfold remove_all. revert fs. induction ps as [|n ns IH]; intros fs Hp; simpl; [set_solver|].
  apply IH. destruct (decide (p = n)) as [->|Hne]; [right; apply lookup_delete_eq|].
  rewrite lookup_delete_ne by done. set_solver.
Qed.


Lemma elem_of_below fs dir p : p ∈ below fs dir <-> under dir p /\ is_Some (fs !! p).
Proof.
  unfold below. rewrite list_elem_of_In, filter_In, <- list_elem_of_In, list_elem_of_fmap. split.
  - intros [([k b] & -> & Hin) Hs]. apply elem_of_map_to_list in Hin. simpl in *.
    destruct (strip_path dir k) as [q|] eqn:E; [|done]. apply strip_path_Some in E as ->. split; [by exists q|eauto].
  - intros [[q ->] [b Hb]]. split; [exists (dir ++ q, b); by rewrite elem_of_map_to_list|].
    by rewrite (proj2 (strip_path_Some dir _ q)).
Qed.

Section Links.
Context (P : path -> Prop).

Lemma foots_mkdirs p : foots P (fs_mkdirs p).
Proof.
  apply foots_guarded; [intros; apply foot_refl|]. intros w. destruct (file_in_the_way _ _); apply foot_refl.
Qed.

Lemma foots_create_at p as_dir : P p -> foots P (fs_create_at p as_dir).
Proof.
  intros Hp. apply foots_guarded; [intros; apply foot_refl|]. intros w.
  destruct as_dir; [apply foot_refl|]. destruct (_ || _); [apply foot_refl|by apply foot_insert].
Qed.

Lemma foots_ficlone b p : P p -> foots P (fs_ficlone b p).
Proof. intros Hp. apply foots_guarded; [intros; apply foot_refl|]. intros w. by apply foot_insert. Qed.

Lemma foots_link src p : P p -> foots P (fs_link src p).
Proof.
  intros Hp. apply foots_guarded; [intros; apply foot_refl|]. intros w.
  destruct (files w !! src); [|apply foot_refl]. destruct (_ || _); [apply foot_refl|by apply foot_insert].
Qed.

Lemma foot_write_names ns b w : Forall P ns -> Foot P w (with_files (write_names ns b (files w)) w).
Proof.
  intros Hns. split; [|by exists []]. intros p Hp. apply write_names_other. intros Hin.
  rewrite Forall_forall in Hns. auto.
Qed.

Lemma foots_copy links src dst : links_in P links -> P dst -> foots P (fs_copy links src dst).
Proof.
  intros Hl Hd. pose proof (names_of_in _ _ _ Hl Hd) as Hns. unfold fs_copy. cbv zeta. apply foots_guarded.
  - intros [n|] w; [by apply foot_write_names|apply foot_refl].
  - intros w. destruct (files w !! src); [|apply foot_refl].
    destruct (has_dir _ _); [apply foot_refl|by apply foot_write_names].
Qed.

Lemma foots_remove_dir d : (forall p, under d p -> P p) -> foots P (fs_remove_dir_all d).
Proof.
  intros Hd.
  assert (Hrm : forall ps w, (forall p, p ∈ ps -> p ∈ below (files w) d) ->
    Foot P w (with_files (remove_all ps (files w)) w)).
  { intros ps w Hps. split; [|by exists []]. intros p Hp. apply remove_all_other. intros Hin.
    apply Hp, Hd. apply Hps, elem_of_below in Hin. tauto. }
  apply foots_guarded.
  - intros [n|] w; [|apply foot_refl]. apply Hrm. intros p. apply subseteq_take.
  - intros w. destruct (has_dir _ _); [|apply foot_refl]. by apply Hrm.
Qed.

Lemma foots_metadata_dir d : foots P (fs_metadata_dir d).
Proof. apply foots_guarded; [intros; apply foot_refl|]. intros w. destruct (has_dir _ _); apply foot_refl. Qed.

Lemma foots_plain {A} (m : FsOp A) : foots P m -> foots P (plain m).
Proof. apply foots_with_context. Qed.

#[local] Hint Resolve foots_mkdirs foots_create_at foots_ficlone foots_link foots_copy : foots.

Lemma foots_try_reflink src dst as_dir : P dst -> foots P (try_reflink_blocking src dst as_dir).
Proof. intros Hd. unfold try_reflink_blocking. solve_foots. Qed.
#[local] Hint Resolve foots_try_reflink : foots.

Lemma yields_link src dst as_dir links :
  P src -> P dst -> links_in P links -> yields P (links_in P) (link_blob_into_target src dst as_dir links).
Proof.
  intros Hs Hd Hl. unfold link_blob_into_target.
  eapply yields_bind; [apply yields_foots; solve_foots|]. intros _ _.
  eapply yields_bind; [by apply yields_foots, foots_try_reflink|]. intros [] _; [by apply yields_ret|].
  apply yields_try; [by apply foots_link|]. intros [u|[]]; try apply yields_throw.
  - apply yields_ret. intros t s. rewrite lookup_insert_Some. intros [[<- <-]|[_ Hls]]; [done|]. by apply Hl.
  - eapply yields_bind; [by apply yields_foots, foots_with_context, foots_copy|]. intros _ _. by apply yields_ret.
  - eapply yields_bind; [by apply yields_foots, foots_with_context, foots_copy|]. intros _ _. by apply yields_ret.
Qed.

End Links.

(** ** Staging stays in the runtime directory and the stores *)

Section Confined.
Context `{Sha256, !Sha256Laws, BlobMetadataCodec, TreeCodec, Zstd, RuntimeCodec}.
Context (dir : path) (id : WorkorderId).

Abbreviation area := (staging_area dir id).
Abbreviation rt := (runtime_dir dir id).

Lemma area_under p : under rt p -> area p.
Proof. by left. Qed.
Lemma foots_area {E A : Type} (m : Comp E A) : foots (in_stores dir) m -> foots area m.
Proof. apply foots_weaken. by right. Qed.

Lemma yields_lift {A B : Type} P (I : B -> Prop) (r : Result A Error) (k : A -> IO B) :
  (forall a, r = Ok a -> yields P I (k a)) -> yields P I (bind (lift r) k).
Proof. intros Hk. destruct r as [a|e]; [by apply Hk|]. intros w. split; [apply foot_refl|done]. Qed.

Lemma yields_materialize target as_dir d links :
  under rt target -> links_in area links ->
  yields area (links_in area) (materialize_blob_for_digest dir target as_dir d links).
Proof.
  intros Ht Hl. unfold materialize_blob_for_digest. apply yields_lift. intros source Hs.
  assert (Hsrc : area source).
  { destruct (validate_digest_cases d) as [[Hv _]|[e He]].
    - rewrite blob_path_eq in Hs by done. simplify_eq. right. exists d. left. by split; [|eexists].
    - by destruct (invalid_paths dir d e He) as (Hp & _); rewrite Hp in Hs. }
  eapply yields_bind; [apply yields_foots; solve_foots|]. intros _ _.
  apply yields_link; [done|by apply area_under|done].
Qed.

(** The targets of a manifest: the files it lays out, with their digests. *)
Definition repo_base (name : string) : path := join_str (rt ++ ["snapshots"; "repos"]) name.

Lemma repo_base_under name :
  is_single_normal_path_component name = true -> under (rt ++ ["snapshots"; "repos"]) (repo_base name).
Proof.
  intros Hn. destruct (join_str_single (rt ++ ["snapshots"; "repos"]) name Hn) as (n & _ & He).
  unfold repo_base. rewrite He. apply under_join, under_refl.
Qed.

Lemma sanitize_file_name_Ok name n : sanitize_file_name name = Ok n -> n = name /\ is_single_normal_path_component name = true.
Proof. unfold sanitize_file_name. destruct (is_single_normal_path_component name); simpl; by intros [= ->]. Qed.
Lemma sanitize_distfile_name_Ok name n :
  sanitize_distfile_name name = Ok n -> n = name /\ is_single_normal_path_component name = true.
Proof. unfold sanitize_distfile_name. destruct (is_single_normal_path_component name); simpl; by intros [= ->]. Qed.

Lemma yields_stage_repo s item :
  links_in area (sg_links s) ->
  yields area (fun s => links_in area (sg_links s)) (stage_repo dir (rt ++ ["snapshots"; "repos"]) s item).
Proof.
  intros Hl. destruct item as [name repo]. unfold stage_repo. apply yields_lift. intros n Hn.
  apply sanitize_file_name_Ok in Hn as [-> Hn]. cbv zeta. eapply yields_bind.
  - apply (yields_fold area (links_in area)); [done|]. intros links [p e] _ Hls. unfold stage_repo_entry.
    apply yields_lift. intros safe Hsafe. rewrite (join_sanitized _ _ _ Hsafe). apply yields_materialize; [|done].
    apply under_app, (under_trans _ (rt ++ ["snapshots"; "repos"])), (repo_base_under name Hn).
    apply under_app, under_refl.
  - intros links Hls. destruct (bool_decide _); [by apply yields_ret|].
    eapply yields_bind; [apply yields_foots, foots_area, foots_store_tree_stores|]. intros tree _.
    destruct (_ && _); [apply yields_throw|by apply yields_ret].
Qed.

Lemma yields_stage_distfile s item :
  links_in area (sg_links s) ->
  yields area (fun s => links_in area (sg_links s)) (stage_distfile dir (rt ++ ["snapshots"; "distfiles"]) s item).
Proof.
  intros Hl. destruct item as [name e]. unfold stage_distfile. apply yields_lift. intros n Hn.
  apply sanitize_distfile_name_Ok in Hn as [-> Hn].
  destruct (join_str_single (rt ++ ["snapshots"; "distfiles"]) name Hn) as (c & _ & ->).
  eapply yields_bind; [apply yields_materialize; [|done]|].
  - apply under_join, under_app, under_refl.
  - intros links Hls. by apply yields_ret.
Qed.

Lemma foots_stage w : wo_id w = id -> foots area (stage_workorder_runtime dir w).
Proof.
  intros Hid. unfold stage_workorder_runtime. rewrite Hid. cbv zeta.
  apply foots_try; [apply foots_metadata_dir|]. intros r.
  apply foots_bind; [destruct (is_ok r); [|apply foots_ret]; apply foots_with_context, foots_remove_dir; apply area_under|].
  intros _. do 3 (apply foots_bind; [apply foots_plain, foots_mkdirs|intros _]).
  apply foots_bind; [apply foots_area, foots_effective|]. intros m.
  apply (foots_yields _ (fun _ => True)).
  eapply yields_bind; [apply (yields_fold area (fun s => links_in area (sg_links s)))|].
  { intros t s. simpl. by rewrite lookup_empty. }
  { intros s x _. apply yields_stage_repo. }
  intros s Hs. eapply yields_bind; [apply (yields_fold area (fun s => links_in area (sg_links s)))|].
  { done. }
  { intros s' x _. apply yields_stage_distfile. }
  intros s' Hs'. apply yields_foots.
  apply foots_bind; [apply foots_with_context, foots_write; left; apply under_join, under_refl|]. intros _.
  apply foots_bind; [apply foots_area, foots_collect|]. intros refs.
  apply foots_bind; [apply foots_area, foots_touch_references|]. intros _. apply foots_ret.
Qed.

End Confined.

(** ** What one staged file holds *)

(** [ensures I m J]: from a world in [I], if [m] returns [a], the world is in [J a]. *)
Definition ensures {E A : Type} (I : World -> Prop) (m : Comp E A) (J : A -> World -> Prop) : Prop :=
  forall w, I w -> match m w with (Ok a, w') => J a w' | (Err _, _) => True end.

Lemma ensures_ret {E A : Type} (I : World -> Prop) (a : A) (J : A -> World -> Prop) :
  (forall w, I w -> J a w) -> ensures I (ret (E := E) a) J.
Proof. intros Hj w. apply Hj. Qed.

Lemma ensures_bind {E A B : Type} I J K (m : Comp E A) (k : A -> Comp E B) :
  ensures I m J -> (forall a, ensures (J a) (k a) K) -> ensures I (bind m k) K.
Proof.
  intros Hm Hk w Hw. unfold bind. specialize (Hm w Hw). destruct (m w) as [[a|e] w1]; [|done]. by apply Hk.
Qed.

Lemma ensures_lift {A B : Type} I K (r : Result A Error) (k : A -> IO B) :
  (forall a, r = Ok a -> ensures I (k a) K) -> ensures I (bind (lift r) k) K.
Proof. intros Hk w Hw. destruct r as [a|e]; [|done]. by apply (Hk a). Qed.

Lemma ensures_try {E F A B : Type} I J K (m : Comp E A) (k : Result A E -> Comp F B) :
  (forall w, I w -> J (snd (m w))) -> (forall r, ensures J (k r) K) -> ensures I (try_ m k) K.
Proof. intros Hm Hk w Hw. unfold try_. specialize (Hm w Hw). destruct (m w) as [r w1]. by apply Hk. Qed.

Lemma ensures_fold {E A S : Type} (Inv : list A -> S -> World -> Prop) (f : S -> A -> Comp E S) done xs s :
  (forall done x s, ensures (Inv done s) (f s x) (fun s' => Inv (done ++ [x]) s')) ->
  ensures (Inv done s) (fold_io f xs s) (fun s' => Inv (done ++ xs) s').
Proof.
  intros Hf. revert done s. induction xs as [|x xs IH]; intros done s; cbn [fold_io].
  - rewrite app_nil_r. by apply ensures_ret.
  - eapply ensures_bind; [apply Hf|]. intros s'. specialize (IH (done ++ [x]) s'). by rewrite <- app_assoc in IH.
Qed.

(** What a computation does not touch it keeps. *)
Lemma ensures_foots {E A : Type} P (I : World -> Prop) (m : Comp E A) :
  foots P m -> (forall w w', (forall p, ~ P p -> files w' !! p = files w !! p) -> I w -> I w') ->
  ensures I m (fun _ => I).
Proof.
  intros Hm HI w Hw. destruct (Hm w) as [Hf _]. destruct (m w) as [[a|e] w1]; [|done]. by eapply HI.
Qed.

Lemma guarded_Ok {A} bad (good : FsOp A) w a w' :
  guarded bad good w = (Ok a, w') -> exists w1, files w1 = files w /\ good w1 = (Ok a, w').
Proof.
  unfold guarded. destruct (pop_fault_env w) as (_ & Hf & _). destruct (pop_fault w) as [[f|] w1]; [done|].
  intros Hg. by exists w1.
Qed.

Lemma with_context_Ok {A} ctx (m : FsOp A) w a w' : with_context ctx m w = (Ok a, w') -> m w = (Ok a, w').
Proof. unfold with_context. by destruct (m w) as [[x|e] w1]; intros [= <- <-]. Qed.

(** Between two worlds only [t] changed. *)
Definition only (t : path) (w w' : World) : Prop := forall p, p <> t -> files w' !! p = files w !! p.

Lemma foots_only {E A : Type} t (m : Comp E A) w : foots (eq t) m -> only t w (snd (m w)).
Proof. intros Hm p Hp. apply (Hm w). congruence. Qed.

Lemma only_trans t w1 w2 w3 : only t w1 w2 -> only t w2 w3 -> only t w1 w3.
Proof. intros H1 H2 p Hp. by rewrite H2, H1. Qed.

Lemma read_Ok p w b w' : fs_read p w = (Ok b, w') -> files w' = files w /\ files w !! p = Some b.
Proof.
  intros Hr. apply guarded_Ok in Hr as (w1 & Hf & Hr). rewrite <- Hf.
  destruct (files w1 !! p) eqn:E; [|done]. by injection Hr as <- <-.
Qed.

Lemma try_reflink_true src t as_dir w w' :
  src <> t -> try_reflink_blocking src t as_dir w = (Ok true, w') ->
  exists c, files w !! src = Some c /\ files w' !! t = Some c.
Proof.
  intros Hne. unfold try_reflink_blocking, bind at 1.
  destruct (with_context _ (fs_read src) w) as [[c|e] w1] eqn:Er; [|done].
  apply with_context_Ok, read_Ok in Er as [_ Hc]. unfold try_ at 1.
  destruct (fs_create_at t as_dir w1) as [[u|[]] w2]; try done. unfold try_ at 1.
  destruct (fs_ficlone c t w2) as [[u'|e] w3] eqn:Ec.
  - intros [= <-]. exists c. split; [done|]. apply guarded_Ok in Ec as (w4 & _ & [= _ <-]). simpl.
    apply lookup_insert_eq.
  - unfold try_ at 1. destruct (fs_remove_file t w3) as [x w4]. by destruct (reflink_unsupported e).
Qed.

Lemma link_Ok src t w u w' :
  fs_link src t w = (Ok u, w') -> exists c, files w !! src = Some c /\ files w' !! t = Some c.
Proof.
  intros Hl. apply guarded_Ok in Hl as (w1 & <- & Hl). destruct (files w1 !! src) as [c|]; [|done].
  destruct (_ || _); [done|]. injection Hl as _ <-. exists c. split; [done|]. apply lookup_insert_eq.
Qed.

Lemma copy_Ok links src t w u w' :
  links !! t = None -> src <> t -> fs_copy links src t w = (Ok u, w') ->
  exists c, files w !! src = Some c /\ files w' !! t = Some c.
Proof.
  intros Hlt Hne Hl. unfold fs_copy, names_of in Hl. rewrite Hlt in Hl. cbv zeta in Hl.
  apply guarded_Ok in Hl as (w1 & <- & Hl). rewrite bool_decide_eq_false_2 in Hl by set_solver.
  destruct (files w1 !! src) as [c|]; [|done]. destruct (has_dir _ _); [done|]. injection Hl as _ <-.
  exists c. split; [done|]. apply lookup_insert_eq.
Qed.

Lemma copy_only links src t : links !! t = None -> foots (eq t) (fs_copy links src t).
Proof.
  intros Hlt. unfold fs_copy, names_of. rewrite Hlt. cbv zeta. apply foots_guarded.
  - intros [n|] w; [apply foot_write_names; by repeat constructor|apply foot_refl].
  - intros w. destruct (files w !! src); [|apply foot_refl].
    destruct (has_dir _ _); [apply foot_refl|]. apply foot_write_names. by repeat constructor.
Qed.

(** A file staged under a new name holds what its blob holds, and nothing else changed. *)
Lemma link_blob_Ok src t as_dir links w links' w' :
  links !! t = None -> src <> t -> link_blob_into_target src t as_dir links w = (Ok links', w') ->
  only t w w' /\ (exists c, files w' !! src = Some c /\ files w' !! t = Some c) /\
  (links' = links \/ links' = <[t := src]> links).
Proof.
  intros Hlt Hne. unfold link_blob_into_target, bind at 1.
  set (mk := match parent t with Some p => _ | None => _ end).
  assert (Hmk : foots (eq t) mk) by (unfold mk; destruct (parent t); [apply foots_with_context, foots_mkdirs|apply foots_ret]).
  pose proof (foots_only t mk w Hmk) as H1. destruct (mk w) as [[u1|e] w1]; [simpl in H1|done]. unfold bind at 1.
  pose proof (foots_only t _ w1 (foots_try_reflink (eq t) src t as_dir eq_refl)) as H2.
  destruct (try_reflink_blocking src t as_dir w1) as [[cloned|e] w2] eqn:Er; [simpl in H2|done].
  assert (H12 : only t w w2) by by eapply only_trans.
  destruct cloned.
  { intros [= <- <-]. apply try_reflink_true in Er as (c & Hs & Ht); [|done].
    split; [done|]. split; [|by left]. exists c. by rewrite (H2 src Hne). }
  unfold try_ at 1. pose proof (foots_only t _ w2 (foots_link (eq t) src t eq_refl)) as H3.
  destruct (fs_link src t w2) as [[u|e] w3] eqn:El; simpl in H3.
  { intros [= <- <-]. apply link_Ok in El as (c & Hs & Ht). split; [by eapply only_trans|]. split; [|by right].
    exists c. by rewrite (H3 src Hne). }
  assert (Hcopy : forall ctx, (with_context ctx (fs_copy links src t) ;; ret links) w3 = (Ok links', w') ->
    only t w w' /\ (exists c, files w' !! src = Some c /\ files w' !! t = Some c) /\ (links' = links \/ links' = <[t:=src]> links)).
  { intros ctx. unfold bind. destruct (with_context ctx (fs_copy links src t) w3) as [[u|e'] w4] eqn:Ec; [|done].
    intros [= <- <-]. apply with_context_Ok in Ec. pose proof (foots_only t _ w3 (copy_only links src t Hlt)) as H4.
    rewrite Ec in H4. simpl in H4. apply copy_Ok in Ec as (c & Hs & Ht); [|done..].
    split; [eapply only_trans; [exact H12|]; by eapply only_trans|]. split; [|by left]. exists c. by rewrite (H4 src Hne). }
  destruct e; try done; apply Hcopy.
Qed.

(** ** Normal configurations

    What [normalize_portage_config_snapshots] makes of a configuration: nothing
    inline, every reference is in the manifest, and the manifest knows its trees. *)

Lemma yields_fold_done {E A S : Type} P (I : list A -> S -> Prop) (f : S -> A -> Comp E S) done xs s :
  I done s -> (forall done s x, x ∈ xs -> I done s -> yields P (I (done ++ [x])) (f s x)) ->
  yields P (I (done ++ xs)) (fold_io f xs s).
Proof.
  revert done s. induction xs as [|x xs IH]; intros done s Hs Hf; cbn [fold_io]; [rewrite app_nil_r; by apply yields_ret|].
  eapply yields_bind; [apply Hf; [set_solver|done]|]. intros s' Hs'.
  specialize (IH (done ++ [x]) s' Hs'). rewrite <- app_assoc in IH. apply IH. intros; apply Hf; [set_solver|done].
Qed.

Section Normal.
Context `{Sha256, !Sha256Laws, BlobMetadataCodec, TreeCodec, Zstd, RuntimeCodec}.
Context (dir : path).

Definition tree_digest_of (entries : gmap string SnapshotEntry) : string :=
  sha256_hex (tree_manifest_to_vec (snapshot_refs entries)).

Definition closed_at (m : SnapshotManifest) (r : string) : Prop :=
  forall repo, sm_repo_snapshots m !! r = Some repo -> rsm_entries repo <> ∅ ->
    rsm_tree_digest repo = tree_digest_of (rsm_entries repo).

Record normalized (cfg : PortageConfig) : Prop := {
  norm_version : sm_version (pc_snapshot_manifest cfg) = SNAPSHOT_MANIFEST_VERSION_V1;
  norm_inline : pc_repo_snapshots cfg = ∅ /\ pc_distfile_snapshots cfg = ∅;
  norm_refs : dom (pc_repo_snapshot_refs cfg) ⊆ dom (sm_repo_snapshots (pc_snapshot_manifest cfg));
  norm_distfile_refs : dom (pc_distfile_snapshot_refs cfg) ⊆ dom (sm_distfiles (pc_snapshot_manifest cfg));
  norm_closed : forall r, closed_at (pc_snapshot_manifest cfg) r;
}.

Lemma yields_store_tree entries :
  yields (in_trees dir) (fun st => st_digest st = sha256_hex (tree_manifest_to_vec entries)) (store_tree dir entries).
Proof.
  intros w. split; [apply foots_store_tree_in|]. unfold store_tree. cbv zeta.
  set (b := tree_manifest_to_vec entries).
  assert (Hv : valid_digest (sha256_hex b)) by apply sha256_hex_digits.
  destruct (tree_paths_eq dir _ Hv) as (-> & _). cbn [lift]. rewrite bind_ret_l. unfold try_ at 1.
  destruct (fs_metadata_len _ w) as [r w1].
  assert (Htail : forall v, match fst ((ensure_tree_metadata dir (sha256_hex b) (blen b) ;;
     tree_maybe_store_zstd_variant dir (sha256_hex b) b ;;
     do t <- now ;; touch_tree dir (sha256_hex b) t ;;
     ret {| st_digest := sha256_hex b; st_path := tree_name dir (sha256_hex b) ".json" |}) v) with
     | Ok st => st_digest st = sha256_hex b | Err _ => True end).
  { intros v. unfold bind, now. destruct (ensure_tree_metadata _ _ _ v) as [[?|?] v1]; [|done].
    destruct (tree_maybe_store_zstd_variant _ _ _ v1) as [[?|?] v2]; [|done].
    by destruct (touch_tree _ _ _ v2) as [[?|?] v3]. }
  destruct (is_ok r); [apply Htail|]. unfold bind at 1 2 3.
  destruct (context _ _ w1) as [[p|e] w2]; [|done].
  destruct (with_context _ _ w2) as [[u|e] w3]; [|done].
  destruct (write_bytes_atomically _ _ _ _ w3) as [[u'|e] w4]; [|done]. apply Htail.
Qed.

Lemma with_repo_id r repo m : sm_repo_snapshots m !! r = Some repo -> with_repo r repo m = m.
Proof. intros Hr. unfold with_repo. rewrite insert_id by done. by destruct m. Qed.
Lemma with_distfile_id n e m : sm_distfiles m !! n = Some e -> with_distfile n e m = m.
Proof. intros Hr. unfold with_distfile. rewrite insert_id by done. by destruct m. Qed.

(** On a normal configuration the manifest is what it is, and only trees are touched. *)
Lemma yields_effective_normal cfg :
  normalized cfg -> yields (in_trees dir) (eq (pc_snapshot_manifest cfg)) (effective_snapshot_manifest dir cfg).
Proof.
  intros [Hver [Hri Hdi] Hrr Hdr Hcl]. unfold effective_snapshot_manifest. cbv zeta. rewrite Hver, Z.eqb_refl, Hri, Hdi.
  set (m := pc_snapshot_manifest cfg) in *. cbn [negb].
  eapply yields_bind; [apply (yields_fold _ (eq m))|].
  - done.
  - intros ? r Hr <-. rewrite elem_of_btree_elements in Hr.
    assert (Hin : r ∈ dom (sm_repo_snapshots m)) by set_solver.
    apply elem_of_dom in Hin as [repo Hrepo]. unfold effective_repo, build_repo_snapshot_manifest.
    rewrite Hri, lookup_empty, Hrepo. cbv zeta.
    eapply yields_bind with (I := fun r' => rsm_entries r' = ∅ \/ r' = repo).
    + eapply yields_bind; [apply yields_foots, foots_for; intros; apply foots_ensure_exists|]. intros _ _.
      eapply yields_bind; [apply yields_store_tree|]. intros st Hst. destruct (_ && _); [apply yields_throw|].
      apply yields_ret. destruct (decide (rsm_entries repo = ∅)) as [?|Hne]; [by left|right].
      rewrite Hst. specialize (Hcl r repo Hrepo Hne). unfold tree_digest_of in Hcl. rewrite <- Hcl. by destruct repo.
    + intros r' Hr'. apply yields_ret. case_bool_decide as Hb; [done|]. destruct Hr' as [?| ->]; [done|].
      by rewrite with_repo_id.
  - intros ? <-. apply yields_fold; [done|]. intros ? n Hn <-. rewrite elem_of_btree_elements in Hn.
    assert (Hin : n ∈ dom (sm_distfiles m)) by set_solver.
    apply elem_of_dom in Hin as [e He]. unfold effective_distfile, build_distfile_snapshot_entry.
    rewrite Hdi, lookup_empty, He. eapply yields_bind with (I := eq (Some e)).
    + eapply yields_bind; [apply yields_foots, foots_ensure_exists|]. intros _ _. by apply yields_ret.
    + intros ? <-. apply yields_ret. by rewrite with_distfile_id.
Qed.


(** ** Normalisation gives a normal configuration *)

Lemma yields_stores {A : Type} I (m : IO A) : yields (in_trees dir) I m -> yields (in_stores dir) I m.
Proof. apply yields_mono; [apply trees_stores|done]. Qed.

(** The entries of an inline snapshot are those of the snapshot. *)
Lemma yields_inline cfg name existing snapshot :
  yields (in_stores dir) (fun es => dom es = dom snapshot)
    (fold_io (inline_repo_entry dir cfg name existing) (btree_items snapshot) ∅).
Proof.
  eapply yields_mono; [done| |apply (yields_fold_done _ (fun done (es : gmap string SnapshotEntry) => dom es = list_to_set done.*1) _ [])].
  - intros es ->. simpl. rewrite btree_items_keys. apply set_eq. intros k.
    by rewrite elem_of_list_to_set, elem_of_btree_keys, elem_of_dom.
  - simpl. by rewrite dom_empty_L.
  - intros done es [p c] _ Hes. unfold inline_repo_entry. cbv zeta.
    eapply yields_bind; [apply yields_foots, foots_store_blob|]. intros stored _.
    destruct (match _ with Some _ => _ | None => _ end); [apply yields_throw|]. apply yields_ret.
    rewrite dom_insert_L, Hes, fmap_app, list_to_set_app_L. set_solver.
Qed.

Lemma yields_build_repo cfg m r :
  pc_repo_snapshots cfg !! r <> Some ∅ ->
  yields (in_stores dir) (fun repo =>
    (rsm_entries repo <> ∅ -> rsm_tree_digest repo = tree_digest_of (rsm_entries repo)) /\
    (rsm_entries repo = ∅ -> forall repo', sm_repo_snapshots m !! r = Some repo' -> rsm_entries repo' = ∅))
    (build_repo_snapshot_manifest dir cfg m r).
Proof.
  intros Hne. unfold build_repo_snapshot_manifest. cbv zeta.
  destruct (pc_repo_snapshots cfg !! r) as [snapshot|] eqn:Es.
  - eapply yields_bind; [apply yields_inline|]. intros es Hes.
    eapply yields_bind; [apply yields_stores, yields_store_tree|]. intros st Hst.
    destruct (match _ with Some _ => _ | None => _ end); [apply yields_throw|]. apply yields_ret. simpl.
    split; [by rewrite Hst|]. intros ->. rewrite dom_empty_L in Hes. symmetry in Hes. apply dom_empty_iff_L in Hes. congruence.
  - destruct (sm_repo_snapshots m !! r) as [repo|] eqn:Er.
    + eapply yields_bind; [apply yields_foots, foots_for; intros; apply foots_ensure_exists|]. intros _ _.
      eapply yields_bind; [apply yields_stores, yields_store_tree|]. intros st Hst.
      destruct (_ && _); [apply yields_throw|]. apply yields_ret. simpl. split; [by rewrite Hst|]. intros He ? [= <-]. done.
    + destruct (pc_repo_snapshot_refs cfg !! r) as [refs|]; [|by apply yields_ret].
      eapply yields_bind with (I := fun es => snapshot_refs es = refs).
      * eapply yields_mono; [done| |apply (yields_fold_done _ (fun done (es : gmap string SnapshotEntry) => snapshot_refs es = list_to_map (list.reverse done)) _ [])].
        { intros es ->. simpl. apply map_eq. intros k. destruct (refs !! k) as [d|] eqn:Ek.
          - apply elem_of_list_to_map_1; [rewrite fmap_reverse, reverse_Permutation; apply NoDup_btree_items|].
            by apply elem_of_reverse, elem_of_btree_items.
          - apply not_elem_of_list_to_map_1. rewrite fmap_reverse, elem_of_reverse, btree_items_keys, elem_of_btree_keys, Ek.
            by intros [??]. }
        { simpl. unfold snapshot_refs. apply fmap_empty. }
        { intros done es [p d] _ Hes. unfold referenced_repo_entry.
          eapply yields_bind; [apply yields_foots, foots_load_blob_any|]. intros md _. apply yields_ret.
          unfold snapshot_refs in *. rewrite fmap_insert, Hes, reverse_app. done. }
      * intros es Hes. eapply yields_bind; [apply yields_stores, yields_store_tree|]. intros st Hst.
        destruct (match _ with Some _ => _ | None => _ end); [apply yields_throw|]. apply yields_ret. simpl.
        split; [|by intros _ ? ?]. intros _. unfold tree_digest_of. by rewrite Hes.
Qed.

Lemma yields_effective cfg :
  (forall r, pc_repo_snapshots cfg !! r <> Some ∅) ->
  yields (in_stores dir) (fun m => sm_version m = SNAPSHOT_MANIFEST_VERSION_V1 /\ forall r, closed_at m r)
    (effective_snapshot_manifest dir cfg).
Proof.
  intros Hne. unfold effective_snapshot_manifest. cbv zeta.
  set (m0 := pc_snapshot_manifest cfg). destruct (Z.eqb_spec (sm_version m0) SNAPSHOT_MANIFEST_VERSION_V1) as [Hv|]; [|apply yields_throw].
  set (names := _ ∪ dom (sm_repo_snapshots m0)). cbn [negb].
  eapply yields_bind with (I := fun m => sm_version m = SNAPSHOT_MANIFEST_VERSION_V1 /\ forall r, closed_at m r).
  - eapply yields_mono; [done| |apply (yields_fold_done _ (fun done m => sm_version m = SNAPSHOT_MANIFEST_VERSION_V1 /\
      dom (sm_repo_snapshots m) ⊆ names /\ forall r, r ∈ done -> closed_at m r) _ [])].
    + simpl. intros m (Hm & Hd & Hcl). split; [done|]. intros r repo Hr. apply (Hcl r); [|done].
      apply elem_of_btree_elements, Hd, elem_of_dom. eauto.
    + split_and!; [done|set_solver|set_solver].
    + intros done m r Hr (Hm & Hd & Hcl). rewrite elem_of_btree_elements in Hr. unfold effective_repo.
      eapply yields_bind; [apply yields_build_repo, Hne|]. intros repo [Hfull Hempty]. apply yields_ret.
      case_bool_decide as Hb.
      * split_and!; [done|done|]. intros r'. rewrite elem_of_app, list_elem_of_singleton. intros [Hr'| ->]; [auto|].
        intros repo' Hr'. by specialize (Hempty Hb repo' Hr').
      * split_and!; [done|simpl; rewrite dom_insert_L; set_solver|]. intros r' Hr' repo'. simpl.
        rewrite lookup_insert_Some. intros [[<- <-]|[Hrr Hr'']]; [auto|].
        apply (Hcl r'); [set_solver|done].
  - intros m [Hm Hcl]. apply yields_fold; [done|]. intros m' n _ [Hm' Hcl']. unfold effective_distfile.
    eapply yields_bind; [apply yields_foots|].
    { unfold build_distfile_snapshot_entry. pose proof foots_store_blob. pose proof foots_ensure_exists.
      pose proof foots_load_blob_any. solve_foots. }
    intros [e|] _; by apply yields_ret.
Qed.

Lemma yields_normalize cfg :
  (forall r, pc_repo_snapshots cfg !! r <> Some ∅) ->
  yields (in_stores dir) normalized (normalize_portage_config_snapshots dir cfg).
Proof.
  intros Hne. eapply yields_bind; [by apply yields_effective|]. intros m [Hv Hcl]. apply yields_ret.
  split; simpl; [done|done|by rewrite dom_fmap_L|unfold snapshot_refs; by rewrite dom_fmap_L|done].
Qed.

(** Normalising once is enough. *)
Lemma yields_normalize_again cfg :
  normalized cfg ->
  yields (in_trees dir) (fun cfg' => pc_snapshot_manifest cfg' = pc_snapshot_manifest cfg)
    (normalize_portage_config_snapshots dir cfg).
Proof.
  intros Hn. eapply yields_bind; [by apply yields_effective_normal|]. intros m <-. by apply yields_ret.
Qed.

End Normal.

(** ** What a staged order finds *)

Section Exposed.
Context `{Sha256, !Sha256Laws, BlobMetadataCodec, TreeCodec, Zstd, RuntimeCodec}.
Context (dir : path) (id : WorkorderId).

Abbreviation rt := (runtime_dir dir id).
Definition snapshots_dir : path := rt ++ ["snapshots"].

(** The files a manifest lays out, with the digests of their contents. *)
Definition repo_target (base : path) (item : string * SnapshotEntry) : option (path * string) :=
  match sanitize_relative_path item.1 with Ok safe => Some (base ++ safe, se_digest item.2) | Err _ => None end.
Definition repo_targets (item : string * RepoSnapshotManifest) : list (path * string) :=
  omap (repo_target (join_str (rt ++ ["snapshots"; "repos"]) item.1)) (btree_items (rsm_entries item.2)).
Definition distfile_target (item : string * SnapshotEntry) : path * string :=
  (join_str (rt ++ ["snapshots"; "distfiles"]) item.1, se_digest item.2).
Definition staging_targets (m : SnapshotManifest) : list (path * string) :=
  concat (map repo_targets (btree_items (sm_repo_snapshots m))) ++ map distfile_target (btree_items (sm_distfiles m)).

(** The files [T] have been laid out. *)
Definition laid (T : list (path * string)) (links : Links) (w : World) : Prop :=
  Forall (under snapshots_dir) T.*1 /\
  (NoDup T.*1 ->
    (forall t b, links !! t = Some b -> t ∈ T.*1) /\
    forall t d, (t, d) ∈ T -> valid_digest d /\
      exists c, files w !! t = Some c /\ files w !! blob_file dir d "" = Some c).

Lemma snapshots_under_rt p : under snapshots_dir p -> under rt p.
Proof. apply under_trans, under_app, under_refl. Qed.

(** What touches neither a laid-out file nor the contents of a blob. *)
Definition harmless (P : path -> Prop) : Prop :=
  (forall t, under snapshots_dir t -> ~ P t) /\ (forall d, valid_digest d -> ~ P (blob_file dir d "")).

Lemma laid_frame P T links w w' :
  harmless P -> (forall p, ~ P p -> files w' !! p = files w !! p) -> laid T links w -> laid T links w'.
Proof.
  intros [Ht Hb] Hf [Hu Hl]. split; [done|]. intros Hnd. destruct (Hl Hnd) as [Hls Hc]. split; [done|].
  intros t d Hin. destruct (Hc t d Hin) as (Hv & c & Hc1 & Hc2). split; [done|]. exists c.
  assert (HPt : ~ P t).
  { apply Ht. rewrite Forall_forall in Hu. apply Hu, list_elem_of_fmap. by exists (t, d). }
  rewrite (Hf t HPt), (Hf _ (Hb d Hv)). done.
Qed.

Lemma ensures_harmless {E A : Type} P T links (m : Comp E A) :
  harmless P -> foots P m -> ensures (laid T links) m (fun _ => laid T links).
Proof. intros HP Hm. eapply ensures_foots; [exact Hm|]. intros w w'. by apply laid_frame. Qed.

Lemma harmless_trees : harmless (in_trees dir).
Proof.
  split.
  - intros t Ht [d [_ [s Hs]]]. by apply (under_runtime_not_tree dir id t d s (snapshots_under_rt _ Ht)).
  - intros d _ [d' [_ [s Hs]]]. by apply blob_file_not_tree in Hs.
Qed.

Lemma harmless_none : harmless (fun _ => False).
Proof. by split; auto. Qed.

Lemma harmless_json : harmless (eq (join rt "workorder.json")).
Proof.
  split.
  - intros t [q ->] He. unfold snapshots_dir, join in He. rewrite <- app_assoc in He. by apply app_inv_head in He.
  - intros d _ He. symmetry in He. apply (under_runtime_not_blob dir id (join rt "workorder.json") d "");
      [apply under_join, under_refl|done].
Qed.

Lemma harmless_side d : harmless (side_area dir d).
Proof.
  split.
  - intros t Ht [_ (c & s & ->)]. by eapply (under_runtime_not_blob dir id _ d (String c s) (snapshots_under_rt _ Ht)).
  - intros d' Hv [Hv' (c & s & He)]. by apply blob_file_inj in He as [_ He].
Qed.

Lemma ensures_materialize T links t as_dir d :
  under snapshots_dir t ->
  ensures (laid T links) (materialize_blob_for_digest dir t as_dir d links)
    (fun links' => laid (T ++ [(t, d)]) links').
Proof.
  intros Ht. unfold materialize_blob_for_digest. apply ensures_lift. intros source Hs.
  assert (Hsrc : valid_digest d /\ source = blob_file dir d "").
  { destruct (validate_digest_cases d) as [[Hv _]|[e He]].
    - rewrite blob_path_eq in Hs by done. by simplify_eq.
    - by destruct (invalid_paths dir d e He) as (Hp & _); rewrite Hp in Hs. }
  destruct Hsrc as [Hv ->].
  eapply ensures_bind; [apply (ensures_harmless (fun _ => False)); [apply harmless_none|solve_foots]|]. intros _ w [Hu Hl].
  destruct (link_blob_into_target _ t as_dir links w) as [[links'|e] w'] eqn:El; [|done].
  split; [rewrite fmap_app, Forall_app; split; [done|by repeat constructor]|].
  rewrite fmap_app, NoDup_app. intros (HndT & Hfresh & _). destruct (Hl HndT) as [Hls Hc].
  assert (HtT : t ∉ T.*1) by (intros Hin; apply (Hfresh t Hin); simpl; set_solver).
  assert (Hsame : forall d', blob_file dir d' "" <> t).
  { intros d' He. by apply (under_runtime_not_blob dir id t d' "" (snapshots_under_rt _ Ht)). }
  apply link_blob_Ok in El as (Honly & (c & Hcs & Hct) & Hlinks); [|destruct (links !! t) eqn:E; [by apply Hls in E|done]|apply Hsame].
  split.
  - intros t' b Hb. rewrite elem_of_app. destruct Hlinks as [->| ->]; [left; eauto|].
    apply lookup_insert_Some in Hb as [[<- _]|[_ Hb]]; [right; simpl; set_solver|left; eauto].
  - intros t' d' Hin. apply elem_of_app in Hin as [Hin|Hin].
    + destruct (Hc t' d' Hin) as (Hv' & c' & Hc1 & Hc2). split; [done|]. exists c'.
      rewrite !Honly; [done|apply Hsame|]. intros ->. apply HtT, list_elem_of_fmap. by exists (t, d').
    + apply list_elem_of_singleton in Hin. simplify_eq. eauto.
Qed.


Lemma ensures_stage_repo T s item :
  ensures (laid T (sg_links s)) (stage_repo dir (rt ++ ["snapshots"; "repos"]) s item)
    (fun s' => laid (T ++ repo_targets item) (sg_links s')).
Proof.
  destruct item as [name repo]. unfold stage_repo. apply ensures_lift. intros n Hn.
  apply sanitize_file_name_Ok in Hn as [-> Hn]. cbv zeta. unfold repo_targets. simpl.
  set (base := join_str _ name).
  eapply ensures_bind with (J := fun links => laid (T ++ omap (repo_target base) (btree_items (rsm_entries repo))) links).
  - intros w Hw. apply (ensures_fold (fun done links => laid (T ++ omap (repo_target base) done) links)
      (stage_repo_entry dir base) [] (btree_items (rsm_entries repo)) (sg_links s)); [|simpl; by rewrite app_nil_r].
    clear w Hw. intros done [p e] links. unfold stage_repo_entry. apply ensures_lift. intros safe Hsafe. rewrite (join_sanitized _ _ _ Hsafe).
    assert (Hrt : repo_target base (p, e) = Some (base ++ safe, se_digest e)) by (unfold repo_target; by rewrite Hsafe).
    rewrite omap_app, app_assoc. cbn [omap list_omap]. rewrite Hrt. apply ensures_materialize.
    apply under_app. destruct (join_str_single (rt ++ ["snapshots"; "repos"]) name Hn) as (c & _ & He).
    unfold base. rewrite He. apply under_join. exists ["repos"]. unfold snapshots_dir. by rewrite <- app_assoc.
  - intros links. destruct (bool_decide _); [by apply ensures_ret|].
    eapply ensures_bind; [apply (ensures_harmless (in_trees dir)); [apply harmless_trees|apply foots_store_tree_in]|].
    intros tree. destruct (_ && _); [by intros w Hw|by apply ensures_ret].
Qed.

Lemma ensures_stage_distfile T s item :
  ensures (laid T (sg_links s)) (stage_distfile dir (rt ++ ["snapshots"; "distfiles"]) s item)
    (fun s' => laid (T ++ [distfile_target item]) (sg_links s')).
Proof.
  destruct item as [name e]. unfold stage_distfile. apply ensures_lift. intros n Hn.
  apply sanitize_distfile_name_Ok in Hn as [-> Hn]. unfold distfile_target. simpl.
  eapply ensures_bind; [apply ensures_materialize|intros links; by apply ensures_ret].
  destruct (join_str_single (rt ++ ["snapshots"; "distfiles"]) name Hn) as (c & _ & ->).
  apply under_join. exists ["distfiles"]. unfold snapshots_dir. by rewrite <- app_assoc.
Qed.

(** The references the staged order is given name repositories and distfiles of
    the manifest. *)
Definition refs_within (m : SnapshotManifest) (s : Staged) : Prop :=
  dom (sg_refs s) ⊆ dom (sm_repo_snapshots m) /\ dom (sg_distfile_refs s) ⊆ dom (sm_distfiles m).

Lemma bind_Ok_inv {E A B : Type} (m : Comp E A) (k : A -> Comp E B) w b w' :
  bind m k w = (Ok b, w') -> exists a w1, m w = (Ok a, w1) /\ k a w1 = (Ok b, w').
Proof. unfold bind. destruct (m w) as [[a|e] w1]; [|done]. eauto. Qed.

Lemma fold_Ok_inv {E A S : Type} (I : S -> Prop) (f : S -> A -> Comp E S) xs s w s' w' :
  I s -> (forall s x w s' w', x ∈ xs -> I s -> f s x w = (Ok s', w') -> I s') ->
  fold_io f xs s w = (Ok s', w') -> I s'.
Proof.
  revert s w. induction xs as [|x xs IH]; intros s w Hs Hf; cbn [fold_io]; [by intros [= <- _]|].
  intros Hb. apply bind_Ok_inv in Hb as (s1 & w1 & E1 & E2). eapply IH; [|intros; eapply Hf; [|done..]; set_solver|exact E2].
  eapply Hf; [|done..]. set_solver.
Qed.

Lemma stage_repos_within m s w s' w' base :
  refs_within m s -> fold_io (stage_repo dir base) (btree_items (sm_repo_snapshots m)) s w = (Ok s', w') -> refs_within m s'.
Proof.
  intros Hs. apply fold_Ok_inv; [done|]. clear. intros s [name repo] w s' w' Hin [Hr Hd] Hst.
  apply elem_of_btree_items in Hin. unfold stage_repo in Hst.
  apply bind_Ok_inv in Hst as (n & w1 & _ & Hst). cbv zeta in Hst. apply bind_Ok_inv in Hst as (links & w2 & _ & Hst).
  destruct (bool_decide _); [by injection Hst as <- _|].
  apply bind_Ok_inv in Hst as (tree & w3 & _ & Hst). destruct (_ && _); [done|]. injection Hst as <- _.
  split; simpl; [|done]. rewrite dom_insert_L. apply elem_of_dom_2 in Hin. set_solver.
Qed.

Lemma stage_distfiles_within m s w s' w' base :
  refs_within m s -> fold_io (stage_distfile dir base) (btree_items (sm_distfiles m)) s w = (Ok s', w') -> refs_within m s'.
Proof.
  intros Hs. apply fold_Ok_inv; [done|]. clear. intros s [name e] w s' w' Hin [Hr Hd] Hst.
  apply elem_of_btree_items in Hin. unfold stage_distfile in Hst.
  apply bind_Ok_inv in Hst as (n & w1 & _ & Hst). apply bind_Ok_inv in Hst as (links & w2 & _ & Hst).
  injection Hst as <- _. split; simpl; [done|]. rewrite dom_insert_L. apply elem_of_dom_2 in Hin. set_solver.
Qed.


(** The files are laid out and the blobs [ds] are in the store. *)
Definition intact (T : list (path * string)) (links : Links) (ds : list string) (w : World) : Prop :=
  laid T links w /\ Forall (fun d => valid_digest d /\ is_Some (files w !! blob_file dir d "")) ds.

Lemma ensures_intact {E A : Type} P T links ds (m : Comp E A) :
  harmless P -> foots P m -> ensures (intact T links ds) m (fun _ => intact T links ds).
Proof.
  intros HP Hm. eapply ensures_foots; [exact Hm|]. intros w w' Hf [Hl Hd]. split; [by eapply laid_frame|].
  eapply Forall_impl; [exact Hd|]. intros d [Hv He]. split; [done|]. by rewrite Hf by by apply HP.
Qed.

Lemma ensures_add_size T links ds total d :
  ensures (intact T links ds) (add_size (blob_path dir) total d) (fun _ => intact T links (ds ++ [d])).
Proof.
  unfold add_size. apply ensures_lift. intros p Hp.
  assert (Hsrc : valid_digest d /\ p = blob_file dir d "").
  { destruct (validate_digest_cases d) as [[Hv _]|[e He]].
    - rewrite blob_path_eq in Hp by done. by simplify_eq.
    - by destruct (invalid_paths dir d e He) as (Hi & _); rewrite Hi in Hp. }
  destruct Hsrc as [Hv ->]. intros w [Hl Hd]. unfold bind.
  destruct (with_context _ _ w) as [[n|e] w1] eqn:Es; [|done]. apply with_context_Ok in Es.
  pose proof (observes_metadata_len (blob_file dir d "") w) as Ho. rewrite Es in Ho. simpl in Ho.
  destruct Ho as (Hf & _ & b & Hb & _). split.
  - apply (laid_frame (fun _ => False) T links w); [apply harmless_none|by rewrite Hf|done].
  - apply Forall_app. rewrite Hf. split; [done|]. constructor; [split; [done|eauto]|constructor].
Qed.

Lemma ensures_touch_references T links ds refs :
  ensures (intact T links ds) (touch_snapshot_references dir refs) (fun _ => intact T links ds).
Proof.
  unfold touch_snapshot_references.
  assert (Hfor : forall A (f : A -> IO unit) xs,
    (forall x, ensures (intact T links ds) (f x) (fun _ => intact T links ds)) ->
    ensures (intact T links ds) (for_io f xs) (fun _ => intact T links ds)).
  { intros A f xs Hf. unfold for_io. apply (ensures_fold (fun _ _ => intact T links ds) (fun _ x => f x) []). auto. }
  eapply ensures_bind; [apply Hfor; intros d|intros ?; apply Hfor; intros d];
    (apply (ensures_bind _ (fun _ => intact T links ds)); [|intros ?; by apply ensures_ret]).
  - apply (ensures_intact (side_area dir d)); [apply harmless_side|apply foots_touch_side].
  - apply (ensures_intact (in_trees dir)); [apply harmless_trees|].
    eapply foots_weaken; [|apply foots_touch_tree]. intros p Hp. by exists d.
Qed.

Lemma ensures_collect T links cfg :
  normalized cfg ->
  ensures (laid T links) (collect_snapshot_references dir cfg) (fun refs w =>
    blob_digests refs = manifest_blob_digests (pc_snapshot_manifest cfg) /\
    tree_digests refs = manifest_tree_digests (pc_snapshot_manifest cfg) /\
    intact T links (btree_elements (blob_digests refs)) w).
Proof.
  intros Hn. unfold collect_snapshot_references. intros w Hw. unfold bind at 1.
  destruct (yields_effective_normal dir cfg Hn w) as [Hf Hm].
  pose proof (ensures_harmless _ T links _ harmless_trees (foots_yields _ _ _ (yields_effective_normal dir cfg Hn)) w Hw) as Hl.
  destruct (effective_snapshot_manifest dir cfg w) as [[m|e] w1]; [simpl in Hm; subst m|done]. cbv zeta.
  set (ds := manifest_blob_digests _). set (ts := manifest_tree_digests _).
  eapply (ensures_bind (intact T links []) (fun _ => intact T links (btree_elements ds))).
  - exact (ensures_fold (fun done _ => intact T links done) (add_size (blob_path dir)) [] _ 0
      (fun done d total => ensures_add_size T links done total d)).
  - intros n. eapply ensures_bind; [apply (ensures_intact (fun _ => False)); [apply harmless_none|]|].
    { apply foots_fold. intros; apply foots_add_size. }
    intros n'. eapply ensures_bind; [apply (ensures_intact (fun _ => False)); [apply harmless_none|apply foots_now]|].
    intros t. apply ensures_ret. simpl. done.
  - by split; [|constructor].
Qed.

(** The two loops of [stage_workorder_runtime] from an empty state. *)
Lemma stage_lays_out m w s1 w1 s2 w2 :
  fold_io (stage_repo dir (rt ++ ["snapshots"; "repos"])) (btree_items (sm_repo_snapshots m))
    {| sg_links := ∅; sg_refs := ∅; sg_trees := ∅; sg_distfile_refs := ∅ |} w = (Ok s1, w1) ->
  fold_io (stage_distfile dir (rt ++ ["snapshots"; "distfiles"])) (btree_items (sm_distfiles m)) s1 w1 = (Ok s2, w2) ->
  refs_within m s2 /\ laid (staging_targets m) (sg_links s2) w2.
Proof.
  intros Hs1 Hs2. split.
  { eapply stage_distfiles_within; [|exact Hs2]. eapply stage_repos_within; [|exact Hs1]. split; simpl; set_solver. }
  set (R := concat (map repo_targets (btree_items (sm_repo_snapshots m)))).
  assert (Hl1 : laid R (sg_links s1) w1).
  { pose proof (ensures_fold (fun done s => laid (concat (map repo_targets done)) (sg_links s))
      (stage_repo dir (rt ++ ["snapshots"; "repos"])) [] (btree_items (sm_repo_snapshots m))
      {| sg_links := ∅; sg_refs := ∅; sg_trees := ∅; sg_distfile_refs := ∅ |}) as Hf.
    specialize (Hf ltac:(intros done x s; cbv beta; rewrite map_app, concat_app; simpl; rewrite app_nil_r; apply ensures_stage_repo) w).
    rewrite Hs1 in Hf. apply Hf. split; [constructor|]. intros _. split; [intros ? ?; simpl; by rewrite lookup_empty|].
    intros ? ? Hx. simpl in Hx. by apply elem_of_nil in Hx. }
  pose proof (ensures_fold (fun done s => laid (R ++ map distfile_target done) (sg_links s))
    (stage_distfile dir (rt ++ ["snapshots"; "distfiles"])) [] (btree_items (sm_distfiles m)) s1) as Hf.
  specialize (Hf ltac:(intros done x s; cbv beta; rewrite map_app, app_assoc; apply ensures_stage_distfile) w1).
  rewrite Hs2 in Hf. apply Hf. simpl. by rewrite app_nil_r.
Qed.

(** The rest of [stage_workorder_runtime]. *)
Lemma stage_finishes T links b cfg w u w1 refs w2 u' w3 :
  normalized cfg -> laid T links w ->
  with_context ("Failed to write " +:+ display (join rt "workorder.json")) (fs_write (join rt "workorder.json") b) w = (Ok u, w1) ->
  collect_snapshot_references dir cfg w1 = (Ok refs, w2) ->
  touch_snapshot_references dir refs w2 = (Ok u', w3) ->
  blob_digests refs = manifest_blob_digests (pc_snapshot_manifest cfg) /\
  tree_digests refs = manifest_tree_digests (pc_snapshot_manifest cfg) /\
  intact T links (btree_elements (blob_digests refs)) w3.
Proof.
  intros Hn Hl Hw Hc Ht.
  pose proof (ensures_harmless _ T links _ harmless_json
    (foots_with_context _ ("Failed to write " +:+ display (join rt "workorder.json")) _ (foots_write _ _ b eq_refl)) w Hl) as Hl1.
  rewrite Hw in Hl1. pose proof (ensures_collect T links cfg Hn w1 Hl1) as Hl2. rewrite Hc in Hl2.
  destruct Hl2 as (Hb & Htr & Hi). pose proof (ensures_touch_references _ _ _ refs w2 Hi) as Hi3. by rewrite Ht in Hi3.
Qed.

End Exposed.

(** ** The properties *)

(** C10.  Whatever a manifest says and whatever fails, staging an order changes no
    file outside the runtime directory of that order and the blob and tree stores;
    taking over the worker's output changes only the blob store, and the clean-up
    of the order only its runtime directory. *)
Theorem staging_confined `{Sha256, !Sha256Laws, BlobMetadataCodec, TreeCodec, Zstd, RuntimeCodec} dir o w p :
  (~ staging_area dir (wo_id o) p -> files (snd (stage_workorder_runtime dir o w)) !! p = files w !! p) /\
  ((forall d, ~ blob_area dir d p) -> forall rt,
     files (snd (ingest_final_state_parity dir rt w)) !! p = files w !! p /\
     files (snd (ingest_fetched_distfiles dir rt w)) !! p = files w !! p) /\
  (~ under (runtime_dir dir (wo_id o)) p -> files (snd (cleanup_workorder_runtime dir (wo_id o) w)) !! p = files w !! p).
Proof.
  set (B := fun p => exists d, blob_area dir d p).
  assert (Hing : forall bd d, foots B (ingest_blob dir bd d)).
  { intros bd d. unfold ingest_blob. cbv zeta. apply foots_bind; [solve_foots|]. intros b.
    apply foots_bind; [|intros; apply foots_ret]. eapply foots_weaken; [|apply foots_store_blob_for_digest].
    intros q Hq. by exists d. }
  assert (Hread : forall A q (f : bytes -> option A), foots B (read_manifest q f)) by (intros; unfold read_manifest; solve_foots).
  split_and!.
  - intros Hp. by apply (foots_stage dir (wo_id o) o eq_refl w).
  - intros Hp rt. assert (HB : ~ B p) by (intros [d Hd]; by apply (Hp d)).
    split; (eapply foot_files; [|exact HB]).
    + revert w. change (foots B (ingest_final_state_parity dir rt)). unfold ingest_final_state_parity. cbv zeta.
      apply foots_bind; [apply Hread|]. intros [m|]; [|apply foots_ret].
      apply foots_bind; [apply foots_for; intros; apply Hing|]. intros _.
      apply foots_bind; [apply foots_for; intros; apply Hing|]. intros _. apply foots_ret.
    + revert w. change (foots B (ingest_fetched_distfiles dir rt)). unfold ingest_fetched_distfiles.
      apply foots_bind; [apply Hread|]. intros [m|]; [|apply foots_ret].
      apply foots_bind; [apply foots_for; intros; apply Hing|]. intros _. apply foots_ret.
  - intros Hp. assert (Hf : foots (under (runtime_dir dir (wo_id o))) (cleanup_workorder_runtime dir (wo_id o))).
    { unfold cleanup_workorder_runtime. cbv zeta. apply foots_try; [by apply foots_remove_dir|]. intros [u|[]]; solve_foots. }
    by apply Hf.
Qed.

(** Normalisation is idempotent: whatever happens in between, normalising an
    already normalised configuration again either fails or gives it back, and it
    stores no blob. *)
Theorem normalize_idempotent `{Sha256, !Sha256Laws, BlobMetadataCodec, TreeCodec, Zstd, RuntimeCodec}
    dir cfg w cfg' w' v :
  (forall r, pc_repo_snapshots cfg !! r <> Some ∅) ->
  normalize_portage_config_snapshots dir cfg w = (Ok cfg', w') ->
  let '(r, v') := normalize_portage_config_snapshots dir cfg' v in
  (forall cfg'', r = Ok cfg'' -> cfg'' = cfg') /\
  forall p, ~ in_trees dir p -> files v' !! p = files v !! p.
Proof.
  intros Hne Hn. destruct (yields_normalize dir cfg Hne w) as [_ Hnorm]. rewrite Hn in Hnorm. simpl in Hnorm.
  destruct (yields_normalize_again dir cfg' Hnorm v) as [[Hf _] Hm].
  destruct (normalize_portage_config_snapshots dir cfg' v) as [r v'] eqn:En. simpl in *. split; [|done].
  intros cfg'' ->. apply bind_Ok_inv in Hn as (m & w1 & _ & [= <- _]).
  apply bind_Ok_inv in En as (m' & v1 & _ & [= <- _]). simpl in Hm. by rewrite Hm.
Qed.

Lemma stage_exposes `{Sha256, !Sha256Laws, BlobMetadataCodec, TreeCodec, Zstd, RuntimeCodec}
    dir o w st w' :
  normalized (wo_portage_config o) ->
  stage_workorder_runtime dir o w = (Ok st, w') ->
  let m := pc_snapshot_manifest (wo_portage_config o) in
  let targets := staging_targets dir (wo_id o) m in
  let refs := swr_snapshot_references st in
  blob_digests refs = manifest_blob_digests m /\ tree_digests refs = manifest_tree_digests m /\
  (forall d, d ∈ blob_digests refs -> is_Some (files w' !! blob_file dir d "")) /\
  (NoDup targets.*1 -> forall t d, (t, d) ∈ targets ->
     exists c, files w' !! t = Some c /\ files w' !! blob_file dir d "" = Some c).
Proof.
  intros Hn Hst m targets refs. unfold stage_workorder_runtime in Hst. cbv zeta in Hst. set (id := wo_id o) in *.
  unfold try_ at 1 in Hst. destruct (fs_metadata_dir _ w) as [r w0].
  apply bind_Ok_inv in Hst as (? & w1 & _ & Hst). do 3 apply bind_Ok_inv in Hst as (? & ? & _ & Hst).
  apply bind_Ok_inv in Hst as (m' & w2 & He & Hst).
  match type of He with _ ?v = _ => destruct (yields_effective_normal dir _ Hn v) as [_ Hm] end.
  rewrite He in Hm. simpl in Hm. subst m'. fold m in Hst.
  apply bind_Ok_inv in Hst as (s1 & w3 & Hs1 & Hst). apply bind_Ok_inv in Hst as (s2 & w4 & Hs2 & Hst).
  apply bind_Ok_inv in Hst as (? & w5 & Hw5 & Hst). apply bind_Ok_inv in Hst as (refs' & w6 & Hcol & Hst).
  apply bind_Ok_inv in Hst as (? & w7 & Htouch & [= <- <-]). simpl in refs. subst refs.
  destruct (stage_lays_out dir id m _ _ _ _ _ Hs1 Hs2) as [Hin Hl].
  assert (Hn' : normalized (with_snapshots m (sg_refs s2) (sg_trees s2) (sg_distfile_refs s2) (wo_portage_config o)))
    by (destruct Hn, Hin; by split).
  destruct (stage_finishes dir id _ _ _ _ _ _ _ _ _ _ _ Hn' Hl Hw5 Hcol Htouch) as (Hb & Ht & [_ Hl7] & Hex).
  simpl. split_and!; [done|done| |].
  - intros d Hd. rewrite Forall_forall in Hex. apply Hex. by apply elem_of_btree_elements.
  - intros Hnd t d Htd. destruct (Hl7 Hnd) as [_ Hx]. by destruct (Hx t d Htd).
Qed.

(** C9.  A staged order finds its snapshot: when staging a normalised order
    succeeds, the references it is registered with are exactly the digests of its
    manifest, all those blobs are in the store, and, unless two entries of the
    manifest name one file, every file of the manifest is in the runtime directory
    with the contents of its blob. *)
Theorem stage_exposes_snapshot `{Sha256, !Sha256Laws, BlobMetadataCodec, TreeCodec, Zstd, RuntimeCodec}
    dir o w st w' :
  normalized (wo_portage_config o) ->
  stage_workorder_runtime dir o w = (Ok st, w') ->
  let m := pc_snapshot_manifest (wo_portage_config o) in
  let targets := staging_targets dir (wo_id o) m in
  let refs := swr_snapshot_references st in
  blob_digests refs = manifest_blob_digests m /\ tree_digests refs = manifest_tree_digests m /\
  (forall d, d ∈ blob_digests refs -> is_Some (files w' !! blob_file dir d "")) /\
  (NoDup targets.*1 -> forall t d, (t, d) ∈ targets ->
     exists c, files w' !! t = Some c /\ files w' !! blob_file dir d "" = Some c).
Proof. apply stage_exposes. Qed.

(** C8.  A staged order keeps its snapshot while it is registered: after staging has
    succeeded, a clean-up that is given the order's references, whatever others it
    is given and whatever fails, removes no blob of the manifest and no file of its
    runtime directory. *)
Theorem staged_order_survives_cleanup
    `{Sha256, !Sha256Laws, BlobMetadataCodec, TreeCodec, Zstd, RuntimeCodec, SetIter} dir config o w st w1 refs w2 :
  normalized (wo_portage_config o) ->
  stage_workorder_runtime dir o w = (Ok st, w1) ->
  swr_snapshot_references st ∈ refs -> files w2 = files w1 ->
  let w3 := snd (cleanup_snapshot_storage dir config refs w2) in
  (forall d, d ∈ manifest_blob_digests (pc_snapshot_manifest (wo_portage_config o)) -> valid_digest d ->
     is_Some (files w3 !! blob_file dir d "") /\ files w3 !! blob_file dir d "" = files w1 !! blob_file dir d "") /\
  forall p, under (runtime_dir dir (wo_id o)) p -> files w3 !! p = files w1 !! p.
Proof.
  intros Hn Hst Hin Hw w3. destruct (stage_exposes dir o w st w1 Hn Hst) as (Hb & _ & Hex & _).
  unfold w3. destruct (cleanup_snapshot_storage dir config refs w2) as [r w'] eqn:Ec. simpl.
  assert (Hf : exists cutoff, forall p, ~ expendable dir refs cutoff w2 p -> files w' !! p = files w2 !! p).
  { destruct (cleanup_cutoffs dir config refs w2 r w' Ec) as [->|(g & h & _ & _ & _ & Hfoot & _)]; [by exists 0|by exists (Z.max g h)]. }
  destruct Hf as [cutoff Hf].
  rewrite Hw in Hf. split.
  - intros d Hd Hv. assert (Hsame : files w' !! blob_file dir d "" = files w1 !! blob_file dir d "").
    { apply Hf. eapply active_not_expendable. left. split; [|by apply area_file].
      apply elem_of_union_list. exists (blob_digests (swr_snapshot_references st)). rewrite Hb. split; [|done].
      rewrite <- Hb. by apply list_elem_of_fmap_2. }
    split; [|done]. rewrite Hsame. apply Hex. by rewrite Hb.
  - intros p Hp. apply Hf. intros (e & _ & _ & _ & Ha). unfold entry_area in Ha. destruct (ce_kind e), Ha as [_ [s ->]].
    + by eapply under_runtime_not_blob.
    + by eapply under_runtime_not_tree.
Qed.

(** ** Two names for one file *)

Lemma in_the_way_insert fs t q b :
  (length q < length t)%nat -> file_in_the_way (<[t := b]> fs) q = file_in_the_way fs q.
Proof.
  intros Hlen. unfold file_in_the_way. generalize (seq 1 (length q)). intros ns.
  induction ns as [|n ns IH]; [done|]. simpl. rewrite IH. f_equal. rewrite lookup_insert_ne; [done|].
  intros ->. rewrite length_take in Hlen. lia.
Qed.

Lemma has_dir_insert fs t b : has_dir (<[t := b]> fs) t = has_dir fs t.
Proof.
  apply eq_true_iff_eq. rewrite !has_dir_true. setoid_rewrite elem_of_entry_names.
  split; intros (n & q & Hq); exists n, q.
  - rewrite lookup_insert_ne in Hq; [done|]. intros He. apply (f_equal length) in He. rewrite length_app in He. simpl in He. lia.
  - rewrite lookup_insert_ne; [done|]. intros He. apply (f_equal length) in He. rewrite length_app in He. simpl in He. lia.
Qed.

Lemma names_of_single (links : Links) t s : links = {[ t := s ]} -> names_of links t = [s; t].
Proof. intros ->. unfold names_of. rewrite lookup_singleton_eq, map_to_list_singleton. by rewrite filter_cons_True. Qed.


Section Collision.
Context `{Sha256, BlobMetadataCodec, TreeCodec, Zstd, RuntimeCodec}.
Context (dir t : path).
Hypothesis (Hnb : forall d, t <> blob_file dir d "") (Hnil : t <> []).

Lemma parent_of_target : parent t = Some (removelast t).
Proof. unfold parent. by destruct t. Qed.

Ltac run_ops :=
  unfold bind, try_reflink_blocking, try_, with_context, fs_metadata_len, fs_mkdirs, fs_read, fs_create_at, fs_ficlone,
    fs_remove_file, fs_link, guarded, pop_fault, no_effect, ret, throw; simpl.

(** The first entry, where the clone is refused: a hard link. *)
Lemma first_name fs n c d a :
  valid_digest d -> fs !! blob_file dir d "" = Some a -> fs !! t = None -> has_dir fs t = false ->
  file_in_the_way fs (removelast t) = false ->
  materialize_blob_for_digest dir t false d ∅
    {| files := fs; faults := [None; None; None; None; Some {| fault_error := EOPNOTSUPP; fault_written := None |}];
       next_uuid := n; clock := c |} =
  (Ok {[ t := blob_file dir d "" ]}, {| files := <[t := a]> fs; faults := []; next_uuid := n; clock := c |}).
Proof.
  intros Hv Ha Hn Hd Hw. unfold materialize_blob_for_digest. rewrite blob_path_eq by done. cbn [lift]. rewrite bind_ret_l.
  unfold link_blob_into_target. rewrite parent_of_target. run_ops. rewrite Ha. run_ops. rewrite Hw. run_ops.
  rewrite Ha. run_ops. rewrite Hn, Hd. run_ops. rewrite lookup_insert_eq. run_ops.
  rewrite lookup_delete_ne, lookup_insert_ne, Ha by (apply Hnb || (symmetry; apply Hnb)). run_ops. rewrite lookup_delete_eq.
  rewrite delete_insert_id by done. rewrite Hd. done.
Qed.

(** The second entry: the copy goes to both names. *)
Lemma second_name w s d x b :
  faults w = [] -> valid_digest d -> files w !! blob_file dir d "" = Some b -> blob_file dir d "" <> s ->
  files w !! t = Some x -> has_dir (files w) t = false -> file_in_the_way (files w) (removelast t) = false ->
  materialize_blob_for_digest dir t false d {[ t := s ]} w =
  (Ok {[ t := s ]}, with_files (<[t := b]> (<[s := b]> (files w))) w).
Proof.
  intros Hft Hv Hb Hs Hx Hd Hw. unfold materialize_blob_for_digest. rewrite blob_path_eq by done. cbn [lift].
  rewrite bind_ret_l. unfold link_blob_into_target. rewrite parent_of_target.
  destruct w as [fs ft n c]. simpl in *. subst ft. run_ops. rewrite Hb. run_ops. rewrite Hw. run_ops. rewrite Hb. run_ops.
  rewrite Hx. run_ops. rewrite Hb, Hx. run_ops. unfold fs_copy. rewrite (names_of_single _ t s) by done.
  cbv zeta. run_ops. rewrite Hb, Hd. run_ops. rewrite bool_decide_eq_false_2; [done|].
  rewrite !elem_of_cons, elem_of_nil. specialize (Hnb d). intros [?|[?|?]]; congruence.
Qed.
End Collision.

(** On a file system without reflinks two entries of a manifest whose paths are
    spellings of one name corrupt the blob store: the first makes the target a hard
    link of its blob, the second finds the target there and copies its own blob over
    it, so that afterwards the file of the first digest holds the contents of the
    second. *)
Theorem colliding_names_overwrite_blob `{Sha256, BlobMetadataCodec, TreeCodec, Zstd, RuntimeCodec}
    dir base p1 p2 safe eA eB w a b :
  sanitize_relative_path p1 = Ok safe -> sanitize_relative_path p2 = Ok safe ->
  valid_digest (se_digest eA) -> valid_digest (se_digest eB) -> se_digest eA <> se_digest eB ->
  files w !! blob_file dir (se_digest eA) "" = Some a -> files w !! blob_file dir (se_digest eB) "" = Some b ->
  (forall d, base ++ safe <> blob_file dir d "") ->
  base ++ safe <> [] -> files w !! (base ++ safe) = None -> has_dir (files w) (base ++ safe) = false ->
  file_in_the_way (files w) (removelast (base ++ safe)) = false ->
  faults w = [None; None; None; None; Some {| fault_error := EOPNOTSUPP; fault_written := None |}] ->
  let '(r, w') := fold_io (stage_repo_entry dir base) [(p1, eA); (p2, eB)] ∅ w in
  is_ok r = true /\ files w' !! blob_file dir (se_digest eA) "" = Some b.
Proof.
  intros Hp1 Hp2 HvA HvB Hne HA HB Hnb Hnil Hnone Hdir Hway Hft. set (t := base ++ safe) in *.
  assert (Hlen : (length (removelast t) < length t)%nat).
  { destruct (exists_last Hnil) as (l & x & ->). rewrite removelast_last, length_app. simpl. lia. }
  destruct w as [fs ft n c]. simpl in *. subst ft. cbn [fold_io]. unfold stage_repo_entry. cbn [fst snd].
  rewrite Hp1, Hp2. cbn [lift]. rewrite !bind_ret_l, (join_sanitized _ _ _ Hp1). fold t. unfold bind at 1.
  rewrite (first_name dir t Hnb Hnil fs n c _ a) by done. cbn iota beta. rewrite bind_ret_l, (join_sanitized _ _ _ Hp2). fold t. unfold bind.
  erewrite (second_name dir t Hnb Hnil _ _ _ a b).
  - simpl. split; [done|]. rewrite lookup_insert_ne by apply Hnb. apply lookup_insert_eq.
  - done.
  - done.
  - simpl. rewrite lookup_insert_ne by apply Hnb. done.
  - intros He. apply blob_file_inj in He as [? _]; [|done..]. congruence.
  - apply lookup_insert_eq.
  - simpl. by rewrite has_dir_insert.
  - simpl. by rewrite in_the_way_insert.
Qed.

(** ** Concrete runs *)

Section Demo.
(** Instances that are quick to evaluate: one digest for all trees, and one metadata
    record for all blobs. *)
Definition staging_sha256 : Sha256 := fun _ => digest_of "c".
Definition staging_blob_codec : BlobMetadataCodec := {|
  blob_metadata_to_vec _ := [];
  blob_metadata_from_slice _ _ := Some {| canonical_digest := digest_of "a"; raw_size_bytes := 3;
                                          last_referenced_at := 1000; encoded_variants := ∅ |} |}.
Definition staging_tree_codec : TreeCodec := {|
  tree_manifest_to_vec _ := [];
  tree_metadata_to_vec _ := [];
  tree_metadata_from_slice _ _ := Some {| tm_canonical_digest := digest_of "c"; tm_raw_size_bytes := 0;
                                          tm_last_referenced_at := 1000; tm_encoded_variants := ∅ |} |}.
Definition staging_codec : RuntimeCodec := {|
  workorder_to_vec _ := []; parity_manifest_from_slice _ := None; distfile_manifest_from_slice _ := None |}.
#[local] Existing Instances staging_sha256 staging_blob_codec staging_tree_codec staging_codec.
#[local] Existing Instance zstd_reference.

#[local] Instance staging_sha256_laws : Sha256Laws.
Proof. intros b. vm_compute. done. Qed.

Definition entry_of (c : ascii) : SnapshotEntry := {| se_digest := digest_of c; se_size := 3; se_mtime_secs := 0 |}.
Definition staging_manifest : SnapshotManifest := {|
  sm_version := 1;
  sm_repo_snapshots := {[ "gentoo" := {| rsm_tree_digest := digest_of "c"; rsm_entries := {[ "a/b" := entry_of "a" ]} |} ]};
  sm_distfiles := {[ "foo.tar" := entry_of "a" ]} |}.
Definition staging_config : PortageConfig :=
  with_snapshots staging_manifest {[ "gentoo" := {[ "a/b" := digest_of "a" ]} ]} {[ "gentoo" := digest_of "c" ]}
    {[ "foo.tar" := digest_of "a" ]} Registry.demo_portage_config.
Definition staging_order : Workorder := with_portage_config staging_config (demo_order 1 7 Provisioning 10).
Definition staging_world (ft : list (option Fault)) : World := {|
  files := {[ blob_file demo_dir (digest_of "a") "" := demo_blob; blob_file demo_dir (digest_of "b") "" := [] ]};
  faults := ft; next_uuid := 0; clock := 2000 |}.

Lemma staging_confined_witness :
  files (snd (stage_workorder_runtime demo_dir staging_order (staging_world []))) !! ["etc"; "passwd"] = None.
Proof.
  rewrite (proj1 (staging_confined demo_dir staging_order (staging_world []) ["etc"; "passwd"])); [reflexivity|].
  intros [[q He]|[d [[_ [s He]]|[_ [s He]]]]]; discriminate He.
Defined.

Lemma staging_config_normal : normalized staging_config.
Proof.
  split; [done|done|..].
  1,2: intros x; rewrite !elem_of_dom; unfold staging_config; simpl; rewrite !lookup_singleton_is_Some; done.
  intros r repo. unfold staging_config. simpl. rewrite lookup_singleton_Some. intros [<- <-] _. vm_compute. done.
Qed.

Lemma staging_targets_demo :
  staging_targets demo_dir 1 staging_manifest =
    [(snapshots_dir demo_dir 1 ++ ["repos"; "gentoo"; "a"; "b"], digest_of "a");
     (snapshots_dir demo_dir 1 ++ ["distfiles"; "foo.tar"], digest_of "a")].
Proof. vm_compute. reflexivity. Qed.

Lemma stage_exposes_snapshot_witness :
  match stage_workorder_runtime demo_dir staging_order (staging_world []) with
  | (Ok st, w') =>
      (forall d, d ∈ blob_digests (swr_snapshot_references st) -> is_Some (files w' !! blob_file demo_dir d "")) /\
      files w' !! (snapshots_dir demo_dir 1 ++ ["repos"; "gentoo"; "a"; "b"]) = files w' !! blob_file demo_dir (digest_of "a") "" /\
      files w' !! (snapshots_dir demo_dir 1 ++ ["distfiles"; "foo.tar"]) = files w' !! blob_file demo_dir (digest_of "a") ""
  | (Err _, _) => False
  end.
Proof.
  destruct (stage_workorder_runtime demo_dir staging_order (staging_world [])) as [[st|e] w'] eqn:E.
  - destruct (stage_exposes_snapshot demo_dir staging_order (staging_world []) st w' staging_config_normal E) as (_ & _ & Hblobs & Hfiles).
    split; [exact Hblobs|]. change (staging_targets demo_dir (wo_id staging_order) _) with (staging_targets demo_dir 1 staging_manifest) in Hfiles.
    rewrite staging_targets_demo in Hfiles.
    assert (Hnd : NoDup [snapshots_dir demo_dir 1 ++ ["repos"; "gentoo"; "a"; "b"]; snapshots_dir demo_dir 1 ++ ["distfiles"; "foo.tar"]])
      by (apply (bool_decide_unpack _); vm_compute; reflexivity). specialize (Hfiles Hnd).
    split.
    + destruct (Hfiles _ _ (list_elem_of_here _ _)) as (c & H1 & H2). by rewrite H1, H2.
    + destruct (Hfiles _ _ (list_elem_of_further _ _ _ (list_elem_of_here _ _))) as (c & H1 & H2). by rewrite H1, H2.
  - apply (f_equal (fun x => is_ok (fst x))) in E. vm_compute in E. discriminate E.
Defined.

Lemma normalize_idempotent_witness :
  match normalize_portage_config_snapshots demo_dir staging_config (staging_world []) with
  | (Ok cfg, w') =>
      let '(r, v') := normalize_portage_config_snapshots demo_dir cfg w' in
      (forall cfg', r = Ok cfg' -> cfg' = cfg) /\ forall p, ~ in_trees demo_dir p -> files v' !! p = files w' !! p
  | (Err _, _) => False
  end.
Proof.
  destruct (normalize_portage_config_snapshots demo_dir staging_config (staging_world [])) as [[cfg|e] w'] eqn:E.
  - apply (normalize_idempotent demo_dir staging_config (staging_world []) cfg w' w'); [|exact E].
    intros r. simpl. by rewrite lookup_empty.
  - apply (f_equal (fun x => is_ok (fst x))) in E. vm_compute in E. discriminate E.
Defined.

(** ["a/b"] and ["a//b"] are two entries of a manifest and one file. *)
Lemma colliding_names_overwrite_blob_witness :
  let w := staging_world [None; None; None; None; Some {| fault_error := EOPNOTSUPP; fault_written := None |}] in
  let base := runtime_dir demo_dir 1 ++ ["snapshots"; "repos"; "gentoo"] in
  let '(r, w') := fold_io (stage_repo_entry demo_dir base) [("a/b", entry_of "a"); ("a//b", entry_of "b")] ∅ w in
  is_ok r = true /\ files w' !! blob_file demo_dir (digest_of "a") "" = Some [].
Proof.
  apply (colliding_names_overwrite_blob demo_dir (runtime_dir demo_dir 1 ++ ["snapshots"; "repos"; "gentoo"])
    "a/b" "a//b" ["a"; "b"] (entry_of "a") (entry_of "b") _ demo_blob []); try (vm_compute; done).
Defined.

(** The blob was last referenced over a month ago and the store is above its floor. *)
Definition old_world : World := {|
  files := {[ blob_file demo_dir (digest_of "a") "" := demo_blob;
              blob_file demo_dir (digest_of "a") ".meta.json" := [] ]};
  faults := []; next_uuid := 0; clock := 1000 + 31 * 24 * 3600 |}.
#[local] Existing Instance set_iter_reference.

(** A queued order can lose its snapshot: the server accepts an order whose
    blobs are all in the store, which neither marks them as used nor refreshes their
    last reference; a clean-up before the order is staged counts only staged orders
    as references, deletes the old blob, and staging the accepted order fails. *)
Theorem queued_order_loses_blob :
  let '(accepted, w1) := normalize_portage_config_snapshots demo_dir staging_config old_world in
  let '(summary, w2) := cleanup_snapshot_storage demo_dir cleanup_config [] w1 in
  let '(staged, w3) := stage_workorder_runtime demo_dir staging_order w2 in
  is_ok accepted = true /\ deleted_blobs <$> (ok_opt summary ≫= id) = Some 1 /\ is_ok staged = false.
Proof. vm_compute. done. Qed.

Lemma staged_order_survives_cleanup_witness :
  match stage_workorder_runtime demo_dir staging_order (staging_world []) with
  | (Ok st, w1) =>
      let w3 := snd (cleanup_snapshot_storage demo_dir cleanup_config [swr_snapshot_references st] w1) in
      forall p, under (runtime_dir demo_dir 1) p -> files w3 !! p = files w1 !! p
  | (Err _, _) => False
  end.
Proof.
  destruct (stage_workorder_runtime demo_dir staging_order (staging_world [])) as [[st|e] w'] eqn:E.
  - apply (staged_order_survives_cleanup demo_dir cleanup_config staging_order (staging_world []) st w'
      [swr_snapshot_references st] w' staging_config_normal E); [apply list_elem_of_singleton|]; reflexivity.
  - apply (f_equal (fun x => is_ok (fst x))) in E. vm_compute in E. discriminate E.
Defined.

(** The hypothesis of [normalize_idempotent] is needed: an inline snapshot with no
    files takes the place of the check of the manifest's blobs but leaves the
    manifest as it is, so an order whose blobs are missing is accepted. *)
Definition unchecked_config : PortageConfig :=
  let m := {| sm_version := 1;
              sm_repo_snapshots := {[ "gentoo" := {| rsm_tree_digest := ""; rsm_entries := {[ "a/b" := entry_of "d" ]} |} ]};
              sm_distfiles := ∅ |} in
  let c := Registry.demo_portage_config in {|
  pc_make_conf := pc_make_conf c; pc_package_use := []; pc_package_accept_keywords := []; pc_package_license := [];
  pc_package_mask := []; pc_package_unmask := []; pc_package_env := []; pc_env_files := ∅; pc_repos_conf := ∅;
  pc_snapshot_manifest := m; pc_repo_snapshots := {[ "gentoo" := ∅ ]}; pc_repo_snapshot_refs := ∅;
  pc_repo_snapshot_trees := ∅; pc_patches := ∅; pc_profile_overlay := ∅; pc_distfile_snapshots := ∅;
  pc_distfile_snapshot_refs := ∅; pc_profile := ""; pc_world := [] |}.

Theorem empty_inline_snapshot_skips_blob_check :
  let '(accepted, w1) := normalize_portage_config_snapshots demo_dir unchecked_config (staging_world []) in
  match accepted with
  | Ok cfg => is_ok (fst (normalize_portage_config_snapshots demo_dir cfg w1)) = false /\
              is_ok (fst (has_blob demo_dir (digest_of "d") w1)) = true /\
              fst (has_blob demo_dir (digest_of "d") w1) = Ok false
  | Err _ => False
  end.
Proof. vm_compute. done. Qed.
End Demo.
