(* ===== verification/Queue.v ===== *)
(** * Workorder queue and processing ([crates/server/src/queue.rs])

    The queue picks the oldest pending workorder, claims it and, when a worker slot
    is free, runs it through image preparation, staging, container start and
    completion.  What the outside does in each phase (Docker, staging, the worker's
    events, the ingestion of its output) is an argument of the phase.

    Every way for an order to end first sets its status and then reports: the two
    are separate definitions because other requests can come in between. *)

From S2P Require Import Prelude Types World BlobStore Auth Registry Config Metrics Persistence Repo Server.

Definition failed_packages_for_atoms (atoms : list string) (reason : string) : list FailedPackage :=
  map (fun atom => {| fpk_atom := atom; fpk_reason := reason; fpk_build_log := None |}) atoms.

Definition workorder_trace_id (w : Workorder) : option string := tc_trace_id <$> wo_trace_context w.

Definition build_progress (s : AppState) (w : Workorder) (event : BuildEvent) : BuildProgress := {|
  bp_workorder_id := wo_id w; bp_trace_id := workorder_trace_id w; bp_event := event;
  bp_timestamp := now_of s |}.

(** [tx.send(build_progress(..))]: the task holds its own sender, so this works
    after the channel was removed from the map. *)
Definition send (w : Workorder) (event : BuildEvent) (s : AppState) : AppState :=
  emit (Broadcast (build_progress s w event)) s.

Definition insert_result (id : WorkorderId) (r : WorkorderResult) (s : AppState) : AppState :=
  emit (ResultStored id) (set_results (<[id := r]> (results s)) s).

Section Queue.
Context `{StateCodec, HashIter, Sha256, SetIter}.

(** [set_workorder_status]; the order keeps whatever other fields it has in the
    map, [w] is the task's copy. *)
Definition set_workorder_status (cfg : ServerConfig) (w : Workorder) (new_status : WorkorderStatus)
    (s : AppState) : AppState :=
  match workorders s !! wo_id w with
  | None => s
  | Some o =>
      let old := wo_status o in
      let s := set_workorders (<[wo_id w := with_status new_status (now_of s) o]> (workorders s)) s in
      let s := send w (StatusChanged old new_status) s in
      on_disk (save_workorders (state_dir cfg) (workorders s)) s
  end.

(** [cleanup_workorder_runtime]; [removed] is whether Docker removed the container.
    The removal of the runtime directory and the snapshot clean-up it starts in the
    background do not touch this state. *)
Definition cleanup_workorder_runtime (w : Workorder) (container : option string) (removed : bool)
    (s : AppState) : AppState :=
  let id := wo_id w in
  let s := set_container_ids (delete id (container_ids s)) s in
  let s := clear_staged_workorder_references id s in
  let s := remove_workorder_channels id s in
  let s := set_clients (Registry.clear_active_workorder (clients s) (wo_client_id w)) s in
  let s := match container with Some c => emit (ContainerRemoved c) s | None => s end in
  count_metric (record_cleanup (match container with Some _ => removed | None => true end)) s.

(** ** The queue loop *)

Definition select_next (s : AppState) : option Workorder :=
  min_by_key wo_created_at
    (List.filter (fun w => bool_decide (wo_status w = Pending)) (map snd (hash_iter _ (workorders s)))).

(** Claim the selected order unless it is no longer pending, and announce it. *)
Definition claim (w : Workorder) (s : AppState) : bool * AppState :=
  match workorders s !! wo_id w with
  | Some o =>
      if bool_decide (wo_status o = Pending) then
        let s := set_workorders (<[wo_id w := with_status Provisioning (now_of s) o]> (workorders s)) s in
        let s := count_metric (fetch_sub queue_depth 1) s in
        (true, if bool_decide (wo_id w ∈ progress_txs s)
               then send w (StatusChanged Pending Provisioning) s else s)
      else (false, s)
  | None => (false, s)
  end.

(** ** Processing one workorder *)

(** The beginning of [process_workorder]: without a progress channel the order is
    skipped. *)
Definition begin_processing (w : Workorder) (s : AppState) : bool * AppState :=
  let s := count_metric (fetch_add builds_active 1) s in
  if bool_decide (wo_id w ∈ progress_txs s) then (true, s)
  else (false, count_metric (fetch_sub builds_active 1) s).

Definition failed_result (cfg : ServerConfig) (w : Workorder) (reason : string)
    (parity : ParityManifest) : WorkorderResult := {|
  wr_workorder_id := wo_id w; wr_built_packages := [];
  wr_failed_packages := failed_packages_for_atoms (wo_atoms w) reason;
  wr_binhost_uri := binhost_url cfg; wr_fetched_distfiles := ∅; wr_parity_manifest := parity |}.

(** The counters every finished build updates. *)
Definition count_build (elapsed : Z) (s : AppState) : AppState :=
  count_metric (fetch_sub builds_active 1) (count_metric (fetch_add builds_total_duration_secs elapsed) s).

(** *** The end of an order *)

(** A package reported only by the worker's events. *)
Definition package_from_event (atom : string) : BuiltPackage :=
  {| bpk_atom := atom; bpk_binpkg_path := atom +:+ ".gpkg.tar"; bpk_sha256 := ""; bpk_size := 0 |}.

(** [atom.trim_start_matches(|c| ">=<~!".contains(c))] *)
Definition is_operator_char (c : ascii) : bool := existsb (Ascii.eqb c) (chars ">=<~!").
Definition strip_operators (atom : string) : string := of_chars (drop_while is_operator_char (chars atom)).

Definition matches_order (w : Workorder) (built : list string) (m : PackageMeta) : bool :=
  let scanned_base := extract_package_base (cpv m) in
  existsb (fun a => bool_decide (extract_package_base (strip_operators a) = scanned_base)) (wo_atoms w) ||
  existsb (fun a => bool_decide (extract_package_base a = scanned_base)) built.

Definition built_package_of (m : PackageMeta) : BuiltPackage :=
  {| bpk_atom := cpv m; bpk_binpkg_path := relative_path m; bpk_sha256 := pkg_sha256 m; bpk_size := pkg_size m |}.

Definition built_packages_of (w : Workorder) (built : list string) (scan : Result (list PackageMeta) Error) :
    list BuiltPackage :=
  let scanned :=
    match scan with
    | Ok metas => map built_package_of (List.filter (matches_order w built) metas)
    | Err _ => map package_from_event built
    end in
  match scanned with [] => map package_from_event built | _ => scanned end.

(** How an order ends: before its container runs (three branches), while the
    worker's output is ingested (two branches), or with what the container left. *)
Inductive Report :=
| FailedEarly (reason : string)
| FailedIngest (container reason : string) (parity : ParityManifest)
| Ran (container : string) (wait : Result Z string) (built : list string) (failed : list FailedPackage)
    (distfiles : gmap string SnapshotEntry) (parity : ParityManifest).

Definition failure_reason (wait : Result Z string) : string :=
  match wait with
  | Ok exit_code => "Worker exited with code " +:+ pretty exit_code
  | Err reason => reason
  end.

Definition report_status (r : Report) : WorkorderStatus :=
  match r with
  | FailedEarly reason | FailedIngest _ reason _ => Failed reason
  | Ran _ (Ok 0) _ _ _ _ => Completed
  | Ran _ wait _ _ _ _ => Failed (failure_reason wait)
  end.

(** The success branch: scan the repository, regenerate its index, store the
    result and announce it. *)
Definition report_completed (cfg : ServerConfig) (w : Workorder) (built : list string)
    (failed : list FailedPackage) (distfiles : gmap string SnapshotEntry) (parity : ParityManifest)
    (s : AppState) : AppState :=
  let '(scan, disk') := scan_packages (binpkg_dir cfg) (disk s) in
  let s := set_disk disk' s in
  let s := on_disk (regenerate_index (binpkg_dir cfg)) s in
  let built_packages := built_packages_of w built scan in
  let s := insert_result (wo_id w) {|
    wr_workorder_id := wo_id w; wr_built_packages := built_packages; wr_failed_packages := failed;
    wr_binhost_uri := binhost_url cfg; wr_fetched_distfiles := distfiles; wr_parity_manifest := parity |} s in
  let s := send w (Finished (map bpk_atom built_packages) (map fpk_atom failed)) s in
  count_metric (fetch_add workorders_completed 1) s.

(** The branch of a container that failed. *)
Definition report_failed (cfg : ServerConfig) (w : Workorder) (reason : string) (built : list string)
    (failed : list FailedPackage) (distfiles : gmap string SnapshotEntry) (parity : ParityManifest)
    (s : AppState) : AppState :=
  let built_packages := map package_from_event built in
  let failed_packages := match failed with
                         | [] => failed_packages_for_atoms (wo_atoms w) reason
                         | _ => failed
                         end in
  let s := insert_result (wo_id w) {|
    wr_workorder_id := wo_id w; wr_built_packages := built_packages; wr_failed_packages := failed_packages;
    wr_binhost_uri := binhost_url cfg; wr_fetched_distfiles := distfiles; wr_parity_manifest := parity |} s in
  let s := send w (Finished (map bpk_atom built_packages) (map fpk_atom failed_packages)) s in
  count_metric (fetch_add workorders_failed 1) s.

(** Everything after the final status is set; [removed] is whether Docker removed
    the container. *)
Definition report (cfg : ServerConfig) (w : Workorder) (elapsed : Z) (removed : bool) (r : Report)
    (s : AppState) : AppState :=
  match r with
  | FailedEarly reason =>
      let s := send w (Finished [] (wo_atoms w)) s in
      let s := insert_result (wo_id w) (failed_result cfg w reason ParityManifest_default) s in
      let s := count_build elapsed s in
      let s := count_metric (fetch_add workorders_failed 1) s in
      cleanup_workorder_runtime w None true s
  | FailedIngest container reason parity =>
      let s := insert_result (wo_id w) (failed_result cfg w reason parity) s in
      let s := send w (Finished [] (wo_atoms w)) s in
      let s := count_build elapsed s in
      let s := count_metric (fetch_add workorders_failed 1) s in
      cleanup_workorder_runtime w (Some container) removed s
  | Ran container wait built failed distfiles parity =>
      let s := match wait with
               | Ok 0 => report_completed cfg w built failed distfiles parity s
               | _ => report_failed cfg w (failure_reason wait) built failed distfiles parity s
               end in
      let s := count_build elapsed s in
      cleanup_workorder_runtime w (Some container) removed s
  end.

Definition conclude (cfg : ServerConfig) (w : Workorder) (elapsed : Z) (removed : bool) (r : Report)
    (s : AppState) : AppState :=
  report cfg w elapsed removed r (set_workorder_status cfg w (report_status r) s).

(** *** The phases *)

(** The image of a worker: already there, or built in so many seconds. *)
Inductive ImageOutcome := ImageReady | ImageBuilt (secs : Z) | ImageFailed (secs : Z) (error : string).

(** A phase either goes on or has decided how the order ends. *)
Definition prepare_image (cfg : ServerConfig) (w : Workorder) (tag : string) (o : ImageOutcome)
    (s : AppState) : option Report * AppState :=
  let s := match o with
           | ImageReady => s
           | ImageBuilt secs | ImageFailed secs _ => count_metric (record_worker_image_build secs) s
           end in
  match o with
  | ImageFailed _ e => (Some (FailedEarly ("Failed to build worker image: " +:+ e)), s)
  | _ =>
      let s := set_image_last_used (<[tag := now_of s]> (image_last_used s)) s in
      (None, set_workorder_status cfg w Building s)
  end.

Definition stage_runtime (w : Workorder) (o : Result SnapshotReferenceSet string)
    (s : AppState) : option Report * AppState :=
  match o with
  | Err e => (Some (FailedEarly ("Failed to stage worker runtime: " +:+ e)), s)
  | Ok refs =>
      let s := count_metric (record_snapshot_runtime_stage
        (u64_wrapping_add (total_blob_bytes refs) (total_tree_bytes refs))) s in
      (None, track_staged_workorder_references (wo_id w) refs s)
  end.

(** Starting the container. *)
Inductive Started := StartFailed (r : Report) | StartPanicked | StartedAs (container : string).

(** [StartPanicked] is [expect("raw_output_tx must exist ..")]. *)
Definition start_container (w : Workorder) (o : Result string string) (start_secs : Z) (s : AppState) :
    Started * AppState :=
  let s := count_metric (record_worker_container_start start_secs) s in
  match o with
  | Err e => (StartFailed (FailedEarly ("Failed to start worker: " +:+ e)), s)
  | Ok container =>
      let s := set_container_ids (<[wo_id w := container]> (container_ids s)) s in
      if bool_decide (wo_id w ∈ raw_output_txs s) then
        (StartedAs container, create_stdin_channel (wo_id w) s)
      else (StartPanicked, s)
  end.

(** Waiting for the container: [exit] is what Docker reports after [secs] seconds. *)
Definition wait_outcome (cfg : ServerConfig) (container : string) (exit : Result Z string) (secs : Z)
    (s : AppState) : Result Z string * AppState :=
  let reported := map_err (fun e => "Failed to wait for worker container: " +:+ e) exit in
  if build_timeout_secs cfg =? 0 then (reported, s)
  else if secs <=? build_timeout_secs cfg then (reported, s)
  else (Err ("Build exceeded configured timeout of " +:+ pretty (build_timeout_secs cfg) +:+ " seconds"),
        emit (ContainerStopped container) s).

(** A structured event of the worker. *)
Inductive WorkerEvent :=
| WorkerPackageBuilt (atom : string) (duration_secs : Z)
| WorkerPackageFailed (atom reason : string).

Fixpoint drain_events (w : Workorder) (events : list WorkerEvent) (built : list string)
    (failed : list FailedPackage) (s : AppState) : list string * list FailedPackage * AppState :=
  match events with
  | [] => (built, failed, s)
  | WorkerPackageBuilt atom secs :: rest =>
      let s := send w (PackageBuilt atom secs) s in
      let s := count_metric (record_package_build atom secs) s in
      drain_events w rest (built ++ [atom]) failed s
  | WorkerPackageFailed atom reason :: rest =>
      let s := send w (PackageFailed atom reason) s in
      drain_events w rest built (failed ++ [{| fpk_atom := atom; fpk_reason := reason; fpk_build_log := None |}]) s
  end.

(** What the outside did while the container ran and afterwards. *)
Record RunOutcome := {
  ro_exit : Result Z string;
  ro_wait_secs : Z;
  ro_events : list WorkerEvent;
  ro_parity : Result ParityManifest string;
  ro_distfiles : Result (gmap string SnapshotEntry) string;
}.

(** From the start of the container to the decision how the order ends. *)
Definition run_container (cfg : ServerConfig) (w : Workorder) (container : string) (o : RunOutcome)
    (s : AppState) : Report * AppState :=
  let '(wait, s) := wait_outcome cfg container (ro_exit o) (ro_wait_secs o) s in
  let s := set_raw_output_txs (raw_output_txs s ∖ {[wo_id w]}) s in
  let '(built, failed, s) := drain_events w (ro_events o) [] [] s in
  match ro_parity o with
  | Err e => (FailedIngest container ("Failed to ingest final-state parity: " +:+ e) ParityManifest_default, s)
  | Ok parity =>
  match ro_distfiles o with
  | Err e => (FailedIngest container ("Failed to ingest fetched distfiles: " +:+ e) parity, s)
  | Ok distfiles => (Ran container wait built failed distfiles parity, s)
  end end.

(** Everything the outside decides about one order. *)
Record Outcomes := {
  oc_tag : string;
  oc_image : ImageOutcome;
  oc_stage : Result SnapshotReferenceSet string;
  oc_container : Result string string;
  oc_start_secs : Z;
  oc_run : RunOutcome;
  oc_elapsed : Z;
  oc_removed : bool;
}.

(** All of [process_workorder] in one go: what it does when nothing else touches the
    state meanwhile.  [None] when the task panics. *)
Definition process_workorder (cfg : ServerConfig) (w : Workorder) (o : Outcomes) (s : AppState) :
    option AppState :=
  let conclude := conclude cfg w (oc_elapsed o) (oc_removed o) in
  let '(go, s) := begin_processing w s in
  if negb go then Some s else
  match prepare_image cfg w (oc_tag o) (oc_image o) s with
  | (Some r, s) => Some (conclude r s)
  | (None, s) =>
  match stage_runtime w (oc_stage o) s with
  | (Some r, s) => Some (conclude r s)
  | (None, s) =>
  match start_container w (oc_container o) (oc_start_secs o) s with
  | (StartPanicked, _) => None
  | (StartFailed r, s) => Some (conclude r s)
  | (StartedAs container, s) =>
      let '(r, s) := run_container cfg w container (oc_run o) s in
      Some (conclude r s)
  end end end.

End Queue.

(** ** The part of the state the scheduling properties are about *)

Record Core := {
  c_orders : gmap WorkorderId Workorder;
  c_results : gmap WorkorderId WorkorderResult;
  c_progress : gset WorkorderId;
  c_raw : gset WorkorderId;
  c_clients : Registry.ClientRegistry;
  c_free : Z;
  c_depth : Z;
  c_active : Z;
}.

Definition core (s : AppState) : Core := {|
  c_orders := workorders s; c_results := results s; c_progress := progress_txs s;
  c_raw := raw_output_txs s; c_clients := clients s; c_free := free_workers s;
  c_depth := counter (metrics s) queue_depth; c_active := counter (metrics s) builds_active |}.

Definition with_orders (m : gmap WorkorderId Workorder) (c : Core) : Core := {|
  c_orders := m; c_results := c_results c; c_progress := c_progress c; c_raw := c_raw c;
  c_clients := c_clients c; c_free := c_free c; c_depth := c_depth c; c_active := c_active c |}.
Definition with_raw (x : gset WorkorderId) (c : Core) : Core := {|
  c_orders := c_orders c; c_results := c_results c; c_progress := c_progress c; c_raw := x;
  c_clients := c_clients c; c_free := c_free c; c_depth := c_depth c; c_active := c_active c |}.
Definition with_active_builds (n : Z) (c : Core) : Core := {|
  c_orders := c_orders c; c_results := c_results c; c_progress := c_progress c; c_raw := c_raw c;
  c_clients := c_clients c; c_free := c_free c; c_depth := c_depth c; c_active := n |}.
Definition with_depth (n : Z) (c : Core) : Core := {|
  c_orders := c_orders c; c_results := c_results c; c_progress := c_progress c; c_raw := c_raw c;
  c_clients := c_clients c; c_free := c_free c; c_depth := n; c_active := c_active c |}.

(** What [report] does to the core, given the result it stores. *)
Definition reported (w : Workorder) (res : WorkorderResult) (c : Core) : Core := {|
  c_orders := c_orders c; c_results := <[wo_id w := res]> (c_results c);
  c_progress := c_progress c ∖ {[wo_id w]}; c_raw := c_raw c ∖ {[wo_id w]};
  c_clients := Registry.clear_active_workorder (c_clients c) (wo_client_id w);
  c_free := c_free c; c_depth := c_depth c; c_active := u64_wrapping_sub (c_active c) 1 |}.

Section QueueFacts.
Context `{StateCodec, HashIter, Sha256, SetIter}.

Lemma core_set_status cfg w st s :
  core (set_workorder_status cfg w st s) =
  with_orders (alter (with_status st (now_of s)) (wo_id w) (workorders s)) (core s).
Proof.
  unfold set_workorder_status. destruct (workorders s !! wo_id w) as [o|] eqn:E.
  - unfold core, with_orders, send, emit, on_disk. simpl. f_equal.
    apply map_eq. intros i. destruct (decide (i = wo_id w)) as [->|Hne].
    + by rewrite lookup_insert_eq, lookup_alter_eq, E.
    + by rewrite lookup_insert_ne, lookup_alter_ne.
  - unfold core, with_orders. simpl. f_equal. symmetry. by apply alter_id; intros; simplify_eq.
Qed.

Lemma core_claim w s :
  snd (claim w s) = s /\ fst (claim w s) = false /\
    (forall o, workorders s !! wo_id w = Some o -> wo_status o <> Pending) \/
  fst (claim w s) = true /\
  exists o, workorders s !! wo_id w = Some o /\ wo_status o = Pending /\
    core (snd (claim w s)) =
      with_depth (u64_wrapping_sub (counter (metrics s) queue_depth) 1)
        (with_orders (<[wo_id w := with_status Provisioning (now_of s) o]> (workorders s)) (core s)).
Proof.
  unfold claim. destruct (workorders s !! wo_id w) as [o|] eqn:E; [|by left].
  case_bool_decide as Hp; simpl; [|left; split_and!; [done..|by intros ? [= <-]]].
  right. split; [done|]. exists o. split_and!; [done..|]. by case_bool_decide.
Qed.

Lemma core_drain w evs built failed s :
  core (snd (drain_events w evs built failed s)) = core s.
Proof.
  revert built failed s. induction evs as [|[atom secs|atom reason] evs IH]; intros built failed s; simpl; [done|..];
    rewrite IH; [|done].
  unfold core, count_metric, send, emit, set_metrics; simpl. by rewrite !counter_record_package_build.
Qed.

Lemma core_stage w o s : core (snd (stage_runtime w o s)) = core s.
Proof. by destruct o. Qed.

Lemma core_start w o secs s : core (snd (start_container w o secs s)) = core s.
Proof. destruct o; simpl; [by case_bool_decide|done]. Qed.

Lemma core_image cfg w tag o s :
  match prepare_image cfg w tag o s with
  | (Some r, s') => core s' = core s
  | (None, s') => core s' = with_orders (alter (with_status Building (now_of s)) (wo_id w) (workorders s)) (core s)
  end.
Proof. destruct o; unfold prepare_image; try (by rewrite core_set_status); done. Qed.

Lemma core_wait cfg c e secs s : core (snd (wait_outcome cfg c e secs s)) = core s.
Proof. unfold wait_outcome. by repeat case_match. Qed.

Lemma core_run cfg w c o s :
  core (snd (run_container cfg w c o s)) = with_raw (raw_output_txs s ∖ {[wo_id w]}) (core s).
Proof.
  unfold run_container. pose proof (core_wait cfg c (ro_exit o) (ro_wait_secs o) s) as Hw.
  destruct (wait_outcome cfg c (ro_exit o) (ro_wait_secs o) s) as [wait s1]. simpl in Hw.
  pose proof (core_drain w (ro_events o) [] [] (set_raw_output_txs (raw_output_txs s1 ∖ {[wo_id w]}) s1)) as Hd.
  destruct (drain_events w (ro_events o) [] [] _) as [[built failed] s2]. simpl in Hd.
  change (raw_output_txs s) with (c_raw (core s)). rewrite <- Hw.
  destruct (ro_parity o); [destruct (ro_distfiles o)|]; exact Hd.
Qed.

Lemma core_report cfg w el rm r s :
  exists res, wr_workorder_id res = wo_id w /\ wr_binhost_uri res = binhost_url cfg /\
    (report_status r <> Completed -> wo_atoms w <> [] -> wr_failed_packages res <> []) /\
    core (report cfg w el rm r s) = reported w res (core s).
Proof.
  assert (Hf : forall reason parity, wo_atoms w <> [] ->
    wr_failed_packages (failed_result cfg w reason parity) <> []).
  { intros reason parity Ha. simpl. by destruct (wo_atoms w). }
  destruct r as [reason|c reason parity|c wait built failed distfiles parity]; simpl.
  - eexists (failed_result _ _ _ _). split_and!; eauto. 
  - eexists (failed_result _ _ _ _). split_and!; eauto. by destruct rm.
  - destruct wait as [[|p|p]|e].
    1: { unfold report_completed. destruct (scan_packages (binpkg_dir cfg) (disk s)) as [scan d].
         eexists. split_and!; [| | |by destruct rm]; done. }
    all: eexists; split_and!; [| | |by destruct rm]; [done|done|];
      intros _ Ha; simpl; destruct failed; [|done]; simpl; by destruct (wo_atoms w).
Qed.

Lemma core_begin w s :
  core (snd (begin_processing w s)) =
    (if fst (begin_processing w s) then with_active_builds (u64_wrapping_add (counter (metrics s) builds_active) 1) (core s)
     else with_active_builds (u64_wrapping_sub (u64_wrapping_add (counter (metrics s) builds_active) 1) 1) (core s)) /\
  fst (begin_processing w s) = bool_decide (wo_id w ∈ progress_txs s).
Proof. unfold begin_processing. simpl. by case_bool_decide. Qed.

(** ** Processing an order to its end *)

(** Everything the outside has to do right for an order to succeed. *)
Definition started (o : Outcomes) : Prop :=
  (forall secs e, oc_image o <> ImageFailed secs e) /\ is_ok (oc_stage o) = true /\ is_ok (oc_container o) = true.
Definition succeeds (cfg : ServerConfig) (o : Outcomes) : Prop :=
  started o /\ ro_exit (oc_run o) = Ok 0 /\
  (build_timeout_secs cfg = 0 \/ ro_wait_secs (oc_run o) <= build_timeout_secs cfg) /\
  is_ok (ro_parity (oc_run o)) = true /\ is_ok (ro_distfiles (oc_run o)) = true.

(** No runtime resource of the order is left. *)
Record cleaned (w : Workorder) (s : AppState) : Prop := {
  cleaned_progress : wo_id w ∉ progress_txs s;
  cleaned_raw : wo_id w ∉ raw_output_txs s;
  cleaned_stdin : wo_id w ∉ stdin_txs s;
  cleaned_container : container_ids s !! wo_id w = None;
  cleaned_staged : staged_workorder_references s !! wo_id w = None;
  cleaned_client : Registry.active_of (clients s) (wo_client_id w) = None;
}.

Lemma cleanup_cleans w c rm s : cleaned w (cleanup_workorder_runtime w c rm s).
Proof.
  assert (Hn : forall X : gset WorkorderId, wo_id w ∉ X ∖ {[wo_id w]}).
  { intros X Hin. apply elem_of_difference in Hin as [_ Hin]. by apply Hin, elem_of_singleton. }
  split; destruct c; simpl; rewrite ?lookup_delete_eq; try done; try apply Hn;
    apply Registry.active_of_clear.
Qed.

Lemma report_cleans cfg w el rm r s : cleaned w (report cfg w el rm r s).
Proof. destruct r; apply cleanup_cleans. Qed.

(** Effects that are neither a stored result nor the final announcement. *)
Definition is_finished (e : BuildEvent) : bool := match e with Finished _ _ => true | _ => false end.
Definition intermediate (e : Effect) : Prop :=
  match e with
  | Broadcast p => is_finished (bp_event p) = false
  | ResultStored _ => False
  | _ => True
  end.

(** What the phases before the end leave alone. *)
Record advances (w : Workorder) (s s' : AppState) : Prop := {
  adv_others : forall id, id <> wo_id w -> workorders s' !! id = workorders s !! id;
  adv_present : is_Some (workorders s !! wo_id w) -> is_Some (workorders s' !! wo_id w);
  adv_results : results s' = results s;
  adv_active : counter (metrics s') builds_active = counter (metrics s) builds_active;
  adv_trail : exists tr, trail s' = trail s ++ tr /\ Forall intermediate tr;
}.

Lemma advances_refl w s : advances w s s.
Proof. split; try done. exists []. by rewrite app_nil_r. Qed.

Lemma advances_trans w s1 s2 s3 : advances w s1 s2 -> advances w s2 s3 -> advances w s1 s3.
Proof.
  intros [A1 B1 C1 D1 (t1 & E1 & F1)] [A2 B2 C2 D2 (t2 & E2 & F2)].
  split; [|auto|congruence|congruence|].
  - intros id Hid. by rewrite A2, A1.
  - exists (t1 ++ t2). rewrite E2, E1, app_assoc. split; [done|]. by apply Forall_app.
Qed.

(** A step that keeps the core, by what it adds to the trail. *)
Lemma advances_core w s s' tr :
  workorders s' = workorders s -> results s' = results s ->
  counter (metrics s') builds_active = counter (metrics s) builds_active ->
  trail s' = trail s ++ tr -> Forall intermediate tr -> advances w s s'.
Proof. intros E1 E2 E3 Htr Hf. split; rewrite ?E1; eauto. Qed.

Lemma advances_status cfg w st s : advances w s (set_workorder_status cfg w st s).
Proof.
  pose proof (core_set_status cfg w st s) as Hc.
  split; [change (workorders (set_workorder_status cfg w st s)) with (c_orders (core (set_workorder_status cfg w st s)))..| | |].
  - intros id Hid. rewrite Hc. simpl. by rewrite lookup_alter_ne.
  - intros [o Ho]. rewrite Hc. simpl. rewrite lookup_alter_eq, Ho. eauto.
  - by apply (f_equal c_results) in Hc.
  - by apply (f_equal c_active) in Hc.
  - unfold set_workorder_status. destruct (workorders s !! wo_id w); [|exists []; by rewrite app_nil_r].
    eexists [_]. split; [done|]. by repeat constructor.
Qed.

Lemma advances_image cfg w tag o s s' : prepare_image cfg w tag o s = (None, s') -> advances w s s'.
Proof.
  unfold prepare_image. destruct o; intros; simplify_eq;
    (eapply advances_trans; [|apply advances_status]); apply (advances_core w _ _ []); by rewrite ?app_nil_r.
Qed.

Lemma advances_drain w evs built failed s : advances w s (snd (drain_events w evs built failed s)).
Proof.
  revert built failed s. induction evs as [|[atom secs|atom reason] evs IH]; intros built failed s; simpl.
  - apply advances_refl.
  - eapply advances_trans; [|apply IH]. eapply advances_core; [done|done| |done|by repeat constructor].
    simpl. by rewrite counter_record_package_build.
  - eapply advances_trans; [|apply IH]. eapply advances_core; [done|done|done|done|by repeat constructor].
Qed.

Lemma advances_run cfg w c o s : advances w s (snd (run_container cfg w c o s)).
Proof.
  unfold run_container. destruct (wait_outcome cfg c (ro_exit o) (ro_wait_secs o) s) as [wait s1] eqn:Ew.
  assert (A1 : advances w s s1).
  { unfold wait_outcome in Ew. repeat case_match; simplify_eq; try apply advances_refl.
    eapply advances_core; [done|done|done|done|by repeat constructor]. }
  set (s2 := set_raw_output_txs (raw_output_txs s1 ∖ {[wo_id w]}) s1).
  pose proof (advances_drain w (ro_events o) [] [] s2) as A2.
  destruct (drain_events w (ro_events o) [] [] s2) as [[built failed] s3].
  eapply advances_trans; [exact A1|]. apply (advances_trans _ _ s2).
  - apply (advances_core w _ _ []); by rewrite ?app_nil_r.
  - by destruct (ro_parity o); [destruct (ro_distfiles o)|].
Qed.

Lemma conclude_done cfg w el rm r s o :
  workorders s !! wo_id w = Some o ->
  let s' := conclude cfg w el rm r s in
  exists res o', workorders s' !! wo_id w = Some o' /\ wo_status o' = report_status r /\
    results s' !! wo_id w = Some res /\ wr_workorder_id res = wo_id w /\
    (report_status r <> Completed -> wo_atoms w <> [] -> wr_failed_packages res <> []) /\
    cleaned w s' /\
    (forall id, id <> wo_id w -> workorders s' !! id = workorders s !! id /\ results s' !! id = results s !! id) /\
    counter (metrics s') builds_active = u64_wrapping_sub (counter (metrics s) builds_active) 1.
Proof.
  intros Ho s'. set (s1 := set_workorder_status cfg w (report_status r) s).
  pose proof (core_set_status cfg w (report_status r) s) as Hc1. fold s1 in Hc1.
  destruct (core_report cfg w el rm r s1) as (res & Hid & _ & Hfail & Hc).
  exists res, (with_status (report_status r) (now_of s) o).
  change (workorders s') with (c_orders (core s')). change (results s') with (c_results (core s')).
  change (counter (metrics s') builds_active) with (c_active (core s')).
  unfold s', conclude. fold s1. rewrite Hc, Hc1. simpl. rewrite lookup_insert_eq, lookup_alter_eq, Ho.
  split_and!; try done; [apply report_cleans|].
  intros id Hne. by rewrite lookup_alter_ne, lookup_insert_ne.
Qed.

Lemma run_report_status cfg w c o s :
  report_status (fst (run_container cfg w c o s)) = Completed <->
  ro_exit o = Ok 0 /\ (build_timeout_secs cfg = 0 \/ ro_wait_secs o <= build_timeout_secs cfg) /\
  is_ok (ro_parity o) = true /\ is_ok (ro_distfiles o) = true.
Proof.
  unfold run_container. destruct (wait_outcome cfg c (ro_exit o) (ro_wait_secs o) s) as [wait s1] eqn:Ew.
  destruct (drain_events w (ro_events o) [] [] _) as [[built failed] s2].
  assert (Hw : wait = Ok 0 <-> ro_exit o = Ok 0 /\
    (build_timeout_secs cfg = 0 \/ ro_wait_secs o <= build_timeout_secs cfg)).
  { unfold wait_outcome in Ew. destruct (Z.eqb_spec (build_timeout_secs cfg) 0);
      [|destruct (Z.leb_spec (ro_wait_secs o) (build_timeout_secs cfg))]; simplify_eq;
      destruct (ro_exit o); simpl; split; intros; destruct_and?; simplify_eq; try done; try lia; eauto. }
  destruct (ro_parity o) as [parity|]; [destruct (ro_distfiles o) as [distfiles|]|]; simpl;
    [|split; [done|by intros (_ & _ & _ & [=])]|split; [done|by intros (_ & _ & [=] & _)]].
  assert (Hs : report_status (Ran c wait built failed distfiles parity) = Completed <-> wait = Ok 0)
    by (destruct wait as [[]|]; split; intros; simplify_eq/=; done).
  simpl in Hs. rewrite Hs, Hw. tauto.
Qed.

Lemma wrapping_add_sub n : 0 <= n < 2 ^ 64 -> u64_wrapping_sub (u64_wrapping_add n 1) 1 = n.
Proof.
  intros Hn. unfold u64_wrapping_sub, u64_wrapping_add. rewrite Zminus_mod_idemp_l.
  replace (n + 1 - 1) with n by lia. by apply Z.mod_small.
Qed.

Definition is_early (r : Report) : bool := match r with FailedEarly _ => true | _ => false end.

Lemma run_report_late cfg w c o s : is_early (fst (run_container cfg w c o s)) = false.
Proof.
  unfold run_container. destruct (wait_outcome _ _ _ _ _) as [wait s1].
  destruct (drain_events w (ro_events o) [] [] _) as [[built failed] s2]. by repeat case_match.
Qed.

(** The report an order gets, and the state it is made in. *)
Lemma process_concludes cfg w oc s :
  wo_id w ∈ progress_txs s -> wo_id w ∈ raw_output_txs s ->
  exists r s1, process_workorder cfg w oc s = Some (conclude cfg w (oc_elapsed oc) (oc_removed oc) r s1) /\
    (report_status r = Completed <-> succeeds cfg oc) /\ (is_early r = false <-> started oc) /\
    advances w (snd (begin_processing w s)) s1.
Proof.
  intros Hp Hr. unfold process_workorder, succeeds, started.
  destruct (core_begin w s) as [Hc0 Hg]. destruct (begin_processing w s) as [go s0].
  simpl in Hc0, Hg. rewrite bool_decide_true in Hg by done. subst go. simpl.
  assert (Hr0 : wo_id w ∈ c_raw (core s0)) by by rewrite Hc0. clear Hc0.
  pose proof (core_image cfg w (oc_tag oc) (oc_image oc) s0) as K1.
  destruct (prepare_image cfg w (oc_tag oc) (oc_image oc) s0) as [[r|] s1] eqn:E1.
  { unfold prepare_image in E1. destruct (oc_image oc) as [| |secs e] eqn:Ei; simplify_eq. eexists _, _.
    split; [done|]. simpl. split_and!; [split; [done|]; intros ((Hi & _) & _); by destruct (Hi secs e)| |].
    - split; [done|]. intros (Hi & _). by destruct (Hi secs e).
    - apply (advances_core w _ _ []); by rewrite ?app_nil_r. }
  assert (Hi : forall secs e, oc_image oc <> ImageFailed secs e) by (intros secs e He; by rewrite He in E1).
  apply advances_image in E1 as A1.
  assert (Hr1 : wo_id w ∈ c_raw (core s1)) by (rewrite K1; exact Hr0). clear K1 E1.
  unfold stage_runtime. destruct (oc_stage oc) as [refs|e]; cbv beta iota.
  2:{ eexists _, _. split; [done|]. split_and!; [split; [done|by intros ((_ & [=] & _) & _)]| |done].
      by split; [|intros (_ & [=] & _)]. }
  unfold start_container. destruct (oc_container oc) as [c|e].
  2:{ eexists _, _. split; [done|]. split_and!; [by split; [|intros ((_ & _ & [=]) & _)]| |].
      - by split; [|intros (_ & _ & [=])].
      - eapply advances_trans; [exact A1|]. apply (advances_core w _ _ []); by rewrite ?app_nil_r. }
  rewrite bool_decide_true by exact Hr1. set (s3 := create_stdin_channel (wo_id w) _) in *.
  pose proof (advances_run cfg w c (oc_run oc) s3) as A3. pose proof (run_report_status cfg w c (oc_run oc) s3) as K5.
  pose proof (run_report_late cfg w c (oc_run oc) s3) as K6.
  destruct (run_container cfg w c (oc_run oc) s3) as [r s4]. simpl in A3, K5, K6.
  eexists _, _. split; [done|]. split_and!; [rewrite K5; simpl; tauto|by rewrite K6; simpl; tauto|].
  eapply advances_trans; [exact A1|]. eapply advances_trans; [|exact A3].
  apply (advances_core w _ _ []); by rewrite ?app_nil_r.
Qed.


(** ** The order of storing and announcing *)

(** Whoever reacts to the final announcement of [id] finds the result stored. *)
Definition stored_before_finished (id : WorkorderId) (tr : list Effect) : Prop :=
  forall l1 p l2, tr = l1 ++ Broadcast p :: l2 -> is_finished (bp_event p) = true -> ResultStored id ∈ l1.

(** The last effects of an order. *)
Lemma report_trail cfg w el rm r s :
  exists p, is_finished (bp_event p) = true /\ bp_workorder_id p = wo_id w /\
    trail (report cfg w el rm r s) = trail s ++
      match r with
      | FailedEarly _ => [Broadcast p; ResultStored (wo_id w)]
      | FailedIngest c _ _ | Ran c _ _ _ _ _ => [ResultStored (wo_id w); Broadcast p; ContainerRemoved c]
      end.
Proof.
  destruct r as [reason|c reason parity|c wait built failed distfiles parity].
  1,2: eexists; split; [|split]; cycle 2; [simpl; by rewrite <- !app_assoc|done|done].
  destruct wait as [[|n|n]|e]; simpl.
  1: unfold report_completed; destruct (scan_packages (binpkg_dir cfg) (disk s)) as [scan d].
  all: eexists; split; [|split]; cycle 2; [simpl; by rewrite <- !app_assoc|done|done].
Qed.

Lemma intermediate_split (tr rest l1 l2 : list Effect) p :
  Forall intermediate tr -> tr ++ rest = l1 ++ Broadcast p :: l2 -> is_finished (bp_event p) = true ->
  exists l, l1 = tr ++ l /\ rest = l ++ Broadcast p :: l2.
Proof.
  intros Hf He Hp. apply app_eq_inv in He as [(k & -> & He)|(k & -> & ->)].
  - destruct k as [|e k]; simpl in He; simplify_eq; [exists []; by rewrite !app_nil_r|].
    apply Forall_app in Hf as [_ Hf]. inversion Hf as [|? ? He _]; subst. simpl in He. congruence.
  - by exists k.
Qed.

(** The final announcement comes after the result exactly when the container
    was started: for an order that ran, whoever receives [Finished] finds the
    result; for an order that failed before, [Finished] is broadcast first.  Either
    way the announcement is made. *)
Theorem finished_after_result_iff_started cfg w oc s :
  wo_id w ∈ progress_txs s -> wo_id w ∈ raw_output_txs s ->
  exists s' tr, process_workorder cfg w oc s = Some s' /\ trail s' = trail s ++ tr /\
    (exists p, Broadcast p ∈ tr /\ is_finished (bp_event p) = true /\ bp_workorder_id p = wo_id w) /\
    (stored_before_finished (wo_id w) tr <-> started oc).
Proof.
  intros Hp Hr. destruct (process_concludes cfg w oc s) as (r & s1 & -> & _ & Hs & Hadv); [done..|].
  assert (Ht0 : trail (snd (begin_processing w s)) = trail s).
  { unfold begin_processing. by case_bool_decide. }
  destruct Hadv as [_ _ _ _ (t1 & Ht1 & Hf1)].
  destruct (adv_trail _ _ _ (advances_status cfg w (report_status r) s1)) as (t2 & Ht2 & Hf2).
  unfold conclude.
  destruct (report_trail cfg w (oc_elapsed oc) (oc_removed oc) r (set_workorder_status cfg w (report_status r) s1))
    as (p & Hfin & Hid & Ht3).
  rewrite Ht2, Ht1, Ht0 in Ht3. rewrite <- !app_assoc in Ht3. rewrite (app_assoc t1 t2) in Ht3.
  assert (Hf : Forall intermediate (t1 ++ t2)) by by apply Forall_app. set (tr := t1 ++ t2) in *.
  eexists _, _. split_and!; [done|exact Ht3| |].
  - exists p. rewrite elem_of_app. split; [right|done]. destruct r; set_solver.
  - rewrite <- Hs. destruct r as [reason|c reason parity|c wait built failed distfiles parity]; simpl; split; try done.
    + intros Hst. specialize (Hst tr p [ResultStored (wo_id w)] eq_refl Hfin).
      rewrite Forall_forall in Hf. by specialize (Hf _ Hst).
    + intros _ l1 p' l2 He Hp'. destruct (intermediate_split _ _ _ _ _ Hf He Hp') as (l & -> & Hl).
      destruct l as [|e l]; simplify_eq/=. set_solver.
    + intros _ l1 p' l2 He Hp'. destruct (intermediate_split _ _ _ _ _ Hf He Hp') as (l & -> & Hl).
      destruct l as [|e l]; simplify_eq/=. set_solver.
Qed.

(** ** Selection *)

(** First come, first served: the order the queue selects is pending and no
    pending order was created before it; and if none is selected, none is pending. *)
Theorem select_next_oldest `{!HashIterLaws} s :
  match select_next s with
  | Some w => exists id, workorders s !! id = Some w /\ wo_status w = Pending /\
      (forall id' w', workorders s !! id' = Some w' -> wo_status w' = Pending -> wo_created_at w <= wo_created_at w')
  | None => forall id w, workorders s !! id = Some w -> wo_status w <> Pending
  end.
Proof.
  assert (Hin : forall w, w ∈ List.filter (fun w => bool_decide (wo_status w = Pending))
      (map snd (hash_iter Workorder (workorders s))) <->
      wo_status w = Pending /\ exists id, workorders s !! id = Some w).
  { intros w. rewrite list_elem_of_In, filter_In, bool_decide_eq_true, <- list_elem_of_In, list_elem_of_fmap.
    setoid_rewrite hash_iter_perm. split.
    - intros [([id w'] & -> & Hw) Hp]. apply elem_of_map_to_list in Hw. eauto.
    - intros [Hp [id Hw]]. split; [|done]. exists (id, w). by rewrite elem_of_map_to_list. }
  unfold select_next. destruct (min_by_key _ _) as [w|] eqn:E.
  - apply min_by_key_Some in E as [Hw Hmin]. apply Hin in Hw as [Hp [id Hw]]. exists id. split_and!; [done..|].
    intros id' w' Hw' Hp'. apply Hmin. apply Hin. eauto.
  - apply min_by_key_None in E. intros id w Hw Hp.
    assert (w ∈ []) as Hn; [|by apply elem_of_nil in Hn]. rewrite <- E. apply Hin. eauto.
Qed.

End QueueFacts.

(** ** Concrete runs *)

Definition demo_run (code : Z) : RunOutcome := {|
  ro_exit := Ok code; ro_wait_secs := 60; ro_events := [WorkerPackageBuilt "dev-libs/openssl-3.1" 55];
  ro_parity := Ok ParityManifest_default; ro_distfiles := Ok ∅ |}.
Definition demo_refs : SnapshotReferenceSet := {|
  blob_digests := ∅; tree_digests := ∅; total_blob_bytes := 0; total_tree_bytes := 0; refs_last_referenced_at := 0 |}.
Definition demo_outcomes : Outcomes := {|
  oc_tag := "remerge-worker:demo"; oc_image := ImageBuilt 300; oc_stage := Ok demo_refs; oc_container := Ok "c1";
  oc_start_secs := 2; oc_run := demo_run 0; oc_elapsed := 400; oc_removed := true |}.
Definition demo_claimed : Workorder := demo_order 1 7 Provisioning 10.
Definition demo_processing : AppState := demo_state {[1%N := demo_claimed]} ∅ demo_late.


Lemma finished_after_result_iff_started_witness :
  exists s' tr,
    @process_workorder state_codec_reference sha256_reference set_iter_reference ServerConfig_default
      demo_claimed demo_outcomes demo_processing = Some s' /\ trail s' = trail demo_processing ++ tr /\
    (exists p, Broadcast p ∈ tr /\ is_finished (bp_event p) = true /\ bp_workorder_id p = 1%N) /\
    (stored_before_finished 1%N tr <-> started demo_outcomes).
Proof.
  apply (@finished_after_result_iff_started state_codec_reference sha256_reference set_iter_reference
    ServerConfig_default demo_claimed demo_outcomes demo_processing).
  - apply elem_of_dom. eexists. reflexivity.
  - apply elem_of_dom. eexists. reflexivity.
Defined.

Lemma select_next_oldest_witness :
  let s := demo_state {[1%N := demo_order 1 7 Pending 20; 2%N := demo_order 2 8 Pending 10]} ∅ demo_late in
  exists id, workorders s !! id = Some (demo_order 2 8 Pending 10) /\ Pending = Pending /\
    (forall id' w', workorders s !! id' = Some w' -> wo_status w' = Pending -> 10 <= wo_created_at w').
Proof.
  exact (@select_next_oldest hash_iter_reference hash_iter_reference_laws
    (demo_state {[1%N := demo_order 1 7 Pending 20; 2%N := demo_order 2 8 Pending 10]} ∅ demo_late)).
Defined.
