(* ===== verification/LogStream.v ===== *)
(** * The log task of a build ([crates/server/src/queue.rs])

    The task [process_workorder] spawns for a running container reads its output,
    relays every chunk to the connected clients and turns complete lines into
    [WorkerEvent]s.  It sends them over a channel of 64 places that nobody reads
    before the container has ended, so a further send suspends the task.

    The regular expressions ([regex] crate) and the JSON of the worker's structured
    events are parameters.  What the task has sent is the [ro_events] of [Queue]. *)

From S2P Require Import Prelude Types Metrics Server Queue.

(** [Regex::new(pattern).captures(line)], as the groups of the match. *)
Class RegexLib := captures : string -> string -> option (nat -> option string).
(** [serde_json::from_str::<WorkerEvent>] *)
Class WorkerEventCodec := parse_worker_event : string -> option WorkerEvent.

(** ** [String::from_utf8_lossy] *)

Definition in_range (lo hi : Z) (b : option byte) : bool :=
  match b with Some b => (lo <=? byte_to_Z b) && (byte_to_Z b <=? hi) | None => false end.
Definition continuation : option byte -> bool := in_range 128 191.

(** The length of the character the bytes start with, or of the invalid sequence. *)
Definition utf8_width (l : bytes) : nat + nat :=
  let second lo hi n :=
    if negb (in_range lo hi (l !! 1%nat)) then inr 1%nat
    else if bool_decide (n = 2%nat) then inl 2%nat
    else if negb (continuation (l !! 2%nat)) then inr 2%nat
    else if bool_decide (n = 3%nat) then inl 3%nat
    else if negb (continuation (l !! 3%nat)) then inr 3%nat
    else inl 4%nat in
  let first := head l in
  if in_range 0 127 first then inl 1%nat
  else if in_range 194 223 first then second 128 191 2%nat
  else if in_range 224 224 first then second 160 191 3%nat
  else if in_range 237 237 first then second 128 159 3%nat
  else if in_range 225 239 first then second 128 191 3%nat
  else if in_range 240 240 first then second 144 191 4%nat
  else if in_range 241 243 first then second 128 191 4%nat
  else if in_range 244 244 first then second 128 143 4%nat
  else inr 1%nat.

Definition REPLACEMENT : bytes := [Byte.xef; Byte.xbf; Byte.xbd].

Fixpoint utf8_lossy (fuel : nat) (l : bytes) : bytes :=
  match fuel, l with
  | S fuel, _ :: _ =>
      match utf8_width l with
      | inl n => take n l ++ utf8_lossy fuel (drop n l)
      | inr n => REPLACEMENT ++ utf8_lossy fuel (drop n l)
      end
  | _, _ => []
  end.

Definition from_utf8_lossy (l : bytes) : string := String.string_of_list_byte (utf8_lossy (length l) l).

(** [s.trim_end_matches('\r')] *)
Definition CARRIAGE_RETURN : ascii := "013".
Definition trim_carriage_returns (s : string) : string :=
  of_chars (rev (drop_while (Ascii.eqb CARRIAGE_RETURN) (rev (chars s)))).

(** ** From lines to events *)

Definition quote : string := String "034" "".
Definition RE_EMERGING : string := ">>> Emerging \(\d+ of \d+\) (.+)::".
Definition RE_COMPLETED : string := ">>> Completed \(\d+ of \d+\) (.+)::".
Definition RE_ERROR : string := "\* ERROR: (.+)::(\S+) failed".
Definition RE_MISSING_DEP : string :=
  "emerge: there are no ebuilds to satisfy " +:+ quote +:+ "(.+?)" +:+ quote.
Definition RE_USE_CONFLICT : string := "The following USE changes are necessary".
Definition RE_FETCH_FAIL : string := "(?:Couldn't download|!!! Fetch failed)".

(** The package that is being built and when it began, in nanoseconds. *)
Definition CurrentPackage : Type := option (string * Z).

Section LogTask.
Context `{RegexLib, WorkerEventCodec}.

Definition is_match (pattern line : string) : bool := is_some (captures pattern line).

Definition package_or_unknown (current : CurrentPackage) : string := from_option fst "unknown" current.

Definition build_secs (t : Z) (atom : string) (current : CurrentPackage) : Z :=
  match current with
  | Some (pkg, start) => if bool_decide (pkg = atom) then (t - start) / 10 ^ 9 else 0
  | None => 0
  end.

(** The patterns of emerge's output, tried in this order. *)
Definition emerge_event (t : Z) (line : string) (current : CurrentPackage) :
    option WorkerEvent * CurrentPackage :=
  match captures RE_EMERGING line with
  | Some caps => (None, match caps 1%nat with Some atom => Some (atom, t) | None => current end)
  | None =>
  match captures RE_COMPLETED line with
  | Some caps =>
      match caps 1%nat with
      | Some atom => (Some (WorkerPackageBuilt atom (build_secs t atom current)), None)
      | None => (None, current)
      end
  | None =>
  match captures RE_ERROR line with
  | Some caps => ((fun atom => WorkerPackageFailed atom line) <$> caps 1%nat, current)
  | None =>
  match captures RE_MISSING_DEP line with
  | Some caps => ((fun dep => WorkerPackageFailed dep ("Missing dependency: " +:+ line)) <$> caps 1%nat, current)
  | None =>
  if is_match RE_USE_CONFLICT line then
    (Some (WorkerPackageFailed (package_or_unknown current) ("USE flag conflict: " +:+ line)), current)
  else if is_match RE_FETCH_FAIL line then
    (Some (WorkerPackageFailed (package_or_unknown current) ("Fetch failure: " +:+ line)), current)
  else (None, current)
  end end end end.

Definition line_event (t : Z) (line : string) (current : CurrentPackage) :
    option WorkerEvent * CurrentPackage :=
  match strip_prefix "REMERGE_EVENT:" line ≫= parse_worker_event with
  | Some event => (Some event, current)
  | None => emerge_event t line current
  end.

(** ** The task *)

Definition MAX_LINE_BUF : Z := 64 * 1024.
Definition EVENT_CHANNEL : nat := 64.

(** [handled] counts the lines; [blocked] is a send that waits for a place. *)
Record LogState := {
  line_buf : bytes;
  current_package : CurrentPackage;
  handled : nat;
  sent : list WorkerEvent;
  relayed : list bytes;
  blocked : bool;
}.

Definition log_start : LogState := {|
  line_buf := []; current_package := None; handled := 0; sent := []; relayed := []; blocked := false |}.

(** [event_tx.send(event).await] *)
Definition send_event (event : WorkerEvent) (st : LogState) : LogState :=
  let room := (length (sent st) <? EVENT_CHANNEL)%nat in {|
  line_buf := line_buf st; current_package := current_package st; handled := handled st;
  sent := if room then sent st ++ [event] else sent st; relayed := relayed st;
  blocked := negb room |}.

(** The time at which each line is looked at. *)
Context (clock_at : nat -> Z).

Definition is_newline (b : byte) : bool := bool_decide (b = Byte.x0a).
Fixpoint position_newline (l : bytes) : option nat :=
  match l with
  | [] => None
  | b :: r => if is_newline b then Some 0%nat else S <$> position_newline r
  end.

Definition decode_line (l : bytes) : string := trim_carriage_returns (from_utf8_lossy l).

(** One line, which is taken out of the buffer first. *)
Definition handle_line (n : nat) (st : LogState) : LogState :=
  let line := decode_line (take n (line_buf st)) in
  let '(event, current) := line_event (clock_at (handled st)) line (current_package st) in
  let st := {| line_buf := drop (S n) (line_buf st); current_package := current; handled := S (handled st);
               sent := sent st; relayed := relayed st; blocked := blocked st |} in
  match event with Some e => send_event e st | None => st end.

(** [while let Some(newline_pos) = ..]; each turn shortens the buffer. *)
Fixpoint process_lines (fuel : nat) (st : LogState) : LogState :=
  match fuel with
  | O => st
  | S fuel =>
      if blocked st then st else
      match position_newline (line_buf st) with
      | Some n => process_lines fuel (handle_line n st)
      | None => st
      end
  end.

Definition cap_buf (buf : bytes) : bytes :=
  if MAX_LINE_BUF <? blen buf then drop (Z.to_nat (blen buf - MAX_LINE_BUF)) buf else buf.

(** One chunk of output.  A suspended task takes no further chunk. *)
Definition on_output (st : LogState) (raw : bytes) : LogState :=
  if blocked st then st else
  let buf := cap_buf (line_buf st ++ raw) in
  process_lines (length buf)
    {| line_buf := buf; current_package := current_package st; handled := handled st; sent := sent st;
       relayed := relayed st ++ [raw]; blocked := false |}.

(** All of the task: an error of the stream or of attaching to the container ends
    the chunks. *)
Definition log_task (chunks : list bytes) : LogState := fold_left on_output chunks log_start.

(** ** What the task should do *)

(** The complete lines of the output and what follows the last newline. *)
Fixpoint split_lines (l : bytes) : list bytes * bytes :=
  match l with
  | [] => ([], [])
  | b :: r =>
      let '(ls, rest) := split_lines r in
      if is_newline b then ([] :: ls, rest)
      else match ls with [] => ([], b :: rest) | x :: ls => ((b :: x) :: ls, rest) end
  end.

(** The events of the lines, from line number [i] on. *)
Fixpoint line_events (i : nat) (current : CurrentPackage) (ls : list bytes) :
    list WorkerEvent * CurrentPackage :=
  match ls with
  | [] => ([], current)
  | l :: ls =>
      let '(event, current) := line_event (clock_at i) (decode_line l) current in
      let '(events, current) := line_events (S i) current ls in
      (option_list event ++ events, current)
  end.

Definition events_of (output : bytes) : list WorkerEvent :=
  fst (line_events 0 None (fst (split_lines output))).

(** Every chunk fits into the buffer after the unfinished line before it. *)
Fixpoint fits (buf : bytes) (chunks : list bytes) : bool :=
  match chunks with
  | [] => true
  | c :: cs => (blen (buf ++ c) <=? MAX_LINE_BUF) && fits (snd (split_lines (buf ++ c))) cs
  end.

(** ** Proofs *)

Lemma position_newline_Some l n :
  position_newline l = Some n ->
  (n < length l)%nat /\
  split_lines l = (take n l :: fst (split_lines (drop (S n) l)), snd (split_lines (drop (S n) l))).
Proof.
  revert n. induction l as [|b r IH]; intros n; simpl; [done|].
  destruct (is_newline b).
  - intros [= <-]. split; [lia|]. rewrite drop_0. by destruct (split_lines r).
  - destruct (position_newline r) as [m|]; simpl; [|done]. intros [= <-].
    destruct (IH m eq_refl) as [Hm ->]. split; [lia|done].
Qed.

Lemma position_newline_None l : position_newline l = None -> split_lines l = ([], l).
Proof.
  induction l as [|b r IH]; simpl; [done|]. destruct (is_newline b); [done|].
  destruct (position_newline r); simpl; [done|]. intros _. by rewrite IH.
Qed.

(** Lines can be split off chunk by chunk. *)
Lemma split_lines_app a c :
  split_lines (a ++ c) =
  (fst (split_lines a) ++ fst (split_lines (snd (split_lines a) ++ c)), snd (split_lines (snd (split_lines a) ++ c))).
Proof.
  induction a as [|b a IH]; simpl; [by destruct (split_lines c)|].
  rewrite IH. destruct (split_lines a) as [ls rest]. simpl.
  destruct (is_newline b) eqn:Eb; simpl; [done|].
  destruct ls as [|l ls]; simpl; [|done]. rewrite Eb.
  by destruct (split_lines (rest ++ c)) as [[|l' ls'] rest'].
Qed.

Lemma line_events_app i cur ls ls' :
  fst (line_events i cur (ls ++ ls')) =
  fst (line_events i cur ls) ++ fst (line_events (i + length ls) (snd (line_events i cur ls)) ls').
Proof.
  revert i cur. induction ls as [|l ls IH]; intros i cur; simpl; [by rewrite Nat.add_0_r|].
  destruct (line_event (clock_at i) (decode_line l) cur) as [ev cur1].
  specialize (IH (S i) cur1). rewrite Nat.add_succ_r.
  destruct (line_events (S i) cur1 (ls ++ ls')) as [x1 y1], (line_events (S i) cur1 ls) as [x2 y2]. simpl in *.
  by rewrite IH, app_assoc.
Qed.

(** The state the task is in after the lines of its buffer, if the channel takes
    all their events. *)
Definition advanced (st : LogState) : LogState :=
  let '(ls, rest) := split_lines (line_buf st) in
  let '(events, current) := line_events (handled st) (current_package st) ls in
  {| line_buf := rest; current_package := current; handled := handled st + length ls;
     sent := sent st ++ events; relayed := relayed st; blocked := false |}.

(** Everything the task would have sent by then. *)
Definition due (st : LogState) : list WorkerEvent := sent (advanced st).

Definition full (st : LogState) (st' : LogState) : Prop :=
  blocked st' = true /\ sent st' = take EVENT_CHANNEL (due st) /\ relayed st' = relayed st.

Lemma handle_line_spec n st :
  blocked st = false -> (length (sent st) <= EVENT_CHANNEL)%nat -> position_newline (line_buf st) = Some n ->
  (length (line_buf (handle_line n st)) < length (line_buf st))%nat /\
  (blocked (handle_line n st) = false /\ (length (sent (handle_line n st)) <= EVENT_CHANNEL)%nat /\
     relayed (handle_line n st) = relayed st /\ advanced (handle_line n st) = advanced st \/
   (EVENT_CHANNEL < length (due st))%nat /\ full st (handle_line n st)).
Proof.
  intros Hb Hlen Hp. apply position_newline_Some in Hp as [Hn Hs].
  unfold full, due, advanced. rewrite Hs. simpl. unfold handle_line.
  destruct (line_event (clock_at (handled st)) (decode_line (take n (line_buf st))) (current_package st))
    as [ev cur] eqn:El. simpl.
  destruct (split_lines (drop (S n) (line_buf st))) as [ls rest] eqn:Er. simpl.
  destruct (line_events (S (handled st)) cur ls) as [evs cur'] eqn:Ee.
  destruct ev as [e|]; cbn -[drop take EVENT_CHANNEL Nat.ltb].
  - destruct (Nat.ltb_spec (length (sent st)) EVENT_CHANNEL) as [Hlt|Hge]; cbn -[drop take EVENT_CHANNEL Nat.ltb].
    + split; [rewrite length_drop; lia|]. left. rewrite Er, Ee, length_app. simpl.
      split_and!; [done|lia|done|]. f_equal; [lia|]. by rewrite <- app_assoc.
    + split; [rewrite length_drop; lia|]. right. assert (length (sent st) = EVENT_CHANNEL) as Heq by lia.
      rewrite !length_app. simpl. split_and!; [lia|done| |done]. by rewrite <- Heq, take_app_length.
  - split; [rewrite length_drop; lia|]. left. rewrite Er, Ee. split_and!; [done..|]. f_equal. lia.
Qed.

Lemma process_lines_spec fuel st :
  blocked st = false -> (length (sent st) <= EVENT_CHANNEL)%nat -> (length (line_buf st) <= fuel)%nat ->
  if decide (length (due st) <= EVENT_CHANNEL)%nat then process_lines fuel st = advanced st
  else full st (process_lines fuel st).
Proof.
  revert st. induction fuel as [|fuel IH]; intros st Hb Hlen Hf; cbn [process_lines].
  - assert (line_buf st = []) as Hnil by (apply nil_length_inv; lia).
    unfold due, advanced. rewrite Hnil. simpl. rewrite !app_nil_r, decide_True by done.
    destruct st; simpl in *; subst. by rewrite Nat.add_0_r.
  - rewrite Hb. destruct (position_newline (line_buf st)) as [n|] eqn:Hp.
    + destruct (handle_line_spec n st Hb Hlen Hp) as [Hl [(Hb' & Hlen' & Hr & Ha)|[Hlong Hfull]]].
      * specialize (IH _ Hb' Hlen' ltac:(lia)). unfold full, due in *. by rewrite Ha, Hr in IH.
      * rewrite decide_False by lia. replace (process_lines fuel _) with (handle_line n st); [done|].
        destruct fuel; [done|]. simpl. by destruct Hfull as [-> _].
    + apply position_newline_None in Hp. unfold due, advanced. rewrite Hp. simpl.
      rewrite !app_nil_r, decide_True by done. destruct st; simpl in *; subst. by rewrite Nat.add_0_r.
Qed.

(** The task with a chunk in its buffer. *)
Definition fed (st : LogState) (raw : bytes) : LogState := {|
  line_buf := line_buf st ++ raw; current_package := current_package st; handled := handled st;
  sent := sent st; relayed := relayed st ++ [raw]; blocked := false |}.

(** The task waits for output: the channel has not overflowed, and the buffer
    holds no complete line. *)
Definition ready (st : LogState) : Prop :=
  blocked st = false /\ (length (sent st) <= EVENT_CHANNEL)%nat /\ split_lines (line_buf st) = ([], line_buf st).

Lemma on_output_spec st c :
  ready st -> blen (line_buf st ++ c) <= MAX_LINE_BUF ->
  if decide (length (due (fed st c)) <= EVENT_CHANNEL)%nat then on_output st c = advanced (fed st c)
  else full (fed st c) (on_output st c).
Proof.
  intros (Hb & Hlen & _) Hcap. unfold on_output. rewrite Hb. unfold cap_buf.
  destruct (Z.ltb_spec MAX_LINE_BUF (blen (line_buf st ++ c))); [lia|].
  by apply (process_lines_spec _ (fed st c)).
Qed.

Lemma blocked_stays cs st : blocked st = true -> fold_left on_output cs st = st.
Proof. intros Hb. induction cs as [|c cs IH]; simpl; [done|]. unfold on_output at 2. by rewrite Hb. Qed.

(** What is due when the rest of the output is [cs]. *)
Lemma due_advanced st c out :
  due (fed (advanced (fed st c)) out) = due (fed st (c ++ out)).
Proof.
  unfold due, advanced, fed; simpl. rewrite app_assoc, (split_lines_app (line_buf st ++ c) out).
  destruct (split_lines (line_buf st ++ c)) as [ls rest]. simpl.
  destruct (line_events (handled st) (current_package st) ls) as [evs cur] eqn:Ee. simpl.
  destruct (split_lines (rest ++ out)) as [ls' rest']. simpl.
  pose proof (line_events_app (handled st) (current_package st) ls ls') as Happ. rewrite Ee in Happ. simpl in Happ.
  destruct (line_events (handled st) (current_package st) (ls ++ ls')).
  destruct (line_events (handled st + length ls) cur ls'). simpl in *. subst. by rewrite app_assoc.
Qed.

Lemma due_grows st c out : exists more, due (fed st (c ++ out)) = due (fed st c) ++ more.
Proof.
  rewrite <- due_advanced. unfold due at 1. unfold advanced at 1.
  destruct (split_lines (line_buf (fed (advanced (fed st c)) out))) as [ls rest].
  destruct (line_events _ _ ls) as [evs cur]. by exists evs.
Qed.

Lemma split_lines_rest l : split_lines (snd (split_lines l)) = ([], snd (split_lines l)).
Proof.
  induction l as [|b r IH]; simpl; [done|]. destruct (split_lines r) as [ls rest]. simpl in IH.
  destruct (is_newline b) eqn:Eb; simpl; [done|]. destruct ls; simpl; [|done]. by rewrite IH, Eb.
Qed.

Lemma advanced_ready st : (length (due st) <= EVENT_CHANNEL)%nat -> ready (advanced st).
Proof.
  unfold ready, due, advanced. pose proof (split_lines_rest (line_buf st)) as Hrest.
  destruct (split_lines (line_buf st)) as [ls rest]. by destruct (line_events _ _ ls).
Qed.

Lemma relayed_advanced st : relayed (advanced st) = relayed st.
Proof. unfold advanced. destruct (split_lines _) as [ls rest]. by destruct (line_events _ _ ls). Qed.

Lemma fits_advanced st c cs :
  fits (line_buf st) (c :: cs) = true ->
  blen (line_buf st ++ c) <= MAX_LINE_BUF /\ fits (line_buf (advanced (fed st c))) cs = true.
Proof.
  cbn [fits]. intros [H1%Z.leb_le H2]%andb_true_iff. split; [done|].
  unfold advanced, fed; simpl. destruct (split_lines (line_buf st ++ c)) as [ls rest].
  by destruct (line_events _ _ ls).
Qed.

Lemma relayed_process_lines fuel st : relayed (process_lines fuel st) = relayed st.
Proof.
  revert st. induction fuel as [|fuel IH]; intros st; simpl; [done|]. destruct (blocked st); [done|].
  destruct (position_newline (line_buf st)) as [n|]; [|done]. rewrite IH. unfold handle_line.
  by destruct (line_event _ _ _) as [[e|] cur].
Qed.

Lemma relayed_on_output st c : blocked st = false -> relayed (on_output st c) = relayed st ++ [c].
Proof. intros Hb. unfold on_output. rewrite Hb. apply relayed_process_lines. Qed.

(** As long as the channel has room the task relays every chunk and sends every
    event; when it overflows, it is suspended for good. *)
Lemma log_task_from st chunks :
  ready st -> fits (line_buf st) chunks = true ->
  let st' := fold_left on_output chunks st in
  let events := due (fed st (concat chunks)) in
  sent st' = take EVENT_CHANNEL events /\
  blocked st' = bool_decide (EVENT_CHANNEL < length events)%nat /\
  ((length events <= EVENT_CHANNEL)%nat -> relayed st' = relayed st ++ chunks /\ ready st').
Proof.
  revert st. induction chunks as [|c cs IH]; intros st Hr Hfit; simpl.
  - destruct Hr as (Hb & Hlen & Hrest). unfold due, advanced, fed. simpl.
    rewrite app_nil_r, Hrest. simpl. rewrite !app_nil_r.
    split_and!; [by rewrite take_ge|by rewrite Hb, bool_decide_false by lia|done].
  - destruct (fits_advanced _ _ _ Hfit) as [Hcap Hfit'].
    pose proof (on_output_spec st c Hr Hcap) as Hs. case_decide as Hroom.
    + rewrite Hs, <- due_advanced. destruct (IH _ (advanced_ready _ Hroom) Hfit') as (H1 & H2 & H3).
      split_and!; [done..|]. intros Hle. destruct (H3 Hle) as [-> ?]. split; [|done].
      rewrite relayed_advanced. simpl. by rewrite <- app_assoc.
    + destruct Hs as (Hb & Hsent & _). rewrite blocked_stays by done.
      destruct (due_grows st c (concat cs)) as [more ->]. rewrite length_app, take_app_le by lia.
      split_and!; [done| |lia]. by rewrite Hb, bool_decide_true by lia.
Qed.

Lemma ready_start : ready log_start.
Proof. unfold ready. simpl. split_and!; [done|lia|done]. Qed.

Lemma events_of_due output : due (fed log_start output) = events_of output.
Proof.
  unfold due, advanced, fed, events_of. simpl. destruct (split_lines output) as [ls rest]. simpl.
  by destruct (line_events 0 None ls).
Qed.

Lemma fits_prefix buf pre post : fits buf (pre ++ post) = true -> fits buf pre = true.
Proof.
  revert buf. induction pre as [|c pre IH]; intros buf; simpl; [done|].
  rewrite !andb_true_iff. intros [? ?]. eauto.
Qed.

(** C39.  If every chunk fits into the 64 KiB buffer, the log task finds exactly the
    events of the lines of the whole output, however it is cut into chunks; it
    delivers the first 64 of them, and up to there relays all output to the clients.
    The 65th event suspends the task: the chunk it is in is the last one the clients
    see. *)
Theorem log_task_events chunks :
  fits [] chunks = true ->
  let events := events_of (concat chunks) in
  sent (log_task chunks) = take EVENT_CHANNEL events /\
  blocked (log_task chunks) = bool_decide (EVENT_CHANNEL < length events)%nat /\
  ((length events <= EVENT_CHANNEL)%nat -> relayed (log_task chunks) = chunks) /\
  (forall pre c post, chunks = pre ++ c :: post ->
     (length (events_of (concat pre)) <= EVENT_CHANNEL < length (events_of (concat pre ++ c)))%nat ->
     relayed (log_task chunks) = pre ++ [c]).
Proof.
  intros Hfit. cbn zeta. rewrite <- events_of_due. unfold log_task.
  destruct (log_task_from _ _ ready_start Hfit) as (H1 & H2 & H3).
  split_and!; [done..|by intros Hle; apply H3|].
  intros pre c post -> [Hle Hlt]. rewrite <- events_of_due in Hle, Hlt.
  rewrite cons_middle, app_assoc in Hfit. pose proof (fits_prefix _ _ _ Hfit) as Hc.
  destruct (log_task_from _ _ ready_start (fits_prefix _ _ _ Hc)) as (_ & _ & Hpre).
  destruct (Hpre Hle) as [Hrel Hready].
  destruct (log_task_from _ _ ready_start Hc) as (_ & Hblk & _).
  rewrite concat_app in Hblk. simpl in Hblk. rewrite app_nil_r, bool_decide_true in Hblk by done.
  rewrite cons_middle, app_assoc, fold_left_app, blocked_stays by done.
  rewrite fold_left_app. simpl. rewrite relayed_on_output by apply Hready. by rewrite Hrel.
Qed.

End LogTask.

(** ** A concrete run

    A worker that reports seventy packages as structured events, one chunk each. *)

Definition regex_reference : RegexLib := fun _ _ => None.
Definition worker_event_reference : WorkerEventCodec := fun s => Some (WorkerPackageBuilt s 1).
Definition demo_output (n : nat) : list bytes :=
  map (fun i => String.list_byte_of_string ("REMERGE_EVENT:dev-libs/p" +:+ pretty i) ++ [Byte.x0d; Byte.x0a]) (seq 0 n).

Lemma log_task_events_witness :
  let run := log_task (H := regex_reference) (H0 := worker_event_reference) Z.of_nat (demo_output 70) in
  sent run = map (fun i => WorkerPackageBuilt ("dev-libs/p" +:+ pretty i) 1) (seq 0 64) /\
  blocked run = true /\ relayed run = take 65 (demo_output 70).
Proof.
  destruct (log_task_events (H := regex_reference) (H0 := worker_event_reference) Z.of_nat (demo_output 70))
    as (Hsent & Hblocked & _ & Hrelay); [vm_compute; reflexivity|].
  split_and!.
  - etransitivity; [exact Hsent|]. vm_compute. reflexivity.
  - etransitivity; [exact Hblocked|]. vm_compute. reflexivity.
  - etransitivity; [apply (Hrelay (take 64 (demo_output 70)) (default [] (demo_output 70 !! 64%nat))
      (drop 65 (demo_output 70)))|]; vm_compute; [reflexivity|split; lia|reflexivity].
Defined.
