(* ===== verification/Lifecycle.v ===== *)
(** * The running server as a state machine

    The requests ([api.rs]), the queue loop and the build tasks ([queue.rs]) and the
    eviction pass ([main.rs]) interleave.  A state is the server's state with the
    position of the queue loop and of every task; an event is one atomic step of
    one of them.  A task is cut at its waits (Docker, staging, the container) and
    between setting the final status and reporting; what the outside answers is part
    of the event.  Anything else that happens to the disk or the clock is [EWorld]. *)

From S2P Require Import Prelude Types World BlobStore Auth Registry Trace Config Metrics Persistence Repo Server Queue.

(** Where a task of [process_workorder] is. *)
Inductive Phase :=
| PBegin
| PImage
| PStage
| PStart
| PRunning (container : string)
| PConclude (r : Report)
| PReport (r : Report).

Record Task := { t_order : Workorder; t_phase : Phase }.

(** Where the loop of [process_queue] is: looking for work, with a selected order,
    or waiting for a worker slot for a claimed order. *)
Inductive QueueState := QIdle | QSelected (w : Workorder) | QClaimed (w : Workorder).

Record Sys := {
  app : AppState;
  queue : QueueState;
  tasks : list Task;
  panicked : nat;
}.

(** What the outside contributes to a step of a task. *)
Inductive TaskInput :=
| IBegin
| IImage (tag : string) (o : ImageOutcome)
| IStage (o : Result SnapshotReferenceSet string)
| IStart (o : Result string string) (secs : Z)
| IRun (o : RunOutcome)
| IConclude
| IReport (elapsed : Z) (removed : bool).

Inductive TaskEnd := Next (p : Phase) | Finish | Panic.

Section Machine.
Context `{ConfigHash, HttpLib, StateCodec, HashIter, Sha256, SetIter}.
Context (cfg : ServerConfig) (normalize : PortageConfig -> IO PortageConfig).

Definition task_step (t : Task) (i : TaskInput) (s : AppState) : option (TaskEnd * AppState) :=
  let w := t_order t in
  match t_phase t, i with
  | PBegin, IBegin =>
      let '(go, s) := begin_processing w s in Some (if go then Next PImage else Finish, s)
  | PImage, IImage tag o =>
      Some (match prepare_image cfg w tag o s with
            | (Some r, s) => (Next (PConclude r), s)
            | (None, s) => (Next PStage, s)
            end)
  | PStage, IStage o =>
      Some (match stage_runtime w o s with
            | (Some r, s) => (Next (PConclude r), s)
            | (None, s) => (Next PStart, s)
            end)
  | PStart, IStart o secs =>
      Some (match start_container w o secs s with
            | (StartFailed r, s) => (Next (PConclude r), s)
            | (StartPanicked, s) => (Panic, s)
            | (StartedAs c, s) => (Next (PRunning c), s)
            end)
  | PRunning c, IRun o =>
      let '(r, s) := run_container cfg w c o s in Some (Next (PConclude r), s)
  | PConclude r, IConclude => Some (Next (PReport r), set_workorder_status cfg w (report_status r) s)
  | PReport r, IReport elapsed removed => Some (Finish, report cfg w elapsed removed r s)
  | _, _ => None
  end.

Inductive Event :=
| ESubmit (headers : HeaderMap) (req : SubmitWorkorderRequest) (id : WorkorderId) (fresh : TraceContext)
| ECancel (headers : HeaderMap) (id : WorkorderId)
| EEvict
| EWorld (w : World)
| ESelect
| EClaim
| ESpawn
| ETask (n : nat) (i : TaskInput).

(** The orders that have been claimed, each with the phase its processing is in; the
    one that waits for a worker slot has not begun. *)
Definition waiting (q : QueueState) : list Task :=
  match q with QClaimed w => [{| t_order := w; t_phase := PBegin |}] | _ => [] end.
Definition holders (σ : Sys) : list Task := waiting (queue σ) ++ tasks σ.
Definition t_id (t : Task) : WorkorderId := wo_id (t_order t).
Definition selected (q : QueueState) : option Workorder := match q with QSelected w => Some w | _ => None end.

Definition with_app (s : AppState) (σ : Sys) : Sys :=
  {| app := s; queue := queue σ; tasks := tasks σ; panicked := panicked σ |}.
Definition with_queue (q : QueueState) (σ : Sys) : Sys :=
  {| app := app σ; queue := q; tasks := tasks σ; panicked := panicked σ |}.
Definition with_tasks (ts : list Task) (σ : Sys) : Sys :=
  {| app := app σ; queue := queue σ; tasks := ts; panicked := panicked σ |}.
Definition count_panic (σ : Sys) : Sys :=
  {| app := app σ; queue := queue σ; tasks := tasks σ; panicked := S (panicked σ) |}.

(** [drop(permit)] *)
Definition release (s : AppState) : AppState := set_free_workers (free_workers s + 1) s.

(** The new id is random: it is not in use. *)
Definition unused (σ : Sys) (id : WorkorderId) : bool :=
  negb (is_some (workorders (app σ) !! id)) && negb (is_some (results (app σ) !! id)) &&
  bool_decide (id ∉ map t_id (holders σ)) && bool_decide (wo_id <$> selected (queue σ) <> Some id).

Definition exec (e : Event) (σ : Sys) : option Sys :=
  let s := app σ in
  match e with
  | ESubmit headers req id fresh =>
      if unused σ id then Some (with_app (snd (submit_workorder cfg normalize s headers req id fresh)) σ) else None
  | ECancel headers id => Some (with_app (snd (cancel_workorder cfg s headers id)) σ)
  | EEvict => Some (with_app (after_eviction cfg s) σ)
  | EWorld w => Some (with_app (set_disk w s) σ)
  | ESelect =>
      match queue σ, select_next s with
      | QIdle, Some w => Some (with_queue (QSelected w) σ)
      | _, _ => None
      end
  | EClaim =>
      match queue σ with
      | QSelected w =>
          let '(claimed, s) := claim w s in
          Some (with_queue (if claimed then QClaimed w else QIdle) (with_app s σ))
      | _ => None
      end
  | ESpawn =>
      match queue σ with
      | QClaimed w =>
          if 0 <? free_workers s then
            Some (with_queue QIdle (with_tasks (tasks σ ++ [{| t_order := w; t_phase := PBegin |}])
                   (with_app (set_free_workers (free_workers s - 1) s) σ)))
          else None
      | _ => None
      end
  | ETask n i =>
      t ← tasks σ !! n;
      '(end_, s) ← task_step t i s;
      Some (match end_ with
            | Next p => with_tasks (<[n := {| t_order := t_order t; t_phase := p |}]> (tasks σ)) (with_app s σ)
            | Finish => with_tasks (delete n (tasks σ)) (with_app (release s) σ)
            | Panic => count_panic (with_tasks (delete n (tasks σ)) (with_app (release s) σ))
            end)
  end.

(** A run of the machine. *)
Fixpoint run (es : list Event) (σ : Sys) : option Sys :=
  match es with
  | [] => Some σ
  | e :: es => exec e σ ≫= run es
  end.

Definition boot (s : AppState) : Sys := {| app := s; queue := QIdle; tasks := []; panicked := 0 |}.

(** The states reached from [s0] by events that satisfy [P]. *)
Inductive reachable (P : Event -> Prop) (s0 : AppState) : Sys -> Prop :=
| reach_boot : reachable P s0 (boot s0)
| reach_step σ σ' e : reachable P s0 σ -> P e -> exec e σ = Some σ' -> reachable P s0 σ'.

Definition any_event (e : Event) : Prop := True.
Definition not_cancel (e : Event) : Prop := match e with ECancel _ _ => False | _ => True end.

End Machine.
