(* ===== verification/Invariants.v ===== *)
(** * Invariants of the running server

    What holds in every state the machine of [Lifecycle] reaches: who owns an order,
    which channels exist, that nothing gets stuck, that the counters are right, and
    that everything taken up comes to an end. *)

From S2P Require Import Prelude Types World BlobStore Auth Registry Trace Config Metrics Persistence Repo Server Queue Lifecycle.

(** ** Consistency of the orders with the tasks that hold them *)

(** The container has not run yet. *)
Definition early_phase (p : Phase) : bool :=
  match p with PBegin | PImage | PStage | PStart => true | _ => false end.
Definition reporting (p : Phase) : bool := match p with PReport _ => true | _ => false end.
(** The status the processing of an order ends with. *)
Definition has_result_status (st : WorkorderStatus) : bool :=
  match st with Completed | Failed _ => true | _ => false end.
Definition has_channels (c : Core) (id : WorkorderId) : Prop := id ∈ c_progress c /\ id ∈ c_raw c.

Section Consistency.
(** Finished orders whose result was lost in a restart. *)
Context (lost : WorkorderId -> Prop).

Definition has_result (c : Core) (id : WorkorderId) : Prop := is_Some (c_results c !! id) \/ lost id.

Record Consistent (c : Core) (hs : list Task) (sel : option Workorder) : Prop := {
  con_keys : forall id o, c_orders c !! id = Some o -> wo_id o = id;
  con_nodup : NoDup (map t_id hs);
  con_held : forall h o, h ∈ hs -> c_orders c !! t_id h = Some o ->
    wo_status o <> Pending /\ wo_client_id o = wo_client_id (t_order h);
  con_running : forall id o, c_orders c !! id = Some o -> is_in_flight (wo_status o) = true -> id ∈ map t_id hs;
  con_pending : forall id o, c_orders c !! id = Some o -> wo_status o = Pending -> has_channels c id;
  con_early : forall h, h ∈ hs -> early_phase (t_phase h) = true -> is_Some (c_orders c !! t_id h) ->
    has_channels c (t_id h);
  con_report : forall h o, h ∈ hs -> reporting (t_phase h) = true -> c_orders c !! t_id h = Some o ->
    is_terminal (wo_status o) = true;
  con_results : forall id o, c_orders c !! id = Some o -> has_result_status (wo_status o) = true ->
    has_result c id \/ exists h, h ∈ hs /\ t_id h = id /\ reporting (t_phase h) = true;
  con_selected : forall w o, sel = Some w -> c_orders c !! wo_id w = Some o -> wo_client_id o = wo_client_id w;
}.

Lemma consistent_perm c hs hs' sel : hs ≡ₚ hs' -> Consistent c hs sel -> Consistent c hs' sel.
Proof.
  intros Hp [K1 K2 K3 K4 K5 K6 K7 K8 K9]. split; [done|by rewrite <- Hp|..].
  - intros h o Hh. rewrite <- Hp in Hh. eauto.
  - intros id o Ho Hs. rewrite <- Hp. eauto.
  - done.
  - intros h Hh. rewrite <- Hp in Hh. eauto.
  - intros h o Hh. rewrite <- Hp in Hh. eauto.
  - intros id o Ho Hs. destruct (K8 id o Ho Hs) as [|(h & Hh & ?)]; [by left|right].
    exists h. by rewrite <- Hp.
  - done.
Qed.

(** Another holder has another id. *)
Lemma other_holder h rest h' : NoDup (map t_id (h :: rest)) -> h' ∈ rest -> t_id h' <> t_id h.
Proof.
  simpl. intros [Hn _]%NoDup_cons Hh' He. apply Hn. rewrite <- He. by apply list_elem_of_fmap_2.
Qed.

(** The fields consistency is about. *)
Definition same_orders (c c' : Core) : Prop :=
  c_orders c' = c_orders c /\ c_results c' = c_results c /\ c_progress c' = c_progress c /\ c_raw c' = c_raw c.

Lemma consistent_same c c' hs sel : same_orders c c' -> Consistent c hs sel -> Consistent c' hs sel.
Proof.
  intros (E1 & E2 & E3 & E4) [K1 K2 K3 K4 K5 K6 K7 K8 K9]. unfold has_channels, has_result in *.
  split; unfold has_channels, has_result; rewrite ?E1, ?E2, ?E3, ?E4; done.
Qed.

Lemma consistent_unselect c hs sel : Consistent c hs sel -> Consistent c hs None.
Proof. intros []. by split. Qed.

(** A pending order is not held. *)
Lemma pending_not_held c hs sel id o :
  Consistent c hs sel -> c_orders c !! id = Some o -> wo_status o = Pending -> id ∉ map t_id hs.
Proof.
  intros HC Ho Hp (h & -> & Hh)%list_elem_of_fmap. by destruct (con_held _ _ _ HC h o Hh Ho).
Qed.

(** The holder moves on without changing the order, and may close the raw channel
    once the container has run. *)
Lemma consistent_phase c c' h p rest sel :
  Consistent c (h :: rest) sel ->
  c_orders c' = c_orders c -> c_results c' = c_results c -> c_progress c' = c_progress c ->
  (c_raw c' = c_raw c \/ c_raw c' = c_raw c ∖ {[t_id h]} /\ early_phase p = false) ->
  (early_phase p = true -> early_phase (t_phase h) = true) ->
  reporting (t_phase h) = false -> reporting p = false ->
  Consistent c' ({| t_order := t_order h; t_phase := p |} :: rest) sel.
Proof.
  intros HC E1 E2 E3 E4 Hearly Hr Hr'. set (h' := {| t_order := t_order h; t_phase := p |}).
  assert (Hraw : forall id, id <> t_id h -> id ∈ c_raw c -> id ∈ c_raw c') by (destruct E4 as [->|[-> _]]; set_solver).
  destruct HC as [K1 K2 K3 K4 K5 K6 K7 K8 K9] eqn:HCeq. unfold has_result in *. split; unfold has_result; rewrite ?E1, ?E2; try done.
  - intros g o [->|Hg]%elem_of_cons; [apply (K3 h); by constructor|apply K3; by constructor].
  - intros id o Ho Hp. unfold has_channels. rewrite E3. destruct (K5 id o Ho Hp) as [Hp1 Hp2]. split; [done|].
    apply Hraw; [|done]. intros ->. destruct (K3 h o) as [Hn _]; [by constructor|done|done].
  - intros g [->|Hg]%elem_of_cons He Ho; unfold has_channels; rewrite E3.
    + destruct E4 as [->|[_ Hne]]; [|simpl in He; congruence]. apply (K6 h); [by constructor|by apply Hearly|done].
    + destruct (K6 g) as [Hc1 Hc2]; [by constructor|done|done|]. split; [done|].
      apply Hraw; [|done]. by eapply other_holder.
  - intros g o [->|Hg]%elem_of_cons Hrep Ho; [simpl in Hrep; congruence|]. eapply (K7 g); [by constructor|done|done].
  - intros id o Ho Hs. destruct (K8 id o Ho Hs) as [|(g & [->|Hg]%elem_of_cons & He & Hrep)]; [by left|congruence|].
    right. exists g. split; [by constructor|done].
Qed.

(** The holder gives the order its final status, or says that it is building. *)
Lemma consistent_status c h p rest sel st t :
  Consistent c (h :: rest) sel ->
  (st = Building /\ reporting p = false \/ has_result_status st = true /\ reporting p = true) ->
  (early_phase p = true -> early_phase (t_phase h) = true) -> reporting (t_phase h) = false ->
  Consistent (with_orders (alter (with_status st t) (t_id h) (c_orders c)) c)
    ({| t_order := t_order h; t_phase := p |} :: rest) sel.
Proof.
  intros HC Hst Hearly Hr. set (h' := {| t_order := t_order h; t_phase := p |}).
  set (m := alter (with_status st t) (t_id h) (c_orders c)).
  assert (Hm : forall id o, m !! id = Some o -> exists o0, c_orders c !! id = Some o0 /\ wo_id o = wo_id o0 /\
    wo_client_id o = wo_client_id o0 /\ (id = t_id h /\ wo_status o = st \/ id <> t_id h /\ o = o0)).
  { intros id o. unfold m. destruct (decide (id = t_id h)) as [->|Hne].
    - rewrite lookup_alter_eq. destruct (c_orders c !! t_id h) as [o0|]; simpl; intros; simplify_eq. exists o0. split_and!; try done. by left.
    - rewrite lookup_alter_ne by done. intros Ho. exists o. split_and!; try done. by right. }
  assert (Hsome : forall id, is_Some (m !! id) -> is_Some (c_orders c !! id)).
  { intros id [o Ho]. destruct (Hm id o Ho) as (o0 & -> & _). eauto. }
  assert (Hnp : st <> Pending) by (intros ->; by destruct Hst as [[? _]|[? _]]).
  destruct HC as [K1 K2 K3 K4 K5 K6 K7 K8 K9]. split; simpl; try done; fold m.
  - intros id o Ho. destruct (Hm id o Ho) as (o0 & Ho0 & -> & _). by apply K1.
  - intros g o [->|Hg]%elem_of_cons Ho; destruct (Hm _ o Ho) as (o0 & Ho0 & _ & -> & Hd).
    + destruct (K3 h o0) as [_ Hc]; [by constructor|done|]. destruct Hd as [[_ ->]|[Hne _]]; done.
    + destruct (K3 g o0) as [Hn Hc]; [by constructor|done|]. split; [|done].
      destruct Hd as [[_ ->]|[_ ->]]; done.
  - intros id o Ho Hf. destruct (Hm id o Ho) as (o0 & Ho0 & _ & _ & [[-> _]|[Hne ->]]); [by left|].
    by apply (K4 id o0).
  - intros id o Ho Hp. destruct (Hm id o Ho) as (o0 & Ho0 & _ & _ & [[_ Hs]|[_ ->]]); [congruence|by apply (K5 id o0)].
  - intros g [->|Hg]%elem_of_cons He Ho; [apply (K6 h)|apply (K6 g)]; auto; by constructor.
  - intros g o [->|Hg]%elem_of_cons Hrep Ho; destruct (Hm _ o Ho) as (o0 & Ho0 & _ & _ & [[Heq Hs]|[Hne ->]]); try done.
    + rewrite Hs. destruct Hst as [[_ Hnr]|[Hst _]]; [simpl in Hrep; congruence|by destruct st].
    + by destruct (other_holder h rest g K2 Hg).
    + apply (K7 g o0); [by constructor|done|done].
  - intros id o Ho Hs. destruct (Hm id o Ho) as (o0 & Ho0 & _ & _ & [[-> Hso]|[Hne ->]]).
    + right. exists h'. destruct Hst as [[-> _]|[_ Hrep]]; [by rewrite Hso in Hs|]. split_and!; [by constructor|done|done].
    + destruct (K8 id o0 Ho0 Hs) as [|(g & [->|Hg]%elem_of_cons & He & Hrep)]; [by left|congruence|].
      right. exists g. split; [by constructor|done].
  - intros w o Hw Ho. destruct (Hm _ o Ho) as (o0 & Ho0 & _ & -> & _). by apply (K9 w o0).
Qed.

(** The holder reports and lets go of the order. *)
Lemma consistent_report c c' h rest sel res :
  Consistent c (h :: rest) sel -> reporting (t_phase h) = true ->
  same_orders (reported (t_order h) res c) c' -> Consistent c' rest sel.
Proof.
  intros HC Hr Hsame. apply (consistent_same _ _ _ _ Hsame).
  assert (Hch : forall id, id <> t_id h -> has_channels c id -> has_channels (reported (t_order h) res c) id).
  { intros id Hne [Hp Hw]. unfold has_channels. simpl. fold (t_id h). set_solver. }
  destruct HC as [K1 K2 K3 K4 K5 K6 K7 K8 K9]. split; simpl; try done.
  - by inversion K2.
  - intros g o Hg. apply K3. by constructor.
  - intros id o Ho Hf. specialize (K4 id o Ho Hf). apply elem_of_cons in K4 as [->|]; [|done].
    assert (is_terminal (wo_status o) = true) by (apply (K7 h o); [by constructor|done|done]).
    by destruct (wo_status o).
  - intros id o Ho Hp. apply Hch; [|by apply (K5 id o)].
    intros ->. destruct (K3 h o) as [Hn _]; [by constructor|done|done].
  - intros g Hg He Ho. apply Hch; [by eapply other_holder|]. apply K6; [by constructor|done|done].
  - intros g o Hg. apply K7. by constructor.
  - intros id o Ho Hs. fold (t_id h). destruct (decide (id = t_id h)) as [->|Hne].
    + left. left. simpl. rewrite lookup_insert_eq. eauto.
    + unfold has_result. simpl. rewrite lookup_insert_ne by done.
      destruct (K8 id o Ho Hs) as [|(g & [->|Hg]%elem_of_cons & He & Hrep)]; [by left|congruence|].
      right. by exists g.
Qed.

(** The holder of an order that is gone stops. *)
Lemma consistent_drop c h rest sel :
  Consistent c (h :: rest) sel -> c_orders c !! t_id h = None -> Consistent c rest sel.
Proof.
  intros [K1 K2 K3 K4 K5 K6 K7 K8 K9] Hnone. split; try done.
  - by inversion K2.
  - intros g o Hg. apply K3. by constructor.
  - intros id o Ho Hf. specialize (K4 id o Ho Hf). apply elem_of_cons in K4 as [->|]; [congruence|done].
  - intros g Hg. apply K6. by constructor.
  - intros g o Hg. apply K7. by constructor.
  - intros id o Ho Hs. destruct (K8 id o Ho Hs) as [|(g & [->|Hg]%elem_of_cons & He & Hrep)]; [by left|congruence|].
    right. by exists g.
Qed.

(** The queue claims the order it selected. *)
Lemma consistent_claim c hs w o t :
  Consistent c hs (Some w) -> c_orders c !! wo_id w = Some o -> wo_status o = Pending ->
  Consistent (with_orders (<[wo_id w := with_status Provisioning t o]> (c_orders c)) c)
    ({| t_order := w; t_phase := PBegin |} :: hs) None.
Proof.
  intros HC Ho Hp. pose proof (pending_not_held _ _ _ _ _ HC Ho Hp) as Hnh.
  destruct (con_pending _ _ _ HC _ _ Ho Hp) as [Hc1 Hc2]. set (h := {| t_order := w; t_phase := PBegin |}).
  assert (Hne : forall g, g ∈ hs -> t_id g <> wo_id w).
  { intros g Hg He. apply Hnh. rewrite <- He. by apply list_elem_of_fmap_2. }
  destruct HC as [K1 K2 K3 K4 K5 K6 K7 K8 K9]. split; simpl; try done.
  - intros id o' [[<- <-]|[_ Ho']]%lookup_insert_Some; [by apply (K1 (wo_id w) o)|by apply K1].
  - by constructor.
  - intros g o' [->|Hg]%elem_of_cons.
    + change (t_id h) with (wo_id w). rewrite lookup_insert_eq. intros [= <-]. split; [done|]. by apply (K9 w o).
    + rewrite lookup_insert_ne by (intros He; by destruct (Hne g Hg)). by apply K3.
  - intros id o' [[<- <-]|[_ Ho']]%lookup_insert_Some Hf; [by left|right; by apply (K4 id o')].
  - intros id o' [[<- <-]|[_ Ho']]%lookup_insert_Some Hpe; [done|by apply (K5 id o')].
  - intros g [->|Hg]%elem_of_cons He; [by split|]. rewrite lookup_insert_ne by (intros Heq; by destruct (Hne g Hg)).
    by apply K6.
  - intros g o' [->|Hg]%elem_of_cons Hr; [done|]. rewrite lookup_insert_ne by (intros Heq; by destruct (Hne g Hg)).
    by apply K7.
  - intros id o' [[<- <-]|[_ Ho']]%lookup_insert_Some Hs; [done|].
    destruct (K8 id o' Ho' Hs) as [|(g & Hg & ?)]; [by left|right]. exists g. split; [by constructor|done].
Qed.

Lemma consistent_select c hs id w :
  Consistent c hs None -> c_orders c !! id = Some w -> Consistent c hs (Some w).
Proof.
  intros [K1 K2 K3 K4 K5 K6 K7 K8 _] Hw. split; try done.
  intros w' o [= <-] Ho. rewrite (K1 id w Hw) in Ho. congruence.
Qed.

(** A new order. *)
Lemma consistent_submit c c' hs sel id o :
  Consistent c hs sel -> c_orders c !! id = None -> id ∉ map t_id hs -> wo_id <$> sel <> Some id ->
  wo_id o = id -> wo_status o = Pending ->
  c_orders c' = <[id := o]> (c_orders c) -> c_results c' = c_results c ->
  c_progress c' = {[id]} ∪ c_progress c -> c_raw c' = {[id]} ∪ c_raw c -> Consistent c' hs sel.
Proof.
  intros [K1 K2 K3 K4 K5 K6 K7 K8 K9] Hnew Hnh Hsel Hid Hst E1 E2 E3 E4.
  assert (Hne : forall g, g ∈ hs -> id <> t_id g).
  { intros g Hg ->. by apply Hnh, list_elem_of_fmap_2. }
  assert (Hch : forall i, has_channels c i -> has_channels c' i) by (unfold has_channels; set_solver).
  unfold has_result in *. split; unfold has_result; rewrite ?E1, ?E2; try done.
  - intros i o' [[<- <-]|[_ Ho]]%lookup_insert_Some; [done|by apply K1].
  - intros g o' Hg. rewrite lookup_insert_ne by by apply Hne. by apply K3.
  - intros i o' [[<- <-]|[_ Ho]]%lookup_insert_Some Hf; [by rewrite Hst in Hf|by apply (K4 i o')].
  - intros i o' [[<- <-]|[_ Ho]]%lookup_insert_Some Hp; [unfold has_channels; set_solver|].
    by apply Hch, (K5 i o').
  - intros g Hg He. rewrite lookup_insert_ne by by apply Hne. intros Ho. by apply Hch, K6.
  - intros g o' Hg Hr. rewrite lookup_insert_ne by by apply Hne. by apply K7.
  - intros i o' [[<- <-]|[_ Ho]]%lookup_insert_Some Hs; [by rewrite Hst in Hs|by apply (K8 i o')].
  - intros w o' -> Ho. rewrite lookup_insert_ne in Ho; [by apply (K9 w o')|]. intros ->. by apply Hsel.
Qed.

Lemma consistent_cancel c c' hs sel id w :
  Consistent c hs sel -> c_orders c !! id = Some w -> c_orders c' = <[id := mark_cancelled w]> (c_orders c) ->
  c_results c' = c_results c -> c_progress c' = c_progress c -> c_raw c' = c_raw c -> Consistent c' hs sel.
Proof.
  intros [K1 K2 K3 K4 K5 K6 K7 K8 K9] Hw E1 E2 E3 E4.
  unfold has_result in *. split; unfold has_channels, has_result; rewrite ?E1, ?E2, ?E3, ?E4; try done.
  - intros i o [[<- <-]|[_ Ho]]%lookup_insert_Some; [by apply (K1 id w)|by apply K1].
  - intros g o Hg [[-> <-]|[_ Ho]]%lookup_insert_Some; [|by apply K3]. split; [done|]. by apply (K3 g w).
  - intros i o [[<- <-]|[_ Ho]]%lookup_insert_Some Hf; [done|by apply (K4 i o)].
  - intros i o [[<- <-]|[_ Ho]]%lookup_insert_Some Hp; [done|by apply (K5 i o)].
  - intros g Hg He [o [[-> <-]|[_ Ho]]%lookup_insert_Some]; apply (K6 g); eauto.
  - intros g o Hg Hr [[-> <-]|[_ Ho]]%lookup_insert_Some; [done|by apply (K7 g)].
  - intros i o [[<- <-]|[_ Ho]]%lookup_insert_Some Hs; [done|by apply (K8 i o)].
  - intros x o Hx [[-> <-]|[_ Ho]]%lookup_insert_Some; [by apply (K9 x w)|by apply (K9 x o)].
Qed.

Lemma consistent_evict c c' hs sel ids :
  Consistent c hs sel -> c_orders c' = drop_keys ids (c_orders c) -> c_results c' = drop_keys ids (c_results c) ->
  c_progress c' = c_progress c ∖ list_to_set ids -> c_raw c' = c_raw c ∖ list_to_set ids -> Consistent c' hs sel.
Proof.
  intros [K1 K2 K3 K4 K5 K6 K7 K8 K9] E1 E2 E3 E4.
  assert (Hl : forall i o, c_orders c' !! i = Some o -> c_orders c !! i = Some o /\ i ∉ ids).
  { intros i o. rewrite E1, lookup_drop_keys. by case_decide. }
  assert (Hch : forall i, i ∉ ids -> has_channels c i -> has_channels c' i).
  { intros i Hi [? ?]. unfold has_channels. rewrite E3, E4, !elem_of_difference, elem_of_list_to_set. auto. }
  split; try done.
  - intros i o [Ho _]%Hl. by apply K1.
  - intros g o Hg [Ho _]%Hl. by apply K3.
  - intros i o [Ho _]%Hl. by apply K4.
  - intros i o [Ho Hi]%Hl Hp. apply Hch; [done|]. by apply (K5 i o).
  - intros g Hg He [o [Ho Hi]%Hl]. apply Hch; [done|]. apply K6; eauto.
  - intros g o Hg Hr [Ho _]%Hl. by apply (K7 g).
  - intros i o [Ho Hi]%Hl Hs. destruct (K8 i o Ho Hs) as [[Hr|Hr]|]; [left; left|left; by right|by right].
    by rewrite E2, lookup_drop_keys, decide_False.
  - intros w o Hw [Ho _]%Hl. by apply (K9 w).
Qed.

End Consistency.

(** ** Every step keeps the invariant *)

(** The list of tasks around the task that steps. *)
Lemma tasks_split (q : list Task) ts n t :
  ts !! n = Some t -> q ++ ts ≡ₚ t :: (q ++ delete n ts).
Proof.
  intros Ht. transitivity (q ++ t :: delete n ts); [|by rewrite Permutation_middle].
  f_equiv. by apply delete_Permutation.
Qed.

Lemma tasks_update (q : list Task) ts n t t' :
  ts !! n = Some t -> q ++ <[n := t']> ts ≡ₚ t' :: (q ++ delete n ts).
Proof.
  intros Ht. assert (Hlt : (n < length ts)%nat) by by eapply lookup_lt_Some.
  rewrite (tasks_split q (<[n := t']> ts) n t') by by apply list_lookup_insert_eq.
  f_equiv. f_equiv. rewrite !delete_take_drop, take_insert_ge, drop_insert_lt by lia. done.
Qed.

Section Preservation.
Context `{ConfigHash, HttpLib, StateCodec, HashIter, Sha256, SetIter, !HashIterLaws}.
Context (cfg : ServerConfig) (normalize : PortageConfig -> IO PortageConfig) (lost : WorkorderId -> Prop).

Record Inv (σ : Sys) : Prop := {
  inv_con : Consistent lost (core (app σ)) (holders σ) (selected (queue σ));
  inv_permits : free_workers (app σ) + Z.of_nat (length (tasks σ)) = max_workers cfg;
  inv_free : 0 <= free_workers (app σ);
}.

(** What a step of a task does, on the core. *)
Lemma task_step_cases t i s e s' :
  task_step cfg t i s = Some (e, s') ->
  free_workers s' = free_workers s /\ c_depth (core s') = c_depth (core s) /\
  match t_phase t with
  | PBegin =>
      c_orders (core s') = c_orders (core s) /\ c_results (core s') = c_results (core s) /\
      c_progress (core s') = c_progress (core s) /\ c_raw (core s') = c_raw (core s) /\
      c_clients (core s') = c_clients (core s) /\
      (if bool_decide (t_id t ∈ c_progress (core s)) then
         e = Next PImage /\ c_active (core s') = u64_wrapping_add (c_active (core s)) 1
       else e = Finish /\ c_active (core s') = u64_wrapping_sub (u64_wrapping_add (c_active (core s)) 1) 1)
  | PImage =>
      (exists r, e = Next (PConclude r) /\ core s' = core s) \/
      (e = Next PStage /\ exists now, core s' =
         with_orders (alter (with_status Building now) (t_id t) (c_orders (core s))) (core s))
  | PStage => (e = Next PStart \/ exists r, e = Next (PConclude r)) /\ core s' = core s
  | PStart => core s' = core s /\
      ((exists r, e = Next (PConclude r)) \/ (exists c, e = Next (PRunning c)) \/
       (e = Panic /\ t_id t ∉ c_raw (core s)))
  | PRunning _ => exists r, e = Next (PConclude r) /\ core s' = with_raw (c_raw (core s) ∖ {[t_id t]}) (core s)
  | PConclude r => e = Next (PReport r) /\ exists now, core s' =
         with_orders (alter (with_status (report_status r) now) (t_id t) (c_orders (core s))) (core s)
  | PReport r => e = Finish /\ exists res, wr_workorder_id res = t_id t /\ core s' = reported (t_order t) res (core s)
  end.
Proof.
  set (w := t_order t).
  unfold task_step. fold w. destruct (t_phase t) eqn:Ep, i; try done.
  - pose proof (core_begin w s) as [Hc Hg]. destruct (begin_processing w s) as [go s1]. simpl in Hc, Hg.
    change (go = bool_decide (t_id t ∈ c_progress (core s))) in Hg.
    intros [= <- <-]. change (free_workers s1) with (c_free (core s1)). rewrite Hc, <- Hg.
    destruct go; by split_and!.
  - pose proof (core_image cfg w tag o s) as Hc. destruct (prepare_image cfg w tag o s) as [[r|] s1];
      intros [= <- <-]; change (free_workers s1) with (c_free (core s1)); rewrite Hc; eauto 10.
  - pose proof (core_stage w o s) as Hc. destruct (stage_runtime w o s) as [[r|] s1]; simpl in Hc;
      intros [= <- <-]; change (free_workers s1) with (c_free (core s1)); rewrite Hc; eauto 10.
  - pose proof (core_start w o secs s) as Hc.
    assert (Hp : fst (start_container w o secs s) = StartPanicked -> t_id t ∉ c_raw (core s)).
    { unfold start_container. destruct o; [|done]. simpl. case_bool_decide; done. }
    destruct (start_container w o secs s) as [[r| |c] s1]; simpl in Hc, Hp;
      intros [= <- <-]; change (free_workers s1) with (c_free (core s1)); rewrite Hc; eauto 10.
  - pose proof (core_run cfg w container o s) as Hc. destruct (run_container cfg w container o s) as [r s1].
    simpl in Hc. intros [= <- <-]. change (free_workers s1) with (c_free (core s1)). rewrite Hc. eauto 10.
  - intros [= <- <-]. pose proof (core_set_status cfg w (report_status r) s) as Hc.
    set (s1 := set_workorder_status cfg w (report_status r) s) in *.
    change (free_workers s1) with (c_free (core s1)). rewrite Hc. eauto 10.
  - intros [= <- <-]. destruct (core_report cfg w elapsed removed r s) as (res & Hid & _ & _ & Hc).
    set (s1 := report cfg w elapsed removed r s) in *.
    change (free_workers s1) with (c_free (core s1)). rewrite Hc. eauto 10.
Qed.

Lemma task_step_panic t i s s' :
  task_step cfg t i s = Some (Panic, s') -> t_phase t = PStart /\ t_id t ∉ c_raw (core s).
Proof.
  intros (_ & _ & Hs)%task_step_cases. destruct (t_phase t).
  - case_bool_decide; by destruct Hs as (_ & _ & _ & _ & _ & [=] & _).
  - by destruct Hs as [(r & [=] & _)|([=] & _)].
  - by destruct Hs as [[[=]|[r [=]]] _].
  - by destruct Hs as [_ [[r [=]]|[[c [=]]|[_ Hn]]]].
  - by destruct Hs as (r & [=] & _).
  - by destruct Hs as ([=] & _).
  - by destruct Hs as ([=] & _).
Qed.

Lemma report_status_result r : has_result_status (report_status r) = true.
Proof. by destruct r as [| |? [[]|] ? ? ? ?]. Qed.

Lemma task_step_consistent t i s e s' rest sel :
  task_step cfg t i s = Some (e, s') -> Consistent lost (core s) (t :: rest) sel ->
  match e with
  | Next p => Consistent lost (core s') ({| t_order := t_order t; t_phase := p |} :: rest) sel
  | Finish | Panic => Consistent lost (core s') rest sel
  end.
Proof.
  intros (_ & _ & Hs)%task_step_cases HC.
  assert (Hself : forall p, early_phase p = false \/ early_phase (t_phase t) = true -> reporting p = false ->
    reporting (t_phase t) = false -> Consistent lost (core s) ({| t_order := t_order t; t_phase := p |} :: rest) sel).
  { intros p Hp Hr Hr'. eapply consistent_phase; eauto. intros He. destruct Hp; [congruence|done]. }
  assert (Hgone : early_phase (t_phase t) = true -> ~ has_channels (core s) (t_id t) ->
    Consistent lost (core s) rest sel).
  { intros He Hn. eapply consistent_drop; [exact HC|]. destruct (c_orders (core s) !! t_id t) eqn:Eo; [|done].
    destruct Hn. apply (con_early _ _ _ _ HC t); [by constructor|done|eauto]. }
  destruct (t_phase t) eqn:Ep.
  - destruct Hs as (E1 & E2 & E3 & E4 & _ & Hd).
    assert (Hsame : same_orders (core s) (core s')) by by split_and!.
    case_bool_decide as Hin; destruct Hd as [-> _]; apply (consistent_same _ _ _ _ _ Hsame).
    + apply Hself; eauto.
    + apply Hgone; [done|]. by intros [].
  - destruct Hs as [(r & -> & ->)|(-> & now & ->)]; [apply Hself; eauto|].
    apply consistent_status; [done|by left|by rewrite Ep|by rewrite Ep].
  - destruct Hs as [[->|[r ->]] ->]; apply Hself; eauto.
  - destruct Hs as [-> [[r ->]|[[c ->]|[-> Hn]]]]; [apply Hself; eauto..|].
    apply Hgone; [done|]. by intros [].
  - destruct Hs as (r & -> & ->). eapply consistent_phase; eauto; try done. by rewrite Ep.
  - destruct Hs as (-> & now & ->). apply consistent_status; [done|right|done|by rewrite Ep].
    split; [apply report_status_result|done].
  - destruct Hs as (-> & res & _ & ->). eapply consistent_report; [exact HC|by rewrite Ep|]. by split_and!.
Qed.

(** *** The requests, on the core *)

(** A new pending order of an idle client. *)
Record arrived (c : Core) (id : WorkorderId) (o : Workorder) (c' : Core) : Prop := {
  arr_orders : c_orders c' = <[id := o]> (c_orders c);
  arr_id : wo_id o = id;
  arr_status : wo_status o = Pending;
  arr_progress : c_progress c' = {[id]} ∪ c_progress c;
  arr_raw : c_raw c' = {[id]} ∪ c_raw c;
  arr_results : c_results c' = c_results c;
  arr_free : c_free c' = c_free c;
  arr_depth : c_depth c' = u64_wrapping_add (c_depth c) 1;
  arr_active : c_active c' = c_active c;
  arr_idle : Registry.active_of (c_clients c) (wo_client_id o) = None;
  arr_mark : Registry.active_of (c_clients c') (wo_client_id o) = Some id;
  arr_others : forall k, k <> wo_client_id o -> Registry.active_of (c_clients c') k = Registry.active_of (c_clients c) k;
}.

Lemma submit_core s headers req id fresh :
  let s' := snd (submit_workorder cfg normalize s headers req id fresh) in
  core s' = core s \/ exists o, arrived (core s) id o (core s').
Proof.
  pose proof (submit_workorder_cases cfg normalize s headers req id fresh) as Hs.
  destruct (submit_workorder cfg normalize s headers req id fresh) as [[resp|e] s']; simpl.
  - destruct Hs as (_ & _ & (ident & _ & Ha) & Hd & Hb). right.
    destruct Ha as [(o & Ho & Hid & Hst & Hcl & _) Hidle Hmark Hoth _ Hp Hr Hres Hfree]. exists o. rewrite <- Hcl in Hidle, Hmark, Hoth.
    by split.
  - left. rewrite Hs. done.
Qed.

Lemma cancel_core s headers id :
  let s' := snd (cancel_workorder cfg s headers id) in
  core s' = core s \/ exists w, c_orders (core s) !! id = Some w /\ is_active (wo_status w) = true /\
    cancelled s id w s'.
Proof.
  destruct (cancel_workorder cfg s headers id) as [r s'] eqn:E. simpl.
  destruct (cancel_workorder_cases cfg s headers id r s' E) as [[-> _]|(w & Hw & Ha & _ & ->)]; [by left|right].
  exists w. split_and!; [done..|]. apply cancel_order_spec.
Qed.

Lemma evict_core s :
  let s' := after_eviction cfg s in
  exists ids, (forall id o, id ∈ ids -> c_orders (core s) !! id = Some o -> is_terminal (wo_status o) = true) /\
    core s' = {| c_orders := drop_keys ids (c_orders (core s)); c_results := drop_keys ids (c_results (core s));
                 c_progress := c_progress (core s) ∖ list_to_set ids; c_raw := c_raw (core s) ∖ list_to_set ids;
                 c_clients := c_clients (core s); c_free := c_free (core s); c_depth := c_depth (core s);
                 c_active := c_active (core s) |}.
Proof.
  unfold after_eviction, evict_workorders. destruct (hours_before (now_of s) (retention_hours cfg)) as [cutoff|]; cbn [fmap option_fmap option_map]; cycle 1.
  { exists []. split; [intros id o Hid; by apply elem_of_nil in Hid|]. rewrite !drop_keys_nil. unfold core. cbn [c_orders c_results c_progress c_raw c_clients c_free c_depth c_active list_to_set].
    by rewrite !difference_empty_L. }
  destruct (evict_spec cutoff cfg s) as (ids & Hs & _ & _ & Hterm & _). destruct (evict_before cutoff cfg s) as [n s1]. cbn in Hs. subst s1. cbn. exists ids. split.
  - intros id o Hid Ho. destruct (Hterm id Hid) as (w & Hw & Ht). simpl in Ho. congruence.
  - destruct (evict_all ids s) as (E1 & E2 & _ & E3 & E4 & _ & E5 & E6 & _ & E7).
    unfold core. by rewrite E1, E2, E3, E4, E5, E6, E7.
Qed.

Lemma unused_spec σ id :
  unused σ id = true -> c_orders (core (app σ)) !! id = None /\ (id ∉ map t_id (holders σ)) /\
    wo_id <$> selected (queue σ) <> Some id.
Proof.
  unfold unused. intros [[[Ho _]%andb_true_iff Hh]%andb_true_iff Hs]%andb_true_iff.
  apply bool_decide_eq_true in Hh, Hs. split_and!; [|done..].
  simpl. by destruct (workorders (app σ) !! id).
Qed.

(** A selected order is one of the orders, under its id. *)
Lemma select_next_Some s w : select_next s = Some w -> exists id, workorders s !! id = Some w /\ wo_status w = Pending.
Proof.
  unfold select_next. intros Hs. apply min_by_key_Some in Hs as [Hw _].
  apply list_elem_of_In, filter_In in Hw as [Hw Hp]. apply bool_decide_eq_true in Hp.
  apply list_elem_of_In, list_elem_of_fmap in Hw as ([id w'] & -> & Hw). rewrite hash_iter_perm in Hw.
  apply elem_of_map_to_list in Hw. eauto.
Qed.

Lemma select_next_None s id o : select_next s = None -> workorders s !! id = Some o -> wo_status o <> Pending.
Proof.
  unfold select_next. intros Hs Ho Hp. apply min_by_key_None in Hs.
  assert (Hin : o ∈ List.filter (fun w => bool_decide (wo_status w = Pending))
    (map snd (hash_iter Workorder (workorders s)))); [|rewrite Hs in Hin; by apply elem_of_nil in Hin].
  apply list_elem_of_In, filter_In. split; [|by apply bool_decide_eq_true].
  apply list_elem_of_In, list_elem_of_fmap. exists (id, o). split; [done|].
  rewrite hash_iter_perm. by apply elem_of_map_to_list.
Qed.

Lemma exec_task_inv n i σ σ' : exec cfg normalize (ETask n i) σ = Some σ' -> Inv σ -> Inv σ'.
Proof.
  intros He [HC Hp Hf]. simpl in He.
  destruct (tasks σ !! n) as [t|] eqn:Et; [|done]. simpl in He.
  destruct (task_step cfg t i (app σ)) as [[e s']|] eqn:Es; [|done]. simpl in He. injection He as <-.
  apply (consistent_perm _ _ _ _ _ (tasks_split (waiting (queue σ)) _ n t Et)) in HC.
  pose proof (task_step_consistent t i (app σ) e s' _ _ Es HC) as HC'.
  apply task_step_cases in Es as (Hfree & _). pose proof (lookup_lt_Some _ _ _ Et) as Hlt.
  destruct e as [p| |]; split; simpl; rewrite ?Hfree, ?length_insert, ?length_delete by done; try lia.
  - eapply consistent_perm; [|exact HC']. unfold holders. simpl. by rewrite (tasks_update _ _ n t).
  - eapply consistent_same; [|exact HC']. by split_and!.
  - eapply consistent_same; [|exact HC']. by split_and!.
Qed.

Lemma exec_inv e σ σ' : exec cfg normalize e σ = Some σ' -> Inv σ -> Inv σ'.
Proof.
  intros He HI. destruct e as [headers req id fresh|headers id| |w| | | |n i]; [| | | | | | |by eapply exec_task_inv];
    simpl in He; destruct HI as [HC Hp Hf].
  - destruct (unused σ id) eqn:Eu; [|done]. injection He as <-. apply unused_spec in Eu as (Hn & Hh & Hs).
    destruct (submit_core (app σ) headers req id fresh) as [Hc|(o & [A1 A2 A3 A4 A5 A6 A7 A8 A9 A10 A11 A12])];
      set (s' := snd (submit_workorder cfg normalize (app σ) headers req id fresh)) in *.
    + split; simpl; change (free_workers s') with (c_free (core s')); rewrite ?Hc; done.
    + split; simpl; change (free_workers s') with (c_free (core s')); rewrite ?A7; try done.
      by eapply (consistent_submit _ _ _ _ _ id o).
  - injection He as <-. destruct (cancel_core (app σ) headers id) as [Hc|(w & Hw & Ha & [Ko Kcl Kr Kp Kw Kf _ _ Kd Kac _])];
      set (s' := snd (cancel_workorder cfg (app σ) headers id)) in *.
    + split; simpl; change (free_workers s') with (c_free (core s')); rewrite ?Hc; done.
    + split; simpl; rewrite ?Kf; try done. by eapply (consistent_cancel _ _ _ _ _ id w).
  - injection He as <-. destruct (evict_core (app σ)) as (ids & _ & Hc);
      set (s' := after_eviction cfg (app σ)) in *.
    split; simpl; change (free_workers s') with (c_free (core s')); rewrite ?Hc; try done.
    by eapply (consistent_evict _ _ _ _ _ ids).
  - injection He as <-. by split.
  - destruct (queue σ) eqn:Eq; [|done|done]. destruct (select_next (app σ)) as [w|] eqn:Es; [|done].
    injection He as <-. apply select_next_Some in Es as (id & Hw & _).
    split; simpl; try done. unfold holders in *. rewrite Eq in HC. by eapply consistent_select.
  - destruct (queue σ) as [|w|] eqn:Eq; [done| |done]. destruct (core_claim w (app σ)) as [(E1 & E2 & _)|(E1 & o & Ho & Hst & Hc)];
      destruct (claim w (app σ)) as [b s']; simpl in E1; simpl in *; subst; injection He as <-;
      unfold holders in HC; rewrite Eq in HC.
    + split; simpl; try done. by eapply consistent_unselect.
    + split; simpl; change (free_workers s') with (c_free (core s')); rewrite ?Hc; try done.
      eapply consistent_same; [|by eapply (consistent_claim _ _ _ w o)]. by split_and!.
  - destruct (queue σ) as [| |w] eqn:Eq; [done|done|]. destruct (0 <? free_workers (app σ)) eqn:Ef; [|done].
    injection He as <-. reflect_bools. unfold holders in HC. rewrite Eq in HC. split; simpl.
    + eapply consistent_same; [|eapply consistent_perm; [|exact HC]]; [by split_and!|]. unfold holders. simpl.
      by rewrite Permutation_cons_append.
    + rewrite length_app. simpl. lia.
    + lia.
Qed.

(** ** The counters *)

Definition is_pending (o : Workorder) : bool := bool_decide (wo_status o = Pending).
Definition pending_count (c : Core) : Z := count_if is_pending (c_orders c).
Definition begun (t : Task) : bool := match t_phase t with PBegin => false | _ => true end.
Definition begun_count (ts : list Task) : Z := Z.of_nat (length (List.filter begun ts)).

(** The gauges, modulo their width: the queue depth counts the pending orders from
    [k0] on, the active builds count the tasks that have begun and the ones that
    panicked. *)
Record Counts (k0 : Z) (σ : Sys) : Prop := {
  cnt_depth : c_depth (core (app σ)) = (pending_count (core (app σ)) - k0) mod 2 ^ 64;
  cnt_active : c_active (core (app σ)) = (begun_count (tasks σ) + Z.of_nat (panicked σ)) mod 2 ^ 64;
}.

Lemma wrapping_add_mod a n : u64_wrapping_add (a mod 2 ^ 64) n = (a + n) mod 2 ^ 64.
Proof. unfold u64_wrapping_add. by rewrite Zplus_mod_idemp_l. Qed.
Lemma wrapping_sub_mod a n : u64_wrapping_sub (a mod 2 ^ 64) n = (a - n) mod 2 ^ 64.
Proof. unfold u64_wrapping_sub. by rewrite Zminus_mod_idemp_l. Qed.

Lemma begun_count_perm ts ts' : ts ≡ₚ ts' -> begun_count ts = begun_count ts'.
Proof.
  unfold begun_count. intros Hp. f_equal. induction Hp; simpl; repeat case_match; simpl; lia.
Qed.

Lemma begun_count_cons t ts : begun_count (t :: ts) = (if begun t then 1 else 0) + begun_count ts.
Proof. unfold begun_count. simpl. destruct (begun t); simpl; lia. Qed.

(** Changing the status of an order that is not pending to another such status. *)
Lemma pending_count_alter (m : gmap WorkorderId Workorder) id st t :
  (forall o, m !! id = Some o -> wo_status o <> Pending) -> st <> Pending ->
  count_if is_pending (alter (with_status st t) id m) = count_if is_pending m.
Proof.
  intros Hn Hst. destruct (m !! id) as [o|] eqn:E.
  - assert (alter (with_status st t) id m = <[id := with_status st t o]> m) as ->.
    { apply map_eq. intros i. destruct (decide (i = id)) as [->|].
      - by rewrite lookup_alter_eq, lookup_insert_eq, E.
      - by rewrite lookup_alter_ne, lookup_insert_ne. }
    rewrite count_if_insert, E. unfold counts, is_pending. simpl.
    rewrite !bool_decide_false by auto. lia.
  - rewrite alter_id; [done|]. intros o Ho. congruence.
Qed.

Lemma count_if_drop_keys (f : Workorder -> bool) ids (m : gmap WorkorderId Workorder) :
  (forall id o, id ∈ ids -> m !! id = Some o -> f o = false) ->
  count_if f (drop_keys ids m) = count_if f m.
Proof.
  revert m. induction ids as [|id ids IH]; intros m Hf.
  - f_equal. apply map_eq. intros i. by rewrite lookup_drop_keys.
  - rewrite <- drop_keys_cons, IH.
    + rewrite count_if_delete. unfold counts. destruct (m !! id) as [o|] eqn:E; [|lia].
      rewrite (Hf id o); [lia|by constructor|done].
    + intros i o Hi [_ Ho]%lookup_delete_Some. apply (Hf i); [by constructor|done].
Qed.

(** A step of a task changes at most the status of its own order, not to pending. *)
Lemma task_step_orders t i s e s' :
  task_step cfg t i s = Some (e, s') ->
  c_orders (core s') = c_orders (core s) \/
  exists st now, st <> Pending /\ c_orders (core s') = alter (with_status st now) (t_id t) (c_orders (core s)).
Proof.
  intros (_ & _ & Hs)%task_step_cases. destruct (t_phase t).
  - left. apply Hs.
  - destruct Hs as [(r & _ & ->)|(_ & now & ->)]; [by left|right]. by exists Building, now.
  - left. by destruct Hs as [_ ->].
  - left. by destruct Hs as [-> _].
  - left. by destruct Hs as (r & _ & ->).
  - destruct Hs as (_ & now & ->). right. exists (report_status r), now. split; [|done].
    intros Hp. pose proof (report_status_result r) as Hr. by rewrite Hp in Hr.
  - left. by destruct Hs as (_ & res & _ & ->).
Qed.

(** No order becomes pending or stops being pending through it. *)
Lemma task_step_pending t i s e s' rest sel :
  task_step cfg t i s = Some (e, s') -> Consistent lost (core s) (t :: rest) sel ->
  pending_count (core s') = pending_count (core s) /\
  forall id, counts is_pending (c_orders (core s') !! id) = counts is_pending (c_orders (core s) !! id).
Proof.
  intros Hs HC. unfold pending_count.
  assert (Hnp : forall o, c_orders (core s) !! t_id t = Some o -> wo_status o <> Pending).
  { intros o Ho. by destruct (con_held _ _ _ _ HC t o); [constructor|..]. }
  destruct (task_step_orders t i s e s' Hs) as [->|(st & now & Hst & ->)]; [done|].
  split; [by apply pending_count_alter|]. intros id. destruct (decide (id = t_id t)) as [->|Hne].
  - rewrite lookup_alter_eq. destruct (c_orders (core s) !! t_id t) as [o|] eqn:E; [|done].
    specialize (Hnp o eq_refl). simpl. unfold is_pending. by rewrite !bool_decide_false.
  - by rewrite lookup_alter_ne.
Qed.

(** A step of a task changes the number of active builds as it should. *)
Lemma task_step_active t i s e s' :
  task_step cfg t i s = Some (e, s') ->
  forall k, c_active (core s) = ((if begun t then 1 else 0) + k) mod 2 ^ 64 ->
    c_active (core s') = (match e with
      | Next p => if begun {| t_order := t_order t; t_phase := p |} then 1 else 0
      | Finish => 0
      | Panic => 1
      end + k) mod 2 ^ 64.
Proof.
  intros (_ & _ & Hs)%task_step_cases k Hk. unfold begun in *. destruct (t_phase t).
  - destruct Hs as (_ & _ & _ & _ & _ & Hd).
    case_bool_decide; destruct Hd as [-> ->]; rewrite Hk, wrapping_add_mod, ?wrapping_sub_mod; f_equal; simpl; lia.
  - by destruct Hs as [(r & -> & ->)|(-> & now & ->)].
  - by destruct Hs as [[->|[r ->]] ->].
  - by destruct Hs as [-> [[r ->]|[[c ->]|[-> Hn]]]].
  - by destruct Hs as (r & -> & ->).
  - by destruct Hs as (-> & now & ->).
  - destruct Hs as (-> & res & _ & ->). cbn [c_active reported]. rewrite Hk, wrapping_sub_mod. f_equal. lia.
Qed.

Lemma exec_task_counts k0 n i σ σ' :
  exec cfg normalize (ETask n i) σ = Some σ' -> Inv σ -> Counts k0 σ -> Counts k0 σ'.
Proof.
  intros He [HC _ _] [Hd Ha]. simpl in He.
  destruct (tasks σ !! n) as [t|] eqn:Et; [|done]. simpl in He.
  destruct (task_step cfg t i (app σ)) as [[e s']|] eqn:Es; [|done]. simpl in He. injection He as <-.
  apply (consistent_perm _ _ _ _ _ (tasks_split (waiting (queue σ)) _ n t Et)) in HC.
  destruct (task_step_pending t i (app σ) e s' _ _ Es HC) as [Hpc _].
  pose proof (task_step_active t i (app σ) e s' Es) as Hac.
  apply task_step_cases in Es as (_ & Hdep & _).
  rewrite (begun_count_perm (tasks σ) _ (tasks_split [] _ n t Et)), begun_count_cons, <- Z.add_assoc in Ha.
  specialize (Hac _ Ha).
  destruct e as [p| |]; split; cbn [app with_app with_tasks count_panic tasks panicked];
    try (change (core (release s')) with
      {| c_orders := c_orders (core s'); c_results := c_results (core s'); c_progress := c_progress (core s');
         c_raw := c_raw (core s'); c_clients := c_clients (core s'); c_free := c_free (core s') + 1;
         c_depth := c_depth (core s'); c_active := c_active (core s') |}; cbn [c_depth c_active]);
    try (by rewrite Hdep, Hd, <- Hpc).
  - pose proof (tasks_update [] (tasks σ) n t {| t_order := t_order t; t_phase := p |} Et) as Hu.
    apply begun_count_perm in Hu. rewrite begun_count_cons in Hu. rewrite Hac, Z.add_assoc, <- Hu. done.
  - exact Hac.
  - rewrite Hac. f_equal. simpl. lia.
Qed.

Lemma exec_counts k0 e σ σ' : exec cfg normalize e σ = Some σ' -> Inv σ -> Counts k0 σ -> Counts k0 σ'.
Proof.
  intros He HI HK. destruct e as [headers req id fresh|headers id| |w| | | |n i]; [| | | | | | |by eapply exec_task_counts];
    simpl in He; destruct HI as [HC _ _], HK as [Hd Ha].
  - destruct (unused σ id) eqn:Eu; [|done]. injection He as <-. apply unused_spec in Eu as (Hn & _).
    destruct (submit_core (app σ) headers req id fresh) as [Hc|(o & [A1 A2 A3 A4 A5 A6 A7 A8 A9 A10 A11 A12])];
      set (s' := snd (submit_workorder cfg normalize (app σ) headers req id fresh)) in *;
      split; cbn [app with_app tasks panicked]; [by rewrite Hc..| |by rewrite A9].
    rewrite A8, Hd, wrapping_add_mod. unfold pending_count. rewrite A1, count_if_insert, Hn.
    unfold counts, is_pending. rewrite A3. simpl. f_equal. lia.
  - injection He as <-. destruct (cancel_core (app σ) headers id) as [Hc|(w & Hw & Hact & [Ko Kcl Kr Kp Kw Kf _ _ Kd Kac _])];
      set (s' := snd (cancel_workorder cfg (app σ) headers id)) in *;
      split; cbn [app with_app tasks panicked]; [by rewrite Hc..| |by rewrite <- Ha].
    assert (Hpc : pending_count (core s') = pending_count (core (app σ)) -
      (if bool_decide (wo_status w = Pending) then 1 else 0)).
    { unfold pending_count. change (c_orders (core s')) with (workorders s'). rewrite Ko, count_if_insert.
      change (workorders (app σ)) with (c_orders (core (app σ))). rewrite Hw. unfold counts, is_pending.
      case_bool_decide; simpl; lia. }
    change (c_depth (core s')) with (counter (metrics s') queue_depth). rewrite Kd, Hpc.
    change (counter (metrics (app σ)) queue_depth) with (c_depth (core (app σ))). rewrite Hd.
    case_bool_decide; rewrite ?wrapping_sub_mod; f_equal; lia.
  - injection He as <-. destruct (evict_core (app σ)) as (ids & Hterm & Hc);
      set (s' := after_eviction cfg (app σ)) in *.
    split; cbn [app with_app tasks panicked]; rewrite Hc; [|done]. cbn [c_depth]. rewrite Hd. unfold pending_count.
    cbn [c_orders]. rewrite count_if_drop_keys; [done|]. intros id o Hid Ho. unfold is_pending.
    apply bool_decide_eq_false. intros Hp. specialize (Hterm id o Hid Ho). by rewrite Hp in Hterm.
  - injection He as <-. by split.
  - destruct (queue σ); [|done|done]. destruct (select_next (app σ)) as [w|]; [|done]. injection He as <-. by split.
  - destruct (queue σ) as [|w|] eqn:Eq; [done| |done]. destruct (core_claim w (app σ)) as [(E1 & E2 & _)|(E1 & o & Ho & Hst & Hc)];
      destruct (claim w (app σ)) as [b s']; cbn [fst snd] in *; subst; injection He as <-; [by split|].
    split; cbn [app with_app with_queue tasks panicked]; rewrite Hc; [|done]. cbn [c_depth with_depth].
    change (counter (metrics (app σ)) queue_depth) with (c_depth (core (app σ))). rewrite Hd, wrapping_sub_mod.
    unfold pending_count. cbn [c_orders with_depth with_orders]. rewrite count_if_insert, Ho.
    unfold counts, is_pending. rewrite Hst. simpl. f_equal. lia.
  - destruct (queue σ) as [| |w] eqn:Eq; [done|done|]. destruct (0 <? free_workers (app σ)) eqn:Ef; [|done].
    injection He as <-. split; [done|]. cbn [app with_app with_queue with_tasks tasks panicked].
    rewrite (begun_count_perm _ ({| t_order := w; t_phase := PBegin |} :: tasks σ)) by (symmetry; apply Permutation_cons_append).
    by rewrite begun_count_cons.
Qed.

(** ** One active order per client *)

(** Every active order is its client's marked one, and so is every held order. *)
Record Marks (c : Core) (hs : list Task) : Prop := {
  marks_orders : forall id o, c_orders c !! id = Some o -> is_active (wo_status o) = true ->
    Registry.active_of (c_clients c) (wo_client_id o) = Some id;
  marks_held : forall h, h ∈ hs -> Registry.active_of (c_clients c) (wo_client_id (t_order h)) = Some (t_id h);
}.

Lemma marks_perm c hs hs' : hs ≡ₚ hs' -> Marks c hs -> Marks c hs'.
Proof. intros Hp [M1 M2]. split; [done|]. intros h Hh. rewrite <- Hp in Hh. auto. Qed.

Lemma marks_same c c' hs : c_orders c' = c_orders c -> c_clients c' = c_clients c -> Marks c hs -> Marks c' hs.
Proof. intros E1 E2 [M1 M2]. by split; rewrite ?E1, ?E2. Qed.

Lemma marks_phase c h p rest : Marks c (h :: rest) -> Marks c ({| t_order := t_order h; t_phase := p |} :: rest).
Proof.
  intros [M1 M2]. split; [done|]. intros g [->|Hg]%elem_of_cons; [apply (M2 h)|apply M2]; by constructor.
Qed.

Lemma marks_drop c h rest : Marks c (h :: rest) -> Marks c rest.
Proof. intros [M1 M2]. split; [done|]. intros g Hg. apply M2. by constructor. Qed.

Lemma marks_status c h rest sel st t :
  Consistent lost c (h :: rest) sel -> Marks c (h :: rest) ->
  Marks (with_orders (alter (with_status st t) (t_id h) (c_orders c)) c) (h :: rest).
Proof.
  intros HC [M1 M2]. split; [|done]. simpl. intros id o Ho Ha. destruct (decide (id = t_id h)) as [->|Hne].
  - rewrite lookup_alter_eq in Ho. destruct (c_orders c !! t_id h) as [o0|] eqn:E; simplify_eq/=.
    destruct (con_held _ _ _ _ HC h o0) as [_ ->]; [by constructor|done|]. apply M2. by constructor.
  - rewrite lookup_alter_ne in Ho by done. by apply (M1 id o).
Qed.

Lemma marks_report c h rest sel res :
  Consistent lost c (h :: rest) sel -> reporting (t_phase h) = true -> Marks c (h :: rest) ->
  Marks (reported (t_order h) res c) rest.
Proof.
  intros HC Hr [M1 M2]. assert (Hm : Registry.active_of (c_clients c) (wo_client_id (t_order h)) = Some (t_id h))
    by (apply M2; by constructor).
  split; simpl.
  - intros id o Ho Ha. specialize (M1 id o Ho Ha). rewrite Registry.active_of_clear_ne; [done|].
    intros He. rewrite He in Hm. simplify_eq.
    assert (is_terminal (wo_status o) = true) by (apply (con_report _ _ _ _ HC h o); [by constructor|done..]).
    by destruct (wo_status o).
  - intros g Hg. assert (Hmg : Registry.active_of (c_clients c) (wo_client_id (t_order g)) = Some (t_id g))
      by (apply M2; by constructor).
    rewrite Registry.active_of_clear_ne; [done|]. intros He. rewrite He in Hm. simplify_eq.
    by apply (other_holder h rest g (con_nodup _ _ _ _ HC) Hg).
Qed.

Lemma task_step_marks t i s e s' rest sel :
  task_step cfg t i s = Some (e, s') -> Consistent lost (core s) (t :: rest) sel -> Marks (core s) (t :: rest) ->
  match e with
  | Next p => Marks (core s') ({| t_order := t_order t; t_phase := p |} :: rest)
  | Finish | Panic => Marks (core s') rest
  end.
Proof.
  intros (_ & _ & Hs)%task_step_cases HC HM. destruct (t_phase t) eqn:Ep.
  - destruct Hs as (E1 & _ & _ & _ & E5 & Hd). apply (marks_same _ (core s')) in HM; [|done..].
    case_bool_decide; destruct Hd as [-> _]; [by apply marks_phase|by eapply marks_drop].
  - destruct Hs as [(r & -> & ->)|(-> & now & ->)]; [by apply marks_phase|]. by eapply marks_phase, marks_status.
  - destruct Hs as [[->|[r ->]] ->]; by apply marks_phase.
  - destruct Hs as [-> [[r ->]|[[c ->]|[-> Hn]]]]; [by apply marks_phase..|by eapply marks_drop].
  - destruct Hs as (r & -> & ->). apply marks_phase. by eapply marks_same; [..|exact HM].
  - destruct Hs as (-> & now & ->). by eapply marks_phase, marks_status.
  - destruct Hs as (-> & res & _ & ->). eapply marks_report; [exact HC|by rewrite Ep|done].
Qed.

Lemma exec_task_marks n i σ σ' :
  exec cfg normalize (ETask n i) σ = Some σ' -> Inv σ ->
  Marks (core (app σ)) (holders σ) -> Marks (core (app σ')) (holders σ').
Proof.
  intros He [HC _ _] HM. simpl in He.
  destruct (tasks σ !! n) as [t|] eqn:Et; [|done]. simpl in He.
  destruct (task_step cfg t i (app σ)) as [[e s']|] eqn:Es; [|done]. simpl in He. injection He as <-.
  pose proof (tasks_split (waiting (queue σ)) _ n t Et) as Hsp.
  apply (consistent_perm _ _ _ _ _ Hsp) in HC. apply (marks_perm _ _ _ Hsp) in HM.
  pose proof (task_step_marks t i (app σ) e s' _ _ Es HC HM) as HM'.
  destruct e as [p| |].
  - eapply marks_perm; [|exact HM']. unfold holders. simpl. by rewrite (tasks_update _ _ n t).
  - by eapply marks_same; [..|exact HM'].
  - by eapply marks_same; [..|exact HM'].
Qed.

Lemma exec_marks e σ σ' :
  not_cancel e -> exec cfg normalize e σ = Some σ' -> Inv σ ->
  Marks (core (app σ)) (holders σ) -> Marks (core (app σ')) (holders σ').
Proof.
  intros Hnc He HI HM. destruct e as [headers req id fresh|headers id| |w| | | |n i]; [|done| | | | | |by eapply exec_task_marks];
    simpl in He; destruct HI as [HC _ _].
  - destruct (unused σ id) eqn:Eu; [|done]. injection He as <-. apply unused_spec in Eu as (Hn & _).
    destruct (submit_core (app σ) headers req id fresh) as [Hc|(o & [A1 A2 A3 A4 A5 A6 A7 A8 A9 A10 A11 A12])];
      set (s' := snd (submit_workorder cfg normalize (app σ) headers req id fresh)) in *;
      cbn [app with_app]; [by rewrite Hc|].
    change (holders (with_app s' σ)) with (holders σ). destruct HM as [M1 M2]. split.
    + rewrite A1. intros i o' [[<- <-]|[_ Ho]]%lookup_insert_Some Ha; [done|].
      specialize (M1 i o' Ho Ha). rewrite A12; [done|]. congruence.
    + intros h Hh. specialize (M2 h Hh). rewrite A12; [done|]. congruence.
  - injection He as <-. destruct (evict_core (app σ)) as (ids & _ & Hc);
      set (s' := after_eviction cfg (app σ)) in *. cbn [app with_app]. rewrite Hc.
    destruct HM as [M1 M2]. split; [|done]. cbn [c_orders c_clients]. intros id o Ho.
    rewrite lookup_drop_keys in Ho. case_decide; [done|]. by apply M1.
  - injection He as <-. by destruct HM.
  - destruct (queue σ) eqn:Eq; [|done|done]. destruct (select_next (app σ)) as [w|] eqn:Es; [|done].
    injection He as <-. unfold holders in *. by rewrite Eq in HM.
  - destruct (queue σ) as [|w|] eqn:Eq; [done| |done]. unfold holders in *. rewrite Eq in HM, HC.
    destruct (core_claim w (app σ)) as [(E1 & E2 & _)|(E1 & o & Ho & Hst & Hc)];
      destruct (claim w (app σ)) as [b s']; cbn [fst snd] in *; subst; injection He as <-; [done|].
    cbn [app with_app with_queue queue tasks waiting]. destruct HM as [M1 M2].
    assert (Hw : Registry.active_of (c_clients (core (app σ))) (wo_client_id o) = Some (wo_id w))
      by (apply M1; [done|by rewrite Hst]).
    rewrite Hc. split; simpl.
    + intros i o' [[<- <-]|[_ Ho']]%lookup_insert_Some Ha; [done|by apply M1].
    + intros h [->|Hh]%elem_of_cons; [|by apply M2]. rewrite (con_selected _ _ _ _ HC w o eq_refl Ho) in Hw. exact Hw.
  - destruct (queue σ) as [| |w] eqn:Eq; [done|done|]. destruct (0 <? free_workers (app σ)) eqn:Ef; [|done].
    injection He as <-. unfold holders in *. rewrite Eq in HM. eapply marks_same; [..|eapply marks_perm; [|exact HM]]; try done.
    simpl. apply Permutation_cons_append.
Qed.

End Preservation.
