(* ===== verification/Safety.v ===== *)
(** * Safety and progress of the running server

    The theorems about every state the server reaches, whatever requests come in and
    however they interleave with the queue and the tasks, and concrete runs that show
    where the guarantees end. *)

From S2P Require Import Prelude Types Codecs World BlobStore Auth Registry Trace Config Metrics Persistence Repo Server Queue Lifecycle Invariants.

(** ** States the server starts in *)

(** What [AppState::new] establishes, if the saved orders are filed under their ids. *)
Record bootable (cfg : ServerConfig) (s : AppState) : Prop := {
  boot_keys : forall id o, workorders s !! id = Some o -> wo_id o = id;
  boot_idle : forall id o, workorders s !! id = Some o -> is_in_flight (wo_status o) = false;
  boot_channels : forall id o, workorders s !! id = Some o -> wo_status o = Pending ->
    id ∈ progress_txs s /\ id ∈ raw_output_txs s;
  boot_free : free_workers s = max_workers cfg;
  boot_workers : 0 <= max_workers cfg;
  boot_depth : counter (metrics s) queue_depth = 0;
  boot_active : counter (metrics s) builds_active = 0;
}.

(** Finished orders without a result when the server starts. *)
Definition lost_at (s : AppState) (id : WorkorderId) : Prop :=
  results s !! id = None /\ exists o, workorders s !! id = Some o /\ has_result_status (wo_status o) = true.

Lemma restore_bootable `{StateCodec} cfg w :
  0 <= max_workers cfg ->
  (forall m id o, fst (load_workorders (state_dir cfg) w) = Ok m -> m !! id = Some o -> wo_id o = id) ->
  bootable cfg (restore cfg w).
Proof.
  intros Hmax Hkeys. unfold restore.
  assert (Hidle : forall m id o, fst (load_workorders (state_dir cfg) w) = Ok m -> m !! id = Some o ->
    is_in_flight (wo_status o) = false).
  { intros m id o. unfold load_workorders, bind. destruct (load_json _ _ _ _ w) as [[m0|] w0]; simpl; [|done].
    intros [= <-]. rewrite lookup_fmap. destruct (m0 !! id) as [o0|]; simpl; [|done]. intros [= <-].
    unfold reset_in_flight. by destruct (is_in_flight (wo_status o0)) eqn:E. }
  destruct (load_workorders (state_dir cfg) w) as [ws w1]. destruct (load_results (state_dir cfg) w1) as [rs w2].
  destruct (load_clients (state_dir cfg) w2) as [cs w3]. cbn [fst] in *.
  destruct ws as [m|e]; split; simpl; try done; try (intros id o Ho; by rewrite lookup_empty in Ho).
  - intros id o. by apply Hkeys.
  - intros id o. by apply Hidle.
  - intros id o Ho Hp. rewrite elem_of_dom. split; exists o; apply map_lookup_filter_Some; by rewrite Hp.
Qed.

Section Theorems.
Context `{ConfigHash, HttpLib, StateCodec, HashIter, Sha256, SetIter, !HashIterLaws}.
Context (cfg : ServerConfig) (normalize : PortageConfig -> IO PortageConfig).

Lemma boot_inv s : bootable cfg s -> Inv cfg (lost_at s) (boot s).
Proof.
  intros [B1 B2 B3 B4 B5 B6 B7]. split; simpl; [|lia|lia]. split; simpl; try done.
  - constructor.
  - intros h o Hh. by apply elem_of_nil in Hh.
  - intros id o Ho Hf. by rewrite (B2 id o Ho) in Hf.
  - intros h Hh. by apply elem_of_nil in Hh.
  - intros h o Hh. by apply elem_of_nil in Hh.
  - intros id o Ho Hs. left. unfold has_result, lost_at. simpl. destruct (results s !! id); eauto.
Qed.

Lemma reachable_inv P s0 σ : bootable cfg s0 -> reachable cfg normalize P s0 σ -> Inv cfg (lost_at s0) σ.
Proof. intros HB. induction 1; [by apply boot_inv|by eapply exec_inv]. Qed.

Lemma reachable_counts P s0 σ :
  bootable cfg s0 -> reachable cfg normalize P s0 σ -> Counts (pending_count (core s0)) σ.
Proof.
  intros HB. induction 1 as [|σ σ' e Hr IH _ He].
  - split; simpl; [rewrite (boot_depth _ _ HB); by rewrite Z.sub_diag|by rewrite (boot_active _ _ HB)].
  - eapply exec_counts; [exact He| |exact IH]. by eapply reachable_inv.
Qed.

Lemma reachable_marks s0 σ :
  bootable cfg s0 -> (forall id o, workorders s0 !! id = Some o -> is_active (wo_status o) = false) ->
  reachable cfg normalize not_cancel s0 σ -> Marks (core (app σ)) (holders σ).
Proof.
  intros HB Hn. induction 1 as [|σ σ' e Hr IH Hp He].
  - split; simpl; [|intros h Hh; by apply elem_of_nil in Hh]. intros id o Ho Ha. by rewrite (Hn id o Ho) in Ha.
  - eapply exec_marks; [exact Hp|exact He| |exact IH]. by eapply reachable_inv.
Qed.

(** C1.  Exclusive processing: whatever requests arrive in whatever order, never are
    more than [max_workers] tasks running (and no worker slot is lost), no order is
    processed twice at the same time, an order that is being provisioned or built is
    held by the queue or a task (nothing is stuck), a pending order is held by none
    and has the channels its processing needs, and a completed or failed order has a
    result, is just about to get it, or had none when the server started. *)
Theorem processing_exclusive s0 σ :
  bootable cfg s0 -> reachable cfg normalize any_event s0 σ ->
  Z.of_nat (length (tasks σ)) <= max_workers cfg /\
  free_workers (app σ) = max_workers cfg - Z.of_nat (length (tasks σ)) /\
  NoDup (map t_id (holders σ)) /\
  (forall id o, workorders (app σ) !! id = Some o ->
     (is_in_flight (wo_status o) = true -> id ∈ map t_id (holders σ)) /\
     (wo_status o = Pending ->
        (id ∉ map t_id (holders σ)) /\ id ∈ progress_txs (app σ) /\ id ∈ raw_output_txs (app σ)) /\
     (has_result_status (wo_status o) = true ->
        is_Some (results (app σ) !! id) \/ lost_at s0 id \/
        exists h, h ∈ holders σ /\ t_id h = id /\ reporting (t_phase h) = true)).
Proof.
  intros HB Hr. destruct (reachable_inv _ _ _ HB Hr) as [HC Hp Hf]. split_and!; [lia|lia|apply (con_nodup _ _ _ _ HC)|].
  intros id o Ho. split_and!.
  - apply (con_running _ _ _ _ HC id o Ho).
  - intros Hpe. split; [by eapply pending_not_held|]. apply (con_pending _ _ _ _ HC id o Ho Hpe).
  - intros Hs. destruct (con_results _ _ _ _ HC id o Ho Hs) as [[|]|]; eauto.
Qed.

(** C38.  The gauges tell the truth, modulo 2^64: [builds_active] is the number of
    tasks that have begun plus the number of tasks that ever panicked, and
    [queue_depth] is the number of pending orders less the number that were already
    pending when the server started. *)
Theorem gauges_exact s0 σ :
  bootable cfg s0 -> reachable cfg normalize any_event s0 σ ->
  counter (metrics (app σ)) builds_active = (begun_count (tasks σ) + Z.of_nat (panicked σ)) mod 2 ^ 64 /\
  counter (metrics (app σ)) queue_depth =
    (pending_count (core (app σ)) - pending_count (core s0)) mod 2 ^ 64.
Proof. intros HB Hr. by destruct (reachable_counts _ _ _ HB Hr). Qed.

(** Without cancellations a client has at most one active order: starting
    without active orders, two active orders of the same client are the same. *)
Theorem one_active_order_per_client s0 σ id1 id2 o1 o2 :
  bootable cfg s0 -> (forall id o, workorders s0 !! id = Some o -> is_active (wo_status o) = false) ->
  reachable cfg normalize not_cancel s0 σ ->
  workorders (app σ) !! id1 = Some o1 -> workorders (app σ) !! id2 = Some o2 ->
  is_active (wo_status o1) = true -> is_active (wo_status o2) = true ->
  wo_client_id o1 = wo_client_id o2 -> id1 = id2.
Proof.
  intros HB Hn Hr K1 K2 A1 A2 Hc. destruct (reachable_marks _ _ HB Hn Hr) as [M _].
  pose proof (M id1 o1 K1 A1) as E1. pose proof (M id2 o2 K2 A2) as E2. rewrite Hc in E1. congruence.
Qed.

(** A task panics only for an order that is gone: when starting the container
    hits the missing output channel, the order had been evicted. *)
Theorem panic_only_if_evicted s0 σ σ' e :
  bootable cfg s0 -> reachable cfg normalize any_event s0 σ -> exec cfg normalize e σ = Some σ' ->
  panicked σ' <> panicked σ ->
  exists n t, e = ETask n t /\ exists h, tasks σ !! n = Some h /\ t_phase h = PStart /\
    workorders (app σ) !! t_id h = None.
Proof.
  intros HB Hr He Hp. destruct (reachable_inv _ _ _ HB Hr) as [HC _ _].
  destruct e as [headers req id fresh|headers id| |w| | | |n i]; simpl in He;
    try (repeat case_match; simplify_eq/=; congruence).
  exists n, i. split; [done|]. destruct (tasks σ !! n) as [h|] eqn:Et; [|done]. exists h. simpl in He.
  destruct (task_step cfg h i (app σ)) as [[[p| |] s']|] eqn:Es; simplify_eq/=; try done.
  apply task_step_panic in Es as [Hph Hraw]. split_and!; [done..|].
  destruct (workorders (app σ) !! t_id h) as [o|] eqn:Eo; [|done]. destruct Hraw.
  apply (con_early _ _ _ _ HC h); [|by rewrite Hph|eauto].
  unfold holders. apply elem_of_app. right. by eapply list_elem_of_lookup_2.
Qed.

(** ** Progress *)

(** The steps the server takes by itself. *)
Definition internal (e : Event) : Prop :=
  match e with ESelect | EClaim | ESpawn | ETask _ _ => True | _ => False end.

(** The work that is left: an upper bound on the steps still to come. *)
Definition phase_work (p : Phase) : Z :=
  match p with
  | PBegin => 7 | PImage => 6 | PStage => 5 | PStart => 4 | PRunning _ => 3 | PConclude _ => 2 | PReport _ => 1
  end.
Definition tasks_work (ts : list Task) : Z := fold_right (fun t n => phase_work (t_phase t) + n) 0 ts.
Definition queue_work (c : Core) (q : QueueState) : Z :=
  match q with
  | QIdle => 1
  | QSelected w => 2 - 2 * counts is_pending (c_orders c !! wo_id w)
  | QClaimed _ => 9
  end.
Definition work (σ : Sys) : Z :=
  12 * pending_count (core (app σ)) + queue_work (core (app σ)) (queue σ) + tasks_work (tasks σ).

Lemma phase_work_pos p : 1 <= phase_work p.
Proof. destruct p; simpl; lia. Qed.

Lemma tasks_work_nonneg ts : 0 <= tasks_work ts.
Proof. induction ts as [|t ts IH]; simpl; [lia|]. pose proof (phase_work_pos (t_phase t)). lia. Qed.

Lemma tasks_work_perm ts ts' : ts ≡ₚ ts' -> tasks_work ts = tasks_work ts'.
Proof. induction 1; simpl; lia. Qed.

Lemma work_nonneg σ : 0 <= work σ.
Proof.
  unfold work, queue_work. pose proof (count_if_nonneg is_pending (c_orders (core (app σ)))) as Hp.
  pose proof (tasks_work_nonneg (tasks σ)). unfold pending_count.
  destruct (queue σ) as [|w|]; [lia| |lia].
  pose proof (counts_bound is_pending (c_orders (core (app σ)) !! wo_id w)). lia.
Qed.

(** A step of a task brings it closer to its end. *)
Lemma task_step_work t i s e s' :
  task_step cfg t i s = Some (e, s') ->
  match e with Next p => phase_work p < phase_work (t_phase t) | _ => True end.
Proof.
  intros (_ & _ & Hs)%task_step_cases. destruct (t_phase t).
  - case_bool_decide; by destruct Hs as (_ & _ & _ & _ & _ & -> & _).
  - by destruct Hs as [(r & -> & _)|(-> & _)].
  - by destruct Hs as [[->|[r ->]] _].
  - by destruct Hs as [_ [[r ->]|[[c ->]|[-> _]]]].
  - by destruct Hs as (r & -> & _).
  - by destruct Hs as (-> & _).
  - by destruct Hs as (-> & _).
Qed.

Lemma task_event_works lost n i σ σ' :
  exec cfg normalize (ETask n i) σ = Some σ' -> Inv cfg lost σ -> work σ' < work σ.
Proof.
  intros He [HC _ _]. unfold work. simpl in He.
  destruct (tasks σ !! n) as [t|] eqn:Et; [|done]. simpl in He.
  destruct (task_step cfg t i (app σ)) as [[e s']|] eqn:Es; [|done]. simpl in He. injection He as <-.
  apply (consistent_perm _ _ _ _ _ (tasks_split (waiting (queue σ)) _ n t Et)) in HC.
  destruct (task_step_pending _ _ t i (app σ) e s' _ _ Es HC) as [Hpc Hview].
  apply task_step_work in Es as Hw.
  pose proof (tasks_work_perm _ _ (tasks_split [] _ n t Et)) as Hts. simpl in Hts.
  assert (Hq : queue_work (core s') (queue σ) = queue_work (core (app σ)) (queue σ)).
  { unfold queue_work. destruct (queue σ); try done. by rewrite Hview. }
  pose proof (phase_work_pos (t_phase t)).
  destruct e as [p| |]; cbn [app with_app with_tasks count_panic queue tasks].
  - pose proof (tasks_work_perm _ _ (tasks_update [] (tasks σ) n t {| t_order := t_order t; t_phase := p |} Et)) as Hu.
    simpl in Hu. lia.
  - change (pending_count (core (release s'))) with (pending_count (core s')).
    change (queue_work (core (release s')) (queue σ)) with (queue_work (core s') (queue σ)). lia.
  - change (pending_count (core (release s'))) with (pending_count (core s')).
    change (queue_work (core (release s')) (queue σ)) with (queue_work (core s') (queue σ)). lia.
Qed.

Lemma internal_step_works lost e σ σ' :
  internal e -> exec cfg normalize e σ = Some σ' -> Inv cfg lost σ -> work σ' < work σ.
Proof.
  intros Hi He HI. destruct e as [headers req id fresh|headers id| |w| | | |n i]; try done; [| | |by eapply task_event_works];
    simpl in He; destruct HI as [HC _ _]; unfold work.
  - destruct (queue σ) eqn:Eq; [|done|done]. destruct (select_next (app σ)) as [w|] eqn:Es; [|done].
    injection He as <-. apply select_next_Some in Es as (id & Hw & Hp).
    cbn [app with_queue queue tasks queue_work]. pose proof (con_keys _ _ _ _ HC id w Hw) as <-.
    change (workorders (app σ)) with (c_orders (core (app σ))) in Hw. rewrite Hw. unfold counts, is_pending.
    rewrite bool_decide_true by done. lia.
  - destruct (queue σ) as [|w|] eqn:Eq; [done| |done].
    destruct (core_claim w (app σ)) as [(E1 & E2 & Hn)|(E1 & o & Ho & Hst & Hc)];
      destruct (claim w (app σ)) as [b s']; cbn [fst snd] in *; subst; injection He as <-;
      cbn [app with_app with_queue queue tasks queue_work].
    + change (workorders (app σ)) with (c_orders (core (app σ))) in Hn.
      destruct (c_orders (core (app σ)) !! wo_id w) as [o|]; unfold counts, is_pending; [|lia].
      rewrite bool_decide_false by auto. lia.
    + rewrite Hc. change (workorders (app σ)) with (c_orders (core (app σ))) in Ho |- *.
      unfold pending_count. cbn [c_orders with_depth with_orders].
      rewrite count_if_insert, Ho. unfold counts, is_pending. rewrite Hst. simpl. lia.
  - destruct (queue σ) as [| |w] eqn:Eq; [done|done|]. destruct (0 <? free_workers (app σ)) eqn:Ef; [|done].
    injection He as <-. cbn [app with_app with_queue with_tasks queue tasks queue_work].
    rewrite (tasks_work_perm _ ({| t_order := w; t_phase := PBegin |} :: tasks σ))
      by (symmetry; apply Permutation_cons_append).
    change (core (set_free_workers (free_workers (app σ) - 1) (app σ))) with
      {| c_orders := c_orders (core (app σ)); c_results := c_results (core (app σ));
         c_progress := c_progress (core (app σ)); c_raw := c_raw (core (app σ));
         c_clients := c_clients (core (app σ)); c_free := c_free (core (app σ)) - 1;
         c_depth := c_depth (core (app σ)); c_active := c_active (core (app σ)) |}.
    unfold pending_count. simpl. lia.
Qed.

(** Some input lets a task take its next step. *)
Lemma task_enabled t s : exists i, is_Some (task_step cfg t i s).
Proof.
  unfold task_step. destruct (t_phase t) as [| | | |c|r|r].
  - exists IBegin. by destruct (begin_processing _ s).
  - exists (IImage "" ImageReady). eauto.
  - exists (IStage (Err "")). eauto.
  - exists (IStart (Err "") 0). eauto.
  - exists (IRun {| ro_exit := Ok 0; ro_wait_secs := 0; ro_events := []; ro_parity := Err "";
                    ro_distfiles := Err "" |}). by destruct (run_container _ _ _ _ s).
  - exists IConclude. eauto.
  - exists (IReport 0 true). eauto.
Qed.

(** Nothing is left to do. *)
Definition quiescent (σ : Sys) : Prop := forall e, internal e -> exec cfg normalize e σ = None.

Lemma quiescent_idle lost σ :
  1 <= max_workers cfg -> Inv cfg lost σ -> quiescent σ -> queue σ = QIdle /\ tasks σ = [].
Proof.
  intros Hmax [HC Hp Hf] Hq.
  assert (Ht : tasks σ = []).
  { destruct (tasks σ) as [|t ts] eqn:Et; [done|]. destruct (task_enabled t (app σ)) as [i [[e s'] Hi]].
    specialize (Hq (ETask 0 i) I). simpl in Hq. by rewrite Et in Hq; simpl in Hq; rewrite Hi in Hq. }
  split; [|done]. rewrite Ht in Hp. simpl in Hp. destruct (queue σ) as [|w|w] eqn:Eq; [done|..].
  - specialize (Hq EClaim I). simpl in Hq. rewrite Eq in Hq. by destruct (claim w (app σ)).
  - specialize (Hq ESpawn I). simpl in Hq. rewrite Eq in Hq. destruct (Z.ltb_spec 0 (free_workers (app σ))); [done|lia].
Qed.

(** C2.  Everything comes to an end: with at least one worker, from any state the server
    can be in, without new requests, however its own steps interleave and whatever the outside answers,
    at most [work σ] steps follow; and when no step is left, the queue is idle, no
    task runs, all worker slots are free, every order is completed, failed or
    cancelled, and every completed or failed one has a result unless it had none when the
    server started. *)
Theorem server_drains s0 σ es σ' :
  1 <= max_workers cfg -> bootable cfg s0 -> reachable cfg normalize any_event s0 σ ->
  Forall internal es -> run cfg normalize es σ = Some σ' ->
  Z.of_nat (length es) <= work σ /\
  (quiescent σ' -> queue σ' = QIdle /\ tasks σ' = [] /\ free_workers (app σ') = max_workers cfg /\
    forall id o, workorders (app σ') !! id = Some o -> is_terminal (wo_status o) = true /\
      (has_result_status (wo_status o) = true -> is_Some (results (app σ') !! id) \/ lost_at s0 id)).
Proof.
  intros Hmax HB Hr Hes Hrun. apply (reachable_inv _ _ _ HB) in Hr as HI. clear Hr.
  assert (Hwork : Z.of_nat (length es) + work σ' <= work σ /\ Inv cfg (lost_at s0) σ').
  { revert σ HI Hrun. induction Hes as [|e es He Hes IH]; simpl; intros σ HI Hrun; [simplify_eq; split; [lia|done]|].
    destruct (exec cfg normalize e σ) as [σ1|] eqn:E1; [|done]. simpl in Hrun.
    pose proof (internal_step_works _ e σ σ1 He E1 HI). apply (exec_inv _ _ _ _ _ _ E1) in HI as HI1.
    destruct (IH σ1 HI1 Hrun) as [Hle HI']. split; [lia|done]. }
  destruct Hwork as [Hle HI']. pose proof (work_nonneg σ'). split; [lia|]. intros Hq.
  destruct (quiescent_idle _ σ' Hmax HI' Hq) as [Hqi Ht]. destruct HI' as [HC Hp _].
  rewrite Ht in Hp. simpl in Hp. split_and!; [done|done|lia|]. intros id o Ho.
  unfold holders in HC. rewrite Hqi, Ht in HC. simpl in HC. split.
  - rewrite is_terminal_active. destruct (wo_status o) eqn:Es; try done; exfalso.
    + specialize (Hq ESelect I). simpl in Hq. rewrite Hqi in Hq.
      destruct (select_next (app σ')) as [w|] eqn:Esel; [done|]. by apply (select_next_None (app σ') id o Esel Ho).
    + apply (con_running _ _ _ _ HC id o) in Ho; [by apply elem_of_nil in Ho|by rewrite Es].
    + apply (con_running _ _ _ _ HC id o) in Ho; [by apply elem_of_nil in Ho|by rewrite Es].
  - intros Hs. destruct (con_results _ _ _ _ HC id o Ho Hs) as [|(h & Hh & _)]; [done|by apply elem_of_nil in Hh].
Qed.

(** ** Where the guarantees end *)

(** A cancelled order comes back to life: if an order is cancelled while its
    worker image is being prepared, the task does not notice; its next step marks the
    order as building again and goes on to start the container. *)
Theorem cancelled_order_resumes σ n t o tag :
  tasks σ !! n = Some t -> t_phase t = PImage -> workorders (app σ) !! t_id t = Some o ->
  wo_status o = Cancelled ->
  exists σ' o', exec cfg normalize (ETask n (IImage tag ImageReady)) σ = Some σ' /\
    workorders (app σ') !! t_id t = Some o' /\ wo_status o' = Building /\
    tasks σ' !! n = Some {| t_order := t_order t; t_phase := PStage |}.
Proof.
  intros Ht Hp Ho Hc. set (s1 := set_image_last_used (<[tag := now_of (app σ)]> (image_last_used (app σ))) (app σ)).
  assert (Hs : task_step cfg t (IImage tag ImageReady) (app σ) =
    Some (Next PStage, set_workorder_status cfg (t_order t) Building s1)) by by destruct t as [w p]; simpl in *; subst p.
  unfold exec. rewrite Ht. cbn [mbind option_bind]. rewrite Hs. cbn [mbind option_bind].
  pose proof (core_set_status cfg (t_order t) Building s1) as Hcore.
  set (s2 := set_workorder_status cfg (t_order t) Building s1) in *.
  eexists _, (with_status Building (now_of s1) o). split; [done|]. split_and!; simpl.
  - change (workorders s2) with (c_orders (core s2)). rewrite Hcore. simpl. fold (t_id t).
    by rewrite lookup_alter_eq, Ho.
  - done.
  - apply list_lookup_insert_eq. by eapply lookup_lt_Some.
Qed.

(** After a restart the queue-depth gauge underflows: once fewer orders are
    pending than were pending when the server started, it shows a number close to
    2^64. *)
Theorem restart_underflows_queue_depth s0 σ :
  bootable cfg s0 -> reachable cfg normalize any_event s0 σ ->
  pending_count (core (app σ)) < pending_count (core s0) <= 2 ^ 64 ->
  counter (metrics (app σ)) queue_depth =
    2 ^ 64 - (pending_count (core s0) - pending_count (core (app σ))).
Proof.
  intros HB Hr Hlt. destruct (reachable_counts _ _ _ HB Hr) as [Hd _]. simpl in Hd. rewrite Hd.
  pose proof (count_if_nonneg is_pending (c_orders (core (app σ)))) as Hnn. unfold pending_count in *.
  rewrite <- (Z_mod_plus_full _ 1). rewrite Z.mod_small; lia.
Qed.

(** *** Runs as witnesses *)

(** The state after a run from [s0]. *)
Definition after (s0 : AppState) (es : list Event) : Sys := default (boot s0) (run cfg normalize es (boot s0)).

Lemma run_reachable_from P s0 es σ σ' :
  reachable cfg normalize P s0 σ -> Forall P es -> run cfg normalize es σ = Some σ' ->
  reachable cfg normalize P s0 σ'.
Proof.
  intros Hr Hes. revert σ Hr. induction Hes as [|e es He Hes IH]; simpl; intros σ Hr Hrun; [by simplify_eq|].
  destruct (exec cfg normalize e σ) as [σ1|] eqn:E; [|done]. simpl in Hrun.
  apply (IH σ1); [by eapply reach_step|done].
Qed.

Lemma after_reachable P s0 es :
  Forall P es -> is_some (run cfg normalize es (boot s0)) = true -> reachable cfg normalize P s0 (after s0 es).
Proof.
  intros Hes Hrun. unfold after. destruct (run cfg normalize es (boot s0)) as [σ|] eqn:E; [|done]. simpl.
  by eapply run_reachable_from; [apply reach_boot|..].
Qed.

End Theorems.

Lemma some_default {A} (o : option A) d : is_some o = true -> o = Some (default d o).
Proof. by destruct o. Qed.

(** *** The demonstration server *)

(** A codec for runs: what is written does not matter, what is read is one pending
    order of client 9. *)
#[local] Instance demo_codec : StateCodec := {|
  workorders_to_json := fun _ => []; workorders_from_json := fun _ => Some {[4%N := demo_order 4 9 Pending 10]};
  results_to_json := fun _ => []; results_from_json := fun _ => Some ∅;
  clients_to_json := fun _ => []; clients_from_json := fun _ => Some ∅ |}.
#[local] Existing Instances Registry.hash_reference Auth.http_reference hash_iter_reference
  hash_iter_reference_laws set_iter_reference.
#[local] Instance demo_sha256 : Sha256 := sha256_reference.

Definition demo_cfg : ServerConfig := ServerConfig_default.
Definition demo_normalize : PortageConfig -> IO PortageConfig := fun c => ret c.
Definition demo_boot : AppState := restore demo_cfg (demo_world []).
Definition demo_request (client : ClientId) : SubmitWorkorderRequest := {|
  req_client_id := client; req_role := Main; req_atoms := ["dev-libs/openssl"]; req_emerge_args := [];
  req_portage_config := Registry.demo_portage_config; req_system_id := Registry.demo_system |}.
Definition demo_trace : TraceContext := {| tc_trace_id := "t"; tc_traceparent := "p" |}.
Definition submit_by (client : ClientId) (id : WorkorderId) : Event := ESubmit ∅ (demo_request client) id demo_trace.

(** Order 1 of client 7 gets as far as the preparation of its image. *)
Definition take_up : list Event := [submit_by 7 1; ESelect; EClaim; ESpawn; ETask 0 IBegin].
(** The rest of a successful build. *)
Definition build_rest : list Event :=
  [ETask 0 (IStage (Ok demo_refs)); ETask 0 (IStart (Ok "c1") 1); ETask 0 (IRun (demo_run 0));
   ETask 0 IConclude; ETask 0 (IReport 60 true)].
Definition image_ready : Event := ETask 0 (IImage "tag" ImageReady).

Lemma demo_bootable : bootable demo_cfg demo_boot.
Proof.
  apply restore_bootable; [vm_compute; discriminate|]. intros m id o Hm Ho. vm_compute in Hm.
  injection Hm as <-. done.
Qed.

Lemma any_events es : Forall any_event es.
Proof. by apply Forall_forall. Qed.

Abbreviation demo_after es := (after demo_cfg demo_normalize demo_boot es).
Lemma demo_reachable es :
  is_some (run demo_cfg demo_normalize es (boot demo_boot)) = true ->
  reachable demo_cfg demo_normalize any_event demo_boot (demo_after es).
Proof. apply after_reachable, any_events. Qed.

Definition status_of (σ : Sys) (id : WorkorderId) : option WorkorderStatus :=
  o ← workorders (app σ) !! id; Some (wo_status o).

(** The whole life of an order. *)
Example demo_life :
  let σ := demo_after (take_up ++ image_ready :: build_rest) in
  status_of σ 1 = Some Completed /\ is_some (results (app σ) !! 1%N) = true /\ tasks σ = [].
Proof. vm_compute. eauto. Qed.

Lemma processing_exclusive_witness :
  let σ := demo_after take_up in
  Z.of_nat (length (tasks σ)) <= max_workers demo_cfg /\
  free_workers (app σ) = max_workers demo_cfg - Z.of_nat (length (tasks σ)) /\
  NoDup (map t_id (holders σ)) /\
  (forall id o, workorders (app σ) !! id = Some o ->
     (is_in_flight (wo_status o) = true -> id ∈ map t_id (holders σ)) /\
     (wo_status o = Pending ->
        (id ∉ map t_id (holders σ)) /\ id ∈ progress_txs (app σ) /\ id ∈ raw_output_txs (app σ)) /\
     (has_result_status (wo_status o) = true ->
        is_Some (results (app σ) !! id) \/ lost_at demo_boot id \/
        exists h, h ∈ holders σ /\ t_id h = id /\ reporting (t_phase h) = true)).
Proof.
  apply (processing_exclusive demo_cfg demo_normalize demo_boot (demo_after take_up)).
  - exact demo_bootable.
  - apply demo_reachable. vm_compute. reflexivity.
Defined.

Lemma gauges_exact_witness :
  let σ := demo_after take_up in
  counter (metrics (app σ)) builds_active = (begun_count (tasks σ) + Z.of_nat (panicked σ)) mod 2 ^ 64 /\
  counter (metrics (app σ)) queue_depth =
    (pending_count (core (app σ)) - pending_count (core demo_boot)) mod 2 ^ 64.
Proof.
  apply (gauges_exact demo_cfg demo_normalize demo_boot (demo_after take_up)).
  - exact demo_bootable.
  - apply demo_reachable. vm_compute. reflexivity.
Defined.

Definition order_of (σ : Sys) (id : WorkorderId) : Workorder :=
  default (demo_order 0 0 Cancelled 0) (workorders (app σ) !! id).

Lemma one_active_order_per_client_witness :
  is_active (wo_status (order_of (demo_after take_up) 1)) = true /\ 1%N = 1%N.
Proof.
  split; [vm_compute; reflexivity|].
  apply (one_active_order_per_client demo_cfg demo_normalize demo_boot (demo_after take_up) 1 1
    (order_of (demo_after take_up) 1) (order_of (demo_after take_up) 1)).
  - exact demo_bootable.
  - intros id o Ho. vm_compute in Ho. discriminate.
  - apply after_reachable; [repeat constructor|vm_compute; reflexivity].
  - apply some_default. vm_compute. reflexivity.
  - apply some_default. vm_compute. reflexivity.
  - vm_compute. reflexivity.
  - vm_compute. reflexivity.
  - reflexivity.
Defined.

(** The order is cancelled and evicted while its image is being built, so the start
    of its container panics. *)
Definition evicted_early : list Event :=
  take_up ++ [image_ready; ECancel ∅ 1; EWorld demo_late; EEvict; ETask 0 (IStage (Ok demo_refs))].
Definition start_order : Event := ETask 0 (IStart (Ok "c1") 1).

Lemma panic_only_if_evicted_witness :
  exists n t, start_order = ETask n t /\ exists h, tasks (demo_after evicted_early) !! n = Some h /\
    t_phase h = PStart /\ workorders (app (demo_after evicted_early)) !! t_id h = None.
Proof.
  apply (panic_only_if_evicted demo_cfg demo_normalize demo_boot (demo_after evicted_early)
    (default (demo_after evicted_early) (exec demo_cfg demo_normalize start_order (demo_after evicted_early)))).
  - exact demo_bootable.
  - apply demo_reachable. vm_compute. reflexivity.
  - apply some_default. vm_compute. reflexivity.
  - vm_compute. discriminate.
Defined.

(** In that run the container was started and is never removed, and the worker's
    active-build gauge stays up although no task is left. *)
Example panic_leaks_container :
  let σ := demo_after (evicted_early ++ [start_order]) in
  tasks σ = [] /\ container_ids (app σ) !! 1%N = Some "c1" /\ counter (metrics (app σ)) builds_active = 1.
Proof. vm_compute. eauto. Qed.

Lemma server_drains_witness :
  let σ := demo_after take_up in
  let σ' := default σ (run demo_cfg demo_normalize (image_ready :: build_rest) σ) in
  6 <= work σ /\
  (quiescent demo_cfg demo_normalize σ' -> queue σ' = QIdle /\ tasks σ' = [] /\
    free_workers (app σ') = max_workers demo_cfg /\
    forall id o, workorders (app σ') !! id = Some o -> is_terminal (wo_status o) = true /\
      (has_result_status (wo_status o) = true -> is_Some (results (app σ') !! id) \/ lost_at demo_boot id)).
Proof.
  apply (server_drains demo_cfg demo_normalize demo_boot (demo_after take_up) (image_ready :: build_rest)).
  - vm_compute. discriminate.
  - exact demo_bootable.
  - apply demo_reachable. vm_compute. reflexivity.
  - repeat constructor.
  - apply some_default. vm_compute. reflexivity.
Defined.

Definition cancelled_early : list Event := take_up ++ [ECancel ∅ 1].

Lemma cancelled_order_resumes_witness :
  let σ := demo_after cancelled_early in
  let t := {| t_order := order_of (demo_after [submit_by 7 1]) 1; t_phase := PImage |} in
  exists σ' o', exec demo_cfg demo_normalize (ETask 0 (IImage "tag" ImageReady)) σ = Some σ' /\
    workorders (app σ') !! 1%N = Some o' /\ wo_status o' = Building /\
    tasks σ' !! 0%nat = Some {| t_order := t_order t; t_phase := PStage |}.
Proof.
  apply (cancelled_order_resumes demo_cfg demo_normalize (demo_after cancelled_early) 0
    {| t_order := order_of (demo_after [submit_by 7 1]) 1; t_phase := PImage |}
    (order_of (demo_after cancelled_early) 1)).
  - vm_compute. reflexivity.
  - reflexivity.
  - apply some_default. vm_compute. reflexivity.
  - vm_compute. reflexivity.
Defined.

(** The cancelled order of that run ends up completed. *)
Example cancelled_order_completes :
  status_of (demo_after cancelled_early) 1 = Some Cancelled /\
  status_of (demo_after (cancelled_early ++ image_ready :: build_rest)) 1 = Some Completed.
Proof. vm_compute. eauto. Qed.

(** Cancelling breaks the one-order-per-client rule: there is a run, from a
    server started without orders, in which a client has two active orders, because
    the cancellation clears the client's mark while the task carries on. *)
Theorem cancel_allows_two_active_orders :
  exists σ id1 id2 o1 o2, bootable demo_cfg demo_boot /\ workorders demo_boot = ∅ /\
    reachable demo_cfg demo_normalize any_event demo_boot σ /\ id1 <> id2 /\
    workorders (app σ) !! id1 = Some o1 /\ workorders (app σ) !! id2 = Some o2 /\
    is_active (wo_status o1) = true /\ is_active (wo_status o2) = true /\ wo_client_id o1 = wo_client_id o2.
Proof.
  set (es := cancelled_early ++ [submit_by 7 2; image_ready]).
  exists (demo_after es), 1%N, 2%N, (order_of (demo_after es) 1), (order_of (demo_after es) 2).
  split_and!; [exact demo_bootable|reflexivity| |done|..].
  - apply demo_reachable. vm_compute. reflexivity.
  - apply some_default. vm_compute. reflexivity.
  - apply some_default. vm_compute. reflexivity.
  - vm_compute. reflexivity.
  - vm_compute. reflexivity.
  - vm_compute. reflexivity.
Qed.

(** A restart with one pending order on the disk. *)
Definition demo_restarted : AppState := restore demo_cfg {|
  files := {[workorders_path (state_dir demo_cfg) := []]}; faults := []; next_uuid := 0; clock := 1000 |}.

Lemma keys_check (m : gmap WorkorderId Workorder) id o :
  forallb (fun '(i, w) => bool_decide (wo_id w = i)) (map_to_list m) = true -> m !! id = Some o -> wo_id o = id.
Proof.
  rewrite forallb_forall. intros Hc Ho. specialize (Hc (id, o)). apply bool_decide_eq_true in Hc; [done|].
  by apply list_elem_of_In, elem_of_map_to_list.
Qed.

Lemma restart_underflows_queue_depth_witness :
  let σ := after demo_cfg demo_normalize demo_restarted [ESelect; EClaim] in
  counter (metrics (app σ)) queue_depth =
    2 ^ 64 - (pending_count (core demo_restarted) - pending_count (core (app σ))).
Proof.
  apply (restart_underflows_queue_depth demo_cfg demo_normalize demo_restarted).
  - apply restore_bootable; [vm_compute; discriminate|]. intros m id o Hm. apply keys_check.
    vm_compute in Hm. injection Hm as <-. vm_compute. reflexivity.
  - apply after_reachable; [apply any_events|vm_compute; reflexivity].
  - vm_compute. split; [reflexivity|discriminate].
Defined.
