(* ===== verification/Versions.v ===== *)
(** * Package versions and installed packages ([crates/cli/src/portage.rs])

    How the client compares the versions of packages and decides whether an atom is
    already installed: [split_name_version], [parse_atom_operator],
    [split_revision], [compare_versions] and [PortageReader::is_installed].

    [compare_versions] is shown to be a total preorder by comparing keys: a
    component of a version is a pre-release suffix, a text, a number with an
    optional letter, or a patch suffix, in this order. *)

From S2P Require Import Prelude Repo.

(** ** Strings *)

(** [rest.parse::<u64>()] on a text of digits. *)
Fixpoint digits_value (acc : Z) (l : list ascii) : Z :=
  match l with [] => acc | c :: r => digits_value (acc * 10 + (code c - 48)) r end.
Definition parse_u64 (s : string) : option Z :=
  if is_empty s || negb (all_chars is_ascii_digit s) then None
  else let n := digits_value 0 (chars s) in if n <=? u64_max then Some n else None.

(** [s.split(['.', '_'])] *)
Fixpoint split_where (p : ascii -> bool) (s : string) : list string :=
  match s with
  | EmptyString => [""]
  | String c r =>
      if p c then "" :: split_where p r
      else match split_where p r with
           | x :: xs => String c x :: xs
           | [] => [String c ""]
           end
  end.
Definition is_part_separator (c : ascii) : bool := Ascii.eqb c "." || Ascii.eqb c "_".

(** [s.rfind(x)], as the text before and after the last occurrence of [x]. *)
Fixpoint rsplit_at (x s : string) : option (string * string) :=
  match s with
  | EmptyString => match x with EmptyString => Some ("", "") | _ => None end
  | String c r =>
      match rsplit_at x r with
      | Some (a, b) => Some (String c a, b)
      | None => (fun b => ("", b)) <$> strip_prefix x s
      end
  end.

(** ** Atoms *)

Fixpoint split_name_version_opt (s : string) : option (string * string) :=
  match s with
  | EmptyString => None
  | String c r =>
      match split_name_version_opt r with
      | Some (a, b) => Some (String c a, b)
      | None =>
          if Ascii.eqb c "-" && match r with String d _ => is_ascii_digit d | EmptyString => false end
          then Some ("", r) else None
      end
  end.

(** The version starts after the last [-] that a digit follows. *)
Definition split_name_version (s : string) : string * option string :=
  match split_name_version_opt s with Some (a, b) => (a, Some b) | None => (s, None) end.

Inductive AtomOp := OpNone | OpEq | OpEqGlob | OpTilde | OpGe | OpLe | OpGt | OpLt.

#[global] Instance AtomOp_eq_dec : EqDecision AtomOp.
Proof. solve_decision. Defined.

Definition parse_atom_operator (atom : string) : AtomOp * string :=
  match strip_prefix ">=" atom with
  | Some rest => (OpGe, rest)
  | None =>
  match strip_prefix "<=" atom with
  | Some rest => (OpLe, rest)
  | None =>
  match strip_prefix "=" atom with
  | Some rest => if ends_with "*" rest then (OpEqGlob, rest) else (OpEq, rest)
  | None =>
  match strip_prefix "~" atom with
  | Some rest => (OpTilde, rest)
  | None =>
  match strip_prefix ">" atom with
  | Some rest => (OpGt, rest)
  | None =>
  match strip_prefix "<" atom with
  | Some rest => (OpLt, rest)
  | None => (OpNone, atom)
  end end end end end end.

(** The revision includes its [r]. *)
Definition split_revision (version : string) : string * option string :=
  match rsplit_at "-r" version with
  | Some (base, after) =>
      if negb (is_empty after) && all_chars is_ascii_digit after then (base, Some ("r" +:+ after)) else (version, None)
  | None => (version, None)
  end.

(** ** Components of a version *)

Definition suffix_kind_with_number (s prefix : string) (kind : Z) : option (Z * Z) :=
  match strip_prefix prefix s with
  | None => None
  | Some rest =>
      if is_empty rest then Some (kind, 0)
      else if negb (all_chars is_ascii_digit rest) then None
      else match parse_u64 rest with Some n => Some (kind, n) | None => None end
  end.

Definition suffix_order (s : string) : option (Z * Z) :=
  or_else (suffix_kind_with_number s "alpha" (-4))
  (or_else (suffix_kind_with_number s "beta" (-3))
  (or_else (suffix_kind_with_number s "pre" (-2))
  (or_else (suffix_kind_with_number s "rc" (-1))
           (suffix_kind_with_number s "p" 1)))).

Fixpoint span_digits (l : list ascii) : list ascii * list ascii :=
  match l with
  | [] => ([], [])
  | c :: r => if is_ascii_digit c then let '(a, b) := span_digits r in (c :: a, b) else ([], l)
  end.

Definition split_numeric_letter (s : string) : option Z * option ascii :=
  let '(digits, rest) := span_digits (chars s) in
  (match digits with [] => None | _ => parse_u64 (of_chars digits) end,
   match rest with c :: _ => if is_ascii_lower c then Some c else None | [] => None end).

Definition pair_compare (a b : Z * Z) : comparison :=
  match fst a ?= fst b with Eq => snd a ?= snd b | c => c end.
Definition ascii_compare (a b : ascii) : comparison := code a ?= code b.

(** One turn of the loop; [Eq]: the next component decides. *)
Definition compare_component (pa pb : string) : comparison :=
  match suffix_order pa, suffix_order pb with
  | Some a_key, Some b_key => pair_compare a_key b_key
  | Some a_key, None => fst a_key ?= 0
  | None, Some b_key => 0 ?= fst b_key
  | None, None =>
      let '(na, la) := split_numeric_letter pa in
      let '(nb, lb) := split_numeric_letter pb in
      match na, nb with
      | Some a_num, Some b_num =>
          match a_num ?= b_num with
          | Eq => match la, lb with
                  | None, None => Eq
                  | None, Some _ => Lt
                  | Some _, None => Gt
                  | Some a_c, Some b_c => ascii_compare a_c b_c
                  end
          | c => c
          end
      | Some _, None => Gt
      | None, Some _ => Lt
      | None, None => String.compare pa pb
      end
  end.

(** The loop over the indices; a missing component is the empty text. *)
Fixpoint compare_from (a b : list string) (idx : list nat) : comparison :=
  match idx with
  | [] => Eq
  | i :: rest => match compare_component (nth i a "") (nth i b "") with Eq => compare_from a b rest | c => c end
  end.

Definition revision_number (rev : option string) : Z :=
  default 0 (rev ≫= fun r => strip_prefix "r" r ≫= parse_u64).

Definition compare_versions (a b : string) : comparison :=
  let '(a_base, a_rev) := split_revision a in
  let '(b_base, b_rev) := split_revision b in
  let a_parts := split_where is_part_separator a_base in
  let b_parts := split_where is_part_separator b_base in
  match compare_from a_parts b_parts (seq 0 (max (length a_parts) (length b_parts))) with
  | Eq => revision_number a_rev ?= revision_number b_rev
  | c => c
  end.

(** ** Installed packages *)

(** [s.trim_end_matches('*')] *)
Definition trim_end_stars (s : string) : string :=
  of_chars (rev (drop_while (Ascii.eqb "*") (rev (chars s)))).

(** Whether an installed version satisfies the constraint of an atom. *)
Definition version_matches (op : AtomOp) (installed_ver constraint_ver : string) : bool :=
  match op with
  | OpNone => true
  | OpEq => String.eqb installed_ver constraint_ver
  | OpEqGlob => starts_with (trim_end_stars constraint_ver) installed_ver
  | OpTilde => String.eqb (fst (split_revision installed_ver)) (fst (split_revision constraint_ver))
  | OpGe => match compare_versions installed_ver constraint_ver with Lt => false | _ => true end
  | OpLe => match compare_versions installed_ver constraint_ver with Gt => false | _ => true end
  | OpGt => match compare_versions installed_ver constraint_ver with Gt => true | _ => false end
  | OpLt => match compare_versions installed_ver constraint_ver with Lt => true | _ => false end
  end.

(** The loop over the entries of a category. *)
Fixpoint any_installed (op : AtomOp) (pkg_name : string) (constraint : option string) (entries : list string) : bool :=
  match entries with
  | [] => false
  | fname :: rest =>
      let '(installed_name, installed_version) := split_name_version fname in
      if negb (String.eqb installed_name pkg_name) then any_installed op pkg_name constraint rest
      else
        match constraint, installed_version with
        | None, _ => true
        | Some _, None => any_installed op pkg_name constraint rest
        | Some c, Some v => if version_matches op v c then true else any_installed op pkg_name constraint rest
        end
  end.

(** [vdb]: the entries of [var/db/pkg/<category>], [None] where it cannot be listed. *)
Definition is_installed (vdb : string -> option (list string)) (atom : string) : bool :=
  if starts_with "@" atom then false
  else
    let '(op, stripped) := parse_atom_operator atom in
    match split_once "/" stripped with
    | None => false
    | Some (category, name_maybe_version) =>
        let '(pkg_name, constraint) :=
          match op with OpNone => (name_maybe_version, None) | _ => split_name_version name_maybe_version end in
        match vdb category with
        | None => false
        | Some entries => any_installed op pkg_name constraint entries
        end
    end.

(** ** Total preorders given by a comparison *)

Class CmpOrder {A : Type} (cmp : A -> A -> comparison) : Prop := {
  cmp_sym : forall x y, cmp y x = CompOpp (cmp x y);
  cmp_le_trans : forall x y z, cmp x y <> Gt -> cmp y z <> Gt -> cmp x z <> Gt;
}.

Arguments cmp_sym {A} cmp {_} x y.
Arguments cmp_le_trans {A} cmp {_} x y z.

Section CmpOrder.
Context {A : Type} (cmp : A -> A -> comparison) `{!CmpOrder cmp}.

Lemma cmp_refl x : cmp x x = Eq.
Proof. pose proof (cmp_sym cmp x x) as Hs. by destruct (cmp x x). Qed.

(** Equivalent elements compare alike. *)
Lemma cmp_eq_l x y z : cmp x y = Eq -> cmp x z = cmp y z.
Proof.
  intros He. assert (He' : cmp y x = Eq) by by rewrite (cmp_sym cmp), He.
  pose proof (cmp_le_trans cmp x y z) as H1. pose proof (cmp_le_trans cmp y x z) as H2.
  pose proof (cmp_le_trans cmp z x y) as H3. pose proof (cmp_le_trans cmp z y x) as H4.
  rewrite (cmp_sym cmp x z) in H3, H4. rewrite (cmp_sym cmp y z) in H3, H4. rewrite He, He' in *.
  destruct (cmp x z), (cmp y z); simpl in *; try done; exfalso;
    first [by apply H1|by apply H2|by apply H3|by apply H4].
Qed.

Lemma cmp_lt_trans x y z : cmp x y <> Gt -> cmp y z = Lt -> cmp x z = Lt.
Proof.
  intros Hxy Hyz. destruct (cmp x z) eqn:E; [|done|].
  - rewrite (cmp_eq_l _ _ y E) in Hxy. rewrite (cmp_sym cmp y z), Hyz in Hxy. done.
  - exfalso. apply (cmp_le_trans cmp x y z); [done| |done]. by rewrite Hyz.
Qed.

Lemma cmp_lt_trans_l x y z : cmp x y = Lt -> cmp y z <> Gt -> cmp x z = Lt.
Proof.
  intros Hxy Hyz. destruct (cmp x z) eqn:E; [|done|].
  - rewrite (cmp_sym cmp), <- (cmp_eq_l _ _ y E), Hxy in Hyz. done.
  - exfalso. apply (cmp_le_trans cmp x y z); [|done|done]. by rewrite Hxy.
Qed.
End CmpOrder.

(** Orders from orders: by a key, and lexicographically. *)
Definition on_key {A B : Type} (f : A -> B) (cmp : B -> B -> comparison) (x y : A) : comparison := cmp (f x) (f y).
Definition lex {A : Type} (c1 c2 : A -> A -> comparison) (x y : A) : comparison :=
  match c1 x y with Eq => c2 x y | c => c end.

#[global] Instance on_key_order {A B : Type} (f : A -> B) cmp : CmpOrder cmp -> CmpOrder (on_key f cmp).
Proof. intros Hc. split; intros x y; [apply (cmp_sym cmp)|]. intros z. apply (cmp_le_trans cmp). Qed.

#[global] Instance lex_order {A : Type} (c1 c2 : A -> A -> comparison) : CmpOrder c1 -> CmpOrder c2 -> CmpOrder (lex c1 c2).
Proof.
  intros H1 H2. split; unfold lex.
  - intros x y. rewrite (cmp_sym c1 x y). destruct (c1 x y); simpl; [apply (cmp_sym c2)|done|done].
  - intros x y z Hxy Hyz. destruct (c1 x y) eqn:E1; [| |done].
    + rewrite (cmp_eq_l c1 _ _ z E1). destruct (c1 y z) eqn:E2; [|done|done]. by eapply (cmp_le_trans c2).
    + assert (Hz : c1 x z = Lt); [|by rewrite Hz]. apply (cmp_lt_trans_l c1 x y z E1).
      destruct (c1 y z); done.
Qed.

#[global] Instance Z_order : CmpOrder Z.compare.
Proof. split; intros; [apply Z.compare_antisym|]. rewrite Z.compare_le_iff in *. lia. Qed.

#[global] Instance string_order : CmpOrder String.compare.
Proof.
  split; [intros; apply String.compare_antisym|].
  induction x as [|a x IH]; intros [|b y] [|c z]; simpl; try done. unfold Ascii.compare.
  destruct (N.compare_spec (N_of_ascii a) (N_of_ascii b)) as [H1|H1|H1]; [| |done];
    destruct (N.compare_spec (N_of_ascii b) (N_of_ascii c)) as [H2|H2|H2]; try done; intros Hx Hy;
    destruct (N.compare_spec (N_of_ascii a) (N_of_ascii c)) as [H3|H3|H3]; try done; try lia.
  by eapply IH.
Qed.

(** ** Keys of components *)

Definition key : Type := Z * (Z * (Z * string)).
Definition key_compare : key -> key -> comparison :=
  lex (on_key fst Z.compare) (on_key snd (lex (on_key fst Z.compare) (on_key snd (lex (on_key fst Z.compare) (on_key snd String.compare))))).

Definition letter_code (l : option ascii) : Z := match l with Some c => code c | None => -1 end.

(** 0: alpha, beta, pre, rc; 1: other texts, also the missing component; 2: numbers; 3: patch levels. *)
Definition component_key (s : string) : key :=
  match suffix_order s with
  | Some (kind, n) => (if kind <? 0 then 0 else 3, (kind, (n, "")))
  | None =>
      match split_numeric_letter s with
      | (Some n, l) => (2, (n, (letter_code l, "")))
      | (None, _) => (1, (0, (0, s)))
      end
  end.

Lemma suffix_kind_value s p k kn : suffix_kind_with_number s p k = Some kn -> fst kn = k.
Proof. unfold suffix_kind_with_number. by repeat case_match; intros [= <-]. Qed.

Lemma suffix_order_kind s k n : suffix_order s = Some (k, n) -> -4 <= k <= -1 \/ k = 1.
Proof.
  unfold suffix_order, or_else. intros Hs. repeat case_match; simplify_eq;
    match goal with H : suffix_kind_with_number _ _ _ = _ |- _ => apply suffix_kind_value in H; simpl in H end; subst; lia.
Qed.

Lemma code_range c : 0 <= code c < 256.
Proof. unfold code. pose proof (N_ascii_bounded c). lia. Qed.

Lemma compare_component_key pa pb : compare_component pa pb = key_compare (component_key pa) (component_key pb).
Proof.
  unfold compare_component, component_key, key_compare, lex, on_key.
  destruct (suffix_order pa) as [[ka na]|] eqn:Ea, (suffix_order pb) as [[kb nb]|] eqn:Eb; simpl.
  - apply suffix_order_kind in Ea, Eb. unfold pair_compare. simpl.
    destruct (Z.ltb_spec ka 0), (Z.ltb_spec kb 0); simpl; try lia;
      destruct (Z.compare_spec ka kb); try lia; try done; by destruct (na ?= nb).
  - apply suffix_order_kind in Ea. destruct (split_numeric_letter pb) as [[n|] l];
      destruct (Z.ltb_spec ka 0); simpl; destruct (Z.compare_spec ka 0); try lia; done.
  - apply suffix_order_kind in Eb. destruct (split_numeric_letter pa) as [[n|] l];
      destruct (Z.ltb_spec kb 0); simpl; destruct kb; try lia; done.
  - destruct (split_numeric_letter pa) as [[n|] la], (split_numeric_letter pb) as [[m|] lb]; simpl; try done.
    destruct (n ?= m) eqn:E; try done. destruct la as [c|], lb as [d|]; simpl; try done.
    + unfold ascii_compare. by destruct (code c ?= code d).
    + pose proof (code_range c). destruct (Z.compare_spec (code c) (-1)); try lia. done.
    + pose proof (code_range d). destruct (code d); try lia; done.
Qed.

#[global] Instance component_order : CmpOrder compare_component.
Proof.
  assert (Hk : CmpOrder (on_key component_key key_compare)) by apply _.
  destruct Hk as [Hs Ht]. split; unfold on_key in *.
  - intros x y. rewrite !compare_component_key. apply Hs.
  - intros x y z. rewrite !compare_component_key. apply Ht.
Qed.

(** ** Versions *)

#[global] Instance compare_from_order idx : CmpOrder (fun a b => compare_from a b idx).
Proof.
  induction idx as [|i idx IH]; [by split|].
  change (CmpOrder (lex (on_key (fun a => nth i a "") compare_component) (fun a b => compare_from a b idx))). apply _.
Qed.

Lemma compare_from_app a b idx jdx :
  compare_from a b (idx ++ jdx) = match compare_from a b idx with Eq => compare_from a b jdx | c => c end.
Proof. induction idx as [|i idx IH]; [done|]. simpl. rewrite IH. by destruct (compare_component _ _). Qed.

(** Indices past both lists do not count. *)
Lemma compare_from_past a b n m :
  (length a <= n)%nat -> (length b <= n)%nat -> compare_from a b (seq n m) = Eq.
Proof.
  revert n. induction m as [|m IH]; intros n Ha Hb; simpl; [done|].
  rewrite !nth_overflow by lia. rewrite cmp_refl by apply _. apply IH; lia.
Qed.

Lemma compare_from_seq a b n :
  (max (length a) (length b) <= n)%nat ->
  compare_from a b (seq 0 n) = compare_from a b (seq 0 (max (length a) (length b))).
Proof.
  intros Hn. set (k := max (length a) (length b)) in *. replace n with (k + (n - k))%nat by lia.
  rewrite seq_app, compare_from_app, (compare_from_past a b (0 + k) (n - k)) by lia.
  by destruct (compare_from a b (seq 0 k)).
Qed.

Definition version_parts (v : string) : list string := split_where is_part_separator (fst (split_revision v)).
Definition version_revision (v : string) : Z := revision_number (snd (split_revision v)).

(** The comparison of versions with the components numbered up to [n]. *)
Definition compare_upto (n : nat) : string -> string -> comparison :=
  lex (on_key version_parts (fun a b => compare_from a b (seq 0 n))) (on_key version_revision Z.compare).

Lemma compare_versions_upto a b n :
  (max (length (version_parts a)) (length (version_parts b)) <= n)%nat -> compare_versions a b = compare_upto n a b.
Proof.
  intros Hn. unfold compare_versions, compare_upto, lex, on_key, version_parts, version_revision in *.
  destruct (split_revision a) as [a_base a_rev], (split_revision b) as [b_base b_rev]. simpl in *.
  rewrite (compare_from_seq _ _ n) by done. done.
Qed.

#[global] Instance versions_order : CmpOrder compare_versions.
Proof.
  split.
  - intros x y. set (n := max (length (version_parts x)) (length (version_parts y))).
    rewrite !(compare_versions_upto _ _ n) by (unfold n; lia). apply (cmp_sym (compare_upto n)).
  - intros x y z.
    set (n := max (length (version_parts x)) (max (length (version_parts y)) (length (version_parts z)))).
    rewrite !(compare_versions_upto _ _ n) by (unfold n; lia). apply (cmp_le_trans (compare_upto n)).
Qed.

(** Comparing versions is a total preorder: comparing the other way round gives
    the opposite result, a version is equivalent to itself, [<=] is transitive, and
    equivalent versions compare alike with every version. *)
Theorem compare_versions_preorder a b c :
  compare_versions b a = CompOpp (compare_versions a b) /\
  compare_versions a a = Eq /\
  (compare_versions a b <> Gt -> compare_versions b c <> Gt -> compare_versions a c <> Gt) /\
  (compare_versions a b = Lt -> compare_versions b c <> Gt -> compare_versions a c = Lt) /\
  (compare_versions a b = Eq -> compare_versions a c = compare_versions b c).
Proof.
  split_and!; [apply (cmp_sym compare_versions)|by apply cmp_refl, _|apply cmp_le_trans, _| |].
  - by apply cmp_lt_trans_l, _.
  - by apply cmp_eq_l, _.
Qed.

Lemma compare_versions_preorder_witness : compare_versions "1.2" "1.10.1-r2" = Lt.
Proof.
  destruct (compare_versions_preorder "1.2" "1.10" "1.10.1-r2") as (_ & _ & _ & Hlt & _).
  apply Hlt; vm_compute; done.
Defined.

(** ** Atoms with a bound *)

(** An atom with a version that starts with a digit and has no [-] before a digit. *)
Definition plain_version (v : string) : bool :=
  match v with
  | String c _ => is_ascii_digit c && bool_decide (split_name_version_opt v = None)
  | EmptyString => false
  end.

Lemma split_name_version_join n v : plain_version v = true -> split_name_version (n +:+ "-" +:+ v) = (n, Some v).
Proof.
  intros Hv. unfold split_name_version. change ("-" +:+ v) with (String "-" v).
  assert (Hj : split_name_version_opt (n +:+ String "-" v) = Some (n, v)); [|by rewrite Hj].
  assert (Hd : split_name_version_opt (String "-" v) = Some ("", v)).
  { destruct v as [|c v]; [done|]. unfold plain_version in Hv. apply andb_true_iff in Hv as [Hc Hv].
    apply bool_decide_eq_true in Hv. cbn [split_name_version_opt] in *. rewrite Hv. simpl. by rewrite Hc. }
  induction n as [|c n IH]; [exact Hd|]. change (String c n +:+ String "-" v) with (String c (n +:+ String "-" v)).
  cbn [split_name_version_opt]. by rewrite IH.
Qed.

Lemma any_installed_true op name c entries :
  any_installed op name (Some c) entries = true <->
  exists fname v, fname ∈ entries /\ split_name_version fname = (name, Some v) /\ version_matches op v c = true.
Proof.
  induction entries as [|f fs IH]; simpl.
  - split; [done|]. intros (? & ? & Hf & _). by apply elem_of_nil in Hf.
  - destruct (split_name_version f) as [n [v|]] eqn:Ef.
    + destruct (String.eqb_spec n name) as [->|Hne]; simpl.
      * destruct (version_matches op v c) eqn:Em.
        { split; [|done]. intros _. exists f, v. rewrite elem_of_cons. auto. }
        rewrite IH. split; intros (f' & v' & Hf & Hs & Hm); exists f', v'; [set_solver|].
        apply elem_of_cons in Hf as [->|Hf]; [|done]. congruence.
      * rewrite IH. split; intros (f' & v' & Hf & Hs & Hm); exists f', v'; [set_solver|].
        apply elem_of_cons in Hf as [->|Hf]; [|done]. congruence.
    + assert (Hrest : (if negb (String.eqb n name) then any_installed op name (Some c) fs else any_installed op name (Some c) fs)
        = any_installed op name (Some c) fs) by by destruct (negb _).
      destruct (negb (String.eqb n name)); rewrite IH;
        (split; intros (f' & v' & Hf & Hs & Hm); exists f', v'; [set_solver|];
         apply elem_of_cons in Hf as [->|Hf]; [congruence|done]).
Qed.

(** The four comparing operators. *)
Definition op_text (op : AtomOp) : string :=
  match op with OpGe => ">=" | OpLe => "<=" | OpGt => ">" | OpLt => "<" | _ => "" end.
Definition is_bound (op : AtomOp) : bool := match op with OpGe | OpLe | OpGt | OpLt => true | _ => false end.

(** [op cat/name-version] *)
Definition bound_atom (op : AtomOp) (cat name v : string) : string :=
  op_text op +:+ cat +:+ "/" +:+ name +:+ "-" +:+ v.

(** A category starts with a letter and has no slash. *)
Definition category_ok (cat : string) : bool :=
  match cat with String c _ => is_ascii_lower c && negb (contains_char "/" cat) | EmptyString => false end.

Lemma parse_bound op rest c s : is_bound op = true -> rest = String c s -> is_ascii_lower c = true ->
  parse_atom_operator (op_text op +:+ rest) = (op, rest).
Proof.
  intros Hop -> Hc. assert (Hne : Ascii.eqb "=" c = false) by (destruct (Ascii.eqb_spec "=" c) as [<-|]; done).
  destruct op; try done; unfold parse_atom_operator; cbn [op_text].
  - change (">" +:+ String c s) with (String ">" (String c s)). cbn -[Ascii.eqb ends_with].
    by rewrite Hne.
  - change ("<" +:+ String c s) with (String "<" (String c s)). cbn -[Ascii.eqb ends_with].
    by rewrite Hne.
Qed.

Lemma is_installed_bound vdb op cat name v entries :
  is_bound op = true -> category_ok cat = true -> plain_version v = true -> vdb cat = Some entries ->
  is_installed vdb (bound_atom op cat name v) = any_installed op name (Some v) entries.
Proof.
  intros Hop Hcat Hv Hdb. unfold is_installed, bound_atom.
  destruct cat as [|c cat]; [done|]. simpl in Hcat. apply andb_true_iff in Hcat as [Hc Hcat].
  assert (Hat : starts_with "@" (op_text op +:+ String c cat +:+ "/" +:+ name +:+ "-" +:+ v) = false) by by destruct op.
  rewrite Hat. rewrite (parse_bound op _ c (cat +:+ "/" +:+ name +:+ "-" +:+ v)) by done.
  rewrite (proj2 (split_once_Some "/" _ (String c cat) (name +:+ "-" +:+ v))).
  - rewrite split_name_version_join by done. destruct op; try done; by rewrite Hdb.
  - split; [done|]. intros Hin. apply negb_true_iff in Hcat. apply contains_char_spec in Hin. congruence.
Qed.

(** Version constraints of atoms behave like an order: what satisfies [>= v]
    satisfies [>= v'] for every older [v'], what satisfies [> v] satisfies [>= v],
    and a package that is installed with some version satisfies [>= v] or [< v]. *)
Theorem is_installed_ordered vdb cat name v v' entries :
  category_ok cat = true -> plain_version v = true -> plain_version v' = true -> vdb cat = Some entries ->
  compare_versions v' v <> Gt ->
  (is_installed vdb (bound_atom OpGe cat name v) = true -> is_installed vdb (bound_atom OpGe cat name v') = true) /\
  (is_installed vdb (bound_atom OpGt cat name v) = true -> is_installed vdb (bound_atom OpGt cat name v') = true) /\
  (is_installed vdb (bound_atom OpLt cat name v') = true -> is_installed vdb (bound_atom OpLt cat name v) = true) /\
  (is_installed vdb (bound_atom OpGt cat name v) = true -> is_installed vdb (bound_atom OpGe cat name v) = true) /\
  (forall i, name +:+ "-" +:+ i ∈ entries -> plain_version i = true ->
     is_installed vdb (bound_atom OpGe cat name v) = true \/ is_installed vdb (bound_atom OpLt cat name v) = true).
Proof.
  intros Hcat Hv Hv' Hdb Hle. rewrite !(is_installed_bound vdb _ cat name _ entries) by done.
  setoid_rewrite any_installed_true. simpl. split_and!.
  - intros (f & i & Hf & Hs & Hm). exists f, i. split_and!; [done|done|].
    destruct (compare_versions i v) eqn:E; [| done |];
      (destruct (compare_versions i v') eqn:E'; [done| |done]); exfalso;
      (assert (Hlt : compare_versions i v = Lt); [by eapply (cmp_lt_trans_l compare_versions)|congruence]).
  - intros (f & i & Hf & Hs & Hm). exists f, i. split_and!; [done|done|].
    destruct (compare_versions i v) eqn:E; [done|done|].
    assert (Hvi : compare_versions v i = Lt) by by rewrite (cmp_sym compare_versions i v), E.
    assert (Hlt : compare_versions v' i = Lt) by by eapply (cmp_lt_trans compare_versions).
    by rewrite (cmp_sym compare_versions v' i), Hlt.
  - intros (f & i & Hf & Hs & Hm). exists f, i. split_and!; [done|done|].
    destruct (compare_versions i v') eqn:E; [done| |done].
    by rewrite (cmp_lt_trans_l compare_versions i v' v E Hle).
  - intros (f & i & Hf & Hs & Hm). exists f, i. split_and!; [done|done|]. by destruct (compare_versions i v).
  - intros i Hin Hi. destruct (compare_versions i v) eqn:E.
    + left. exists (name +:+ "-" +:+ i), i. by rewrite split_name_version_join, E.
    + right. exists (name +:+ "-" +:+ i), i. by rewrite split_name_version_join, E.
    + left. exists (name +:+ "-" +:+ i), i. by rewrite split_name_version_join, E.
Qed.

Definition demo_vdb (category : string) : option (list string) :=
  if String.eqb category "dev-libs" then Some ["openssl-3.1.4-r1"; "glib-2.78.0"] else None.

Lemma is_installed_ordered_witness :
  is_installed demo_vdb ">=dev-libs/openssl-3.1.4" = true -> is_installed demo_vdb ">=dev-libs/openssl-3.0" = true.
Proof.
  apply (is_installed_ordered demo_vdb "dev-libs" "openssl" "3.1.4" "3.0" ["openssl-3.1.4-r1"; "glib-2.78.0"]);
    vm_compute; done.
Defined.

(** The comparison departs from the rules of the Package Manager Specification
    that its documentation names: a patch suffix is ranked above any further
    component ([1.0_p1] above [1.0.1]), leading zeros of a component do not count
    ([1.01] and [1.1] are equivalent), and a number that does not fit in 64 bits is
    ranked below every number that does. *)
Theorem compare_versions_departures :
  compare_versions "1.0_p1" "1.0.1" = Gt /\ compare_versions "1.01" "1.1" = Eq /\
  compare_versions "20240101000000000000000" "1" = Lt.
Proof. vm_compute. done. Qed.
