(* ===== verification/Text.v ===== *)
(** * Lines and words

    The parts of [std::str] that the readers and writers of Portage files use:
    [lines], [split_whitespace], [join] and [trim], and how they act on texts put
    together from words and lines. *)

From S2P Require Import Prelude.

Definition newline : ascii := "010"%char.
Definition carriage_return : ascii := "013"%char.
(** A double quote. *)
Definition quote_char : ascii := "034"%char.
Definition newline_str : string := String newline "".

(** [s.join(sep)] *)
Fixpoint join_with (sep : string) (l : list string) : string :=
  match l with
  | [] => ""
  | [x] => x
  | x :: r => x +:+ sep +:+ join_with sep r
  end.

(** [collect::<String>()] *)
Definition concat_strings (l : list string) : string := fold_right String.append "" l.

Definition dq : string := String quote_char "".
Definition in_quotes (s : string) : string := dq +:+ s +:+ dq.
(** Lines, each ended by a newline. *)
Definition unlines (ls : list string) : string := concat_strings (map (fun l => l +:+ newline_str) ls).
Lemma unlines_cons x a : unlines (x :: a) = x +:+ newline_str +:+ unlines a.
Proof. change (unlines (x :: a)) with ((x +:+ newline_str) +:+ unlines a). apply string_app_assoc. Qed.
Lemma unlines_app a b : unlines (a ++ b) = unlines a +:+ unlines b.
Proof. induction a as [|x a IH]; [done|]. cbn [app]. by rewrite !unlines_cons, IH, !string_app_assoc. Qed.
Definition replace_char (a b : ascii) (s : string) : string := of_chars (map (fun c => if Ascii.eqb c a then b else c) (chars s)).

Lemma split_on_ne c s : split_on c s <> [].
Proof. destruct s as [|x s]; simpl; [done|]. destruct (Ascii.eqb x c); [done|]. by destruct (split_on c s). Qed.
Lemma split_on_inner c a b : split_on c (a +:+ String c b) = split_on c a ++ split_on c b.
Proof.
  induction a as [|x a IH].
  - change ("" +:+ String c b) with (String c b). cbn [split_on]. rewrite Ascii.eqb_refl. done.
  - change (String x a +:+ String c b) with (String x (a +:+ String c b)). cbn [split_on]. rewrite IH. destruct (Ascii.eqb x c); [done|].
    pose proof (split_on_ne c a). by destruct (split_on c a).
Qed.

(** A line without its terminator: [\n] or [\r\n]. *)
Definition strip_cr (s : string) : string :=
  match rev (chars s) with
  | c :: r => if Ascii.eqb c carriage_return then of_chars (rev r) else s
  | [] => s
  end.

(** [s.lines()] *)
Definition lines (s : string) : list string :=
  let l := split_on newline s in
  map strip_cr (match rev l with "" :: r => rev r | _ => l end).

(** [s.split_whitespace()] *)
Fixpoint words_from (word : list ascii) (l : list ascii) : list string :=
  match l with
  | [] => match word with [] => [] | _ => [of_chars (rev word)] end
  | c :: r =>
      if is_whitespace c then
        match word with [] => words_from [] r | _ => of_chars (rev word) :: words_from [] r end
      else words_from (c :: word) r
  end.
Definition split_whitespace (s : string) : list string := words_from [] (chars s).

(** A word: no white space, not empty. *)
Definition is_word (s : string) : bool := negb (is_empty s) && negb (any_char is_whitespace s).

(** ** Words *)

Lemma words_from_word word l rest :
  Forall (fun c => is_whitespace c = false) l -> words_from word (l ++ rest) = words_from (rev l ++ word) rest.
Proof.
  intros Hl. revert word. induction Hl as [|c l Hc Hl IH]; intros word; [done|].
  simpl. rewrite Hc, IH. by rewrite <- app_assoc.
Qed.

Lemma is_word_chars s : is_word s = true <-> chars s <> [] /\ Forall (fun c => is_whitespace c = false) (chars s).
Proof.
  unfold is_word. rewrite andb_true_iff, !negb_true_iff, is_empty_false, any_char_false, Forall_forall.
  split; intros [H1 H2]; split; auto.
  - intros He. apply H1. apply chars_inj. by rewrite He.
  - intros ->. by apply H1.
Qed.

Lemma words_from_end word : word <> [] -> words_from word [] = [of_chars (rev word)].
Proof. by destruct word. Qed.

Lemma split_whitespace_cons w s :
  is_word w = true -> split_whitespace (w +:+ " " +:+ s) = w :: split_whitespace s.
Proof.
  rewrite is_word_chars. intros [Hne Hw]. unfold split_whitespace. rewrite chars_app, words_from_word by done.
  rewrite app_nil_r. change (chars (" " +:+ s)) with (" "%char :: chars s). simpl.
  destruct (rev (chars w)) as [|c r] eqn:E; [|by rewrite <- E, rev_involutive, of_chars_chars].
  apply (f_equal (@rev ascii)) in E. by rewrite rev_involutive in E.
Qed.

Lemma split_whitespace_word w : is_word w = true -> split_whitespace w = [w].
Proof.
  rewrite is_word_chars. intros [Hne Hw]. unfold split_whitespace. rewrite <- (app_nil_r (chars w)), words_from_word by done.
  rewrite app_nil_r, words_from_end; [by rewrite rev_involutive, of_chars_chars|].
  intros E. apply (f_equal (@rev ascii)) in E. by rewrite rev_involutive in E.
Qed.

(** Joining words with spaces and splitting gives the words back. *)
Lemma split_join_words ws : Forall (fun w => is_word w = true) ws -> split_whitespace (join_with " " ws) = ws.
Proof.
  induction 1 as [|w ws Hw Hws IH]; [done|]. destruct ws as [|w' ws]; [by apply split_whitespace_word|].
  change (join_with " " (w :: w' :: ws)) with (w +:+ " " +:+ join_with " " (w' :: ws)).
  by rewrite split_whitespace_cons, IH.
Qed.

Lemma words_from_Forall word l :
  Forall (fun c => is_whitespace c = false) word -> Forall (fun w => is_word w = true) (words_from word l).
Proof.
  revert word. induction l as [|c l IH]; intros word Hw; simpl.
  - destruct word as [|c word]; [constructor|]. constructor; [|constructor]. apply is_word_chars.
    rewrite chars_of_chars. split; [intros E; apply (f_equal length) in E; rewrite length_rev in E; done|by apply Forall_rev].
  - destruct (is_whitespace c) eqn:Ec; [|apply IH; by constructor].
    destruct word as [|d word]; [by apply IH|]. constructor; [|by apply IH]. apply is_word_chars.
    rewrite chars_of_chars. split; [intros E; apply (f_equal length) in E; rewrite length_rev in E; done|by apply Forall_rev].
Qed.

(** What splitting yields are words. *)
Lemma split_whitespace_words s : Forall (fun w => is_word w = true) (split_whitespace s).
Proof. by apply words_from_Forall. Qed.

(** ** Lines *)

(** A line of a text that is written line by line. *)
Definition is_line (s : string) : bool := negb (contains_char newline s) && negb (contains_char carriage_return s).

Lemma strip_cr_line s : is_line s = true -> strip_cr s = s.
Proof.
  unfold is_line, strip_cr. rewrite andb_true_iff, !negb_true_iff. intros [_ Hcr].
  destruct (rev (chars s)) as [|c r] eqn:E; [done|]. destruct (Ascii.eqb_spec c carriage_return) as [->|]; [|done].
  exfalso. assert (Hin : carriage_return ∈ chars s).
  { apply list_elem_of_In, in_rev. rewrite E. by left. }
  apply contains_char_spec in Hin. congruence.
Qed.

Lemma lines_cons l s : is_line l = true -> lines (l +:+ String newline s) = l :: lines s.
Proof.
  intros Hl. assert (Hn : newline ∉ chars l).
  { unfold is_line in Hl. rewrite andb_true_iff, negb_true_iff in Hl. destruct Hl as [Hl _].
    intros Hin. apply contains_char_spec in Hin. congruence. }
  unfold lines. rewrite split_on_app by done.
  assert (Hne : split_on newline s <> []) by (destruct s; simpl; [done|]; repeat case_match; done).
  destruct (exists_last Hne) as (xs & x & ->). rewrite app_comm_cons, !rev_app_distr. simpl.
  destruct x as [|c x]; simpl; [rewrite !rev_app_distr, !rev_involutive; simpl|].
  - f_equal. by apply strip_cr_line.
  - f_equal. by apply strip_cr_line.
Qed.

(** [lines] gives back the lines of a text with terminated lines. *)
Lemma lines_concat ls :
  Forall (fun l => is_line l = true) ls -> lines (concat_strings (map (fun l => l +:+ newline_str) ls)) = ls.
Proof.
  induction 1 as [|l ls Hl Hls IH]; [done|]. cbn [map concat_strings fold_right].
  rewrite string_app_assoc. change (newline_str +:+ ?s) with (String newline s). rewrite lines_cons by done. by f_equal.
Qed.

(** ** Trimming *)

Lemma drop_while_none (p : ascii -> bool) l :
  match l with c :: _ => p c = false | [] => True end -> drop_while p l = l.
Proof. destruct l as [|c l]; [done|]. simpl. by intros ->. Qed.

Lemma trim_tight s :
  match chars s with c :: _ => is_whitespace c = false | [] => True end ->
  match rev (chars s) with c :: _ => is_whitespace c = false | [] => True end -> trim s = s.
Proof.
  intros H1 H2. unfold trim, trim_start. rewrite drop_while_none by done. rewrite of_chars_chars.
  unfold trim_end. rewrite drop_while_none by done. by rewrite rev_involutive, of_chars_chars.
Qed.
