(* ===== verification/MakeConf.v ===== *)
(** * make.conf: the reader of the client and the writer of the worker

    [parse_make_conf_vars], [read_make_conf] and the resolution of native compiler
    flags ([crates/cli/src/portage.rs], [crates/cli/src/cflags.rs]), and
    [write_make_conf_inner] with [build_makeopts_inner]
    ([crates/worker/src/portage_setup.rs]).  The programs the client asks
    ([portageq], [gcc], ...) are parameters. *)

From S2P Require Import Prelude Types Repo Text.

(** ** The parser of make.conf *)

Definition is_ascii_alphabetic (c : ascii) : bool := is_ascii_upper c || is_ascii_lower c.
Definition is_var_start (c : ascii) : bool := Ascii.eqb c "_" || is_ascii_alphabetic c.
Definition is_var_char (c : ascii) : bool := Ascii.eqb c "_" || is_ascii_alphanumeric c.

Definition backslash : ascii := "\"%char.

Fixpoint take_while {A} (p : A -> bool) (l : list A) : list A :=
  match l with [] => [] | x :: r => if p x then x :: take_while p r else [] end.

(** [while index < chars.len() && chars[index] != '\n'] *)
Definition skip_line (l : list ascii) : list ascii := drop_while (fun c => negb (Ascii.eqb c newline)) l.
(** White space up to the end of the line. *)
Definition skip_blank (l : list ascii) : list ascii :=
  drop_while (fun c => is_whitespace c && negb (Ascii.eqb c newline)) l.

(** After the opening quote: the value, whether the closing quote was there, and the rest. *)
Fixpoint quoted (q : ascii) (l : list ascii) : list ascii * bool * list ascii :=
  match l with
  | [] => ([], false, [])
  | c :: r =>
      if Ascii.eqb c q then ([], true, r)
      else
        let plain := let '(v, t, rest) := quoted q r in (c :: v, t, rest) in
        if Ascii.eqb c backslash then
          match r with
          | d :: r' =>
              if Ascii.eqb d newline then quoted q r'
              else if Ascii.eqb q quote_char &&
                      (Ascii.eqb d backslash || Ascii.eqb d quote_char || Ascii.eqb d "$" || Ascii.eqb d "`")
              then let '(v, t, rest) := quoted q r' in (d :: v, t, rest)
              else plain
          | [] => plain
          end
        else plain
  end.

Fixpoint unquoted (l : list ascii) : list ascii * list ascii :=
  match l with
  | [] => ([], [])
  | c :: r =>
      let plain := if is_whitespace c || Ascii.eqb c "#" then ([], l)
                   else let '(v, rest) := unquoted r in (c :: v, rest) in
      if Ascii.eqb c backslash then
        match r with d :: r' => if Ascii.eqb d newline then unquoted r' else plain | [] => plain end
      else plain
  end.

Definition parse_value (l : list ascii) : list ascii * list ascii :=
  match l with
  | c :: r =>
      if Ascii.eqb c quote_char || Ascii.eqb c "'" then
        let '(v, terminated, rest) := quoted c r in (if terminated then v else c :: v, rest)
      else unquoted l
  | [] => ([], [])
  end.

(** One turn of the outer loop, from a position that is not at the end. *)
Definition parse_turn (l : list ascii) (vars : gmap string string) : list ascii * gmap string string :=
  match drop_while is_whitespace l with
  | [] => ([], vars)
  | c :: r =>
      if Ascii.eqb c "#" then (skip_line (c :: r), vars)
      else if negb (is_var_start c) then (skip_line (c :: r), vars)
      else
        let key := of_chars (c :: take_while is_var_char r) in
        match skip_blank (drop_while is_var_char r) with
        | e :: r' =>
            if Ascii.eqb e "=" then
              let '(value, rest) := parse_value (skip_blank r') in
              let rest := skip_blank rest in
              (match rest with
               | h :: _ => if Ascii.eqb h "#" then skip_line rest else rest
               | [] => rest
               end, <[key := of_chars value]> vars)
            else (skip_line (e :: r'), vars)
        | [] => ([], vars)
        end
  end.

Fixpoint parse_loop (fuel : nat) (l : list ascii) (vars : gmap string string) : gmap string string :=
  match fuel, l with
  | _, [] => vars
  | O, _ => vars
  | S n, _ => let '(rest, vars) := parse_turn l vars in parse_loop n rest vars
  end.

Definition parse_make_conf_vars (content : string) : gmap string string :=
  let l := chars content in parse_loop (length l) l ∅.

(** [read_make_conf_vars]; a file is [None] when it is missing, [Some None] when it
    cannot be read.  Both files are read and the later one extends the map. *)
Definition read_make_conf_vars (preferred legacy : option (option string)) : Result (gmap string string) string :=
  let load (path : string) (vars : gmap string string) (f : option (option string)) : Result (gmap string string) string :=
    match f with
    | None => Ok vars
    | Some None => Err ("Failed to read " +:+ path)
    | Some (Some content) => Ok (parse_make_conf_vars content ∪ vars)
    end in
  let? vars := load "etc/portage/make.conf" ∅ preferred in
  let? vars := load "etc/make.conf" vars legacy in
  if negb (is_some preferred) && negb (is_some legacy) then
    Err "Failed to read etc/portage/make.conf or etc/make.conf"
  else Ok vars.

(** [s.contains(x)] *)
Fixpoint contains_str (x s : string) : bool :=
  starts_with x s || match s with String _ r => contains_str x r | EmptyString => false end.

(** ** Native flags ([cflags.rs]) *)

(** [Command::new(program).args(args).output()]: [None] when it cannot be started. *)
Record Output := { out_success : bool; out_stdout : string; out_utf8 : bool }.
Class Commands := run_command : string -> list string -> option Output.

Record ResolvedFlags := {
  rf_march : option string;
  rf_cpu_flags : option (string * list string);
  rf_chost : string;
}.

(** The output of a program that ran and succeeded. *)
Definition stdout_of `{Commands} (program : string) (args : list string) : option string :=
  match run_command program args with
  | Some o => if out_success o then Some (out_stdout o) else None
  | None => None
  end.

Fixpoint first_some {A B} (f : A -> option B) (l : list A) : option B :=
  match l with [] => None | x :: r => match f x with Some y => Some y | None => first_some f r end end.

Definition march_value (token : string) : option string :=
  match strip_prefix "-march=" token with
  | Some value => if negb (bool_decide (value = "native")) && negb (is_empty value) then Some value else None
  | None => None
  end.

Definition extract_march_value (flags : string) : option string := first_some march_value (split_whitespace flags).

Definition try_resolve_march_native_utility `{Commands} : option string :=
  stdout_of "resolve-march-native" [] ≫= extract_march_value.

Definition gcc_march_line (line : string) : option string :=
  match strip_prefix "-march=" (trim line) with
  | Some rest =>
      let value := trim rest in
      if negb (is_empty value) && negb (bool_decide (value = "native")) then Some value else None
  | None => None
  end.

Definition try_gcc_march_native `{Commands} : option string :=
  stdout_of "gcc" ["-march=native"; "-Q"; "--help=target"] ≫= fun out => first_some gcc_march_line (lines out).

Definition resolve_march_native `{Commands} : option string :=
  or_else try_resolve_march_native_utility try_gcc_march_native.

Definition resolve_flag (resolved_march token : string) : string :=
  if bool_decide (token = "-march=native") then "-march=" +:+ resolved_march
  else if bool_decide (token = "-mtune=native") then "-mtune=" +:+ resolved_march
  else token.

Definition is_native_flag (token : string) : bool :=
  bool_decide (token = "-march=native") || bool_decide (token = "-mtune=native").

Definition resolve_cflags (cflags resolved_march : string) : string * bool :=
  let tokens := split_whitespace cflags in
  (join_with " " (map (resolve_flag resolved_march) tokens), existsb is_native_flag tokens).

Definition resolve_cpu_flags `{Commands} : option (string * list string) :=
  stdout_of "cpuid2cpuflags" [] ≫= fun out =>
  match split_once ":" (trim out) with
  | Some (var, flags_str) =>
      match split_whitespace flags_str with [] => None | flags => Some (trim var, flags) end
  | None => None
  end.

Definition non_empty_trimmed (s : string) : option string := let s := trim s in if is_empty s then None else Some s.

Definition chost_of_arch (arch : string) : string :=
  if bool_decide (arch = "x86_64") then "x86_64-pc-linux-gnu"
  else if bool_decide (arch = "aarch64") then "aarch64-unknown-linux-gnu"
  else if bool_decide (arch = "armv7l") then "armv7a-unknown-linux-gnueabihf"
  else if bool_decide (arch = "i686") then "i686-pc-linux-gnu"
  else if bool_decide (arch = "riscv64") then "riscv64-unknown-linux-gnu"
  else if bool_decide (arch = "ppc64le") then "powerpc64le-unknown-linux-gnu"
  else arch +:+ "-unknown-linux-gnu".

Definition detect_native_chost `{Commands} : Result string string :=
  match or_else (stdout_of "portageq" ["envvar"; "CHOST"] ≫= non_empty_trimmed)
                (stdout_of "gcc" ["-dumpmachine"] ≫= non_empty_trimmed) with
  | Some chost => Ok chost
  | None =>
      match run_command "uname" ["-m"] with
      | None => Err "Failed to run uname"
      | Some o => Ok (chost_of_arch (trim (out_stdout o)))
      end
  end.

Definition resolve_native_flags `{Commands} : Result ResolvedFlags string :=
  let? chost := detect_native_chost in
  Ok {| rf_march := resolve_march_native; rf_cpu_flags := resolve_cpu_flags; rf_chost := chost |}.

(** ** portageq *)

(** [portageq envvar VAR..]: one line per variable. *)
Fixpoint assign_lines (vars ls : list string) (values : gmap string string) : option (gmap string string) :=
  match vars, ls with
  | [], [] => Some values
  | [], _ :: _ => None
  | _ :: _, [] => None
  | v :: vs, l :: rest => assign_lines vs rest (<[v := trim l]> values)
  end.

Definition portageq_envvars `{Commands} (vars : list string) : option (gmap string string) :=
  match run_command "portageq" ("envvar" :: vars) with
  | Some o => if out_success o && out_utf8 o then assign_lines vars (lines (out_stdout o)) ∅ else None
  | None => None
  end.

Definition portageq_envvar `{Commands} (var : string) : option string :=
  portageq_envvars [var] ≫= fun values => values !! var.

(** [strip_use_expand_flags] *)
Definition use_expand_fallback_prefixes : list string :=
  ["ABI_X86"; "ABI_MIPS"; "ABI_S390"; "CPU_FLAGS_X86"; "CPU_FLAGS_ARM"; "PYTHON_TARGETS"; "PYTHON_SINGLE_TARGET";
   "RUBY_TARGETS"; "LUA_TARGETS"; "LUA_SINGLE_TARGET"; "LLVM_SLOT"; "LLVM_TARGETS"; "VIDEO_CARDS"; "INPUT_DEVICES"; "L10N"].
Definition use_expand_variants : list string := ["USE_EXPAND"; "USE_EXPAND_UNPREFIXED"; "USE_EXPAND_HIDDEN"].

Definition prefix_of (var : string) : string := lowercase var +:+ "_".

(** The values of the three variables that [portageq] gave. *)
Definition expand_values (initial : option (gmap string string)) : list string :=
  omap (fun var => initial ≫= fun resolved => resolved !! var) use_expand_variants.

Definition use_expand_prefixes (initial : option (gmap string string)) : list string :=
  match expand_values initial with
  | [] => map prefix_of use_expand_fallback_prefixes
  | vs => map prefix_of (concat (map split_whitespace vs))
  end.

Definition strip_use_expand_flags (flags : list string) (initial : option (gmap string string)) : list string :=
  List.filter (fun flag => negb (existsb (fun p => starts_with p flag) (use_expand_prefixes initial))) flags.

(** ** [read_make_conf] *)

Definition batch_vars : list string :=
  ["CFLAGS"; "CXXFLAGS"; "CHOST"; "USE"; "USE_EXPAND"; "USE_EXPAND_UNPREFIXED"; "USE_EXPAND_HIDDEN"; "LDFLAGS"; "MAKEOPTS";
   "FEATURES"; "ACCEPT_LICENSE"; "ACCEPT_KEYWORDS"; "EMERGE_DEFAULT_OPTS"].
Definition known_vars : list string :=
  ["CFLAGS"; "CXXFLAGS"; "LDFLAGS"; "MAKEOPTS"; "USE"; "FEATURES"; "ACCEPT_LICENSE"; "ACCEPT_KEYWORDS";
   "EMERGE_DEFAULT_OPTS"; "CHOST"].
Definition use_expand_fallback : list string :=
  ["ABI_X86"; "VIDEO_CARDS"; "INPUT_DEVICES"; "L10N"; "PYTHON_TARGETS"; "PYTHON_SINGLE_TARGET"; "RUBY_TARGETS";
   "LUA_TARGETS"; "LUA_SINGLE_TARGET"; "LLVM_SLOT"; "LLVM_TARGETS"].

Section ReadMakeConf.
Context `{Commands}.
(** [can_query_portageq]: the root is [/]. *)
Context (can_query : bool) (vars : gmap string string).

Definition initial_portageq : option (gmap string string) := if can_query then portageq_envvars batch_vars else None.

Definition get (k : string) : string := default "" (vars !! k).
Definition get_effective (k : string) : string :=
  if can_query then
    match initial_portageq ≫= fun resolved => resolved !! k with
    | Some value => if is_empty value then get k else value
    | None => get k
    end
  else get k.
Definition split_flags (k : string) : list string := split_whitespace (get_effective k).

(** The USE flags, and whether they are resolved. *)
Definition resolved_use : Result (option string) unit :=
  if can_query then
    match initial_portageq ≫= fun resolved => resolved !! "USE" with
    | Some u => Ok (Some u)
    | None => match portageq_envvar "USE" with Some u => Ok (Some u) | None => Err tt end
    end
  else Ok None.

Definition read_use_flags : list string * bool :=
  match resolved_use with
  | Ok u => (strip_use_expand_flags (split_whitespace (default "" u)) initial_portageq, true)
  | Err _ => (split_flags "USE", false)
  end.

Definition use_expand_keys : list string :=
  match if can_query then expand_values initial_portageq else [] with
  | [] => use_expand_fallback
  | vs => btree_elements (list_to_set (concat (map split_whitespace vs)))
  end.

Definition use_expand_value (resolved : option (gmap string string)) (k : string) : list string :=
  match resolved ≫= fun r => r !! k with Some v => split_whitespace v | None => split_flags k end.

Definition read_use_expand : gmap string (list string) :=
  let keys := use_expand_keys in
  let resolved := if can_query && negb (bool_decide (keys = [])) then portageq_envvars keys else None in
  fold_left (fun m k =>
    if starts_with "CPU_FLAGS_" k then m
    else match use_expand_value resolved k with [] => m | vals => <[k := vals]> m end) keys ∅.

Definition read_extra : gmap string string :=
  filter (fun kv => kv.1 ∉ known_vars ++ use_expand_keys) vars.

Definition read_make_conf (resolved : ResolvedFlags) : MakeConf :=
  let raw_cflags := get_effective "CFLAGS" in
  let '(cflags, original_cflags) :=
    match rf_march resolved with
    | Some march =>
        let '(resolved_cflags, was_modified) := resolve_cflags raw_cflags march in
        if was_modified then (resolved_cflags, Some raw_cflags) else (raw_cflags, None)
    | None => (raw_cflags, None)
    end in
  let raw_cxxflags := get_effective "CXXFLAGS" in
  let cxxflags :=
    if contains_str "-march=native" raw_cxxflags then
      match rf_march resolved with Some march => fst (resolve_cflags raw_cxxflags march) | None => raw_cxxflags end
    else raw_cxxflags in
  let chost := let value := get_effective "CHOST" in if is_empty value then rf_chost resolved else value in
  let '(use_flags, use_flags_resolved) := read_use_flags in
  {| mc_cflags := cflags; mc_cxxflags := cxxflags; mc_ldflags := get_effective "LDFLAGS";
     mc_makeopts := get_effective "MAKEOPTS"; mc_use_flags := use_flags; mc_features := split_flags "FEATURES";
     mc_accept_license := get_effective "ACCEPT_LICENSE"; mc_accept_keywords := get_effective "ACCEPT_KEYWORDS";
     mc_emerge_default_opts := get_effective "EMERGE_DEFAULT_OPTS"; mc_chost := chost;
     mc_cpu_flags := rf_cpu_flags resolved; mc_original_cflags := original_cflags;
     mc_use_expand := read_use_expand; mc_extra := read_extra; mc_use_flags_resolved := use_flags_resolved |}.

End ReadMakeConf.

(** [read_make_conf] of the source, with what is read from the disk. *)
Definition read_make_conf_from `{Commands} (can_query : bool) (preferred legacy : option (option string)) :
    Result MakeConf string :=
  let? vars := read_make_conf_vars preferred legacy in
  let? resolved := map_err (fun _ => "Failed to resolve native compiler flags") resolve_native_flags in
  Ok (read_make_conf can_query vars resolved).

(** ** The make.conf of the worker *)

(** [build_makeopts_inner] *)
Definition is_parallel_flag (tok : string) : bool :=
  starts_with "-j" tok || starts_with "-l" tok || starts_with "--jobs" tok || starts_with "--load-average" tok.

Definition build_makeopts_inner (client_makeopts : string) (server_jobs server_load : option string) : string :=
  match server_jobs, server_load with
  | None, None => client_makeopts
  | _, _ =>
      join_with " " (List.filter (fun tok => negb (is_parallel_flag tok)) (split_whitespace client_makeopts)
        ++ match server_jobs with Some jobs => ["-j" +:+ jobs] | None => [] end
        ++ match server_load with Some load => ["-l" +:+ load] | None => [] end)
  end.

Definition quote_str : string := String quote_char "".

(** [format!("{key}=\"{value}\"\n")] *)
Definition assignment (k value : string) : string := k +:+ "=" +:+ quote_str +:+ value +:+ quote_str +:+ newline_str.

(** [s.split('-').next()] *)
Definition arch_of (chost : string) : string :=
  match split_once "-" chost with Some (a, _) => a | None => chost end.

(** The features of the worker. *)
Definition push_missing (feat : string) (fs : list string) : list string :=
  if bool_decide (feat ∈ fs) then fs else fs ++ [feat].
Definition worker_features (features : list string) (signing : bool) : list string :=
  let fs := match features with [] => ["buildpkg"; "noclean"] | _ => push_missing "buildpkg" features end in
  let fs := if signing then push_missing "gpg-keepalive" (push_missing "binpkg-signing" fs) else fs in
  List.filter (fun f => negb (bool_decide (f = "ccache") || bool_decide (f = "distcc"))) fs.

(** The checks on extra variables. *)
Definition extra_key_ok (k : string) : bool :=
  negb (is_empty k) && all_chars is_var_char k &&
  match k with String c _ => negb (is_ascii_digit c) | EmptyString => true end.
Definition is_unsafe_char (c : ascii) : bool :=
  Ascii.eqb c "`" || Ascii.eqb c "$" || Ascii.eqb c backslash || Ascii.eqb c quote_char || Ascii.eqb c newline ||
  Ascii.eqb c carriage_return || Ascii.eqb c zero.
Definition extra_ok (kv : string * string) : bool := extra_key_ok kv.1 && negb (any_char is_unsafe_char kv.2).

(** The assignments of the file in order, apart from comments and blank lines. *)
Section Writer.
Context (mc : MakeConf) (worker_chost : string) (gpg_key gpg_home : option string) (jobs load : option string).

Definition signing_enabled : bool := is_some gpg_key && is_some gpg_home.

Definition head_vars : list (string * string) :=
  ("CHOST", mc_chost mc) ::
  (if bool_decide (arch_of (mc_chost mc) = arch_of worker_chost) then [] else [("CBUILD", worker_chost)]).

Definition body_vars : list (string * string) :=
  [("CFLAGS", mc_cflags mc); ("CXXFLAGS", mc_cxxflags mc); ("LDFLAGS", mc_ldflags mc);
   ("MAKEOPTS", build_makeopts_inner (mc_makeopts mc) jobs load)] ++
  match mc_use_flags mc with
  | [] => []
  | flags => [("USE", (if mc_use_flags_resolved mc then "-* " else "") +:+ join_with " " flags)]
  end ++
  [("ACCEPT_LICENSE", mc_accept_license mc); ("ACCEPT_KEYWORDS", mc_accept_keywords mc);
   ("FEATURES", join_with " " (worker_features (mc_features mc) signing_enabled))] ++
  (if is_empty (mc_emerge_default_opts mc) then [] else [("EMERGE_DEFAULT_OPTS", mc_emerge_default_opts mc)]) ++
  match mc_cpu_flags mc with Some (var, flags) => [(var, join_with " " flags)] | None => [] end ++
  map (fun kv => (kv.1, join_with " " kv.2)) (btree_items (mc_use_expand mc)) ++
  List.filter extra_ok (btree_items (mc_extra mc)).

Definition tail_vars : list (string * string) := [("PKGDIR", "/var/cache/binpkgs")].

Definition signing_vars : list (string * string) :=
  match gpg_key, gpg_home with
  | Some k, Some home => [("BINPKG_FORMAT", "gpkg"); ("BINPKG_GPG_SIGNING_KEY", k); ("BINPKG_GPG_SIGNING_GPG_HOME", home)]
  | _, _ => []
  end.

Definition assignments (l : list (string * string)) : string := concat_strings (map (fun kv => assignment kv.1 kv.2) l).

(** The content [write_make_conf_inner] writes. *)
Definition make_conf_text : string :=
  "# Generated by remerge-worker — do not edit." +:+ newline_str +:+ newline_str +:+
  assignments head_vars +:+ newline_str +:+ assignments body_vars +:+
  newline_str +:+ "# remerge: output directory for binpkgs" +:+ newline_str +:+ assignments tail_vars +:+
  match signing_vars with
  | [] => ""
  | vs => newline_str +:+ "# Binary package OpenPGP signing (injected by remerge-server)" +:+ newline_str +:+ assignments vs
  end.

End Writer.

(** ** The parser ends *)

Lemma drop_while_length {A} (p : A -> bool) l : (length (drop_while p l) <= length l)%nat.
Proof. induction l as [|x l IH]; simpl; [lia|]. destruct (p x); simpl; lia. Qed.

Lemma quoted_length q l : (length (snd (quoted q l)) <= length l)%nat.
Proof.
  revert l. fix IH 1. intros [|c r]; [simpl; lia|]. cbn [quoted].
  destruct (Ascii.eqb c q); [simpl; lia|].
  assert (Hplain : (length (snd (let '(v, t, rest) := quoted q r in (c :: v, t, rest))) <= length (c :: r))%nat).
  { specialize (IH r). destruct (quoted q r) as [[v t] rest]. simpl in *. lia. }
  destruct (Ascii.eqb c backslash); [|exact Hplain]. destruct r as [|d r']; [exact Hplain|].
  destruct (Ascii.eqb d newline); [specialize (IH r'); simpl; lia|].
  destruct (_ && _); [|exact Hplain]. specialize (IH r'). destruct (quoted q r') as [[v t] rest]. simpl in *. lia.
Qed.

Lemma unquoted_length l : (length (snd (unquoted l)) <= length l)%nat.
Proof.
  revert l. fix IH 1. intros [|c r]; [simpl; lia|]. cbn [unquoted].
  assert (Hplain : (length (snd (if is_whitespace c || Ascii.eqb c "#" then ([], c :: r)
    else let '(v, rest) := unquoted r in (c :: v, rest))) <= length (c :: r))%nat).
  { specialize (IH r). destruct (_ || _); [simpl; lia|]. destruct (unquoted r) as [v rest]. simpl in *. lia. }
  destruct (Ascii.eqb c backslash); [|exact Hplain]. destruct r as [|d r']; [exact Hplain|].
  destruct (Ascii.eqb d newline); [specialize (IH r'); simpl; lia|exact Hplain].
Qed.

Lemma parse_value_length l : (length (snd (parse_value l)) <= length l)%nat.
Proof.
  destruct l as [|c r]; [simpl; lia|]. unfold parse_value. destruct (_ || _); [|apply unquoted_length].
  pose proof (quoted_length c r) as Hq. destruct (quoted c r) as [[v t] rest]. simpl in *. lia.
Qed.

(** Every turn gets further. *)
Lemma parse_turn_length l vars : l <> [] -> (length (fst (parse_turn l vars)) < length l)%nat.
Proof.
  intros Hne. unfold parse_turn. pose proof (drop_while_length is_whitespace l) as Hd.
  destruct (drop_while is_whitespace l) as [|c r] eqn:E; [destruct l; simpl; [done|lia]|]. simpl in Hd.
  assert (Hline : Ascii.eqb c newline = false -> (length (skip_line (c :: r)) < length l)%nat).
  { intros Hc. unfold skip_line. simpl. rewrite Hc. simpl.
    pose proof (drop_while_length (fun c => negb (Ascii.eqb c newline)) r). lia. }
  assert (Hnl : Ascii.eqb c newline = false).
  { destruct (Ascii.eqb_spec c newline) as [->|]; [|done]. exfalso. clear -E.
    induction l as [|x l IH]; [done|]. simpl in E. destruct (is_whitespace x) eqn:Ex; [auto|]. injection E as ->. done. }
  destruct (Ascii.eqb c "#"); [by apply Hline|]. destruct (negb (is_var_start c)); [by apply Hline|].
  pose proof (drop_while_length is_var_char r) as H1.
  pose proof (drop_while_length (fun c => is_whitespace c && negb (Ascii.eqb c newline)) (drop_while is_var_char r)) as H2.
  fold (skip_blank (drop_while is_var_char r)) in H2.
  destruct (skip_blank (drop_while is_var_char r)) as [|e r'] eqn:Eb; simpl in *; [lia|].
  destruct (Ascii.eqb e "=").
  - pose proof (parse_value_length (skip_blank r')) as H3. destruct (parse_value (skip_blank r')) as [v rest]. simpl in *.
    pose proof (drop_while_length (fun c => is_whitespace c && negb (Ascii.eqb c newline)) r') as H4.
    pose proof (drop_while_length (fun c => is_whitespace c && negb (Ascii.eqb c newline)) rest) as H5.
    fold (skip_blank r') in H4. fold (skip_blank rest) in H5.
    destruct (skip_blank rest) as [|h t] eqn:Er; simpl in *; [lia|]. destruct (Ascii.eqb h "#"); simpl; [|lia].
    pose proof (drop_while_length (fun c => negb (Ascii.eqb c newline)) (h :: t)) as H6. unfold skip_line. simpl in *. lia.
  - pose proof (drop_while_length (fun c => negb (Ascii.eqb c newline)) (e :: r')) as H6. unfold skip_line. simpl in *. lia.
Qed.

Lemma parse_loop_fuel n m l vars :
  (length l <= n)%nat -> (length l <= m)%nat -> parse_loop n l vars = parse_loop m l vars.
Proof.
  revert m l vars. induction n as [|n IH]; intros m l vars Hn Hm.
  { destruct l; [by destruct m|simpl in Hn; lia]. }
  destruct l as [|c r]; [by destruct m|]. destruct m as [|m]; [simpl in Hm; lia|]. cbn [parse_loop].
  pose proof (parse_turn_length (c :: r) vars ltac:(done)) as Ht. destruct (parse_turn (c :: r) vars) as [rest vars'].
  simpl in Ht, Hn, Hm. apply IH; lia.
Qed.

(** The parser from a position, with as much fuel as it takes. *)
Definition parse_from (l : list ascii) (vars : gmap string string) : gmap string string := parse_loop (length l) l vars.

Lemma parse_from_turn l vars :
  l <> [] -> parse_from l vars = let '(rest, vars') := parse_turn l vars in parse_from rest vars'.
Proof.
  intros Hne. destruct l as [|c r]; [done|]. unfold parse_from at 1. cbn [length parse_loop].
  pose proof (parse_turn_length (c :: r) vars Hne) as Ht. destruct (parse_turn (c :: r) vars) as [rest vars'].
  simpl in Ht. apply parse_loop_fuel; lia.
Qed.

(** ** The worker's file read back by the client's parser *)

Definition key_ok (k : string) : bool :=
  match chars k with c :: cs => is_var_start c && forallb is_var_char cs | [] => false end.
Definition value_ok (v : string) : bool := negb (contains_char quote_char v) && negb (contains_char backslash v).
Definition kv_ok (kv : string * string) : bool := key_ok kv.1 && value_ok kv.2.

Definition set_vars (l : list (string * string)) (vars : gmap string string) : gmap string string :=
  fold_left (fun m kv => <[kv.1 := kv.2]> m) l vars.

Lemma quoted_plain l rest :
  Forall (fun c => Ascii.eqb c quote_char = false /\ Ascii.eqb c backslash = false) l ->
  quoted quote_char (l ++ quote_char :: rest) = (l, true, rest).
Proof.
  induction 1 as [|c l [Hq Hb] Hl IH]; [done|]. cbn [app quoted]. by rewrite Hq, Hb, IH.
Qed.

Lemma value_ok_chars v :
  value_ok v = true -> Forall (fun c => Ascii.eqb c quote_char = false /\ Ascii.eqb c backslash = false) (chars v).
Proof.
  unfold value_ok. rewrite andb_true_iff, !negb_true_iff. intros [Hq Hb]. apply Forall_forall. intros c Hc.
  split; apply not_true_iff_false; intros He; apply Ascii.eqb_eq in He as ->; apply contains_char_spec in Hc; congruence.
Qed.

Lemma chars_assignment k v :
  chars (assignment k v) = chars k ++ "="%char :: quote_char :: chars v ++ [quote_char; newline].
Proof.
  unfold assignment, quote_str, newline_str. rewrite !chars_app. change (chars "=") with ["="%char].
  rewrite !(chars_cons _ ""). change (chars "") with (@nil ascii). simpl. done.
Qed.

Lemma span_var l rest :
  forallb is_var_char l = true ->
  take_while is_var_char (l ++ "="%char :: rest) = l /\ drop_while is_var_char (l ++ "="%char :: rest) = "="%char :: rest.
Proof.
  induction l as [|c l IH]; [done|]. simpl. rewrite andb_true_iff. intros [Hc Hl]. rewrite Hc.
  destruct (IH Hl) as [-> ->]. done.
Qed.

Lemma var_start_facts c : is_var_start c = true -> is_whitespace c = false /\ Ascii.eqb c "#" = false.
Proof. ascii_cases c. Qed.

Lemma parse_turn_assignment k v rest vars :
  key_ok k = true -> value_ok v = true ->
  parse_turn (chars (assignment k v) ++ rest) vars = (newline :: rest, <[k := v]> vars).
Proof.
  intros Hk Hv. rewrite chars_assignment. unfold key_ok in Hk. destruct (chars k) as [|c cs] eqn:Ek; [done|].
  apply andb_true_iff in Hk as [Hc Hcs]. destruct (var_start_facts c Hc) as [Hw Hh].
  unfold parse_turn. rewrite <- app_assoc. cbn [app drop_while]. rewrite Hw, Hh, Hc. cbn [negb].
  destruct (span_var cs (quote_char :: (chars v ++ [quote_char; newline]) ++ rest) Hcs) as [Ht Hd]. rewrite Ht, Hd.
  change (skip_blank ("="%char :: ?x)) with ("="%char :: x). cbn [Ascii.eqb]. change (skip_blank (quote_char :: ?x)) with (quote_char :: x).
  unfold parse_value. change (Ascii.eqb quote_char quote_char) with true. cbn [orb]. rewrite <- app_assoc. cbn [app].
  rewrite quoted_plain by by apply value_ok_chars. change (skip_blank (newline :: rest)) with (newline :: rest).
  change (Ascii.eqb newline "#") with false. rewrite of_chars_chars, <- Ek, of_chars_chars. done.
Qed.

Lemma parse_from_blank c l vars : is_whitespace c = true -> parse_from (c :: l) vars = parse_from l vars.
Proof.
  intros Hc. rewrite parse_from_turn by done. destruct l as [|d l].
  - unfold parse_turn. simpl. by rewrite Hc.
  - rewrite (parse_from_turn (d :: l)) by done. unfold parse_turn. cbn [drop_while]. by rewrite Hc.
Qed.

Lemma parse_from_comment l rest vars :
  Forall (fun c => Ascii.eqb c newline = false) l -> parse_from ("#"%char :: l ++ newline :: rest) vars = parse_from rest vars.
Proof.
  intros Hl. rewrite parse_from_turn by done. unfold parse_turn. cbn [drop_while]. change (is_whitespace "#") with false.
  cbn [Ascii.eqb]. change (Ascii.eqb "#" "#") with true. cbn iota.
  assert (Hs : skip_line ("#"%char :: l ++ newline :: rest) = newline :: rest).
  { unfold skip_line. cbn [drop_while]. change (negb (Ascii.eqb "#" newline)) with true. cbn iota.
    induction Hl as [|c l Hc Hl IH]; [done|]. cbn [app drop_while]. by rewrite Hc. }
  rewrite Hs. by apply parse_from_blank.
Qed.

Lemma parse_from_assignments l rest vars :
  Forall (fun kv => kv_ok kv = true) l ->
  parse_from (chars (assignments l) ++ rest) vars = parse_from rest (set_vars l vars).
Proof.
  intros Hl. revert vars. induction Hl as [|[k v] l Hkv Hl IH]; intros vars; [done|].
  unfold kv_ok in Hkv. apply andb_true_iff in Hkv as [Hk Hv]. simpl in Hk, Hv.
  unfold assignments. cbn [map concat_strings fold_right]. fold (concat_strings (map (fun kv => assignment kv.1 kv.2) l)).
  fold (assignments l). cbn [fst snd]. rewrite chars_app, <- app_assoc.
  rewrite parse_from_turn by (rewrite chars_assignment; by destruct (chars k)).
  rewrite parse_turn_assignment by done. rewrite parse_from_blank by done. by rewrite IH.
Qed.

(** C32.  The client's parser reads from the worker's make.conf exactly the variables
    the worker means to set, the last assignment of a name counting, when names are
    shell names and values have no double quote and no backslash; among them the
    package directory is always the mounted one. *)
Theorem make_conf_roundtrip mc worker_chost gpg_key gpg_home jobs load :
  let vs := head_vars mc worker_chost ++ body_vars mc gpg_key gpg_home jobs load ++ tail_vars ++ signing_vars gpg_key gpg_home in
  Forall (fun kv => kv_ok kv = true) vs ->
  parse_make_conf_vars (make_conf_text mc worker_chost gpg_key gpg_home jobs load) = set_vars vs ∅ /\
  set_vars vs ∅ !! "PKGDIR" = Some "/var/cache/binpkgs".
Proof.
  intros vs Hvs. apply Forall_app in Hvs as [Hh Hvs']. apply Forall_app in Hvs' as [Hb Hvs']. apply Forall_app in Hvs' as [Ht Hs].
  split.
  - unfold parse_make_conf_vars, make_conf_text. fold (parse_from (chars (make_conf_text mc worker_chost gpg_key gpg_home jobs load)) ∅).
    change (parse_loop (length ?l) ?l ∅) with (parse_from l ∅). rewrite !chars_app.
    assert (Hnl : chars newline_str = [newline]) by done. rewrite Hnl.
    change (chars "# Generated by remerge-worker — do not edit.") with ("#"%char :: chars " Generated by remerge-worker — do not edit.").
    change (chars "# remerge: output directory for binpkgs") with ("#"%char :: chars " remerge: output directory for binpkgs").
    rewrite <- !app_comm_cons, parse_from_comment by (vm_compute; repeat constructor).
    cbn [app]. rewrite parse_from_blank by done. rewrite parse_from_assignments by done.
    cbn [app]. rewrite parse_from_blank by done. rewrite parse_from_assignments by done. cbn [app].
    rewrite parse_from_blank by done. rewrite parse_from_comment by (vm_compute; repeat constructor).
    rewrite parse_from_assignments by done.
    assert (Hsig : forall vars, parse_from (chars match signing_vars gpg_key gpg_home with [] => "" | v :: l =>
        newline_str +:+ "# Binary package OpenPGP signing (injected by remerge-server)" +:+ newline_str +:+ assignments (v :: l) end) vars =
        set_vars (signing_vars gpg_key gpg_home) vars).
    { intros vars. destruct (signing_vars gpg_key gpg_home) as [|v l]; [done|]. rewrite !chars_app, Hnl. cbn [app].
      rewrite parse_from_blank by done.
      change (chars "# Binary package OpenPGP signing (injected by remerge-server)") with
        ("#"%char :: chars " Binary package OpenPGP signing (injected by remerge-server)").
      rewrite <- app_comm_cons, parse_from_comment by (vm_compute; repeat constructor).
      rewrite <- (app_nil_r (chars (assignments (v :: l)))), parse_from_assignments by done. done. }
    rewrite Hsig. unfold vs, set_vars. by rewrite !fold_left_app.
  - unfold vs, set_vars. rewrite !fold_left_app. simpl. unfold signing_vars.
    destruct gpg_key, gpg_home; simpl; rewrite ?lookup_insert_ne by done; apply lookup_insert_eq.
Qed.

Lemma make_conf_roundtrip_witness :
  parse_make_conf_vars (make_conf_text MakeConf_default "aarch64-unknown-linux-gnu" (Some "0xAB") (Some "/gnupg") (Some "8") None)
    !! "PKGDIR" = Some "/var/cache/binpkgs".
Proof.
  destruct (make_conf_roundtrip MakeConf_default "aarch64-unknown-linux-gnu" (Some "0xAB") (Some "/gnupg") (Some "8") None)
    as [-> Hp]; [vm_compute; repeat constructor|exact Hp].
Defined.

(** ** Native flags *)

Lemma resolve_flag_native march token :
  march <> "native" -> is_native_flag (resolve_flag march token) = false.
Proof.
  intros Hm. assert (Hne : forall p x, p +:+ march = p +:+ x -> x = "native" -> False).
  { intros p x He ->. apply (f_equal (strip_prefix p)) in He. rewrite !strip_prefix_app in He. congruence. }
  unfold is_native_flag. apply orb_false_iff. split; apply bool_decide_eq_false; unfold resolve_flag;
    (case_bool_decide as H1; [|case_bool_decide as H2]); try done.
  - intros He. by apply (Hne "-march=" "native").
  - intros He. by apply (Hne "-mtune=" "native").
Qed.

Lemma is_word_app a b : is_word a = true -> any_char is_whitespace b = false -> is_word (a +:+ b) = true.
Proof.
  unfold is_word. rewrite !andb_true_iff, !negb_true_iff, any_char_app, !is_empty_false. intros [Ha Hw] Hb.
  split; [by destruct a|by rewrite Hw, Hb].
Qed.

Lemma resolve_flag_word march token :
  any_char is_whitespace march = false -> is_word token = true -> is_word (resolve_flag march token) = true.
Proof.
  intros Hm Ht. unfold resolve_flag. case_bool_decide; [by apply is_word_app|]. case_bool_decide; [by apply is_word_app|done].
Qed.

(** After the native architecture has been resolved no compiler flag the worker
    would interpret for its own processor is left: the resolved flags are the words
    of the original ones with [native] replaced, none of them is native, they are
    marked as modified exactly if there was one, and resolving again changes
    nothing. *)
Theorem resolve_cflags_removes_native cflags march :
  any_char is_whitespace march = false -> march <> "native" ->
  let '(resolved, modified) := resolve_cflags cflags march in
  split_whitespace resolved = map (resolve_flag march) (split_whitespace cflags) /\
  existsb is_native_flag (split_whitespace resolved) = false /\
  modified = existsb is_native_flag (split_whitespace cflags) /\
  resolve_cflags resolved march = (resolved, false).
Proof.
  intros Hw Hn. unfold resolve_cflags at 1. cbv zeta.
  set (ts := split_whitespace cflags). set (rs := map (resolve_flag march) ts).
  assert (Hrs : split_whitespace (join_with " " rs) = rs).
  { apply split_join_words. unfold rs. apply Forall_map. eapply Forall_impl; [apply split_whitespace_words|].
    intros t. by apply resolve_flag_word. }
  assert (Hnone : existsb is_native_flag rs = false).
  { unfold rs. clear -Hn. generalize ts. intros l. induction l as [|t l IH]; [done|]. cbn [map existsb].
    rewrite resolve_flag_native by done. exact IH. }
  split_and!; [done|by rewrite Hrs|done|]. unfold resolve_cflags. cbv zeta. rewrite Hrs, Hnone. f_equal. f_equal.
  clear -Hnone. induction rs as [|r rs IH]; [done|]. simpl in *. apply orb_false_iff in Hnone as [Hr Hnone].
  rewrite (IH Hnone). f_equal. unfold is_native_flag in Hr. apply orb_false_iff in Hr as [H1 H2].
  unfold resolve_flag. by rewrite H1, H2.
Qed.

Lemma resolve_cflags_removes_native_witness :
  existsb is_native_flag (split_whitespace (fst (resolve_cflags "-O2 -march=native" "znver3"))) = false.
Proof. apply (resolve_cflags_removes_native "-O2 -march=native" "znver3"); vm_compute; done. Defined.

(** The resolved architecture is never [native] again. *)
Lemma first_some_Some {A B} (f : A -> option B) l y : first_some f l = Some y -> exists x, x ∈ l /\ f x = Some y.
Proof.
  induction l as [|x l IH]; [done|]. simpl. destruct (f x) eqn:E.
  - intros [= ->]. exists x. split; [apply list_elem_of_here|done].
  - intros Hf. destruct (IH Hf) as (x' & Hx & Hy). exists x'. split; [by apply list_elem_of_further|done].
Qed.

Lemma resolve_march_not_native `{Commands} m : resolve_march_native = Some m -> m <> "native" /\ m <> "".
Proof.
  assert (Hv : forall t, march_value t = Some m -> m <> "native" /\ m <> "").
  { intros t. unfold march_value. destruct (strip_prefix _ t) as [v|]; [|done]. case_bool_decide; [done|].
    destruct (is_empty v) eqn:Ev; [done|]. intros [= <-]. by rewrite is_empty_false in Ev. }
  assert (Hg : forall l, gcc_march_line l = Some m -> m <> "native" /\ m <> "").
  { intros l. unfold gcc_march_line. destruct (strip_prefix _ _) as [v|]; [|done]. cbv zeta.
    destruct (is_empty (trim v)) eqn:Ev; [done|]. case_bool_decide; [done|]. intros [= <-]. by rewrite is_empty_false in Ev. }
  unfold resolve_march_native, or_else, try_resolve_march_native_utility, try_gcc_march_native.
  destruct (stdout_of "resolve-march-native" []) as [o|]; simpl.
  - unfold extract_march_value. destruct (first_some march_value (split_whitespace o)) eqn:E.
    + intros [= ->]. apply first_some_Some in E as (t & _ & Ht). eauto.
    + destruct (stdout_of "gcc" _) as [g|]; simpl; [|done]. intros Hf. apply first_some_Some in Hf as (t & _ & Ht). eauto.
  - destruct (stdout_of "gcc" _) as [g|]; simpl; [|done]. intros Hf. apply first_some_Some in Hf as (t & _ & Ht). eauto.
Qed.

(** ** Departures *)

(** With a root other than [/] the USE flags of make.conf are lost: the client
    sends an empty list and marks it as fully resolved, whatever make.conf says. *)
Theorem use_flags_dropped_without_portageq `{Commands} vars resolved :
  mc_use_flags (read_make_conf false vars resolved) = [] /\
  mc_use_flags_resolved (read_make_conf false vars resolved) = true.
Proof. unfold read_make_conf, read_use_flags, resolved_use. simpl. by repeat case_match. Qed.

(** Where both files exist the legacy [/etc/make.conf] overrides
    [/etc/portage/make.conf], which the code calls the preferred one. *)
Theorem legacy_make_conf_overrides preferred legacy k v :
  parse_make_conf_vars legacy !! k = Some v ->
  match read_make_conf_vars (Some (Some preferred)) (Some (Some legacy)) with
  | Ok vars => vars !! k = Some v
  | Err _ => False
  end.
Proof. intros Hk. simpl. apply lookup_union_Some_raw. by left. Qed.

Lemma legacy_make_conf_overrides_witness :
  match read_make_conf_vars (Some (Some "CHOST=new")) (Some (Some "CHOST=old")) with
  | Ok vars => vars !! "CHOST" = Some "old"
  | Err _ => False
  end.
Proof. apply (legacy_make_conf_overrides "CHOST=new" "CHOST=old" "CHOST" "old"). vm_compute. reflexivity. Defined.

(** The server's parallelism replaces the client's: no other parallelism flag is
    left when both settings are given.  But an option whose number is a word of its
    own loses only the option, so the number stays behind as a goal for make, and
    a server that sets only the load takes away the client's job count. *)
Theorem build_makeopts_flags client jobs load :
  any_char is_whitespace jobs = false -> any_char is_whitespace load = false ->
  List.filter is_parallel_flag (split_whitespace (build_makeopts_inner client (Some jobs) (Some load))) =
    ["-j" +:+ jobs; "-l" +:+ load] /\
  build_makeopts_inner "-j 8" (Some "16") None = "8 -j16" /\
  build_makeopts_inner "-j8" None (Some "4") = "-l4".
Proof.
  intros Hj Hl. split_and!; [|vm_compute; done|vm_compute; done]. unfold build_makeopts_inner.
  rewrite split_join_words.
  - rewrite List.filter_app. set (ts := List.filter (fun tok => negb (is_parallel_flag tok)) (split_whitespace client)).
    assert (Hts : List.filter is_parallel_flag ts = []).
    { unfold ts. induction (split_whitespace client) as [|t l IH]; [done|]. simpl.
      destruct (is_parallel_flag t) eqn:E; simpl; [done|]. by rewrite E. }
    assert (Hj' : is_parallel_flag ("-j" +:+ jobs) = true) by (unfold is_parallel_flag, starts_with; by rewrite strip_prefix_app).
    assert (Hl' : is_parallel_flag ("-l" +:+ load) = true).
    { unfold is_parallel_flag. assert (Hs : starts_with "-l" ("-l" +:+ load) = true) by (unfold starts_with; by rewrite strip_prefix_app).
      by rewrite Hs, orb_true_r. }
    rewrite Hts. cbn [app List.filter]. by rewrite Hj', Hl'.
  - rewrite !Forall_app. split_and!.
    + apply Forall_forall. intros t Ht. rewrite list_elem_of_In, filter_In in Ht. destruct Ht as [Ht _].
      pose proof (split_whitespace_words client) as Hw. rewrite Forall_forall in Hw. by apply Hw, list_elem_of_In.
    + constructor; [by apply is_word_app|constructor].
    + constructor; [by apply is_word_app|constructor].
Qed.

Lemma build_makeopts_flags_witness :
  List.filter is_parallel_flag (split_whitespace (build_makeopts_inner "-j4 -s" (Some "16") (Some "12"))) = ["-j16"; "-l12"].
Proof. apply (build_makeopts_flags "-j4 -s" "16" "12"); vm_compute; done. Defined.
