(* ===== verification/MetricsText.v ===== *)
(** * The metrics page ([Metrics::to_prometheus] in [crates/server/src/metrics.rs])

    The counters and gauges in the text format of Prometheus, and a reader of that
    format: what it reads off the page are the values of the counters, whatever the names
    of the packages are. *)

From S2P Require Import Prelude Text MakeConf Metrics.

(** ** Rendering *)

(** [value.replace(c, by)] for a character. *)
Definition replace_with (c : ascii) (by_ : string) (s : string) : string :=
  concat_strings (map (fun x => if Ascii.eqb x c then by_ else String x "") (chars s)).
Definition backslash_str : string := String backslash "".

Definition prometheus_escape_label_value (value : string) : string :=
  replace_with quote_char (backslash_str +:+ dq)
    (replace_with newline (backslash_str +:+ "n") (replace_with backslash (backslash_str +:+ backslash_str) value)).

(** The lines that [write_counter] and [write_gauge] add. *)
Definition write_metric (kind name help : string) (value : Z) : list string :=
  ["# HELP " +:+ name +:+ " " +:+ help; "# TYPE " +:+ name +:+ " " +:+ kind; name +:+ " " +:+ pretty value; ""].

(** Kind, name and help text of every counter, in the order of the page. *)
Definition metric_rows : list (string * string * string * Counter) := [
  ("counter", "remerge_workorders_submitted_total", "Total number of workorders submitted.", workorders_submitted);
  ("counter", "remerge_workorders_completed_total", "Total number of workorders completed successfully.", workorders_completed);
  ("counter", "remerge_workorders_failed_total", "Total number of workorders that failed.", workorders_failed);
  ("counter", "remerge_workorders_cancelled_total", "Total number of workorders cancelled.", workorders_cancelled);
  ("gauge", "remerge_builds_active", "Number of builds currently in progress.", builds_active);
  ("counter", "remerge_builds_duration_seconds_total", "Total cumulative build duration in seconds.", builds_total_duration_secs);
  ("gauge", "remerge_queue_depth", "Number of workorders waiting in the queue.", queue_depth);
  ("gauge", "remerge_binpkg_disk_usage_bytes", "Total size of the binpkg repository in bytes.", binpkg_disk_usage_bytes);
  ("counter", "remerge_worker_image_builds_total", "Total number of worker image build attempts.", worker_image_builds_total);
  ("counter", "remerge_worker_image_build_duration_seconds_total", "Total cumulative worker image build duration in seconds.",
     worker_image_build_duration_secs_total);
  ("counter", "remerge_worker_container_starts_total", "Total number of worker container start attempts.", worker_container_starts_total);
  ("counter", "remerge_worker_container_startup_duration_seconds_total", "Total cumulative worker container startup duration in seconds.",
     worker_container_startup_duration_secs_total);
  ("counter", "remerge_cleanup_success_total", "Total successful worker runtime cleanup operations.", cleanup_success_total);
  ("counter", "remerge_cleanup_failure_total", "Total failed worker runtime cleanup operations.", cleanup_failure_total);
  ("counter", "remerge_cleanup_reclaimed_bytes_total", "Total snapshot cache bytes reclaimed by cleanup.", cleanup_reclaimed_bytes_total);
  ("counter", "remerge_snapshot_missing_blob_queries_total", "Total snapshot missing-blob discovery requests.", snapshot_missing_blob_queries_total);
  ("counter", "remerge_snapshot_missing_blob_digests_total", "Total digests examined by snapshot missing-blob discovery.",
     snapshot_missing_blob_digests_total);
  ("counter", "remerge_snapshot_missing_blob_digests_missing_total", "Total digests reported missing by snapshot missing-blob discovery.",
     snapshot_missing_blob_digests_missing_total);
  ("counter", "remerge_snapshot_blob_uploads_total", "Total snapshot blob upload requests accepted by the server.", snapshot_blob_uploads_total);
  ("counter", "remerge_snapshot_blob_upload_dedup_hits_total",
     "Snapshot blob upload requests that reused an already stored canonical blob.", snapshot_blob_upload_dedup_hits_total);
  ("counter", "remerge_snapshot_blob_upload_bytes_total", "Total raw snapshot blob bytes accepted by the server.", snapshot_blob_upload_bytes_total);
  ("counter", "remerge_snapshot_blob_downloads_total", "Total snapshot blob download responses served.", snapshot_blob_downloads_total);
  ("counter", "remerge_snapshot_blob_download_bytes_total", "Total snapshot blob bytes served to clients.", snapshot_blob_download_bytes_total);
  ("counter", "remerge_snapshot_runtime_stages_total", "Total snapshot runtime staging passes completed successfully.", snapshot_runtime_stages_total);
  ("counter", "remerge_snapshot_runtime_stage_bytes_total", "Total bytes materialized while staging snapshot runtimes.",
     snapshot_runtime_stage_bytes_total);
  ("counter", "remerge_package_builds_total", "Total best-effort package build completions detected from emerge output.", package_builds_total);
  ("counter", "remerge_package_build_duration_seconds_total", "Total cumulative best-effort package build duration in seconds.",
     package_build_duration_secs_total)].

Definition BUILDS_BY_ATOM : string := "remerge_package_builds_by_atom_total".
Definition DURATION_BY_ATOM : string := "remerge_package_build_duration_seconds_by_atom_total".

Definition labelled_line (name atom : string) (value : Z) : string :=
  name +:+ "{atom=" +:+ in_quotes (prometheus_escape_label_value atom) +:+ "} " +:+ pretty value.

Definition row_lines (m : Metrics) (row : string * string * string * Counter) : list string :=
  let '(kind, name, help, c) := row in write_metric kind name help (counter m c).
Definition atom_lines (x : string * PackageBuildMetrics) : list string :=
  let '(atom, p) := x in [labelled_line BUILDS_BY_ATOM atom (pbm_builds_total p); labelled_line DURATION_BY_ATOM atom (pbm_duration_secs_total p)].
Definition by_atom_header : list string :=
  ["# HELP remerge_package_builds_by_atom_total Best-effort package build completions grouped by atom.";
   "# TYPE remerge_package_builds_by_atom_total counter";
   "# HELP remerge_package_build_duration_seconds_by_atom_total Best-effort package build duration grouped by atom.";
   "# TYPE remerge_package_build_duration_seconds_by_atom_total counter"].

Definition page_lines (m : Metrics) : list string :=
  concat (map (row_lines m) metric_rows) ++ by_atom_header ++ concat (map atom_lines (btree_items (package_builds_by_atom m))) ++ [""].
Definition to_prometheus (m : Metrics) : string := unlines (page_lines m).

(** ** Reading

    A sample: the metric, its [atom] label if there is one, and the value as text. *)
Record Sample := { metric : string; atom_label : option string; sample_value : string }.

(** The value of a label up to its closing quote, and the rest. *)
Fixpoint read_label (l : list ascii) : option (list ascii * list ascii) :=
  match l with
  | [] => None
  | c :: r =>
      if Ascii.eqb c quote_char then Some ([], r)
      else if Ascii.eqb c backslash then
        match r with
        | d :: r' => match read_label r' with Some (v, rest) => Some ((if Ascii.eqb d "n" then newline else d) :: v, rest) | None => None end
        | [] => None
        end
      else match read_label r with Some (v, rest) => Some (c :: v, rest) | None => None end
  end.

(** The name: up to a space or an opening brace. *)
Fixpoint read_name (l : list ascii) : list ascii * list ascii :=
  match l with
  | [] => ([], [])
  | c :: r => if Ascii.eqb c " " || Ascii.eqb c "{" then ([], l) else let '(n, rest) := read_name r in (c :: n, rest)
  end.

Definition read_sample (line : string) : option Sample :=
  if is_empty line || starts_with "#" line then None
  else
  let '(name, rest) := read_name (chars line) in
  match strip_prefix " " (of_chars rest) with
  | Some v => Some {| metric := of_chars name; atom_label := None; sample_value := v |}
  | None =>
      match strip_prefix ("{atom=" +:+ dq) (of_chars rest) with
      | Some r => match read_label (chars r) with
                  | Some (label, rest) => match strip_prefix "} " (of_chars rest) with
                      | Some v => Some {| metric := of_chars name; atom_label := Some (of_chars label); sample_value := v |}
                      | None => None
                      end
                  | None => None
                  end
      | None => None
      end
  end.
Definition scrape (page : string) : list Sample := omap read_sample (split_on newline page).

(** What is to be read. *)
Definition row_sample (m : Metrics) (row : string * string * string * Counter) : Sample :=
  let '(_, name, _, c) := row in {| metric := name; atom_label := None; sample_value := pretty (counter m c) |}.
Definition atom_samples (x : string * PackageBuildMetrics) : list Sample :=
  let '(atom, p) := x in [{| metric := BUILDS_BY_ATOM; atom_label := Some atom; sample_value := pretty (pbm_builds_total p) |};
                          {| metric := DURATION_BY_ATOM; atom_label := Some atom; sample_value := pretty (pbm_duration_secs_total p) |}].
Definition samples_of (m : Metrics) : list Sample :=
  map (row_sample m) metric_rows ++ concat (map atom_samples (btree_items (package_builds_by_atom m))).

(** ** Escaping *)

Lemma replace_with_app c y a b : replace_with c y (a +:+ b) = replace_with c y a +:+ replace_with c y b.
Proof.
  unfold replace_with. rewrite chars_app, map_app. generalize (map (fun x => if Ascii.eqb x c then y else String x "") (chars b)). intros l.
  induction (map _ (chars a)) as [|x xs IH]; [done|]. cbn [app concat_strings fold_right] in *. unfold concat_strings in *. by rewrite IH, string_app_assoc.
Qed.

Definition escape_char (x : ascii) : string :=
  if Ascii.eqb x backslash then backslash_str +:+ backslash_str
  else if Ascii.eqb x newline then backslash_str +:+ "n"
  else if Ascii.eqb x quote_char then backslash_str +:+ dq else String x "".

Lemma escape_cons x s : prometheus_escape_label_value (String x s) = escape_char x +:+ prometheus_escape_label_value s.
Proof.
  unfold prometheus_escape_label_value. change (String x s) with (String x "" +:+ s). rewrite !replace_with_app. f_equal.
  unfold escape_char. destruct (Ascii.eqb_spec x backslash) as [->|H1]; [done|]. destruct (Ascii.eqb_spec x newline) as [->|H2]; [done|].
  destruct (Ascii.eqb_spec x quote_char) as [->|H3]; [done|].
  assert (Hid : forall c y, x <> c -> replace_with c y (String x "") = String x "").
  { intros c y Hne. unfold replace_with. simpl. by destruct (Ascii.eqb_spec x c). }
  by rewrite !Hid.
Qed.

(** A reader gets the text of a label back, and it stays on its line. *)
Lemma read_label_escape s rest : read_label (chars (prometheus_escape_label_value s) ++ quote_char :: rest) = Some (chars s, rest).
Proof.
  induction s as [|x s IH]; [done|]. rewrite escape_cons, chars_app, <- app_assoc, chars_cons. unfold escape_char.
  destruct (Ascii.eqb_spec x backslash) as [->|H1]; [|destruct (Ascii.eqb_spec x newline) as [->|H2]; [|destruct (Ascii.eqb_spec x quote_char) as [->|H3]]].
  - change (chars (backslash_str +:+ backslash_str)) with [backslash; backslash].
    change (read_label ([backslash; backslash] ++ ?l)) with (match read_label l with Some (v, rest) => Some (backslash :: v, rest) | None => None end). by rewrite IH.
  - change (chars (backslash_str +:+ "n")) with [backslash; "n"%char].
    change (read_label ([backslash; "n"%char] ++ ?l)) with (match read_label l with Some (v, rest) => Some (newline :: v, rest) | None => None end). by rewrite IH.
  - change (chars (backslash_str +:+ dq)) with [backslash; quote_char].
    change (read_label ([backslash; quote_char] ++ ?l)) with (match read_label l with Some (v, rest) => Some (quote_char :: v, rest) | None => None end). by rewrite IH.
  - change (chars (String x "")) with [x]. cbn [app read_label]. apply Ascii.eqb_neq in H1, H3. by rewrite H1, H3, IH.
Qed.

Lemma escape_no_newline s : newline ∉ chars (prometheus_escape_label_value s).
Proof.
  induction s as [|x s IH]; [apply not_elem_of_nil|]. rewrite escape_cons, chars_app, not_elem_of_app. split; [|done]. unfold escape_char.
  destruct (Ascii.eqb x backslash), (Ascii.eqb_spec x newline) as [|Hn], (Ascii.eqb x quote_char); try (vm_compute; set_solver); set_solver.
Qed.

(** ** Numbers *)

(** A number in decimal has digits only. *)
Lemma pretty_N_go_avoids c x s : is_ascii_digit c = false -> c ∉ chars s -> c ∉ chars (pretty_N_go x s).
Proof.
  intros Hc. revert s. induction (N.lt_wf_0 x) as [x _ IH]. intros s Hs. destruct (decide (0 < x)%N) as [Hx|Hx].
  - rewrite pretty_N_go_step by done. apply IH; [apply N.div_lt; lia|]. rewrite chars_cons, not_elem_of_cons. split; [|done].
    intros ->. revert Hc. unfold pretty_N_char. repeat case_match; done.
  - assert (x = 0%N) as -> by lia. done.
Qed.
Lemma pretty_N_avoids c (n : N) : is_ascii_digit c = false -> c ∉ chars (pretty n).
Proof.
  intros Hc. unfold pretty, pretty_N. case_match; [|apply pretty_N_go_avoids; [done|apply not_elem_of_nil]].
  change (chars "0") with ["0"%char]. rewrite list_elem_of_singleton. by intros ->.
Qed.
Lemma pretty_N_no_newline (n : N) : newline ∉ chars (pretty n).
Proof. by apply pretty_N_avoids. Qed.
Lemma pretty_no_newline (z : Z) : newline ∉ chars (pretty z).
Proof.
  destruct z as [|p|p]; [vm_compute; set_solver|exact (pretty_N_no_newline (Npos p))|].
  change (pretty (Z.neg p)) with ("-" +:+ pretty (Npos p)). rewrite chars_app, not_elem_of_app. split; [vm_compute; set_solver|apply pretty_N_no_newline].
Qed.

(** ** Samples *)

Definition is_name_end (c : ascii) : bool := Ascii.eqb c " " || Ascii.eqb c "{".
(** A metric name: it has no space, brace or hash. *)
Definition metric_name_ok (name : string) : bool := negb (is_empty name) && all_chars (fun c => negb (is_name_end c) && negb (Ascii.eqb c "#")) name.

Lemma read_name_ok name c rest : metric_name_ok name = true -> is_name_end c = true -> read_name (chars name ++ c :: rest) = (chars name, c :: rest).
Proof.
  intros [_ Hn]%andb_true_iff Hc. rewrite all_chars_spec in Hn. induction Hn as [|x l Hx Hl IH]; cbn [app read_name].
  - unfold is_name_end in Hc. by rewrite Hc.
  - apply andb_true_iff in Hx as [Hx%negb_true_iff _]. unfold is_name_end in Hx. by rewrite Hx, IH.
Qed.

Lemma metric_line_shown name rest : metric_name_ok name = true -> is_empty (name +:+ rest) || starts_with "#" (name +:+ rest) = false.
Proof.
  intros [He Hn]%andb_true_iff. destruct name as [|c name]; [done|]. rewrite all_chars_spec, chars_cons in Hn. apply Forall_cons in Hn as [Hc _].
  apply andb_true_iff in Hc as [_ Hc%negb_true_iff]. change (String c name +:+ rest) with (String c (name +:+ rest)). unfold starts_with. cbn [strip_prefix].
  rewrite Ascii.eqb_sym, Hc. done.
Qed.

Lemma read_plain name v : metric_name_ok name = true ->
  read_sample (name +:+ " " +:+ v) = Some {| metric := name; atom_label := None; sample_value := v |}.
Proof.
  intros Hn. unfold read_sample. rewrite metric_line_shown by done. rewrite chars_app. change (chars (" " +:+ v)) with (" "%char :: chars v).
  rewrite read_name_ok by done. change (of_chars (" "%char :: chars v)) with (" " +:+ of_chars (chars v)). rewrite strip_prefix_app, !of_chars_chars. done.
Qed.

Lemma read_labelled name atom v : metric_name_ok name = true ->
  read_sample (labelled_line name atom v) = Some {| metric := name; atom_label := Some atom; sample_value := pretty v |}.
Proof.
  intros Hn. unfold read_sample, labelled_line. rewrite metric_line_shown by done. rewrite chars_app.
  change (chars ("{atom=" +:+ ?x)) with ("{"%char :: chars ("atom=" +:+ x)). rewrite read_name_ok by done.
  change (of_chars ("{"%char :: chars ("atom=" +:+ ?x))) with ("{" +:+ of_chars (chars ("atom=" +:+ x))). rewrite of_chars_chars.
  match goal with |- context [strip_prefix " " ("{" +:+ ?x)] => change (strip_prefix " " ("{" +:+ x)) with (@None string) end. cbn beta iota.
  unfold in_quotes. rewrite !string_app_assoc.
  match goal with |- context [strip_prefix _ ("{" +:+ "atom=" +:+ dq +:+ ?x)] =>
    change ("{" +:+ "atom=" +:+ dq +:+ x) with (("{atom=" +:+ dq) +:+ x) end.
  rewrite strip_prefix_app, chars_app. change (chars (dq +:+ ?x)) with (quote_char :: chars x). rewrite read_label_escape.
  rewrite !of_chars_chars. change ("} " +:+ pretty v) with ("} " +:+ pretty v). rewrite strip_prefix_app. done.
Qed.

Lemma split_unlines ls : Forall (fun l => newline ∉ chars l) ls -> split_on newline (unlines ls) = ls ++ [""].
Proof.
  induction 1 as [|l ls Hl Hls IH]; [done|]. rewrite unlines_cons. change (newline_str +:+ ?x) with (String newline x).
  by rewrite split_on_app, IH.
Qed.

(** The names, kinds and help texts of the rows. *)
Definition row_ok (row : string * string * string * Counter) : bool :=
  let '(kind, name, help, _) := row in
  metric_name_ok name && negb (contains_char newline name) && negb (contains_char newline kind) && negb (contains_char newline help).
Lemma metric_rows_ok : Forall (fun row => row_ok row = true) metric_rows.
Proof. apply Forall_forall. intros row Hr. assert (Hall : forallb row_ok metric_rows = true) by by vm_compute. rewrite forallb_forall in Hall. by apply Hall, list_elem_of_In. Qed.

(** No line of the page contains a newline. *)
Lemma page_lines_ok m : Forall (fun l => newline ∉ chars l) (page_lines m).
Proof.
  assert (Hc : forall s, contains_char newline s = false -> newline ∉ chars s) by (intros s Hs Hin; apply contains_char_spec in Hin; congruence).
  unfold page_lines. rewrite !Forall_app. split_and!.
  - apply Forall_concat, Forall_map, Forall_forall. intros [[[kind name] help] c] Hin. simpl.
    pose proof metric_rows_ok as Hrows. rewrite Forall_forall in Hrows. specialize (Hrows _ Hin). unfold row_ok in Hrows.
    apply andb_true_iff in Hrows as [[[_ Hn%negb_true_iff]%andb_true_iff Hk%negb_true_iff]%andb_true_iff Hh%negb_true_iff].
    unfold write_metric. rewrite !Forall_cons, Forall_nil, ?chars_app, ?not_elem_of_app; split_and!; try done; try apply pretty_no_newline; try (by apply Hc).
  - unfold by_atom_header. rewrite !Forall_cons, Forall_nil. split_and!; try done; by apply Hc.
  - apply Forall_concat, Forall_map, Forall_forall. intros [atom p] _. unfold atom_lines, labelled_line, in_quotes.
    rewrite !Forall_cons, Forall_nil, !chars_app, !not_elem_of_app. split_and!; try done; try apply pretty_no_newline; try apply escape_no_newline; by apply Hc.
  - apply Forall_singleton, not_elem_of_nil.
Qed.

Lemma scrape_lines ls : Forall (fun l => newline ∉ chars l) ls -> scrape (unlines ls) = omap read_sample ls.
Proof. intros Hls. unfold scrape. rewrite split_unlines by done. rewrite omap_app. by rewrite app_nil_r. Qed.

Lemma omap_concat {A B} (f : A -> option B) (ls : list (list A)) : omap f (concat ls) = concat (map (omap f) ls).
Proof. induction ls as [|l ls IH]; [done|]. cbn [concat map]. by rewrite omap_app, IH. Qed.

Lemma read_row m row : row_ok row = true -> omap read_sample (row_lines m row) = [row_sample m row].
Proof.
  destruct row as [[[kind name] help] c]. intros [[[Hn _]%andb_true_iff _]%andb_true_iff _]%andb_true_iff. unfold row_lines, write_metric, row_sample.
  transitivity (match read_sample (name +:+ " " +:+ pretty (counter m c)) with Some y => [y] | None => [] end); [reflexivity|].
  by rewrite read_plain.
Qed.

Lemma read_atom x : omap read_sample (atom_lines x) = atom_samples x.
Proof.
  destruct x as [atom p]. unfold atom_lines, atom_samples.
  change (omap read_sample [?a; ?b]) with (match read_sample a with
    | Some y => y :: match read_sample b with Some z => [z] | None => [] end
    | None => match read_sample b with Some z => [z] | None => [] end end).
  by rewrite !read_labelled.
Qed.

(** The metrics page can be read back: whatever the counters are and whatever
    characters the names of the packages contain, a reader of the Prometheus text
    format gets from it exactly one sample for each counter, with its value, and the
    two samples of each package under the package's own name, and nothing else. *)
Theorem metrics_page_roundtrip m : scrape (to_prometheus m) = samples_of m.
Proof.
  unfold to_prometheus. rewrite scrape_lines by apply page_lines_ok. unfold page_lines, samples_of.
  rewrite !omap_app. change (omap read_sample by_atom_header) with (@nil Sample). change (omap read_sample [""]) with (@nil Sample). rewrite app_nil_r.
  f_equal.
  - rewrite omap_concat, map_map. induction metric_rows_ok as [|row rows Hrow Hrows IH]; [done|]. cbn [map concat]. rewrite IH, read_row by done. done.
  - cbn [app]. rewrite omap_concat, map_map. f_equal. apply map_ext, read_atom.
Qed.

Example hostile_atom :
  samples_of (record_package_build (String quote_char (String newline "x} 1")) 5 Metrics_new) =
  scrape (to_prometheus (record_package_build (String quote_char (String newline "x} 1")) 5 Metrics_new)).
Proof. vm_compute. reflexivity. Qed.
