(* ===== verification/PortageFiles.v ===== *)
(** * The Portage configuration reader ([crates/cli/src/portage.rs])

    The files of a Gentoo system the client reads: the [package.*] files, the
    repositories of [repos.conf], their snapshots and distfiles, patches, profile
    and world file.  The local file system is a tree that does not change while it
    is read. *)

From S2P Require Import Prelude Types World Paths BlobStore Repo TreeStore Text MakeConf.

#[local] Set Warnings "-register-all".

(** A file whose content is [None] cannot be read as text. *)
Inductive Node := File (content : option string) | Dir (entries : list (string * Node)).

(** [entries.sort()] within one directory. *)
Definition name_le {A} (x y : string * A) : Prop := string_le x.1 y.1.
#[global] Instance name_le_dec {A} : RelDecision (@name_le A).
Proof. intros x y. unfold name_le. apply _. Defined.
Definition sort_entries {A} (l : list (string * A)) : list (string * A) := merge_sort name_le l.

Definition is_hidden (name : string) : bool := starts_with "." name.

(** ** package.* *)

(** Non-comment, non-empty lines. *)
Definition parse_lines {T} (parser : string -> option T) (content : string) : list T :=
  omap (fun line =>
    let line := trim line in
    if is_empty line || starts_with "#" line then None else parser line) (lines content).

(** [read_package_entries_recursive]: hidden entries are skipped, the rest is read
    in the order of the names. *)
Fixpoint read_tree_entries {T} (parser : string -> option T) (n : Node) : list T :=
  match n with
  | File (Some content) => parse_lines parser content
  | File None => []
  | Dir es =>
      concat (map snd (sort_entries
        ((fix go (es : list (string * Node)) : list (string * list T) :=
            match es with
            | [] => []
            | (name, child) :: rest =>
                if is_hidden name then go rest else (name, read_tree_entries parser child) :: go rest
            end) es)))
  end.

(** [read_package_entries]: [None] when the path does not exist. *)
Definition read_package_entries {T} (parser : string -> option T) (path : option Node) : list T :=
  match path with
  | Some (Dir es) => read_tree_entries parser (Dir es)
  | Some (File content) => parse_lines parser (default "" content)
  | None => []
  end.

Definition parse_package_use (line : string) : option PackageUseEntry :=
  match split_whitespace line with
  | atom :: ((_ :: _) as flags) => Some {| pu_atom := atom; pu_flags := flags |}
  | _ => None
  end.

Definition parse_package_keywords (defaults : list string) (line : string) : option PackageKeywordEntry :=
  match split_whitespace line with
  | [] => None
  | [atom] => Some {| pk_atom := atom; pk_keywords := defaults |}
  | atom :: keywords => Some {| pk_atom := atom; pk_keywords := keywords |}
  end.

Definition empty_accept_keywords_defaults (global_accept_keywords : string) : list string :=
  map (fun k => "~" +:+ k)
    (List.filter (fun k => negb (is_empty k) && (negb (starts_with "~" k) && negb (starts_with "-" k)))
       (split_whitespace global_accept_keywords)).

Definition parse_package_license (line : string) : option PackageLicenseEntry :=
  match split_whitespace line with
  | atom :: ((_ :: _) as licenses) => Some {| pl_atom := atom; pl_licenses := licenses |}
  | _ => None
  end.

Definition parse_package_atom (line : string) : option string :=
  match split_whitespace line with atom :: _ => if is_empty atom then None else Some atom | [] => None end.

(** Only the first file of a line counts. *)
Definition parse_package_env (line : string) : option PackageEnvEntry :=
  match split_whitespace line with
  | atom :: env_file :: _ => Some {| pe_atom := atom; pe_env_file := env_file |}
  | _ => None
  end.

(** ** Directories of plain files *)

Definition readable_files (es : list (string * Node)) : list (string * string) :=
  omap (fun '(name, n) => match n with
    | File (Some content) => if is_hidden name then None else Some (name, content)
    | _ => None
    end) es.

(** A map filled by inserting one pair after the other: the last one counts. *)
Definition insert_all {V} (l : list (string * V)) : gmap string V := fold_left (fun m kv => <[kv.1 := kv.2]> m) l ∅.

Definition read_env_files (path : option Node) : gmap string string :=
  match path with Some (Dir es) => insert_all (readable_files es) | _ => ∅ end.

Definition read_repos_conf (path : option Node) : gmap string string :=
  match path with
  | Some (Dir es) => insert_all (readable_files es)
  | Some (File (Some content)) => {[ "repos.conf" := content ]}
  | _ => ∅
  end.

(** [read_patches_recursive] and [read_dir_recursive]: every readable file with its
    path below the base. *)
Fixpoint read_dir_recursive (prefix : string) (n : Node) : list (string * string) :=
  match n with
  | File (Some content) => [(prefix, content)]
  | File None => []
  | Dir es =>
      (fix go (es : list (string * Node)) : list (string * string) :=
         match es with
         | [] => []
         | (name, child) :: rest =>
             read_dir_recursive (if is_empty prefix then name else prefix +:+ "/" +:+ name) child ++ go rest
         end) es
  end.
Definition read_relative_files (path : option Node) : gmap string string :=
  match path with Some (Dir es) => insert_all (read_dir_recursive "" (Dir es)) | _ => ∅ end.

(** [read_text_tree_recursive]: hidden entries are skipped, the rest comes in the order
    of the names; a backslash in a name becomes a slash. *)
Definition replace_backslash (s : string) : string :=
  of_chars (map (fun c => if Ascii.eqb c backslash then "/"%char else c) (chars s)).

Fixpoint read_text_tree (prefix : string) (n : Node) : list (string * string) :=
  match n with
  | File (Some content) => [(replace_backslash prefix, content)]
  | File None => []
  | Dir es =>
      concat (map snd (sort_entries
        ((fix go (es : list (string * Node)) : list (string * list (string * string)) :=
            match es with
            | [] => []
            | (name, child) :: rest =>
                if is_hidden name then go rest
                else (name, read_text_tree (if is_empty prefix then name else prefix +:+ "/" +:+ name) child) :: go rest
            end) es)))
  end.

(** ** repos.conf *)

Record RepoSection := {
  rs_name : string;
  rs_location : string;
  rs_sync_uri : option string;
  rs_auto_sync : option bool;
}.

Definition parse_bool (value : string) : option bool :=
  let v := lowercase (trim value) in
  if bool_decide (v = "yes") || bool_decide (v = "true") || bool_decide (v = "1") then Some true
  else if bool_decide (v = "no") || bool_decide (v = "false") || bool_decide (v = "0") then Some false
  else None.

(** The section that is being read. *)
Record OpenSection := {
  os_name : string;
  os_location : option string;
  os_sync_uri : option string;
  os_auto_sync : option bool;
}.
Definition no_section : OpenSection :=
  {| os_name := ""; os_location := None; os_sync_uri := None; os_auto_sync := None |}.

Definition flush (s : OpenSection) : list RepoSection :=
  if negb (is_empty (os_name s)) && negb (eq_ignore_ascii_case (os_name s) "DEFAULT") then
    match os_location s with
    | Some location => [{| rs_name := os_name s; rs_location := location; rs_sync_uri := os_sync_uri s;
                           rs_auto_sync := os_auto_sync s |}]
    | None => []
    end
  else [].

(** The text between the brackets of a section header. *)
Definition header (trimmed : string) : option string :=
  match chars trimmed with
  | c :: r =>
      match rev r with
      | d :: m => if Ascii.eqb c "[" && Ascii.eqb d "]" then Some (of_chars (rev m)) else None
      | [] => None
      end
  | [] => None
  end.

Definition repo_line (st : list RepoSection * OpenSection) (line : string) : list RepoSection * OpenSection :=
  let '(repos, s) := st in
  let trimmed := trim line in
  match header trimmed with
  | Some name => (repos ++ flush s, {| os_name := trim name; os_location := None; os_sync_uri := None; os_auto_sync := None |})
  | None =>
      match split_once "=" trimmed with
      | Some (k, value) =>
          let k := lowercase (trim k) in
          if bool_decide (k = "location") then
            (repos, {| os_name := os_name s; os_location := Some (trim value); os_sync_uri := os_sync_uri s;
                       os_auto_sync := os_auto_sync s |})
          else if bool_decide (k = "sync-uri") then
            let value := trim value in
            if is_empty value then st
            else (repos, {| os_name := os_name s; os_location := os_location s; os_sync_uri := Some value;
                            os_auto_sync := os_auto_sync s |})
          else if bool_decide (k = "auto-sync") then
            (repos, {| os_name := os_name s; os_location := os_location s; os_sync_uri := os_sync_uri s;
                       os_auto_sync := parse_bool value |})
          else st
      | None => st
      end
  end.

Definition parse_repo_sections_full (content : string) : list RepoSection :=
  let '(repos, s) := fold_left repo_line (lines content) ([], no_section) in repos ++ flush s.

(** [s.trim_end_matches('/')] *)
Definition trim_end_slashes (s : string) : string :=
  of_chars (rev (drop_while (Ascii.eqb "/") (rev (chars s)))).

Definition should_snapshot_repo (r : RepoSection) : bool :=
  if eq_ignore_ascii_case (rs_name r) "gentoo" then false
  else negb (ends_with "/gentoo" (trim_end_slashes (rs_location r))) &&
       (bool_decide (rs_auto_sync r = Some false) || negb (is_some (rs_sync_uri r))).

(** ** Snapshots *)

Section Snapshots.
Context `{Sha256, TreeCodec}.
(** The tree at an absolute path. *)
Context (tree_at : string -> option Node).

(** One repository section. *)
Definition snapshot_repo (snapshots : gmap string (gmap string string)) (r : RepoSection) :
    gmap string (gmap string string) :=
  if negb (should_snapshot_repo r) then snapshots
  else match tree_at (rs_location r) with
       | Some (Dir es) =>
           let files : gmap string string := insert_all (read_text_tree "" (Dir es)) in
           if bool_decide (files = ∅) then snapshots else <[rs_name r := files]> snapshots
       | _ => snapshots
       end.

Definition read_repo_snapshots (repos_conf : gmap string string) : gmap string (gmap string string) :=
  fold_left (fun snapshots item => fold_left snapshot_repo (parse_repo_sections_full item.2) snapshots)
    (btree_items repos_conf) ∅.

Definition is_valid_distfile_basename (name : string) : bool :=
  negb (is_empty (trim name)) && is_single_normal_path_component name.

Definition manifest_distfile (line : string) : option string :=
  match split_whitespace line with
  | kind :: name :: _ => if bool_decide (kind = "DIST") && is_valid_distfile_basename name then Some name else None
  | _ => None
  end.
Definition parse_manifest_distfiles (content : string) : list string := omap manifest_distfile (lines content).

(** [distfile name]: the bytes of a file of the distfiles directory. *)
Context (distfile : string -> option bytes).

Definition is_manifest (path : string) : bool := ends_with "/Manifest" path || bool_decide (path = "Manifest").

Definition snapshot_distfile (files : gmap string bytes) (name : string) : gmap string bytes :=
  if bool_decide (is_Some (files !! name)) then files
  else match distfile name with Some data => <[name := data]> files | None => files end.

Definition read_distfile_snapshots (repo_snapshots : gmap string (gmap string string)) : gmap string bytes :=
  fold_left (fun files repo =>
    fold_left (fun files item =>
      if is_manifest item.1 then fold_left snapshot_distfile (parse_manifest_distfiles item.2) files else files)
      (btree_items repo.2) files)
    (btree_items repo_snapshots) ∅.

Definition compute_repo_snapshot_refs (repo_snapshots : gmap string (gmap string string)) : gmap string (gmap string string) :=
  (fun snapshot : gmap string string => (fun content => sha256_hex (string_bytes content)) <$> snapshot) <$> repo_snapshots.
Definition compute_repo_snapshot_trees (refs : gmap string (gmap string string)) : gmap string string :=
  (fun r => sha256_hex (tree_manifest_to_vec r)) <$> refs.
Definition compute_distfile_snapshot_refs (distfiles : gmap string bytes) : gmap string string := sha256_hex <$> distfiles.

(** [fs::metadata]: the length and modification time of a file of a repository or of
    the distfiles directory. *)
Context (stat_repo : string -> string -> option (Z * Z)) (stat_distfile : string -> option (Z * Z)).

Definition manifest_repo_entry (repo_name location : string) (refs : gmap string string)
    (entries : gmap string SnapshotEntry) (relative_path : string) : Result (gmap string SnapshotEntry) string :=
  let? digest := ok_or (refs !! relative_path)
    ("Missing repo snapshot digest for '" +:+ repo_name +:+ ":" +:+ relative_path +:+ "'") in
  let? st := ok_or (stat_repo location relative_path) ("Failed to stat " +:+ location +:+ "/" +:+ relative_path) in
  Ok (<[relative_path := {| se_digest := digest; se_size := st.1; se_mtime_secs := st.2 |}]> entries).

(** [for x in xs { s = f(s, x)?; }] *)
Fixpoint fold_result {S A E} (f : S -> A -> Result S E) (xs : list A) (s : S) : Result S E :=
  match xs with [] => Ok s | x :: rest => let? s := f s x in fold_result f rest s end.

Definition repo_locations (repos_conf : gmap string string) : gmap string string :=
  fold_left (fun m r => <[rs_name r := rs_location r]> m)
    (concat (map (fun item => parse_repo_sections_full item.2) (btree_items repos_conf))) ∅.

Definition manifest_repo (repos_conf : gmap string string) (refs : gmap string (gmap string string))
    (trees : gmap string string) (m : SnapshotManifest) (item : string * gmap string string) : Result SnapshotManifest string :=
  let '(repo_name, snapshot) := item in
  let? r := ok_or (refs !! repo_name) ("Missing repo snapshot refs for repo '" +:+ repo_name +:+ "'") in
  let? location := ok_or (repo_locations repos_conf !! repo_name) ("Missing repo location for repo '" +:+ repo_name +:+ "'") in
  let? entries := fold_result (manifest_repo_entry repo_name location r) (btree_keys snapshot) ∅ in
  Ok {| sm_version := sm_version m;
        sm_repo_snapshots := <[repo_name := {| rsm_tree_digest := default "" (trees !! repo_name); rsm_entries := entries |}]>
                               (sm_repo_snapshots m);
        sm_distfiles := sm_distfiles m |}.

Definition manifest_distfile_entry (refs : gmap string string) (m : SnapshotManifest) (item : string * bytes) :
    Result SnapshotManifest string :=
  let '(filename, b) := item in
  let? digest := ok_or (refs !! filename) ("Missing distfile snapshot digest for '" +:+ filename +:+ "'") in
  let? st := ok_or (stat_distfile filename) ("Failed to stat " +:+ filename) in
  if negb (st.1 =? blen b) then
    Err ("Distfile snapshot size mismatch for '" +:+ filename +:+ "': captured " +:+ pretty (blen b) +:+
         " bytes, filesystem reports " +:+ pretty st.1)
  else Ok {| sm_version := sm_version m; sm_repo_snapshots := sm_repo_snapshots m;
             sm_distfiles := <[filename := {| se_digest := digest; se_size := st.1; se_mtime_secs := st.2 |}]> (sm_distfiles m) |}.

Definition build_snapshot_manifest (repos_conf : gmap string string) (repo_snapshots : gmap string (gmap string string))
    (refs : gmap string (gmap string string)) (trees : gmap string string) (distfiles : gmap string bytes)
    (distfile_refs : gmap string string) : Result SnapshotManifest string :=
  let? m := fold_result (manifest_repo repos_conf refs trees) (btree_items repo_snapshots) SnapshotManifest_default in
  fold_result (manifest_distfile_entry distfile_refs) (btree_items distfiles) m.

End Snapshots.

(** ** Profile, world and sets *)

(** [s.find(x)], as the text after the first occurrence. *)
Fixpoint after_first (x s : string) : option string :=
  match strip_prefix x s with
  | Some r => Some r
  | None => match s with String _ r => after_first x r | EmptyString => None end
  end.

(** [read_profile]; [link]: the target of [make.profile]. *)
Definition read_profile (link : option string) : string :=
  match link with
  | Some target => default target (after_first "profiles/" target)
  | None => "unknown"
  end.

Definition read_world (content : option string) : list string :=
  match content with
  | Some c => List.filter (fun l => negb (is_empty l) && negb (starts_with "#" l)) (map trim (lines c))
  | None => []
  end.

(** One profile directory: its readable [parent] and [packages] files. *)
Definition system_atom (line : string) : option string :=
  let line := trim line in
  if is_empty line || starts_with "#" line then None
  else match strip_prefix "*" line with
       | Some atom => let atom := trim atom in if is_empty atom then None else Some atom
       | None => None
       end.

(** [read_profile_packages], for profiles whose chain of parents is at most [depth]
    long; [dir_at p line] is the directory [p.join(line)] if it is one. *)
Section Profiles.
Context {Dirs : Type} (parent_file packages_file : Dirs -> option string) (dir_at : Dirs -> string -> option Dirs).

Definition content_lines (c : option string) : list string :=
  match c with
  | Some c => List.filter (fun l => negb (is_empty l || starts_with "#" l)) (map trim (lines c))
  | None => []
  end.

Fixpoint read_profile_packages (depth : nat) (p : Dirs) : list string :=
  match depth with
  | O => []
  | S n =>
      concat (map (read_profile_packages n) (omap (dir_at p) (content_lines (parent_file p)))) ++
      match packages_file p with Some c => omap system_atom (lines c) | None => [] end
  end.
End Profiles.

(** [expand_set], given the world file and the system set. *)
Definition expand_set (world : option string) (system : list string) (set_name : string) : list string :=
  if bool_decide (set_name = "@world") then
    match read_world world with [] => [set_name] | atoms => atoms end
  else if bool_decide (set_name = "@system") then
    match system with [] => [set_name] | atoms => atoms end
  else [set_name].

(** [detect_arch]: the first part of the profile that names an architecture, else
    what [uname -m] says. *)
Definition known_arches : list string := ["amd64"; "arm64"; "arm"; "x86"; "ppc64"; "riscv"; "s390"].
Definition detect_arch `{Commands} (profile : string) : string :=
  match find (fun part => bool_decide (part ∈ known_arches)) (split_on "/" profile) with
  | Some part => part
  | None =>
      match run_command "uname" ["-m"] with
      | Some o =>
          if out_utf8 o then
            let s := trim (out_stdout o) in
            if bool_decide (s = "x86_64") then "amd64" else if bool_decide (s = "aarch64") then "arm64" else s
          else "amd64"
      | None => "amd64"
      end
  end.

(** [detect_version], [detect_libc_version] and [detect_kernel_version]. *)
Definition first_line `{Commands} (program : string) (args : list string) : string :=
  match run_command program args with
  | Some o => if out_utf8 o then match lines (out_stdout o) with l :: _ => trim l | [] => "unknown" end else "unknown"
  | None => "unknown"
  end.
Definition detect_kernel_version `{Commands} : string :=
  match run_command "uname" ["-r"] with
  | Some o => if out_utf8 o then trim (out_stdout o) else "unknown"
  | None => "unknown"
  end.

(** [detect_chost] and [detect_python_targets] read make.conf again. *)
Definition detect_chost `{Commands} (make_conf : option string) : Result string string :=
  match make_conf ≫= fun c => parse_make_conf_vars c !! "CHOST" with
  | Some chost => if is_empty chost then map_err (fun _ => "Failed to detect CHOST") (let? r := resolve_native_flags in Ok (rf_chost r)) else Ok chost
  | None => map_err (fun _ => "Failed to detect CHOST") (let? r := resolve_native_flags in Ok (rf_chost r))
  end.
Definition detect_python_targets (make_conf : option string) : list string :=
  match make_conf ≫= fun c => parse_make_conf_vars c !! "PYTHON_TARGETS" with
  | Some targets => split_whitespace targets
  | None => []
  end.

Definition read_system_identity `{Commands} (profile_link make_conf : option string) : Result SystemIdentity string :=
  let profile := read_profile profile_link in
  let? chost := detect_chost make_conf in
  Ok {| si_arch := detect_arch profile; si_chost := chost; si_gcc_version := first_line "gcc" ["--version"];
        si_libc_version := first_line "ldd" ["--version"]; si_kernel_version := detect_kernel_version;
        si_python_targets := detect_python_targets make_conf; si_profile := profile |}.

(** ** The whole configuration ([read_config]) *)

(** What [read_config] finds on the system: [etc name] is what is at /etc/portage/[name]. *)
Record System := {
  sys_can_query : bool;
  sys_make_conf : option (option string);
  sys_legacy_make_conf : option (option string);
  sys_etc : string -> option Node;
  sys_tree_at : string -> option Node;
  sys_distfile : string -> option bytes;
  sys_stat_repo : string -> string -> option (Z * Z);
  sys_stat_distfile : string -> option (Z * Z);
  sys_profile_link : option string;
  sys_world : option string;
}.

Definition read_config `{Commands, Sha256, TreeCodec} (y : System) : Result PortageConfig string :=
  let? make_conf := read_make_conf_from (sys_can_query y) (sys_make_conf y) (sys_legacy_make_conf y) in
  let defaults := empty_accept_keywords_defaults (mc_accept_keywords make_conf) in
  let repos_conf := read_repos_conf (sys_etc y "repos.conf") in
  let repo_snapshots := read_repo_snapshots (sys_tree_at y) repos_conf in
  let refs := compute_repo_snapshot_refs repo_snapshots in
  let trees := compute_repo_snapshot_trees refs in
  let distfiles := read_distfile_snapshots (sys_distfile y) repo_snapshots in
  let distfile_refs := compute_distfile_snapshot_refs distfiles in
  let? manifest := build_snapshot_manifest (sys_stat_repo y) (sys_stat_distfile y) repos_conf repo_snapshots refs trees distfiles distfile_refs in
  Ok {| pc_make_conf := make_conf;
        pc_package_use := read_package_entries parse_package_use (sys_etc y "package.use");
        pc_package_accept_keywords := read_package_entries (parse_package_keywords defaults) (sys_etc y "package.accept_keywords");
        pc_package_license := read_package_entries parse_package_license (sys_etc y "package.license");
        pc_package_mask := read_package_entries parse_package_atom (sys_etc y "package.mask");
        pc_package_unmask := read_package_entries parse_package_atom (sys_etc y "package.unmask");
        pc_package_env := read_package_entries parse_package_env (sys_etc y "package.env");
        pc_env_files := read_env_files (sys_etc y "env"); pc_repos_conf := repos_conf; pc_snapshot_manifest := manifest;
        pc_repo_snapshots := repo_snapshots; pc_repo_snapshot_refs := refs; pc_repo_snapshot_trees := trees;
        pc_patches := read_relative_files (sys_etc y "patches"); pc_profile_overlay := read_relative_files (sys_etc y "profile");
        pc_distfile_snapshots := distfiles; pc_distfile_snapshot_refs := distfile_refs; pc_profile := read_profile (sys_profile_link y);
        pc_world := read_world (sys_world y) |}.
