(* ===== verification/WorkerSetup.v ===== *)
(** * Applying a configuration in the worker ([crates/worker/src/portage_setup.rs])

    The worker writes the client's configuration below [/etc/portage], restores the
    inline snapshots of repositories and distfiles, and chooses the profile.  What it does
    to whole trees is in [Restore] and [Locations]. *)

From S2P Require Import Prelude Types Registry World Paths BlobStore Repo Runtime Text MakeConf PortageFiles.

(** ** Writing files

    What the set-up needs of a file system.  The operations below are written against
    this interface: on the plain files of [World] their effect is easy to state, and on
    the disk with directories and links ([ApplyConfig]) they are part of the whole
    set-up. *)
Class SetupFs (S : Type) := {
  sf_create_dir_all : path -> StateResult S IoError unit;   (* fs::create_dir_all *)
  sf_write : path -> bytes -> StateResult S IoError unit;   (* fs::write *)
  sf_refused : StateResult S IoError unit;                  (* fs::write to a name spelled like a directory *)
}.
#[export] Instance World_setup : SetupFs World :=
  {| sf_create_dir_all := fs_create_dir_all; sf_write := fs_write; sf_refused := guarded no_effect (throw OtherIo) |}.

Definition is_nil {A} (l : list A) : bool := match l with [] => true | _ => false end.

Section Writing.
Context {S : Type} `{SetupFs S}.
Abbreviation Setup := (StateResult S Error unit).

(** [fs::write]: a name spelled like a directory is refused. *)
Definition write_spelled (p : path) (as_dir : bool) (b : bytes) : StateResult S IoError unit := if as_dir then sf_refused else sf_write p b.

Definition write_make_conf_inner (base : path) (mc : MakeConf) (worker_chost : string) (gpg_key gpg_home jobs load : option string) :
    Setup :=
  with_context "Failed to write make.conf"
    (sf_write (join base "make.conf") (string_bytes (make_conf_text mc worker_chost gpg_key gpg_home jobs load))).

(** The six [write_package_*_inner]: nothing for an empty list, else one file. *)
Definition write_package_file (base : path) (name : string) (is_nil : bool) (content : string) : Setup :=
  if is_nil then ret tt
  else
    let dir := join base name in
    with_context "I/O error" (sf_create_dir_all dir) ;;
    with_context ("Failed to write " +:+ name) (sf_write (join dir "remerge") (string_bytes content)).

(** [format!("{} {}\n", atom, words.join(" "))] *)
Definition atom_line (atom : string) (words : list string) : string := atom +:+ " " +:+ join_with " " words +:+ newline_str.

Definition package_use_text (es : list PackageUseEntry) : string :=
  concat_strings (map (fun e => atom_line (pu_atom e) (pu_flags e)) es).
Definition write_package_use_inner (base : path) (c : PortageConfig) : Setup :=
  write_package_file base "package.use" (is_nil (pc_package_use c)) (package_use_text (pc_package_use c)).

Definition package_keywords_text (es : list PackageKeywordEntry) : string :=
  concat_strings (map (fun e => atom_line (pk_atom e) (pk_keywords e)) es).
Definition write_package_accept_keywords_inner (base : path) (c : PortageConfig) : Setup :=
  write_package_file base "package.accept_keywords" (is_nil (pc_package_accept_keywords c))
    (package_keywords_text (pc_package_accept_keywords c)).

Definition package_license_text (es : list PackageLicenseEntry) : string :=
  concat_strings (map (fun e => atom_line (pl_atom e) (pl_licenses e)) es).
Definition write_package_license_inner (base : path) (c : PortageConfig) : Setup :=
  write_package_file base "package.license" (is_nil (pc_package_license c)) (package_license_text (pc_package_license c)).

Definition package_atoms_text (atoms : list string) : string := concat_strings (map (fun a => a +:+ newline_str) atoms).
Definition write_package_mask_inner (base : path) (c : PortageConfig) : Setup :=
  write_package_file base "package.mask" (is_nil (pc_package_mask c)) (package_atoms_text (pc_package_mask c)).
Definition write_package_unmask_inner (base : path) (c : PortageConfig) : Setup :=
  write_package_file base "package.unmask" (is_nil (pc_package_unmask c)) (package_atoms_text (pc_package_unmask c)).

(** A plain file name: not blank, no slash, no [..]. *)
Definition plain_file_name (name : string) : bool :=
  negb (is_empty (trim name)) && negb (contains_char "/" name) && negb (contains_str ".." name).

Definition package_env_text (es : list PackageEnvEntry) : string :=
  concat_strings (map (fun e => pe_atom e +:+ " " +:+ pe_env_file e +:+ newline_str)
    (List.filter (fun e => plain_file_name (pe_env_file e)) es)).
Definition write_package_env_inner (base : path) (c : PortageConfig) : Setup :=
  write_package_file base "package.env" (is_nil (pc_package_env c)) (package_env_text (pc_package_env c)).

(** [write_env_files_inner] and [write_repos_conf_inner]. *)
Definition write_named_files (dir : path) (files : gmap string string) : Setup :=
  if bool_decide (files = ∅) then ret tt
  else
    with_context "I/O error" (sf_create_dir_all dir) ;;
    for_io (fun item =>
      if plain_file_name item.1 then
        with_context ("Failed to write " +:+ display (join_str dir item.1)) (write_spelled (join_str dir item.1) (bool_decide (item.1 = ".")) (string_bytes item.2))
      else ret tt) (btree_items files).
Definition write_env_files_inner (base : path) (c : PortageConfig) : Setup :=
  write_named_files (join base "env") (pc_env_files c).
Definition write_repos_conf_inner (base : path) (c : PortageConfig) : Setup :=
  write_named_files (join base "repos.conf") (pc_repos_conf c).

(** A relative path of normal components. *)
Definition safe_relative (rel : string) : bool := forallb is_normal (components rel) && negb (is_empty rel).

(** [write_profile_overlay_inner] and [write_patches_inner]: unsafe paths are skipped. *)
Definition write_relative_files (what : string) (base : path) (files : gmap string string) : Setup :=
  for_io (fun item =>
    if safe_relative item.1 then
      let full_path := join_str base item.1 in
      match parent full_path with
      | Some p => with_context ("Failed to create parent dir for " +:+ what +:+ " " +:+ display full_path) (sf_create_dir_all p)
      | None => ret tt
      end ;;
      with_context ("Failed to write " +:+ what +:+ " " +:+ display full_path)
        (write_spelled full_path (spelled_as_dir item.1) (string_bytes item.2))
    else ret tt) (btree_items files).
Definition write_profile_overlay_inner (base : path) (c : PortageConfig) : Setup := write_relative_files "profile overlay" base (pc_profile_overlay c).
Definition write_patches_inner (base : path) (c : PortageConfig) : Setup := write_relative_files "patch" base (pc_patches c).

(** ** Restoring snapshots *)

(** A file of an inline repository snapshot. *)
Definition restore_repo_file (repo_root : path) (item : string * string) : Setup :=
  if safe_relative item.1 then
    let full_path := join_str repo_root item.1 in
    match parent full_path with
    | Some p => with_context ("Failed to create parent dir for repo snapshot " +:+ display full_path) (sf_create_dir_all p)
    | None => ret tt
    end ;;
    with_context ("Failed to write repo snapshot " +:+ display full_path)
      (write_spelled full_path (spelled_as_dir item.1) (string_bytes item.2))
  else ret tt.

(** [repo_locations]: the locations [read_repo_locations] found in the worker's repos.conf. *)
Definition restore_snapshots_inner (c : PortageConfig) (repo_locations : gmap string string) (distfiles_base : path) : Setup :=
  for_io (fun item =>
    match repo_locations !! item.1 with
    | None => ret tt
    | Some location => for_io (restore_repo_file (join_str [] location)) (btree_items item.2)
    end) (btree_items (pc_repo_snapshots c)) ;;
  (if bool_decide (pc_distfile_snapshots c = ∅) then ret tt
   else with_context ("Failed to create distfiles dir " +:+ display distfiles_base) (sf_create_dir_all distfiles_base)) ;;
  for_io (fun item =>
    if is_valid_distfile_basename item.1 then
      with_context ("Failed to write distfile snapshot " +:+ display (join_str distfiles_base item.1))
        (write_spelled (join_str distfiles_base item.1) (spelled_as_dir item.1) item.2)
    else ret tt) (btree_items (pc_distfile_snapshots c)).

(** [apply_config_inner] up to the profile. *)
Definition apply_config_files (base : path) (c : PortageConfig) (worker_chost : string) (gpg_key gpg_home jobs load : option string) :
    Setup :=
  write_make_conf_inner base (pc_make_conf c) worker_chost gpg_key gpg_home jobs load ;;
  write_package_use_inner base c ;;
  write_package_accept_keywords_inner base c ;;
  write_package_license_inner base c ;;
  write_package_mask_inner base c ;;
  write_package_unmask_inner base c ;;
  write_package_env_inner base c ;;
  write_env_files_inner base c ;;
  write_repos_conf_inner base c ;;
  write_profile_overlay_inner (join base "profile") c ;;
  write_patches_inner (join base "patches") c.
End Writing.

(** ** repos.conf in the worker *)

Record WorkerRepoSection := { wrs_name : string; wrs_location : string; wrs_sync_uri : option string }.

Record WorkerOpenSection := { wos_name : string; wos_location : option string; wos_sync_uri : option string }.
Definition worker_no_section : WorkerOpenSection := {| wos_name := ""; wos_location := None; wos_sync_uri := None |}.

Definition worker_flush (s : WorkerOpenSection) : list WorkerRepoSection :=
  if negb (is_empty (wos_name s)) && negb (eq_ignore_ascii_case (wos_name s) "DEFAULT") then
    match wos_location s with
    | Some loc => [{| wrs_name := wos_name s; wrs_location := loc; wrs_sync_uri := wos_sync_uri s |}]
    | None => []
    end
  else [].

(** The name of a section is taken as it stands between the brackets. *)
Definition worker_repo_line (st : list WorkerRepoSection * WorkerOpenSection) (line : string) :
    list WorkerRepoSection * WorkerOpenSection :=
  let '(repos, s) := st in
  let trimmed := trim line in
  match header trimmed with
  | Some name => (repos ++ worker_flush s, {| wos_name := name; wos_location := None; wos_sync_uri := None |})
  | None =>
      match split_once "=" trimmed with
      | Some (k, value) =>
          let k := trim k in
          let value := trim value in
          if eq_ignore_ascii_case k "location" then
            (repos, {| wos_name := wos_name s; wos_location := Some value; wos_sync_uri := wos_sync_uri s |})
          else if eq_ignore_ascii_case k "sync-uri" then
            (repos, {| wos_name := wos_name s; wos_location := wos_location s; wos_sync_uri := Some value |})
          else st
      | None => st
      end
  end.

Definition worker_parse_repo_sections_full (content : string) : list WorkerRepoSection :=
  let '(repos, s) := fold_left worker_repo_line (lines content) ([], worker_no_section) in repos ++ worker_flush s.
Definition parse_repo_sections (content : string) : list (string * string) :=
  map (fun r => (wrs_name r, wrs_location r)) (worker_parse_repo_sections_full content).

(** [rewrite_repo_location_inner], the text of the file. *)
Definition rewrite_line (old_loc new_loc line : string) : string :=
  match split_once "=" (trim line) with
  | Some (k, value) =>
      if eq_ignore_ascii_case (trim k) "location" && bool_decide (trim value = old_loc) then "location = " +:+ new_loc else line
  | None => line
  end.
Definition rewrite_location_text (old_loc new_loc content : string) : string :=
  concat_strings (map (fun line => rewrite_line old_loc new_loc line +:+ newline_str) (lines content)).

(** The location of a repository must be absolute, without [.] and [..]. *)
Definition location_valid (location : string) : bool :=
  is_absolute location &&
  forallb (fun c => match c with RootDir | Normal _ => true | _ => false end) (components location).

(** ** The profile ([set_profile_inner]) *)

Definition profile_target (is_dir : string -> bool) (profile : string) (repo_locations : list string) : option string :=
  if is_empty profile || bool_decide (profile = "unknown") then None
  else
    let candidates := map (fun loc => loc +:+ "/profiles/" +:+ profile) repo_locations in
    let target := default ("/var/db/repos/gentoo/profiles/" +:+ profile) (find is_dir candidates) in
    if is_dir target then Some target else None.

(** ** The package files read back *)

(** First and last character are not white space. *)
Definition tight (s : string) : Prop :=
  match chars s with c :: _ => is_whitespace c = false | [] => False end /\
  match rev (chars s) with c :: _ => is_whitespace c = false | [] => False end.

Lemma tight_trim s : tight s -> trim s = s.
Proof. intros [H1 H2]. apply trim_tight; [by destruct (chars s)|by destruct (rev (chars s))]. Qed.

Lemma tight_word s : is_word s = true -> tight s.
Proof.
  rewrite is_word_chars. intros [Hne Hw]. split.
  - destruct (chars s) as [|c l]; [done|]. by apply Forall_cons in Hw as [Hc _].
  - apply Forall_rev in Hw. destruct (rev (chars s)) as [|c l] eqn:E; [|by apply Forall_cons in Hw as [Hc _]].
    apply (f_equal (@rev ascii)) in E. rewrite rev_involutive in E. done.
Qed.

Lemma tight_app a b : tight a -> tight b -> tight (a +:+ " " +:+ b).
Proof.
  intros [Ha _] [_ Hb]. split; rewrite !chars_app.
  - by destruct (chars a).
  - rewrite !rev_app_distr. by destruct (rev (chars b)).
Qed.

Lemma tight_join ws : ws <> [] -> Forall (fun w => is_word w = true) ws -> tight (join_with " " ws).
Proof.
  intros Hne Hws. induction Hws as [|w ws Hw Hws IH]; [done|]. destruct ws as [|w' ws]; [by apply tight_word|].
  change (join_with " " (w :: w' :: ws)) with (w +:+ " " +:+ join_with " " (w' :: ws)).
  apply tight_app; [by apply tight_word|by apply IH].
Qed.

Lemma is_line_app a b : is_line a = true -> is_line b = true -> is_line (a +:+ b) = true.
Proof.
  unfold is_line, contains_char. rewrite !andb_true_iff, !negb_true_iff, !any_char_app, !orb_false_iff. tauto.
Qed.

Lemma is_line_word w : any_char is_whitespace w = false -> is_line w = true.
Proof.
  intros Hw. unfold is_line. rewrite andb_true_iff, !negb_true_iff. rewrite any_char_false in Hw.
  split; apply not_true_iff_false; intros Hc; apply contains_char_spec, Hw in Hc; done.
Qed.

Lemma is_line_join ws : Forall (fun w => is_word w = true) ws -> is_line (join_with " " ws) = true.
Proof.
  induction 1 as [|w ws Hw Hws IH]; [done|].
  assert (Hwl : is_line w = true) by (apply is_line_word; unfold is_word in Hw; apply andb_true_iff in Hw as [_ Hw]; by apply negb_true_iff).
  destruct ws as [|w' ws]; [done|].
  change (join_with " " (w :: w' :: ws)) with (w +:+ " " +:+ join_with " " (w' :: ws)).
  by apply is_line_app, is_line_app.
Qed.

(** A line of words that is not a comment. *)
Definition words_ok (ws : list string) : Prop :=
  Forall (fun w => is_word w = true) ws /\ match ws with w :: _ => starts_with "#" w = false | [] => False end.

Lemma starts_hash_app a b : starts_with "#" a = false -> a <> "" -> starts_with "#" (a +:+ b) = false.
Proof.
  intros Hs Hne. destruct a as [|c a]; [done|]. change (String c a +:+ b) with (String c (a +:+ b)).
  unfold starts_with in *. cbn [strip_prefix] in *. by destruct (Ascii.eqb "#" c).
Qed.

Lemma words_ok_start ws : words_ok ws -> starts_with "#" (join_with " " ws) = false /\ is_empty (join_with " " ws) = false.
Proof.
  intros [Hw Hh]. destruct ws as [|w ws]; [done|]. apply Forall_cons in Hw as [Hw _].
  assert (Hne : w <> "") by (intros ->; done). destruct ws as [|w' ws]; [by split; [|apply is_empty_false]|].
  change (join_with " " (w :: w' :: ws)) with (w +:+ " " +:+ join_with " " (w' :: ws)).
  split; [by apply starts_hash_app|]. by destruct w.
Qed.

Lemma parse_lines_words {T} (parser : string -> option T) wss :
  Forall words_ok wss ->
  parse_lines parser (concat_strings (map (fun ws => join_with " " ws +:+ newline_str) wss)) =
  omap (fun ws => parser (join_with " " ws)) wss.
Proof.
  intros Hok. unfold parse_lines. rewrite <- (map_map (join_with " ") (fun l => l +:+ newline_str)), lines_concat.
  - induction Hok as [|ws wss Hws Hok IH]; [done|]. cbn [map omap list_omap].
    destruct (words_ok_start ws Hws) as [Hs He]. destruct Hws as [Hw Hh].
    rewrite tight_trim by (apply tight_join; [by destruct ws|done]). rewrite He, Hs. cbn [orb].
    destruct (parser (join_with " " ws)); by rewrite <- IH.
  - apply Forall_map. eapply Forall_impl; [exact Hok|]. intros ws [Hw _]. by apply is_line_join.
Qed.

(** An atom with its words, and how the worker writes it: also without words there is a
    space after the atom. *)
Definition atom_text (atom : string) (ws : list string) : string := atom +:+ " " +:+ join_with " " ws.
Lemma atom_text_line atom ws : words_ok (atom :: ws) ->
  trim (atom_text atom ws) = join_with " " (atom :: ws) /\ is_line (atom_text atom ws) = true.
Proof.
  intros [Hw _]. pose proof (tight_join (atom :: ws) ltac:(done) Hw) as Ht. pose proof (is_line_join _ Hw) as Hl. unfold atom_text.
  destruct ws as [|w ws]; [|split; [by apply tight_trim|done]]. cbn [join_with] in *. split; [|by apply is_line_app].
  destruct Ht as [H1 H2]. unfold trim, trim_start. assert (H1' : drop_while is_whitespace (chars (atom +:+ " " +:+ "")) = chars (atom +:+ " ")).
  { apply drop_while_none. rewrite !chars_app. by destruct (chars atom). }
  rewrite H1', of_chars_chars. unfold trim_end. rewrite chars_app, rev_app_distr.
  change (rev (chars " ") ++ rev (chars atom)) with (" "%char :: rev (chars atom)). cbn [drop_while]. change (is_whitespace " ") with true. cbn iota.
  rewrite drop_while_none by by destruct (rev (chars atom)). by rewrite rev_involutive, of_chars_chars.
Qed.

Lemma parse_entries {E T} (atom : E -> string) (ws : E -> list string) (parser : string -> option T) (f : E -> T) es :
  Forall (fun e => words_ok (atom e :: ws e) /\ parser (join_with " " (atom e :: ws e)) = Some (f e)) es ->
  parse_lines parser (concat_strings (map (fun e => atom_line (atom e) (ws e)) es)) = map f es.
Proof.
  intros Hes. replace (map (fun e => atom_line (atom e) (ws e)) es) with (map (fun l => l +:+ newline_str) (map (fun e => atom_text (atom e) (ws e)) es))
    by (rewrite map_map; apply map_ext; intros e; unfold atom_text, atom_line; by rewrite !string_app_assoc).
  unfold parse_lines. rewrite lines_concat.
  - induction Hes as [|e es [He Hp] Hes IH]; [done|]. cbn [map omap list_omap]. destruct (atom_text_line _ _ He) as [-> _].
    destruct (words_ok_start _ He) as [-> ->]. cbn [orb]. rewrite Hp. by f_equal.
  - apply Forall_map. eapply Forall_impl; [exact Hes|]. intros e [He _]. by apply atom_text_line.
Qed.

(** What the client's readers hand to their parsers: lines of words. *)
Lemma drop_while_head {A} (p : A -> bool) l x r : drop_while p l = x :: r -> p x = false.
Proof. induction l as [|y l IH]; simpl; [done|]. destruct (p y) eqn:E; [done|]. by intros [= <- _]. Qed.
Lemma drop_while_suffix {A} (p : A -> bool) l : exists pre, l = pre ++ drop_while p l.
Proof. induction l as [|y l [pre IH]]; simpl; [by exists []|]. destruct (p y); [exists (y :: pre); simpl; by f_equal|by exists []]. Qed.
Lemma trim_head s c r : chars (trim s) = c :: r -> is_whitespace c = false.
Proof.
  unfold trim, trim_end. rewrite chars_of_chars. unfold trim_start. rewrite chars_of_chars. set (l := drop_while is_whitespace (chars s)). intros Hc.
  destruct (drop_while_suffix is_whitespace (rev l)) as [pre Hpre]. apply (f_equal (@rev ascii)) in Hpre. rewrite rev_involutive, rev_app_distr, Hc in Hpre.
  by eapply drop_while_head.
Qed.
Lemma words_from_head word l : word <> [] -> exists t rest, words_from word l = of_chars (rev word ++ t) :: rest.
Proof.
  revert word. induction l as [|c l IH]; intros word Hw; simpl.
  - exists [], []. rewrite app_nil_r. by destruct word.
  - destruct (is_whitespace c); [exists [], (words_from [] l); rewrite app_nil_r; by destruct word|].
    destruct (IH (c :: word)) as (t & rest & ->); [done|]. exists (c :: t), rest. simpl. by rewrite <- app_assoc.
Qed.
Lemma read_words {T} (parser : string -> option T) content e : e ∈ parse_lines parser content ->
  exists line, parser line = Some e /\ words_ok (split_whitespace line).
Proof.
  intros (l & _ & He)%list_elem_of_omap. cbv zeta in He. set (line := trim l) in *. destruct (is_empty line) eqn:En; [done|]. destruct (starts_with "#" line) eqn:Es; [done|].
  exists line. split; [done|]. split; [apply split_whitespace_words|]. unfold split_whitespace. destruct line as [|c r] eqn:El; [done|].
  assert (Hc : is_whitespace c = false) by (by apply (trim_head l c (chars r)); fold line; rewrite El). cbn [chars words_from]. rewrite Hc.
  destruct (words_from_head [c] (chars r)) as (t & rest & ->); [done|]. unfold starts_with in *. cbn [rev app of_chars strip_prefix] in *. by destruct (Ascii.eqb "#" c).
Qed.

Lemma default_keywords_words g : Forall (fun w => is_word w = true) (empty_accept_keywords_defaults g).
Proof.
  unfold empty_accept_keywords_defaults. apply Forall_map, Forall_forall. intros k Hk. apply list_elem_of_In, filter_In in Hk as [Hk _].
  pose proof (split_whitespace_words g) as Hw. rewrite Forall_forall in Hw. apply list_elem_of_In, Hw in Hk. unfold is_word in *.
  apply andb_true_iff in Hk as [_ Hk]. apply andb_true_iff. split; [done|]. by rewrite any_char_app.
Qed.

(** Entries that the client's reader found in some file. *)
Abbreviation read_by parser := (fun e => exists content, e ∈ parse_lines parser content).

(** C33.  The package files survive the way from client to worker: whatever lists of entries
    the client's readers find in its files, reading with the same readers what the worker
    writes for them gives the same lists back - for package.use, package.accept_keywords
    (with the same default keywords), package.license, package.mask and package.unmask;
    for package.env it gives the entries whose file has a plain name, the others are not
    written. *)
Theorem package_files_roundtrip uses keywords licenses atoms envs global_accept_keywords :
  let defaults := empty_accept_keywords_defaults global_accept_keywords in
  Forall (read_by parse_package_use) uses -> Forall (read_by (parse_package_keywords defaults)) keywords ->
  Forall (read_by parse_package_license) licenses -> Forall (read_by parse_package_atom) atoms -> Forall (read_by parse_package_env) envs ->
  parse_lines parse_package_use (package_use_text uses) = uses /\
  parse_lines (parse_package_keywords defaults) (package_keywords_text keywords) = keywords /\
  parse_lines parse_package_license (package_license_text licenses) = licenses /\
  parse_lines parse_package_atom (package_atoms_text atoms) = atoms /\
  parse_lines parse_package_env (package_env_text envs) = List.filter (fun e => plain_file_name (pe_env_file e)) envs.
Proof.
  intros defaults Hu Hk Hl Ha He. split_and!.
  - unfold package_use_text. rewrite (parse_entries pu_atom pu_flags parse_package_use id); [apply map_id|]. eapply Forall_impl; [exact Hu|].
    intros e (content & (line & Hp & Hw)%read_words). unfold parse_package_use in *. destruct (split_whitespace line) as [|a [|f fs]]; try done. injection Hp as <-. cbn [pu_atom pu_flags id].
    split; [done|]. by rewrite split_join_words by apply Hw.
  - unfold package_keywords_text. rewrite (parse_entries pk_atom pk_keywords _ id); [apply map_id|]. eapply Forall_impl; [exact Hk|].
    intros e (content & (line & Hp & Hw)%read_words). unfold parse_package_keywords in *. pose proof (default_keywords_words global_accept_keywords) as Hd. fold defaults in Hd.
    destruct (split_whitespace line) as [|a [|k ks]]; try done; injection Hp as <-; cbn [pk_atom pk_keywords id]; destruct Hw as [Hw Hh].
    + assert (Hws : Forall (fun w => is_word w = true) (a :: defaults)) by (apply Forall_cons; split; [by apply Forall_cons in Hw as [? _]|done]).
      split; [done|]. rewrite split_join_words by done. by destruct defaults.
    + split; [done|]. by rewrite split_join_words.
  - unfold package_license_text. rewrite (parse_entries pl_atom pl_licenses _ id); [apply map_id|]. eapply Forall_impl; [exact Hl|].
    intros e (content & (line & Hp & Hw)%read_words). unfold parse_package_license in *. destruct (split_whitespace line) as [|a [|l ls]]; try done. injection Hp as <-. cbn [pl_atom pl_licenses id].
    split; [done|]. by rewrite split_join_words by apply Hw.
  - unfold package_atoms_text. replace (map (fun a => a +:+ newline_str) atoms)
      with (map (fun l => join_with " " l +:+ newline_str) (map (fun a => [a]) atoms)) by (by rewrite map_map).
    assert (Hok : Forall (fun a => words_ok [a]) atoms).
    { eapply Forall_impl; [exact Ha|]. intros e (content & (line & Hp & [Hw Hh])%read_words). unfold parse_package_atom in Hp.
      destruct (split_whitespace line) as [|a ws]; [done|]. destruct (is_empty a); [done|]. injection Hp as <-. apply Forall_cons in Hw as [Hw _].
      split; [by apply Forall_cons|done]. }
    clear Ha. rewrite parse_lines_words by by apply Forall_map. induction Hok as [|a atoms [Hw Hh] Hok IH]; [done|].
    cbn [map omap list_omap]. unfold parse_package_atom at 1. rewrite split_join_words by done.
    apply Forall_cons in Hw as [Hw _]. unfold is_word in Hw. apply andb_true_iff in Hw as [Hw _]. apply negb_true_iff in Hw.
    rewrite Hw. by f_equal.
  - unfold package_env_text. assert (Hf : Forall (read_by parse_package_env) (List.filter (fun e => plain_file_name (pe_env_file e)) envs)).
    { apply Forall_forall. intros e Hin. rewrite Forall_forall in He. apply list_elem_of_In, filter_In in Hin as [Hin _]. by apply He, list_elem_of_In. }
    revert Hf. generalize (List.filter (fun e => plain_file_name (pe_env_file e)) envs). clear. intros es Hes.
    rewrite (parse_entries pe_atom (fun e => [pe_env_file e]) _ id); [apply map_id|]. eapply Forall_impl; [exact Hes|].
    intros e (content & (line & Hp & Hw)%read_words). unfold parse_package_env in *. destruct (split_whitespace line) as [|a [|f fs]]; try done. injection Hp as <-. cbn [pe_atom pe_env_file id].
    destruct Hw as [Hw Hh]. apply Forall_cons in Hw as [Ha Hw]. apply Forall_cons in Hw as [Hf _].
    assert (Hws : Forall (fun w => is_word w = true) [a; f]) by by repeat constructor. split; [done|]. by rewrite split_join_words.
Qed.

Lemma package_files_roundtrip_witness :
  let keywords := parse_lines (parse_package_keywords ["~amd64"]) ("dev-libs/openssl" +:+ newline_str) in
  keywords = [{| pk_atom := "dev-libs/openssl"; pk_keywords := ["~amd64"] |}] /\
  parse_lines (parse_package_keywords ["~amd64"]) (package_keywords_text keywords) = keywords /\
  parse_lines parse_package_use (package_use_text [{| pu_atom := "dev-libs/openssl"; pu_flags := ["-bindist"; "tls"] |}]) =
    [{| pu_atom := "dev-libs/openssl"; pu_flags := ["-bindist"; "tls"] |}].
Proof.
  set (keywords := parse_lines (parse_package_keywords ["~amd64"]) ("dev-libs/openssl" +:+ newline_str)).
  destruct (package_files_roundtrip [{| pu_atom := "dev-libs/openssl"; pu_flags := ["-bindist"; "tls"] |}] keywords [] [] [] "amd64") as (Hu & Hk & _).
  - apply Forall_cons. split; [|constructor]. exists "dev-libs/openssl -bindist tls". vm_compute. left.
  - apply Forall_cons. split; [|constructor]. exists "dev-libs/openssl". vm_compute. left.
  - constructor.
  - constructor.
  - constructor.
  - split; [vm_compute; reflexivity|]. split; [exact Hk|exact Hu].
Defined.

(** ** The worker writes below its base *)

Lemma join_str_normals base s :
  forallb is_normal (components s) = true -> under base (join_str base s).
Proof.
  unfold join_str. generalize (components s). intros cs. revert base. induction cs as [|c cs IH]; intros base; simpl.
  - intros _. apply under_refl.
  - destruct c; try done. simpl. intros Hcs. eapply under_trans; [|by apply IH]. apply under_join, under_refl.
Qed.

(** A plain file name has one component or none. *)
Lemma plain_file_name_components name :
  plain_file_name name = true -> components name = [CurDir] /\ name = "." \/ components name = [Normal name].
Proof.
  unfold plain_file_name. rewrite !andb_true_iff, !negb_true_iff. intros [[Ht Hs] Hd].
  assert (Hin : "/"%char ∉ chars name) by (intros Hin; apply contains_char_spec in Hin; congruence).
  unfold components. rewrite split_on_none by done.
  destruct (is_empty name) eqn:He; [apply is_empty_true in He as ->; done|].
  case_bool_decide as Hdot; [by left; subst|]. right. cbn [omap list_omap]. unfold segment.
  apply is_empty_false in He. rewrite bool_decide_eq_false_2 by tauto.
  rewrite bool_decide_eq_false_2; [done|]. intros ->. vm_compute in Hd. done.
Qed.

(** [p] is in the directory [dir] or below it, and the way there does not turn back. *)
Definition inside (dir p : path) : Prop := exists q, p = dir ++ q /\ ".." ∉ q.

Lemma inside_under dir p : inside dir p -> under dir p.
Proof. intros (q & -> & _). by exists q. Qed.
Lemma inside_refl dir : inside dir dir.
Proof. exists []. rewrite app_nil_r. set_solver. Qed.
Lemma inside_join dir p c : c <> ".." -> inside dir p -> inside dir (join p c).
Proof. intros Hc (q & -> & Hq). exists (q ++ [c]). unfold join. rewrite app_assoc. set_solver. Qed.
Lemma inside_trans a b c : inside a b -> inside b c -> inside a c.
Proof. intros (q & -> & Hq) (r & -> & Hr). exists (q ++ r). rewrite app_assoc. set_solver. Qed.

(** A name below a directory, and the directory it is in. *)
Lemma relative_inside dir rel : safe_relative rel = true ->
  inside dir (join_str dir rel) /\ (forall q, parent (join_str dir rel) = Some q -> inside dir q) /\ is_Some (parent (join_str dir rel)).
Proof.
  unfold safe_relative. rewrite andb_true_iff. intros [Hn He].
  assert (Hns : exists ns, components rel = map Normal ns /\ ".." ∉ ns).
  { assert (Hok : forall n, Normal n ∈ components rel -> n <> "..") by (intros n Hin; by destruct (components_normal _ _ Hin) as (_ & _ & ? & _)).
    revert Hn Hok. generalize (components rel). intros cs. induction cs as [|c cs IH]; intros Hn Hok; [exists []; set_solver|].
    simpl in Hn. apply andb_true_iff in Hn as [Hc Hn]. destruct c as [| | |n]; try done. destruct (IH Hn) as (ns & -> & Hns); [set_solver|].
    exists (n :: ns). split; [done|]. specialize (Hok n). set_solver. }
  destruct Hns as (ns & Hc & Hns).
  assert (Hne : ns <> []).
  { intros ->. unfold components in Hc. destruct (is_empty rel); [done|]. pose proof (split_on_ne "/" rel) as Hs.
    destruct (split_on "/" rel) as [|f r]; [done|]. destruct (is_empty f) eqn:Ef; [done|]. apply is_empty_false in Ef.
    case_bool_decide as Hdot; [done|]. cbn [omap list_omap] in Hc. unfold segment in Hc at 1. rewrite bool_decide_eq_false_2 in Hc by tauto.
    by case_bool_decide. }
  assert (Hj : join_str dir rel = dir ++ ns).
  { unfold join_str. rewrite Hc. clear. revert dir. induction ns as [|n ns IH]; intros dir; simpl; [by rewrite app_nil_r|].
    rewrite IH. unfold join. by rewrite <- app_assoc. }
  rewrite Hj. destruct ns as [|n ns] using rev_ind; [done|]. clear IHns. split_and!.
  - by exists (ns ++ [n]).
  - intros q. unfold parent. destruct (dir ++ ns ++ [n]) as [|x l] eqn:E; [by destruct dir, ns|]. rewrite <- E. intros [= <-].
    exists ns. rewrite app_assoc, removelast_last. set_solver.
  - unfold parent. by destruct dir, ns.
Qed.

(** What holds of the operations on two file systems, because it holds of the basic ones
    at the paths in [P] and is closed under sequences. *)
Section Related.
Context {S1 S2 : Type} `{SetupFs S1, SetupFs S2} (P : path -> Prop) (R : StateResult S1 Error unit -> StateResult S2 Error unit -> Prop).

Record lawful : Prop := {
  lw_ret : R (ret tt) (ret tt);
  lw_bind : forall m m' k k', R m m' -> (forall u, R (k u) (k' u)) -> R (bind m k) (bind m' k');
  lw_dir : forall ctx p, P p -> R (with_context ctx (sf_create_dir_all p)) (with_context ctx (sf_create_dir_all p));
  lw_write : forall ctx p b, P p -> R (with_context ctx (sf_write p b)) (with_context ctx (sf_write p b));
  lw_refused : forall ctx, R (with_context ctx sf_refused) (with_context ctx sf_refused);
}.
Context (L : lawful).

Lemma related_for {A} (f : A -> StateResult S1 Error unit) (g : A -> StateResult S2 Error unit) xs :
  (forall x, R (f x) (g x)) -> R (for_io f xs) (for_io g xs).
Proof. intros Hf. unfold for_io. induction xs as [|x xs IH]; cbn [fold_io]; [apply (lw_ret L)|]. apply (lw_bind L); [done|]. by intros []. Qed.

Lemma related_spelled ctx p as_dir b : P p -> R (with_context ctx (write_spelled p as_dir b)) (with_context ctx (write_spelled p as_dir b)).
Proof. intros Hp. unfold write_spelled. destruct as_dir; [apply (lw_refused L)|by apply (lw_write L)]. Qed.

Lemma related_package_file base name n content : (forall p, inside (join base name) p -> P p) ->
  R (write_package_file base name n content) (write_package_file base name n content).
Proof.
  intros HP. unfold write_package_file. destruct n; [apply (lw_ret L)|]. apply (lw_bind L); [apply (lw_dir L), HP, inside_refl|]. intros _.
  by apply (lw_write L), HP, inside_join, inside_refl.
Qed.

Lemma related_named_files dir files : (forall p, inside dir p -> P p) -> R (write_named_files dir files) (write_named_files dir files).
Proof.
  intros HP. unfold write_named_files. destruct (bool_decide _); [apply (lw_ret L)|]. apply (lw_bind L); [apply (lw_dir L), HP, inside_refl|].
  intros _. apply related_for. intros [name content]. simpl. destruct (plain_file_name name) eqn:Hn; [|apply (lw_ret L)]. apply related_spelled, HP.
  destruct (plain_file_name_components name Hn) as [[Hc _]|Hc]; unfold join_str; rewrite Hc; simpl; [apply inside_refl|].
  apply inside_join, inside_refl. assert (Hin : Normal name ∈ components name) by (rewrite Hc; set_solver).
  by destruct (components_normal _ _ Hin) as (_ & _ & ? & _).
Qed.

Lemma related_relative_files what dir files : (forall p, inside dir p -> P p) ->
  R (write_relative_files what dir files) (write_relative_files what dir files).
Proof.
  intros HP. unfold write_relative_files. apply related_for. intros [rel content]. simpl. destruct (safe_relative rel) eqn:Hs; [|apply (lw_ret L)].
  destruct (relative_inside dir rel Hs) as (Hi & Hup & [q Hq]). rewrite Hq. apply (lw_bind L); [by apply (lw_dir L), HP, Hup|]. intros _.
  by apply related_spelled, HP.
Qed.
End Related.

(** ** The set-up as independent steps

    Each step has a name in the base directory for itself. *)
Section Steps.
Context {S : Type} `{SetupFs S}.
Context (base : path) (c : PortageConfig) (worker_chost : string) (gpg_key gpg_home jobs load : option string).

Definition setup_steps : list (string * StateResult S Error unit) := [
  ("make.conf", write_make_conf_inner base (pc_make_conf c) worker_chost gpg_key gpg_home jobs load);
  ("package.use", write_package_use_inner base c);
  ("package.accept_keywords", write_package_accept_keywords_inner base c);
  ("package.license", write_package_license_inner base c);
  ("package.mask", write_package_mask_inner base c);
  ("package.unmask", write_package_unmask_inner base c);
  ("package.env", write_package_env_inner base c);
  ("env", write_env_files_inner base c);
  ("repos.conf", write_repos_conf_inner base c);
  ("profile", write_profile_overlay_inner (join base "profile") c);
  ("patches", write_patches_inner (join base "patches") c)].

Fixpoint run_all (steps : list (string * StateResult S Error unit)) : StateResult S Error unit :=
  match steps with [] => ret tt | [(_, m)] => m | (_, m) :: rest => m ;; run_all rest end.

Lemma apply_config_steps : apply_config_files base c worker_chost gpg_key gpg_home jobs load = run_all setup_steps.
Proof. done. Qed.
End Steps.

Lemma related_run_all {S1 S2} `{SetupFs S1, SetupFs S2} P (R : StateResult S1 Error unit -> StateResult S2 Error unit -> Prop) steps steps' :
  lawful P R -> Forall2 (fun x y => fst x = fst y /\ R (snd x) (snd y)) steps steps' -> R (run_all steps) (run_all steps').
Proof.
  intros L Hs. induction Hs as [|[n m] [n' m'] steps steps' [_ Hm] Hs IH]; [apply (lw_ret _ _ L)|]. destruct Hs; [done|].
  apply (lw_bind _ _ L); [done|]. by intros [].
Qed.

(** Each step is related to itself inside its own name. *)
Lemma steps_related {S1 S2} `{SetupFs S1, SetupFs S2} (R : (path -> Prop) -> StateResult S1 Error unit -> StateResult S2 Error unit -> Prop)
    base c worker_chost gpg_key gpg_home jobs load :
  (forall n, n <> ".." -> lawful (inside (join base n)) (R (inside (join base n)))) ->
  Forall2 (fun x y => fst x = fst y /\ R (inside (join base (fst x))) (snd x) (snd y))
    (setup_steps base c worker_chost gpg_key gpg_home jobs load) (setup_steps base c worker_chost gpg_key gpg_home jobs load).
Proof.
  intros L. unfold setup_steps. repeat (apply Forall2_cons; split; [split; [done|]; cbn [fst snd]|]); [|..|constructor];
    match goal with |- R (inside (join _ ?n)) _ _ => pose proof (L n ltac:(done)) as Ln end.
  { apply (lw_write _ _ Ln), inside_refl. }
  1-6: by apply (related_package_file _ _ Ln).
  1-2: by apply (related_named_files _ _ Ln).
  all: by apply (related_relative_files _ _ Ln).
Qed.

Section Confined.
Context (base : path).

Lemma foots_lawful P : lawful (S1 := World) (S2 := World) P (fun m _ => foots P m).
Proof.
  constructor; intros.
  - apply foots_ret.
  - by apply foots_bind.
  - apply foots_with_context, foots_create_dir_all.
  - by apply foots_with_context, foots_write.
  - apply foots_with_context, foots_guarded; [intros; apply foot_refl|apply foots_throw].
Qed.

Lemma setup_foots c worker_chost gpg_key gpg_home jobs load :
  Forall (fun x => foots (inside (join base (fst x))) (snd x)) (setup_steps (S := World) base c worker_chost gpg_key gpg_home jobs load).
Proof.
  eapply Forall2_Forall_l; [apply (steps_related (fun P m _ => foots P m)); intros; apply foots_lawful|]. apply Forall_forall. by intros y _ x [_ Hm].
Qed.

Lemma run_all_foots (steps : list (string * IO unit)) P : Forall (fun x => foots P (snd x)) steps -> foots P (run_all steps).
Proof.
  intros Hs. induction steps as [|[n m] steps IH]; [apply foots_ret|]. apply Forall_cons in Hs as [Hm Hs].
  destruct steps; [done|]. apply foots_bind; [done|]. intros _. by apply IH.
Qed.

(** Whatever names and paths a configuration carries and whatever fails, applying
    it writes only below the base directory. *)
Theorem apply_config_confined c worker_chost gpg_key gpg_home jobs load w p :
  ~ under base p ->
  files (snd (apply_config_files base c worker_chost gpg_key gpg_home jobs load w)) !! p = files w !! p.
Proof.
  intros Hp. assert (Hf : foots (under base) (apply_config_files base c worker_chost gpg_key gpg_home jobs load)).
  { rewrite apply_config_steps. apply run_all_foots. eapply Forall_impl; [apply setup_foots|]. intros [n m] Hm. eapply foots_weaken; [|exact Hm].
    intros q Hq%inside_under. eapply under_trans; [apply under_join, under_refl|exact Hq]. }
  by apply Hf.
Qed.
End Confined.

(** ** What the files hold *)

Lemma inside_other base n n' p : n <> n' -> inside (join base n) p -> ~ inside (join base n') p.
Proof.
  intros Hne (q & -> & _) (q' & He & _). unfold join in He. rewrite <- !app_assoc in He. apply app_inv_head in He. simpl in He. congruence.
Qed.

(** A step of a sequence that succeeds ran on what was there, and what it left is there at the end. *)
Lemma run_all_at base (steps : list (string * IO unit)) name m w w' :
  NoDup (map fst steps) -> Forall (fun x => foots (inside (join base (fst x))) (snd x)) steps -> run_all steps w = (Ok tt, w') -> (name, m) ∈ steps ->
  exists w1 w2, m w1 = (Ok tt, w2) /\ forall p, inside (join base name) p -> files w1 !! p = files w !! p /\ files w2 !! p = files w' !! p.
Proof.
  revert w. induction steps as [|[n k] steps IH]; intros w Hnd Hf Hr Hin; [set_solver|]. apply Forall_cons in Hf as [Hk Hf]. cbn [map fst snd] in Hnd, Hk.
  apply NoDup_cons in Hnd as [Hn Hnd].
  assert (Hrest : exists w1, k w = (Ok tt, w1) /\ run_all steps w1 = (Ok tt, w')).
  { cbn [run_all] in Hr. destruct steps as [|s0 steps]; [by exists w'|]. unfold bind in Hr. destruct (k w) as [[[]|] w1]; [by exists w1|done]. }
  destruct Hrest as (w1 & Hk1 & Hr1). apply elem_of_cons in Hin as [[= -> ->]|Hin].
  - exists w, w1. split; [done|]. intros p Hp. split; [done|].
    assert (Hfoot : foots (fun p => ~ inside (join base n) p) (run_all steps)).
    { apply run_all_foots. apply Forall_forall. intros [n' k'] Hin. rewrite Forall_forall in Hf. eapply foots_weaken; [|apply (Hf _ Hin)].
      intros q Hq. eapply inside_other; [|exact Hq]. cbn [fst]. intros ->. apply Hn. apply list_elem_of_In, in_map_iff. exists (n, k').
      split; [done|by apply list_elem_of_In]. }
    specialize (Hfoot w1). rewrite Hr1 in Hfoot. symmetry. apply (foot_files _ _ _ Hfoot). tauto.
  - assert (Hne : n <> name).
    { intros ->. apply Hn. apply list_elem_of_In, in_map_iff. exists (name, m). split; [done|by apply list_elem_of_In]. }
    destruct (IH w1 Hnd Hf Hr1 Hin) as (v1 & v2 & Hm & Hv). exists v1, v2. split; [done|]. intros p Hp. destruct (Hv p Hp) as [H1 H2].
    split; [|done]. rewrite H1. specialize (Hk w). rewrite Hk1 in Hk. apply (foot_files _ _ _ Hk). by eapply inside_other.
Qed.

(** A write that succeeds. *)
Lemma context_write_Ok ctx p b w w' : with_context ctx (sf_write (S := World) p b) w = (Ok tt, w') -> files w' = <[p := b]> (files w).
Proof.
  unfold with_context. cbn. unfold fs_write, guarded, pop_fault. destruct (faults w) as [|[f|] r]; simpl; intros [= <-]; done.
Qed.
Lemma context_dir_Ok ctx p w w' : with_context ctx (sf_create_dir_all (S := World) p) w = (Ok tt, w') -> files w' = files w.
Proof.
  unfold with_context. cbn. unfold fs_create_dir_all, guarded, pop_fault. destruct (faults w) as [|[f|] r]; simpl; intros [= <-]; done.
Qed.
Lemma context_refused ctx w w' : with_context ctx (sf_refused (S := World)) w <> (Ok tt, w').
Proof. unfold with_context. cbn. unfold guarded, pop_fault. by destruct (faults w) as [|[f|] r]. Qed.

Lemma package_file_written base name content w w' : write_package_file base name false content w = (Ok tt, w') ->
  files w' !! (base ++ [name; "remerge"]) = Some (string_bytes content).
Proof.
  unfold write_package_file, bind. cbv zeta. destruct (with_context _ (sf_create_dir_all _) w) as [[[]|] w1]; [|done]. intros ->%context_write_Ok.
  unfold join. rewrite <- app_assoc. apply lookup_insert_eq.
Qed.

(** A loop whose steps do not undo each other. *)
Lemma for_io_holds {A} `{EqDecision A} (f : A -> IO unit) (Q : World -> Prop) x xs w w' :
  (forall v v', f x v = (Ok tt, v') -> Q v') -> (forall y v v', y ∈ xs -> y <> x -> f y v = (Ok tt, v') -> Q v -> Q v') ->
  for_io f xs w = (Ok tt, w') -> x ∈ xs \/ Q w -> Q w'.
Proof.
  intros Hx Hy. unfold for_io. revert w. induction xs as [|y xs IH]; intros w; cbn [fold_io]; [intros [= ->]; set_solver|].
  unfold bind. destruct (f y w) as [[[]|] w1] eqn:E; [|done]. intros Hr Hin. eapply IH; [intros z v v' Hz; apply Hy; set_solver|exact Hr|].
  destruct (decide (y = x)) as [->|Hne]; [right; eauto|]. destruct Hin as [Hin|Hq]; [left; set_solver|right; eapply Hy; eauto; set_solver].
Qed.

Lemma named_file_written dir fs name content w w' : write_named_files dir fs w = (Ok tt, w') -> fs !! name = Some content ->
  plain_file_name name = true -> files w' !! (dir ++ [name]) = Some (string_bytes content).
Proof.
  intros Hr Hn Hp. unfold write_named_files in Hr. rewrite bool_decide_eq_false_2 in Hr by (intros ->; by rewrite lookup_empty in Hn).
  unfold bind in Hr. destruct (with_context _ (sf_create_dir_all _) w) as [[[]|] w1]; [|done].
  assert (Hplain : forall n c v v', plain_file_name n = true ->
    with_context ("Failed to write " +:+ display (join_str dir n)) (write_spelled (join_str dir n) (bool_decide (n = ".")) c) v = (Ok tt, v') ->
    files v' = <[dir ++ [n] := c]> (files v)).
  { intros n c v v' Hpn. destruct (plain_file_name_components n Hpn) as [[_ ->]|Hc]; [by intros ?%context_refused|].
    unfold write_spelled. case_bool_decide; [by intros ?%context_refused|]. unfold join_str at 2. rewrite Hc. apply context_write_Ok. }
  refine (for_io_holds _ (fun v => files v !! (dir ++ [name]) = Some (string_bytes content)) (name, content) _ _ _ _ _ Hr _); cbn [fst snd].
  - intros v v'. rewrite Hp. intros ->%Hplain; [apply lookup_insert_eq|done].
  - intros [n c] v v' Hy Hne. cbn [fst snd]. destruct (plain_file_name n) eqn:Hpn; [|by intros [= ->]]. intros ->%Hplain Hq; [|done].
    rewrite lookup_insert_ne; [done|]. intros [= ->]%app_inv_head. apply Hne. f_equal. apply elem_of_btree_items in Hy. congruence.
  - left. by apply elem_of_btree_items.
Qed.

Lemma plain_name_up name : plain_file_name name = true -> ".." ∉ [name].
Proof.
  intros Hp. destruct (plain_file_name_components name Hp) as [[_ ->]|Hc]; [set_solver|].
  assert (Hcn : Normal name ∈ components name) by (rewrite Hc; set_solver). destruct (components_normal _ _ Hcn) as (_ & _ & ? & _). set_solver.
Qed.

(** A loop whose steps keep something. *)
Lemma for_io_keeps {A} (f : A -> IO unit) (Q : World -> Prop) xs w w' :
  (forall x v v', x ∈ xs -> f x v = (Ok tt, v') -> Q v -> Q v') -> for_io f xs w = (Ok tt, w') -> Q w -> Q w'.
Proof.
  unfold for_io. revert w. induction xs as [|y xs IH]; intros w Hf; cbn [fold_io]; [by intros [= ->]|]. unfold bind.
  destruct (f y w) as [[[]|] w1] eqn:E; [|done]. intros Hr Hq. eapply IH; [intros z v v' Hz; by apply Hf, list_elem_of_further|exact Hr|].
  eapply Hf; [apply list_elem_of_here|exact E|exact Hq].
Qed.

(** What is anywhere after the writing was there before or was sent. *)
Lemma named_files_only dir fs w w' : write_named_files dir fs w = (Ok tt, w') ->
  forall p, files w' !! p = files w !! p \/ exists n content, fs !! n = Some content /\ files w' !! p = Some (string_bytes content).
Proof.
  unfold write_named_files. destruct (bool_decide _); [intros [= ->]; by left|]. unfold bind.
  destruct (with_context _ (sf_create_dir_all _) w) as [[[]|] w1] eqn:Ed; [|done]. apply context_dir_Ok in Ed. rewrite <- Ed. intros Hr p.
  refine (for_io_keeps _ (fun v => files v !! p = files w1 !! p \/ exists n content, fs !! n = Some content /\ files v !! p = Some (string_bytes content)) _ _ _ _ Hr _); [|by left].
  intros [n content] v v' Hin. cbn [fst snd]. apply elem_of_btree_items in Hin. destruct (plain_file_name n); [|by intros [= ->]].
  unfold write_spelled. destruct (bool_decide (n = ".")); [by intros ?%context_refused|]. intros ->%context_write_Ok Hq.
  destruct (decide (join_str dir n = p)) as [<-|Hne]; [right; exists n, content; by rewrite lookup_insert_eq|]. by rewrite lookup_insert_ne.
Qed.

(** A proper relative name that no other proper name of the map spells too. *)
Definition sole_name (fs : gmap string string) (rel : string) : Prop :=
  safe_relative rel = true /\ forall rel', is_Some (fs !! rel') -> safe_relative rel' = true -> components rel' = components rel -> rel' = rel.

Lemma join_str_inj base a b : safe_relative a = true -> safe_relative b = true -> join_str base a = join_str base b -> components a = components b.
Proof.
  assert (Hc : forall s, safe_relative s = true -> exists ns, components s = map Normal ns /\ join_str base s = base ++ ns).
  { intros s Hs. unfold safe_relative in Hs. apply andb_true_iff in Hs as [Hs _]. unfold join_str.
    assert (Hns : exists ns, components s = map Normal ns).
    { revert Hs. generalize (components s). intros cs. induction cs as [|[| | |n] cs IH]; simpl; intros Hs; try done; [by exists []|].
      destruct (IH Hs) as [ns ->]. by exists (n :: ns). }
    destruct Hns as [ns ->]. exists ns. split; [done|]. clear Hs. revert base. induction ns as [|n ns IH]; intros base; simpl; [by rewrite app_nil_r|].
    rewrite IH. unfold join. by rewrite <- app_assoc. }
  intros (x & -> & ->)%Hc (y & -> & ->)%Hc He. apply app_inv_head in He. by subst.
Qed.

Lemma relative_file_written what dir fs rel content w w' : write_relative_files what dir fs w = (Ok tt, w') -> fs !! rel = Some content ->
  sole_name fs rel -> files w' !! join_str dir rel = Some (string_bytes content).
Proof.
  intros Hr Hn [Hs Hsole]. unfold write_relative_files in Hr.
  assert (Hone : forall n x v v', safe_relative n = true ->
    bind (match parent (join_str dir n) with
     | Some p => with_context ("Failed to create parent dir for " +:+ what +:+ " " +:+ display (join_str dir n)) (sf_create_dir_all p) | None => ret tt end)
     (fun _ => with_context ("Failed to write " +:+ what +:+ " " +:+ display (join_str dir n)) (write_spelled (join_str dir n) (spelled_as_dir n) (string_bytes x))) v = (Ok tt, v') ->
    files v' = <[join_str dir n := string_bytes x]> (files v)).
  { intros n x v v' _. assert (Hw : forall v1, with_context ("Failed to write " +:+ what +:+ " " +:+ display (join_str dir n))
      (write_spelled (S := World) (join_str dir n) (spelled_as_dir n) (string_bytes x)) v1 = (Ok tt, v') -> files v' = <[join_str dir n := string_bytes x]> (files v1)).
    { intros v1. unfold write_spelled. destruct (spelled_as_dir n); [by intros ?%context_refused|]. apply context_write_Ok. }
    unfold bind. destruct (parent (join_str dir n)) as [q|]; [|apply Hw].
    destruct (with_context _ (sf_create_dir_all q) v) as [[[]|] v1] eqn:E; [|done]. apply context_dir_Ok in E. rewrite <- E. apply Hw. }
  refine (for_io_holds _ (fun v => files v !! join_str dir rel = Some (string_bytes content)) (rel, content) _ _ _ _ _ Hr _); cbn [fst snd].
  - intros v v'. rewrite Hs. cbv zeta. intros ->%Hone; [apply lookup_insert_eq|done].
  - intros [n x] v v' Hy Hne. cbn [fst snd]. destruct (safe_relative n) eqn:Hsn; [|by intros [= ->]]. cbv zeta. intros ->%Hone Hq; [|done].
    apply elem_of_btree_items in Hy. rewrite lookup_insert_ne; [done|]. intros He%join_str_inj; [|done|done]. apply Hne.
    assert (n = rel) as -> by (apply Hsole; [by eexists|done|done]). congruence.
  - left. by apply elem_of_btree_items.
Qed.

(** A configuration that tries to leave the directory. *)
Definition hostile_config : PortageConfig :=
  let c := Registry.demo_portage_config in {|
  pc_make_conf := pc_make_conf c; pc_package_use := []; pc_package_accept_keywords := []; pc_package_license := [];
  pc_package_mask := []; pc_package_unmask := []; pc_package_env := []; pc_env_files := {[ "../../passwd" := "x" ]};
  pc_repos_conf := {[ "/etc/passwd" := "x" ]}; pc_snapshot_manifest := pc_snapshot_manifest c; pc_repo_snapshots := ∅;
  pc_repo_snapshot_refs := ∅; pc_repo_snapshot_trees := ∅; pc_patches := {[ "../../../passwd" := "x" ]};
  pc_profile_overlay := {[ "/etc/passwd" := "x" ]}; pc_distfile_snapshots := ∅; pc_distfile_snapshot_refs := ∅;
  pc_profile := ""; pc_world := [] |}.

Lemma apply_config_confined_witness :
  files (snd (apply_config_files ["etc"; "portage"] hostile_config "x86_64-pc-linux-gnu" None None None None (demo_world [])))
    !! ["etc"; "passwd"] = None.
Proof.
  rewrite (apply_config_confined ["etc"; "portage"] hostile_config "x86_64-pc-linux-gnu" None None None None (demo_world []));
    [reflexivity|]. intros [q He]. discriminate He.
Defined.

(** ** repos.conf on both sides *)

Definition cli_view (r : RepoSection) : string * string := (rs_name r, rs_location r).
Definition worker_view (r : WorkerRepoSection) : string * string := (wrs_name r, wrs_location r).

(** The two readers are in step. *)
Definition in_step (a : list RepoSection * OpenSection) (b : list WorkerRepoSection * WorkerOpenSection) : Prop :=
  map cli_view (fst a) = map worker_view (fst b) /\ os_name (snd a) = wos_name (snd b) /\
  os_location (snd a) = wos_location (snd b).

Lemma flush_in_step s s' :
  os_name s = wos_name s' -> os_location s = wos_location s' -> map cli_view (flush s) = map worker_view (worker_flush s').
Proof. intros Hn Hl. unfold flush, worker_flush. rewrite Hn, Hl. by repeat case_match. Qed.

(** Section names that are written without blanks inside the brackets. *)
Definition names_tight (content : string) : Prop :=
  Forall (fun line => forall name, header (trim line) = Some name -> trim name = name) (lines content).

Lemma repo_line_in_step a b line :
  (forall name, header (trim line) = Some name -> trim name = name) ->
  in_step a b -> in_step (repo_line a line) (worker_repo_line b line).
Proof.
  intros Hname (Hr & Hn & Hl). destruct a as [repos s], b as [repos' s']. simpl in *. unfold repo_line, worker_repo_line. cbv zeta.
  destruct (header (trim line)) as [name|].
  - split_and!; simpl; [rewrite !map_app, Hr; f_equal; by apply flush_in_step|by apply Hname|done].
  - destruct (split_once "=" (trim line)) as [[k v]|]; [|done]. unfold eq_ignore_ascii_case.
    change (lowercase "location") with "location". change (lowercase "sync-uri") with "sync-uri".
    repeat case_bool_decide; try done; try congruence. by destruct (is_empty (trim v)).
Qed.

(** Client and worker agree on the repositories of a repos.conf when no section
    name is padded inside its brackets; with padding they do not, and the worker
    finds no location for the client's snapshot. *)
Theorem repo_parsers_agree content :
  (names_tight content -> map cli_view (parse_repo_sections_full content) = parse_repo_sections content) /\
  let padded := "[ local ]" +:+ newline_str +:+ "location = /var/db/repos/local" in
  map rs_name (parse_repo_sections_full padded) = ["local"] /\ map fst (parse_repo_sections padded) = [" local "].
Proof.
  split; [|vm_compute; done]. unfold names_tight, parse_repo_sections_full, parse_repo_sections, worker_parse_repo_sections_full.
  intros Hn. assert (Hstep : forall a b, in_step a b -> in_step (fold_left repo_line (lines content) a) (fold_left worker_repo_line (lines content) b)).
  { induction Hn as [|line ls Hline Hn IH]; intros a b Hab; [done|]. simpl. apply IH. by apply repo_line_in_step. }
  specialize (Hstep ([], no_section) ([], worker_no_section) ltac:(done)).
  destruct (fold_left repo_line (lines content) _) as [repos s], (fold_left worker_repo_line (lines content) _) as [repos' s'].
  destruct Hstep as (Hr & Hnm & Hl). simpl in *. fold worker_view. rewrite !map_app, Hr. f_equal. by apply flush_in_step.
Qed.

Lemma repo_parsers_agree_witness :
  let content := "[local]" +:+ newline_str +:+ "location = /srv/local" in
  map cli_view (parse_repo_sections_full content) = parse_repo_sections content.
Proof.
  apply (repo_parsers_agree ("[local]" +:+ newline_str +:+ "location = /srv/local")).
  unfold names_tight. vm_compute lines. repeat constructor; intros name Hh; vm_compute in Hh; by simplify_eq.
Defined.

(** ** Moving a repository *)

Lemma drop_while_app_end (p : ascii -> bool) l c : p c = true -> drop_while p (rev (l ++ [c])) = drop_while p (rev l).
Proof. intros Hc. rewrite rev_app_distr. simpl. by rewrite Hc. Qed.

Lemma trim_strip_cr s : trim (strip_cr s) = trim s.
Proof.
  unfold strip_cr. destruct (rev (chars s)) as [|c r] eqn:E; [done|].
  destruct (Ascii.eqb_spec c carriage_return) as [->|]; [|done].
  assert (Hs : chars s = rev r ++ [carriage_return]) by (rewrite <- (rev_involutive (chars s)), E; done).
  rewrite <- (of_chars_chars s), Hs. generalize (rev r). clear. intros l.
  unfold trim, trim_start. rewrite !chars_of_chars.
  induction l as [|c l IH]; [done|]. cbn [app drop_while]. destruct (is_whitespace c); [exact IH|].
  unfold trim_end. rewrite !chars_of_chars, app_comm_cons, drop_while_app_end by done. done.
Qed.

Lemma lines_raw_cons l s : newline ∉ chars l -> lines (l +:+ String newline s) = strip_cr l :: lines s.
Proof.
  intros Hn. unfold lines. rewrite split_on_app by done.
  assert (Hne : split_on newline s <> []) by (destruct s; simpl; [done|]; repeat case_match; done).
  destruct (exists_last Hne) as (xs & x & ->). rewrite app_comm_cons, !rev_app_distr. simpl.
  destruct x as [|c x]; simpl; [rewrite !rev_app_distr, !rev_involutive; simpl|]; done.
Qed.

Lemma lines_raw ls : Forall (fun l => newline ∉ chars l) ls -> lines (concat_strings (map (fun l => l +:+ newline_str) ls)) = map strip_cr ls.
Proof.
  induction 1 as [|l ls Hl Hls IH]; [done|]. cbn [map concat_strings fold_right].
  rewrite string_app_assoc. change (newline_str +:+ ?s) with (String newline s). rewrite lines_raw_cons by done. by f_equal.
Qed.

Lemma strip_cr_chars s c : c ∈ chars (strip_cr s) -> c ∈ chars s.
Proof.
  unfold strip_cr. destruct (rev (chars s)) as [|d r] eqn:E; [done|]. destruct (Ascii.eqb d carriage_return); [|done].
  rewrite chars_of_chars. intros Hc. apply list_elem_of_In, in_rev. rewrite E. right. by apply in_rev, list_elem_of_In.
Qed.

Lemma lines_no_newline content : Forall (fun l => newline ∉ chars l) (lines content).
Proof.
  unfold lines. apply Forall_map. pose proof (split_on_no_sep newline content) as Hs.
  assert (Hr : Forall (fun l => newline ∉ chars l) (match rev (split_on newline content) with "" :: r => rev r | _ => split_on newline content end)).
  { destruct (rev (split_on newline content)) as [|x r] eqn:E; [done|]. destruct x; [|done].
    apply (f_equal (@rev string)) in E. rewrite rev_involutive in E. rewrite E in Hs. simpl in Hs. by apply Forall_app in Hs as [Hs _]. }
  eapply Forall_impl; [exact Hr|]. intros l Hl Hin. by apply Hl, strip_cr_chars.
Qed.

Lemma worker_line_strip st l : worker_repo_line st (strip_cr l) = worker_repo_line st l.
Proof. unfold worker_repo_line. by rewrite trim_strip_cr. Qed.


Lemma trim_bracket r : exists r', trim (String "[" r) = String "[" r'.
Proof.
  unfold trim, trim_start. change (chars (String "[" r)) with ("["%char :: chars r). cbn [drop_while].
  change (is_whitespace "[") with false. cbv iota. unfold trim_end. rewrite chars_of_chars. simpl rev.
  generalize (rev (chars r)). intros l.
  assert (Hd : exists l', drop_while is_whitespace (l ++ ["["%char]) = l' ++ ["["%char]).
  { induction l as [|c l [l' IH]]; [by exists []|]. simpl. destruct (is_whitespace c); [by exists l'|by exists (c :: l)]. }
  destruct Hd as [l' ->]. rewrite rev_app_distr. by exists (of_chars (rev l')).
Qed.

(** A section header is no assignment to [location]. *)
Lemma header_not_location t name k v :
  header t = Some name -> split_once "=" t = Some (k, v) -> eq_ignore_ascii_case (trim k) "location" = false.
Proof.
  intros Hh Hs. destruct t as [|c t]; [done|]. unfold header in Hh. simpl in Hh.
  destruct (rev (chars t)) as [|d m]; [done|]. destruct (Ascii.eqb_spec c "["); [|done]. subst c.
  cbn [split_once] in Hs. change (Ascii.eqb "[" "=") with false in Hs. cbv iota in Hs.
  destruct (split_once "=" t) as [[k' v']|]; [|done]. simplify_eq/=. destruct (trim_bracket k') as [r' ->]. done.
Qed.

(** What moving a repository does to the reader's state. *)
Definition moved (old_loc new_loc : string) (l : string) : string := if bool_decide (l = old_loc) then new_loc else l.
Definition move_section old_loc new_loc (r : WorkerRepoSection) : WorkerRepoSection :=
  {| wrs_name := wrs_name r; wrs_location := moved old_loc new_loc (wrs_location r); wrs_sync_uri := wrs_sync_uri r |}.
Definition move_open old_loc new_loc (s : WorkerOpenSection) : WorkerOpenSection :=
  {| wos_name := wos_name s; wos_location := moved old_loc new_loc <$> wos_location s; wos_sync_uri := wos_sync_uri s |}.
Definition move_state old_loc new_loc (st : list WorkerRepoSection * WorkerOpenSection) :=
  (map (move_section old_loc new_loc) (fst st), move_open old_loc new_loc (snd st)).

Lemma flush_move old_loc new_loc s :
  worker_flush (move_open old_loc new_loc s) = map (move_section old_loc new_loc) (worker_flush s).
Proof. unfold worker_flush. simpl. case_match; [|done]. by destruct (wos_location s). Qed.

Lemma location_line_parts new_loc : tight new_loc ->
  trim ("location = " +:+ new_loc) = "location = " +:+ new_loc /\ header ("location = " +:+ new_loc) = None /\
  split_once "=" ("location = " +:+ new_loc) = Some ("location ", String " " new_loc) /\ trim (String " " new_loc) = new_loc.
Proof.
  intros Ht. split_and!.
  - apply tight_trim. change ("location = " +:+ new_loc) with ("location =" +:+ " " +:+ new_loc). by apply tight_app.
  - unfold header. change (chars ("location = " +:+ new_loc)) with ("l"%char :: chars ("ocation = " +:+ new_loc)).
    cbv beta iota. by destruct (rev (chars ("ocation = " +:+ new_loc))).
  - done.
  - transitivity (trim new_loc); [done|by apply tight_trim].
Qed.

Lemma rewrite_line_move old_loc new_loc st line : tight new_loc ->
  worker_repo_line (move_state old_loc new_loc st) (rewrite_line old_loc new_loc line) =
  move_state old_loc new_loc (worker_repo_line st line).
Proof.
  intros Ht. destruct st as [repos s]. unfold rewrite_line.
  assert (Hsame : (forall k v, split_once "=" (trim line) = Some (k, v) -> header (trim line) = None ->
      eq_ignore_ascii_case (trim k) "location" && bool_decide (trim v = old_loc) = false) ->
      worker_repo_line (move_state old_loc new_loc (repos, s)) line = move_state old_loc new_loc (worker_repo_line (repos, s) line)).
  { intros Hno. unfold worker_repo_line, move_state. simpl. destruct (header (trim line)) as [name|] eqn:Hh.
    - simpl. by rewrite flush_move, map_app.
    - destruct (split_once "=" (trim line)) as [[k v]|] eqn:Hs; [|done]. specialize (Hno k v eq_refl eq_refl).
      destruct (eq_ignore_ascii_case (trim k) "location"); simpl.
      + unfold move_open, moved at 1. simpl in *. unfold moved. by rewrite Hno.
      + by destruct (eq_ignore_ascii_case (trim k) "sync-uri"). }
  destruct (split_once "=" (trim line)) as [[k v]|] eqn:Hs; [|by apply Hsame].
  destruct (eq_ignore_ascii_case (trim k) "location" && bool_decide (trim v = old_loc)) eqn:Hc;
    [|apply Hsame; intros ? ? [= <- <-] _; done].
  clear Hsame. apply andb_true_iff in Hc as [Hk Hv%bool_decide_eq_true].
  destruct (location_line_parts new_loc Ht) as (E1 & E2 & E3 & E4).
  unfold worker_repo_line, move_state. cbv zeta. simpl fst. simpl snd. rewrite E1, E2, E3, E4, Hs.
  destruct (header (trim line)) as [name|] eqn:Hh; [by rewrite (header_not_location _ _ _ _ Hh Hs) in Hk|].
  rewrite Hk, Hv. change (eq_ignore_ascii_case (trim "location ") "location") with true. cbv iota.
  unfold move_open, moved. simpl. by rewrite bool_decide_true.
Qed.

Lemma rewrite_line_no_newline old_loc new_loc line :
  newline ∉ chars new_loc -> newline ∉ chars line -> newline ∉ chars (rewrite_line old_loc new_loc line).
Proof.
  intros Hn Hl. unfold rewrite_line. repeat case_match; try done. rewrite chars_app. intros [Hc|Hc]%elem_of_app; [|done].
  vm_compute in Hc. repeat (apply elem_of_cons in Hc as [Hc|Hc]; [done|]). by apply elem_of_nil in Hc.
Qed.

(** Rewriting a repos.conf moves exactly the repositories that were at the old
    location: the worker reads the same sections in the same order, each at its old
    place unless that was the one rewritten; names and other settings stay. *)
Theorem rewrite_location_moves old_loc new_loc content :
  tight new_loc -> newline ∉ chars new_loc ->
  worker_parse_repo_sections_full (rewrite_location_text old_loc new_loc content) =
  map (move_section old_loc new_loc) (worker_parse_repo_sections_full content).
Proof.
  intros Ht Hn. unfold worker_parse_repo_sections_full, rewrite_location_text.
  rewrite <- (map_map (rewrite_line old_loc new_loc) (fun l => l +:+ newline_str)), lines_raw.
  2:{ apply Forall_map. eapply Forall_impl; [apply lines_no_newline|]. intros l Hl. by apply rewrite_line_no_newline. }
  assert (Hfold : forall ls st, fold_left worker_repo_line (map strip_cr (map (rewrite_line old_loc new_loc) ls)) (move_state old_loc new_loc st)
      = move_state old_loc new_loc (fold_left worker_repo_line ls st)).
  { induction ls as [|l ls IH]; intros st; [done|]. cbn [map fold_left]. by rewrite worker_line_strip, rewrite_line_move, IH. }
  specialize (Hfold (lines content) ([], worker_no_section)).
  change (move_state old_loc new_loc ([], worker_no_section)) with ((@nil WorkerRepoSection), worker_no_section) in Hfold.
  rewrite Hfold. destruct (fold_left worker_repo_line (lines content) _) as [repos s].
  unfold move_state. simpl. by rewrite flush_move, map_app.
Qed.

Lemma rewrite_location_moves_witness :
  let content := "[local]" +:+ newline_str +:+ "Location=/var/db/repos/local" +:+ newline_str +:+ "[gentoo]" +:+ newline_str +:+
                 "location = /var/db/repos/gentoo" in
  map wrs_location (worker_parse_repo_sections_full (rewrite_location_text "/var/db/repos/local" "/var/lib/remerge" content)) =
  ["/var/lib/remerge"; "/var/db/repos/gentoo"].
Proof.
  cbv zeta. rewrite (rewrite_location_moves "/var/db/repos/local" "/var/lib/remerge"); [by vm_compute|done|].
  intros Hc. vm_compute in Hc. repeat (apply elem_of_cons in Hc as [Hc|Hc]; [done|]). by apply elem_of_nil in Hc.
Defined.
