(* ===== verification/Effects.v ===== *)
(** * Programs that talk to the outside

    The command-line client and the worker are sequences of requests (run a command,
    send a workorder, restore a file tree) whose answers decide what comes next.
    Such a program is a tree: it returns a value, or it makes a request of the
    signature [E] and goes on with the answer.  [runs p t a]: with the answers
    recorded in the trace [t], the program [p] returns [a].  A theorem about every
    trace covers every behaviour of the environment; [interp] runs a program
    against a concrete environment. *)

From S2P Require Import Prelude.

Inductive Prog (E : Type -> Type) (A : Type) : Type :=
| Ret (a : A)
| Ask {X : Type} (request : E X) (k : X -> Prog E A).
Arguments Ret {E A} a.
Arguments Ask {E A X} request k.

(** A request with its answer. *)
Inductive Event (E : Type -> Type) : Type :=
| Ev {X : Type} (request : E X) (answer : X).
Arguments Ev {E X} request answer.

Section Programs.
Context {E : Type -> Type}.

Fixpoint pbind {A B} (p : Prog E A) (f : A -> Prog E B) : Prog E B :=
  match p with
  | Ret a => f a
  | Ask e k => Ask e (fun x => pbind (k x) f)
  end.

Definition ask {X} (e : E X) : Prog E X := Ask e Ret.

Fixpoint runs {A} (p : Prog E A) (t : list (Event E)) (a : A) : Prop :=
  match p with
  | Ret b => t = [] /\ a = b
  | Ask e k => exists x t', t = Ev e x :: t' /\ runs (k x) t' a
  end.

(** The trace and value of a program whose requests [answer] answers. *)
Fixpoint interp {A} (answer : forall X, E X -> X) (p : Prog E A) : list (Event E) * A :=
  match p with
  | Ret a => ([], a)
  | Ask e k => let '(t, a) := interp answer (k (answer _ e)) in (Ev e (answer _ e) :: t, a)
  end.

Lemma interp_runs {A} answer (p : Prog E A) : runs p (fst (interp answer p)) (snd (interp answer p)).
Proof.
  induction p as [a|X e k IH]; [done|]. simpl. specialize (IH (answer X e)).
  destruct (interp answer (k (answer X e))) as [t a]. simpl in *. by exists (answer X e), t.
Qed.

(** The value and final state of a program whose requests [handler] serves from a
    state of its own. *)
Fixpoint interp_state {S A} (handler : forall X, E X -> S -> X * S) (p : Prog E A) (s : S) : A * S :=
  match p with
  | Ret a => (a, s)
  | Ask e k => let '(x, s) := handler _ e s in interp_state handler (k x) s
  end.

Lemma interp_state_bind {S A B} (handler : forall X, E X -> S -> X * S) (p : Prog E A) (f : A -> Prog E B) s :
  interp_state handler (pbind p f) s = let '(a, s') := interp_state handler p s in interp_state handler (f a) s'.
Proof.
  revert s. induction p as [a|X e k IH]; intros s; [done|]. simpl. destruct (handler X e s) as [x s']. apply IH.
Qed.

(** Such an execution is a run. *)
Lemma interp_state_runs {S A} (handler : forall X, E X -> S -> X * S) (p : Prog E A) s : exists t, runs p t (fst (interp_state handler p s)).
Proof.
  revert s. induction p as [a|X e k IH]; intros s; [by exists []|]. simpl. destruct (handler X e s) as [x s'].
  destruct (IH x s') as [t Ht]. exists (Ev e x :: t). by exists x, t.
Qed.

(** [let x = p?; f(x)] in a program that returns a result. *)
Definition pbind_ok {A B Er} (p : Prog E (Result A Er)) (f : A -> Prog E (Result B Er)) : Prog E (Result B Er) :=
  pbind p (fun r => match r with Ok a => f a | Err e => Ret (Err e) end).

(** [for x in xs { f(x)?; }] *)
Fixpoint pfor {A Er} (f : A -> Prog E (Result unit Er)) (xs : list A) : Prog E (Result unit Er) :=
  match xs with
  | [] => Ret (Ok tt)
  | x :: rest => pbind_ok (f x) (fun _ => pfor f rest)
  end.
End Programs.

Notation "'let*' x ':=' p 'in' q" := (pbind p (fun x => q))
  (at level 10, x pattern, p at level 200, q at level 200) : remerge_scope.
Notation "'try*' x ':=' p 'in' q" := (pbind_ok p (fun x => q))
  (at level 10, x pattern, p at level 200, q at level 200) : remerge_scope.

(** ** Reasoning about all runs

    [always Q p]: every run of [p] satisfies [Q].  The trace of a sequence is the
    concatenation of the traces, so a postcondition for a sequence is checked part by
    part. *)
Section Always.
Context {E : Type -> Type}.

Definition always {A} (Q : list (Event E) -> A -> Prop) (p : Prog E A) : Prop := forall t a, runs p t a -> Q t a.

Lemma always_ret {A} (Q : list (Event E) -> A -> Prop) a : Q [] a -> always Q (Ret a).
Proof. intros HQ t b [-> ->]. done. Qed.

Lemma always_ask {A X} (Q : list (Event E) -> A -> Prop) (e : E X) k :
  (forall x, always (fun t a => Q (Ev e x :: t) a) (k x)) -> always Q (Ask e k).
Proof. intros Hk t a (x & t' & -> & Hr). by apply Hk. Qed.

Lemma always_bind {A B} (Q : list (Event E) -> B -> Prop) (p : Prog E A) (f : A -> Prog E B) :
  always (fun t a => always (fun t' b => Q (t ++ t') b) (f a)) p -> always Q (pbind p f).
Proof.
  revert Q. induction p as [a|X e k IH]; intros Q Hp; simpl.
  - intros t b Hr. apply (Hp [] a); done.
  - apply always_ask. intros x. apply IH. intros t a Hr t' b Hr'.
    apply (Hp (Ev e x :: t) a); [|done]. by exists x, t.
Qed.

Lemma always_mono {A} (P Q : list (Event E) -> A -> Prop) p : (forall t a, P t a -> Q t a) -> always P p -> always Q p.
Proof. intros HPQ HP t a Hr. by apply HPQ, HP. Qed.

Lemma always_and {A} (P Q : list (Event E) -> A -> Prop) p : always P p -> always Q p -> always (fun t a => P t a /\ Q t a) p.
Proof. intros HP HQ t a Hr. split; [by apply HP|by apply HQ]. Qed.

Lemma runs_bind {A B} (p : Prog E A) (f : A -> Prog E B) t b :
  runs (pbind p f) t b <-> exists t1 t2 a, t = t1 ++ t2 /\ runs p t1 a /\ runs (f a) t2 b.
Proof.
  split.
  - revert t. induction p as [a|X e k IH]; intros t; simpl; [intros Hr; by exists [], t, a|].
    intros (x & t' & -> & Hr). destruct (IH x t' Hr) as (t1 & t2 & a & -> & H1 & H2).
    exists (Ev e x :: t1), t2, a. split_and!; [done| |done]. by exists x, t1.
  - intros (t1 & t2 & a & -> & H1 & H2). revert t1 H1. induction p as [a'|X e k IH]; intros t1; simpl.
    + intros [-> ->]. done.
    + intros (x & t' & -> & Hr). exists x, (t' ++ t2). split; [done|by apply IH].
Qed.

Lemma runs_bind_ok {A B Er} (p : Prog E (Result A Er)) (f : A -> Prog E (Result B Er)) t b :
  runs (pbind_ok p f) t (Ok b) <-> exists t1 t2 a, t = t1 ++ t2 /\ runs p t1 (Ok a) /\ runs (f a) t2 (Ok b).
Proof.
  unfold pbind_ok. rewrite runs_bind. split.
  - intros (t1 & t2 & [a|e] & -> & H1 & H2); [by exists t1, t2, a|]. by destruct H2.
  - intros (t1 & t2 & a & -> & H1 & H2). by exists t1, t2, (Ok a).
Qed.

Lemma runs_ask {X} (e : E X) t x : runs (ask e) t x <-> t = [Ev e x].
Proof.
  simpl. split; [intros (y & t' & -> & -> & ->); done|]. intros ->. by exists x, [].
Qed.

Lemma always_bind_ok {A B Er} (Q : list (Event E) -> Result B Er -> Prop) (p : Prog E (Result A Er)) f :
  always (fun t r => match r with Ok a => always (fun t' b => Q (t ++ t') b) (f a) | Err e => Q t (Err e) end) p ->
  always Q (pbind_ok p f).
Proof.
  intros Hp. apply always_bind. eapply always_mono; [|exact Hp]. intros t [a|e] Hr; [done|].
  apply always_ret. by rewrite app_nil_r.
Qed.

(** Whatever is answered, every event satisfies [P]. *)
Fixpoint only {A} (P : Event E -> Prop) (p : Prog E A) : Prop :=
  match p with
  | Ret _ => True
  | Ask e k => forall x, P (Ev e x) /\ only P (k x)
  end.

Lemma only_runs {A} P (p : Prog E A) t a : only P p -> runs p t a -> Forall P t.
Proof.
  revert t. induction p as [b|X e k IH]; intros t Hp; simpl; [by intros [-> _]|].
  intros (x & t' & -> & Hr). destruct (Hp x) as [He Hk]. constructor; [done|by eapply IH].
Qed.

Lemma only_ret {A} P (a : A) : only P (Ret a).
Proof. done. Qed.

Lemma only_ask {A X} P (e : E X) (k : X -> Prog E A) :
  (forall x, P (Ev e x)) -> (forall x, only P (k x)) -> only P (Ask e k).
Proof. simpl. auto. Qed.

Lemma only_bind {A B} P (p : Prog E A) (f : A -> Prog E B) : only P p -> (forall a, only P (f a)) -> only P (pbind p f).
Proof.
  intros Hp Hf. induction p as [a|X e k IH]; simpl; [apply Hf|]. intros x. destruct (Hp x). auto.
Qed.

Lemma only_bind_ok {A B Er} P (p : Prog E (Result A Er)) (f : A -> Prog E (Result B Er)) :
  only P p -> (forall a, only P (f a)) -> only P (pbind_ok p f).
Proof. intros Hp Hf. apply only_bind; [done|]. intros [a|e]; [apply Hf|apply only_ret]. Qed.

Lemma only_for {A Er} P (f : A -> Prog E (Result unit Er)) xs : (forall x, only P (f x)) -> only P (pfor f xs).
Proof. intros Hf. induction xs as [|x xs IH]; [done|]. cbn [pfor]. by apply only_bind_ok. Qed.
End Always.

(** Takes a run of a sequence apart. *)
Ltac inv_runs :=
  repeat match goal with
  | H : runs (Ret _) _ _ |- _ => destruct H as [? ?]
  | H : runs (ask _) _ _ |- _ => apply runs_ask in H
  | H : runs (pbind_ok _ _) _ (Ok _) |- _ => apply runs_bind_ok in H as (? & ? & ? & ? & ? & ?)
  | H : runs (pbind _ _) _ _ |- _ => apply runs_bind in H as (? & ? & ? & ? & ? & ?)
  end.

(** [only P p] where [P] computes to true for every request of [p]. *)
Ltac solve_only :=
  repeat first
    [ apply only_bind_ok; [|intros ?] | apply only_bind; [|intros ?] | apply only_ret
    | apply only_ask; [intros ?; done|intros ?] | apply only_for; intros ? | case_match ].
