(* ===== verification/Relay.v ===== *)
(** * The progress connection of the server ([ws_progress] and [handle_ws] in
      [crates/server/src/api.rs])

    One task forwards to the client: the raw output of the container as binary frames
    and the build events as text frames, from two broadcast channels of tokio; another
    task forwards what the client types to the container.  The first is a step function
    on the two receivers and the socket, the second a program ([Effects]).  The run of
    the whole connection interleaves the forwarder with the senders of the channels and
    with the network.  [serde_json] is a parameter. *)

From S2P Require Import Prelude Types World Effects Server.

(** ** Broadcast channels

    A receiver has the values it has not read; a channel keeps [capacity] of them, and
    a receiver that falls behind misses the oldest and is told how many. *)

Record Receiver (A : Type) := { buffer : list A; missed : Z; sender_gone : bool }.
Arguments buffer {A}. Arguments missed {A}. Arguments sender_gone {A}.
Inductive RecvError := Lagged (n : Z) | RecvClosed.

Definition subscribe {A} : Receiver A := {| buffer := []; missed := 0; sender_gone := false |}.
(** [None]: nothing there yet. *)
Definition recv {A} (c : Receiver A) : option (Result A RecvError * Receiver A) :=
  if 0 <? missed c then Some (Err (Lagged (missed c)), {| buffer := buffer c; missed := 0; sender_gone := sender_gone c |})
  else match buffer c with
       | x :: rest => Some (Ok x, {| buffer := rest; missed := missed c; sender_gone := sender_gone c |})
       | [] => if sender_gone c then Some (Err RecvClosed, c) else None
       end.
Definition broadcast {A} (capacity : nat) (x : A) (c : Receiver A) : Receiver A :=
  if (length (buffer c) <? capacity)%nat then {| buffer := buffer c ++ [x]; missed := missed c; sender_gone := sender_gone c |}
  else {| buffer := tail (buffer c) ++ [x]; missed := missed c + 1; sender_gone := sender_gone c |}.
Definition drop_sender {A} (c : Receiver A) : Receiver A := {| buffer := buffer c; missed := missed c; sender_gone := true |}.

Definition RAW_CAPACITY : nat := 512.
Definition PROGRESS_CAPACITY : nat := 256.

(** ** The forwarding task *)

Inductive WsMessage := TextMsg (text : string) | BinaryMsg (data : bytes) | CloseMsg.

(** [skipped_raw] and [skipped_events] sum up the values that the server's receivers missed
    ([RecvError::Lagged]).  They stand for lines of the server's log: nothing about them is
    sent to the client. *)
Record Relay := {
  progress_rx : Receiver BuildProgress;
  raw_rx : option (Receiver bytes);
  raw_done : bool;
  running : bool;
  socket_open : bool;
  sent : list WsMessage;
  skipped_raw : Z;
  skipped_events : Z;
}.

Definition with_progress (c : Receiver BuildProgress) (r : Relay) : Relay := {|
  progress_rx := c; raw_rx := raw_rx r; raw_done := raw_done r; running := running r; socket_open := socket_open r; sent := sent r;
  skipped_raw := skipped_raw r; skipped_events := skipped_events r |}.
Definition with_raw (c : Receiver bytes) (r : Relay) : Relay := {|
  progress_rx := progress_rx r; raw_rx := Some c; raw_done := raw_done r; running := running r; socket_open := socket_open r; sent := sent r;
  skipped_raw := skipped_raw r; skipped_events := skipped_events r |}.
Definition set_raw_done (r : Relay) : Relay := {|
  progress_rx := progress_rx r; raw_rx := raw_rx r; raw_done := true; running := running r; socket_open := socket_open r; sent := sent r;
  skipped_raw := skipped_raw r; skipped_events := skipped_events r |}.
Definition break (r : Relay) : Relay := {|
  progress_rx := progress_rx r; raw_rx := raw_rx r; raw_done := raw_done r; running := false; socket_open := socket_open r; sent := sent r;
  skipped_raw := skipped_raw r; skipped_events := skipped_events r |}.
Definition disconnect (r : Relay) : Relay := {|
  progress_rx := progress_rx r; raw_rx := raw_rx r; raw_done := raw_done r; running := running r; socket_open := false; sent := sent r;
  skipped_raw := skipped_raw r; skipped_events := skipped_events r |}.
Definition warn_raw_lagged (n : Z) (r : Relay) : Relay := {|
  progress_rx := progress_rx r; raw_rx := raw_rx r; raw_done := raw_done r; running := running r; socket_open := socket_open r; sent := sent r;
  skipped_raw := skipped_raw r + n; skipped_events := skipped_events r |}.
Definition warn_events_lagged (n : Z) (r : Relay) : Relay := {|
  progress_rx := progress_rx r; raw_rx := raw_rx r; raw_done := raw_done r; running := running r; socket_open := socket_open r; sent := sent r;
  skipped_raw := skipped_raw r; skipped_events := skipped_events r + n |}.

(** [ws_write.send(m).await]; on a broken connection it fails. *)
Definition ws_send (m : WsMessage) (r : Relay) : bool * Relay :=
  if socket_open r then (true, {|
    progress_rx := progress_rx r; raw_rx := raw_rx r; raw_done := raw_done r; running := running r; socket_open := true; sent := sent r ++ [m];
    skipped_raw := skipped_raw r; skipped_events := skipped_events r |})
  else (false, r).

Definition is_log (e : BuildEvent) : bool := match e with Log _ => true | _ => false end.
Definition is_finished (e : BuildEvent) : bool := match e with Finished _ _ => true | _ => false end.

Section Forward.
Context (progress_to_string : BuildProgress -> option string).

(** [let _ = ws_write.send(Close).await; break;] *)
Definition close_and_break (r : Relay) : Relay := break (snd (ws_send CloseMsg r)).

(** What both loops do with a received event. *)
Definition forward_progress (progress : BuildProgress) (r : Relay) : Relay :=
  if is_log (bp_event progress) then r
  else
  let '(delivered, r) := match progress_to_string progress with
    | Some text => ws_send (TextMsg text) r
    | None => (true, r)
    end in
  if negb delivered then break r
  else if is_finished (bp_event progress) then close_and_break r
  else r.

Definition on_progress (result : Result BuildProgress RecvError) (r : Relay) : Relay :=
  match result with
  | Ok progress => forward_progress progress r
  | Err (Lagged n) => warn_events_lagged n r
  | Err RecvClosed => close_and_break r
  end.

Definition on_raw (result : Result bytes RecvError) (r : Relay) : Relay :=
  match result with
  | Ok data => let '(delivered, r) := ws_send (BinaryMsg data) r in if delivered then r else break r
  | Err (Lagged n) => warn_raw_lagged n r
  | Err RecvClosed => set_raw_done r
  end.

Definition take_progress (r : Relay) : option Relay :=
  match recv (progress_rx r) with
  | Some (result, c) => Some (on_progress result (with_progress c r))
  | None => None
  end.

(** One turn of the loop; [None]: it waits, or has ended.  [biased]: the raw channel is
    asked first. *)
Definition relay_turn (r : Relay) : option Relay :=
  if negb (running r) then None
  else if raw_done r then take_progress r
  else match raw_rx r with
  | None => None
  | Some c =>
      match recv c with
      | Some (result, c) => Some (on_raw result (with_raw c r))
      | None => take_progress r
      end
  end.

(** The start of the task: [raw] is what [subscribe_raw_output] gave. *)
Definition start_relay (raw : option (Receiver bytes)) : Relay := {|
  progress_rx := subscribe; raw_rx := raw; raw_done := negb (is_some raw); running := true; socket_open := true; sent := [];
  skipped_raw := 0; skipped_events := 0 |}.

(** [ws_progress]: 404 without a progress channel; the raw channel may be gone. *)
Definition ws_progress (s : AppState) (id : WorkorderId) : Result Relay Z :=
  if bool_decide (id ∈ progress_txs s) then Ok (start_relay (if bool_decide (id ∈ raw_output_txs s) then Some subscribe else None))
  else Err NOT_FOUND.

(** ** The connection

    The senders broadcast or go away, the network breaks, the forwarder takes a turn. *)
Inductive Action := PushRaw (data : bytes) | PushProgress (p : BuildProgress) | DropRaw | DropProgress | BreakSocket | Turn.

Inductive step : Relay -> Action -> Relay -> Prop :=
| step_push_raw r c data : raw_rx r = Some c -> sender_gone c = false -> step r (PushRaw data) (with_raw (broadcast RAW_CAPACITY data c) r)
| step_push_progress r p : sender_gone (progress_rx r) = false ->
    step r (PushProgress p) (with_progress (broadcast PROGRESS_CAPACITY p (progress_rx r)) r)
| step_drop_raw r c : raw_rx r = Some c -> step r DropRaw (with_raw (drop_sender c) r)
| step_drop_progress r : step r DropProgress (with_progress (drop_sender (progress_rx r)) r)
| step_break r : step r BreakSocket (disconnect r)
| step_turn r r' : relay_turn r = Some r' -> step r Turn r'.

Inductive run (r0 : Relay) : list Action -> Relay -> Prop :=
| run_start : run r0 [] r0
| run_step acts r a r' : run r0 acts r -> step r a r' -> run r0 (acts ++ [a]) r'.

Definition raw_pushed (acts : list Action) : list bytes := omap (fun a => match a with PushRaw b => Some b | _ => None end) acts.
Definition progress_pushed (acts : list Action) : list BuildProgress := omap (fun a => match a with PushProgress p => Some p | _ => None end) acts.
Definition binaries (ms : list WsMessage) : list bytes := omap (fun m => match m with BinaryMsg b => Some b | _ => None end) ms.
Definition texts (ms : list WsMessage) : list string := omap (fun m => match m with TextMsg t => Some t | _ => None end) ms.
(** The text frames of a list of events. *)
Definition frames (ps : list BuildProgress) : list string :=
  omap progress_to_string (List.filter (fun p => negb (is_log (bp_event p))) ps).

End Forward.

(** ** Standard input *)

Inductive ClientMessage := ClientText (data : bytes) | ClientBinary (data : bytes) | ClientClose | ClientOther.
Inductive StdinE : Type -> Type :=
| NextMessage : StdinE (option ClientMessage)
| HasStdinTx : StdinE bool
| SendStdin (data : bytes) : StdinE unit
| Sleep100 : StdinE unit.

(** The retry loop, with [tries] look-ups to go: whether the data was sent. *)
Fixpoint forward_stdin (tries : nat) (data : bytes) : Prog StdinE bool :=
  match tries with
  | O => Ret false
  | S tries =>
      let* there := ask HasStdinTx : Prog StdinE bool in
      if there then (let* _ := ask (SendStdin data) in Ret true)
      else let* _ := ask Sleep100 in forward_stdin tries data
  end.
Definition STDIN_TRIES : nat := 50.

(** The loop, for [rounds] messages: [false] if it is still running. *)
Fixpoint stdin_task (rounds : nat) : Prog StdinE bool :=
  match rounds with
  | O => Ret false
  | S rounds =>
      let* msg := ask NextMessage in
      match msg with
      | None | Some ClientClose => Ret true
      | Some ClientOther => stdin_task rounds
      | Some (ClientText data) | Some (ClientBinary data) => let* _ := forward_stdin STDIN_TRIES data in stdin_task rounds
      end
  end.

(** ** What a receiver has taken

    [tracks pushed taken skipped c]: of the values pushed so far the receiver has passed
    over a prefix, of which it took [taken] and was told to have missed [skipped]; what
    it has not been told about yet lies between that prefix and its buffer. *)
Section Channels.
Context {A : Type}.

Definition passed (prefix taken : list A) (skipped : Z) : Prop :=
  taken `sublist_of` prefix /\ Z.of_nat (length prefix) = Z.of_nat (length taken) + skipped.
Definition tracks (pushed taken : list A) (skipped : Z) (c : Receiver A) : Prop :=
  exists prefix gap, pushed = prefix ++ gap ++ buffer c /\ passed prefix taken skipped /\ Z.of_nat (length gap) = missed c.

Lemma passed_nil : passed [] [] 0.
Proof. by split. Qed.
Lemma tracks_start : tracks [] [] 0 subscribe.
Proof. exists [], []. split_and!; [done|apply passed_nil|done]. Qed.

Lemma sublist_full (l k : list A) : l `sublist_of` k -> (length k <= length l)%nat -> l = k.
Proof.
  induction 1 as [|x l k _ IH|x l k Hs IH]; simpl; intros Hl; [done|rewrite IH by lia; done|].
  apply sublist_length in Hs. lia.
Qed.
(** Nothing skipped: everything was taken, in order. *)
Lemma passed_all prefix taken : passed prefix taken 0 -> taken = prefix.
Proof. intros [Hs Hl]. apply sublist_full; [done|lia]. Qed.

Lemma passed_take prefix taken skipped x : passed prefix taken skipped -> passed (prefix ++ [x]) (taken ++ [x]) skipped.
Proof. intros [Hs Hl]. split; [by apply sublist_app|]. rewrite !length_app. simpl. lia. Qed.
Lemma passed_skip prefix gap taken skipped : passed prefix taken skipped -> passed (prefix ++ gap) taken (skipped + Z.of_nat (length gap)).
Proof. intros [Hs Hl]. split; [by apply sublist_inserts_r|]. rewrite length_app. lia. Qed.

Lemma tracks_broadcast pushed taken skipped capacity x c :
  (0 < capacity)%nat -> tracks pushed taken skipped c -> tracks (pushed ++ [x]) taken skipped (broadcast capacity x c).
Proof.
  intros Hcap (prefix & gap & -> & Hp & Hg). unfold broadcast. destruct (Nat.ltb_spec (length (buffer c)) capacity) as [Hl|Hl].
  - exists prefix, gap. split_and!; [|done|done]. simpl. by rewrite <- !app_assoc.
  - destruct (buffer c) as [|y b]; simpl in *; [lia|]. exists prefix, (gap ++ [y]). split_and!; [by rewrite <- !app_assoc|done|].
    rewrite length_app. simpl. lia.
Qed.

Lemma tracks_drop pushed taken skipped c : tracks pushed taken skipped c -> tracks pushed taken skipped (drop_sender c).
Proof. done. Qed.

(** What one call of [recv] does. *)
Lemma recv_tracks pushed taken skipped c result c' :
  recv c = Some (result, c') -> tracks pushed taken skipped c ->
  match result with
  | Ok x => tracks pushed (taken ++ [x]) skipped c'
  | Err (Lagged n) => tracks pushed taken (skipped + n) c'
  | Err RecvClosed => c' = c /\ passed pushed taken skipped /\ buffer c = [] /\ missed c = 0 /\ sender_gone c = true
  end.
Proof.
  unfold recv. intros Hr (prefix & gap & -> & Hp & Hg). destruct (Z.ltb_spec 0 (missed c)) as [Hm|Hm].
  - injection Hr as <- <-. rewrite <- Hg. exists (prefix ++ gap), []. split_and!; [by rewrite <- app_assoc|by apply passed_skip|done].
  - assert (gap = []) as -> by (destruct gap; simpl in *; [done|lia]). simpl in *. destruct (buffer c) as [|x b] eqn:Eb.
    + destruct (sender_gone c) eqn:Es; [|done]. injection Hr as <- <-. rewrite app_nil_r. split_and!; try done.
    + injection Hr as <- <-. exists (prefix ++ [x]), []. split_and!; [by rewrite <- app_assoc|by apply passed_take|done].
Qed.

(** Nothing to receive: everything pushed was passed. *)
Lemma recv_None pushed taken skipped c : recv c = None -> tracks pushed taken skipped c -> passed pushed taken skipped /\ buffer c = [].
Proof.
  unfold recv. intros Hr (prefix & gap & -> & Hp & Hg). destruct (Z.ltb_spec 0 (missed c)) as [Hm|Hm]; [done|].
  destruct (buffer c) as [|x b]; [|done]. assert (gap = []) as -> by (destruct gap; simpl in *; [done|lia]). by rewrite !app_nil_r.
Qed.

Lemma tracks_prefix pushed taken skipped c : tracks pushed taken skipped c -> exists prefix, prefix `prefix_of` pushed /\ passed prefix taken skipped.
Proof. intros (prefix & gap & -> & Hp & _). exists prefix. split; [by eexists|done]. Qed.
End Channels.

(** ** The invariant of a connection *)
Section Delivery.
Context (progress_to_string : BuildProgress -> option string).
Abbreviation frames := (frames progress_to_string).

Lemma raw_pushed_snoc acts a : raw_pushed (acts ++ [a]) = raw_pushed acts ++ match a with PushRaw b => [b] | _ => [] end.
Proof. unfold raw_pushed. rewrite omap_app. by destruct a. Qed.
Lemma progress_pushed_snoc acts a : progress_pushed (acts ++ [a]) = progress_pushed acts ++ match a with PushProgress p => [p] | _ => [] end.
Proof. unfold progress_pushed. rewrite omap_app. by destruct a. Qed.
Lemma binaries_snoc ms m : binaries (ms ++ [m]) = binaries ms ++ match m with BinaryMsg b => [b] | _ => [] end.
Proof. unfold binaries. rewrite omap_app. by destruct m. Qed.
Lemma texts_snoc ms m : texts (ms ++ [m]) = texts ms ++ match m with TextMsg t => [t] | _ => [] end.
Proof. unfold texts. rewrite omap_app. by destruct m. Qed.
Lemma frames_snoc ps p :
  frames (ps ++ [p]) = frames ps ++ (if is_log (bp_event p) then [] else match progress_to_string p with Some t => [t] | None => [] end).
Proof.
  unfold Relay.frames. rewrite List.filter_app, omap_app. f_equal. simpl. destruct (is_log (bp_event p)); [done|]. simpl.
  by destruct (progress_to_string p).
Qed.

Definition raw_tracks (acts : list Action) (taken : list bytes) (r : Relay) : Prop :=
  match raw_rx r with
  | Some c => tracks (raw_pushed acts) taken (skipped_raw r) c
  | None => raw_pushed acts = [] /\ taken = [] /\ skipped_raw r = 0
  end.

(** How a forwarder ended: at some point all raw output had been passed on, and the last
    event was [Finished] or the channel of events was gone. *)
Definition ended (acts : list Action) (raw : list bytes) (events : list BuildProgress) (r : Relay) : Prop :=
  exists acts1 prefix, acts1 `prefix_of` acts /\ passed (raw_pushed acts1) raw (skipped_raw r) /\
    prefix `prefix_of` progress_pushed acts1 /\ passed prefix events (skipped_events r) /\
    ((exists p, last events = Some p /\ is_finished (bp_event p) = true) \/ (prefix = progress_pushed acts1 /\ DropProgress ∈ acts1)) /\
    exists ms, sent r = ms ++ [CloseMsg] /\ ~ CloseMsg ∈ ms.

Record relay_inv (acts : list Action) (r : Relay) (raw : list bytes) (events : list BuildProgress) : Prop := {
  ri_raw : raw_tracks acts raw r;
  ri_events : tracks (progress_pushed acts) events (skipped_events r) (progress_rx r);
  ri_done : raw_done r = true -> passed (raw_pushed acts) raw (skipped_raw r) /\ forall c, raw_rx r = Some c -> sender_gone c = true;
  ri_some : raw_done r = false -> is_Some (raw_rx r);
  ri_gone : sender_gone (progress_rx r) = true -> DropProgress ∈ acts;
  ri_sent : socket_open r = true -> binaries (sent r) = raw /\ texts (sent r) = frames events;
  ri_running : running r = true -> ~ CloseMsg ∈ sent r;
  ri_end : running r = false -> socket_open r = true -> ended acts raw events r;
}.

Lemma ended_more acts a raw events r : ended acts raw events r -> ended (acts ++ [a]) raw events r.
Proof. intros (acts1 & prefix & Hpre & Hrest). exists acts1, prefix. split; [by apply prefix_app_r|done]. Qed.

(** The forwarder and the network push nothing. *)
Lemma inv_idle acts a r raw events :
  match a with PushRaw _ | PushProgress _ => False | _ => True end -> relay_inv acts r raw events -> relay_inv (acts ++ [a]) r raw events.
Proof.
  intros Ha [H1 H2 H3 H4 H5 H6 H7 H8].
  assert (Hr : raw_pushed (acts ++ [a]) = raw_pushed acts) by (rewrite raw_pushed_snoc; destruct a; rewrite ?app_nil_r; done).
  assert (Hp : progress_pushed (acts ++ [a]) = progress_pushed acts) by (rewrite progress_pushed_snoc; destruct a; rewrite ?app_nil_r; done).
  split; try done; rewrite ?Hp; try done; rewrite ?Hr; try done.
  - unfold raw_tracks. by rewrite Hr.
  - intros Hg. apply elem_of_app. left. by apply H5.
  - intros Hn Hs. by apply ended_more, H8.
Qed.

(** The end of the forwarder by a close frame. *)
Lemma inv_close acts r raw events prefix :
  relay_inv acts r raw events -> running r = true -> passed (raw_pushed acts) raw (skipped_raw r) ->
  prefix `prefix_of` progress_pushed acts -> passed prefix events (skipped_events r) ->
  (exists p, last events = Some p /\ is_finished (bp_event p) = true) \/ (prefix = progress_pushed acts /\ DropProgress ∈ acts) ->
  relay_inv acts (close_and_break r) raw events.
Proof.
  intros [H1 H2 H3 H4 H5 H6 H7 H8] Hrun Hraw Hpre Hp Hwhy. specialize (H7 Hrun). unfold close_and_break, ws_send.
  destruct (socket_open r) eqn:Es; split; simpl; try done; rewrite ?Es; try done.
  - intros _. destruct (H6 eq_refl) as [Hb Ht]. rewrite binaries_snoc, texts_snoc, !app_nil_r. done.
  - intros _ _. exists acts, prefix. split_and!; try done. by exists (sent r).
Qed.

(** Sending a text frame. *)
Lemma inv_text acts r raw events p c :
  relay_inv acts r raw events -> running r = true -> is_log (bp_event p) = false ->
  tracks (progress_pushed acts) (events ++ [p]) (skipped_events r) c -> (sender_gone c = true -> DropProgress ∈ acts) ->
  let '(delivered, r1) := match progress_to_string p with
    | Some text => ws_send (TextMsg text) (with_progress c r)
    | None => (true, with_progress c r)
    end in
  if delivered then relay_inv acts r1 raw (events ++ [p]) /\ running r1 = true /\ skipped_raw r1 = skipped_raw r /\ skipped_events r1 = skipped_events r
  else relay_inv acts (break r1) raw (events ++ [p]).
Proof.
  intros [H1 H2 H3 H4 H5 H6 H7 H8] Hrun Hlog Htr Hgone. specialize (H7 Hrun).
  assert (Hfr : frames (events ++ [p]) = frames events ++ match progress_to_string p with Some t => [t] | None => [] end) by (by rewrite frames_snoc, Hlog).
  destruct (progress_to_string p) as [t|]; unfold ws_send; simpl; [destruct (socket_open r) eqn:Es|]; simpl.
  - split_and!; try done. split; simpl; try done.
    + intros _. destruct (H6 eq_refl) as [Hb Ht]. rewrite binaries_snoc, texts_snoc, Hfr, app_nil_r, Ht. done.
    + intros _ [Hin|Hin]%elem_of_app; [done|]. by apply list_elem_of_singleton in Hin.
    + intros Hn. congruence.
  - split; simpl; try done; rewrite ?Es; done.
  - split_and!; try done. split; simpl; try done; [|intros Hn; congruence].
    intros Ho. rewrite Hfr, app_nil_r. by apply H6.
Qed.

(** Taking an event, when all raw output has been passed on. *)
Lemma inv_take_progress acts r r' raw events :
  relay_inv acts r raw events -> running r = true -> passed (raw_pushed acts) raw (skipped_raw r) ->
  take_progress progress_to_string r = Some r' -> exists events', relay_inv acts r' raw events'.
Proof.
  intros Hinv Hrun Hpassed Ht. unfold take_progress in Ht. destruct (recv (progress_rx r)) as [[result c]|] eqn:Er; [|done].
  injection Ht as <-. pose proof (recv_tracks _ _ _ _ _ _ Er (ri_events _ _ _ _ Hinv)) as Htr. assert (Hgone : sender_gone c = true -> DropProgress ∈ acts).
  { intros Hc. apply (ri_gone _ _ _ _ Hinv). revert Er Hc. unfold recv. destruct (0 <? missed _); [by intros [= _ <-]|].
    destruct (buffer _) as [|x b]; [|by intros [= _ <-]]. by destruct (sender_gone (progress_rx r)) eqn:Es. }
  destruct result as [p|[n|]]; simpl.
  - exists (events ++ [p]). unfold forward_progress. destruct (is_log (bp_event p)) eqn:Elog.
    + destruct Hinv as [H1 H2 H3 H4 H5 H6 H7 H8]. split; simpl; try done; [|intros Hn; congruence].
      intros Ho. rewrite frames_snoc, Elog, app_nil_r. by apply H6.
    + pose proof (inv_text _ _ _ _ _ _ Hinv Hrun Elog Htr Hgone) as Hsend.
      destruct (match progress_to_string p with Some _ => _ | None => _ end) as [delivered r1]. destruct delivered; simpl; [|done].
      destruct Hsend as (Hinv1 & Hrun1 & Hs1 & Hs2). destruct (is_finished (bp_event p)) eqn:Ef; [|done].
      destruct (tracks_prefix _ _ _ _ Htr) as (prefix & Hpre & Hpass).
      eapply inv_close; [done|done|by rewrite Hs1|exact Hpre|by rewrite Hs2|]. left. exists p. by rewrite last_snoc.
  - exists events. destruct Hinv as [H1 H2 H3 H4 H5 H6 H7 H8]. split; simpl; try done. intros Hn. congruence.
  - exists events. destruct Htr as (-> & Hpass & _ & _ & Hg). replace (with_progress _ r) with r by by destruct r.
    eapply inv_close; [done|done|done|done|exact Hpass|]. right. split; [done|]. by apply (ri_gone _ _ _ _ Hinv).
Qed.

Lemma inv_take_raw acts r raw events c result c' :
  relay_inv acts r raw events -> running r = true -> raw_done r = false -> raw_rx r = Some c -> recv c = Some (result, c') ->
  exists raw', relay_inv acts (on_raw result (with_raw c' r)) raw' events.
Proof.
  intros [H1 H2 H3 H4 H5 H6 H7 H8] Hrun Hdone Hc Er. specialize (H7 Hrun). unfold raw_tracks in H1. rewrite Hc in H1.
  pose proof (recv_tracks _ _ _ _ _ _ Er H1) as Htr. destruct result as [data|[n|]]; simpl.
  - exists (raw ++ [data]). unfold ws_send. simpl. destruct (socket_open r) eqn:Es.
    + split; simpl; try done; try congruence.
      * intros _. destruct (H6 eq_refl) as [Hb Ht]. rewrite binaries_snoc, texts_snoc, app_nil_r, Hb. done.
      * intros _ [Hin|Hin]%elem_of_app; [done|]. by apply list_elem_of_singleton in Hin.
    + split; simpl; try done; try congruence; rewrite ?Es; done.
  - exists raw. split; simpl; try done; congruence.
  - exists raw. destruct Htr as (-> & Hpass & Hb & _ & Hg). split; simpl; try done; try congruence.
    intros _. split; [done|]. by intros ? [= <-].
Qed.

Lemma inv_turn acts r raw events r' :
  relay_inv acts r raw events -> relay_turn progress_to_string r = Some r' -> exists raw' events', relay_inv acts r' raw' events'.
Proof.
  intros Hinv Ht. unfold relay_turn in Ht. destruct (running r) eqn:Hrun; simpl in Ht; [|done]. destruct (raw_done r) eqn:Hdone.
  - exists raw. by eapply inv_take_progress; [..|apply (ri_done _ _ _ _ Hinv)|].
  - destruct (raw_rx r) as [c|] eqn:Hc; [|done]. destruct (recv c) as [[result c']|] eqn:Er.
    + injection Ht as <-. destruct (inv_take_raw acts r raw events c result c' Hinv Hrun Hdone Hc Er) as [raw' Hinv']. by exists raw', events.
    + exists raw. eapply inv_take_progress; [done|done| |done]. pose proof (ri_raw _ _ _ _ Hinv) as Hr. unfold raw_tracks in Hr. rewrite Hc in Hr.
      by destruct (recv_None _ _ _ _ Er Hr).
Qed.

Lemma inv_step acts r a r' raw events :
  relay_inv acts r raw events -> step progress_to_string r a r' -> exists raw' events', relay_inv (acts ++ [a]) r' raw' events'.
Proof.
  intros Hinv Hstep. destruct Hstep as [r c data Hc Hg|r p Hg|r c Hc|r|r|r r' Ht].
  - exists raw, events. pose proof (ri_done _ _ _ _ Hinv) as Hd. destruct Hinv as [H1 H2 H3 H4 H5 H6 H7 H8].
    unfold raw_tracks in H1. rewrite Hc in H1. split; simpl; try done.
    + unfold raw_tracks. simpl. rewrite raw_pushed_snoc. apply tracks_broadcast; [unfold RAW_CAPACITY; lia|done].
    + by rewrite progress_pushed_snoc, app_nil_r.
    + intros Hdone. destruct (Hd Hdone) as [_ Hgone]. rewrite (Hgone c Hc) in Hg. done.
    + intros Hs. apply elem_of_app. left. by apply H5.
    + intros Hn Hs. apply ended_more. by apply H8.
  - exists raw, events. destruct Hinv as [H1 H2 H3 H4 H5 H6 H7 H8].
    assert (Hr : raw_pushed (acts ++ [PushProgress p]) = raw_pushed acts) by (by rewrite raw_pushed_snoc, app_nil_r).
    split; simpl; try done; rewrite ?Hr; try done.
    + unfold raw_tracks. simpl. by rewrite Hr.
    + rewrite progress_pushed_snoc. apply tracks_broadcast; [unfold PROGRESS_CAPACITY; lia|done].
    + unfold broadcast. destruct (_ <? _)%nat; simpl; rewrite Hg; done.
    + intros Hn Hs. apply ended_more. by apply H8.
  - exists raw, events. apply inv_idle; [done|]. destruct Hinv as [H1 H2 H3 H4 H5 H6 H7 H8]. unfold raw_tracks in H1. rewrite Hc in H1.
    split; simpl; try done. intros Hdone. destruct (H3 Hdone) as [Hp _]. split; [done|]. by intros ? [= <-].
  - exists raw, events. apply (inv_idle _ DropProgress) in Hinv as [H1 H2 H3 H4 H5 H6 H7 H8]; [|done]. split; simpl; try done.
    intros _. apply elem_of_app. right. by apply list_elem_of_singleton.
  - exists raw, events. apply inv_idle; [done|]. destruct Hinv as [H1 H2 H3 H4 H5 H6 H7 H8]. by split.
  - destruct (inv_turn acts r raw events r' Hinv Ht) as (raw' & events' & Hinv'). exists raw', events'. by apply inv_idle.
Qed.

Definition fresh_connection (r : Relay) : Prop := r = start_relay None \/ r = start_relay (Some subscribe).

Lemma inv_start r : fresh_connection r -> relay_inv [] r [] [].
Proof.
  pose proof (@not_elem_of_nil WsMessage CloseMsg) as Hno. pose proof (@passed_nil bytes) as Hp.
  intros [-> | ->]; split; simpl; try done; try apply tracks_start.
Qed.

Lemma run_inv r0 acts r : fresh_connection r0 -> run progress_to_string r0 acts r -> exists raw events, relay_inv acts r raw events.
Proof.
  intros H0 Hrun. induction Hrun as [|acts r a r' Hrun (raw & events & IH) Hstep]; [exists [], []; by apply inv_start|]. by eapply inv_step.
Qed.
End Delivery.


(** ** The end of a connection *)
Section Finish.
Context (progress_to_string : BuildProgress -> option string).

Fixpoint turns (n : nat) (r : Relay) : Relay :=
  match n with
  | O => r
  | S n => match relay_turn progress_to_string r with Some r' => turns n r' | None => r end
  end.

Definition bit (b : bool) : nat := if b then 1 else 0.
Definition raw_pending (r : Relay) : list bytes :=
  if raw_done r then [] else match raw_rx r with Some c => buffer c | None => [] end.
(** The turns that are left when nothing more is pushed. *)
Definition backlog (r : Relay) : nat :=
  (if raw_done r then 0 else match raw_rx r with Some c => length (buffer c) + bit (0 <? missed c) + bit (sender_gone c) | None => 0 end) +
  (length (buffer (progress_rx r)) + bit (0 <? missed (progress_rx r))).

Definition finish_queued (r : Relay) : Prop := exists p, p ∈ buffer (progress_rx r) /\ is_finished (bp_event p) = true.
(** A connection that stands, with [Finished] on its way. *)
Record finishing (r : Relay) : Prop := {
  fi_running : running r = true;
  fi_socket : socket_open r = true;
  fi_raw : raw_done r = false -> is_Some (raw_rx r);
  fi_queued : finish_queued r;
}.
(** It has ended: all output that was there is sent, then [Finished], then the close. *)
Definition finished_with (output : list bytes) (r : Relay) : Prop :=
  running r = false /\ last (sent r) = Some CloseMsg /\ binaries (sent r) = output /\
  exists p, is_finished (bp_event p) = true /\ forall t, progress_to_string p = Some t -> t ∈ texts (sent r).

Definition one_turn (r r' : Relay) : Prop :=
  finished_with (binaries (sent r) ++ raw_pending r) r' \/
  finishing r' /\ (backlog r' < backlog r)%nat /\ binaries (sent r') ++ raw_pending r' = binaries (sent r) ++ raw_pending r.

Lemma raw_turn r c result c' :
  finishing r -> raw_done r = false -> raw_rx r = Some c -> recv c = Some (result, c') -> one_turn r (on_raw result (with_raw c' r)).
Proof.
  intros [Hrun Hs Hsome (p & Hp & Hf)] Hd Hc Hr. right. unfold recv in Hr. unfold raw_pending, backlog. rewrite Hd, Hc. destruct (0 <? missed c) eqn:Em.
  - injection Hr as <- <-. simpl. rewrite Hd. simpl. split_and!; [|lia|done]. split; simpl; [done|done|by eexists|by exists p].
  - destruct (buffer c) as [|x b]; [destruct (sender_gone c) eqn:Eg; [|done]|]; injection Hr as <- <-.
    + simpl. split_and!; [|lia|done]. split; simpl; [done|done|done|by exists p].
    + unfold on_raw, ws_send. simpl. rewrite Hs. simpl. rewrite Hd. simpl. split_and!.
      * split; simpl; [done|done|by eexists|by exists p].
      * rewrite Em. simpl. lia.
      * by rewrite binaries_snoc, <- app_assoc.
Qed.

(** The order of the frames that end a connection. *)
Lemma progress_turn r : finishing r -> raw_pending r = [] -> exists r', take_progress progress_to_string r = Some r' /\ one_turn r r'.
Proof.
  intros [Hrun Hs Hsome (p & Hp & Hf)] Hpend. unfold take_progress, recv. destruct (Z.ltb_spec 0 (missed (progress_rx r))) as [Hm|Hm].
  - eexists. split; [done|]. right. simpl. split_and!; [|unfold backlog; simpl; apply Z.ltb_lt in Hm; rewrite Hm; simpl; lia|done].
    split; simpl; [done|done|done|by exists p].
  - destruct (buffer (progress_rx r)) as [|x b] eqn:Eb; [by apply elem_of_nil in Hp|]. eexists. split; [done|]. simpl. unfold one_turn. rewrite Hpend, app_nil_r.
    assert (Hback : forall r', raw_done r' = raw_done r -> raw_rx r' = raw_rx r -> buffer (progress_rx r') = b -> missed (progress_rx r') = missed (progress_rx r) ->
      (backlog r' < backlog r)%nat) by (intros r' H1 H2 H3 H4; unfold backlog; rewrite H1, H2, H3, H4, Eb; simpl; lia).
    assert (Hsame : forall r', raw_done r' = raw_done r -> raw_rx r' = raw_rx r -> binaries (sent r') = binaries (sent r) ->
      binaries (sent r') ++ raw_pending r' = binaries (sent r)).
    { intros r' H1 H2 H3. rewrite H3. unfold raw_pending. rewrite H1, H2. unfold raw_pending in Hpend. by rewrite Hpend, app_nil_r. }
    assert (Hrest : is_finished (bp_event x) = false -> p ∈ b).
    { intros Hx. apply elem_of_cons in Hp as [->|Hp]; [congruence|done]. }
    assert (Hlog : is_log (bp_event x) = true -> is_finished (bp_event x) = false) by (by destruct (bp_event x)).
    unfold forward_progress, close_and_break, ws_send. simpl. rewrite Hs. destruct (is_log (bp_event x)) eqn:El.
    + right. split_and!; [|by apply Hback|by apply Hsame]. split; simpl; [done|done|done|exists p; auto].
    + destruct (progress_to_string x) as [t|] eqn:Et; simpl; destruct (is_finished (bp_event x)) eqn:Ef; simpl; rewrite ?Hs; simpl.
      * left. split_and!; simpl; [done|by rewrite last_snoc|by rewrite !binaries_snoc, !app_nil_r|]. exists x. split; [done|]. intros t' Ht'. simplify_eq.
        rewrite !texts_snoc, app_nil_r. apply elem_of_app. right. by apply list_elem_of_singleton.
      * right. split_and!; [split; simpl; [done|done|done|exists p; auto]|by apply Hback|].
        match goal with |- _ ++ raw_pending ?r' = _ => apply (Hsame r') end; [done|done|]. simpl. by rewrite binaries_snoc, app_nil_r.
      * left. split_and!; simpl; [done|by rewrite last_snoc|by rewrite binaries_snoc, app_nil_r|]. exists x. split; [done|]. intros t' Ht'. congruence.
      * right. split_and!; [|by apply Hback|by match goal with |- _ ++ raw_pending ?r' = _ => apply (Hsame r') end]. split; simpl; [done|done|done|exists p; auto].
Qed.

Lemma finishing_turn r : finishing r -> exists r', relay_turn progress_to_string r = Some r' /\ one_turn r r'.
Proof.
  intros Hfin. pose proof Hfin as [Hrun _ Hsome _]. unfold relay_turn. rewrite Hrun. simpl. destruct (raw_done r) eqn:Hd.
  - apply progress_turn; [done|]. unfold raw_pending. by rewrite Hd.
  - destruct (Hsome eq_refl) as [c Hc]. rewrite Hc. destruct (recv c) as [[result c']|] eqn:Er.
    + eexists. split; [done|]. by eapply raw_turn.
    + apply progress_turn; [done|]. unfold raw_pending. rewrite Hd, Hc. unfold recv in Er. destruct (0 <? missed c); [done|]. by destruct (buffer c).
Qed.

Lemma turns_finish n r : (backlog r <= n)%nat -> finishing r -> finished_with (binaries (sent r) ++ raw_pending r) (turns n r).
Proof.
  revert r. induction n as [|n IH]; intros r Hn Hfin; destruct (finishing_turn r Hfin) as (r' & Ht & Hone).
  - destruct Hfin as [_ _ _ (p & Hp & _)]. unfold backlog in Hn. destruct (buffer (progress_rx r)); [by apply elem_of_nil in Hp|simpl in Hn; lia].
  - simpl. rewrite Ht. destruct Hone as [Hdone|(Hfin' & Hb & Heq)].
    + replace (turns n r') with r'; [done|]. destruct n; [done|]. simpl. unfold relay_turn. by rewrite (proj1 Hdone).
    + rewrite <- Heq. apply IH; [lia|done].
Qed.
End Finish.

(** C23.  The progress connection ends: once [Finished] has been broadcast and the
    connection stands, the forwarder stops within as many turns as there are values in
    its buffers, and by then it has sent all output that was waiting, the [Finished]
    event and the close frame - also if it had fallen behind. *)
Theorem relay_finishes progress_to_string r0 acts r :
  fresh_connection r0 -> run progress_to_string r0 acts r -> running r = true -> socket_open r = true -> finish_queued r ->
  finished_with progress_to_string (binaries (sent r) ++ raw_pending r) (turns progress_to_string (backlog r) r).
Proof.
  intros H0 Hrun Hr Hs Hq. destruct (run_inv _ _ _ _ H0 Hrun) as (raw & events & Hinv). apply turns_finish; [done|].
  split; [done|done|apply Hinv|done].
Qed.

(** ** Standard input

    What a client types reaches the container in order and at most once. *)

Definition received_data (e : Event StdinE) : list bytes :=
  match e with Ev NextMessage (Some (ClientText b)) | Ev NextMessage (Some (ClientBinary b)) => [b] | _ => [] end.
Definition stdin_data (e : Event StdinE) : list bytes := match e with Ev (SendStdin b) _ => [b] | _ => [] end.
Definition typed (t : list (Event StdinE)) : list bytes := concat (map received_data t).
Definition delivered_stdin (t : list (Event StdinE)) : list bytes := concat (map stdin_data t).

Lemma forward_stdin_runs tries data : always (fun t (ok : bool) => typed t = [] /\ delivered_stdin t = if ok then [data] else []) (forward_stdin tries data).
Proof.
  induction tries as [|tries IH]; [by apply always_ret|]. simpl. apply always_ask. intros [].
  - apply always_ask. intros []. by apply always_ret.
  - apply always_ask. intros []. exact IH.
Qed.

Lemma stdin_in_order rounds : always (fun t _ => delivered_stdin t `sublist_of` typed t) (stdin_task rounds).
Proof.
  induction rounds as [|rounds IH]; [by apply always_ret|]. simpl. apply always_ask.
  assert (Hfwd : forall data, always (fun t _ => delivered_stdin t `sublist_of` data :: typed t)
    (pbind (forward_stdin STDIN_TRIES data) (fun _ => stdin_task rounds))).
  { intros data. apply always_bind. eapply always_mono; [|apply forward_stdin_runs]. intros t sent [Ht Hs] t' b Hr. specialize (IH t' b Hr).
    unfold typed, delivered_stdin in *. rewrite !map_app, !concat_app, Ht, Hs. destruct sent; simpl; [by constructor|by apply sublist_cons]. }
  intros [[data|data| |]|]; [apply Hfwd|apply Hfwd|by apply always_ret|exact IH|by apply always_ret].
Qed.

(** ** Concrete runs *)

(** A run as a function. *)
Definition exec_action (to_string : BuildProgress -> option string) (r : Relay) (a : Action) : option Relay :=
  match a with
  | PushRaw b => match raw_rx r with Some c => if sender_gone c then None else Some (with_raw (broadcast RAW_CAPACITY b c) r) | None => None end
  | PushProgress p => if sender_gone (progress_rx r) then None else Some (with_progress (broadcast PROGRESS_CAPACITY p (progress_rx r)) r)
  | DropRaw => match raw_rx r with Some c => Some (with_raw (drop_sender c) r) | None => None end
  | DropProgress => Some (with_progress (drop_sender (progress_rx r)) r)
  | BreakSocket => Some (disconnect r)
  | Turn => relay_turn to_string r
  end.
Definition exec_actions (to_string : BuildProgress -> option string) (r : Relay) (acts : list Action) : option Relay :=
  fold_left (fun o a => match o with Some r => exec_action to_string r a | None => None end) acts (Some r).

Lemma exec_actions_run to_string r0 acts r : exec_actions to_string r0 acts = Some r -> run to_string r0 acts r.
Proof.
  revert r. induction acts as [|a acts IH] using rev_ind; intros r He; [injection He as <-; constructor|].
  unfold exec_actions in He. rewrite fold_left_app in He. change (fold_left _ acts (Some r0)) with (exec_actions to_string r0 acts) in He.
  destruct (exec_actions to_string r0 acts) as [r1|] eqn:E; [|done]. simpl in He. apply (run_step _ _ _ r1); [by apply IH|]. destruct a; simpl in He.
  - destruct (raw_rx r1) as [c|] eqn:Hc; [|done]. destruct (sender_gone c) eqn:Hg; [done|]. injection He as <-. by constructor.
  - destruct (sender_gone (progress_rx r1)) eqn:Hg; [done|]. injection He as <-. by constructor.
  - destruct (raw_rx r1) as [c|] eqn:Hc; [|done]. injection He as <-. by constructor.
  - injection He as <-. constructor.
  - injection He as <-. constructor.
  - by constructor.
Qed.

Definition demo_event (e : BuildEvent) : BuildProgress := {| bp_workorder_id := 1%N; bp_trace_id := None; bp_event := e; bp_timestamp := 0 |}.
Definition demo_to_string (p : BuildProgress) : option string := Some (if is_finished (bp_event p) then "finished" else "event").
Definition demo_actions : list Action :=
  [PushRaw [Byte.x41]; PushProgress (demo_event (Log "A")); PushProgress (demo_event (Finished [] [])); PushRaw [Byte.x42]].
Definition demo_relay (acts : list Action) : Relay := default (start_relay None) (exec_actions demo_to_string (start_relay (Some subscribe)) acts).

Example demo_relay_frames :
  sent (demo_relay (demo_actions ++ [Turn; Turn; Turn; Turn])) = [BinaryMsg [Byte.x41]; BinaryMsg [Byte.x42]; TextMsg "finished"; CloseMsg].
Proof. vm_compute. reflexivity. Qed.


Lemma relay_finishes_witness :
  finished_with demo_to_string (binaries (sent (demo_relay demo_actions)) ++ raw_pending (demo_relay demo_actions))
    (turns demo_to_string (backlog (demo_relay demo_actions)) (demo_relay demo_actions)).
Proof.
  apply (relay_finishes demo_to_string (start_relay (Some subscribe)) demo_actions).
  - right. reflexivity.
  - apply exec_actions_run. vm_compute. reflexivity.
  - vm_compute. reflexivity.
  - vm_compute. reflexivity.
  - exists (demo_event (Finished [] [])). split; [right; left|reflexivity].
Defined.

(** Whoever knows the id of an order may follow it and type into its container: there
    is no check of the client, in any authentication mode. *)
Example progress_needs_no_certificate :
  is_ok (ws_progress (set_progress_txs {[3%N]} demo_owned) 3) = true.
Proof. vm_compute. reflexivity. Qed.
