(* ===== verification/Docker.v ===== *)
(** * Worker images and containers ([crates/server/src/docker.rs])

    The Docker manager as programs over requests to the Docker engine ([Effects]): which
    image a system gets, when it is rebuilt, from which Dockerfiles, and how a worker
    container is created, watched and removed.  The engine's answers are arbitrary, so a
    theorem about every run holds for every engine; where a theorem needs the engine to
    do what it is asked, that is a hypothesis on the trace.  The number of processors and
    the printing of a float are parameters. *)

From S2P Require Import Prelude Types World Text MakeConf Versions Config BlobStore Runtime Effects.

Definition BASE_DOCKERFILE_HASH_LABEL : string := "remerge.base.dockerfile.sha256".
Definition WORKER_HASH_LABEL : string := "remerge.worker.sha256".

(** ** Requests to the engine *)

Record ContainerState := { cs_running : option bool; cs_exited_or_dead : bool; cs_exit_code : option Z }.
Record HostConfig := { binds : list string; memory : Z; cpu_shares : Z; network_mode : string }.
Record ContainerCreateBody := {
  image : string; env : list string; host_config : HostConfig;
  tty : bool; open_stdin : bool; attach_stdin : bool; attach_stdout : bool; attach_stderr : bool;
}.
(** A file of a build context: its name, mode and content. *)
Record ContextFile := { cf_path : string; cf_mode : Z; cf_data : bytes }.

(** [InspectImage]: the labels of the image's configuration, if it has any; the items of
    a build stream are successes or an error text. *)
Inductive DockerE : Type -> Type :=
| Connect (socket : string) : DockerE (Result unit Error)
| Info : DockerE (Result unit Error)
| ReadFile (p : path) : DockerE (Result bytes IoError)
| InspectImage (tag : string) : DockerE (option (option (gmap string string)))
| BuildImage (tag : string) (files : list ContextFile) : DockerE (list (Result unit string))
| CreateContainer (name : string) (body : ContainerCreateBody) : DockerE (Result string Error)
| StartContainer (id : string) : DockerE (Result unit Error)
| InspectContainer (id : string) : DockerE (Result (option ContainerState) Error)
| WaitContainer (id : string) : DockerE (Result (option Z) Error)
| StopContainer (id : string) (seconds : Z) : DockerE (Result unit Error)
| RemoveContainer (id : string) : DockerE (Result unit Error)
| RemoveImage (tag : string) : DockerE (Result unit Error)
| AttachContainer (id : string) : DockerE (Result unit Error).
Abbreviation DockerIO A := (Prog DockerE (Result A Error)).

Definition ask_context {A} (ctx : string) (e : DockerE (Result A Error)) : DockerIO A :=
  let* r := ask e in Ret (contextual ctx r).

(** ** The manager *)

Record DockerManager := {
  image_prefix : string;
  base_image_prefix : string;
  dm_binpkg_dir : path;
  dm_worker_binpkg_mount : string;
  dm_gpg_key : option string;
  dm_gpg_home : option string;
  dm_worker_binary : option path;
  worker_binary_hash : option string;
  dm_worker_base_image : option string;
}.

Section Manager.
Context `{Sha256} (CARGO_PKG_VERSION : string).

Definition DockerManager_new (config : ServerConfig) : DockerIO DockerManager :=
  try* _ := ask_context "Failed to connect to Docker" (Connect (docker_socket config)) in
  try* _ := ask_context "Docker ping failed" Info in
  let* hash := match worker_binary config with
    | Some p => let* data := ask (ReadFile p) in Ret (match data with Ok data => Some (sha256_hex data) | Err _ => None end)
    | None => Ret None
    end in
  Ret (Ok {|
    image_prefix := worker_image_prefix config; base_image_prefix := worker_image_prefix config +:+ "-base";
    dm_binpkg_dir := binpkg_dir config; dm_worker_binpkg_mount := worker_binpkg_mount config;
    dm_gpg_key := gpg_key (signing config); dm_gpg_home := gpg_home (signing config);
    dm_worker_binary := worker_binary config; worker_binary_hash := hash; dm_worker_base_image := worker_base_image config |}).

Definition image_tag_suffix (sys : SystemIdentity) : string :=
  let chost_slug := replace_char "." "_" (si_chost sys) in
  let profile_slug := replace_char "/" "-" (si_profile sys) in
  let gcc_short := replace_char "." "_" (default "unknown" (last (split_whitespace (si_gcc_version sys)))) in
  chost_slug +:+ "-" +:+ profile_slug +:+ "-gcc" +:+ gcc_short +:+ "-v" +:+ CARGO_PKG_VERSION.
Definition image_tag (m : DockerManager) (sys : SystemIdentity) : string := image_prefix m +:+ ":" +:+ image_tag_suffix sys.
Definition base_image_tag (m : DockerManager) (sys : SystemIdentity) : string := base_image_prefix m +:+ ":" +:+ image_tag_suffix sys.

(** [info.config.and_then(labels).get(label)] *)
Definition stored_label (info : option (gmap string string)) (label : string) : option string := info ≫= lookup label.

Definition base_image_needs_rebuild (tag expected_hash : string) : Prog DockerE bool :=
  let* info := ask (InspectImage tag) in
  Ret (match info with
       | None => true
       | Some info => negb (bool_decide (stored_label info BASE_DOCKERFILE_HASH_LABEL = Some expected_hash))
       end).

Definition image_needs_rebuild (m : DockerManager) (tag : string) : Prog DockerE bool :=
  let* info := ask (InspectImage tag) in
  Ret (match info with
       | None => true
       | Some info =>
           match worker_binary_hash m with
           | Some expected => negb (bool_decide (stored_label info WORKER_HASH_LABEL = Some expected))
           | None => false
           end
       end).

(** ** Dockerfiles *)

Definition is_cross_arch (arch : string) : bool := negb (bool_decide (arch = "x86_64") || bool_decide (arch = "i686")).
Definition target_arch (sys : SystemIdentity) : string := default "x86_64" (head (split_on "-" (si_chost sys))).

Definition base_image (m : DockerManager) (sys : SystemIdentity) : string :=
  match dm_worker_base_image m with
  | Some override_img => override_img
  | None =>
      if is_cross_arch (target_arch sys) then "gentoo/stage3:latest"
      else if bool_decide (si_arch sys = "arm64") then "gentoo/stage3:arm64-latest" else "gentoo/stage3:latest"
  end.

Definition crossdev_block (sys : SystemIdentity) : string :=
  if is_cross_arch (target_arch sys) then
    let chost := si_chost sys in
    unlines [""; "# ── Crossdev toolchain for " +:+ chost +:+ " ──────────────────────────";
      "# Install crossdev and build the cross toolchain.";
      "# The emerge-" +:+ chost +:+ " wrapper is created automatically.";
      "RUN emerge --oneshot --quiet sys-devel/crossdev && \";
      "    crossdev --stable -t " +:+ chost;
      "";
      "# Set CHOST and CBUILD so portage knows this is a cross-build.";
      "# (remerge-worker will also write these, but having them in the";
      "# base image speeds up subsequent builds.)";
      "RUN echo 'CHOST=" +:+ in_quotes chost +:+ "' >> /etc/portage/make.conf && \";
      "    echo 'CBUILD=" +:+ in_quotes "x86_64-pc-linux-gnu" +:+ "' >> /etc/portage/make.conf"]
  else "".

Definition sync_block (m : DockerManager) : string :=
  if is_some (dm_worker_base_image m) then "# Custom base image — skipping emerge --sync (assumed pre-synced)."
  else unlines ["# Set up portage for building."; "RUN emerge --sync --quiet || true"; "";
         "# Git is needed for syncing git-based overlays (e.g. GURU, custom repos)."] +:+
       "RUN emerge --oneshot --quiet dev-vcs/git || true".

Definition generate_dockerfile (m : DockerManager) (sys : SystemIdentity) : string :=
  unlines ["FROM " +:+ base_image m sys; ""; sync_block m; crossdev_block sys; "# Create binpkg output directory.";
           "RUN mkdir -p " +:+ dm_worker_binpkg_mount m; ""; "WORKDIR /root"].

Definition label_line (label value : string) : string := "LABEL " +:+ label +:+ "=" +:+ in_quotes value.

Definition generate_runtime_dockerfile (m : DockerManager) (base_tag : string) : string :=
  let hash_label := match worker_binary_hash m with Some h => label_line WORKER_HASH_LABEL h | None => "" end in
  unlines ["FROM " +:+ base_tag; ""; "# Install remerge-worker binary from build context.";
           "COPY remerge-worker /usr/local/bin/remerge-worker"; "RUN chmod +x /usr/local/bin/remerge-worker"; "";
           hash_label; ""; "WORKDIR /root"; ""; "ENTRYPOINT [" +:+ in_quotes "/usr/local/bin/remerge-worker" +:+ "]"].

(** ** Building *)

Fixpoint drain_build (items : list (Result unit string)) : Result unit Error :=
  match items with
  | [] => Ok tt
  | Ok _ :: rest => drain_build rest
  | Err e :: _ => Err (Bail ("Image build failed: " +:+ e))
  end.

Definition dockerfile_entry (dockerfile : string) : ContextFile :=
  {| cf_path := "Dockerfile"; cf_mode := 420; cf_data := String.list_byte_of_string dockerfile |}.

Definition build_image_from_context (tag dockerfile : string) (worker_binary_path : option path) : DockerIO unit :=
  try* files := match worker_binary_path with
    | Some binary_path =>
        let* data := ask (ReadFile binary_path) in
        Ret (match data with
             | Ok data => Ok [dockerfile_entry dockerfile; {| cf_path := "remerge-worker"; cf_mode := 493; cf_data := data |}]
             | Err e => Err (IoErr e ("Failed to read worker binary at " +:+ display binary_path))
             end)
    | None => Ret (Ok [dockerfile_entry dockerfile])
    end in
  let* items := ask (BuildImage tag files) in
  Ret (drain_build items).

Definition no_worker_binary : Error := Bail ("No worker binary configured or discovered.  Set `worker_binary` " +:+
  "in server.toml or install the remerge-worker package alongside the server.").

Definition labeled_base_dockerfile (m : DockerManager) (sys : SystemIdentity) : string :=
  let base_dockerfile := generate_dockerfile m sys in
  base_dockerfile +:+ newline_str +:+ label_line BASE_DOCKERFILE_HASH_LABEL (sha256_hex (String.list_byte_of_string base_dockerfile)) +:+ newline_str.

Definition build_worker_image (m : DockerManager) (sys : SystemIdentity) (tag : string) : DockerIO unit :=
  let base_tag := base_image_tag m sys in
  let base_hash := sha256_hex (String.list_byte_of_string (generate_dockerfile m sys)) in
  let* stale := base_image_needs_rebuild base_tag base_hash in
  try* _ := (if stale : bool then build_image_from_context base_tag (labeled_base_dockerfile m sys) None else Ret (Ok tt)) in
  match dm_worker_binary m with
  | None => Ret (Err no_worker_binary)
  | Some binary_path => build_image_from_context tag (generate_runtime_dockerfile m base_tag) (Some binary_path)
  end.

(** ** Containers *)

(** [std::thread::available_parallelism()] as a number, and [{:.1}] of the [f32] with
    these bits or of a converted number. *)
Record Host := { available_parallelism : option Z; f32_of_u32 : Z -> Z; format_load : Z -> string }.

Definition when {A} (b : bool) (x : A) : list A := if b then [x] else [].
Definition of_option {A} (f : A -> string) (o : option A) : list string := match o with Some x => [f x] | None => [] end.

(** The path of a bind mount on the host. *)
Definition host_path (p : path) : string := "/" +:+ display p.

Definition worker_binds (m : DockerManager) (runtime_dir : path) (server_config : ServerConfig) : list string :=
  [host_path (dm_binpkg_dir m) +:+ ":" +:+ dm_worker_binpkg_mount m] ++
  of_option (fun gpg_home => gpg_home +:+ ":/var/cache/remerge/gnupg:ro") (dm_gpg_home m) ++
  [host_path runtime_dir +:+ ":/var/cache/remerge/workorder:ro"; host_path (parity_runtime_dir runtime_dir) +:+ ":/var/cache/remerge/parity"] ++
  of_option (fun repos_dir => host_path repos_dir +:+ ":/var/db/repos:ro") (repos_dir server_config).

Definition worker_env (h : Host) (m : DockerManager) (traceparent : option string) (server_config : ServerConfig) : list string :=
  let jobs := default (default 1 (available_parallelism h)) (parallel_jobs server_config) in
  let load := default (f32_of_u32 h jobs) (load_average server_config) in
  ["REMERGE_WORKORDER_PATH=/var/cache/remerge/workorder/workorder.json"; "REMERGE_PARITY_OUTPUT_DIR=/var/cache/remerge/parity"] ++
  of_option (fun t => "REMERGE_TRACEPARENT=" +:+ t) traceparent ++
  of_option (fun key => "REMERGE_GPG_KEY=" +:+ key) (dm_gpg_key m) ++
  when (is_some (dm_gpg_home m)) "REMERGE_GPG_HOME=/var/cache/remerge/gnupg" ++
  when (skip_worker_sync server_config || is_some (repos_dir server_config)) "REMERGE_SKIP_SYNC=1" ++
  ["REMERGE_PARALLEL_JOBS=" +:+ pretty jobs; "REMERGE_LOAD_AVERAGE=" +:+ format_load h load].

Definition worker_body (h : Host) (m : DockerManager) (tag : string) (runtime_dir : path) (traceparent : option string)
    (server_config : ServerConfig) : ContainerCreateBody := {|
  image := tag; env := worker_env h m traceparent server_config;
  host_config := {| binds := worker_binds m runtime_dir server_config; memory := worker_memory_bytes server_config;
                    cpu_shares := worker_cpu_shares server_config; network_mode := worker_network_mode server_config |};
  tty := true; open_stdin := true; attach_stdin := true; attach_stdout := true; attach_stderr := true |}.

Definition start_worker (h : Host) (m : DockerManager) (container_name tag : string) (runtime_dir : path) (traceparent : option string)
    (server_config : ServerConfig) : DockerIO string :=
  try* id := ask_context "Failed to create worker container"
    (CreateContainer container_name (worker_body h m tag runtime_dir traceparent server_config)) in
  let* started := ask (StartContainer id) in
  match started with
  | Ok _ => Ret (Ok id)
  | Err e => let* _ := ask (RemoveContainer id) in Ret (Err (in_context "Failed to start worker container" e))
  end.

Definition attach_container (id : string) : DockerIO unit := ask_context "Failed to attach to worker container" (AttachContainer id).

Definition inspect_exited_container (id : string) : DockerIO (option Z) :=
  try* inspect := ask_context ("Failed to inspect worker container " +:+ id) (InspectContainer id) in
  Ret (Ok (match inspect with
    | None => None
    | Some st => if bool_decide (cs_running st = Some false) || cs_exited_or_dead st then cs_exit_code st else None
    end)).

Definition wait_container (id : string) : DockerIO Z :=
  try* exited := inspect_exited_container id in
  match exited with
  | Some exit_code => Ret (Ok exit_code)
  | None =>
      let* wait_result := ask (WaitContainer id) in
      match wait_result with
      | Ok (Some status_code) => Ret (Ok status_code)
      | Ok None =>
          try* exited := inspect_exited_container id in
          Ret (ok_or exited (Bail "Container wait stream ended without result"))
      | Err err =>
          try* exited := inspect_exited_container id in
          Ret (match exited with
               | Some exit_code => Ok exit_code
               | None => Err (in_context "Failed to wait for worker container" err)
               end)
      end
  end.

Definition remove_container (id : string) : DockerIO unit := ask_context "Failed to remove container" (RemoveContainer id).
Definition remove_image (tag : string) : DockerIO unit := ask_context "Failed to remove image" (RemoveImage tag).
Definition stop_container (id : string) : DockerIO unit := ask_context "Failed to stop container" (StopContainer id 10).

(** The image of an order ([queue.rs]): [true] if it had to be built. *)
Definition ensure_image (m : DockerManager) (sys : SystemIdentity) : DockerIO bool :=
  let* stale := image_needs_rebuild m (image_tag m sys) in
  if stale : bool then (try* _ := build_worker_image m sys (image_tag m sys) in Ret (Ok true)) else Ret (Ok false).

End Manager.

(** ** Containers: nothing leaks *)

Section Containers.
Context (h : Host) (m : DockerManager) (name tag : string) (runtime : path) (traceparent : option string) (cfg : ServerConfig).
Abbreviation create := (CreateContainer name (worker_body h m tag runtime traceparent cfg)).

(** Starting a worker leaks no container: if it succeeds, the container it
    returns was created with the order's mounts, environment and limits and was
    started; if it fails after the creation, removal of the container was asked for. *)
Theorem start_worker_no_leak t r :
  runs (start_worker h m name tag runtime traceparent cfg) t r ->
  match r with
  | Ok id => t = [Ev create (Ok id); Ev (StartContainer id) (Ok tt)]
  | Err _ => (exists e, t = [Ev create (Err e)]) \/
             exists id e x, t = [Ev create (Ok id); Ev (StartContainer id) (Err e); Ev (RemoveContainer id) x]
  end.
Proof.
  unfold start_worker, ask_context. simpl. intros (created & t1 & -> & Hr). destruct created as [id|e]; simpl in Hr.
  - destruct Hr as (started & t2 & -> & Hr). destruct started as [[]|e]; simpl in Hr; [by destruct Hr as [-> ->]|].
    destruct Hr as (x & t3 & -> & -> & ->). right. by exists id, e, x.
  - destruct Hr as [-> ->]. left. by exists e.
Qed.

(** What the engine said about an exit. *)
Definition exit_reported (id : string) (code : Z) (e : Event DockerE) : Prop :=
  match e with
  | Ev (InspectContainer i) (Ok (Some st)) =>
      i = id /\ cs_exit_code st = Some code /\ (cs_running st = Some false \/ cs_exited_or_dead st = true)
  | Ev (WaitContainer i) (Ok (Some c)) => i = id /\ c = code
  | _ => False
  end.

Lemma inspect_exited_runs id :
  always (fun t r => forall code, r = Ok (Some code) -> Exists (exit_reported id code) t) (inspect_exited_container id).
Proof.
  unfold inspect_exited_container. apply always_ask. intros r. destruct r as [[st|]|e]; simpl; apply always_ret; try done.
  intros code Hc. destruct (bool_decide _ || _) eqn:Eb; [|done]. injection Hc as Hc. left. simpl. split_and!; [done|done|].
  apply orb_true_iff in Eb as [?%bool_decide_eq_true|?]; auto.
Qed.

Lemma wait_container_runs id : always (fun t r => forall code, r = Ok code -> Exists (exit_reported id code) t) (wait_container id).
Proof.
  unfold wait_container. apply always_bind_ok. eapply always_mono; [|apply inspect_exited_runs]. intros t1 [[code|]|e] H1; [| |done].
  - apply always_ret. rewrite app_nil_r. intros ? [= <-]. by apply H1.
  - apply always_ask. intros [[code|]|e].
    + apply always_ret. intros ? [= <-]. apply Exists_app. right. by left.
    + apply always_bind_ok. eapply always_mono; [|apply inspect_exited_runs]. intros t2 [[code|]|e'] H2; [| |done]; apply always_ret; [|done].
      intros ? [= <-]. rewrite app_nil_r. apply Exists_app. right. right. by apply H2.
    + apply always_bind_ok. eapply always_mono; [|apply inspect_exited_runs]. intros t2 [[code|]|e'] H2; [| |done]; apply always_ret; [|done].
      intros ? [= <-]. rewrite app_nil_r. apply Exists_app. right. right. by apply H2.
Qed.
End Containers.

(** ** Images: what a successful build leaves *)

Section Images.
Context `{Sha256} (version : string) (m : DockerManager) (sys : SystemIdentity).
Abbreviation base_tag := (base_image_tag version m sys).
Abbreviation base_hash := (sha256_hex (String.list_byte_of_string (generate_dockerfile m sys))).
Abbreviation all_ok items := (Forall (fun i : Result unit string => is_ok i = true) items).

Lemma drain_build_Ok items : drain_build items = Ok tt -> all_ok items.
Proof. induction items as [|[u|e] items IH]; simpl; intros Hd; [constructor|constructor; auto|done]. Qed.

Definition worker_entry (data : bytes) : ContextFile := {| cf_path := "remerge-worker"; cf_mode := 493; cf_data := data |}.
(** The events of a successful build. *)
Definition built (tag dockerfile : string) (binary : option path) (t : list (Event DockerE)) : Prop :=
  exists items, all_ok items /\ match binary with
    | None => t = [Ev (BuildImage tag [dockerfile_entry dockerfile]) items]
    | Some p => exists data, t = [Ev (ReadFile p) (Ok data); Ev (BuildImage tag [dockerfile_entry dockerfile; worker_entry data]) items]
    end.

Lemma build_image_runs tag dockerfile binary :
  always (fun t r => r = Ok tt -> built tag dockerfile binary t) (build_image_from_context tag dockerfile binary).
Proof.
  unfold build_image_from_context. destruct binary as [p|]; simpl.
  - apply always_ask. intros [data|e]; simpl; [|by apply always_ret]. apply always_ask. intros items. apply always_ret.
    intros Hd. exists items. split; [by apply drain_build_Ok|by exists data].
  - apply always_ask. intros items. apply always_ret. intros Hd. exists items. split; [by apply drain_build_Ok|done].
Qed.

(** The base image was found to be current, or was built. *)
Definition base_ready (t : list (Event DockerE)) : Prop :=
  (exists info, stored_label info BASE_DOCKERFILE_HASH_LABEL = Some base_hash /\ t = [Ev (InspectImage base_tag) (Some info)]) \/
  exists answer t', t = Ev (InspectImage base_tag) answer :: t' /\ built base_tag (labeled_base_dockerfile m sys) None t'.

Lemma build_worker_runs tag :
  always (fun t r => r = Ok tt -> exists t1 t2 p, t = t1 ++ t2 /\ base_ready t1 /\ dm_worker_binary m = Some p /\
    built tag (generate_runtime_dockerfile m base_tag) (Some p) t2) (build_worker_image version m sys tag).
Proof.
  unfold build_worker_image, base_image_needs_rebuild. apply always_bind, always_ask. intros answer. apply always_ret, always_bind_ok.
  set (stale := match answer with None => true | Some info => _ end).
  assert (Hbase : always (fun t r => r = Ok tt -> base_ready (Ev (InspectImage base_tag) answer :: t))
    (if stale then build_image_from_context base_tag (labeled_base_dockerfile m sys) None else Ret (Ok tt))).
  { destruct stale eqn:Es.
    - eapply always_mono; [|apply build_image_runs]. intros t r Hb Hr. right. exists answer, t. split; [done|by apply Hb].
    - apply always_ret. intros _. left. unfold stale in Es. destruct answer as [info|]; [|done]. apply negb_false_iff, bool_decide_eq_true in Es. by exists info. }
  eapply always_mono; [|exact Hbase]. cbv beta. intros t1 [[]|e] Hb; [|done]. destruct (dm_worker_binary m) as [p|]; [|by apply always_ret].
  eapply always_mono; [|apply build_image_runs]. intros t2 r H2 Hr. exists (Ev (InspectImage base_tag) answer :: t1), t2, p.
  split_and!; [done|by apply Hb|done|by apply H2].
Qed.
End Images.

(** ** Rebuilding converges

    An engine that keeps images: [labels_of] gives the labels of an image built from a
    context.  The law is what the Dockerfile reference documents of [LABEL], for the
    shape the two Dockerfiles have.  The file starts with [FROM], so it has no parser
    directive; nothing before the label opens a here-document; the last line before it
    but one is an instruction on its own or the end of one (it begins with a letter and
    has no backslash), so [LABEL] does not continue another instruction; after it come
    only empty lines, [WORKDIR] and [ENTRYPOINT], so that neither another label nor
    another build stage follows; and the context holds no second Dockerfile. *)
Definition is_label_char (c : ascii) : bool := is_ascii_alphanumeric c || Ascii.eqb c ".".
Definition no_heredoc (s : string) : bool := all_chars (fun c => negb (Ascii.eqb c "<")) s.
Definition closing_line (l : string) : bool :=
  match l with
  | "" => false
  | String c _ => is_ascii_alphabetic c && no_heredoc l && all_chars (fun c => negb (Ascii.eqb c "\" || Ascii.eqb c newline)) l
  end.
Definition after_label (l : string) : bool := bool_decide (l = "") || starts_with "WORKDIR " l || starts_with "ENTRYPOINT " l.
Class DockerLabels := labels_of : list ContextFile -> gmap string string.
Class DockerLabelsLaws `{DockerLabels} : Prop :=
  labels_of_line : forall image before closing after label value files,
    no_heredoc (image +:+ before) = true -> closing_line closing = true -> forallb after_label (split_on newline after) = true ->
    all_chars is_label_char label = true -> all_chars is_ascii_hexdigit value = true ->
    Forall (fun f => cf_path f = "remerge-worker") files ->
    labels_of (dockerfile_entry ("FROM " +:+ image +:+ newline_str +:+ before +:+ newline_str +:+ closing +:+ newline_str +:+ newline_str +:+
      label_line label value +:+ newline_str +:+ after) :: files) !! label = Some value.

(** An event that leaves the image alone. *)
Definition spares (tag : string) (e : Event DockerE) : Prop :=
  match e with Ev (BuildImage tag' _) _ | Ev (RemoveImage tag') _ => tag' <> tag | _ => True end.
(** The builds and inspections of a trace. *)
Definition build_of (e : Event DockerE) : option (string * list ContextFile * list (Result unit string)) :=
  match e with Ev (BuildImage tag files) items => Some (tag, files, items) | _ => None end.
Definition inspection_of (e : Event DockerE) : option (string * option (option (gmap string string))) :=
  match e with Ev (InspectImage tag) answer => Some (tag, answer) | _ => None end.
(** In the trace an inspection answers with the labels of the last successful build, and
    as before if the image was left alone. *)
Record keeps_images `{DockerLabels} (t : list (Event DockerE)) : Prop := {
  ki_built : forall t1 build t2 inspection t3 tag files items answer,
    t = t1 ++ build :: t2 ++ inspection :: t3 -> build_of build = Some (tag, files, items) -> inspection_of inspection = Some (tag, answer) ->
    Forall (fun i : Result unit string => is_ok i = true) items -> Forall (spares tag) t2 -> answer = Some (Some (labels_of files));
  ki_same : forall t1 first t2 second t3 tag answer answer',
    t = t1 ++ first :: t2 ++ second :: t3 -> inspection_of first = Some (tag, answer) -> inspection_of second = Some (tag, answer') ->
    Forall (spares tag) t2 -> answer' = answer;
}.

Section Converge.
Context `{Sha256, !Sha256Laws, DockerLabels, !DockerLabelsLaws} (version : string) (m : DockerManager) (sys : SystemIdentity).

(** Build, then ask again. *)
Definition build_and_check (tag : string) : DockerIO (bool * bool) :=
  try* _ := build_worker_image version m sys tag in
  let* runtime := image_needs_rebuild m tag in
  let* base := base_image_needs_rebuild (base_image_tag version m sys) (sha256_hex (String.list_byte_of_string (generate_dockerfile m sys))) in
  Ret (Ok (runtime, base)).

Lemma runtime_label base_tag data files :
  worker_binary_hash m = Some (sha256_hex data) -> no_heredoc base_tag = true -> Forall (fun f => cf_path f = "remerge-worker") files ->
  labels_of (dockerfile_entry (generate_runtime_dockerfile m base_tag) :: files) !! WORKER_HASH_LABEL = Some (sha256_hex data).
Proof.
  intros Hh Hb Hf. unfold generate_runtime_dockerfile. rewrite Hh.
  set (before := newline_str +:+ "# Install remerge-worker binary from build context." +:+ newline_str +:+ "COPY remerge-worker /usr/local/bin/remerge-worker").
  set (after := [""; "WORKDIR /root"; ""; "ENTRYPOINT [" +:+ in_quotes "/usr/local/bin/remerge-worker" +:+ "]"]).
  match goal with |- labels_of (dockerfile_entry ?d :: _) !! _ = _ =>
    replace d with ("FROM " +:+ base_tag +:+ newline_str +:+ before +:+ newline_str +:+ "RUN chmod +x /usr/local/bin/remerge-worker" +:+ newline_str +:+ newline_str +:+
      label_line WORKER_HASH_LABEL (sha256_hex data) +:+ newline_str +:+ unlines after) end.
  - apply labels_of_line; [|done|by vm_compute|done|apply sha256_hex_digits|done]. unfold no_heredoc in *. by rewrite all_chars_app, Hb.
  - unfold before. rewrite !unlines_cons, !string_app_assoc. done.
Qed.

Lemma base_label files :
  no_heredoc (generate_dockerfile m sys) = true -> Forall (fun f => cf_path f = "remerge-worker") files ->
  labels_of (dockerfile_entry (labeled_base_dockerfile m sys) :: files) !! BASE_DOCKERFILE_HASH_LABEL =
  Some (sha256_hex (String.list_byte_of_string (generate_dockerfile m sys))).
Proof.
  intros Hb Hf. unfold labeled_base_dockerfile. set (hash := sha256_hex _).
  set (before := newline_str +:+ sync_block m +:+ newline_str +:+ crossdev_block sys +:+ newline_str +:+ "# Create binpkg output directory." +:+ newline_str +:+
    ("RUN mkdir -p " +:+ dm_worker_binpkg_mount m) +:+ newline_str).
  assert (He : generate_dockerfile m sys = "FROM " +:+ base_image m sys +:+ newline_str +:+ before +:+ newline_str +:+ "WORKDIR /root" +:+ newline_str).
  { unfold generate_dockerfile, before. rewrite !unlines_cons, !string_app_assoc. done. }
  rewrite He, !string_app_assoc.
  apply (labels_of_line (base_image m sys) before "WORKDIR /root" "" BASE_DOCKERFILE_HASH_LABEL hash files); [|done|done|done|apply sha256_hex_digits|done].
  rewrite He in Hb. unfold no_heredoc in *. rewrite all_chars_app. change (all_chars (λ c, negb (c =? "<")%char) (base_image m sys +:+ newline_str +:+ before +:+ newline_str +:+ "WORKDIR /root" +:+ newline_str) = true) in Hb.
  rewrite !all_chars_app in Hb. apply andb_true_iff in Hb as [-> [_ [-> _]%andb_true_iff]%andb_true_iff]. done.
Qed.

Abbreviation tag := (image_tag version m sys).
Abbreviation base_tag := (base_image_tag version m sys).

Lemma tags_differ : base_image_prefix m = image_prefix m +:+ "-base" -> tag <> base_tag.
Proof.
  intros Hb He. apply (f_equal String.length) in He. unfold image_tag, base_image_tag in He. rewrite Hb in He.
  rewrite <- !length_chars, !chars_app, !length_app in He. simpl in He. lia.
Qed.

Lemma build_and_check_runs t r b :
  runs (build_and_check tag) t (Ok (r, b)) -> exists t1 t2 p a1 a2,
    t = t1 ++ t2 ++ [Ev (InspectImage tag) a1; Ev (InspectImage base_tag) a2] /\ base_ready version m sys t1 /\
    built tag (generate_runtime_dockerfile m base_tag) (Some p) t2 /\
    r = match a1 with None => true | Some info => match worker_binary_hash m with
          | Some expected => negb (bool_decide (stored_label info WORKER_HASH_LABEL = Some expected)) | None => false end end /\
    b = match a2 with None => true | Some info => negb (bool_decide (stored_label info BASE_DOCKERFILE_HASH_LABEL =
          Some (sha256_hex (String.list_byte_of_string (generate_dockerfile m sys))))) end.
Proof.
  unfold build_and_check. rewrite runs_bind_ok. intros (ta & tb & [] & -> & Hbuild & Hrest).
  destruct (build_worker_runs version m sys tag ta (Ok tt) Hbuild eq_refl) as (t1 & t2 & p & -> & Hbase & _ & Hrun).
  simpl in Hrest. destruct Hrest as (a1 & ? & -> & a2 & ? & -> & -> & Heq). injection Heq as -> ->.
  exists t1, t2, p, a1, a2. split_and!; try done. by rewrite <- app_assoc.
Qed.

(** C24.  Building converges: with an engine that keeps the images it builds and gives
    them the labels of their Dockerfile, a successful build of a worker image leaves
    nothing to rebuild - neither the runtime image nor its base image is found stale
    afterwards.  The server read its worker binary when it started, and no name in the
    Dockerfiles (base image, CHOST, package mount, tag) opens a here-document. *)
Theorem image_rebuild_converges data t r b :
  base_image_prefix m = image_prefix m +:+ "-base" -> worker_binary_hash m = Some (sha256_hex data) ->
  no_heredoc (generate_dockerfile m sys) = true -> no_heredoc base_tag = true ->
  runs (build_and_check tag) t (Ok (r, b)) -> keeps_images t -> r = false /\ b = false.
Proof.
  intros Hpre Hhash Hplain Hplain' Hrun Hkeep. pose proof (tags_differ Hpre) as Hne.
  destruct (build_and_check_runs _ _ _ Hrun) as (t1 & t2 & p & a1 & a2 & -> & Hbase & (items & Hok & data' & ->) & -> & ->).
  assert (Hmid : forall a, Forall (spares base_tag) ([Ev (ReadFile p) (Ok data'); Ev (BuildImage tag
    [dockerfile_entry (generate_runtime_dockerfile m base_tag); worker_entry data']) items] ++ [Ev (InspectImage tag) a])) by (intros a; by repeat constructor).
  split.
  - assert (Ha : a1 = Some (Some (labels_of [dockerfile_entry (generate_runtime_dockerfile m base_tag); worker_entry data']))).
    { eapply (ki_built _ Hkeep (t1 ++ [Ev (ReadFile p) (Ok data')]) _ []); [by rewrite <- app_assoc|done|done|exact Hok|constructor]. }
    rewrite Ha, Hhash. unfold stored_label. simpl. rewrite (runtime_label _ data) by (done || by repeat constructor). by rewrite bool_decide_true.
  - destruct Hbase as [(info & Hlab & ->)|(answer & t' & -> & items' & Hok' & ->)].
    + assert (a2 = Some info) as -> by (eapply (ki_same _ Hkeep [] (Ev (InspectImage base_tag) (Some info)) _ (Ev (InspectImage base_tag) a2) []); [|done|done|apply (Hmid a1)]; done).
      by rewrite Hlab, bool_decide_true.
    + assert (a2 = Some (Some (labels_of [dockerfile_entry (labeled_base_dockerfile m sys)]))) as ->.
      { eapply (ki_built _ Hkeep [Ev (InspectImage base_tag) answer] (Ev (BuildImage base_tag [dockerfile_entry (labeled_base_dockerfile m sys)]) items') _
          (Ev (InspectImage base_tag) a2) []); [|done|done|exact Hok'|apply (Hmid a1)]; done. }
      unfold stored_label. simpl. rewrite base_label by done. by rewrite bool_decide_true.
Qed.
End Converge.

(** ** A reference engine

    The labels of a Dockerfile, line by line; the last line of a label wins. *)
Definition parse_label (line : string) : option (string * string) :=
  match strip_prefix "LABEL " line with
  | Some r => match split_once "=" r with
              | Some (k, v) => match strip_prefix dq v with
                               | Some v => match split_once quote_char v with Some (v, _) => Some (k, v) | None => None end
                               | None => None
                               end
              | None => None
              end
  | None => None
  end.
Definition add_label (m : gmap string string) (line : string) : gmap string string :=
  match parse_label line with Some (k, v) => <[k := v]> m | None => m end.
#[local] Instance reference_labels : DockerLabels := fun files => match files with
  | f :: _ => fold_left add_label (split_on newline (String.string_of_list_byte (cf_data f))) ∅
  | [] => ∅
  end.

Lemma parse_label_line label value :
  all_chars is_label_char label = true -> all_chars is_ascii_hexdigit value = true -> parse_label (label_line label value) = Some (label, value).
Proof.
  intros Hl Hv. unfold parse_label, label_line. rewrite strip_prefix_app.
  rewrite (proj2 (split_once_Some "=" (label +:+ "=" +:+ in_quotes value) label (in_quotes value))).
  - unfold in_quotes. rewrite strip_prefix_app. rewrite (proj2 (split_once_Some quote_char (value +:+ dq) value "")); [done|].
    split; [done|]. rewrite all_chars_spec, Forall_forall in Hv. intros Hq. by specialize (Hv _ Hq).
  - split; [done|]. rewrite all_chars_spec, Forall_forall in Hl. intros Hq. by specialize (Hl _ Hq).
Qed.

Lemma label_line_no_newline label value :
  all_chars is_label_char label = true -> all_chars is_ascii_hexdigit value = true -> newline ∉ chars (label_line label value).
Proof.
  intros Hl Hv. unfold label_line, in_quotes, dq. rewrite !chars_app, !not_elem_of_app.
  rewrite all_chars_spec, Forall_forall in Hl, Hv. split_and!;
    first [intros Hq; by specialize (Hl _ Hq)|intros Hq; by specialize (Hv _ Hq)|vm_compute; set_solver].
Qed.

Lemma add_label_after m l : after_label l = true -> add_label m l = m.
Proof.
  intros Hl. unfold add_label, parse_label. destruct (strip_prefix "LABEL " l) as [r|] eqn:E; [|done]. apply strip_prefix_Some in E as ->.
  by destruct r.
Qed.

Lemma reference_labels_laws : @DockerLabelsLaws reference_labels.
Proof.
  intros image before closing after label value files _ _ Ha Hl Hv _. unfold labels_of, reference_labels. cbn [cf_data dockerfile_entry].
  rewrite String.string_of_list_byte_of_string.
  set (top := "FROM " +:+ image +:+ newline_str +:+ before +:+ newline_str +:+ closing +:+ newline_str).
  match goal with |- context [split_on newline ?d] => replace d with (top +:+ String newline (label_line label value +:+ String newline after)) end.
  - rewrite !split_on_inner. rewrite (split_on_none newline (label_line _ _)) by by apply label_line_no_newline.
    rewrite !fold_left_app. cbn [fold_left]. rewrite forallb_forall in Ha. set (m' := add_label _ _).
    assert (Hm : m' !! label = Some value) by (unfold m', add_label; rewrite parse_label_line by done; apply lookup_insert_eq). clearbody m'.
    induction (split_on newline after) as [|l ls IH] in Ha, m', Hm |- *; [done|]. cbn [fold_left]. apply IH; [intros x Hx; apply Ha; by right|].
    rewrite add_label_after; [done|]. apply Ha. by left.
  - unfold top. by rewrite !string_app_assoc.
Qed.

(** Other systems, same image: the version of the compiler is taken to be the last word
    of its version line, which is the date of the snapshot. *)
Definition demo_system (profile gcc : string) : SystemIdentity := {|
  si_arch := "amd64"; si_chost := "x86_64-pc-linux-gnu"; si_gcc_version := gcc; si_libc_version := ""; si_kernel_version := "";
  si_python_targets := []; si_profile := profile |}.
Definition demo_manager (hash : option string) : DockerManager := {|
  image_prefix := "remerge-worker"; base_image_prefix := "remerge-worker-base"; dm_binpkg_dir := ["var"; "cache"; "binpkgs"];
  dm_worker_binpkg_mount := "/var/cache/binpkgs"; dm_gpg_key := None; dm_gpg_home := None;
  dm_worker_binary := Some ["usr"; "bin"; "remerge-worker"]; worker_binary_hash := hash; dm_worker_base_image := None |}.

Example same_date_same_image :
  image_tag "0.1.0" (demo_manager None) (demo_system "default/linux/amd64/23.0" "gcc (Gentoo 13.3.1_p20241220 p2) 13.3.1 20241220") =
  image_tag "0.1.0" (demo_manager None) (demo_system "default-linux/amd64-23.0" "gcc (Gentoo 14.2.1_p20241220 p7) 14.2.1 20241220").
Proof. vm_compute. reflexivity. Qed.

#[local] Instance docker_sha : Sha256 := sha256_reference.
#[local] Existing Instance sha256_reference_laws.
#[local] Existing Instance reference_labels_laws.

Definition demo_binary : bytes := [Byte.x7f].
Definition demo_docker : DockerManager := demo_manager (Some (sha256_hex demo_binary)).
Definition demo_sys : SystemIdentity := demo_system "default/linux/amd64/23.0" "14.2.1".
Definition demo_tag : string := image_tag "0.1.0" demo_docker demo_sys.
Definition demo_base_tag : string := base_image_tag "0.1.0" demo_docker demo_sys.
Definition base_files : list ContextFile := [dockerfile_entry (labeled_base_dockerfile demo_docker demo_sys)].
Definition runtime_files (binary : bytes) : list ContextFile :=
  [dockerfile_entry (generate_runtime_dockerfile demo_docker demo_base_tag); worker_entry binary].
(** A first build: neither image is there. *)
Definition first_build (binary : bytes) : list (Event DockerE) :=
  [Ev (InspectImage demo_base_tag) None; Ev (BuildImage demo_base_tag base_files) [Ok tt];
   Ev (ReadFile ["usr"; "bin"; "remerge-worker"]) (Ok binary); Ev (BuildImage demo_tag (runtime_files binary)) [Ok tt];
   Ev (InspectImage demo_tag) (Some (Some (labels_of (runtime_files binary)))); Ev (InspectImage demo_base_tag) (Some (Some (labels_of base_files)))].

Lemma demo_tags_differ : demo_tag <> demo_base_tag.
Proof. by apply tags_differ. Qed.

Lemma two_builds_kept `{DL : DockerLabels} base_tag tag base_files files p data :
  tag <> base_tag -> keeps_images [Ev (InspectImage base_tag) None; Ev (BuildImage base_tag base_files) [Ok tt];
    Ev (ReadFile p) (Ok data); Ev (BuildImage tag files) [Ok tt];
    Ev (InspectImage tag) (Some (Some (labels_of files))); Ev (InspectImage base_tag) (Some (Some (labels_of base_files)))].
Proof.
  intros Hne.
  assert (Hat : forall (t t1 t2 t3 : list (Event DockerE)) e f, t = t1 ++ e :: t2 ++ f :: t3 ->
    t !! length t1 = Some e /\ t !! (S (length t1 + length t2)) = Some f /\ forall k x, t2 !! k = Some x -> t !! (S (length t1 + k)) = Some x).
  { intros t t1 t2 t3 e f ->. split_and!; [by rewrite list_lookup_middle| |].
    - rewrite lookup_app_r by lia. replace (_ - _)%nat with (S (length t2)) by lia. simpl. by rewrite list_lookup_middle.
    - intros k x Hx. rewrite lookup_app_r by lia. replace (_ - _)%nat with (S k) by lia. simpl. by apply lookup_app_l_Some. }
  split.
  - intros t1 build t2 inspection t3 tag' files' items answer (H1 & H2 & _)%Hat Hb Hi _ _.
    destruct (length t1) as [|[|[|[|[|[|i]]]]]]; simpl in H1; simplify_eq; simpl in Hb; simplify_eq;
      destruct (length t2) as [|[|[|[|[|k]]]]]; simpl in H2; simplify_eq; simpl in Hi; simplify_eq; done.
  - intros t1 first t2 second t3 tag' answer answer' (H1 & H2 & Hmid)%Hat Hf Hs Hsp.
    destruct (length t1) as [|[|[|[|[|[|i]]]]]] eqn:Ei; simpl in H1; simplify_eq; simpl in Hf; simplify_eq;
      destruct (length t2) as [|[|[|[|[|k]]]]] eqn:Ek; simpl in H2; simplify_eq; simpl in Hs; simplify_eq; try done.
    destruct (lookup_lt_is_Some_2 t2 0) as [x Hx]; [lia|]. pose proof (Hmid 0%nat x Hx) as Hx'. simpl in Hx'. injection Hx' as <-.
    rewrite Forall_forall in Hsp. exfalso. by apply (Hsp _ (list_elem_of_lookup_2 _ _ _ Hx)).
Qed.

(** The run of a first build, whatever the last inspections answer. *)
Lemma first_build_runs version m sys p data l l' :
  dm_worker_binary m = Some p -> exists r b,
  runs (build_and_check version m sys (image_tag version m sys))
    [Ev (InspectImage (base_image_tag version m sys)) None;
     Ev (BuildImage (base_image_tag version m sys) [dockerfile_entry (labeled_base_dockerfile m sys)]) [Ok tt];
     Ev (ReadFile p) (Ok data);
     Ev (BuildImage (image_tag version m sys) [dockerfile_entry (generate_runtime_dockerfile m (base_image_tag version m sys)); worker_entry data]) [Ok tt];
     Ev (InspectImage (image_tag version m sys)) l; Ev (InspectImage (base_image_tag version m sys)) l'] (Ok (r, b)).
Proof.
  intros Hp. do 2 eexists. unfold build_and_check, build_worker_image, base_image_needs_rebuild, image_needs_rebuild, build_image_from_context, pbind_ok, ask.
  rewrite Hp. cbn [pbind runs]. repeat (do 2 eexists; split; [done|]; cbn [pbind runs]). done.
Qed.

Lemma image_rebuild_converges_witness :
  exists r b, runs (build_and_check "0.1.0" demo_docker demo_sys demo_tag) (first_build demo_binary) (Ok (r, b)) /\ r = false /\ b = false.
Proof.
  destruct (first_build_runs "0.1.0" demo_docker demo_sys ["usr"; "bin"; "remerge-worker"] demo_binary
    (Some (Some (labels_of (runtime_files demo_binary)))) (Some (Some (labels_of base_files))) eq_refl) as (r & b & Hrun).
  exists r, b. split; [exact Hrun|].
  apply (image_rebuild_converges "0.1.0" demo_docker demo_sys demo_binary (first_build demo_binary) r b); [reflexivity|reflexivity|vm_compute; reflexivity|vm_compute; reflexivity|exact Hrun|].
  apply two_builds_kept, demo_tags_differ.
Defined.

Definition demo_host : Host := {| available_parallelism := Some 8; f32_of_u32 n := n; format_load n := pretty n +:+ ".0" |}.
Definition demo_create : DockerE (Result string Error) :=
  CreateContainer "order-1" (worker_body demo_host demo_docker demo_tag ["run"; "1"] None ServerConfig_default).
Lemma start_worker_no_leak_witness :
  let t := [Ev demo_create (Ok "c1"); Ev (StartContainer "c1") (Err (Bail "no space")); Ev (RemoveContainer "c1") (Ok tt)] in
  (exists e, t = [Ev demo_create (Err e)]) \/
  exists id e x, t = [Ev demo_create (Ok id); Ev (StartContainer id) (Err e); Ev (RemoveContainer id) x].
Proof.
  apply (start_worker_no_leak demo_host demo_docker "order-1" demo_tag ["run"; "1"] None ServerConfig_default
    [Ev demo_create (Ok "c1"); Ev (StartContainer "c1") (Err (Bail "no space")); Ev (RemoveContainer "c1") (Ok tt)]
    (Err (Bail "Failed to start worker container"))).
  unfold start_worker, ask_context, pbind_ok, ask. cbn [pbind runs]. repeat (do 2 eexists; split; [reflexivity|]; cbn [pbind runs contextual map_err]).
  split; reflexivity.
Defined.

(** The label names the binary of the server's start; the image gets the binary of the
    build: after an update under a running server the label is wrong. *)
Example updated_binary_wrong_label :
  match cf_data <$> last (runtime_files [Byte.x00]) with
  | Some data => labels_of (runtime_files [Byte.x00]) !! WORKER_HASH_LABEL <> Some (sha256_hex data)
  | None => False
  end.
Proof. by vm_compute. Qed.
