(* ===== verification/Signing.v ===== *)
(** * Package signing and the public information of the server

    [crates/server/src/signing.rs]: the checks of the signing key at the start and the
    export of the public key, by running gpg; and the handlers that tell clients about
    the server and its key ([server_info], [signing_key] and [health] of
    [crates/server/src/api.rs]).  gpg and the file system are parameters; an error text
    that ends with the text of an io error is kept up to that text. *)

From S2P Require Import Prelude Types World Text MakeConf Auth Config Server.

(** ** Keys *)

Record ExportedSigningKey := { configured_key : string; fingerprint : string; armored_key : string }.

(** The output of a command, with whether the standard output is UTF-8. *)
Record GpgOutput := { gpg_success : bool; gpg_stdout : string; gpg_stdout_utf8 : bool; gpg_stderr : string }.
(** [Command::new("gpg").args(..).output()]: [None] if it cannot be run. *)
Class Gpg := run_gpg : list string -> option GpgOutput.

Section Keys.
Context `{Gpg} (is_directory : string -> option bool).

(** The detail of a failure: what gpg wrote, or a default. *)
Definition gpg_detail (o : GpgOutput) (otherwise : string) : string :=
  let stderr := trim (gpg_stderr o) in if is_empty stderr then otherwise else stderr.

Definition validate_gpg_key (gpg_home key : string) : Result unit Error :=
  if is_empty (trim key) then Err (Bail "Configured signing key is empty. Set `gpg_key` to the signing key fingerprint or key ID.")
  else
  match is_directory gpg_home with
  | None => Err (Bail ("Configured GPG home " +:+ gpg_home +:+ " is not readable"))
  | Some false => Err (Bail ("Configured GPG home " +:+ gpg_home +:+ " is not a directory. Fix `gpg_home` before starting remerge-server."))
  | Some true =>
      match run_gpg ["--homedir"; gpg_home; "--batch"; "--list-secret-keys"; "--with-colons"; key] with
      | None => Err (Bail "Failed to run `gpg` for signing-key validation")
      | Some o =>
          if negb (gpg_success o) then
            Err (Bail ("Configured signing key " +:+ key +:+ " is not available in " +:+ gpg_home +:+ ": " +:+
                       gpg_detail o "gpg did not find the configured signing key"))
          else if negb (existsb (fun line => starts_with "sec:" line || starts_with "ssb:" line) (lines (gpg_stdout o))) then
            Err (Bail ("Configured signing key " +:+ key +:+ " is not present as a secret key in " +:+ gpg_home +:+ "."))
          else Ok tt
      end
  end.

Definition validate_signing_config (signing : SigningConfig) : Result unit Error :=
  match gpg_key signing, gpg_home signing with
  | None, None => Ok tt
  | Some key, Some home => validate_gpg_key home key
  | _, _ => Err (Bail "Binary package signing must set both `gpg_key` and `gpg_home` before starting remerge-server.")
  end.

Definition export_public_fingerprint (gpg_home key : string) : Result string Error :=
  match run_gpg ["--homedir"; gpg_home; "--batch"; "--list-keys"; "--with-colons"; "--fingerprint"; key] with
  | None => Err (Bail "Failed to run `gpg` for signing-key fingerprint export")
  | Some o =>
      if negb (gpg_success o) then
        Err (Bail ("Failed to export signing-key fingerprint for " +:+ key +:+ " from " +:+ gpg_home +:+ ": " +:+
                   gpg_detail o "gpg returned a non-zero status"))
      else
      match List.find (starts_with "fpr:") (lines (gpg_stdout o)) ≫= (fun line => split_on ":" line !! 9%nat) with
      | Some fpr => if is_empty (trim fpr) then Err (Bail ("Failed to parse exported signing-key fingerprint for " +:+ key +:+ " from " +:+ gpg_home +:+ "."))
                    else Ok fpr
      | None => Err (Bail ("Failed to parse exported signing-key fingerprint for " +:+ key +:+ " from " +:+ gpg_home +:+ "."))
      end
  end.

Definition export_public_key_block (gpg_home key : string) : Result string Error :=
  match run_gpg ["--homedir"; gpg_home; "--batch"; "--armor"; "--export-options"; "export-minimal"; "--export"; key] with
  | None => Err (Bail "Failed to run `gpg` for signing-key export")
  | Some o =>
      if negb (gpg_success o) then
        Err (Bail ("Failed to export signing public key for " +:+ key +:+ " from " +:+ gpg_home +:+ ": " +:+ gpg_detail o "gpg returned a non-zero status"))
      else if negb (gpg_stdout_utf8 o) then Err (Bail "Exported signing public key was not valid UTF-8")
      else if negb (contains_str "BEGIN PGP PUBLIC KEY BLOCK" (gpg_stdout o)) then
        Err (Bail ("Exported signing public key for " +:+ key +:+ " from " +:+ gpg_home +:+ " was empty or malformed."))
      else Ok (gpg_stdout o)
  end.

Definition export_public_key (signing : SigningConfig) : Result (option ExportedSigningKey) Error :=
  match gpg_key signing, gpg_home signing with
  | None, None => Ok None
  | Some key, Some home =>
      let? fpr := export_public_fingerprint home key in
      let? armored := export_public_key_block home key in
      Ok (Some {| configured_key := key; fingerprint := fpr; armored_key := armored |})
  | _, _ => Err (Bail "Binary package signing must set both `gpg_key` and `gpg_home` before exporting the public key.")
  end.
End Keys.

(** ** What clients are told *)

Record ServerInfoResponse := {
  sir_version : string; binhost_base_url : string; active_workers : Z; queued_workorders : Z; sir_auth_mode : AuthMode;
  binpkg_signing : bool; signing_key_fingerprint : option string; signing_key_endpoint : option string;
}.
Record HealthResponse := { hr_status : string; hr_version : string; uptime_secs : Z }.

Definition is_working (w : Workorder) : bool := match wo_status w with Building | Provisioning => true | _ => false end.
Definition is_pending (w : Workorder) : bool := match wo_status w with Pending => true | _ => false end.

Definition server_info (version : string) (cfg : ServerConfig) (key : option ExportedSigningKey) (s : AppState) : ServerInfoResponse := {|
  sir_version := version; binhost_base_url := binhost_url cfg;
  active_workers := count_if is_working (workorders s); queued_workorders := count_if is_pending (workorders s);
  sir_auth_mode := auth_mode cfg; binpkg_signing := signing_enabled (signing cfg);
  signing_key_fingerprint := fingerprint <$> key; signing_key_endpoint := (fun _ => "/api/v1/signing-key") <$> key |}.

(** The body, of type [application/pgp-keys; charset=utf-8]. *)
Definition signing_key (key : option ExportedSigningKey) : Result string Z :=
  let? key := ok_or key NOT_FOUND in Ok (armored_key key).

Definition health (version : string) (uptime : Z) : HealthResponse := {| hr_status := "ok"; hr_version := version; uptime_secs := uptime |}.

(** ** The announced key is the key that signs *)

(** A fingerprint as gpg lists it. *)
Definition listed_fingerprint `{Gpg} (home key fpr : string) : Prop :=
  exists o line, run_gpg ["--homedir"; home; "--batch"; "--list-keys"; "--with-colons"; "--fingerprint"; key] = Some o /\ gpg_success o = true /\
    line ∈ lines (gpg_stdout o) /\ starts_with "fpr:" line = true /\ split_on ":" line !! 9%nat = Some fpr /\ trim fpr <> "".

Lemma export_fingerprint_Ok `{Gpg} home key fpr : export_public_fingerprint home key = Ok fpr -> listed_fingerprint home key fpr.
Proof.
  unfold export_public_fingerprint. destruct (run_gpg _) as [o|] eqn:Eo; [|done]. destruct (gpg_success o) eqn:Es; [|done]. simpl.
  destruct (List.find _ _) as [line|] eqn:Ef; [|done]. simpl. destruct (split_on ":" line !! 9%nat) as [f|] eqn:E9; [|done].
  destruct (is_empty (trim f)) eqn:Et; [done|]. intros [= <-]. apply find_some in Ef as [Hin Hs]. exists o, line.
  split_and!; try done; [by apply list_elem_of_In|]. by apply is_empty_false.
Qed.

Lemma export_block_Ok `{Gpg} home key armored : export_public_key_block home key = Ok armored -> contains_str "BEGIN PGP PUBLIC KEY BLOCK" armored = true.
Proof.
  unfold export_public_key_block. destruct (run_gpg _) as [o|]; [|done]. destruct (gpg_success o), (gpg_stdout_utf8 o); simpl; try done.
  destruct (contains_str _ _) eqn:E; [|done]. by intros [= <-].
Qed.

(** A server that has started announces its signing key consistently: signing is
    reported as enabled exactly when a key is exported, exactly then the endpoint of
    the key is announced and serves it (404 otherwise), it is a public key block of the
    configured key, and the announced fingerprint is a non-empty one that gpg lists for
    it; and gpg has a secret key for it. *)
Theorem signing_info_consistent `{Gpg} is_directory version cfg key s :
  validate_signing_config is_directory (signing cfg) = Ok tt -> export_public_key (signing cfg) = Ok key ->
  let info := server_info version cfg key s in
  binpkg_signing info = is_some key /\ is_some (signing_key_endpoint info) = is_some key /\ is_ok (signing_key key) = is_some key /\
  forall k, key = Some k -> exists home, gpg_home (signing cfg) = Some home /\ gpg_key (signing cfg) = Some (configured_key k) /\
    signing_key_fingerprint info = Some (fingerprint k) /\ listed_fingerprint home (configured_key k) (fingerprint k) /\
    signing_key key = Ok (armored_key k) /\ contains_str "BEGIN PGP PUBLIC KEY BLOCK" (armored_key k) = true /\
    exists o line, run_gpg ["--homedir"; home; "--batch"; "--list-secret-keys"; "--with-colons"; configured_key k] = Some o /\
      gpg_success o = true /\ line ∈ lines (gpg_stdout o) /\ (starts_with "sec:" line || starts_with "ssb:" line) = true.
Proof.
  unfold validate_signing_config, export_public_key, server_info, signing_key, signing_enabled. simpl.
  destruct (gpg_key (signing cfg)) as [k|], (gpg_home (signing cfg)) as [home|]; try done; [|by intros _ [= <-]].
  intros Hv He. destruct (export_public_fingerprint home k) as [fpr|] eqn:Ef; [|done]. simpl in He.
  destruct (export_public_key_block home k) as [armored|] eqn:Eb; [|done]. simpl in He. injection He as <-.
  split_and!; try done. intros k' [= <-]. exists home. simpl. split_and!; try done; [by apply export_fingerprint_Ok|by eapply export_block_Ok|].
  revert Hv. unfold validate_gpg_key. destruct (is_empty (trim k)); [done|]. destruct (is_directory home) as [[]|]; try done.
  destruct (run_gpg _) as [o|] eqn:Eo; [|done]. destruct (gpg_success o) eqn:Es; [|done]. simpl.
  destruct (existsb _ _) eqn:Ex; [|done]. intros _. apply existsb_exists in Ex as (line & Hin%list_elem_of_In & Hl). by exists o, line.
Qed.

(** ** A concrete run *)

#[local] Instance gpg_reference : Gpg := fun args =>
  Some {| gpg_success := true; gpg_stdout_utf8 := true; gpg_stderr := "";
    gpg_stdout := if existsb (String.eqb "--list-secret-keys") args then "sec:u:255:22:"
                  else if existsb (String.eqb "--list-keys") args then "fpr:::::::::ABCD:" else "-----BEGIN PGP PUBLIC KEY BLOCK-----" |}.
Definition demo_signing : ServerConfig := {|
  binpkg_dir := []; binhost_url := ""; docker_socket := ""; worker_image_prefix := ""; max_workers := 1; max_active_workorders := 1;
  request_body_size_bytes := 1; build_timeout_secs := 1; worker_idle_timeout := 1; worker_memory_bytes := 1; worker_cpu_shares := 1;
  worker_network_mode := ""; worker_binpkg_mount := ""; auth := Auth.AuthConfig_default;
  signing := {| gpg_key := Some "me"; gpg_home := Some "/gnupg" |}; parallel_jobs := None; load_average := None; tls := None; state_dir := [];
  retention_hours := 1; worker_binary := None; max_retained_workorders := 1; log_json := false; repos_dir := None; binpkg_disk_warn_bytes := 1;
  worker_base_image := None; skip_worker_sync := false; snapshot_cache_grace_period_hours := 1; snapshot_cache_hard_delete_hours := 1;
  snapshot_min_retained_bytes := 1 |}.

Lemma signing_info_consistent_witness :
  let key := Some {| configured_key := "me"; fingerprint := "ABCD"; armored_key := "-----BEGIN PGP PUBLIC KEY BLOCK-----" |} in
  binpkg_signing (server_info "0.1.0" demo_signing key demo_owned) = is_some key.
Proof.
  intros key. apply (signing_info_consistent (fun _ => Some true) "0.1.0" demo_signing key demo_owned); vm_compute; reflexivity.
Defined.
