(* ===== verification/Tasks.v ===== *)
(** * Start-up and background tasks of the server ([crates/server/src/main.rs])

    The checks before the server starts, the manual clean-up of the snapshot cache, and
    one tick of each background task: eviction, the reaper of idle worker images and the
    disk usage monitor.  What Docker answers to the removal of an image is an input; the
    order in which a [HashMap] is visited is a parameter. *)

From S2P Require Import Prelude Types World Frame Text Versions Auth Registry Config Metrics BlobStore Persistence Repo TreeStore Server Cleanup Docker.

(** ** Start *)

(** [fs::metadata(path)]: [None] if it cannot be read, or whether it is a regular file. *)
Definition validate_worker_binary (metadata : path -> option bool) (worker_binary : option path) : Result path Error :=
  match worker_binary with
  | None => Err (Bail "No worker binary configured. Install remerge-worker and set `worker_binary` or REMERGE_WORKER_BINARY before starting remerge-server.")
  | Some p =>
      match metadata p with
      | None => Err (Bail ("Configured worker binary " +:+ display p +:+ " is not readable"))
      | Some true => Ok p
      | Some false => Err (Bail ("Configured worker binary " +:+ display p +:+ " is not a regular file. Install remerge-worker or fix `worker_binary` before starting remerge-server."))
      end
  end.

Section Tasks.
Context `{Sha256, SetIter, HashIter, StateCodec, ConfigHash, HttpLib, BlobMetadataCodec, Zstd, TreeCodec}.

(** [--cleanup-now]: one pass, with the references of the state just restored; [Ok None]: it panicked. *)
Definition cleanup_now (cfg : ServerConfig) (w : World) : Result (option SnapshotCleanupSummary) Error * AppState :=
  let s := restore cfg w in
  let active_references := map snd (hash_iter _ (staged_workorder_references s)) in
  let '(r, w) := cleanup_snapshot_storage (state_dir cfg) cfg active_references (disk s) in
  let s := set_disk w s in
  match r with
  | Ok (Some summary) => (Ok (Some summary), count_metric (record_cleanup_reclaimed_bytes (reclaimed_bytes summary)) s)
  | Ok None => (Ok None, s)
  | Err e => (Err e, s)
  end.

(** One tick of [run_eviction_task]; failures are logged.  [None]: the task panicked and is gone. *)
Definition eviction_tick (cfg : ServerConfig) (s : AppState) : option AppState :=
  (fun '(_, s) => on_disk (cleanup_old_versions (binpkg_dir cfg) 3) s) <$> evict_workorders cfg s.

(** [dir_size]: the sizes of the entries of a directory, those of the directories among them
    by [measure]. *)
Definition size_step (measure : option (path -> IO Z)) (dir : path) (total : Z) (name : string) : IO Z :=
  next_entry ;;
  let entry := join dir name in
  do kind <- plain (guarded no_effect (fun w => (Ok (has_file (files w) entry, has_dir (files w) entry), w))) ;;
  if fst kind : bool then do len <- plain (fs_metadata_len entry) ;; ret (u64_wrapping_add total len)
  else if snd kind : bool then
    match measure with
    | None => throw (Bail "out of fuel")
    | Some measure => do n <- measure entry ;; ret (u64_wrapping_add total n)
    end
  else ret total.
Fixpoint dir_size (fuel : nat) (dir : path) : IO Z :=
  do is_dir <- fs_test (fun fs => has_dir fs dir) ;;
  if negb is_dir then ret 0
  else
    do names <- plain (fs_read_dir dir) ;;
    fold_io (size_step (match fuel with O => None | S fuel => Some (dir_size fuel) end) dir) names 0.
(** No path is longer than the longest name. *)
Definition max_depth (fs : gmap path bytes) : nat := list_max (map length (elements (dom fs))).
Definition disk_usage (root : path) : IO Z := fun w => dir_size (max_depth (files w)) root w.

Definition disk_usage_tick (cfg : ServerConfig) (s : AppState) : AppState :=
  let '(r, w) := disk_usage (binpkg_dir cfg) (disk s) in
  let s := set_disk w s in
  match r with
  | Ok bytes => count_metric (set_counter binpkg_disk_usage_bytes bytes) s
  | Err _ => s
  end.
End Tasks.

(** ** The image reaper *)

(** The order in which [image_last_used] is visited. *)
Class ImageIter := image_iter : gmap string Z -> list (string * Z).
Class ImageIterLaws `{ImageIter} : Prop := image_iter_perm : forall m, image_iter m ≡ₚ map_to_list m.

Definition image_tuple_key (tag : string) : string :=
  let suffix := match split_once ":" tag with Some (_, s) => s | None => tag end in
  match rsplit_at "-gcc" suffix with Some (key, _) => key | None => suffix end.

Definition keep_newest (newest : gmap string (string * Z)) (x : string * Z) : gmap string (string * Z) :=
  let '(tag, last_used) := x in
  let tuple_key := image_tuple_key tag in
  match newest !! tuple_key with
  | Some (_, existing) => if existing <? last_used then <[tuple_key := (tag, last_used)]> newest else newest
  | None => <[tuple_key := (tag, last_used)]> newest
  end.

Section Reaper.
Context `{ImageIter}.

Definition newest_per_tuple (images : gmap string Z) : gmap string (string * Z) := fold_left keep_newest (image_iter images) ∅.
Definition protected_images (images : gmap string Z) : gset string := list_to_set (map (fun x => fst (snd x)) (map_to_list (newest_per_tuple images))).

(** What a tick at [now] takes down, from the map under its read lock. *)
Definition expired_images (timeout now : Z) (images : gmap string Z) : list string :=
  map fst (List.filter (fun '(tag, last_used) => (timeout <? Z.max 0 (now - last_used)) && negb (bool_decide (tag ∈ protected_images images)))
             (image_iter images)).

(** The loop over them; whether Docker removed an image is only logged. *)
Definition reap (expired : list string) (s : AppState) : AppState :=
  fold_left (fun s tag => set_image_last_used (delete tag (image_last_used s)) s) expired s.

Definition reaper_tick (cfg : ServerConfig) (s : AppState) : AppState :=
  reap (expired_images (worker_idle_timeout cfg) (now_of s) (image_last_used s)) s.
End Reaper.

Lemma newest_of l k : forall newest, newest = fold_left keep_newest l ∅ ->
  (forall tag t, newest !! k = Some (tag, t) -> (tag, t) ∈ l /\ image_tuple_key tag = k) /\
  (forall tag t, (tag, t) ∈ l -> image_tuple_key tag = k -> exists tag' t', newest !! k = Some (tag', t') /\ t <= t').
Proof.
  induction l as [|[x u] l IH] using rev_ind; intros newest ->.
  { split; [intros tag t Hl; discriminate Hl|intros tag t Hl; by apply elem_of_nil in Hl]. }
  rewrite fold_left_app. cbn [fold_left keep_newest]. destruct (IH _ eq_refl) as [IH1 IH2]. set (newest := fold_left keep_newest l ∅) in *.
  assert (Hold : (forall tag t, newest !! k = Some (tag, t) -> (tag, t) ∈ l ++ [(x, u)] /\ image_tuple_key tag = k)).
  { intros tag t Hl. apply IH1 in Hl as [Hin Hk]. split; [apply elem_of_app; by left|done]. }
  assert (Hself : (x, u) ∈ l ++ [(x, u)]) by (apply elem_of_app; right; by apply list_elem_of_singleton).
  destruct (decide (image_tuple_key x = k)) as [<-|Hne].
  - destruct (newest !! image_tuple_key x) as [[y v]|] eqn:En; [destruct (Z.ltb_spec v u)|].
    + rewrite lookup_insert_eq. split; [by intros tag t [= <- <-]|]. intros tag t [Hin|Hin]%elem_of_app Hk; exists x, u; (split; [done|]).
      * destruct (IH2 tag t Hin Hk) as (tag' & t' & Hl & ?). simplify_eq. lia.
      * apply list_elem_of_singleton in Hin. simplify_eq. lia.
    + rewrite En. split; [by apply Hold|]. intros tag t [Hin|Hin]%elem_of_app Hk; [by apply IH2 in Hin|].
      apply list_elem_of_singleton in Hin. simplify_eq. by exists y, v.
    + rewrite lookup_insert_eq. split; [by intros tag t [= <- <-]|]. intros tag t [Hin|Hin]%elem_of_app Hk; exists x, u; (split; [done|]).
      * by destruct (IH2 tag t Hin Hk) as (? & ? & ? & _).
      * apply list_elem_of_singleton in Hin. simplify_eq. lia.
  - assert (Hk : forall v, match newest !! image_tuple_key x with
      | Some (_, existing) => if existing <? u then <[image_tuple_key x := v]> newest else newest
      | None => <[image_tuple_key x := v]> newest end !! k = newest !! k)
      by (intros v; repeat case_match; rewrite ?lookup_insert_ne by done; done).
    rewrite Hk. split; [by apply Hold|]. intros tag t [Hin|Hin]%elem_of_app Hkey; [by apply IH2 in Hin|].
    apply list_elem_of_singleton in Hin. by simplify_eq.
Qed.

Lemma reap_lookup expired s tag :
  image_last_used (reap expired s) !! tag = if bool_decide (tag ∈ expired) then None else image_last_used s !! tag.
Proof.
  revert s. induction expired as [|x l IH]; intros s; [done|]. cbn [reap fold_left]. unfold reap in IH. rewrite IH. simpl.
  destruct (decide (x = tag)) as [->|Hne].
  - rewrite lookup_delete_eq. rewrite (bool_decide_true (tag ∈ tag :: l)) by by left. by case_bool_decide.
  - rewrite lookup_delete_ne by done. rewrite (bool_decide_ext (tag ∈ x :: l) (tag ∈ l)); [done|]. rewrite elem_of_cons. naive_solver.
Qed.

Section ReaperFacts.
Context `{ImageIter, !ImageIterLaws}.

Lemma image_iter_elem images tag t : (tag, t) ∈ image_iter images <-> images !! tag = Some t.
Proof. rewrite image_iter_perm. apply elem_of_map_to_list. Qed.

Lemma protected_spec images tag : tag ∈ protected_images images <-> exists t, newest_per_tuple images !! image_tuple_key tag = Some (tag, t).
Proof.
  unfold protected_images. rewrite elem_of_list_to_set, list_elem_of_fmap. split.
  - intros ([k [tag' t]] & -> & Hin). apply elem_of_map_to_list in Hin. exists t. simpl. unfold newest_per_tuple in *.
    destruct (newest_of (image_iter images) k _ eq_refl) as [Hn _]. by destruct (Hn _ _ Hin) as [_ ->].
  - intros [t Hn]. exists (image_tuple_key tag, (tag, t)). split; [done|]. by apply elem_of_map_to_list.
Qed.

Lemma expired_spec timeout now images tag :
  tag ∈ expired_images timeout now images <->
  exists t, images !! tag = Some t /\ timeout < Z.max 0 (now - t) /\ ~ tag ∈ protected_images images.
Proof.
  unfold expired_images. rewrite list_elem_of_fmap. split.
  - intros ([tag' t] & -> & Hin). apply list_elem_of_In, filter_In in Hin as [Hin Hc]. apply list_elem_of_In, image_iter_elem in Hin.
    apply andb_true_iff in Hc as [Ht%Z.ltb_lt Hp%negb_true_iff%bool_decide_eq_false]. by exists t.
  - intros (t & Hi & Ht & Hp). exists (tag, t). split; [done|]. apply list_elem_of_In, filter_In.
    split; [by apply list_elem_of_In, image_iter_elem|]. apply andb_true_iff. split; [by apply Z.ltb_lt|]. by apply negb_true_iff, bool_decide_eq_false.
Qed.

(** The image reaper: a tick forgets only images that have been idle longer than
    the timeout, and each of them leaves an image of the same group (CHOST and profile)
    behind that was used at least as recently; an idle image that stays is a most
    recently used one of its group; nothing else of the server changes. *)
Theorem reaper_keeps_newest cfg s :
  let images := image_last_used s in
  let images' := image_last_used (reaper_tick cfg s) in
  set_image_last_used images (reaper_tick cfg s) = s /\ images' ⊆ images /\
  (forall tag t, images !! tag = Some t -> images' !! tag = None ->
     worker_idle_timeout cfg < Z.max 0 (now_of s - t) /\
     exists tag' t', images' !! tag' = Some t' /\ image_tuple_key tag' = image_tuple_key tag /\ t <= t') /\
  (forall tag t tag' t', images' !! tag = Some t -> worker_idle_timeout cfg < Z.max 0 (now_of s - t) ->
     images !! tag' = Some t' -> image_tuple_key tag' = image_tuple_key tag -> t' <= t).
Proof.
  intros images images'. assert (Hl : forall tag, images' !! tag =
    if bool_decide (tag ∈ expired_images (worker_idle_timeout cfg) (now_of s) images) then None else images !! tag) by (intros tag; apply reap_lookup).
  assert (Hkept : forall tag t, images' !! tag = Some t -> images !! tag = Some t) by (intros tag t; rewrite Hl; by case_bool_decide).
  split_and!.
  - unfold reaper_tick. fold images. generalize (expired_images (worker_idle_timeout cfg) (now_of s) images). intros l.
    assert (Hall : forall s', set_image_last_used images (reap l s') = set_image_last_used images s').
    { clear. induction l as [|x l IH]; intros s'; [done|]. cbn [reap fold_left]. unfold reap in IH. by rewrite IH. }
    rewrite Hall. by destruct s.
  - by apply map_subseteq_spec.
  - intros tag t Ht Hn. rewrite Hl, Ht in Hn. case_bool_decide as He; [|done]. apply expired_spec in He as (t2 & Ht2 & Hold & Hp). simplify_eq.
    split; [done|]. destruct (newest_of (image_iter images) (image_tuple_key tag) _ eq_refl) as [N1 N2].
    destruct (N2 tag t) as (tag' & t' & Hnew & Hle); [by apply image_iter_elem|done|]. destruct (N1 _ _ Hnew) as [Hin Hk]. exists tag', t'.
    split_and!; [|done|done]. rewrite Hl, bool_decide_false; [by apply image_iter_elem|]. intros He. apply expired_spec in He as (_ & _ & _ & Hp').
    apply Hp', protected_spec. exists t'. by rewrite Hk.
  - intros tag t tag' t' Ht Hold Ht' Hk. pose proof (Hkept _ _ Ht) as Hi. rewrite Hl in Ht. case_bool_decide as He; [done|].
    assert (Hp : tag ∈ protected_images images).
    { destruct (decide (tag ∈ protected_images images)); [done|]. exfalso. apply He, expired_spec. by exists t. }
    apply protected_spec in Hp as [u Hu]. destruct (newest_of (image_iter images) (image_tuple_key tag) _ eq_refl) as [N1 N2].
    destruct (N1 _ _ Hu) as [Hin%image_iter_elem _]. destruct (N2 tag' t') as (tag2 & t2 & Hn2 & Hle); [by apply image_iter_elem|done|].
    unfold newest_per_tuple in Hu. simplify_eq. congruence.
Qed.
End ReaperFacts.

(** ** Groups of images *)

Lemma rsplit_at_app x a s b : rsplit_at x s = Some b -> rsplit_at x (a +:+ s) = Some (a +:+ fst b, snd b).
Proof.
  intros Hs. induction a as [|c a IH]; [change ("" +:+ s) with s; rewrite Hs; by destruct b|].
  change (String c a +:+ s) with (String c (a +:+ s)). cbn [rsplit_at]. by rewrite IH.
Qed.

(** The image of a system belongs to the group of its CHOST and profile, whatever its
    compiler - if nothing after the compiler's marker looks like another one. *)
Lemma image_tuple_key_tag version m sys :
  ":"%char ∉ chars (image_prefix m) ->
  rsplit_at "-gcc" (replace_char "." "_" (default "unknown" (last (split_whitespace (si_gcc_version sys)))) +:+ "-v" +:+ version) = None ->
  image_tuple_key (image_tag version m sys) = replace_char "." "_" (si_chost sys) +:+ "-" +:+ replace_char "/" "-" (si_profile sys).
Proof.
  intros Hp Hg. unfold image_tuple_key, image_tag.
  rewrite (proj2 (split_once_Some ":" (image_prefix m +:+ ":" +:+ image_tag_suffix version sys) (image_prefix m) (image_tag_suffix version sys))) by done.
  unfold image_tag_suffix. set (rest := replace_char "." "_" (default "unknown" _) +:+ "-v" +:+ version) in *.
  assert (Hr : rsplit_at "-gcc" ("-gcc" +:+ rest) = Some ("", rest)).
  { change ("-gcc" +:+ rest) with (String "-" (String "g" (String "c" (String "c" rest)))). cbn [rsplit_at]. rewrite Hg. done. }
  rewrite <- string_app_assoc, <- string_app_assoc. rewrite (rsplit_at_app _ _ _ _ Hr). simpl. by rewrite string_app_nil_r, string_app_assoc.
Qed.

(** ** The manual clean-up *)

Section CleanupNow.
Context `{Sha256, SetIter, HashIter, !HashIterLaws, StateCodec, ConfigHash, HttpLib, BlobMetadataCodec, Zstd, TreeCodec}.

(** A restored server has staged nothing, so the manual clean-up protects nothing: not
    even the snapshots of the orders that were restored and are to be built. *)
Lemma cleanup_now_unprotected cfg w :
  fst (cleanup_now cfg w) = fst (cleanup_snapshot_storage (state_dir cfg) cfg [] (disk (restore cfg w))).
Proof.
  unfold cleanup_now. replace (staged_workorder_references (restore cfg w)) with (∅ : gmap WorkorderId SnapshotReferenceSet)
    by (unfold restore; repeat case_match; done).
  assert (Hn : hash_iter SnapshotReferenceSet ∅ = []) by (apply Permutation_nil_r; by rewrite (hash_iter_perm SnapshotReferenceSet ∅), map_to_list_empty).
  rewrite Hn. cbn [map]. by destruct (cleanup_snapshot_storage _ _ _ _) as [[[]|]].
Qed.
End CleanupNow.

(** ** Disk usage *)

Definition Zsum (l : list Z) : Z := fold_right Z.add 0 l.
Lemma Zsum_app l k : Zsum (l ++ k) = Zsum l + Zsum k.
Proof. induction l as [|z l IH]; simpl; [done|]. rewrite IH. lia. Qed.
#[global] Instance Zsum_perm : Proper ((≡ₚ) ==> eq) Zsum.
Proof. intros l k H. induction H; simpl; lia. Qed.
Lemma Zsum_zero {A} (f : A -> Z) l : (forall x, x ∈ l -> f x = 0) -> Zsum (map f l) = 0.
Proof.
  induction l as [|x l IH]; intros Hl; simpl; [done|]. rewrite (Hl x), IH; [done| |apply list_elem_of_here].
  intros y Hy. by apply Hl, list_elem_of_further.
Qed.
Lemma Zsum_plus {A} (f g : A -> Z) l : Zsum (map (fun x => f x + g x) l) = Zsum (map f l) + Zsum (map g l).
Proof. induction l as [|x l IH]; simpl; lia. Qed.
Lemma Zsum_swap {A B} (f : A -> B -> Z) l k :
  Zsum (map (fun x => Zsum (map (f x) k)) l) = Zsum (map (fun y => Zsum (map (fun x => f x y) l)) k).
Proof.
  induction l as [|x l IH]; simpl; [by rewrite Zsum_zero|]. by rewrite IH, <- Zsum_plus.
Qed.

(** The bytes of the files below a directory. *)
Definition weight (dir : path) (x : path * bytes) : Z := if is_some (strip_path dir (fst x)) then blen (snd x) else 0.
Definition bytes_under (fs : gmap path bytes) (dir : path) : Z := Zsum (map (weight dir) (map_to_list fs)).
(** Nothing lies below a file. *)
Definition leaves (fs : gmap path bytes) : Prop := forall p q, is_Some (fs !! p) -> is_Some (fs !! (p ++ q)) -> q = [].

Lemma weight_in dir q b : weight dir (dir ++ q, b) = blen b.
Proof. unfold weight. simpl. by rewrite (proj2 (strip_path_Some dir (dir ++ q) q) eq_refl). Qed.
Lemma weight_out dir p b : (forall q, p <> dir ++ q) -> weight dir (p, b) = 0.
Proof. intros Hn. unfold weight. simpl. destruct (strip_path dir p) eqn:E; [|done]. apply strip_path_Some in E. by destruct (Hn l). Qed.

Lemma bytes_under_file fs p b : leaves fs -> fs !! p = Some b -> bytes_under fs p = blen b.
Proof.
  intros Hl Hp. unfold bytes_under. rewrite <- (insert_delete_id fs p b Hp), map_to_list_insert by apply lookup_delete_eq. simpl.
  rewrite Zsum_zero; [rewrite <- (app_nil_r p) at 2; rewrite weight_in; lia|].
  intros [q c] Hq. apply elem_of_map_to_list, lookup_delete_Some in Hq as [Hne Hq]. apply weight_out. intros r ->.
  rewrite (Hl p r) in Hne; [|by eexists|by eexists]. by rewrite app_nil_r in Hne.
Qed.

(** An entry is counted under its own name only. *)
Lemma weight_split dir n q b names : NoDup names -> n ∈ names -> Zsum (map (fun m => weight (join dir m) (dir ++ n :: q, b)) names) = blen b.
Proof.
  assert (Hj : dir ++ n :: q = join dir n ++ q) by (unfold join; by rewrite <- app_assoc).
  assert (Hother : forall m, m <> n -> weight (join dir m) (dir ++ n :: q, b) = 0).
  { intros m Hm. apply weight_out. intros r He. unfold join in He. rewrite <- app_assoc in He. apply app_inv_head in He. by simplify_eq/=. }
  induction names as [|m names IH]; intros Hnd Hin; [by apply elem_of_nil in Hin|]. apply NoDup_cons in Hnd as [Hm Hnd]. simpl.
  apply elem_of_cons in Hin as [<-|Hin].
  - rewrite Zsum_zero; [rewrite Hj, weight_in; lia|]. intros x Hx. apply Hother. by intros ->.
  - rewrite IH, Hother by (done || by intros ->). done.
Qed.

Lemma bytes_under_dir fs dir names : fs !! dir = None -> NoDup names -> (forall n, n ∈ names <-> n ∈ entry_names fs dir) ->
  bytes_under fs dir = Zsum (map (fun n => bytes_under fs (join dir n)) names).
Proof.
  intros Hdir Hnd Hnames. unfold bytes_under. rewrite <- (Zsum_swap (fun x n => weight (join dir n) x)). f_equal. apply map_ext_in.
  intros [p b] Hx. apply list_elem_of_In, elem_of_map_to_list in Hx.
  destruct (strip_path dir p) as [[|n q]|] eqn:E.
  - apply strip_path_Some in E as ->. rewrite app_nil_r in Hx. congruence.
  - apply strip_path_Some in E as ->. rewrite weight_in, weight_split; [done|done|]. apply Hnames, elem_of_entry_names. exists q. by eexists.
  - rewrite weight_out, Zsum_zero; [done| |].
    + intros n _. apply weight_out. intros q ->. unfold join in E. rewrite <- app_assoc in E.
      by rewrite (proj2 (strip_path_Some dir _ _) eq_refl) in E.
    + intros q ->. by rewrite (proj2 (strip_path_Some dir (dir ++ q) q) eq_refl) in E.
Qed.

Lemma max_depth_le fs p : is_Some (fs !! p) -> (length p <= max_depth fs)%nat.
Proof.
  intros Hp. unfold max_depth. pose proof (list_max_le (map length (elements (dom fs))) (list_max (map length (elements (dom fs))))) as [Hle _].
  specialize (Hle ltac:(lia)). rewrite Forall_forall in Hle. apply Hle. apply list_elem_of_fmap. exists p. split; [done|]. by apply elem_of_elements, elem_of_dom.
Qed.

Section Usage.
Context `{Sha256, SetIter, !SetIterLaws}.

Lemma plain_quiet {A} (m : FsOp A) w a : m w = (Ok a, w) -> plain m w = (Ok a, w).
Proof. unfold plain, with_context. by intros ->. Qed.

(** The entries of a directory, if the directories among them are measured right. *)
Lemma size_steps measure dir names total w :
  faults w = [] -> leaves (files w) -> (forall n, n ∈ names -> n ∈ entry_names (files w) dir) ->
  (forall n, files w !! join dir n = None -> has_dir (files w) (join dir n) = true ->
     exists f, measure = Some f /\ f (join dir n) w = (Ok (bytes_under (files w) (join dir n) mod u64_modulus), w)) ->
  fold_io (size_step measure dir) names (total mod u64_modulus) w =
  (Ok ((total + Zsum (map (fun n => bytes_under (files w) (join dir n)) names)) mod u64_modulus), w).
Proof.
  intros Hq Hl Hin Hrec. revert total. induction names as [|n names IH]; intros total; cbn [fold_io map Zsum fold_right]; [by rewrite Z.add_0_r|].
  rewrite (bind_Ok _ _ ((total + bytes_under (files w) (join dir n)) mod u64_modulus) w w).
  { rewrite IH, Z.add_assoc; [done|]. intros m Hm. by apply Hin, list_elem_of_further. }
  unfold size_step. rewrite (bind_Ok _ _ tt w w) by (by apply next_entry_quiet). cbv zeta.
  rewrite (bind_Ok _ _ (has_file (files w) (join dir n), has_dir (files w) (join dir n)) w w) by (apply plain_quiet; by rewrite guarded_quiet).
  cbn [fst snd]. unfold has_file. destruct (files w !! join dir n) as [b|] eqn:Ef; cbn [is_some].
  - rewrite (bytes_under_file _ _ _ Hl Ef).
    rewrite (bind_Ok _ _ (blen b) w w); [unfold ret, u64_wrapping_add; by rewrite Zplus_mod_idemp_l|].
    apply plain_quiet. unfold fs_metadata_len. rewrite guarded_quiet by done. by rewrite Ef.
  - pose proof (Hin n (list_elem_of_here _ _)) as Hn. apply elem_of_entry_names in Hn as ([|m q] & Hn);
      [unfold join in Ef; rewrite Ef in Hn; by destruct Hn|].
    assert (Hd : has_dir (files w) (join dir n) = true).
    { apply has_dir_true. exists m. apply elem_of_entry_names. exists q. unfold join. by rewrite <- app_assoc. }
    rewrite Hd. destruct (Hrec n Ef Hd) as (f & -> & Hf). rewrite (bind_Ok _ _ _ _ _ Hf). unfold ret, u64_wrapping_add. by rewrite <- Zplus_mod.
Qed.

Lemma dir_size_quiet fuel : forall dir w, faults w = [] -> leaves (files w) -> (max_depth (files w) <= fuel + length dir)%nat -> files w !! dir = None ->
  dir_size fuel dir w = (Ok (bytes_under (files w) dir mod u64_modulus), w).
Proof.
  induction fuel as [|fuel IH]; intros dir w Hq Hl Hfuel Hdir.
  all: assert (Hb : bytes_under (files w) dir = Zsum (map (fun n => bytes_under (files w) (join dir n)) (set_iter (entry_names (files w) dir))))
    by (apply bytes_under_dir; [done|apply NoDup_set_iter|intros n; apply elem_of_set_iter]).
  all: cbn [dir_size]; rewrite (bind_Ok _ _ (has_dir (files w) dir) w w) by (by apply fs_test_quiet).
  all: destruct (has_dir (files w) dir) eqn:Ed; cbn [negb].
  2,4: assert (set_iter (entry_names (files w) dir) = []) as Hn by (apply elem_of_nil_inv; intros n Hn; apply elem_of_set_iter in Hn;
    rewrite (proj2 (has_dir_true _ _)) in Ed by (by exists n); done); rewrite Hb, Hn; done.
  all: rewrite (bind_Ok _ _ (set_iter (entry_names (files w) dir)) w w) by (apply plain_quiet; unfold fs_read_dir; by rewrite guarded_quiet).
  all: rewrite Hb; change 0 with (0 mod u64_modulus) at 1; rewrite size_steps; [done|done|done|intros n Hn; by apply elem_of_set_iter in Hn|].
  all: intros n Hn Hd; apply has_dir_true in Hd as [m Hm]; apply elem_of_entry_names in Hm as (q & Hm); apply max_depth_le in Hm;
    unfold join in Hm; rewrite !length_app in Hm; simpl in Hm.
  - lia.
  - exists (dir_size fuel). split; [done|]. apply IH; [done|done| |done]. unfold join. rewrite length_app. simpl. lia.
Qed.

(** The monitor sets the gauge to the bytes of the files in the package directory. *)
Lemma disk_usage_exact root w : faults w = [] -> leaves (files w) -> files w !! root = None ->
  disk_usage root w = (Ok (bytes_under (files w) root mod u64_modulus), w).
Proof. intros Hq Hl Hr. unfold disk_usage. apply dir_size_quiet; try done. lia. Qed.
End Usage.

(** ** Concrete runs *)

Definition image_iter_reference : ImageIter := map_to_list.
Lemma image_iter_reference_laws : @ImageIterLaws image_iter_reference.
Proof. intros m. done. Qed.
#[local] Existing Instance image_iter_reference.

Definition old_image : string := "remerge-worker:x86_64-pc-linux-gnu-default-gcc13-v0.1.0".
Definition new_image : string := "remerge-worker:x86_64-pc-linux-gnu-default-gcc14-v0.1.0".
Definition demo_images : AppState := set_image_last_used {[ old_image := 0; new_image := 100 ]} (demo_state ∅ ∅ demo_late).

Example demo_reaped : image_last_used (reaper_tick ServerConfig_default demo_images) = {[ new_image := 100 ]}.
Proof. vm_compute. reflexivity. Qed.

(** An order takes the image up again between the two phases of a tick: it was looked at
    without the lock that the removal takes, and goes although it is in use. *)
Example image_reaped_in_use :
  let expired := expired_images (worker_idle_timeout ServerConfig_default) (now_of demo_images) (image_last_used demo_images) in
  let in_use := set_image_last_used (<[old_image := now_of demo_images]> (image_last_used demo_images)) demo_images in
  expired = [old_image] /\ image_last_used in_use !! old_image = Some (now_of demo_images) /\ image_last_used (reap expired in_use) !! old_image = None.
Proof. vm_compute. done. Qed.
