(* ===== verification/Startup.v ===== *)
(** * The start of the server ([crates/server/src/main.rs], [config.rs] TLS)

    [main] from the command line to the listening socket, as a program over the
    requests it makes: the checks, the restored state, the background tasks ([Tasks]),
    the TLS key material, the socket.  Parsing and checking of the key material is
    rustls's and is a parameter. *)

From S2P Require Import Prelude Types World Auth Config Repo Server Cleanup Signing Tasks Effects.

(** The command line. *)
Record ServerCli := { sc_config : string; sc_listen : string; sc_cleanup_now : bool }.

Inductive BackgroundTask := ProcessQueue | RunPeriodicSave (seconds : Z) | RunEvictionTask | RunImageReaper | RunDiskUsageMonitor.

(** rustls: the certificate chain, the private key, and the configuration made of them. *)
Class Rustls := {
  CertificateChain : Type; PrivateKey : Type; RustlsConfig : Type;
  certs_from_pem : bytes -> option CertificateChain;
  key_from_pem : bytes -> option PrivateKey;
  single_cert : CertificateChain -> PrivateKey -> option RustlsConfig;
}.

Section Startup.
Context `{Rustls}.

Inductive StartE : Type -> Type :=
| LoadServerConfig (file : string) : StartE (Result ServerConfig Error)
| InitTracing (service : string) (json : bool) : StartE (Result unit Error)
| StatWorker (file : path) : StartE (option bool)
| ValidateSigning (cfg : SigningConfig) : StartE (Result unit Error)
| NewState (cfg : ServerConfig) : StartE (Result AppState Error)
| CleanupSnapshots (s : AppState) : StartE (Result SnapshotCleanupSummary Error)
| InitRepo (dir : path) : StartE (Result unit Error)
| Spawn (task : BackgroundTask) : StartE unit
| ReadPem (file : path) : StartE (Result bytes IoError)
| BindSocket (address : string) : StartE (Result unit Error)
| Serve : StartE (Result unit Error)
| ServeTls (tls : RustlsConfig) : StartE Error.

Definition load_rustls_config (tls : TlsConfig) : Prog StartE (Result RustlsConfig Error) :=
  let* cert_pem := ask (ReadPem (tls_cert tls)) in
  try* cert_pem := Ret (map_err (fun k => IoErr k ("Failed to read TLS cert: " +:+ display (tls_cert tls))) cert_pem) in
  let* key_pem := ask (ReadPem (tls_key tls)) in
  try* key_pem := Ret (map_err (fun k => IoErr k ("Failed to read TLS key: " +:+ display (tls_key tls))) key_pem) in
  Ret (let? certs := ok_or (certs_from_pem cert_pem) (ParseErr "Failed to parse TLS certificate") in
       let? key := ok_or (key_from_pem key_pem) (ParseErr "No private key found in key file") in
       ok_or (single_cert certs key) (ParseErr "Invalid TLS configuration")).

(** The loop over the connections ends only when accepting fails. *)
Definition serve_tls (address : string) (tls : TlsConfig) : Prog StartE (Result unit Error) :=
  try* tls_config := load_rustls_config tls in
  try* _ := ask (BindSocket address) in
  let* e := ask (ServeTls tls_config) in
  Ret (Err e).

Definition background_tasks : list BackgroundTask := [ProcessQueue; RunPeriodicSave 60; RunEvictionTask; RunImageReaper; RunDiskUsageMonitor].
Fixpoint spawn_all (tasks : list BackgroundTask) : Prog StartE unit :=
  match tasks with [] => Ret tt | t :: rest => let* _ := ask (Spawn t) in spawn_all rest end.

Definition validate_worker (worker_binary : option path) : Prog StartE (Result path Error) :=
  match worker_binary with
  | Some p => let* st := ask (StatWorker p) in Ret (validate_worker_binary (fun _ => st) worker_binary)
  | None => Ret (validate_worker_binary (fun _ => None) None)
  end.

Definition listen (address : string) (cfg : ServerConfig) : Prog StartE (Result unit Error) :=
  match tls cfg with
  | Some t => serve_tls address t
  | None => try* _ := ask (BindSocket address) in ask Serve
  end.

Definition server_main (cli : ServerCli) : Prog StartE (Result unit Error) :=
  try* cfg := ask (LoadServerConfig (sc_config cli)) in
  try* _ := ask (InitTracing "remerge-server" (log_json cfg)) in
  try* _ := validate_worker (worker_binary cfg) in
  try* _ := ask (ValidateSigning (signing cfg)) in
  try* s := ask (NewState cfg) in
  if sc_cleanup_now cli then try* _ := ask (CleanupSnapshots s) in Ret (Ok tt)
  else
  try* _ := ask (InitRepo (binpkg_dir cfg)) in
  let* _ := spawn_all background_tasks in
  listen (sc_listen cli) cfg.

(** ** What comes before the socket *)

(** The server is reachable from here on. *)
Definition listens (ev : Event StartE) : bool := match ev with Ev (BindSocket _) _ | Ev Serve _ | Ev (ServeTls _) _ => true | _ => false end.
Definition spawns (ev : Event StartE) : bool := match ev with Ev (Spawn _) _ => true | _ => false end.
Definition silent (ev : Event StartE) : Prop := listens ev = false.

(** Every event that listens is preceded by what [P] says. *)
Definition listening (P : list (Event StartE) -> Event StartE -> Prop) (t : list (Event StartE)) : Prop :=
  forall before ev after, t = before ++ ev :: after -> listens ev = true -> P before ev.

Lemma listening_silent P t : Forall silent t -> listening P t.
Proof.
  intros Ht before ev after -> He. rewrite Forall_app, Forall_cons in Ht. destruct Ht as (_ & Hev & _). unfold silent in Hev. congruence.
Qed.
Lemma listening_app P t1 t2 : Forall silent t1 -> listening (fun before => P (t1 ++ before)) t2 -> listening P (t1 ++ t2).
Proof.
  intros H1 H2 before ev after Ht He. apply app_eq_inv in Ht as [(k & -> & Hk)|(k & -> & Hk)].
  - destruct k as [|e k]; [|injection Hk as <- _; rewrite Forall_app, Forall_cons in H1; destruct H1 as (_ & Hev & _); unfold silent in Hev; congruence].
    specialize (H2 [] ev after (eq_sym Hk) He). by rewrite !app_nil_r in H2.
  - by apply (H2 k ev after).
Qed.
Lemma listening_mono (P Q : list (Event StartE) -> Event StartE -> Prop) t : (forall b e, P b e -> Q b e) -> listening P t -> listening Q t.
Proof. intros HPQ Ht before ev after -> He. by eapply HPQ, Ht. Qed.

(** A step that does not listen, then the rest. *)
Lemma listening_step {A B} P (p : Prog StartE (Result A Error)) (f : A -> Prog StartE (Result B Error)) t r :
  only silent p -> (forall t1 a t2 r, runs p t1 (Ok a) -> runs (f a) t2 r -> listening (fun before => P (t1 ++ before)) t2) ->
  runs (pbind_ok p f) t r -> listening P t.
Proof.
  intros Hp Hf (t1 & t2 & a & -> & H1 & H2)%runs_bind. apply listening_app; [by eapply only_runs|].
  destruct a as [a|e]; [by eapply Hf|]. destruct H2 as [-> _]. by apply listening_silent.
Qed.

Lemma spawned tasks t u : runs (spawn_all tasks) t u -> Forall silent t /\ forall task, task ∈ tasks -> Ev (Spawn task) tt ∈ t.
Proof.
  revert t. induction tasks as [|x tasks IH]; intros t; cbn [spawn_all].
  - intros [-> _]. split; [constructor|]. by intros ? ?%elem_of_nil.
  - intros (t1 & t2 & [] & -> & ->%runs_ask & H2)%runs_bind. destruct (IH t2 H2) as [Hs Hall]. split; [by constructor|].
    intros task [->|Hin]%elem_of_cons; [left|right; by apply Hall].
Qed.

(** The configuration rustls gets is made of the configured files. *)
Definition key_material (tls : TlsConfig) (before : list (Event StartE)) (c : RustlsConfig) : Prop :=
  exists cert_pem key_pem certs key, Ev (ReadPem (tls_cert tls)) (Ok cert_pem) ∈ before /\ Ev (ReadPem (tls_key tls)) (Ok key_pem) ∈ before /\
    certs_from_pem cert_pem = Some certs /\ key_from_pem key_pem = Some key /\ single_cert certs key = Some c.

Lemma rustls_loaded t0 t c : runs (load_rustls_config t0) t (Ok c) -> key_material t0 t c.
Proof.
  unfold load_rustls_config. intros (t1 & t2 & cert & -> & ->%runs_ask & H2)%runs_bind. apply runs_bind_ok in H2 as (t3 & t4 & cert_pem & -> & [-> Hc] & H4).
  apply runs_bind in H4 as (t5 & t6 & key & -> & ->%runs_ask & H6). apply runs_bind_ok in H6 as (t7 & t8 & key_pem & -> & [-> Hk] & [-> Hr]).
  destruct cert as [cp|], key as [kp|]; try discriminate. cbn in Hc, Hk. injection Hc as ->. injection Hk as ->.
  destruct (certs_from_pem cp) as [certs|] eqn:Ec; [|discriminate]. destruct (key_from_pem kp) as [k|] eqn:Ek; [|discriminate]. cbn in Hr.
  destruct (single_cert certs k) as [c'|] eqn:Es; [|discriminate]. injection Hr as ->. exists cp, kp, certs, k. set_solver.
Qed.

(** How the socket is served. *)
Definition served_as (cfg : ServerConfig) (before : list (Event StartE)) (ev : Event StartE) : Prop :=
  match ev with
  | Ev Serve _ => tls cfg = None
  | Ev (ServeTls c) _ => exists t, tls cfg = Some t /\ key_material t before c
  | Ev (BindSocket _) _ => forall t, tls cfg = Some t -> exists c, key_material t before c
  | _ => True
  end.

Lemma listen_served address cfg t r : runs (listen address cfg) t r -> listening (served_as cfg) t.
Proof.
  unfold listen, serve_tls. destruct (tls cfg) as [t0|] eqn:Et.
  - apply listening_step; [unfold load_rustls_config; solve_only|]. intros t1 c t2 r2 H1%rustls_loaded H2.
    apply runs_bind in H2 as (t3 & t4 & b & -> & ->%runs_ask & H4). intros before ev after Ht He.
    destruct before as [|e before]; injection Ht as <- Ht; [rewrite app_nil_r; cbn; rewrite Et; intros t5 [= <-]; by exists c|].
    destruct b as [[]|e']; [|destruct H4 as [-> _]; by destruct before].
    apply runs_bind in H4 as (t5 & t6 & e2 & -> & ->%runs_ask & [-> _]).
    destruct before as [|? [|]]; [|discriminate Ht..]. injection Ht as <- _. cbn. exists t0. split; [done|].
    destruct H1 as (cp & kp & certs & k & Hcp & Hkp & ?). exists cp, kp, certs, k. set_solver.
  - intros (t3 & t4 & b & -> & ->%runs_ask & H4)%runs_bind before ev after Ht He.
    destruct before as [|e before]; injection Ht as <- Ht; [cbn; congruence|].
    destruct b as [[]|e']; [|destruct H4 as [-> _]; by destruct before]. apply runs_ask in H4 as ->.
    destruct before as [|? [|]]; [|discriminate Ht..]. injection Ht as <- _. done.
Qed.

(** Everything the server needs is in place. *)
Definition ready_to_serve (cli : ServerCli) (before : list (Event StartE)) (ev : Event StartE) : Prop :=
  exists cfg s p, Ev (LoadServerConfig (sc_config cli)) (Ok cfg) ∈ before /\
    worker_binary cfg = Some p /\ Ev (StatWorker p) (Some true) ∈ before /\
    Ev (ValidateSigning (signing cfg)) (Ok tt) ∈ before /\ Ev (NewState cfg) (Ok s) ∈ before /\ Ev (InitRepo (binpkg_dir cfg)) (Ok tt) ∈ before /\
    (forall task, task ∈ background_tasks -> Ev (Spawn task) tt ∈ before) /\ served_as cfg before ev.

Lemma worker_valid b t p : runs (validate_worker b) t (Ok p) -> b = Some p /\ Ev (StatWorker p) (Some true) ∈ t.
Proof.
  unfold validate_worker. destruct b as [q|]; [|intros [_ Hr]; discriminate].
  intros (t1 & t2 & st & -> & ->%runs_ask & [-> Hr])%runs_bind. cbn in Hr. destruct st as [[|]|]; try discriminate. injection Hr as ->. set_solver.
Qed.

Lemma served_as_grow cfg pre before ev : served_as cfg before ev -> served_as cfg (pre ++ before) ev.
Proof.
  assert (Hk : forall t c, key_material t before c -> key_material t (pre ++ before) c).
  { intros t c (cp & kp & certs & k & ? & ? & ?). exists cp, kp, certs, k. set_solver. }
  destruct ev as [X [] a]; cbn; try done.
  - intros Hb t Ht. destruct (Hb t Ht) as [c Hc]. exists c. by apply Hk.
  - intros (t & ? & Hc). exists t. split; [done|by apply Hk].
Qed.

(** C40.  The server is reachable only when it is ready: whatever the requests of [main]
    answer, a socket is bound and served only after the configuration was loaded, the
    worker binary was found to be a regular file, the signing configuration was
    accepted, the state was restored, the package directory exists and all five
    background tasks run; where TLS is configured it is served with the configured
    certificate and key and never in the clear; and with --cleanup-now no socket is
    bound and no task is started. *)
Theorem serves_only_when_ready cli t r :
  runs (server_main cli) t r ->
  listening (ready_to_serve cli) t /\ (sc_cleanup_now cli = true -> Forall (fun ev => listens ev = false /\ spawns ev = false) t).
Proof.
  intros Hrun. split.
  - revert Hrun. unfold server_main. apply listening_step; [solve_only|]. intros t1 cfg t2 r2 ->%runs_ask.
    apply listening_step; [solve_only|]. intros t3 [] t4 r4 ->%runs_ask.
    apply listening_step; [unfold validate_worker; destruct (worker_binary cfg); solve_only|]. intros t5 p t6 r6 [Hp Hstat]%worker_valid.
    apply listening_step; [solve_only|]. intros t7 [] t8 r8 ->%runs_ask. apply listening_step; [solve_only|]. intros t9 s t10 r10 ->%runs_ask.
    destruct (sc_cleanup_now cli).
    { intros H10. apply listening_silent. eapply only_runs; [|exact H10]. solve_only. }
    apply listening_step; [solve_only|]. intros t11 [] t12 r12 ->%runs_ask (t13 & t14 & u & -> & [Hsil Hsp]%spawned & H14)%runs_bind.
    apply listening_app; [done|]. eapply listening_mono; [|by eapply listen_served]. cbv beta. intros before ev Hs. exists cfg, s, p.
    split_and!; try set_solver. do 7 apply served_as_grow. done.
  - intros Hc. eapply only_runs; [|exact Hrun]. unfold server_main, validate_worker. rewrite Hc.
    repeat first [ apply only_bind_ok; [|intros ?] | apply only_bind; [|intros ?] | apply only_ret | apply only_ask; [intros ?; by split|intros ?]
                 | case_match ].
Qed.
End Startup.

(** ** A start *)

Definition no_rustls : Rustls := {| CertificateChain := unit; PrivateKey := unit; RustlsConfig := unit;
  certs_from_pem b := if bool_decide (b = []) then None else Some tt; key_from_pem _ := Some tt; single_cert _ _ := Some tt |}.
#[local] Existing Instance no_rustls.

(** The defaults with a worker binary and a certificate. *)
Definition tls_config : ServerConfig := let c := ServerConfig_default in {|
  binpkg_dir := binpkg_dir c; binhost_url := binhost_url c; docker_socket := docker_socket c; worker_image_prefix := worker_image_prefix c;
  max_workers := max_workers c; max_active_workorders := max_active_workorders c; request_body_size_bytes := request_body_size_bytes c;
  build_timeout_secs := build_timeout_secs c; worker_idle_timeout := worker_idle_timeout c; worker_memory_bytes := worker_memory_bytes c;
  worker_cpu_shares := worker_cpu_shares c; worker_network_mode := worker_network_mode c; worker_binpkg_mount := worker_binpkg_mount c;
  auth := auth c; signing := signing c; parallel_jobs := None; load_average := None;
  tls := Some {| tls_cert := ["etc"; "cert.pem"]; tls_key := ["etc"; "key.pem"] |}; state_dir := state_dir c;
  retention_hours := retention_hours c; worker_binary := Some ["usr"; "bin"; "remerge-worker"];
  max_retained_workorders := max_retained_workorders c; log_json := false; repos_dir := None; binpkg_disk_warn_bytes := binpkg_disk_warn_bytes c;
  worker_base_image := None; skip_worker_sync := false; snapshot_cache_grace_period_hours := snapshot_cache_grace_period_hours c;
  snapshot_cache_hard_delete_hours := snapshot_cache_hard_delete_hours c; snapshot_min_retained_bytes := snapshot_min_retained_bytes c |}.

(** A machine on which everything succeeds. *)
Definition demo_start (cfg : ServerConfig) (X : Type) (e : StartE X) : X :=
  match e with
  | LoadServerConfig _ => Ok cfg
  | InitTracing _ _ => Ok tt
  | StatWorker _ => Some true
  | ValidateSigning _ => Ok tt
  | NewState _ => Ok (demo_state ∅ ∅ (BlobStore.demo_world []))
  | CleanupSnapshots _ => Err (Bail "")
  | InitRepo _ => Ok tt
  | Spawn _ => tt
  | ReadPem _ => Ok (string_bytes "pem")
  | BindSocket _ => Ok tt
  | Serve => Ok tt
  | ServeTls _ => Bail "accept"
  end.

Definition demo_server_cli (cleanup : bool) : ServerCli := {| sc_config := "/etc/remerge/server.toml"; sc_listen := "0.0.0.0:7654"; sc_cleanup_now := cleanup |}.
Definition started (cfg : ServerConfig) : list (Event StartE) := fst (interp (demo_start cfg) (server_main (demo_server_cli false))).

Lemma serves_only_when_ready_witness :
  listening (ready_to_serve (demo_server_cli false)) (started tls_config) /\ existsb listens (started tls_config) = true /\
  (** Without a worker binary nothing listens. *)
  existsb listens (started ServerConfig_default) = false.
Proof.
  split; [|by split; vm_compute]. apply (serves_only_when_ready (demo_server_cli false) (started tls_config) (snd (interp (demo_start tls_config) (server_main (demo_server_cli false))))).
  apply interp_runs.
Defined.

(** The tasks run before the socket is bound: when the address is taken, the process
    ends with an error after the queue processor was started on the restored orders. *)
Example tasks_start_before_the_socket :
  let blocked X (e : StartE X) : X := match e with BindSocket _ => Err (Bail "Address already in use") | e => demo_start tls_config _ e end in
  existsb spawns (fst (interp blocked (server_main (demo_server_cli false)))) = true /\
  is_ok (snd (interp blocked (server_main (demo_server_cli false)))) = false.
Proof. by split; vm_compute. Qed.
