(* ===== verification/Builder.v ===== *)
(** * The worker: crossdev, the build and the worker's main function

    [crates/worker/src/{builder,crossdev,main}.rs].  Programs over the worker's
    requests to its container: environment variables, files, child processes, and
    the configuration and capture phases, the first of which is
    [WorkerSetup].  JSON parsing of the staged workorder is a parameter. *)

From S2P Require Import Prelude Types Validation Registry World Text PortageFiles MakeConf WorkerSetup Effects.

(** ** Requests *)

Record Command := { cmd_program : string; cmd_args : list string }.
Record Exit := { ex_success : bool; ex_status : string; ex_stdout : string }.

(** What the worker finds at /etc/portage/repos.conf: the contents of a directory's
    entries or of the file, [None] where one cannot be read. *)
Inductive ReposConf := ConfDir (entries : option (list (option string))) | ConfFile (content : option string) | ConfAbsent.

Inductive WorkerE : Type -> Type :=
| EnvVar (name : string) : WorkerE (option string)
| ReadWorkorder (path : string) : WorkerE (Result string IoError)
| Spawn (c : Command) : WorkerE (Result Exit IoError)
| ListReposConf : WorkerE ReposConf
| PathExists (location name : string) : WorkerE bool
| ApplyConfig (config : PortageConfig) (worker_chost : string) (gpg_key gpg_home : option string) : WorkerE (Result unit Error)
| CaptureParity (dir : string) : WorkerE (Result unit Error)
| CaptureDistfiles (dir : string) : WorkerE (Result unit Error).

(** [Command::new(program).args(args).status().await.context(ctx)] *)
Definition spawn (ctx program : string) (args : list string) : Prog WorkerE (Result Exit Error) :=
  let* r := ask (Spawn {| cmd_program := program; cmd_args := args |}) in
  Ret (map_err (fun k => IoErr k ctx) r).

(** ** [crossdev.rs] *)

Definition chost_arch (chost : string) : string := match split_on "-" chost with a :: _ => a | [] => chost end.

Definition emerge_command (worker_chost target_chost : string) : string * bool :=
  if bool_decide (chost_arch worker_chost = chost_arch target_chost) then ("emerge", false)
  else ("emerge-" +:+ target_chost, true).

Definition ensure_crossdev_installed : Prog WorkerE (Result unit Error) :=
  let* check := ask (Spawn {| cmd_program := "which"; cmd_args := ["crossdev"] |}) in
  if match check with Ok o => ex_success o | Err _ => false end then Ret (Ok tt)
  else
    try* status := spawn "Failed to install crossdev" "emerge" ["--oneshot"; "--quiet"; "sys-devel/crossdev"] in
    if ex_success status then Ret (Ok tt)
    else Ret (Err (Bail ("Failed to install crossdev (emerge returned " +:+ ex_status status +:+ ")"))).

(** The wrapper is looked for; its absence is only logged. *)
Definition setup_crossdev (target_chost : string) : Prog WorkerE (Result unit Error) :=
  try* _ := ensure_crossdev_installed in
  try* status := spawn "Failed to run crossdev" "crossdev" ["--stable"; "-t"; target_chost] in
  if ex_success status then
    let* _ := ask (Spawn {| cmd_program := "which"; cmd_args := ["emerge-" +:+ target_chost] |}) in Ret (Ok tt)
  else Ret (Err (Bail ("crossdev --stable -t " +:+ target_chost +:+ " failed with status " +:+ ex_status status))).

Definition detect_worker_chost : Prog WorkerE (Result string Error) :=
  try* output := spawn "Failed to run gcc -dumpmachine" "gcc" ["-dumpmachine"] in
  let chost := trim (ex_stdout output) in
  if ex_success output && negb (is_empty chost) then Ret (Ok chost)
  else
    try* output := spawn "Failed to run uname" "uname" ["-m"] in
    let arch := trim (ex_stdout output) in
    Ret (Ok (if bool_decide (arch = "x86_64") then "x86_64-pc-linux-gnu"
             else if bool_decide (arch = "aarch64") then "aarch64-unknown-linux-gnu"
             else arch +:+ "-unknown-linux-gnu")).

(** ** [builder.rs] *)

Definition fixed_args : list string :=
  ["--buildpkg"; "--usepkg"; "--verbose"; "--ask=n"; "--color=y"; "--keep-going"; "--newuse"; "--update";
   "--autounmask-write"; "--autounmask-continue"].
Definition dropped_args : list string :=
  ["--pretend"; "-p"; "--getbinpkg"; "-g"; "--newuse"; "-N"; "--update"; "-u"; "--autounmask-write";
   "--autounmask-continue"; "--depclean"; "--unmerge"; "-C"; "--deselect"; "--sync"; "--info"; "--search"; "-s";
   "--searchdesc"; "-S"; "--config"; "--rage-clean"].

Definition build_emerge_args (emerge_args : list string) : list string :=
  fold_left (fun args arg => if bool_decide (arg ∈ dropped_args) then args else args ++ [arg]) emerge_args fixed_args.

Definition build_emerge_invocation (w : Workorder) (emerge_cmd : string) : string * list string :=
  (emerge_cmd, build_emerge_args (wo_emerge_args w) ++ wo_atoms w).

(** [requires_auth] *)
Definition requires_auth (uri : string) : bool :=
  let lower := lowercase uri in
  if starts_with "ssh://" lower || starts_with "git+ssh://" lower then true
  else
    negb (contains_str "://" uri) &&
    match split_once "@" uri with
    | Some (user, rest) =>
        match rest with String c _ => is_ascii_alphanumeric c | EmptyString => false end && negb (contains_char "/" user)
    | None => false
    end.

Definition discover_configured_repos : Prog WorkerE (list WorkerRepoSection) :=
  let* conf := ask ListReposConf in
  Ret (match conf with
       | ConfDir (Some entries) => concat (map worker_parse_repo_sections_full (omap id entries))
       | ConfFile (Some content) => worker_parse_repo_sections_full content
       | _ => []
       end).

Definition is_repo_populated (location : string) : Prog WorkerE bool := ask (PathExists location "profiles").

Definition sync_missing_repo (repo : WorkerRepoSection) : Prog WorkerE (Result unit Error) :=
  let* populated := is_repo_populated (wrs_location repo) in
  if (populated : bool) then Ret (Ok tt)
  else if match wrs_sync_uri repo with Some uri => requires_auth uri | None => false end then Ret (Ok tt)
  else
    try* _ := spawn ("Failed to sync overlay " +:+ wrs_name repo) "emaint" ["sync"; "-r"; wrs_name repo] in
    Ret (Ok tt).
Definition sync_missing_repos : Prog WorkerE (Result unit Error) :=
  let* repos := discover_configured_repos in pfor sync_missing_repo repos.

(** A failing sync is only logged. *)
Definition sync_portage : Prog WorkerE (Result unit Error) :=
  let* skip := ask (EnvVar "REMERGE_SKIP_SYNC") in
  match skip with
  | Some _ => sync_missing_repos
  | None => try* _ := spawn "Failed to sync portage" "emerge" ["--sync"; "--quiet"; "--ask=n"] in Ret (Ok tt)
  end.

Definition build_packages (w : Workorder) (emerge_cmd : string) : Prog WorkerE (Result unit Error) :=
  try* _ := sync_portage in
  let '(program, args) := build_emerge_invocation w emerge_cmd in
  try* status := spawn ("Failed to spawn " +:+ program) program args in
  if ex_success status then Ret (Ok tt)
  else Ret (Err (Bail (program +:+ " exited with status " +:+ ex_status status))).

(** ** [main.rs] *)

Section Main.
Context (parse_workorder : string -> option Workorder).

Definition capture_phase : Prog WorkerE (Result unit Error) :=
  let* dir := ask (EnvVar "REMERGE_PARITY_OUTPUT_DIR") in
  match dir with
  | Some dir =>
      let* r := ask (CaptureParity dir) in
      try* _ := Ret (contextual ("Failed to capture final-state parity into " +:+ dir) r) in
      let* r := ask (CaptureDistfiles dir) in
      Ret (contextual ("Failed to capture fetched distfiles into " +:+ dir) r)
  | None => Ret (Ok tt)
  end.

(** What [main] does with the order it read. *)
Definition process (w : Workorder) : Prog WorkerE (Result unit Error) :=
  try* worker_chost := detect_worker_chost in
  let target_chost := mc_chost (pc_make_conf (wo_portage_config w)) in
  let '(emerge_cmd, is_cross) := emerge_command worker_chost target_chost in
  try* _ := (if (is_cross : bool) then setup_crossdev target_chost else Ret (Ok tt)) in
  let* gpg_key := ask (EnvVar "REMERGE_GPG_KEY") in
  let* gpg_home := ask (EnvVar "REMERGE_GPG_HOME") in
  let* applied := ask (ApplyConfig (wo_portage_config w) worker_chost gpg_key gpg_home) in
  try* _ := Ret (contextual "Failed to apply portage configuration" applied) in
  try* _ := build_packages w emerge_cmd in
  capture_phase.

Definition worker_main : Prog WorkerE (Result unit Error) :=
  let* path := ask (EnvVar "REMERGE_WORKORDER_PATH") in
  match path with
  | None => Ret (Err (Bail "REMERGE_WORKORDER_PATH environment variable not set"))
  | Some path =>
      let* text := ask (ReadWorkorder path) in
      match text with
      | Err k => Ret (Err (IoErr k ("Failed to read staged workorder JSON from " +:+ path)))
      | Ok text =>
          match parse_workorder text with
          | None => Ret (Err (ParseErr "Failed to parse workorder JSON"))
          | Some w => process w
          end
      end
  end.
End Main.

(** ** The arguments of the build *)

Lemma build_emerge_args_filter xs : build_emerge_args xs = fixed_args ++ List.filter (fun a => negb (bool_decide (a ∈ dropped_args))) xs.
Proof.
  unfold build_emerge_args. generalize fixed_args. induction xs as [|x xs IH]; intros acc; simpl; [by rewrite app_nil_r|].
  rewrite IH. destruct (bool_decide (x ∈ dropped_args)); simpl; [done|]. by rewrite <- app_assoc.
Qed.

Lemma elem_of_build_args xs a : a ∈ build_emerge_args xs <-> a ∈ fixed_args \/ (a ∈ xs /\ a ∉ dropped_args).
Proof.
  rewrite build_emerge_args_filter, elem_of_app. rewrite (list_elem_of_In (List.filter _ _)), filter_In, <- list_elem_of_In.
  by rewrite negb_true_iff, bool_decide_eq_false.
Qed.

(** ** What a finished worker has done *)

(** The commands that build packages: their first argument says so. *)
Definition is_build (ev : Event WorkerE) : bool :=
  match ev with Ev (Spawn c) _ => bool_decide (head (cmd_args c) = Some "--buildpkg") | _ => false end.
Definition no_build (ev : Event WorkerE) : Prop := is_build ev = false.

Lemma detect_no_build : only no_build detect_worker_chost.
Proof. unfold detect_worker_chost. cbv zeta. solve_only. Qed.
Lemma setup_no_build target_chost : only no_build (setup_crossdev target_chost).
Proof. unfold setup_crossdev, ensure_crossdev_installed. solve_only. Qed.
Lemma sync_no_build : only no_build sync_portage.
Proof. unfold sync_portage, sync_missing_repos, discover_configured_repos, sync_missing_repo, is_repo_populated. solve_only. Qed.
Lemma capture_no_build : only no_build capture_phase.
Proof. unfold capture_phase. solve_only. Qed.

(** The build of order [w] on a worker for [worker_chost], and the configuration
    that was applied before. *)
Definition build_event (w : Workorder) (worker_chost : string) (exit : Exit) : Event WorkerE :=
  let '(program, args) := build_emerge_invocation w (fst (emerge_command worker_chost (mc_chost (pc_make_conf (wo_portage_config w))))) in
  Ev (Spawn {| cmd_program := program; cmd_args := args |}) (Ok exit).

(** Both captures succeeded if the server asked for them. *)
Definition captured (t : list (Event WorkerE)) : Prop :=
  t = [Ev (EnvVar "REMERGE_PARITY_OUTPUT_DIR") None] \/
  exists d, t = [Ev (EnvVar "REMERGE_PARITY_OUTPUT_DIR") (Some d); Ev (CaptureParity d) (Ok tt); Ev (CaptureDistfiles d) (Ok tt)].

Lemma capture_ok t u : runs capture_phase t (Ok u) -> captured t.
Proof.
  unfold capture_phase. intros Hr. apply runs_bind in Hr as (t1 & t2 & dir & -> & H1%runs_ask & H2). subst.
  destruct dir as [d|]; [|left; destruct H2 as [-> _]; done]. right. exists d.
  inv_runs. subst. repeat match goal with H : _ = contextual _ _ |- _ => symmetry in H; apply contextual_ok in H end.
  subst. by repeat match goal with u : unit |- _ => destruct u end.
Qed.

Lemma spawn_ok ctx program args t exit :
  runs (spawn ctx program args) t (Ok exit) <-> t = [Ev (Spawn {| cmd_program := program; cmd_args := args |}) (Ok exit)].
Proof.
  unfold spawn. rewrite runs_bind. split.
  - intros (t1 & t2 & r & -> & H1%runs_ask & [-> Hr]). subst. destruct r; simplify_eq/=. done.
  - intros ->. exists [Ev (Spawn {| cmd_program := program; cmd_args := args |}) (Ok exit)], [], (Ok exit). by rewrite runs_ask.
Qed.

(** The build is the last thing [build_packages] does. *)
Lemma build_packages_ok w worker_chost t u :
  runs (build_packages w (fst (emerge_command worker_chost (mc_chost (pc_make_conf (wo_portage_config w)))))) t (Ok u) ->
  exists sync exit, t = sync ++ [build_event w worker_chost exit] /\ Forall no_build sync /\ ex_success exit = true.
Proof.
  unfold build_packages, build_event, build_emerge_invocation. intros Hr. apply runs_bind_ok in Hr as (t1 & t2 & [] & -> & H1 & H2).
  apply runs_bind_ok in H2 as (t2' & t3 & exit & -> & H2%spawn_ok & H3). subst. exists t1, exit.
  destruct (ex_success exit) eqn:E; destruct H3 as [-> H3]; [|done]. rewrite app_nil_r. split_and!; try done.
  by apply (only_runs _ _ _ _ sync_no_build H1).
Qed.

(** C30.  A worker that reports success has built: it read and parsed the staged order,
    applied the order's configuration, then ran the build of that order once, which
    exited successfully, and captured the final state if the server asked for it;
    no other command of the run was a build. *)
Theorem worker_success_means_built parse_workorder t :
  runs (worker_main parse_workorder) t (Ok tt) ->
  exists w path text worker_chost gpg_key gpg_home exit before sync after,
    t = Ev (EnvVar "REMERGE_WORKORDER_PATH") (Some path) :: Ev (ReadWorkorder path) (Ok text) :: before ++
        Ev (ApplyConfig (wo_portage_config w) worker_chost gpg_key gpg_home) (Ok tt) :: sync ++
        build_event w worker_chost exit :: after /\
    parse_workorder text = Some w /\ ex_success exit = true /\ captured after /\
    Forall no_build before /\ Forall no_build sync /\ Forall no_build after.
Proof.
  unfold worker_main. intros Hr. apply runs_bind in Hr as (t1 & t2 & path & -> & H1%runs_ask & H2).
  destruct path as [path|]; [|by destruct H2]. apply runs_bind in H2 as (t2' & t3 & text & -> & H2%runs_ask & H3).
  destruct text as [text|]; [|by destruct H3]. destruct (parse_workorder text) as [w|] eqn:Hw; [|by destruct H3].
  unfold process in H3. apply runs_bind_ok in H3 as (d & t4 & wc & -> & Hd & H3). cbv zeta in H3.
  pose proof (build_packages_ok w wc) as Hbuild.
  destruct (emerge_command wc (mc_chost (pc_make_conf (wo_portage_config w)))) as [cmd cross]. simpl fst in *.
  apply runs_bind_ok in H3 as (s & t5 & [] & -> & Hs & H3).
  apply runs_bind in H3 as (k1 & t6 & gpg_key & -> & Hk1%runs_ask & H3).
  apply runs_bind in H3 as (k2 & t7 & gpg_home & -> & Hk2%runs_ask & H3).
  apply runs_bind in H3 as (ap & t8 & applied & -> & Hap%runs_ask & H3).
  apply runs_bind_ok in H3 as (e1 & t9 & [] & -> & [-> Hctx] & H3).
  symmetry in Hctx. apply contextual_ok in Hctx as ->.
  apply runs_bind_ok in H3 as (b & after & [] & -> & Hb & Hc).
  apply Hbuild in Hb as (sync & exit & -> & Hsync & Hexit).
  exists w, path, text, wc, gpg_key, gpg_home, exit, (d ++ s ++ k1 ++ k2), sync, after. subst.
  split_and!; try done.
  - simpl. by rewrite <- !app_assoc.
  - by apply (capture_ok _ tt).
  - rewrite !Forall_app. split_and!; [by apply (only_runs _ _ _ _ detect_no_build Hd)| |by repeat constructor..].
    destruct cross; [by apply (only_runs _ _ _ _ (setup_no_build _) Hs)|]. by destruct Hs as [-> _].
  - by apply (only_runs _ _ _ _ capture_no_build Hc).
Qed.

(** A container in which everything succeeds, for the order [demo_order]. *)
Definition demo_order : Workorder := {|
  wo_id := 1%N; wo_client_id := 2%N; wo_role := Main; wo_atoms := ["app-misc/hello"]; wo_emerge_args := ["-v"; "app-misc/hello"];
  wo_portage_config := Registry.demo_portage_config; wo_system_id := Registry.demo_system; wo_trace_context := None;
  wo_status := Building; wo_created_at := 0; wo_updated_at := 0 |}.
Definition demo_container (X : Type) (e : WorkerE X) : X :=
  match e with
  | EnvVar name => if bool_decide (name = "REMERGE_WORKORDER_PATH") then Some "/order.json"
                   else if bool_decide (name = "REMERGE_PARITY_OUTPUT_DIR") then Some "/out" else None
  | ReadWorkorder _ => Ok "order"
  | Spawn c => Ok {| ex_success := true; ex_status := "0"; ex_stdout := "x86_64-pc-linux-gnu" |}
  | ListReposConf => ConfAbsent
  | PathExists _ _ => true
  | ApplyConfig _ _ _ _ => Ok tt
  | CaptureParity _ => Ok tt
  | CaptureDistfiles _ => Ok tt
  end.

Lemma worker_success_means_built_witness :
  exists worker_chost exit, ex_success exit = true /\
    build_event demo_order worker_chost exit ∈ fst (interp demo_container (worker_main (fun _ => Some demo_order))).
Proof.
  destruct (worker_success_means_built (fun _ => Some demo_order) (fst (interp demo_container (worker_main (fun _ => Some demo_order)))))
    as (w & path & text & wc & k & h & exit & before & sync & after & Ht & Hw & Hexit & _).
  - apply (interp_runs demo_container (worker_main (fun _ => Some demo_order))).
  - exists wc, exit. split; [done|]. injection Hw as <-. rewrite Ht. do 2 right. apply elem_of_app. right. right.
    apply elem_of_app. right. left.
Defined.

(** Of the options the worker refuses to forward, none that came with the emerge
    arguments reaches the build; those it sets itself do, and so does every atom of
    the order, whatever it looks like. *)
Theorem refused_options_only_from_atoms w emerge_cmd a :
  a ∈ dropped_args ->
  (a ∈ snd (build_emerge_invocation w emerge_cmd) <-> a ∈ fixed_args \/ a ∈ wo_atoms w).
Proof.
  intros Ha. unfold build_emerge_invocation. simpl snd. rewrite elem_of_app, elem_of_build_args. tauto.
Qed.

Lemma refused_options_only_from_atoms_witness :
  "--unmerge" ∉ snd (build_emerge_invocation demo_order "emerge").
Proof.
  intros Hin. apply (refused_options_only_from_atoms demo_order "emerge" "--unmerge") in Hin.
  - destruct Hin as [Hin|Hin]; apply (bool_decide_eq_true_2 (_ ∈ _)) in Hin; by vm_compute in Hin.
  - apply (bool_decide_eq_true_1 (_ ∈ _)). by vm_compute.
Defined.

(** An order can still smuggle in such an option as a package atom: [--unmerge] is a
    bare package name for [validate_atom], and the worker appends the atoms to the
    command line unfiltered.  Bundled short options pass the filter, too. *)
Theorem atom_smuggles_option :
  let order := {|
    wo_id := 1%N; wo_client_id := 2%N; wo_role := Main; wo_atoms := ["--unmerge"; "sys-libs/glibc"]; wo_emerge_args := ["-pC"];
    wo_portage_config := Registry.demo_portage_config; wo_system_id := Registry.demo_system; wo_trace_context := None;
    wo_status := Building; wo_created_at := 0; wo_updated_at := 0 |} in
  Forall (fun a => Validation.validate_atom a = Ok tt) (wo_atoms order) /\
  snd (build_emerge_invocation order "emerge") = fixed_args ++ ["-pC"; "--unmerge"; "sys-libs/glibc"].
Proof. split; [repeat constructor|]; by vm_compute. Qed.
