(* ===== verification/CliRun.v ===== *)
(** * The command-line client

    [crates/cli/src/args.rs]: from the arguments of [remerge] to the local [emerge].
    [run] is a program over the client's requests: the configuration file, the
    portage reader ([PortageFiles], [MakeConf], [Versions]), the server
    ([UploadClient] and [Server]), the phases that change the local disk
    ([LocalState]) and the local [emerge].  [config.rs] is at the end. *)

From S2P Require Import Prelude Types Validation Registry World BlobStore Server Repo PortageFiles Versions WorkerSetup Effects Builder.

Record CliConfig := { cfg_server : string; cfg_client_id : ClientId; cfg_role : ClientRole }.

Record Cli := {
  cli_server : option string;
  cli_client_id : option ClientId;
  cli_role : option ClientRole;
  cli_config : string;
  cli_submit_only : bool;
  cli_no_local : bool;
  cli_dry_run : bool;
  cli_force : bool;
  cli_emerge_args : list string;
}.

Inductive CliE : Type -> Type :=
| LoadConfig (file : string) : CliE (Result CliConfig Error)
| DefaultConfig : CliE CliConfig
| ExpandSet (name : string) : CliE (list string)
| IsInstalled (atom : string) : CliE bool
| ReadConfig : CliE (Result PortageConfig Error)
| ReadSystemIdentity : CliE (Result SystemIdentity Error)
| NewClient (server : string) : CliE (Result unit Error)
| FindMissingBlobs (digests : list string) : CliE (Result (list string) Error)
| StreamUploadBlob (digest : string) (payload : bytes) : CliE (Result bool Error)
| Sleep (millis : Z) : CliE unit
| SubmitWorkorder (req : SubmitWorkorderRequest) : CliE (Result SubmitWorkorderResponse Error)
| StreamProgress (url : string) : CliE (Result WorkorderResult Error)
| SyncBinpkgs (result : WorkorderResult) : CliE (Result (option string) Error)
| RestoreDistfiles (result : WorkorderResult) : CliE (Result unit Error)
| RestoreParity (result : WorkorderResult) : CliE (Result unit Error)
| Deadline : CliE bool
| RunEmerge (args : list string) (portage_binhost : option string) : CliE (Result Exit IoError).

(** [?] with a context on the answer to a request. *)
Definition ask_ok {A} (ctx : option string) (e : CliE (Result A Error)) : Prog CliE (Result A Error) :=
  let* r := ask e in Ret (match ctx with Some c => contextual c r | None => r end).

(** ** Arguments *)

Definition extract_package_atoms (args : list string) : list string :=
  List.filter (fun arg => negb (starts_with "-" arg)) args.

Definition build_local_emerge_args (emerge_args : list string) : list string := "--getbinpkg" :: "--usepkg" :: emerge_args.

Definition portage_binhost_env (binhost_uri : option string) : option string :=
  match binhost_uri with
  | Some uri => let uri := trim uri in if is_empty uri then None else Some uri
  | None => None
  end.

Definition run_emerge_locally (args : list string) (binhost_uri : option string) : Prog CliE (Result unit Error) :=
  let* r := ask (RunEmerge args (portage_binhost_env binhost_uri)) in
  Ret (match r with
       | Err k => Err (IoErr k "Failed to execute emerge")
       | Ok status => if ex_success status then Ok tt else Err (Bail ("emerge exited with status " +:+ ex_status status))
       end).

(** ** Snapshot blobs *)

Definition insert_blob_payload (payloads : gmap string bytes) (digest : string) (b : bytes) : Result (gmap string bytes) Error :=
  match payloads !! digest with
  | Some existing => if bool_decide (existing <> b) then Err (Bail ("Digest collision for snapshot blob " +:+ digest)) else Ok payloads
  | None => Ok (<[digest := b]> payloads)
  end.

(** The digest of a file of a repository snapshot, of a distfile: the manifest goes
    first, then the references. *)
Definition repo_file_digest (c : PortageConfig) (repo_name relative_path : string) : option string :=
  (se_digest <$> (sm_repo_snapshots (pc_snapshot_manifest c) !! repo_name ≫= fun m => rsm_entries m !! relative_path)) <|>
  (pc_repo_snapshot_refs c !! repo_name ≫= fun refs => refs !! relative_path).
Definition distfile_digest (c : PortageConfig) (filename : string) : option string :=
  (se_digest <$> sm_distfiles (pc_snapshot_manifest c) !! filename) <|> (pc_distfile_snapshot_refs c !! filename).

Definition snapshot_blob_payloads (c : PortageConfig) : Result (gmap string bytes) Error :=
  let? payloads := fold_result (fun payloads '(repo_name, snapshot) =>
      fold_result (fun payloads '(relative_path, content) =>
        let? digest := ok_or (repo_file_digest c repo_name relative_path)
                         (Bail ("Missing repo snapshot digest for '" +:+ repo_name +:+ ":" +:+ relative_path +:+ "'")) in
        insert_blob_payload payloads digest (string_bytes content))
      (btree_items snapshot) payloads)
    (btree_items (pc_repo_snapshots c)) ∅ in
  fold_result (fun payloads '(filename, b) =>
      let? digest := ok_or (distfile_digest c filename) (Bail ("Missing distfile snapshot digest for '" +:+ filename +:+ "'")) in
      insert_blob_payload payloads digest b)
    (btree_items (pc_distfile_snapshots c)) payloads.

Definition SNAPSHOT_UPLOAD_MAX_ATTEMPTS : nat := 3.
Definition SNAPSHOT_UPLOAD_RETRY_DELAY : Z := 200.

(** [retry_delay.checked_mul(attempt as u32).unwrap_or(retry_delay)], in milliseconds. *)
Definition DURATION_MAX_MILLIS : Z := (2 ^ 64 - 1) * 1000 + 999.
Definition backoff (retry_delay : Z) (attempt : nat) : Z :=
  let d := retry_delay * (Z.of_nat attempt mod 2 ^ 32) in if d <=? DURATION_MAX_MILLIS then d else retry_delay.

(** The loop, with [remaining] attempts to go, this one being number [attempt]. *)
Fixpoint upload_tries (digest : string) (attempts : nat) (retry_delay : Z) (upload_once : Prog CliE (Result bool Error))
    (attempt remaining : nat) : Prog CliE (Result unit Error) :=
  match remaining with
  | O => Ret (Err (Bail ("snapshot blob upload retry loop ended unexpectedly for " +:+ digest)))
  | S rest =>
      let* r := upload_once in
      match r with
      | Ok _ => Ret (Ok tt)
      | Err error =>
          if (attempt <? attempts)%nat then
            let* _ := ask (Sleep (backoff retry_delay attempt)) in
            upload_tries digest attempts retry_delay upload_once (S attempt) rest
          else Ret (Err (in_context ("Failed to upload snapshot blob " +:+ digest +:+ " after " +:+ pretty attempts +:+ " attempt(s)") error))
      end
  end.
Definition retry_blob_upload (digest : string) (max_attempts : nat) (retry_delay : Z) (upload_once : Prog CliE (Result bool Error)) :
    Prog CliE (Result unit Error) :=
  let attempts := Nat.max max_attempts 1 in upload_tries digest attempts retry_delay upload_once 1 attempts.

Definition upload_missing_blob (payloads : gmap string bytes) (digest : string) : Prog CliE (Result unit Error) :=
  match payloads !! digest with
  | None => Ret (Err (Bail ("Server requested missing blob " +:+ digest +:+ ", but the client has no payload")))
  | Some payload =>
      retry_blob_upload digest SNAPSHOT_UPLOAD_MAX_ATTEMPTS SNAPSHOT_UPLOAD_RETRY_DELAY (ask (StreamUploadBlob digest payload))
  end.

Definition without_inline_snapshots (c : PortageConfig) : PortageConfig := {|
  pc_make_conf := pc_make_conf c; pc_package_use := pc_package_use c; pc_package_accept_keywords := pc_package_accept_keywords c;
  pc_package_license := pc_package_license c; pc_package_mask := pc_package_mask c; pc_package_unmask := pc_package_unmask c;
  pc_package_env := pc_package_env c; pc_env_files := pc_env_files c; pc_repos_conf := pc_repos_conf c;
  pc_snapshot_manifest := pc_snapshot_manifest c; pc_repo_snapshots := ∅; pc_repo_snapshot_refs := pc_repo_snapshot_refs c;
  pc_repo_snapshot_trees := pc_repo_snapshot_trees c; pc_patches := pc_patches c; pc_profile_overlay := pc_profile_overlay c;
  pc_distfile_snapshots := ∅; pc_distfile_snapshot_refs := pc_distfile_snapshot_refs c; pc_profile := pc_profile c;
  pc_world := pc_world c |}.

Definition prepare_manifest_submission (c : PortageConfig) : Prog CliE (Result PortageConfig Error) :=
  try* payloads := Ret (snapshot_blob_payloads c) in
  try* _ := (if bool_decide (payloads = ∅) then Ret (Ok tt)
             else try* missing := ask (FindMissingBlobs (btree_keys payloads)) in pfor (upload_missing_blob payloads) missing) in
  Ret (Ok (without_inline_snapshots c)).

(** ** The local follow-up *)

Definition restore_local_followup_state (cli : Cli) (result : WorkorderResult) : Prog CliE (Result unit Error) :=
  try* _ := ask (RestoreDistfiles result) in
  if cli_no_local cli then Ret (Ok tt) else ask (RestoreParity result).

Definition LOCAL_FOLLOWUP_RESTORE_TIMEOUT : Z := 300.

(** [run_with_watchdog]: before each request of the stage the deadline may have
    passed, and the stage ends there. *)
Fixpoint run_with_watchdog {A} (stage : string) (timeout_secs : Z) (p : Prog CliE (Result A Error)) : Prog CliE (Result A Error) :=
  match p with
  | Ret a => Ret a
  | Ask e k =>
      let* expired := ask Deadline in
      if (expired : bool) then
        Ret (Err (Bail ("CLI watchdog timed out after " +:+ pretty timeout_secs +:+ "s while " +:+ stage +:+
                        "; the client stopped making progress in that stage")))
      else Ask e (fun x => run_with_watchdog stage timeout_secs (k x))
  end.

Definition complete_local_followup (cli : Cli) (reconcile run_local : Prog CliE (Result unit Error)) : Prog CliE (Result unit Error) :=
  let* r := run_with_watchdog "restoring local follow-up state" LOCAL_FOLLOWUP_RESTORE_TIMEOUT reconcile in
  try* _ := Ret (contextual "Failed to restore local follow-up state" r) in
  if cli_no_local cli then Ret (Ok tt) else run_local.

(** ** The main flow *)

Fixpoint expand_atoms (atoms : list string) : Prog CliE (list string) :=
  match atoms with
  | [] => Ret []
  | a :: rest =>
      let* expanded := (if starts_with "@" a then ask (ExpandSet a) else Ret [a]) in
      let* others := expand_atoms rest in Ret (expanded ++ others)
  end.

Fixpoint first_invalid_atom (atoms : list string) : option (string * Validation.AtomValidationError) :=
  match atoms with
  | [] => None
  | a :: rest =>
      if starts_with "@" a then first_invalid_atom rest
      else match Validation.validate_atom a with Err e => Some (a, e) | Ok _ => first_invalid_atom rest end
  end.

Fixpoint filter_installed (atoms : list string) : Prog CliE (list string) :=
  match atoms with
  | [] => Ret []
  | a :: rest =>
      let* installed := ask (IsInstalled a) in
      let* others := filter_installed rest in Ret (if (installed : bool) then others else a :: others)
  end.

(** From the progress stream to the local emerge. *)
Definition finish_run (cli : Cli) (resp : SubmitWorkorderResponse) : Prog CliE (Result unit Error) :=
  try* result := ask_ok (Some "Failed to stream build progress") (StreamProgress (resp_progress_ws_url resp)) in
  match wr_failed_packages result with
  | _ :: _ => Ret (Err (Bail ("Remote build failed: " +:+ pretty (length (wr_failed_packages result)) +:+ " package(s) failed")))
  | [] =>
      let* synced := ask (SyncBinpkgs result) in
      let local_binhost_uri := match synced with Ok uri => uri | Err _ => None end in
      let binhost_uri := match local_binhost_uri with Some uri => Some uri | None => Some (wr_binhost_uri result) end in
      complete_local_followup cli (restore_local_followup_state cli result)
        (run_emerge_locally (build_local_emerge_args (cli_emerge_args cli)) binhost_uri)
  end.

Definition submit_and_finish (cli : Cli) (cfg : CliConfig) (atoms : list string) (portage_config : PortageConfig)
    (system_id : SystemIdentity) : Prog CliE (Result unit Error) :=
  try* _ := ask (NewClient (default (cfg_server cfg) (cli_server cli))) in
  let* prepared := prepare_manifest_submission portage_config in
  try* submitted := Ret (contextual "Failed to negotiate snapshot blob upload" prepared) in
  try* resp := ask_ok (Some "Failed to submit workorder") (SubmitWorkorder {|
    req_client_id := default (cfg_client_id cfg) (cli_client_id cli); req_role := default (cfg_role cfg) (cli_role cli);
    req_atoms := atoms; req_emerge_args := cli_emerge_args cli; req_portage_config := submitted; req_system_id := system_id |}) in
  if cli_submit_only cli then Ret (Ok tt) else finish_run cli resp.

Definition build_remotely (cli : Cli) (cfg : CliConfig) (atoms : list string) : Prog CliE (Result unit Error) :=
  try* portage_config := ask_ok (Some "Failed to read portage configuration") ReadConfig in
  try* system_id := ask_ok (Some "Failed to determine system identity") ReadSystemIdentity in
  if cli_dry_run cli then Ret (Ok tt) else submit_and_finish cli cfg atoms portage_config system_id.

Definition run (cli : Cli) : Prog CliE (Result unit Error) :=
  match cli_emerge_args cli with
  | [] => Ret (Err (Bail "No emerge arguments provided.  Usage: remerge [OPTIONS] <emerge-args>..."))
  | _ :: _ =>
      let* loaded := ask (LoadConfig (cli_config cli)) in
      let* cfg := match loaded with Ok cfg => Ret cfg | Err _ => ask DefaultConfig end in
      match extract_package_atoms (cli_emerge_args cli) with
      | [] => run_emerge_locally (cli_emerge_args cli) None
      | raw_atoms =>
          let* atoms := expand_atoms raw_atoms in
          match first_invalid_atom atoms with
          | Some (atom, e) => Ret (Err (Bail ("Invalid package atom '" +:+ atom +:+ "': " +:+ Validation.AtomValidationError_display e)))
          | None =>
              if cli_force cli then build_remotely cli cfg atoms
              else
                let* atoms := filter_installed atoms in
                match atoms with [] => Ret (Ok tt) | _ => build_remotely cli cfg atoms end
          end
      end
  end.

(** ** When the local emerge runs *)

Definition is_emerge (ev : Event CliE) : bool := match ev with Ev (RunEmerge _ _) _ => true | _ => false end.
Definition no_emerge (ev : Event CliE) : Prop := is_emerge ev = false.

Lemma expand_no_emerge atoms : only no_emerge (expand_atoms atoms).
Proof. induction atoms as [|a rest IH]; [apply only_ret|]. cbn [expand_atoms]. solve_only; apply IH. Qed.
Lemma filter_no_emerge atoms : only no_emerge (filter_installed atoms).
Proof. induction atoms as [|a rest IH]; [apply only_ret|]. cbn [filter_installed]. solve_only; apply IH. Qed.
Lemma prepare_no_emerge c : only no_emerge (prepare_manifest_submission c).
Proof. unfold prepare_manifest_submission, upload_missing_blob, retry_blob_upload. solve_only. Qed.
Lemma watchdog_only {A} (P : Event CliE -> Prop) stage secs (p : Prog CliE (Result A Error)) :
  (forall b, P (Ev Deadline b)) -> only P p -> only P (run_with_watchdog stage secs p).
Proof.
  intros Hd. induction p as [a|X e k IH]; intros Hp; [done|]. cbn [run_with_watchdog].
  apply only_bind; [apply only_ask; [done|intros ?; apply only_ret]|]. intros [|]; [done|].
  intros x. destruct (Hp x). auto.
Qed.

(** A stage that the watchdog let finish did all of its requests. *)
Lemma watchdog_ok {A} stage secs (p : Prog CliE (Result A Error)) t a :
  runs (run_with_watchdog stage secs p) t (Ok a) -> exists t', runs p t' (Ok a) /\ t' ⊆ t.
Proof.
  revert t. induction p as [r|X e k IH]; intros t; [intros [-> ->]; by exists []|]. cbn [run_with_watchdog].
  rewrite runs_bind. intros (t1 & t2 & [|] & -> & _ & Hr); [by destruct Hr|].
  destruct Hr as (x & t3 & -> & Hr). apply IH in Hr as (t' & Hr & Hsub). exists (Ev e x :: t').
  split; [by exists x, t'|]. set_solver.
Qed.

(** The local emerge was allowed: the remote build had finished without a failed
    package and the state of the worker had been restored. *)
Definition build_finished (cli : Cli) (before : list (Event CliE)) : Prop :=
  cli_no_local cli = false /\ cli_submit_only cli = false /\ cli_dry_run cli = false /\
  exists req resp result,
    Ev (SubmitWorkorder req) (Ok resp) ∈ before /\ Ev (StreamProgress (resp_progress_ws_url resp)) (Ok result) ∈ before /\
    wr_failed_packages result = [] /\ Ev (RestoreDistfiles result) (Ok tt) ∈ before /\ Ev (RestoreParity result) (Ok tt) ∈ before.

(** [emerge] runs at most once, as the last request, and [P] holds of the requests before. *)
Definition emerge_last (P : list (Event CliE) -> list string -> Prop) (t : list (Event CliE)) : Prop :=
  Forall no_emerge t \/
  exists before args binhost answer, t = before ++ [Ev (RunEmerge args binhost) answer] /\ Forall no_emerge before /\ P before args.

Lemma emerge_last_app P t1 t2 : Forall no_emerge t1 -> emerge_last (fun b => P (t1 ++ b)) t2 -> emerge_last P (t1 ++ t2).
Proof.
  intros H1 [H2|(b & args & h & a & -> & Hb & HP)]; [left; by apply Forall_app|].
  right. exists (t1 ++ b), args, h, a. rewrite app_assoc. split_and!; [done|by apply Forall_app|done].
Qed.

Lemma emerge_last_mono (P Q : list (Event CliE) -> list string -> Prop) t : (forall b a, P b a -> Q b a) -> emerge_last P t -> emerge_last Q t.
Proof. intros HPQ [H|(b & args & h & a & -> & Hb & HP)]; [by left|]. right. exists b, args, h, a. eauto. Qed.

Lemma emerge_runs_last (P : list (Event CliE) -> list string -> Prop) args uri t r : P [] args -> runs (run_emerge_locally args uri) t r -> emerge_last P t.
Proof.
  intros HP Hr. apply runs_bind in Hr as (t1 & t2 & a & -> & H1%runs_ask & [-> _]). subst. right.
  by exists [], args, (portage_binhost_env uri), a.
Qed.

(** Sequencing when the first part neither runs emerge nor fails. *)
Lemma emerge_last_bind {A B} P (p : Prog CliE A) (f : A -> Prog CliE B) t b :
  only no_emerge p -> (forall t1 a t2 b, runs p t1 a -> runs (f a) t2 b -> emerge_last (fun bf => P (t1 ++ bf)) t2) ->
  runs (pbind p f) t b -> emerge_last P t.
Proof.
  intros Hp Hf (t1 & t2 & a & -> & H1 & H2)%runs_bind. apply emerge_last_app; [by eapply only_runs|by eapply Hf].
Qed.
Lemma emerge_last_bind_ok {A B} P (p : Prog CliE (Result A Error)) (f : A -> Prog CliE (Result B Error)) t b :
  only no_emerge p -> (forall t1 a t2 b, runs p t1 (Ok a) -> runs (f a) t2 b -> emerge_last (fun bf => P (t1 ++ bf)) t2) ->
  runs (pbind_ok p f) t b -> emerge_last P t.
Proof.
  intros Hp Hf. apply emerge_last_bind; [done|]. intros t1 [a|e] t2 b' H1 H2; [by eapply Hf|]. destruct H2 as [-> _]. by left.
Qed.

Lemma restore_ok cli result t u : cli_no_local cli = false -> runs (restore_local_followup_state cli result) t (Ok u) ->
  Ev (RestoreDistfiles result) (Ok tt) ∈ t /\ Ev (RestoreParity result) (Ok tt) ∈ t.
Proof.
  intros Hl Hr. unfold restore_local_followup_state in Hr. rewrite Hl in Hr.
  apply runs_bind_ok in Hr as (t1 & t2 & [] & -> & H1%runs_ask & H2%runs_ask). subst. destruct u. set_solver.
Qed.

Lemma ask_ok_ok {A} ctx (e : CliE (Result A Error)) t a : runs (ask_ok ctx e) t (Ok a) -> t = [Ev e (Ok a)].
Proof.
  intros (t1 & t2 & r & -> & H1%runs_ask & [-> Hr])%runs_bind. subst. destruct ctx; [symmetry in Hr; by apply contextual_ok in Hr as ->|by subst].
Qed.

Lemma ask_ok_no_emerge {A} ctx (e : CliE (Result A Error)) : (forall x, no_emerge (Ev e x)) -> only no_emerge (ask_ok ctx e).
Proof. intros He. unfold ask_ok. apply only_bind; [|done]. by apply only_ask. Qed.

(** After submission. *)
Lemma finish_run_last cli resp t r :
  runs (finish_run cli resp) t r ->
  emerge_last (fun before args => args = build_local_emerge_args (cli_emerge_args cli) /\ cli_no_local cli = false /\
    exists result, Ev (StreamProgress (resp_progress_ws_url resp)) (Ok result) ∈ before /\ wr_failed_packages result = [] /\
      Ev (RestoreDistfiles result) (Ok tt) ∈ before /\ Ev (RestoreParity result) (Ok tt) ∈ before) t.
Proof.
  unfold finish_run. apply emerge_last_bind_ok; [by apply ask_ok_no_emerge|].
  intros t1 result t2 b ->%ask_ok_ok H2. destruct (wr_failed_packages result) eqn:Hf; [|destruct H2 as [-> _]; by left].
  revert H2. apply emerge_last_bind; [by apply only_ask|]. intros t3 synced t4 b' ->%runs_ask. unfold complete_local_followup.
  apply emerge_last_bind. { apply watchdog_only; [done|]. unfold restore_local_followup_state. solve_only. }
  intros t5 w t6 b2 Hw. apply emerge_last_bind_ok; [done|]. intros t7 [] t8 b3 [-> Hctx] H8.
  symmetry in Hctx. apply contextual_ok in Hctx as ->. apply watchdog_ok in Hw as (t' & Hw & Hsub).
  destruct (cli_no_local cli) eqn:Hl; [destruct H8 as [-> _]; by left|].
  apply restore_ok in Hw as [Hd Hp]; [|done]. revert H8. apply emerge_runs_last. split_and!; try done.
  exists result. set_solver.
Qed.

Lemma submit_and_finish_last cli cfg atoms pc sid t r : cli_dry_run cli = false ->
  runs (submit_and_finish cli cfg atoms pc sid) t r ->
  emerge_last (fun before args => args = build_local_emerge_args (cli_emerge_args cli) /\ build_finished cli before) t.
Proof.
  intros Hdry. unfold submit_and_finish. apply emerge_last_bind_ok; [by apply only_ask|]. intros t1 [] t2 b ->%runs_ask.
  apply emerge_last_bind; [apply prepare_no_emerge|]. intros t3 prepared t4 b2 _.
  apply emerge_last_bind_ok; [done|]. intros t5 submitted t6 b3 [-> _].
  apply emerge_last_bind_ok; [by apply ask_ok_no_emerge|]. intros t7 resp t8 b4 ->%ask_ok_ok H8.
  destruct (cli_submit_only cli) eqn:Hs; [destruct H8 as [-> _]; by left|].
  apply finish_run_last in H8. revert H8. apply emerge_last_mono. intros before args (-> & Hl & result & Hstream & Hf & Hd & Hp).
  split; [done|]. split_and!; [done..|]. eexists _, resp, result. split_and!; [|set_solver..].
  do 3 (apply elem_of_app; right). apply elem_of_app. left. left.
Qed.

(** C29.  The client runs the local [emerge] at most once and as its last action.  If
    the command line names packages, it does so only after the server accepted the
    order, the build finished without a failed package, and the distfiles and the
    final state of the worker were restored; never with --no-local, --submit-only or
    --dry-run. *)
Theorem local_emerge_guarded cli t r :
  runs (run cli) t r ->
  emerge_last (fun before args =>
    (extract_package_atoms (cli_emerge_args cli) = [] /\ args = cli_emerge_args cli) \/
    (args = build_local_emerge_args (cli_emerge_args cli) /\ build_finished cli before)) t.
Proof.
  unfold run. destruct (cli_emerge_args cli) as [|a0 args0] eqn:Hargs; [by intros [-> _]; left|]. rewrite <- Hargs.
  apply emerge_last_bind; [by apply only_ask|]. intros t1 loaded t2 b _.
  apply emerge_last_bind; [by destruct loaded|]. intros t3 cfg t4 b2 _ H4.
  destruct (extract_package_atoms (cli_emerge_args cli)) as [|raw raws] eqn:Hraw.
  { revert H4. apply emerge_runs_last. by left. }
  revert H4. apply emerge_last_bind; [apply expand_no_emerge|]. intros t5 atoms t6 b3 _ H6.
  destruct (first_invalid_atom atoms) as [[? ?]|]; [destruct H6 as [-> _]; by left|].
  assert (Hremote : forall atoms t b P, (forall before args, args = build_local_emerge_args (cli_emerge_args cli) /\ build_finished cli before -> P before args) ->
      runs (build_remotely cli cfg atoms) t b -> emerge_last P t).
  { clear. intros atoms t b P HP. unfold build_remotely. apply emerge_last_bind_ok; [by apply ask_ok_no_emerge|].
    intros t1 pc t2 b2 ->%ask_ok_ok. apply emerge_last_bind_ok; [by apply ask_ok_no_emerge|].
    intros t3 sid t4 b3 ->%ask_ok_ok H4. destruct (cli_dry_run cli) eqn:Hd; [destruct H4 as [-> _]; by left|].
    apply submit_and_finish_last in H4; [|done]. revert H4. apply emerge_last_mono. intros before args [-> Hb]. apply HP.
    split; [done|]. destruct Hb as (? & ? & ? & req & resp & result & ? & ? & ? & ? & ?).
    split_and!; [done..|]. exists req, resp, result. set_solver. }
  assert (Hgrow : forall pre before args, args = build_local_emerge_args (cli_emerge_args cli) /\ build_finished cli before ->
      extract_package_atoms (cli_emerge_args cli) = [] /\ args = cli_emerge_args cli \/
      args = build_local_emerge_args (cli_emerge_args cli) /\ build_finished cli (pre ++ before)).
  { intros pre before args [-> (? & ? & ? & req & resp & result & ? & ? & ? & ? & ?)]. right. split; [done|].
    split_and!; [done..|]. exists req, resp, result. set_solver. }
  destruct (cli_force cli).
  - revert H6. apply Hremote. intros before args. rewrite !app_assoc. rewrite <- Hraw. apply Hgrow.
  - revert H6. apply emerge_last_bind; [apply filter_no_emerge|]. intros t7 [|x xs] t8 b4 _ H8; [destruct H8 as [-> _]; by left|].
    revert H8. apply Hremote. intros before args. rewrite !app_assoc. rewrite <- Hraw. apply Hgrow.
Qed.

(** A machine on which everything succeeds. *)
Definition demo_result : WorkorderResult := {|
  wr_workorder_id := 1%N; wr_built_packages := []; wr_failed_packages := []; wr_binhost_uri := "http://host/binpkgs";
  wr_fetched_distfiles := ∅; wr_parity_manifest := ParityManifest_default |}.
Definition demo_machine (X : Type) (e : CliE X) : X :=
  match e with
  | LoadConfig _ => Ok {| cfg_server := "http://host"; cfg_client_id := 7%N; cfg_role := Main |}
  | DefaultConfig => {| cfg_server := "http://host"; cfg_client_id := 7%N; cfg_role := Main |}
  | ExpandSet name => [name]
  | IsInstalled a => bool_decide (a = "app-misc/hello")
  | ReadConfig => Ok Registry.demo_portage_config
  | ReadSystemIdentity => Ok Registry.demo_system
  | NewClient _ => Ok tt
  | FindMissingBlobs _ => Ok []
  | StreamUploadBlob _ _ => Ok true
  | Sleep _ => tt
  | SubmitWorkorder _ => Ok {| resp_workorder_id := 1%N; resp_progress_ws_url := "ws://host/1/progress"; resp_trace_id := None |}
  | StreamProgress _ => Ok demo_result
  | SyncBinpkgs _ => Ok None
  | RestoreDistfiles _ => Ok tt
  | RestoreParity _ => Ok tt
  | Deadline => false
  | RunEmerge _ _ => Ok {| ex_success := true; ex_status := "0"; ex_stdout := "" |}
  end.
Definition demo_cli (dry_run : bool) (args : list string) : Cli := {|
  cli_server := None; cli_client_id := None; cli_role := None; cli_config := "/etc/remerge.conf"; cli_submit_only := false;
  cli_no_local := false; cli_dry_run := dry_run; cli_force := false; cli_emerge_args := args |}.
Definition demo_trace (cli : Cli) : list (Event CliE) := fst (interp demo_machine (run cli)).

Lemma local_emerge_guarded_witness :
  emerge_last (fun before args => args = ["--getbinpkg"; "--usepkg"; "app-misc/jq"]) (demo_trace (demo_cli false ["app-misc/jq"])) /\
  existsb is_emerge (demo_trace (demo_cli false ["app-misc/jq"])) = true.
Proof.
  split; [|by vm_compute].
  eapply emerge_last_mono; [|apply (local_emerge_guarded (demo_cli false ["app-misc/jq"]) _ (snd (interp demo_machine (run (demo_cli false ["app-misc/jq"])))))].
  - intros before args [[Hnil _]|[-> _]]; [by vm_compute in Hnil|done].
  - apply (interp_runs demo_machine).
Defined.

(** Without a package name on the command line everything is handed to the local
    [emerge] at once, --dry-run or not: [remerge --dry-run --depclean] removes
    packages. *)
Theorem dry_run_without_atoms_runs_emerge cli :
  cli_emerge_args cli <> [] -> extract_package_atoms (cli_emerge_args cli) = [] ->
  forall t r, runs (run cli) t r -> exists answer, Ev (RunEmerge (cli_emerge_args cli) None) answer ∈ t.
Proof.
  intros Hne Hnone t r. unfold run. destruct (cli_emerge_args cli) as [|a args]; [done|]. rewrite Hnone.
  intros (t1 & t2 & loaded & -> & _ & H2)%runs_bind. apply runs_bind in H2 as (t3 & t4 & cfg & -> & _ & H4).
  apply runs_bind in H4 as (t5 & t6 & answer & -> & ->%runs_ask & _). exists answer. set_solver.
Qed.

Lemma dry_run_without_atoms_runs_emerge_witness :
  cli_dry_run (demo_cli true ["--depclean"]) = true /\
  exists answer, Ev (RunEmerge ["--depclean"] None) answer ∈ demo_trace (demo_cli true ["--depclean"]).
Proof.
  split; [done|].
  apply (dry_run_without_atoms_runs_emerge (demo_cli true ["--depclean"])) with (r := snd (interp demo_machine (run (demo_cli true ["--depclean"]))));
    [done|done|]. apply (interp_runs demo_machine).
Defined.

(** ** What is submitted *)

Definition submission (ev : Event CliE) : option SubmitWorkorderRequest :=
  match ev with Ev (SubmitWorkorder req) _ => Some req | _ => None end.
Definition submissions (t : list (Event CliE)) : list SubmitWorkorderRequest := omap submission t.
Definition no_submission (ev : Event CliE) : Prop := submission ev = None.

Lemma no_submissions t : Forall no_submission t -> submissions t = [].
Proof. induction 1 as [|ev t He _ IH]; [done|]. unfold submissions in *. simpl. by rewrite He. Qed.

Lemma submissions_app t1 t2 : submissions (t1 ++ t2) = submissions t1 ++ submissions t2.
Proof. apply omap_app. Qed.

Lemma expand_no_submission atoms : only no_submission (expand_atoms atoms).
Proof. induction atoms as [|a rest IH]; [done|]. cbn [expand_atoms]. solve_only; apply IH. Qed.
Lemma filter_no_submission atoms : only no_submission (filter_installed atoms).
Proof. induction atoms as [|a rest IH]; [done|]. cbn [filter_installed]. solve_only; apply IH. Qed.
Lemma prepare_no_submission c : only no_submission (prepare_manifest_submission c).
Proof. unfold prepare_manifest_submission, upload_missing_blob, retry_blob_upload. solve_only. Qed.
Lemma finish_no_submission cli resp : only no_submission (finish_run cli resp).
Proof.
  unfold finish_run, ask_ok, complete_local_followup, run_emerge_locally, restore_local_followup_state. solve_only.
Qed.
Lemma emerge_no_submission args uri : only no_submission (run_emerge_locally args uri).
Proof. unfold run_emerge_locally. solve_only. Qed.

(** Every blob the server misses was uploaded with its bytes. *)
Definition blobs_delivered (c : PortageConfig) (t : list (Event CliE)) : Prop :=
  exists payloads, snapshot_blob_payloads c = Ok payloads /\
  (payloads = ∅ \/
   exists missing, Ev (FindMissingBlobs (btree_keys payloads)) (Ok missing) ∈ t /\
     forall d, d ∈ missing -> exists payload stored, payloads !! d = Some payload /\ Ev (StreamUploadBlob d payload) (Ok stored) ∈ t).

(** A retried upload that succeeds ends with a successful attempt, after at most
    [remaining] of them. *)
Lemma upload_tries_ok digest attempts delay payload attempt remaining t u :
  runs (upload_tries digest attempts delay (ask (StreamUploadBlob digest payload)) attempt remaining) t (Ok u) ->
  exists stored, Ev (StreamUploadBlob digest payload) (Ok stored) ∈ t.
Proof.
  revert attempt t. induction remaining as [|rest IH]; intros attempt t; [by intros [_ ?]|]. cbn [upload_tries].
  intros (t1 & t2 & r & -> & ->%runs_ask & H2)%runs_bind. destruct r as [stored|e]; [exists stored; set_solver|].
  destruct (attempt <? attempts)%nat; [|by destruct H2]. apply runs_bind in H2 as (t3 & t4 & [] & -> & _ & H4).
  apply IH in H4 as [stored Hin]. exists stored. set_solver.
Qed.

Lemma uploads_ok payloads missing t u :
  runs (pfor (upload_missing_blob payloads) missing) t (Ok u) ->
  forall d, d ∈ missing -> exists payload stored, payloads !! d = Some payload /\ Ev (StreamUploadBlob d payload) (Ok stored) ∈ t.
Proof.
  revert t. induction missing as [|d0 rest IH]; intros t Hr d Hd; [by apply elem_of_nil in Hd|]. cbn [pfor] in Hr.
  apply runs_bind_ok in Hr as (t1 & t2 & [] & -> & H1 & H2). apply elem_of_cons in Hd as [->|Hd].
  - unfold upload_missing_blob in H1. destruct (payloads !! d0) as [payload|]; [|by destruct H1].
    apply upload_tries_ok in H1 as [stored Hin]. exists payload, stored. set_solver.
  - destruct (IH t2 H2 d Hd) as (payload & stored & Hp & Hin). exists payload, stored. set_solver.
Qed.

Lemma prepare_ok c t c' : runs (prepare_manifest_submission c) t (Ok c') -> c' = without_inline_snapshots c /\ blobs_delivered c t.
Proof.
  unfold prepare_manifest_submission. intros (t1 & t2 & payloads & -> & [-> Hp] & H2)%runs_bind_ok.
  apply runs_bind_ok in H2 as (t3 & t4 & [] & -> & H3 & [-> Hc]). injection Hc as ->. split; [done|]. exists payloads.
  split; [done|]. case_bool_decide as Hemp; [by left|]. right.
  apply runs_bind_ok in H3 as (t5 & t6 & missing & -> & ->%runs_ask & H6). exists missing. split; [set_solver|].
  intros d Hd. destruct (uploads_ok _ _ _ _ H6 d Hd) as (payload & stored & Hl & Hin). exists payload, stored. set_solver.
Qed.

Lemma first_invalid_none atoms :
  first_invalid_atom atoms = None -> Forall (fun a => starts_with "@" a = true \/ Validation.validate_atom a = Ok tt) atoms.
Proof.
  induction atoms as [|a rest IH]; simpl; [constructor|]. destruct (starts_with "@" a) eqn:Ha; [intros H; constructor; auto|].
  destruct (Validation.validate_atom a) as [[]|e] eqn:Hv; [|done]. intros H. constructor; auto.
Qed.

Lemma filter_installed_sound atoms t kept : runs (filter_installed atoms) t kept ->
  forall a, a ∈ kept -> a ∈ atoms /\ Ev (IsInstalled a) false ∈ t.
Proof.
  revert t kept. induction atoms as [|a rest IH]; intros t kept; [intros [-> ->] b Hb; by apply elem_of_nil in Hb|].
  cbn [filter_installed]. intros (t1 & t2 & installed & -> & ->%runs_ask & H2)%runs_bind.
  apply runs_bind in H2 as (t3 & t4 & others & -> & H3 & [-> ->]). intros b Hb.
  specialize (IH _ _ H3). destruct installed; [specialize (IH b Hb); set_solver|].
  apply elem_of_cons in Hb as [->|Hb]; [set_solver|]. specialize (IH b Hb). set_solver.
Qed.

(** Nothing is submitted, or one request, and [P] holds of it and the requests before. *)
Definition submits (P : list (Event CliE) -> SubmitWorkorderRequest -> Prop) (t : list (Event CliE)) : Prop :=
  Forall no_submission t \/
  exists before req answer after, t = before ++ Ev (SubmitWorkorder req) answer :: after /\
    Forall no_submission before /\ Forall no_submission after /\ P before req.

Lemma submits_bind {A B} P (p : Prog CliE A) (f : A -> Prog CliE B) t b :
  only no_submission p -> (forall t1 a t2 b, runs p t1 a -> runs (f a) t2 b -> submits (fun bf => P (t1 ++ bf)) t2) ->
  runs (pbind p f) t b -> submits P t.
Proof.
  intros Hp Hf (t1 & t2 & a & -> & H1 & H2)%runs_bind. pose proof (only_runs _ _ _ _ Hp H1) as Hn.
  destruct (Hf _ _ _ _ H1 H2) as [Hn2|(before & req & answer & after & -> & Hb & Ha & HP)]; [left; by apply Forall_app|].
  right. exists (t1 ++ before), req, answer, after. rewrite <- app_assoc. split_and!; [done|by apply Forall_app|done|done].
Qed.
Lemma submits_bind_ok {A B} P (p : Prog CliE (Result A Error)) (f : A -> Prog CliE (Result B Error)) t b :
  only no_submission p -> (forall t1 a t2 b, runs p t1 (Ok a) -> runs (f a) t2 b -> submits (fun bf => P (t1 ++ bf)) t2) ->
  runs (pbind_ok p f) t b -> submits P t.
Proof.
  intros Hp Hf. apply submits_bind; [done|]. intros t1 [a|e] t2 b' H1 H2; [by eapply Hf|]. destruct H2 as [-> _]. by left.
Qed.
Lemma submits_mono (P Q : list (Event CliE) -> SubmitWorkorderRequest -> Prop) t :
  (forall b req, P b req -> Q b req) -> submits P t -> submits Q t.
Proof. intros HPQ [H|(b & req & an & af & -> & ? & ? & HP)]; [by left|]. right. exists b, req, an, af. eauto. Qed.
Lemma ask_ok_no_submission {A} ctx (e : CliE (Result A Error)) : (forall x, no_submission (Ev e x)) -> only no_submission (ask_ok ctx e).
Proof. intros He. unfold ask_ok. apply only_bind; [|done]. by apply only_ask. Qed.

Lemma blobs_delivered_mono c t t' : t ⊆ t' -> blobs_delivered c t -> blobs_delivered c t'.
Proof.
  intros Hsub (p & Hp & [He|(m & Hm & Hd)]); exists p; (split; [done|]); [by left|]. right. exists m. split; [set_solver|].
  intros d Hin. destruct (Hd d Hin) as (b & s & ? & ?). exists b, s. set_solver.
Qed.

(** The request is the one of this command line, for packages [atoms]. *)
Record request_for (cli : Cli) (atoms : list string) (before : list (Event CliE)) (req : SubmitWorkorderRequest) : Prop := {
  rf_args : req_emerge_args req = cli_emerge_args cli;
  rf_atoms : req_atoms req = atoms;
  rf_not_dry : cli_dry_run cli = false;
  rf_config : exists c, Ev ReadConfig (Ok c) ∈ before /\ req_portage_config req = without_inline_snapshots c /\ blobs_delivered c before;
}.

Lemma request_for_mono cli atoms t t' req : t ⊆ t' -> request_for cli atoms t req -> request_for cli atoms t' req.
Proof.
  intros Hsub [H1 H2 H3 (c & H4 & H5 & H6)]. split; [done..|]. exists c. split_and!; [set_solver|done|by eapply blobs_delivered_mono].
Qed.

Lemma build_remotely_submits cli cfg atoms t r : runs (build_remotely cli cfg atoms) t r -> submits (request_for cli atoms) t.
Proof.
  unfold build_remotely. apply submits_bind_ok; [by apply ask_ok_no_submission|]. intros t1 c t2 b ->%ask_ok_ok.
  apply submits_bind_ok; [by apply ask_ok_no_submission|]. intros t3 sid t4 b2 ->%ask_ok_ok H4.
  destruct (cli_dry_run cli) eqn:Hdry; [destruct H4 as [-> _]; by left|]. revert H4. unfold submit_and_finish.
  apply submits_bind_ok; [by apply only_ask|]. intros t5 [] t6 b3 ->%runs_ask.
  apply submits_bind; [apply prepare_no_submission|]. intros t7 prepared t8 b4 H7.
  apply submits_bind_ok; [done|]. intros t9 submitted t10 b5 [-> Hctx] H10. symmetry in Hctx. apply contextual_ok in Hctx as ->.
  apply prepare_ok in H7 as [-> Hd]. apply runs_bind in H10 as (t11 & t12 & resp & -> & H11 & H12).
  apply runs_bind in H11 as (t13 & t14 & answer & -> & ->%runs_ask & [-> Hresp]). right.
  eexists [], _, answer, t12. split_and!; [done|done| |].
  - destruct resp as [resp|e]; [|by destruct H12 as [-> _]]. destruct (cli_submit_only cli); [by destruct H12 as [-> _]|].
    by eapply only_runs; [apply finish_no_submission|].
  - split; simpl; [done..|]. exists c. split_and!; [set_solver|done|]. eapply blobs_delivered_mono; [|exact Hd]. set_solver.
Qed.

(** A request as the client should make it. *)
Definition well_prepared (cli : Cli) (before : list (Event CliE)) (req : SubmitWorkorderRequest) : Prop :=
  Forall (fun a => starts_with "@" a = true \/ Validation.validate_atom a = Ok tt) (req_atoms req) /\
  (cli_force cli = false -> req_atoms req <> [] /\ forall a, a ∈ req_atoms req -> Ev (IsInstalled a) false ∈ before) /\
  request_for cli (req_atoms req) before req.

Lemma run_submits cli t r : runs (run cli) t r -> submits (well_prepared cli) t.
Proof.
  unfold run. destruct (cli_emerge_args cli) as [|a0 args0] eqn:Hargs; [by intros [-> _]; left|]. rewrite <- Hargs.
  apply submits_bind; [by apply only_ask|]. intros t1 loaded t2 b _.
  apply submits_bind; [by destruct loaded|]. intros t3 cfg t4 b2 _ H4.
  destruct (extract_package_atoms (cli_emerge_args cli)) as [|raw raws].
  { left. by eapply only_runs; [apply emerge_no_submission|]. }
  revert H4. apply submits_bind; [apply expand_no_submission|]. intros t5 atoms t6 b3 _ H6.
  destruct (first_invalid_atom atoms) as [[? ?]|] eqn:Hinv; [destruct H6 as [-> _]; by left|]. apply first_invalid_none in Hinv.
  destruct (cli_force cli) eqn:Hforce.
  - apply build_remotely_submits in H6. revert H6. apply submits_mono. intros before req Hreq.
    pose proof (rf_atoms _ _ _ _ Hreq) as Hat. split_and!; [by rewrite Hat|by rewrite Hforce|]. rewrite Hat.
    eapply request_for_mono; [|exact Hreq]. set_solver.
  - revert H6. apply submits_bind; [apply filter_no_submission|]. intros t7 kept t8 b4 H7 H8.
    destruct kept as [|k ks]; [destruct H8 as [-> _]; by left|]. pose proof (filter_installed_sound _ _ _ H7) as Hk.
    apply build_remotely_submits in H8. revert H8. apply submits_mono. intros before req Hreq.
    pose proof (rf_atoms _ _ _ _ Hreq) as Hat. unfold well_prepared. rewrite Hat. split_and!.
    + rewrite Forall_forall in Hinv |- *. intros a Ha. by apply Hinv, Hk.
    + intros _. split; [done|]. intros a Ha. apply Hk in Ha as [_ Ha]. set_solver.
    + eapply request_for_mono; [|exact Hreq]. set_solver.
Qed.

(** C28.  At most one order is submitted, with the command line's arguments.  Every atom
    is a set or passes [validate_atom]; without --force there is one, and each was
    looked up and not found installed.  The portage configuration is the one that was
    read, less the inline snapshots, and every blob of them that the server said it
    misses was uploaded successfully before. *)
Theorem submission_prepared cli t r : runs (run cli) t r -> submits (well_prepared cli) t.
Proof. apply run_submits. Qed.

Lemma submits_elem P t req : submits P t -> req ∈ submissions t -> exists before, P before req.
Proof.
  intros [Hn|(before & req' & answer & after & -> & Hb & Ha & HP)] Hin; [rewrite no_submissions in Hin by done; by apply elem_of_nil in Hin|].
  rewrite submissions_app, (no_submissions before) in Hin by done. change (submissions (Ev (SubmitWorkorder req') answer :: after)) with (req' :: submissions after) in Hin.
  rewrite (no_submissions after) in Hin by done. simpl in Hin. apply list_elem_of_singleton in Hin as ->. by exists before.
Qed.

Lemma submission_prepared_witness :
  let t := demo_trace (demo_cli false ["app-misc/hello"; "app-misc/jq"]) in
  length (submissions t) = 1%nat /\
  Forall (fun req => req_emerge_args req = ["app-misc/hello"; "app-misc/jq"] /\ pc_repo_snapshots (req_portage_config req) = ∅) (submissions t).
Proof.
  split; [vm_compute; reflexivity|]. apply Forall_forall. intros req Hin.
  destruct (submits_elem _ _ _ (submission_prepared (demo_cli false ["app-misc/hello"; "app-misc/jq"]) _
    (snd (interp demo_machine (run (demo_cli false ["app-misc/hello"; "app-misc/jq"])))) (interp_runs demo_machine _)) Hin)
    as (before & _ & _ & [Hargs _ _ (c & _ & -> & _)]). by split.
Defined.

Lemma dropped_args_options a : a ∈ dropped_args -> starts_with "-" a = true.
Proof. unfold dropped_args. rewrite !elem_of_cons, elem_of_nil. intros Ha. by repeat destruct Ha as [->|Ha]. Qed.

(** The installed packages that the client takes off the list are built all the
    same: the request carries the whole command line as emerge arguments, and the
    worker puts every package name in it on its own command line, next to the atoms
    of the order. *)
Theorem installed_atoms_still_built cli t r req a :
  runs (run cli) t r -> req ∈ submissions t -> a ∈ extract_package_atoms (cli_emerge_args cli) ->
  forall cfg s client role id s' emerge_cmd, admitted cfg s req client role id s' ->
  exists o, workorders s' !! id = Some o /\ a ∈ snd (build_emerge_invocation o emerge_cmd).
Proof.
  intros Hr Hin Ha cfg s client role id s' emerge_cmd [(o & Ho & _ & _ & _ & _ & _ & _ & Hargs) _ _ _ _ _ _ _ _].
  exists o. split; [rewrite Ho; apply lookup_insert_eq|].
  destruct (submits_elem _ _ _ (run_submits _ _ _ Hr) Hin) as (before & _ & _ & [Hreq _ _ _]).
  unfold build_emerge_invocation. simpl. rewrite elem_of_app, elem_of_build_args, Hargs, Hreq. left. right.
  unfold extract_package_atoms in Ha. rewrite list_elem_of_In, filter_In, <- list_elem_of_In in Ha. destruct Ha as [Ha Hopt].
  split; [done|]. intros Hd%dropped_args_options. by rewrite Hd in Hopt.
Qed.

Lemma installed_atoms_still_built_witness :
  let cli := demo_cli false ["app-misc/hello"; "app-misc/jq"] in
  Ev (IsInstalled "app-misc/hello") true ∈ demo_trace cli /\
  forall req, req ∈ submissions (demo_trace cli) -> forall cfg s client role id s', admitted cfg s req client role id s' ->
  exists o, workorders s' !! id = Some o /\ "app-misc/hello" ∈ snd (build_emerge_invocation o "emerge").
Proof.
  split; [right; left|]. intros req Hin cfg s client role id s'.
  apply (installed_atoms_still_built (demo_cli false ["app-misc/hello"; "app-misc/jq"])
    (demo_trace (demo_cli false ["app-misc/hello"; "app-misc/jq"]))
    (snd (interp demo_machine (run (demo_cli false ["app-misc/hello"; "app-misc/jq"])))) req "app-misc/hello");
    [apply (interp_runs demo_machine)|exact Hin|left].
Defined.
