(* ===== verification/CliConfigFile.v ===== *)
(** * The client's configuration file

    [crates/cli/src/config.rs]: where the identity of a machine comes from.  The
    TOML parser is a parameter: the fields it finds in a text, or [None] for a
    syntax error. *)

From S2P Require Import Prelude Types World Text BlobStore Persistence Repo MakeConf WorkerSetup Effects Builder CliRun.

(** What the file may set. *)
Record TomlFields := { tf_server : option string; tf_client_id : option ClientId; tf_role : option ClientRole }.
Class Toml := toml_parse : string -> option TomlFields.

Definition default_server : string := "http://localhost:7654".

(** [Uuid::new_v4()]: a new one each time, never the nil uuid. *)
Definition generate_client_id {E} : Comp E ClientId := fun w =>
  (Ok (N.succ (next_uuid w)), {| files := files w; faults := faults w; next_uuid := next_uuid w + 1; clock := clock w |}).

Definition CliConfig_default {E} : Comp E CliConfig :=
  do id <- generate_client_id ;; ret {| cfg_server := default_server; cfg_client_id := id; cfg_role := Main |}.

Definition quote_mark : string := String "034"%char "".
Definition quoted_value (key value : string) : string := key +:+ " = " +:+ quote_mark +:+ value +:+ quote_mark +:+ newline_str.

(** The text that [save] writes. *)
Definition config_text (c : CliConfig) : string :=
  "# remerge CLI configuration" +:+ newline_str +:+ "#" +:+ newline_str +:+
  "# server    — URL of the remerge server." +:+ newline_str +:+
  "# client_id — identifies this machine (or group) to the server." +:+ newline_str +:+
  "# role      — " +:+ quote_mark +:+ "main" +:+ quote_mark +:+ " (pushes config) or " +:+ quote_mark +:+ "follower" +:+ quote_mark +:+
  " (reuses config)." +:+ newline_str +:+ newline_str +:+
  quoted_value "server" (cfg_server c) +:+ quoted_value "client_id" (pretty (cfg_client_id c)) +:+
  quoted_value "role" (ClientRole_display (cfg_role c)).

(** A failing write is only logged. *)
Definition save (p : path) (c : CliConfig) : IO unit :=
  try_ (fs_write p (string_bytes (config_text c))) (fun _ => ret tt).

Section Load.
Context `{Toml} (text_of : bytes -> option string).

(** [toml::from_str]: the fields that are missing get their defaults. *)
Definition config_from_str {E} (content : string) (failure : E) : Comp E CliConfig :=
  match toml_parse content with
  | None => throw failure
  | Some f =>
      do id <- match tf_client_id f with Some id => ret id | None => generate_client_id end ;;
      ret {| cfg_server := default default_server (tf_server f); cfg_client_id := id; cfg_role := default Main (tf_role f) |}
  end.

Definition is_nil_id (id : ClientId) : bool := (id =? 0)%N.
Definition with_id (id : ClientId) (c : CliConfig) : CliConfig :=
  {| cfg_server := cfg_server c; cfg_client_id := id; cfg_role := cfg_role c |}.

Definition load_or_create (p : path) : IO CliConfig :=
  do present <- fs_exists p ;;
  if (present : bool) then
    do b <- with_context ("Failed to read " +:+ display p) (fs_read p) ;;
    match text_of b with
    | None => throw (IoErr OtherIo ("Failed to read " +:+ display p))
    | Some content =>
        do config <- config_from_str content (ParseErr ("Failed to parse " +:+ display p)) ;;
        if negb (contains_str "client_id" content) || is_nil_id (cfg_client_id config) then
          do config <- (if is_nil_id (cfg_client_id config) then do id <- generate_client_id ;; ret (with_id id config) else ret config) ;;
          save p config ;;
          ret config
        else ret config
    end
  else
    do config <- CliConfig_default ;;
    save p config ;;
    ret config.
End Load.

(** ** The identity of a machine *)

Section Identity.
Context `{Toml} (text_of : bytes -> option string).

(** The saved text is read back as it was meant. *)
Definition reads_back (c : CliConfig) : Prop :=
  text_of (string_bytes (config_text c)) = Some (config_text c) /\
  toml_parse (config_text c) = Some {| tf_server := Some (cfg_server c); tf_client_id := Some (cfg_client_id c); tf_role := Some (cfg_role c) |}.

Lemma config_text_mentions_id c : contains_str "client_id" (config_text c) = true.
Proof. unfold config_text. reflexivity. Qed.

Lemma load_saved p c w :
  faults w = [] -> files w !! p = Some (string_bytes (config_text c)) -> cfg_client_id c <> 0%N -> reads_back c ->
  load_or_create text_of p w = (Ok c, w).
Proof.
  intros Hf Hp Hid [Ht Hc]. unfold load_or_create, bind, fs_exists. rewrite Hp. cbn [is_some].
  unfold with_context, fs_read, guarded, pop_fault. rewrite Hf, Hp. cbv beta iota. rewrite Ht. cbv beta iota.
  unfold config_from_str. rewrite Hc. cbn [tf_client_id tf_server tf_role]. unfold bind, ret. cbv beta iota.
  rewrite config_text_mentions_id. cbn [negb orb cfg_client_id]. unfold is_nil_id. apply N.eqb_neq in Hid. rewrite Hid.
  by destruct c.
Qed.

(** What a first start leaves behind: the configuration it returns is in the file. *)
Definition first_start (p : path) (w : World) : Prop :=
  files w !! p = None \/
  exists b content, files w !! p = Some b /\ text_of b = Some content /\ contains_str "client_id" content = false.

Lemma load_saves p w c w' :
  faults w = [] -> first_start p w -> load_or_create text_of p w = (Ok c, w') ->
  faults w' = [] /\ files w' !! p = Some (string_bytes (config_text c)) /\ cfg_client_id c <> 0%N.
Proof.
  intros Hf Hfirst. unfold load_or_create, bind, fs_exists.
  destruct Hfirst as [Hp|(b & content & Hp & Ht & Hn)]; rewrite Hp; cbn [is_some].
  - unfold CliConfig_default, bind, generate_client_id, ret, save, try_, fs_write, guarded, pop_fault. simpl. rewrite ?Hf. simpl.
    intros [= <- <-]. simpl. split_and!; [done|apply lookup_insert_eq|lia].
  - unfold with_context, fs_read, guarded, pop_fault. rewrite Hf, Hp. cbv beta iota. rewrite Ht, Hn. cbv beta iota. cbn [negb orb].
    unfold config_from_str. destruct (toml_parse content) as [f|]; [|done]. unfold is_nil_id.
    destruct (tf_client_id f) as [id|]; unfold bind, ret, generate_client_id, save, try_, fs_write, guarded, pop_fault, with_id; simpl; rewrite ?Hf; simpl.
    + destruct (id =? 0)%N eqn:E; simpl; rewrite ?Hf; intros [= <- <-]; simpl; (split_and!; [done|apply lookup_insert_eq|]); [lia|by apply N.eqb_neq].
    + assert (Hs : (N.succ (next_uuid w) =? 0)%N = false) by (apply N.eqb_neq; lia). rewrite Hs. simpl. rewrite ?Hf.
      intros [= <- <-]. simpl. split_and!; [done|apply lookup_insert_eq|lia].
Qed.

(** A client whose configuration file does not exist, or does not mention
    [client_id], gets an identity and keeps it: with a writable file the next start
    reads the same configuration and leaves the file alone. *)
Theorem identity_persists p w c w' :
  faults w = [] -> first_start p w -> load_or_create text_of p w = (Ok c, w') -> reads_back c ->
  load_or_create text_of p w' = (Ok c, w').
Proof.
  intros Hf Hfirst Hload Hback. destruct (load_saves p w c w' Hf Hfirst Hload) as (Hf' & Hp & Hid). by apply load_saved.
Qed.

(** A file that sets no [client_id] but mentions the word, in a comment, say, never
    gets one: every start makes up another identity and nothing is written. *)
Theorem commented_client_id_drifts p w b content f :
  faults w = [] -> files w !! p = Some b -> text_of b = Some content -> toml_parse content = Some f -> tf_client_id f = None ->
  contains_str "client_id" content = true ->
  exists c1 c2 w1 w2, load_or_create text_of p w = (Ok c1, w1) /\ load_or_create text_of p w1 = (Ok c2, w2) /\
    cfg_client_id c1 <> cfg_client_id c2 /\ files w2 = files w.
Proof.
  intros Hf Hp Ht Hc Hid Hm.
  assert (Hload : forall v, faults v = [] -> files v = files w ->
    load_or_create text_of p v = (Ok {| cfg_server := default default_server (tf_server f); cfg_client_id := N.succ (next_uuid v);
      cfg_role := default Main (tf_role f) |}, {| files := files v; faults := faults v; next_uuid := next_uuid v + 1; clock := clock v |})).
  { intros v Hv Hfiles. unfold load_or_create, bind, fs_exists. rewrite Hfiles, Hp. cbn [is_some].
    unfold with_context, fs_read, guarded, pop_fault. rewrite Hv, Hfiles, Hp. cbv beta iota. rewrite Ht, Hm. cbv beta iota.
    unfold config_from_str. rewrite Hc, Hid. unfold bind, generate_client_id, ret. cbn [negb orb cfg_client_id]. unfold is_nil_id.
    assert (Hs : (N.succ (next_uuid v) =? 0)%N = false) by (apply N.eqb_neq; lia). rewrite Hs. simpl. by rewrite ?Hfiles, ?Hv. }
  eexists _, _, _, _. split; [by apply Hload|]. split; [by apply Hload|]. split; [simpl; lia|done].
Qed.
End Identity.

(** The file that the ebuild of the client installs. *)
Definition shipped_config : string :=
  "# remerge CLI configuration" +:+ newline_str +:+ "#" +:+ newline_str +:+ "# server: URL of the remerge build server." +:+ newline_str +:+
  "# client_id: auto-generated unique identifier for this machine." +:+ newline_str +:+ newline_str +:+
  quoted_value "server" "http://localhost:7654" +:+ "# client_id is generated automatically on first run." +:+ newline_str.

Definition demo_text_of (b : bytes) : option string := Some (String.string_of_list_byte b).
Definition demo_fields (id : option ClientId) : TomlFields :=
  {| tf_server := Some "http://localhost:7654"; tf_client_id := id; tf_role := Some Main |}.
Definition demo_toml : Toml := fun s => Some (demo_fields (if bool_decide (s = shipped_config) then None else Some 1%N)).
Definition demo_conf_world (c : option string) : World := {|
  files := match c with Some c => {[ ["etc"; "remerge.conf"] := string_bytes c ]} | None => ∅ end; faults := []; next_uuid := 0; clock := 0 |}.

Lemma identity_persists_witness :
  fst (@load_or_create demo_toml demo_text_of ["etc"; "remerge.conf"]
    (snd (@load_or_create demo_toml demo_text_of ["etc"; "remerge.conf"] (demo_conf_world None)))) =
  fst (@load_or_create demo_toml demo_text_of ["etc"; "remerge.conf"] (demo_conf_world None)).
Proof.
  set (c := {| cfg_server := "http://localhost:7654"; cfg_client_id := 1%N; cfg_role := Main |}).
  rewrite (@identity_persists demo_toml demo_text_of ["etc"; "remerge.conf"] (demo_conf_world None) c
    (snd (@load_or_create demo_toml demo_text_of ["etc"; "remerge.conf"] (demo_conf_world None)))); try reflexivity.
  - by left.
  - split; by vm_compute.
Defined.

Lemma commented_client_id_drifts_witness :
  exists c1 c2 w1 w2,
    @load_or_create demo_toml demo_text_of ["etc"; "remerge.conf"] (demo_conf_world (Some shipped_config)) = (Ok c1, w1) /\
    @load_or_create demo_toml demo_text_of ["etc"; "remerge.conf"] w1 = (Ok c2, w2) /\
    cfg_client_id c1 <> cfg_client_id c2 /\ files w2 = files (demo_conf_world (Some shipped_config)).
Proof.
  apply (@commented_client_id_drifts demo_toml demo_text_of ["etc"; "remerge.conf"] (demo_conf_world (Some shipped_config))
    (string_bytes shipped_config) shipped_config (demo_fields None)); try reflexivity; by vm_compute.
Defined.
