(* ===== verification/Disk.v ===== *)
(** * A disk with directories, symbolic links and modification times

    The client and the worker handle whole file trees, where what a path names
    depends on the links on the way.  Nodes are kept by their physical path; an
    operation first resolves the path it is given the way the kernel does, then acts
    on what it finds.  Creating, replacing or removing an entry updates the time of
    its directory.  As in [World], every operation consumes an entry of a fault
    schedule and may fail. *)

From S2P Require Import Prelude World Paths.

Inductive Node :=
| FileNode (content : bytes) (mtime : Z)
| DirNode (mtime : Z)
| LinkNode (target : bytes) (mtime : Z).

#[global] Instance Node_eq_dec : EqDecision Node.
Proof. solve_decision. Defined.

(** What a server answers to a GET request: no connection, an HTTP error, or a body
    in chunks that may break off. *)
Inductive Reply := NoConnection | HttpError (status : string) | Body (chunks : list bytes) (complete : bool).

(** [dir_len]: the size the file system reports for directories; [replies]: the
    answers to the coming requests, no connection after the last. *)
Record Disk := {
  nodes : gmap path Node; disk_faults : list (option Fault); disk_clock : Z; dir_len : Z; replies : list Reply;
}.

Definition with_nodes (ns : gmap path Node) (d : Disk) : Disk :=
  {| nodes := ns; disk_faults := disk_faults d; disk_clock := disk_clock d; dir_len := dir_len d; replies := replies d |}.

Abbreviation DiskOp := (StateResult Disk IoError).
Abbreviation DIO := (StateResult Disk Error).

(** ** Resolution *)

(** The text of a link: is it absolute, and its steps. *)
Definition link_steps (target : bytes) : bool * list string :=
  let s := String.string_of_list_byte target in
  (is_absolute s, List.filter (fun c => negb (is_empty c) && negb (bool_decide (c = "."))) (split_on "/" s)).

Definition MAX_LINKS : nat := 40.

(** Walks from the directory [here] along [todo]; a link at the end is followed if
    [follow].  The directory of the result exists, the result itself may not. *)
Fixpoint walk (links : nat) (ns : gmap path Node) (follow : bool) : path -> list string -> Result path IoError :=
  fix go (here : path) (todo : list string) {struct todo} : Result path IoError :=
    match todo with
    | [] => Ok here
    | c :: rest =>
        if bool_decide (c = "..") then go (removelast here) rest
        else
          let p := join here c in
          match ns !! p, rest with
          | Some (LinkNode target _), _ =>
              match rest, follow with
              | [], false => Ok p
              | _, _ =>
                  match links with
                  | O => Err OtherIo
                  | S links =>
                      let '(absolute, steps) := link_steps target in
                      walk links ns follow (if absolute then [] else here) (steps ++ rest)
                  end
              end
          | Some (DirNode _), _ => go p rest
          | _, [] => Ok p
          | Some (FileNode _ _), _ :: _ => Err OtherIo
          | None, _ :: _ => Err NotFound
          end
    end.

Definition resolve (follow : bool) (p : path) (ns : gmap path Node) : Result path IoError := walk MAX_LINKS ns follow [] p.

(** The root directory is always there. *)
Definition node_at (ns : gmap path Node) (p : path) : option Node :=
  match ns !! p with Some n => Some n | None => if bool_decide (p = []) then Some (DirNode 0) else None end.

(** What a path names. *)
Definition find_node (follow : bool) (p : path) (ns : gmap path Node) : Result (path * Node) IoError :=
  let? q := resolve follow p ns in
  match node_at ns q with Some n => Ok (q, n) | None => Err NotFound end.

(** ** Operations *)

Definition pop_disk_fault (d : Disk) : option Fault * Disk :=
  match disk_faults d with
  | [] => (None, d)
  | f :: r => (f, {| nodes := nodes d; disk_faults := r; disk_clock := disk_clock d; dir_len := dir_len d; replies := replies d |})
  end.

(** Runs [good] unless the schedule says that this operation fails; [bad n] is the
    effect of failing after [n] steps. *)
Definition faulty {A} (bad : nat -> Disk -> Disk) (good : DiskOp A) : DiskOp A := fun d =>
  let '(f, d) := pop_disk_fault d in
  match f with
  | Some ft => (Err (fault_error ft), match fault_written ft with Some n => bad n d | None => d end)
  | None => good d
  end.
Definition unaffected (_ : nat) (d : Disk) : Disk := d.

(** An operation that only looks. *)
Definition observe {A} (f : Disk -> Result A IoError) : DiskOp A := faulty unaffected (fun d => (f d, d)).

Inductive FileKind := IsFile | IsDir | IsLink.
#[global] Instance FileKind_eq_dec : EqDecision FileKind.
Proof. solve_decision. Defined.
Record Metadata := { md_kind : FileKind; md_len : Z; md_mtime : Z }.
Definition metadata_of (d : Disk) (n : Node) : Metadata :=
  match n with
  | FileNode b t => {| md_kind := IsFile; md_len := blen b; md_mtime := t |}
  | DirNode t => {| md_kind := IsDir; md_len := dir_len d; md_mtime := t |}
  | LinkNode b t => {| md_kind := IsLink; md_len := blen b; md_mtime := t |}
  end.

(** [fs::metadata], [fs::symlink_metadata], [fs::read_link] *)
Definition d_metadata (p : path) : DiskOp Metadata :=
  observe (fun d => let? x := find_node true p (nodes d) in Ok (metadata_of d (snd x))).
Definition d_symlink_metadata (p : path) : DiskOp Metadata :=
  observe (fun d => let? x := find_node false p (nodes d) in Ok (metadata_of d (snd x))).
Definition d_read_link (p : path) : DiskOp bytes :=
  observe (fun d => let? x := find_node false p (nodes d) in match snd x with LinkNode b _ => Ok b | _ => Err EINVAL end).

(** [File::open]: the file that was opened. *)
Definition d_open (p : path) : DiskOp path := observe (fun d => let? x := find_node true p (nodes d) in Ok (fst x)).
(** Reading the opened file to its end. *)
Definition d_read_all (q : path) : DiskOp bytes :=
  observe (fun d => match node_at (nodes d) q with Some (FileNode b _) => Ok b | Some _ => Err OtherIo | None => Err NotFound end).

(** The entry [p] of a directory is set or removed; the directory's time changes. *)
Definition touch_parent (p : path) (now : Z) (ns : gmap path Node) : gmap path Node :=
  match ns !! removelast p with Some (DirNode _) => <[removelast p := DirNode now]> ns | _ => ns end.
Definition put_entry (p : path) (n : Node) (d : Disk) : Disk := with_nodes (<[p := n]> (touch_parent p (disk_clock d) (nodes d))) d.
Definition drop_entry (p : path) (d : Disk) : Disk := with_nodes (delete p (touch_parent p (disk_clock d) (nodes d))) d.

(** [File::create]: truncates what is there, or makes an empty file. *)
Definition d_create (p : path) : DiskOp path := faulty unaffected (fun d =>
  match resolve true p (nodes d) with
  | Err e => (Err e, d)
  | Ok q =>
      match node_at (nodes d) q with
      | Some (FileNode _ _) => (Ok q, with_nodes (<[q := FileNode [] (disk_clock d)]> (nodes d)) d)
      | Some _ => (Err OtherIo, d)
      | None => (Ok q, put_entry q (FileNode [] (disk_clock d)) d)
      end
  end).

(** [file.write_all(chunk)] on the opened file; a failing write may write a prefix. *)
Definition append_to (q : path) (b : bytes) (d : Disk) : Disk :=
  match nodes d !! q with
  | Some (FileNode c _) => with_nodes (<[q := FileNode (c ++ b) (disk_clock d)]> (nodes d)) d
  | _ => d
  end.
Definition d_append (q : path) (b : bytes) : DiskOp unit :=
  faulty (fun n => append_to q (take n b)) (fun d => (Ok tt, append_to q b d)).
Definition d_flush : DiskOp unit := observe (fun _ => Ok tt).

(** [create_dir_all]: makes the missing directories from the top down. *)
Fixpoint make_dirs (above todo : path) (d : Disk) : Result unit IoError * Disk :=
  match todo with
  | [] => (Ok tt, d)
  | c :: rest =>
      let p := join above c in
      match find_node true p (nodes d) with
      | Ok (_, DirNode _) => make_dirs p rest d
      | Ok _ => (Err AlreadyExists, d)
      | Err NotFound =>
          match resolve false p (nodes d) with
          | Ok q => match nodes d !! q with
                    | Some _ => (Err AlreadyExists, d)
                    | None => make_dirs p rest (put_entry q (DirNode (disk_clock d)) d)
                    end
          | Err e => (Err e, d)
          end
      | Err e => (Err e, d)
      end
  end.
Definition d_create_dir_all (p : path) : DiskOp unit :=
  faulty (fun n d => snd (make_dirs [] (take n p) d)) (make_dirs [] p).

(** [fs::remove_file] *)
Definition d_remove_file (p : path) : DiskOp unit := faulty unaffected (fun d =>
  match find_node false p (nodes d) with
  | Ok (q, DirNode _) => (Err OtherIo, d)
  | Ok (q, _) => (Ok tt, drop_entry q d)
  | Err e => (Err e, d)
  end).

(** [fs::rename] of a file or link. *)
Definition d_rename (src dst : path) : DiskOp unit := faulty unaffected (fun d =>
  match find_node false src (nodes d), resolve false dst (nodes d) with
  | Err e, _ => (Err e, d)
  | Ok _, Err e => (Err e, d)
  | Ok (_, DirNode _), Ok _ => (Err OtherIo, d)
  | Ok (q, n), Ok q' =>
      if bool_decide (q = q') then (Ok tt, d)
      else match node_at (nodes d) q' with
           | Some (DirNode _) => (Err OtherIo, d)
           | _ => (Ok tt, put_entry q' n (drop_entry q d))
           end
  end).

(** [std::os::unix::fs::symlink]; an empty target is refused. *)
Definition d_symlink (target : bytes) (p : path) : DiskOp unit := faulty unaffected (fun d =>
  match target with
  | [] => (Err NotFound, d)
  | _ =>
      match resolve false p (nodes d) with
      | Err e => (Err e, d)
      | Ok q => match node_at (nodes d) q with
                | Some _ => (Err AlreadyExists, d)
                | None => (Ok tt, put_entry q (LinkNode target (disk_clock d)) d)
                end
      end
  end).

(** [filetime::set_file_mtime] follows links, [set_symlink_file_times] does not. *)
Definition with_mtime (t : Z) (n : Node) : Node :=
  match n with FileNode b _ => FileNode b t | DirNode _ => DirNode t | LinkNode b _ => LinkNode b t end.
Definition d_set_mtime (follow : bool) (p : path) (t : Z) : DiskOp unit := faulty unaffected (fun d =>
  match find_node follow p (nodes d) with
  | Ok (q, n) => (Ok tt, with_nodes (<[q := with_mtime t n]> (nodes d)) d)
  | Err e => (Err e, d)
  end).

(** ** Paths *)

(** [path.file_stem()] of a file name: what is before the last dot, if that is not
    the first character. *)
Fixpoint last_dot (s : string) : option (string * string) :=
  match s with
  | EmptyString => None
  | String c r =>
      match last_dot r with
      | Some (a, b) => Some (String c a, b)
      | None => if Ascii.eqb c "." then Some ("", r) else None
      end
  end.
Definition file_stem (name : string) : string :=
  match last_dot name with Some (a, _) => if is_empty a then name else a | None => name end.
(** [path.with_extension(ext)] *)
Definition with_extension (p : path) (ext : string) : path :=
  match last p with Some name => join (removelast p) (file_stem name +:+ "." +:+ ext) | None => p end.

(** ** Downloads ([client.rs])

    [self.http.get(url).send()]: takes the next answer. *)
Definition http_get {E} : StateResult Disk E Reply := fun d =>
  match replies d with
  | [] => (Ok NoConnection, d)
  | r :: rest => (Ok r, {| nodes := nodes d; disk_faults := disk_faults d; disk_clock := disk_clock d; dir_len := dir_len d; replies := rest |})
  end.

(** [download_file_with_progress], without the progress reports. *)
Definition download_file (url : string) (destination : path) : DIO unit :=
  do reply <- http_get ;;
  match reply with
  | NoConnection => throw (Bail ("Failed to download " +:+ url))
  | HttpError status => throw (Bail ("Server returned " +:+ status +:+ " for " +:+ url))
  | Body chunks complete =>
      do file <- with_context ("Failed to create " +:+ display destination) (d_create destination) ;;
      for_io (fun chunk => with_context ("Failed to write " +:+ display destination) (d_append file chunk)) chunks ;;
      if negb complete then throw (Bail ("Failed while reading " +:+ url))
      else with_context ("Failed to flush " +:+ display destination) d_flush
  end.
