(* ===== verification/LocalState.v ===== *)
(** * The local follow-up: binary packages, distfiles and the worker's final state

    [crates/cli/src/args.rs]: what the client does to its own disk after a remote
    build.  The binary packages go to the package cache, the distfiles that the
    worker fetched and the final state of its trees are restored by digest, and the
    result is verified. *)

From S2P Require Import Prelude Types World Text Paths BlobStore Repo Runtime PortageFiles Disk.

Section Local.
Context `{Sha256} (base_url : string).

(** [download_blob] *)
Definition download_blob (digest : string) (destination : path) : DIO unit :=
  download_file (base_url +:+ "/api/v1/snapshots/blobs/" +:+ digest) destination.

(** ** Where the files go *)

Definition sanitize_binpkg_path (s : string) : Result path Error :=
  if is_absolute s then Err (Bail "absolute paths are not allowed")
  else
    let? sanitized := push_normals (Bail "path traversal is not allowed") [] (components s) in
    match sanitized with [] => Err (Bail "empty paths are not allowed") | _ => Ok sanitized end.

Definition is_approved_parity_path (p : path) : bool :=
  match p with
  | v :: x :: y :: rest =>
      bool_decide (v = "var") &&
      (bool_decide ((x, y) = ("cache", "binpkgs") /\ rest = ["Packages"]) ||
       bool_decide ((x, y) = ("cache", "eclass")) ||
       bool_decide ((x, y) = ("db", "repos")) &&
         match rest with
         | [_; z] => bool_decide (z = "Packages" \/ z = "metadata")
         | _ :: z :: _ => bool_decide (z = "metadata")
         | _ => false
         end ||
       bool_decide ((x, y) = ("lib", "portage")))
  | _ => false
  end.

Definition resolve_relative_target (root : path) (relative_path : string) : Result path Error :=
  let? sanitized := sanitize_binpkg_path relative_path in Ok (root ++ sanitized).
Definition resolve_parity_target (root : path) (relative_path : string) : Result path Error :=
  let? sanitized := sanitize_binpkg_path relative_path in
  if is_approved_parity_path sanitized then Ok (root ++ sanitized)
  else Err (Bail ("Parity path is outside the approved include set: " +:+ relative_path)).

(** ** Comparing with the manifest *)

Definition sha256_file (p : path) : DIO string :=
  do file <- with_context ("Failed to open " +:+ display p) (d_open p) ;;
  do b <- with_context ("Failed to read " +:+ display p) (d_read_all file) ;;
  ret (sha256_hex b).

(** [match metadata(..) { Ok(m) => .., NotFound => return Ok(false), Err(e) => return Err(e) }] *)
Definition or_absent (p : path) (stat : DiskOp Metadata) (k : Metadata -> DIO bool) : DIO bool :=
  try_ stat (fun r => match r with
    | Ok m => k m
    | Err NotFound => ret false
    | Err e => throw (IoErr e ("Failed to stat " +:+ display p))
    end).

Definition snapshot_file_matches (target : path) (e : SnapshotEntry) : DIO bool :=
  or_absent target (d_metadata target) (fun m =>
    if negb (bool_decide (md_kind m = IsFile)) || negb (md_len m =? se_size e) || negb (md_mtime m =? se_mtime_secs e) then ret false
    else do digest <- sha256_file target ;; ret (bool_decide (digest = se_digest e))).

Definition parity_directory_matches (p : path) (e : ParityDirectoryEntry) : DIO bool :=
  or_absent p (d_symlink_metadata p) (fun m => ret (bool_decide (md_kind m = IsDir) && (md_mtime m =? pde_mtime_secs e))).

Definition parity_symlink_matches (p : path) (e : ParitySymlinkEntry) : DIO bool :=
  or_absent p (d_symlink_metadata p) (fun m =>
    if negb (bool_decide (md_kind m = IsLink)) || negb (md_mtime m =? pse_mtime_secs e) then ret false
    else
      do target <- with_context ("Failed to read symlink " +:+ display p) (d_read_link p) ;;
      ret ((blen target =? pse_size e) && bool_decide (sha256_hex target = pse_digest e))).

Definition parity_file_matches (p : path) (e : ParityFileEntry) : DIO bool :=
  or_absent p (d_metadata p) (fun m =>
    if negb (md_len m =? pfe_size e) || negb (md_mtime m =? pfe_mtime_secs e) then ret false
    else do digest <- sha256_file p ;; ret (bool_decide (digest = pfe_digest e))).

(** ** Restoring one entry *)

Definition set_file_mtime (p : path) (t : Z) : DIO unit :=
  with_context ("Failed to set mtime on " +:+ display p) (d_set_mtime true p t).
Definition set_symlink_mtime (p : path) (t : Z) : DIO unit :=
  with_context ("Failed to set symlink mtime on " +:+ display p) (d_set_mtime false p t).

Definition create_parent (target : path) : DIO unit :=
  match target with
  | [] => ret tt
  | _ => with_context ("Failed to create " +:+ display (removelast target)) (d_create_dir_all (removelast target))
  end.

Definition lift {A} (r : Result A Error) : DIO A := fun d => (r, d).
(** [.with_context(..)] on an anyhow result. *)
Definition recontext {A} (ctx : string) (m : DIO A) : DIO A := fun d => let '(r, d') := m d in (contextual ctx r, d').

(** The download into [temporary], its size and its digest checked. *)
Definition fetch_verified (label relative_path digest : string) (size : Z) (temporary : path) : DIO unit :=
  recontext ("mismatched " +:+ label +:+ " " +:+ relative_path +:+ ": download failed") (download_blob digest temporary) ;;
  do m <- with_context ("Failed to stat " +:+ display temporary) (d_metadata temporary) ;;
  if negb (md_len m =? size) then
    throw (Bail ("mismatched " +:+ label +:+ " " +:+ relative_path +:+ ": downloaded " +:+ pretty (md_len m) +:+ " byte(s) but expected " +:+ pretty size))
  else
  do actual <- sha256_file temporary ;;
  if bool_decide (actual <> digest) then
    throw (Bail ("mismatched " +:+ label +:+ " " +:+ relative_path +:+ ": expected digest " +:+ digest +:+ ", got " +:+ actual))
  else ret tt.

(** The common part of [restore_single_parity_file] and [restore_single_snapshot_file]. *)
Definition restore_file (label ext relative_path digest : string) (size mtime : Z) (target : path) (matches : DIO bool) : DIO unit :=
  do fine <- matches ;;
  if (fine : bool) then ret tt
  else
  let temporary := with_extension target ext in
  create_parent target ;;
  fetch_verified label relative_path digest size temporary ;;
  with_context ("Failed to move " +:+ display temporary +:+ " into " +:+ display target) (d_rename temporary target) ;;
  set_file_mtime target mtime ;;
  do fine <- matches ;;
  if (fine : bool) then ret tt
  else throw (Bail ("mismatched " +:+ label +:+ " " +:+ relative_path +:+ ": verification failed after restore")).

Definition restore_single_parity_file (root : path) (relative_path : string) (e : ParityFileEntry) : DIO unit :=
  match resolve_parity_target root relative_path with
  | Err error => throw (Bail ("excluded parity path " +:+ relative_path +:+ ": " +:+ Error_to_string error))
  | Ok target =>
      restore_file "parity path" "remerge-parity.part" relative_path (pfe_digest e) (pfe_size e) (pfe_mtime_secs e) target
        (parity_file_matches target e)
  end.

Definition restore_single_snapshot_file (root : path) (relative_path : string) (e : SnapshotEntry) (label : string) : DIO unit :=
  match resolve_relative_target root relative_path with
  | Err error => throw (Bail ("invalid " +:+ label +:+ " path " +:+ relative_path +:+ ": " +:+ Error_to_string error))
  | Ok target =>
      restore_file (label +:+ " path") ("remerge-" +:+ label +:+ ".part") relative_path (se_digest e) (se_size e) (se_mtime_secs e) target
        (snapshot_file_matches target e)
  end.

(** Makes room for a link: an existing file or link goes, a directory is an error. *)
Definition clear_link_target (relative_path : string) (target : path) : DIO unit :=
  try_ (d_symlink_metadata target) (fun r => match r with
    | Ok m =>
        if bool_decide (md_kind m = IsDir) then
          throw (Bail ("mismatched parity symlink " +:+ relative_path +:+ ": existing path is a directory"))
        else with_context ("Failed to remove " +:+ display target) (d_remove_file target)
    | Err NotFound => ret tt
    | Err e => throw (IoErr e ("Failed to stat " +:+ display target))
    end).

Definition restore_single_parity_symlink (root : path) (relative_path : string) (e : ParitySymlinkEntry) : DIO unit :=
  match resolve_parity_target root relative_path with
  | Err error => throw (Bail ("excluded parity symlink " +:+ relative_path +:+ ": " +:+ Error_to_string error))
  | Ok target =>
      do fine <- parity_symlink_matches target e ;;
      if (fine : bool) then ret tt
      else
      create_parent target ;;
      let temporary := with_extension target "remerge-parity-symlink.part" in
      fetch_verified "parity symlink" relative_path (pse_digest e) (pse_size e) temporary ;;
      do file <- with_context ("Failed to read " +:+ display temporary) (d_open temporary) ;;
      do target_bytes <- with_context ("Failed to read " +:+ display temporary) (d_read_all file) ;;
      with_context ("Failed to remove " +:+ display temporary) (d_remove_file temporary) ;;
      clear_link_target relative_path target ;;
      let temporary_link := with_extension target "remerge-parity-symlink.link" in
      try_ (d_remove_file temporary_link) (fun _ =>
      with_context ("Failed to create " +:+ display temporary_link) (d_symlink target_bytes temporary_link) ;;
      with_context ("Failed to move " +:+ display temporary_link +:+ " into " +:+ display target) (d_rename temporary_link target) ;;
      set_symlink_mtime target (pse_mtime_secs e))
  end.

Definition ensure_parity_directory_exists (root : path) (relative_path : string) : DIO unit :=
  do target <- lift (contextual ("excluded parity directory " +:+ relative_path) (resolve_parity_target root relative_path)) ;;
  try_ (d_symlink_metadata target) (fun r => match r with
    | Ok m =>
        if bool_decide (md_kind m = IsDir) then ret tt
        else throw (Bail ("mismatched parity directory " +:+ relative_path +:+ ": existing path is not a directory"))
    | Err NotFound => with_context ("Failed to create " +:+ display target) (d_create_dir_all target)
    | Err e => throw (IoErr e ("Failed to stat " +:+ display target))
    end).

Definition finalize_parity_directory_mtime (root : path) (relative_path : string) (e : ParityDirectoryEntry) : DIO unit :=
  do target <- lift (contextual ("excluded parity directory " +:+ relative_path) (resolve_parity_target root relative_path)) ;;
  do m <- with_context ("Failed to stat " +:+ display target) (d_symlink_metadata target) ;;
  if negb (bool_decide (md_kind m = IsDir)) then
    throw (Bail ("mismatched parity directory " +:+ relative_path +:+ ": existing path is not a directory"))
  else set_file_mtime target (pde_mtime_secs e).

(** ** Restoring everything *)

(** [for x in xs { if let Err(error) = f(x) { issues.push(error.to_string()); } }] *)
Fixpoint collect_issues {A} (f : A -> DIO unit) (xs : list A) : StateResult Disk Error (list string) :=
  match xs with
  | [] => ret []
  | x :: rest =>
      try_ (f x) (fun r =>
      do others <- collect_issues f rest ;;
      ret (match r with Ok _ => others | Err e => Error_to_string e :: others end))
  end.

(** One entry of [verify_parity_manifest]. *)
Definition verify_entry {A} (label : string) (root : path) (matches : path -> A -> DIO bool) (item : string * A) : DIO unit :=
  let '(relative_path, e) := item in
  do target <- lift (resolve_parity_target root relative_path) ;;
  do fine <- matches target e ;;
  if (fine : bool) then ret tt
  else throw (Bail ("mismatched parity " +:+ label +:+ " " +:+ relative_path +:+ ": verification failed after restore")).

Definition verify_parity_manifest (root : path) (m : ParityManifest) : DIO (list string) :=
  do a <- collect_issues (verify_entry "directory" root parity_directory_matches) (btree_items (pm_directories m)) ;;
  do b <- collect_issues (verify_entry "symlink" root parity_symlink_matches) (btree_items (pm_symlinks m)) ;;
  do c <- collect_issues (verify_entry "path" root parity_file_matches) (btree_items (pm_files m)) ;;
  ret (a ++ b ++ c).

Definition failure (what : string) (issues : list string) : Error :=
  Bail (what +:+ " failed for " +:+ pretty (length issues) +:+ " path(s): " +:+ join_with "; " issues).

Definition reconcile_final_state_parity_into (root : path) (r : WorkorderResult) : DIO unit :=
  let m := wr_parity_manifest r in
  if bool_decide (pm_files m = ∅) && bool_decide (pm_directories m = ∅) && bool_decide (pm_symlinks m = ∅) then ret tt
  else
  do a <- collect_issues (fun '(p, _) => ensure_parity_directory_exists root p) (btree_items (pm_directories m)) ;;
  do b <- collect_issues (fun '(p, e) => restore_single_parity_symlink root p e) (btree_items (pm_symlinks m)) ;;
  do c <- collect_issues (fun '(p, e) => restore_single_parity_file root p e) (btree_items (pm_files m)) ;;
  do d <- collect_issues (fun '(p, e) => finalize_parity_directory_mtime root p e) (btree_items (pm_directories m)) ;;
  do issues <- match a ++ b ++ c ++ d with [] => verify_parity_manifest root m | issues => ret issues end ;;
  match issues with [] => ret tt | _ => throw (failure "Final-state parity reconciliation" issues) end.

Definition reconcile_fetched_distfiles_into (distdir : path) (r : WorkorderResult) : DIO unit :=
  if bool_decide (wr_fetched_distfiles r = ∅) then ret tt
  else
  do issues <- collect_issues (fun '(p, e) => restore_single_snapshot_file distdir p e "distfile") (btree_items (wr_fetched_distfiles r)) ;;
  match issues with [] => ret tt | _ => throw (failure "Fetched distfile reconciliation" issues) end.

(** ** Binary packages *)

Inductive PackageSyncDisposition := CacheHit | Downloaded.

Definition is_package_cached (p : path) (pkg : BuiltPackage) : DIO bool :=
  or_absent p (d_metadata p) (fun m =>
    if negb (md_len m =? bpk_size pkg) then ret false
    else do digest <- sha256_file p ;; ret (eq_ignore_ascii_case digest (bpk_sha256 pkg))).

Fixpoint trim_start_slashes (s : string) : string :=
  match s with String c r => if Ascii.eqb c "/" then trim_start_slashes r else s | EmptyString => s end.

Definition sync_single_binpkg (r : WorkorderResult) (pkgdir : path) (pkg : BuiltPackage) : DIO PackageSyncDisposition :=
  do relative_path <- recontext ("Invalid binpkg path '" +:+ bpk_binpkg_path pkg +:+ "'") (lift (sanitize_binpkg_path (bpk_binpkg_path pkg))) ;;
  let destination := pkgdir ++ relative_path in
  create_parent destination ;;
  do cached <- is_package_cached destination pkg ;;
  if (cached : bool) then ret CacheHit
  else
  let temporary := with_extension destination "part" in
  download_file (trim_end_slashes (wr_binhost_uri r) +:+ "/" +:+ trim_start_slashes (bpk_binpkg_path pkg)) temporary ;;
  do m <- with_context ("Failed to stat " +:+ display temporary) (d_metadata temporary) ;;
  if negb (md_len m =? bpk_size pkg) then
    throw (Bail ("Downloaded " +:+ pretty (md_len m) +:+ " but expected " +:+ pretty (bpk_size pkg) +:+ " bytes for " +:+ bpk_atom pkg))
  else
  do digest <- sha256_file temporary ;;
  if negb (eq_ignore_ascii_case digest (bpk_sha256 pkg)) then
    throw (Bail ("SHA256 mismatch for " +:+ bpk_atom pkg +:+ ": expected " +:+ bpk_sha256 pkg +:+ ", got " +:+ digest))
  else
  with_context ("Failed to move " +:+ display temporary +:+ " into " +:+ display destination) (d_rename temporary destination) ;;
  ret Downloaded.

(** A Packages index that cannot be refreshed is only logged. *)
Definition sync_local_binpkg_cache_into (r : WorkorderResult) (pkgdir : path) : DIO unit :=
  with_context ("Failed to create " +:+ display pkgdir) (d_create_dir_all pkgdir) ;;
  for_io (fun pkg =>
      recontext ("Failed to sync local binpkg cache for " +:+ bpk_atom pkg) (sync_single_binpkg r pkgdir pkg) ;; ret tt)
    (wr_built_packages r) ;;
  try_ (download_file (trim_end_slashes (wr_binhost_uri r) +:+ "/Packages") (join pkgdir "Packages")) (fun _ => ret tt).

(** [PKGDIR], else what [portageq] says, else the default; [DISTDIR]; [ROOT].  The
    directories are taken to be absolute. *)
Definition non_blank (v : option string) : option string :=
  match v with Some v => if is_empty (trim v) then None else Some (trim v) | None => None end.
Definition detect_local_pkgdir (pkgdir_var portageq : option string) : string :=
  default "/var/cache/binpkgs" (non_blank pkgdir_var <|> non_blank portageq).
Definition file_binhost_uri (pkgdir : string) : option string := if is_absolute pkgdir then Some ("file://" +:+ pkgdir) else None.
Definition distdir_root (distdir_var : option string) : string :=
  match distdir_var with Some v => if is_empty v then "/var/cache/distfiles" else v | None => "/var/cache/distfiles" end.
Definition parity_root (root_var : option string) : string := default "/" root_var.

Definition sync_local_binpkg_cache (pkgdir_var portageq : option string) (r : WorkorderResult) : DIO (option string) :=
  match wr_built_packages r with
  | [] => ret None
  | _ =>
      let pkgdir := detect_local_pkgdir pkgdir_var portageq in
      sync_local_binpkg_cache_into r (join_str [] pkgdir) ;; ret (file_binhost_uri pkgdir)
  end.
End Local.
