(* ===== verification/LocalSafety.v ===== *)
(** * What the local follow-up guarantees

    A reconciliation that reports success has made every entry of the manifest true
    on the disk and doing it again changes nothing; without symbolic links it only
    touches the approved places; with them it can be led elsewhere.  A synchronised
    package has the announced size and digest. *)

From S2P Require Import Prelude Types World Text Paths BlobStore Disk LocalState.

(** ** Looking without touching *)

(** Same tree, same answers to come; only faults were used up. *)
Record same_tree (d d' : Disk) : Prop := {
  st_nodes : nodes d' = nodes d;
  st_replies : replies d' = replies d;
  st_clock : disk_clock d' = disk_clock d;
  st_dir_len : dir_len d' = dir_len d;
}.

Definition looks {E A} (m : StateResult Disk E A) : Prop := forall d, same_tree d (snd (m d)).

Lemma same_tree_refl d : same_tree d d.
Proof. done. Qed.
Lemma same_tree_trans d1 d2 d3 : same_tree d1 d2 -> same_tree d2 d3 -> same_tree d1 d3.
Proof. intros [] []. split; congruence. Qed.
Lemma same_tree_sym d1 d2 : same_tree d1 d2 -> same_tree d2 d1.
Proof. intros []. by split. Qed.

Lemma looks_ret {E A} (a : A) : looks (ret (S := Disk) (E := E) a).
Proof. intros d. done. Qed.
Lemma looks_throw {E A} (e : E) : looks (throw (S := Disk) (A := A) e).
Proof. intros d. done. Qed.
Lemma looks_bind {E A B} (m : StateResult Disk E A) (k : A -> StateResult Disk E B) : looks m -> (forall a, looks (k a)) -> looks (bind m k).
Proof.
  intros Hm Hk d. unfold bind. specialize (Hm d). destruct (m d) as [[a|e] d1]; [|done]. eapply same_tree_trans; [exact Hm|apply Hk].
Qed.
Lemma looks_try {E F A B} (m : StateResult Disk E A) (k : Result A E -> StateResult Disk F B) : looks m -> (forall r, looks (k r)) -> looks (try_ m k).
Proof. intros Hm Hk d. unfold try_. specialize (Hm d). destruct (m d) as [r d1]. eapply same_tree_trans; [exact Hm|apply Hk]. Qed.
Lemma looks_with_context {A} ctx (m : DiskOp A) : looks m -> looks (with_context ctx m).
Proof. intros Hm d. unfold with_context. specialize (Hm d). by destruct (m d) as [[a|e] d1]. Qed.
Lemma pop_same d : same_tree d (snd (pop_disk_fault d)).
Proof. unfold pop_disk_fault. by destruct (disk_faults d). Qed.
Lemma looks_observe {A} (f : Disk -> Result A IoError) : looks (observe f).
Proof.
  intros d. unfold observe, faulty. pose proof (pop_same d) as Hp. destruct (pop_disk_fault d) as [[ft|] d1]; [|done].
  simpl in *. by destruct (fault_written ft).
Qed.
Lemma looks_lift {A} (r : Result A Error) : looks (lift r).
Proof. intros d. done. Qed.
Create HintDb looks.
#[export] Hint Resolve looks_ret looks_throw looks_observe looks_lift : looks.
Ltac solve_looks :=
  repeat first [ progress auto with looks | apply looks_with_context | apply looks_bind; [|intros ?]
               | apply looks_try; [|intros ?] | case_match ].

(** ** What a path names depends on the tree alone *)

Lemma observe_Ok {A} (f : Disk -> Result A IoError) d a d' :
  observe f d = (Ok a, d') -> same_tree d d' /\ f d' = Ok a.
Proof.
  unfold observe, faulty. pose proof (pop_same d) as Hp. destruct (pop_disk_fault d) as [[ft|] d1]; [done|].
  intros [= Hf <-]. by split.
Qed.

Lemma observe_quiet {A} (f : Disk -> Result A IoError) d : disk_faults d = [] -> observe f d = (f d, d).
Proof. intros Hf. unfold observe, faulty, pop_disk_fault. by rewrite Hf. Qed.

Lemma disk_bind_Ok {E A B} (m : StateResult Disk E A) (k : A -> StateResult Disk E B) d b d' :
  bind m k d = (Ok b, d') -> exists a d1, m d = (Ok a, d1) /\ k a d1 = (Ok b, d').
Proof. unfold bind. destruct (m d) as [[a|e] d1]; [|done]. eauto. Qed.

Lemma disk_context_Ok {A} ctx (m : DiskOp A) d a d' : with_context ctx m d = (Ok a, d') <-> m d = (Ok a, d').
Proof. unfold with_context. destruct (m d) as [[b|e] d1]; split; congruence. Qed.

Lemma or_absent_true p stat k d d' :
  or_absent p stat k d = (Ok true, d') -> exists m d1, stat d = (Ok m, d1) /\ k m d1 = (Ok true, d').
Proof.
  unfold or_absent, try_. destruct (stat d) as [[m|[]] d1]; intros Hk; try discriminate Hk. eauto.
Qed.

(** ** Walking *)

Lemma walk_nil links ns follow here : walk links ns follow here [] = Ok here.
Proof. by destruct links. Qed.

Lemma walk_cons links ns follow here c rest :
  walk links ns follow here (c :: rest) =
  if bool_decide (c = "..") then walk links ns follow (removelast here) rest
  else match ns !! join here c, rest with
       | Some (LinkNode target _), _ =>
           match rest, follow with
           | [], false => Ok (join here c)
           | _, _ => match links with
                     | O => Err OtherIo
                     | S links => let '(absolute, steps) := link_steps target in
                                  walk links ns follow (if absolute then [] else here) (steps ++ rest)
                     end
           end
       | Some (DirNode _), _ => walk links ns follow (join here c) rest
       | _, [] => Ok (join here c)
       | Some (FileNode _ _), _ :: _ => Err OtherIo
       | None, _ :: _ => Err NotFound
       end.
Proof. by destruct links. Qed.

(** Induction along a walk: fewer links to go, or fewer steps. *)
Lemma walk_ind (P : nat -> path -> list string -> Prop) :
  (forall links here todo,
    (forall here' todo', (length todo' < length todo)%nat -> P links here' todo') ->
    (forall links' here' todo', links = S links' -> P links' here' todo') -> P links here todo) ->
  forall links here todo, P links here todo.
Proof.
  intros Hstep links. induction links as [links IHl] using lt_wf_ind. intros here todo.
  remember (length todo) as n eqn:Hn. revert here todo Hn. induction n as [n IHn] using lt_wf_ind. intros here todo ->.
  apply Hstep; [intros here' todo' Hlt; by apply (IHn (length todo'))|intros links' here' todo' ->; apply IHl; lia].
Qed.

(** A walk that does not end at a link goes the same way when links are followed. *)
Lemma walk_follow links here todo ns q :
  walk links ns false here todo = Ok q -> (forall b t, ns !! q <> Some (LinkNode b t)) -> walk links ns true here todo = Ok q.
Proof.
  revert q. induction links, here, todo as [links here todo IHt IHl] using walk_ind. intros q.
  destruct todo as [|c rest]; [by rewrite !walk_nil|]. rewrite !walk_cons. case_bool_decide; [apply IHt; simpl; lia|].
  destruct (ns !! join here c) as [[b t|t|b t]|] eqn:E; [by destruct rest|apply IHt; simpl; lia| |by destruct rest].
  destruct rest as [|c' rest]; [intros [= <-] Hn; by destruct (Hn b t)|]. destruct links as [|links]; [done|].
  destruct (link_steps b) as [absolute steps]. by apply IHl.
Qed.

(** A walk that does not follow links ends at an entry of the last name. *)
Lemma walk_last links here todo ns q c :
  walk links ns false here todo = Ok q -> last todo = Some c -> c <> ".." -> q <> [].
Proof.
  revert q. induction links, here, todo as [links here todo IHt IHl] using walk_ind. intros q.
  destruct todo as [|c' rest]; [done|]. rewrite walk_cons. intros Hw Hl Hc.
  assert (Hrest : rest = [] /\ c' = c \/ last rest = Some c) by (destruct rest; [left; by injection Hl|by right]).
  case_bool_decide as Hdd.
  { destruct Hrest as [[-> ->]|Hr]; [done|]. eapply IHt; [|exact Hw|exact Hr|done]. simpl; lia. }
  assert (Hj : join here c' <> []) by (unfold join; by destruct here).
  destruct (ns !! join here c') as [[b t|t|b t]|] eqn:E.
  - destruct rest; [by injection Hw as <-|done].
  - destruct Hrest as [[-> ->]|Hr]; [rewrite walk_nil in Hw; by injection Hw as <-|]. eapply IHt; [|exact Hw|exact Hr|done]. simpl; lia.
  - destruct Hrest as [[-> ->]|Hr]; [by injection Hw as <-|]. destruct rest as [|c'' rest]; [done|].
    destruct links as [|links]; [done|]. destruct (link_steps b) as [absolute steps].
    eapply IHl; [done|exact Hw| |done]. rewrite last_app. by rewrite Hr.
  - destruct rest; [by injection Hw as <-|done].
Qed.

(** ** A manifest that holds *)

Section Parity.
Context `{Sha256}.

(** Each entry names an approved place, where the tree has what the manifest says. *)
Definition directory_holds (ns : gmap path Node) (root : path) (item : string * ParityDirectoryEntry) : Prop :=
  exists target q, resolve_parity_target root (fst item) = Ok target /\ resolve false target ns = Ok q /\
    ns !! q = Some (DirNode (pde_mtime_secs (snd item))).
Definition symlink_holds (ns : gmap path Node) (root : path) (item : string * ParitySymlinkEntry) : Prop :=
  exists target q b, resolve_parity_target root (fst item) = Ok target /\ resolve false target ns = Ok q /\
    ns !! q = Some (LinkNode b (pse_mtime_secs (snd item))) /\ blen b = pse_size (snd item) /\ sha256_hex b = pse_digest (snd item).
Definition file_holds (ns : gmap path Node) (root : path) (item : string * ParityFileEntry) : Prop :=
  exists target q b, resolve_parity_target root (fst item) = Ok target /\ resolve true target ns = Ok q /\
    ns !! q = Some (FileNode b (pfe_mtime_secs (snd item))) /\ blen b = pfe_size (snd item) /\ sha256_hex b = pfe_digest (snd item).

Definition manifest_holds (ns : gmap path Node) (root : path) (m : ParityManifest) : Prop :=
  (forall p e, pm_directories m !! p = Some e -> directory_holds ns root (p, e)) /\
  (forall p e, pm_symlinks m !! p = Some e -> symlink_holds ns root (p, e)) /\
  (forall p e, pm_files m !! p = Some e -> file_holds ns root (p, e)).

(** Targets end in a proper name. *)
Lemma sanitize_Ok s p : sanitize_binpkg_path s = Ok p -> exists c, last p = Some c /\ Forall file_name_ok p /\ p <> [].
Proof.
  unfold sanitize_binpkg_path. destruct (is_absolute s); [done|].
  destruct (push_normals _ [] (components s)) as [p'|] eqn:E; [|done]. cbn [rbind]. destruct p' as [|x p']; [done|]. intros [= <-].
  apply push_normals_Ok in E as (ns & Hc & Hp). simpl in Hp. subst ns.
  destruct (last (x :: p')) as [c|] eqn:El; [|by apply last_None in El]. exists c. split_and!; [done| |done].
  apply Forall_forall. intros n Hn. apply (components_normal s). rewrite Hc. by apply list_elem_of_fmap_2.
Qed.

Lemma parity_target_Ok root s target : resolve_parity_target root s = Ok target ->
  exists p c, target = root ++ p /\ is_approved_parity_path p = true /\ last target = Some c /\ Forall file_name_ok p /\ file_name_ok c /\ p <> [].
Proof.
  unfold resolve_parity_target. destruct (sanitize_binpkg_path s) as [p|] eqn:E; [|done]. cbn [rbind].
  destruct (is_approved_parity_path p) eqn:Ha; [|done]. intros [= <-]. apply sanitize_Ok in E as (c & Hl & Hf & Hne).
  exists p, c. rewrite last_app, Hl. split_and!; try done. rewrite Forall_forall in Hf. apply Hf. by apply last_Some_elem_of.
Qed.

Lemma parity_entry_exists root s target ns q : resolve_parity_target root s = Ok target -> resolve false target ns = Ok q -> q <> [].
Proof.
  intros Ht Hr. apply parity_target_Ok in Ht as (p & c & _ & _ & Hl & _ & (_ & _ & Hdd & _) & _). by eapply walk_last.
Qed.

Lemma node_at_Some ns q n : node_at ns q = Some n -> q <> [] -> ns !! q = Some n.
Proof. unfold node_at. destruct (ns !! q); [done|]. by case_bool_decide. Qed.

Lemma find_node_Ok follow p ns q n : find_node follow p ns = Ok (q, n) <-> resolve follow p ns = Ok q /\ node_at ns q = Some n.
Proof.
  unfold find_node. destruct (resolve follow p ns) as [q'|e]; cbn [rbind]; [|split; [done|by intros [? _]]].
  destruct (node_at ns q') eqn:E; split; [intros [= -> ->]|intros [[= ->] ?]| |intros [[= ->] ?]]; simplify_eq; done.
Qed.

(** ** The comparisons are sound *)

Lemma stat_Ok follow p d m d' :
  observe (fun d => let? x := find_node follow p (nodes d) in Ok (metadata_of d (snd x))) d = (Ok m, d') ->
  same_tree d d' /\ exists q n, find_node follow p (nodes d) = Ok (q, n) /\ m = metadata_of d n.
Proof.
  intros Ho. apply observe_Ok in Ho as [Hs Ho]. split; [done|]. destruct (find_node follow p (nodes d')) as [[q n]|] eqn:E; [|done].
  cbn [rbind] in Ho. injection Ho as <-. exists q, n. rewrite <- (st_nodes _ _ Hs). split; [done|].
  unfold metadata_of. by rewrite (st_dir_len _ _ Hs).
Qed.

Lemma sha256_file_Ok p d s d' :
  sha256_file p d = (Ok s, d') ->
  same_tree d d' /\ exists q b t, resolve true p (nodes d) = Ok q /\ node_at (nodes d) q = Some (FileNode b t) /\ s = sha256_hex b.
Proof.
  unfold sha256_file. intros (q & d1 & Ho & Hr)%disk_bind_Ok. apply disk_context_Ok, observe_Ok in Ho as [Hs1 Ho].
  apply disk_bind_Ok in Hr as (b & d2 & Hr & Hret). apply disk_context_Ok, observe_Ok in Hr as [Hs2 Hr]. injection Hret as <- <-.
  split; [by eapply same_tree_trans|]. destruct (find_node true p (nodes d1)) as [[q' n]|] eqn:E; [|done]. cbn [rbind fst] in Ho.
  injection Ho as ->. apply find_node_Ok in E as [Eq En]. rewrite (st_nodes _ _ Hs1) in Eq, En. rewrite (st_nodes _ _ Hs2), (st_nodes _ _ Hs1) in Hr.
  rewrite En in Hr. destruct n as [c t|t|c t]; try done. injection Hr as ->. by exists q, b, t.
Qed.

Lemma directory_matches_sound root s e target d d' :
  resolve_parity_target root s = Ok target -> parity_directory_matches target e d = (Ok true, d') -> directory_holds (nodes d) root (s, e).
Proof.
  intros Ht. unfold parity_directory_matches. intros (m & d1 & Hst & Hk)%or_absent_true. apply stat_Ok in Hst as (Hs & q & n & Hf & ->).
  apply find_node_Ok in Hf as [Hr Hn]. injection Hk as Hk _. apply andb_true_iff in Hk as [Hkind%bool_decide_eq_true Hm%Z.eqb_eq].
  destruct n as [b t|t|b t]; try done. exists target, q. split_and!; [done..|]. simpl in *. subst t.
  apply node_at_Some; [done|by eapply parity_entry_exists].
Qed.

Lemma symlink_matches_sound root s e target d d' :
  resolve_parity_target root s = Ok target -> parity_symlink_matches target e d = (Ok true, d') -> symlink_holds (nodes d) root (s, e).
Proof.
  intros Ht. unfold parity_symlink_matches. intros (m & d1 & Hst & Hk)%or_absent_true. apply stat_Ok in Hst as (Hs & q & n & Hf & ->).
  apply find_node_Ok in Hf as [Hr Hn]. destruct (negb _ || negb _) eqn:Eg; [done|].
  apply orb_false_iff in Eg as [Ek%negb_false_iff%bool_decide_eq_true Em%negb_false_iff%Z.eqb_eq].
  destruct n as [b t|t|b t]; try done. simpl in Em. subst t.
  apply disk_bind_Ok in Hk as (b' & d2 & Hl & Hret). apply disk_context_Ok, observe_Ok in Hl as [Hs2 Hl].
  rewrite (st_nodes _ _ Hs2), (st_nodes _ _ Hs) in Hl.
  assert (Hfn : find_node false target (nodes d) = Ok (q, LinkNode b (pse_mtime_secs e))) by (by apply find_node_Ok).
  rewrite Hfn in Hl. injection Hl as <-. injection Hret as Hret _. apply andb_true_iff in Hret as [Hsz%Z.eqb_eq Hd%bool_decide_eq_true].
  exists target, q, b. split_and!; try done. apply node_at_Some; [done|by eapply parity_entry_exists].
Qed.

Lemma file_matches_sound root s e target d d' :
  resolve_parity_target root s = Ok target -> parity_file_matches target e d = (Ok true, d') -> file_holds (nodes d) root (s, e).
Proof.
  intros Ht. unfold parity_file_matches. intros (m & d1 & Hst & Hk)%or_absent_true. apply stat_Ok in Hst as (Hs & q & n & Hf & ->).
  apply find_node_Ok in Hf as [Hr Hn]. destruct (negb _ || negb _) eqn:Eg; [done|].
  apply orb_false_iff in Eg as [El%negb_false_iff%Z.eqb_eq Em%negb_false_iff%Z.eqb_eq].
  apply disk_bind_Ok in Hk as (digest & d2 & Hsha & Hret). apply sha256_file_Ok in Hsha as (Hs2 & q' & b & t & Hr' & Hn' & ->).
  rewrite (st_nodes _ _ Hs) in Hr', Hn'. rewrite Hr in Hr'. injection Hr' as <-. rewrite Hn in Hn'. injection Hn' as ->.
  simpl in *. subst t. injection Hret as Hd%bool_decide_eq_true _.
  exists target, q, b. split_and!; try done. unfold node_at in Hn. destruct (nodes d !! q); [done|]. by case_bool_decide.
Qed.

(** ** Success means the manifest holds *)

Lemma collect_issues_ok {A} (f : A -> DIO unit) xs d : exists issues d', collect_issues f xs d = (Ok issues, d').
Proof.
  revert d. induction xs as [|x xs IH]; intros d; [by exists [], d|]. cbn [collect_issues]. unfold try_, bind, ret.
  destruct (f x d) as [r d1]. destruct (IH d1) as (issues & d2 & ->). eauto.
Qed.

(** No issue: every step succeeded. *)
Lemma collect_issues_nil {A} (f : A -> DIO unit) xs d d' :
  (forall x, looks (f x)) -> collect_issues f xs d = (Ok [], d') ->
  same_tree d d' /\ forall x, x ∈ xs -> exists d1 d2, same_tree d d1 /\ f x d1 = (Ok tt, d2).
Proof.
  intros Hf. revert d. induction xs as [|x xs IH]; intros d; [intros [= <-]; split; [done|]; intros y Hy; by apply elem_of_nil in Hy|].
  cbn [collect_issues]. unfold try_, bind, ret. pose proof (Hf x d) as Hx. destruct (f x d) as [r d1] eqn:Efx.
  destruct (collect_issues_ok f xs d1) as (issues & d2 & Hc). rewrite Hc. intros [= Hi <-].
  destruct r as [[]|e]; [|done]. subst issues. destruct (IH d1 Hc) as [Hs Hall]. simpl in Hx.
  split; [by eapply same_tree_trans|]. intros y [->|Hy]%elem_of_cons; [by exists d, d1|].
  destruct (Hall y Hy) as (e1 & e2 & He & Hfy). exists e1, e2. split; [by eapply same_tree_trans|done].
Qed.

Lemma looks_matches_dir p e : looks (parity_directory_matches p e).
Proof. unfold parity_directory_matches, or_absent, d_symlink_metadata. solve_looks. Qed.
Lemma looks_sha256_file p : looks (sha256_file p).
Proof. unfold sha256_file, d_open, d_read_all. solve_looks. Qed.
Lemma looks_matches_link p e : looks (parity_symlink_matches p e).
Proof. unfold parity_symlink_matches, or_absent, d_symlink_metadata, d_read_link. solve_looks. Qed.
Lemma looks_matches_file p e : looks (parity_file_matches p e).
Proof. pose proof (looks_sha256_file p). unfold parity_file_matches, or_absent, d_metadata. solve_looks. Qed.
Lemma looks_verify_entry {A} label root (matches : path -> A -> DIO bool) item :
  (forall p e, looks (matches p e)) -> looks (verify_entry label root matches item).
Proof. intros Hm. unfold verify_entry. destruct item. apply looks_bind; [apply looks_lift|]. intros target. apply looks_bind; [apply Hm|]. intros fine. solve_looks. Qed.

Lemma verify_entry_Ok {A} label root (matches : path -> A -> DIO bool) p e d d' :
  verify_entry label root matches (p, e) d = (Ok tt, d') ->
  exists target d1, resolve_parity_target root p = Ok target /\ matches target e d = (Ok true, d1).
Proof.
  unfold verify_entry. intros (target & d1 & Hl & Hm)%disk_bind_Ok. injection Hl as Hl <-.
  apply disk_bind_Ok in Hm as (fine & d2 & Hm & Hk). destruct fine; [|done]. eauto.
Qed.

Lemma verify_manifest_nil root m d d' :
  verify_parity_manifest root m d = (Ok [], d') -> same_tree d d' /\ manifest_holds (nodes d) root m.
Proof.
  unfold verify_parity_manifest. intros (a & d1 & Ha & Hk)%disk_bind_Ok. apply disk_bind_Ok in Hk as (b & d2 & Hb & Hk).
  apply disk_bind_Ok in Hk as (c & d3 & Hc & Hret). injection Hret as Hnil <-.
  apply app_eq_nil in Hnil as [-> Hnil]. apply app_eq_nil in Hnil as [-> ->].
  apply collect_issues_nil in Ha as [Sa Fa]; [|intros; apply looks_verify_entry, looks_matches_dir].
  apply collect_issues_nil in Hb as [Sb Fb]; [|intros; apply looks_verify_entry, looks_matches_link].
  apply collect_issues_nil in Hc as [Sc Fc]; [|intros; apply looks_verify_entry, looks_matches_file].
  split; [by eapply same_tree_trans, same_tree_trans|]. split_and!; intros p e Hin; apply elem_of_btree_items in Hin.
  - destruct (Fa _ Hin) as (e1 & e2 & Hs & Hv). apply verify_entry_Ok in Hv as (target & e3 & Ht & Hm).
    rewrite <- (st_nodes _ _ Hs). by eapply directory_matches_sound.
  - destruct (Fb _ Hin) as (e1 & e2 & Hs & Hv). apply verify_entry_Ok in Hv as (target & e3 & Ht & Hm).
    rewrite <- (st_nodes _ _ Sa), <- (st_nodes _ _ Hs). by eapply symlink_matches_sound.
  - destruct (Fc _ Hin) as (e1 & e2 & Hs & Hv). apply verify_entry_Ok in Hv as (target & e3 & Ht & Hm).
    rewrite <- (st_nodes _ _ Sa), <- (st_nodes _ _ Sb), <- (st_nodes _ _ Hs). by eapply file_matches_sound.
Qed.

Lemma reconcile_Ok base_url root r d d' :
  reconcile_final_state_parity_into base_url root r d = (Ok tt, d') -> manifest_holds (nodes d') root (wr_parity_manifest r).
Proof.
  unfold reconcile_final_state_parity_into. cbv zeta. destruct (bool_decide _ && _ && _) eqn:Eempty.
  - apply andb_true_iff in Eempty as [Eempty E3%bool_decide_eq_true]. apply andb_true_iff in Eempty as [E1%bool_decide_eq_true E2%bool_decide_eq_true].
    intros _. split_and!; intros p e; rewrite ?E1, ?E2, ?E3, lookup_empty; done.
  - intros (a & d1 & _ & Hk)%disk_bind_Ok. apply disk_bind_Ok in Hk as (b & d2 & _ & Hk). apply disk_bind_Ok in Hk as (c & d3 & _ & Hk).
    apply disk_bind_Ok in Hk as (f & d4 & _ & Hk). apply disk_bind_Ok in Hk as (issues & d5 & Hv & Hk).
    destruct issues as [|i issues]; [|done]. injection Hk as <-.
    destruct (a ++ b ++ c ++ f) as [|x l]; [|by injection Hv as ? _].
    apply verify_manifest_nil in Hv as [Hs Hm]. by rewrite (st_nodes _ _ Hs).
Qed.

(** ** Doing it again *)

Section Again.
Context (d : Disk) (Hq : disk_faults d = []) (root : path).

Lemma stat_quiet follow p q n : resolve follow p (nodes d) = Ok q -> nodes d !! q = Some n ->
  observe (fun d => let? x := find_node follow p (nodes d) in Ok (metadata_of d (snd x))) d = (Ok (metadata_of d n), d).
Proof.
  intros Hr Hn. rewrite observe_quiet by done. assert (Hf : find_node follow p (nodes d) = Ok (q, n)).
  { apply find_node_Ok. split; [done|]. unfold node_at. by rewrite Hn. }
  by rewrite Hf.
Qed.

Lemma collect_issues_quiet {A} (f : A -> DIO unit) xs : (forall x, x ∈ xs -> f x d = (Ok tt, d)) -> collect_issues f xs d = (Ok [], d).
Proof.
  intros Hf. induction xs as [|x xs IH]; [done|]. cbn [collect_issues]. unfold try_, bind, ret. rewrite Hf by apply list_elem_of_here.
  rewrite IH; [done|]. intros y Hy. apply Hf. by apply list_elem_of_further.
Qed.

Lemma sha256_file_quiet p q b t : resolve true p (nodes d) = Ok q -> nodes d !! q = Some (FileNode b t) -> sha256_file p d = (Ok (sha256_hex b), d).
Proof.
  intros Hr Hn. unfold sha256_file, bind, with_context, d_open, d_read_all. rewrite observe_quiet by done.
  assert (Hat : node_at (nodes d) q = Some (FileNode b t)) by (unfold node_at; by rewrite Hn).
  assert (Hf : find_node true p (nodes d) = Ok (q, FileNode b t)) by (by apply find_node_Ok).
  rewrite Hf. cbn [rbind fst]. rewrite observe_quiet by done. by rewrite Hat.
Qed.

Lemma directory_matches_quiet p e target : directory_holds (nodes d) root (p, e) -> resolve_parity_target root p = Ok target ->
  parity_directory_matches target e d = (Ok true, d) /\ ensure_parity_directory_exists root p d = (Ok tt, d) /\
  finalize_parity_directory_mtime root p e d = (Ok tt, d).
Proof.
  intros (target' & q & Ht' & Hr & Hn) Ht. simpl in Ht'. rewrite Ht in Ht'. injection Ht' as <-. simpl in Hn.
  pose proof (stat_quiet false target q _ Hr Hn) as Hstat. split_and!.
  - unfold parity_directory_matches, or_absent, try_, d_symlink_metadata. rewrite Hstat. simpl. by rewrite Z.eqb_refl.
  - unfold ensure_parity_directory_exists, bind, lift, try_, d_symlink_metadata. rewrite Ht. cbn [contextual map_err]. rewrite Hstat. done.
  - unfold finalize_parity_directory_mtime, bind, lift, with_context, d_symlink_metadata. rewrite Ht. cbn [contextual map_err]. rewrite Hstat.
    cbn [md_kind metadata_of]. change (negb (bool_decide (IsDir = IsDir))) with false. cbv iota beta.
    unfold set_file_mtime, with_context, d_set_mtime, faulty, pop_disk_fault. rewrite Hq.
    assert (Hf : find_node true target (nodes d) = Ok (q, DirNode (pde_mtime_secs e))).
    { apply find_node_Ok. split; [apply walk_follow; [done|]; intros b t; by rewrite Hn|]. unfold node_at. by rewrite Hn. }
    rewrite Hf. simpl. rewrite insert_id by done. by destruct d.
Qed.

Lemma symlink_matches_quiet p e target : symlink_holds (nodes d) root (p, e) -> resolve_parity_target root p = Ok target ->
  parity_symlink_matches target e d = (Ok true, d).
Proof.
  intros (target' & q & b & Ht' & Hr & Hn & Hs & Hd) Ht. simpl in *. rewrite Ht in Ht'. injection Ht' as <-.
  unfold parity_symlink_matches, or_absent, try_, d_symlink_metadata. rewrite (stat_quiet false target q _ Hr Hn). cbn [md_kind md_mtime metadata_of].
  rewrite Z.eqb_refl. simpl. unfold bind, with_context, d_read_link. rewrite observe_quiet by done.
  assert (Hf : find_node false target (nodes d) = Ok (q, LinkNode b (pse_mtime_secs e))).
  { apply find_node_Ok. split; [done|]. unfold node_at. by rewrite Hn. }
  rewrite Hf. cbn [rbind snd]. unfold ret. rewrite Hs, Hd, Z.eqb_refl, bool_decide_true by done. done.
Qed.

Lemma file_matches_quiet p e target : file_holds (nodes d) root (p, e) -> resolve_parity_target root p = Ok target ->
  parity_file_matches target e d = (Ok true, d).
Proof.
  intros (target' & q & b & Ht' & Hr & Hn & Hs & Hd) Ht. simpl in *. rewrite Ht in Ht'. injection Ht' as <-.
  unfold parity_file_matches, or_absent, try_, d_metadata. rewrite (stat_quiet true target q _ Hr Hn). cbn [md_len md_mtime metadata_of].
  rewrite Hs, !Z.eqb_refl. simpl. unfold bind. rewrite (sha256_file_quiet target q b _ Hr Hn). unfold ret. by rewrite Hd, bool_decide_true.
Qed.

Lemma reconcile_again base_url r :
  manifest_holds (nodes d) root (wr_parity_manifest r) -> reconcile_final_state_parity_into base_url root r d = (Ok tt, d).
Proof.
  intros (Hdirs & Hlinks & Hfiles). unfold reconcile_final_state_parity_into. cbv zeta. case_match; [done|]. unfold bind.
  assert (Hdir : forall p e, (p, e) ∈ btree_items (pm_directories (wr_parity_manifest r)) -> exists target,
    resolve_parity_target root p = Ok target /\ directory_holds (nodes d) root (p, e)).
  { intros p e Hin%elem_of_btree_items%Hdirs. pose proof Hin as (target & _ & Ht & _). by exists target. }
  assert (Hlink : forall p e, (p, e) ∈ btree_items (pm_symlinks (wr_parity_manifest r)) -> exists target,
    resolve_parity_target root p = Ok target /\ parity_symlink_matches target e d = (Ok true, d)).
  { intros p e Hin%elem_of_btree_items%Hlinks. pose proof Hin as (target & _ & _ & Ht & _). exists target.
    split; [done|by eapply symlink_matches_quiet]. }
  assert (Hfile : forall p e, (p, e) ∈ btree_items (pm_files (wr_parity_manifest r)) -> exists target,
    resolve_parity_target root p = Ok target /\ parity_file_matches target e d = (Ok true, d)).
  { intros p e Hin%elem_of_btree_items%Hfiles. pose proof Hin as (target & _ & _ & Ht & _). exists target.
    split; [done|by eapply file_matches_quiet]. }
  rewrite collect_issues_quiet. 2:{ intros [p e] Hin. destruct (Hdir _ _ Hin) as (target & Ht & Hh). by eapply directory_matches_quiet. }
  rewrite collect_issues_quiet. 2:{ intros [p e] Hin. destruct (Hlink _ _ Hin) as (target & Ht & Hm).
    unfold restore_single_parity_symlink. rewrite Ht. unfold bind. by rewrite Hm. }
  rewrite collect_issues_quiet. 2:{ intros [p e] Hin. destruct (Hfile _ _ Hin) as (target & Ht & Hm).
    unfold restore_single_parity_file, restore_file. rewrite Ht. unfold bind. by rewrite Hm. }
  rewrite collect_issues_quiet. 2:{ intros [p e] Hin. destruct (Hdir _ _ Hin) as (target & Ht & Hh). by eapply directory_matches_quiet. }
  simpl. unfold verify_parity_manifest, bind.
  rewrite collect_issues_quiet. 2:{ intros [p e] Hin. destruct (Hdir _ _ Hin) as (target & Ht & Hh).
    unfold verify_entry, bind, lift. rewrite Ht. by rewrite (proj1 (directory_matches_quiet p e target Hh Ht)). }
  rewrite collect_issues_quiet. 2:{ intros [p e] Hin. destruct (Hlink _ _ Hin) as (target & Ht & Hm). unfold verify_entry, bind, lift. rewrite Ht. by rewrite Hm. }
  rewrite collect_issues_quiet. 2:{ intros [p e] Hin. destruct (Hfile _ _ Hin) as (target & Ht & Hm). unfold verify_entry, bind, lift. rewrite Ht. by rewrite Hm. }
  done.
Qed.
End Again.

(** C14.  When the reconciliation of the final state succeeds, every entry of the
    manifest holds on the disk: each directory has its time, each link its target and
    time, each file content of the size and digest announced, at approved places.
    Running it again, with a server that answers nothing, succeeds and changes
    nothing. *)
Theorem reconcile_parity_correct base_url root r d d' :
  reconcile_final_state_parity_into base_url root r d = (Ok tt, d') ->
  manifest_holds (nodes d') root (wr_parity_manifest r) /\
  forall d2, disk_faults d2 = [] -> replies d2 = [] -> nodes d2 = nodes d' ->
    reconcile_final_state_parity_into base_url root r d2 = (Ok tt, d2).
Proof.
  intros Hr. apply reconcile_Ok in Hr. split; [done|]. intros d2 Hf _ Hn. apply reconcile_again; [done|]. by rewrite Hn.
Qed.
End Parity.

(** ** Confinement

    On a disk without links a path names the place it spells. *)

Definition plain_tree (ns : gmap path Node) : Prop := forall p b t, ns !! p <> Some (LinkNode b t).

Lemma walk_plain links here todo ns follow q :
  plain_tree ns -> ".." ∉ todo -> walk links ns follow here todo = Ok q -> q = here ++ todo.
Proof.
  intros Hp. revert q. induction links, here, todo as [links here todo IHt _] using walk_ind. intros q Hdd.
  destruct todo as [|c rest]; [rewrite walk_nil, app_nil_r; congruence|]. rewrite walk_cons. apply not_elem_of_cons in Hdd as [Hc Hdd].
  rewrite bool_decide_false by congruence. unfold join in *.
  destruct (ns !! (here ++ [c])) as [[b t|t|b t]|] eqn:E; [destruct rest; [congruence|done]| |by destruct (Hp (here ++ [c]) b t)|destruct rest; [congruence|done]].
  intros Hw. apply IHt in Hw; [|simpl; lia|done]. by rewrite Hw, <- app_assoc.
Qed.

Lemma resolve_plain follow p ns q : plain_tree ns -> ".." ∉ p -> resolve follow p ns = Ok q -> q = p.
Proof. unfold resolve. generalize MAX_LINKS. intros n Hp Hdd Hw. by apply walk_plain in Hw. Qed.
Lemma find_node_plain follow p ns q n : plain_tree ns -> ".." ∉ p -> find_node follow p ns = Ok (q, n) -> q = p /\ node_at ns p = Some n.
Proof. intros Hp Hdd Hf. apply find_node_Ok in Hf as [Hr Hn]. apply resolve_plain in Hr as ->; done. Qed.

(** Every run leaves a tree without links without links, and changes it inside [R] only. *)
Definition confined {E A} (R : path -> Prop) (m : StateResult Disk E A) : Prop :=
  forall d, plain_tree (nodes d) -> plain_tree (nodes (snd (m d))) /\ forall p, ~ R p -> nodes (snd (m d)) !! p = nodes d !! p.

Section Confined.
Context (R : path -> Prop) (Hup : forall p, R p -> R (removelast p)).

Lemma confined_looks {E A} (m : StateResult Disk E A) : looks m -> confined R m.
Proof. intros Hm d Hd. by rewrite (st_nodes _ _ (Hm d)). Qed.
Lemma confined_bind {E A B} (m : StateResult Disk E A) (k : A -> StateResult Disk E B) :
  confined R m -> (forall a, confined R (k a)) -> confined R (bind m k).
Proof.
  intros Hm Hk d Hd. unfold bind. specialize (Hm d Hd). destruct (m d) as [[a|e] d1]; [|done]. destruct Hm as [H1 H2].
  destruct (Hk a d1 H1) as [H3 H4]. split; [done|]. intros p Hp. by rewrite H4, H2.
Qed.
(** ... when the continuation needs to know something about the value. *)
Lemma confined_bind_if {E A B} (Q : A -> Prop) (m : StateResult Disk E A) (k : A -> StateResult Disk E B) :
  confined R m -> (forall d a d', plain_tree (nodes d) -> m d = (Ok a, d') -> Q a) -> (forall a, Q a -> confined R (k a)) -> confined R (bind m k).
Proof.
  intros Hm HQ Hk d Hd. unfold bind. specialize (Hm d Hd). destruct (m d) as [[a|e] d1] eqn:E1; [|done]. destruct Hm as [H1 H2].
  destruct (Hk a (HQ _ _ _ Hd E1) d1 H1) as [H3 H4]. split; [done|]. intros p Hp. by rewrite H4, H2.
Qed.
Lemma confined_try {E F A B} (m : StateResult Disk E A) (k : Result A E -> StateResult Disk F B) :
  confined R m -> (forall r, confined R (k r)) -> confined R (try_ m k).
Proof.
  intros Hm Hk d Hd. unfold try_. specialize (Hm d Hd). destruct (m d) as [r d1]. destruct Hm as [H1 H2].
  destruct (Hk r d1 H1) as [H3 H4]. split; [done|]. intros p Hp. by rewrite H4, H2.
Qed.
Lemma confined_with_context {A} ctx (m : DiskOp A) : confined R m -> confined R (with_context ctx m).
Proof. intros Hm d Hd. unfold with_context. specialize (Hm d Hd). by destruct (m d) as [[a|e] d1]. Qed.
Lemma confined_recontext {A} ctx (m : DIO A) : confined R m -> confined R (recontext ctx m).
Proof. intros Hm d Hd. unfold recontext. specialize (Hm d Hd). by destruct (m d) as [r d1]. Qed.
Lemma confined_for {E A} (f : A -> StateResult Disk E unit) xs : (forall x, confined R (f x)) -> confined R (for_io f xs).
Proof.
  intros Hf. unfold for_io. generalize tt. induction xs as [|x xs IH]; intros u; [by apply confined_looks, looks_ret|].
  cbn [fold_io]. apply confined_bind; [apply Hf|]. intros u'. apply IH.
Qed.
Lemma confined_collect {A} (f : A -> DIO unit) xs : (forall x, x ∈ xs -> confined R (f x)) -> confined R (collect_issues f xs).
Proof.
  induction xs as [|x xs IH]; intros Hf; [by apply confined_looks, looks_ret|]. cbn [collect_issues].
  apply confined_try; [apply Hf, list_elem_of_here|]. intros r. apply confined_bind; [apply IH; intros y Hy; by apply Hf, list_elem_of_further|].
  intros others. apply confined_looks, looks_ret.
Qed.
Lemma confined_faulty {A} bad (good : DiskOp A) :
  (forall n d, plain_tree (nodes d) -> plain_tree (nodes (bad n d)) /\ forall p, ~ R p -> nodes (bad n d) !! p = nodes d !! p) ->
  confined R good -> confined R (faulty bad good).
Proof.
  intros Hb Hg d Hd. unfold faulty. pose proof (pop_same d) as Hp. destruct (pop_disk_fault d) as [[ft|] d1]; simpl in Hp;
    rewrite <- (st_nodes _ _ Hp) in Hd |- *; [|by apply Hg]. simpl. destruct (fault_written ft); [by apply Hb|done].
Qed.

(** Writing an entry. *)
Definition plain_node (n : Node) : Prop := match n with LinkNode _ _ => False | _ => True end.
Lemma plain_insert ns p n : plain_tree ns -> plain_node n -> plain_tree (<[p := n]> ns).
Proof.
  intros Hp Hn q b t. destruct (decide (p = q)) as [->|Hne]; [rewrite lookup_insert_eq; by destruct n|]. rewrite lookup_insert_ne by done. apply Hp.
Qed.
Lemma touch_parent_confined p now ns : R p -> plain_tree ns ->
  plain_tree (touch_parent p now ns) /\ forall q, ~ R q -> touch_parent p now ns !! q = ns !! q.
Proof.
  intros HR Hp. unfold touch_parent. destruct (ns !! removelast p) as [[b t|t|b t]|]; try done. split; [by apply plain_insert|].
  intros q Hq. apply lookup_insert_ne. intros <-. by apply Hq, Hup.
Qed.
Lemma put_entry_confined p n d : R p -> plain_node n -> plain_tree (nodes d) ->
  plain_tree (nodes (put_entry p n d)) /\ forall q, ~ R q -> nodes (put_entry p n d) !! q = nodes d !! q.
Proof.
  intros HR Hn Hp. destruct (touch_parent_confined p (disk_clock d) (nodes d) HR Hp) as [H1 H2]. simpl.
  split; [by apply plain_insert|]. intros q Hq. rewrite lookup_insert_ne by congruence. by apply H2.
Qed.
Lemma drop_entry_confined p d : R p -> plain_tree (nodes d) ->
  plain_tree (nodes (drop_entry p d)) /\ forall q, ~ R q -> nodes (drop_entry p d) !! q = nodes d !! q.
Proof.
  intros HR Hp. destruct (touch_parent_confined p (disk_clock d) (nodes d) HR Hp) as [H1 H2]. simpl. split.
  - intros q b t Hq. apply lookup_delete_Some in Hq as [_ Hq]. by apply H1 in Hq.
  - intros q Hq. rewrite lookup_delete_ne by congruence. by apply H2.
Qed.

(** The operations. *)
Lemma confined_create p : R p -> ".." ∉ p -> confined R (d_create p).
Proof.
  intros HR Hdd. apply confined_faulty; [done|]. intros d Hd. destruct (resolve true p (nodes d)) as [q|] eqn:Er; [|done].
  apply resolve_plain in Er as ->; [|done|done]. destruct (node_at (nodes d) p) as [[b t|t|b t]|]; simpl; try done.
  - split; [by apply plain_insert|]. intros q Hq. rewrite lookup_insert_ne by congruence. done.
  - by apply put_entry_confined.
Qed.
Lemma append_to_confined q b d : R q -> plain_tree (nodes d) ->
  plain_tree (nodes (append_to q b d)) /\ forall p, ~ R p -> nodes (append_to q b d) !! p = nodes d !! p.
Proof.
  intros HR Hd. unfold append_to. destruct (nodes d !! q) as [[c t|t|c t]|]; try done. simpl. split; [by apply plain_insert|].
  intros p Hp. rewrite lookup_insert_ne by congruence. done.
Qed.
Lemma make_dirs_confined above todo : R (above ++ todo) -> ".." ∉ above ++ todo ->
  forall d, plain_tree (nodes d) -> plain_tree (nodes (snd (make_dirs above todo d))) /\
    forall p, ~ R p -> nodes (snd (make_dirs above todo d)) !! p = nodes d !! p.
Proof.
  revert above. induction todo as [|c rest IH]; intros above HR Hdd d Hd; [done|]. cbn [make_dirs].
  assert (Hassoc : above ++ c :: rest = join above c ++ rest) by (unfold join; by rewrite <- app_assoc). rewrite Hassoc in HR, Hdd.
  assert (Hjoin : R (join above c)).
  { clear -HR Hup. induction rest as [|x rest IHr] using rev_ind; [by rewrite app_nil_r in HR|]. apply IHr.
    rewrite app_assoc in HR. apply Hup in HR. by rewrite removelast_last in HR. }
  destruct (find_node true (join above c) (nodes d)) as [[q [b t|t|b t]]|[]]; try done; [by apply IH|].
  destruct (resolve false (join above c) (nodes d)) as [q|] eqn:Er; [|done]. apply resolve_plain in Er as ->; [|done|set_solver].
  destruct (nodes d !! join above c); [done|]. destruct (put_entry_confined (join above c) (DirNode (disk_clock d)) d) as [H1 H2]; [done..|].
  destruct (IH (join above c) HR Hdd _ H1) as [H3 H4]. split; [done|]. intros p Hp. by rewrite H4, H2.
Qed.
Lemma confined_append q b : R q -> confined R (d_append q b).
Proof. intros HR. apply confined_faulty; [intros n d Hd; by apply append_to_confined|]. intros d Hd. by apply append_to_confined. Qed.
Lemma prefix_closed p q : R (p ++ q) -> R p.
Proof.
  induction q as [|x q IH] using rev_ind; [by rewrite app_nil_r|]. intros HR. apply IH.
  rewrite app_assoc in HR. apply Hup in HR. by rewrite removelast_last in HR.
Qed.
Lemma confined_create_dir_all p : R p -> ".." ∉ p -> confined R (d_create_dir_all p).
Proof.
  intros HR Hdd. apply confined_faulty; [|intros d Hd; by apply make_dirs_confined]. intros n d Hd. apply make_dirs_confined; [| |done]; simpl.
  - eapply prefix_closed. by rewrite take_drop.
  - intros Hin. apply Hdd. rewrite <- (take_drop n p). set_solver.
Qed.
Lemma confined_set_mtime follow p t : R p -> ".." ∉ p -> confined R (d_set_mtime follow p t).
Proof.
  intros HR Hdd. apply confined_faulty; [done|]. intros d Hd. destruct (find_node follow p (nodes d)) as [[q n]|] eqn:Ef; [|done].
  apply find_node_plain in Ef as [-> Hn]; [|done|done]. simpl. split.
  - apply plain_insert; [done|]. destruct n as [b u|u|b u]; try done. unfold node_at in Hn.
    destruct (nodes d !! p) eqn:E; [injection Hn as ->; by apply Hd in E|by case_bool_decide].
  - intros q Hq. rewrite lookup_insert_ne by congruence. done.
Qed.
Lemma confined_rename src dst : R src -> R dst -> ".." ∉ src -> ".." ∉ dst -> confined R (d_rename src dst).
Proof.
  intros HRs HRd Hs Hdd. apply confined_faulty; [done|]. intros d Hd. destruct (find_node false src (nodes d)) as [[q n]|] eqn:Ef; [|done].
  apply find_node_plain in Ef as [-> Hn]; [|done|done]. destruct (resolve false dst (nodes d)) as [q'|] eqn:Er; [|by destruct n].
  apply resolve_plain in Er as ->; [|done|done].
  assert (Hnode : plain_node n).
  { destruct n as [b u|u|b u]; try done. unfold node_at in Hn. destruct (nodes d !! src) eqn:E; [injection Hn as ->; by apply Hd in E|by case_bool_decide]. }
  assert (Hmove : plain_tree (nodes (put_entry dst n (drop_entry src d))) /\
    forall p, ~ R p -> nodes (put_entry dst n (drop_entry src d)) !! p = nodes d !! p).
  { destruct (drop_entry_confined src d HRs Hd) as [H1 H2]. destruct (put_entry_confined dst n (drop_entry src d) HRd Hnode H1) as [H3 H4].
    split; [done|]. intros p Hp. by rewrite H4, H2. }
  destruct n as [b u|u|b u]; try done; case_bool_decide; try done; destruct (node_at (nodes d) dst) as [[b' u'|u'|b' u']|]; done.
Qed.

Lemma confined_download url p : R p -> ".." ∉ p -> confined R (download_file url p).
Proof.
  intros HR Hdd. unfold download_file. apply confined_bind.
  { intros d Hd. unfold http_get. by destruct (replies d). }
  intros [|status|chunks complete]; [apply confined_looks, looks_throw..|].
  apply (confined_bind_if (fun file => file = p)); [by apply confined_with_context, confined_create| |].
  - intros d file d1 Hd Ec. apply disk_context_Ok in Ec. unfold d_create, faulty in Ec. pose proof (pop_same d) as Hs.
    destruct (pop_disk_fault d) as [[ft|] d0]; [done|]. simpl in Hs. destruct (resolve true p (nodes d0)) as [q|] eqn:Er; [|done].
    apply resolve_plain in Er as ->; [|by rewrite (st_nodes _ _ Hs)|done]. destruct (node_at (nodes d0) p) as [[b t|t|b t]|]; by simplify_eq.
  - intros file ->. apply confined_bind; [apply confined_for; intros x; by apply confined_with_context, confined_append|]. intros _.
    destruct (negb complete); apply confined_looks; [apply looks_throw|apply looks_with_context, looks_observe].
Qed.
End Confined.

(** ** The approved places *)

(** An approved path below the root, the directories above it, and the temporary
    file next to it. *)
Definition touchable (root p : path) : Prop :=
  exists a, is_approved_parity_path a = true /\ ((exists q, root ++ a = p ++ q) \/ p = with_extension (root ++ a) "remerge-parity.part").

Lemma approved_nonempty a : is_approved_parity_path a = true -> a <> [].
Proof. by destruct a. Qed.

Lemma with_extension_parent p ext : removelast (with_extension p ext) = removelast p.
Proof. unfold with_extension. destruct (last p) eqn:E; [|done]. unfold join. by rewrite removelast_last. Qed.

Lemma removelast_prefix (p : path) : exists q, p = removelast p ++ q.
Proof. destruct (decide (p = [])) as [->|Hne]; [by exists []|]. exists [List.last p ""]. by apply app_removelast_last. Qed.

Lemma touchable_up root p : touchable root p -> touchable root (removelast p).
Proof.
  intros (a & Ha & [[q Hq]| ->]); exists a; (split; [done|]); left.
  - destruct (removelast_prefix p) as [s Hs]. exists (s ++ q). rewrite Hq, app_assoc. by rewrite <- Hs.
  - rewrite with_extension_parent. apply removelast_prefix.
Qed.

Lemma touchable_target root a : is_approved_parity_path a = true -> touchable root (root ++ a).
Proof. intros Ha. exists a. split; [done|]. left. exists []. by rewrite app_nil_r. Qed.
Lemma touchable_temporary root a : is_approved_parity_path a = true -> touchable root (with_extension (root ++ a) "remerge-parity.part").
Proof. intros Ha. exists a. auto. Qed.
Lemma no_dots_parent (p : path) : ".." ∉ p -> ".." ∉ removelast p.
Proof. intros Hp Hin. destruct (removelast_prefix p) as [q Hq]. apply Hp. rewrite Hq. set_solver. Qed.
Lemma no_dots_temporary p : ".." ∉ p -> ".." ∉ with_extension p "remerge-parity.part".
Proof.
  intros Hp. unfold with_extension. destruct (last p) as [name|]; [|done]. unfold join. intros [Hin|Hin]%elem_of_app; [by apply no_dots_parent in Hp|].
  apply list_elem_of_singleton in Hin. apply (f_equal (fun s => length (chars s))) in Hin. rewrite !chars_app, !length_app in Hin. simpl in Hin. lia.
Qed.

Section Reconcile.
Context `{Sha256} (base_url : string) (root : path) (Hroot : ".." ∉ root).

Lemma parity_target_touchable s target : resolve_parity_target root s = Ok target ->
  exists a, target = root ++ a /\ is_approved_parity_path a = true /\ ".." ∉ target.
Proof.
  intros (p & c & -> & Ha & _ & Hf & _)%parity_target_Ok. exists p. split_and!; try done. rewrite elem_of_app. intros [Hin|Hin]; [done|].
  rewrite Forall_forall in Hf. by destruct (Hf _ Hin) as (_ & _ & Hdd & _).
Qed.

Lemma fetch_confined label rel digest size temporary : touchable root temporary -> ".." ∉ temporary ->
  confined (touchable root) (fetch_verified base_url label rel digest size temporary).
Proof.
  intros HR Hdd. unfold fetch_verified. apply confined_bind; [by apply confined_recontext, confined_download; [apply touchable_up|..]|]. intros _.
  apply confined_looks. pose proof (looks_sha256_file temporary). unfold d_metadata. solve_looks.
Qed.

Lemma restore_file_confined s e : confined (touchable root) (restore_single_parity_file base_url root s e).
Proof.
  unfold restore_single_parity_file. destruct (resolve_parity_target root s) as [target|] eqn:Et; [|apply confined_looks, looks_throw].
  apply parity_target_touchable in Et as (a & -> & Ha & Hdd). pose proof (touchable_target root a Ha) as HT.
  pose proof (touchable_temporary root a Ha) as HTmp. pose proof (no_dots_temporary _ Hdd) as HdT.
  assert (Hne : root ++ a <> []) by (apply approved_nonempty in Ha; by destruct root, a).
  unfold restore_file. apply confined_bind; [apply confined_looks, looks_matches_file|]. intros [|]; [apply confined_looks, looks_ret|].
  apply confined_bind. { unfold create_parent. destruct (root ++ a) eqn:E; [done|]. rewrite <- E in *. apply confined_with_context, confined_create_dir_all;
    [apply touchable_up|by apply touchable_up|by apply no_dots_parent]. }
  intros _. apply confined_bind; [by apply fetch_confined|]. intros _.
  apply confined_bind; [by apply confined_with_context, confined_rename; [apply touchable_up|..]|]. intros _.
  apply confined_bind; [by apply confined_with_context, confined_set_mtime|]. intros _. apply confined_looks.
  pose proof (looks_matches_file (root ++ a) e). solve_looks.
Qed.

Lemma ensure_confined s : confined (touchable root) (ensure_parity_directory_exists root s).
Proof.
  unfold ensure_parity_directory_exists. destruct (resolve_parity_target root s) as [target|] eqn:Et; [|apply confined_looks; intros d; done].
  apply parity_target_touchable in Et as (a & -> & Ha & Hdd). apply (confined_bind_if _ (fun t => t = root ++ a)); [apply confined_looks, looks_lift|by intros d t d' _ [= <- _]|].
  intros t ->. apply confined_try; [apply confined_looks, looks_observe|]. intros [m|k]; [apply confined_looks; solve_looks|].
  destruct k; try apply confined_looks, looks_throw. apply confined_with_context, confined_create_dir_all; [apply touchable_up|by apply touchable_target|done].
Qed.

Lemma finalize_confined s e : confined (touchable root) (finalize_parity_directory_mtime root s e).
Proof.
  unfold finalize_parity_directory_mtime. destruct (resolve_parity_target root s) as [target|] eqn:Et; [|apply confined_looks; intros d; done].
  apply parity_target_touchable in Et as (a & -> & Ha & Hdd). apply (confined_bind_if _ (fun t => t = root ++ a)); [apply confined_looks, looks_lift|by intros d t d' _ [= <- _]|].
  intros t ->. apply confined_bind; [apply confined_looks, looks_with_context, looks_observe|]. intros m.
  destruct (negb _); [apply confined_looks, looks_throw|]. apply confined_with_context, confined_set_mtime; [by apply touchable_target|done].
Qed.

(** C15.  On a disk without symbolic links, and for a manifest without any, the
    reconciliation changes nothing but approved paths, the directories above them and
    the temporary files beside them, whatever the server sends and whatever fails. *)
Theorem reconcile_confined r d p :
  plain_tree (nodes d) -> pm_symlinks (wr_parity_manifest r) = ∅ -> ~ touchable root p ->
  nodes (snd (reconcile_final_state_parity_into base_url root r d)) !! p = nodes d !! p.
Proof.
  intros Hd Hlinks Hp. assert (Hc : confined (touchable root) (reconcile_final_state_parity_into base_url root r)); [|by apply Hc].
  unfold reconcile_final_state_parity_into. cbv zeta. case_match; [apply confined_looks, looks_ret|]. rewrite Hlinks.
  apply confined_bind; [apply confined_collect; intros [s e] _; apply ensure_confined|]. intros i1.
  apply confined_bind; [by apply confined_looks, looks_ret|]. intros i2.
  apply confined_bind; [apply confined_collect; intros [s e] _; apply restore_file_confined|]. intros i3.
  apply confined_bind; [apply confined_collect; intros [s e] _; apply finalize_confined|]. intros i4.
  apply confined_bind; [|intros issues; apply confined_looks; solve_looks].
  destruct (i1 ++ i2 ++ i3 ++ i4); [|apply confined_looks, looks_ret]. unfold verify_parity_manifest.
  apply confined_bind; [apply confined_collect; intros x _; apply confined_looks, looks_verify_entry, looks_matches_dir|]. intros j1.
  apply confined_bind; [apply confined_collect; intros x _; apply confined_looks, looks_verify_entry, looks_matches_link|]. intros j2.
  apply confined_bind; [apply confined_collect; intros x _; apply confined_looks, looks_verify_entry, looks_matches_file|]. intros j3.
  apply confined_looks, looks_ret.
Qed.
End Reconcile.

(** ** Binary packages *)

Section Sync.
Context `{Sha256}.

Lemma confined_plain {E A} R (m : StateResult Disk E A) d r d' : confined R m -> plain_tree (nodes d) -> m d = (r, d') -> plain_tree (nodes d').
Proof. intros Hm Hd Hr. destruct (Hm d Hd) as [Hp _]. by rewrite Hr in Hp. Qed.

(** A file that is found on a disk without links. *)
Lemma sha256_file_plain p d s d' : plain_tree (nodes d) -> ".." ∉ p -> p <> [] -> sha256_file p d = (Ok s, d') ->
  same_tree d d' /\ exists b t, nodes d !! p = Some (FileNode b t) /\ s = sha256_hex b.
Proof.
  intros Hd Hdd Hne (Hs & q & b & t & Hr & Hn & ->)%sha256_file_Ok. split; [done|]. apply resolve_plain in Hr as ->; [|done..].
  exists b, t. split; [by apply node_at_Some|done].
Qed.

Lemma stat_plain p d m d' : plain_tree (nodes d) -> ".." ∉ p -> d_metadata p d = (Ok m, d') ->
  same_tree d d' /\ forall b t, nodes d !! p = Some (FileNode b t) -> md_len m = blen b.
Proof.
  intros Hd Hdd (Hs & q & n & Hf & ->)%stat_Ok. split; [done|]. apply find_node_plain in Hf as [-> Hn]; [|done..].
  intros b t Hb. unfold node_at in Hn. rewrite Hb in Hn. by injection Hn as <-.
Qed.

Lemma rename_moves src dst d d' : plain_tree (nodes d) -> ".." ∉ src -> ".." ∉ dst -> d_rename src dst d = (Ok tt, d') ->
  forall b t, nodes d !! src = Some (FileNode b t) -> nodes d' !! dst = Some (FileNode b t).
Proof.
  intros Hd Hs Hdst Hr b t Hb. unfold d_rename, faulty in Hr. pose proof (pop_same d) as Hp. destruct (pop_disk_fault d) as [[ft|] d0]; [done|].
  simpl in Hp. rewrite <- (st_nodes _ _ Hp) in Hb, Hd.
  destruct (find_node false src (nodes d0)) as [[q n]|] eqn:Ef; [|done]. apply find_node_plain in Ef as [-> Hn]; [|done..].
  unfold node_at in Hn. rewrite Hb in Hn. injection Hn as <-. destruct (resolve false dst (nodes d0)) as [q'|] eqn:Er; [|done].
  apply resolve_plain in Er as ->; [|done..]. case_bool_decide as He; [injection Hr as <-; by rewrite <- He|].
  destruct (node_at (nodes d0) dst) as [[b' u|u|b' u]|]; try done; injection Hr as <-; simpl; apply lookup_insert_eq.
Qed.

Lemma temporary_nonempty p ext : p <> [] -> with_extension p ext <> [].
Proof. intros Hp. unfold with_extension. destruct (last p) eqn:E; [unfold join; by destruct (removelast p)|done]. Qed.
Lemma no_dots_part p : ".." ∉ p -> ".." ∉ with_extension p "part".
Proof.
  intros Hp. unfold with_extension. destruct (last p) as [name|]; [|done]. unfold join. intros [Hin|Hin]%elem_of_app; [by apply no_dots_parent in Hp|].
  apply list_elem_of_singleton in Hin. apply (f_equal (fun s => length (chars s))) in Hin. rewrite !chars_app, !length_app in Hin. simpl in Hin. lia.
Qed.

(** What the cache holds for a package. *)
Definition package_stored (ns : gmap path Node) (destination : path) (pkg : BuiltPackage) : Prop :=
  exists b t, ns !! destination = Some (FileNode b t) /\ blen b = bpk_size pkg /\ eq_ignore_ascii_case (sha256_hex b) (bpk_sha256 pkg) = true.

Lemma cached_sound p pkg d d' : plain_tree (nodes d) -> ".." ∉ p -> p <> [] -> is_package_cached p pkg d = (Ok true, d') -> package_stored (nodes d') p pkg.
Proof.
  intros Hd Hdd Hne. unfold is_package_cached. intros (m & d1 & Hst & Hk)%or_absent_true. apply stat_plain in Hst as [Hs Hlen]; [|done..].
  destruct (negb _) eqn:El; [done|]. apply negb_false_iff, Z.eqb_eq in El.
  apply disk_bind_Ok in Hk as (digest & d2 & Hsha & Hret). injection Hret as Hd' <-.
  apply sha256_file_plain in Hsha as (Hs2 & b & t & Hb & ->); [|by rewrite (st_nodes _ _ Hs)|done..].
  exists b, t. rewrite (st_nodes _ _ Hs2). rewrite (st_nodes _ _ Hs) in Hb. split_and!; [by rewrite (st_nodes _ _ Hs)|by rewrite <- (Hlen b t)|done].
Qed.

(** A package that was synchronised, from the server or from the cache, is in the
    package directory under its path, with the size and the SHA-256 of the build
    result; a broken or forged download never gets there. *)
Theorem sync_single_binpkg_verified r pkgdir pkg d x d' :
  plain_tree (nodes d) -> ".." ∉ pkgdir -> sync_single_binpkg r pkgdir pkg d = (Ok x, d') ->
  exists rel, sanitize_binpkg_path (bpk_binpkg_path pkg) = Ok rel /\ package_stored (nodes d') (pkgdir ++ rel) pkg.
Proof.
  intros Hd Hpk. unfold sync_single_binpkg. intros (rel & d1 & Hrel & Hk)%disk_bind_Ok. unfold recontext, lift in Hrel.
  destruct (sanitize_binpkg_path (bpk_binpkg_path pkg)) as [rel'|] eqn:Es; [|done]. injection Hrel as -> ->. exists rel. split; [done|].
  apply sanitize_Ok in Es as (c & _ & Hf & Hne). cbv zeta in Hk. revert Hk. set (dest := pkgdir ++ rel).
  assert (Hdest : dest <> []) by (unfold dest; by destruct pkgdir, rel).
  assert (Hdd : ".." ∉ dest).
  { unfold dest. rewrite elem_of_app. intros [Hin|Hin]; [done|]. rewrite Forall_forall in Hf. by destruct (Hf _ Hin) as (_ & _ & Hn & _). }
  pose proof (no_dots_part dest Hdd) as HdT. pose proof (temporary_nonempty dest "part" Hdest) as HneT.
  intros (u & d2 & Hcp & Hk)%disk_bind_Ok.
  assert (H2 : plain_tree (nodes d2)).
  { eapply (confined_plain (fun _ => True)); [|exact Hd|exact Hcp]. unfold create_parent. destruct dest eqn:Ed; [apply confined_looks, looks_ret|].
    rewrite <- Ed in *. apply confined_with_context, confined_create_dir_all; [done|done|by apply no_dots_parent]. }
  apply disk_bind_Ok in Hk as (cached & d3 & Hc & Hk). destruct cached.
  { injection Hk as _ <-. by eapply cached_sound. }
  assert (H3 : plain_tree (nodes d3)).
  { eapply (confined_plain (fun _ => True)); [|exact H2|exact Hc]. apply confined_looks. pose proof (looks_sha256_file dest).
    unfold is_package_cached, or_absent, d_metadata. solve_looks. }
  apply disk_bind_Ok in Hk as (u2 & d4 & Hdl & Hk).
  assert (H4 : plain_tree (nodes d4)) by (eapply (confined_plain (fun _ => True)); [|exact H3|exact Hdl]; by apply confined_download).
  apply disk_bind_Ok in Hk as (m & d5 & Hm & Hk). apply disk_context_Ok, stat_plain in Hm as [Hs5 Hlen]; [|done..].
  destruct (negb (md_len m =? bpk_size pkg)) eqn:El; [done|]. apply negb_false_iff, Z.eqb_eq in El.
  apply disk_bind_Ok in Hk as (digest & d6 & Hsha & Hk).
  apply sha256_file_plain in Hsha as (Hs6 & b & t & Hb & ->); [|by rewrite (st_nodes _ _ Hs5)|done..].
  destruct (negb (eq_ignore_ascii_case _ _)) eqn:Eh; [done|]. apply negb_false_iff in Eh.
  apply disk_bind_Ok in Hk as ([] & d7 & Hmv & Hret). injection Hret as _ <-. apply disk_context_Ok in Hmv.
  exists b, t. split_and!; [|rewrite (st_nodes _ _ Hs5) in Hb; by rewrite <- (Hlen b t)|done].
  eapply rename_moves; [|exact HdT|exact Hdd|exact Hmv|by rewrite (st_nodes _ _ Hs6)]. by rewrite (st_nodes _ _ Hs6), (st_nodes _ _ Hs5).
Qed.
End Sync.

(** ** A manifest that leads out of the approved places *)

Definition demo_sha : Sha256 := fun b => String.string_of_list_byte b.
Definition text (s : string) : bytes := String.list_byte_of_string s.
Definition demo_disk (replies : list Reply) : Disk := {|
  nodes := {[ ["etc"] := DirNode 1; ["etc"; "passwd"] := FileNode (text "root") 1; ["var"] := DirNode 1; ["var"; "lib"] := DirNode 1;
              ["var"; "lib"; "portage"] := DirNode 1 ]};
  disk_faults := []; disk_clock := 9; dir_len := 4096; replies := replies |}.
Definition demo_parity (files : gmap string ParityFileEntry) (symlinks : gmap string ParitySymlinkEntry) : WorkorderResult := {|
  wr_workorder_id := 1%N; wr_built_packages := []; wr_failed_packages := []; wr_binhost_uri := ""; wr_fetched_distfiles := ∅;
  wr_parity_manifest := {| pm_files := files; pm_directories := {[ "var/lib/portage" := {| pde_mtime_secs := 5 |} ]}; pm_symlinks := symlinks |} |}.

Lemma reconcile_parity_correct_witness :
  let r := demo_parity {[ "var/lib/portage/world" := {| pfe_digest := "vim"; pfe_size := 3; pfe_mtime_secs := 4 |} ]} ∅ in
  let d' := snd (@reconcile_final_state_parity_into demo_sha "http://host" [] r (demo_disk [Body [text "v"; text "im"] true])) in
  @manifest_holds demo_sha (nodes d') [] (wr_parity_manifest r).
Proof.
  intros r d'. apply (@reconcile_parity_correct demo_sha "http://host" [] r (demo_disk [Body [text "v"; text "im"] true]) d').
  vm_compute. reflexivity.
Defined.

Lemma approved_shape a : is_approved_parity_path a = true -> exists x y rest, a = "var" :: x :: y :: rest.
Proof.
  destruct a as [|v [|x [|y rest]]]; try done. cbn [is_approved_parity_path]. intros [->%bool_decide_eq_true _]%andb_true_iff. by exists x, y, rest.
Qed.

Lemma reconcile_confined_witness :
  let r := demo_parity {[ "../etc/passwd" := {| pfe_digest := "evil"; pfe_size := 4; pfe_mtime_secs := 4 |} ]} ∅ in
  nodes (snd (@reconcile_final_state_parity_into demo_sha "http://host" [] r (demo_disk [Body [text "evil"] true]))) !! ["etc"; "passwd"] =
  Some (FileNode (text "root") 1).
Proof.
  intros r. rewrite (@reconcile_confined demo_sha "http://host" [] ltac:(apply not_elem_of_nil) r); [reflexivity| |reflexivity|].
  - intros p b t Hp. simpl in Hp. repeat (apply lookup_insert_Some in Hp as [[_ Hp]|[_ Hp]]; [done|]). by apply lookup_singleton_Some in Hp as [_ Hp].
  - intros (a & (x & y & rest & ->)%approved_shape & [[q Hq]|Hq]); [discriminate Hq|].
    apply (f_equal (@removelast string)) in Hq. rewrite with_extension_parent in Hq. discriminate Hq.
Defined.

(** The approved places are checked by name only.  A manifest with a link in an
    approved directory and a file behind it makes the client overwrite /etc/passwd,
    and report success. *)
Theorem symlink_escapes_approved_paths :
  let r := demo_parity {[ "var/lib/portage/x/passwd" := {| pfe_digest := "evil"; pfe_size := 4; pfe_mtime_secs := 4 |} ]}
                       {[ "var/lib/portage/x" := {| pse_digest := "/etc"; pse_size := 4; pse_mtime_secs := 3 |} ]} in
  let '(result, d) := @reconcile_final_state_parity_into demo_sha "http://host" [] r (demo_disk [Body [text "/etc"] true; Body [text "evil"] true]) in
  result = Ok tt /\ nodes d !! ["etc"; "passwd"] = Some (FileNode (text "evil") 4) /\
  is_approved_parity_path ["etc"; "passwd"] = false.
Proof. vm_compute. done. Qed.

Lemma sync_single_binpkg_verified_witness :
  let pkg := {| bpk_atom := "app-misc/hello-1"; bpk_binpkg_path := "app-misc/hello-1.gpkg.tar"; bpk_sha256 := "PKG"; bpk_size := 3 |} in
  exists rel, sanitize_binpkg_path (bpk_binpkg_path pkg) = Ok rel /\
    @package_stored demo_sha (nodes (snd (@sync_single_binpkg demo_sha (demo_parity ∅ ∅) ["pkg"] pkg (demo_disk [Body [text "pk"; text "g"] true]))))
      (["pkg"] ++ rel) pkg.
Proof.
  intros pkg. apply (@sync_single_binpkg_verified demo_sha (demo_parity ∅ ∅) ["pkg"] pkg (demo_disk [Body [text "pk"; text "g"] true]) Downloaded).
  - intros p b t Hp. simpl in Hp. repeat (apply lookup_insert_Some in Hp as [[_ Hp]|[_ Hp]]; [done|]). by apply lookup_singleton_Some in Hp as [_ Hp].
  - apply (bool_decide_eq_true_1 (_ ∉ _)). reflexivity.
  - vm_compute. reflexivity.
Defined.
