(* ===== verification/SyncReport.v ===== *)
(** * The report of the package synchronisation ([crates/cli/src/args.rs])

    [SyncProgressReporter]: the lines printed while the built packages are copied to the
    local package directory, the progress bar, and the summary.  Numbers are printed
    from 64-bit floating point; [F64] has the operations the code uses on values that
    are not negative, exactly: a value is a fraction, an operation rounds its exact
    result to 53 significant bits, ties to even.  Times are in nanoseconds. *)

From S2P Require Import Prelude Types World Repo LocalState.

(** ** Floating point *)
Module F64.
(** A value that is not negative. *)
Record t := { num : Z; den : Z }.
Definition zero : t := {| num := 0; den := 1 |}.
Definition of_Z (n : Z) : t := {| num := n; den := 1 |}.

(** [n / d] to the nearest integer, ties to even; ties away from zero. *)
Definition div_even (n d : Z) : Z :=
  let q := n / d in let r := n mod d in
  if 2 * r <? d then q else if d <? 2 * r then q + 1 else if Z.even q then q else q + 1.
Definition div_away (n d : Z) : Z := (2 * n + d) / (2 * d).

(** The exponent of [n / d]: [2 ^ k <= n / d < 2 ^ (k + 1)]. *)
Definition exponent (n d : Z) : Z :=
  let k := Z.log2 n - Z.log2 d in
  if d * 2 ^ Z.max k 0 <=? n * 2 ^ Z.max (- k) 0 then k else k - 1.

Definition round (n d : Z) : t :=
  if n =? 0 then zero
  else let e := exponent n d - 52 in
       if 0 <=? e then {| num := div_even n (d * 2 ^ e) * 2 ^ e; den := 1 |} else {| num := div_even (n * 2 ^ (- e)) d; den := 2 ^ (- e) |}.

Definition of_u64 (n : Z) : t := round n 1.
Definition add (a b : t) : t := round (num a * den b + num b * den a) (den a * den b).
Definition mul (a b : t) : t := round (num a * num b) (den a * den b).
Definition div (a b : t) : t := round (num a * den b) (den a * num b).
Definition ltb (a b : t) : bool := num a * den b <? num b * den a.
Definition min (a b : t) : t := if ltb b a then b else a.

(** [x.round() as u64] *)
Definition round_u64 (x : t) : Z := Z.min (div_away (num x) (den x)) u64_max.
(** [{x:.1}] *)
Definition display1 (x : t) : string := let tenths := div_even (10 * num x) (den x) in pretty (tenths / 10) +:+ "." +:+ pretty (tenths mod 10).
End F64.

(** [{:>n}] *)
Fixpoint spaces (n : nat) : string := match n with O => "" | S n => String " " (spaces n) end.
Definition pad_left (width : nat) (s : string) : string := spaces (width - String.length s) +:+ s.
Fixpoint repeated (c : ascii) (n : nat) : string := match n with O => "" | S n => String c (repeated c n) end.

(** ** Formatting *)

(** [value /= 1024.0] while it is 1024 or more, at most four times. *)
Fixpoint scaled (units : list string) (unit : string) (value : F64.t) : string * F64.t :=
  match units with
  | next :: rest => if F64.ltb value (F64.of_Z 1024) then (unit, value) else scaled rest next (F64.div value (F64.of_Z 1024))
  | [] => (unit, value)
  end.

Definition format_byte_count (b : Z) : string :=
  let '(unit, value) := scaled ["KiB"; "MiB"; "GiB"; "TiB"] "B" (F64.of_u64 b) in
  if bool_decide (unit = "B") then pretty b +:+ " " +:+ unit else F64.display1 value +:+ " " +:+ unit.

Definition format_rate (bytes_per_second : F64.t) : string :=
  if F64.num bytes_per_second <=? 0 then "0 B" else format_byte_count (F64.round_u64 bytes_per_second).

Definition NANOS : Z := 1000000000.
Definition as_secs_f64 (d : Z) : F64.t := F64.add (F64.of_u64 (d / NANOS)) (F64.div (F64.of_u64 (d mod NANOS)) (F64.of_Z NANOS)).

Definition ratio (received total : Z) : F64.t := F64.min (F64.div (F64.of_u64 received) (F64.of_u64 total)) (F64.of_Z 1).
Definition filled (received total : Z) : Z := F64.round_u64 (F64.mul (ratio received total) (F64.of_Z 20)).

Definition format_progress_line (atom : string) (received total elapsed : Z) (stalled : bool) : string :=
  let total := Z.max total 1 in
  let filled := Z.to_nat (filled received total) in
  let throughput := if elapsed =? 0 then F64.zero else F64.div (F64.of_u64 received) (as_secs_f64 elapsed) in
  let remaining := Z.max (total - received) 0 in
  let eta := if 0 <? F64.num throughput then F64.div (F64.of_u64 remaining) throughput else F64.zero in
  let trailing_status := if stalled && (received <? total) then "STALLED" else "ETA " +:+ pad_left 4 (F64.display1 eta) +:+ "s" in
  "[SYNC] " +:+ atom +:+ " [" +:+ repeated "#" filled +:+ repeated "-" (20 - filled) +:+ "] " +:+
  pad_left 5 (F64.display1 (F64.mul (ratio received total) (F64.of_Z 100))) +:+ "% " +:+
  format_byte_count received +:+ "/" +:+ format_byte_count total +:+ " " +:+ format_rate throughput +:+ "/s " +:+ trailing_status.

Example progress_half : format_progress_line "app-misc/jq" 512 1024 1000000000 false =
  "[SYNC] app-misc/jq [##########----------]  50.0% 512 B/1.0 KiB 512 B/s ETA  1.0s".
Proof. vm_compute. reflexivity. Qed.
Example progress_stalled : format_progress_line "a/b" 1536 4096 2000000000 true = "[SYNC] a/b [########------------]  37.5% 1.5 KiB/4.0 KiB 768 B/s STALLED".
Proof. vm_compute. reflexivity. Qed.

(** ** The reporter *)

Record PackageSyncStatus := { pss_atom : string; pss_size : Z; pss_disposition : PackageSyncDisposition }.

Record BinpkgSyncSummary := {
  downloaded_packages : Z; downloaded_bytes : Z; reused_packages : Z; reused_bytes : Z;
  failed_package : option string; elapsed : Z;
}.
Definition BinpkgSyncSummary_default : BinpkgSyncSummary := {|
  downloaded_packages := 0; downloaded_bytes := 0; reused_packages := 0; reused_bytes := 0; failed_package := None; elapsed := 0 |}.

Inductive SyncProgressOutputMode := Interactive | Plain.
Definition SYNC_PROGRESS_DRAW_INTERVAL : Z := 100000000.
Definition SYNC_PROGRESS_DRAW_INTERVAL_PLAIN : Z := 1000000000.
Definition draw_interval (m : SyncProgressOutputMode) : Z :=
  match m with Interactive => SYNC_PROGRESS_DRAW_INTERVAL | Plain => SYNC_PROGRESS_DRAW_INTERVAL_PLAIN end.

(** [sp_output]: what was written to the standard error stream. *)
Record SyncProgressReporter := {
  sp_total_packages : Z; sp_binhost_uri : string; sp_started_at : Z; sp_last_progress_draw : option Z;
  sp_summary : BinpkgSyncSummary; sp_output_mode : SyncProgressOutputMode; sp_output : list string;
}.

Definition newline_text : string := String "010"%char "".
Definition carriage_return : string := String "013"%char "".
Definition printed (s : string) (r : SyncProgressReporter) : SyncProgressReporter := {|
  sp_total_packages := sp_total_packages r; sp_binhost_uri := sp_binhost_uri r; sp_started_at := sp_started_at r;
  sp_last_progress_draw := sp_last_progress_draw r; sp_summary := sp_summary r; sp_output_mode := sp_output_mode r; sp_output := sp_output r ++ [s] |}.
Definition print_line (l : string) (r : SyncProgressReporter) : SyncProgressReporter := printed (l +:+ newline_text) r.
Definition drawn_at (t : option Z) (r : SyncProgressReporter) : SyncProgressReporter := {|
  sp_total_packages := sp_total_packages r; sp_binhost_uri := sp_binhost_uri r; sp_started_at := sp_started_at r;
  sp_last_progress_draw := t; sp_summary := sp_summary r; sp_output_mode := sp_output_mode r; sp_output := sp_output r |}.
Definition summing (f : BinpkgSyncSummary -> BinpkgSyncSummary) (r : SyncProgressReporter) : SyncProgressReporter := {|
  sp_total_packages := sp_total_packages r; sp_binhost_uri := sp_binhost_uri r; sp_started_at := sp_started_at r;
  sp_last_progress_draw := sp_last_progress_draw r; sp_summary := f (sp_summary r); sp_output_mode := sp_output_mode r; sp_output := sp_output r |}.

Definition with_output_mode (total : Z) (uri : string) (now : Z) (mode : SyncProgressOutputMode) : SyncProgressReporter :=
  print_line ("Syncing " +:+ pretty total +:+ " package(s) from " +:+ uri)
    {| sp_total_packages := total; sp_binhost_uri := uri; sp_started_at := now; sp_last_progress_draw := None;
       sp_summary := BinpkgSyncSummary_default; sp_output_mode := mode; sp_output := [] |}.
(** [SyncProgressReporter::new] *)
Definition reporter_new (total : Z) (uri : string) (now : Z) (stderr_is_terminal : bool) : SyncProgressReporter :=
  with_output_mode total uri now (if stderr_is_terminal then Interactive else Plain).

Definition record_cache_hit (pkg : BuiltPackage) (r : SyncProgressReporter) : PackageSyncStatus * SyncProgressReporter :=
  ({| pss_atom := bpk_atom pkg; pss_size := bpk_size pkg; pss_disposition := CacheHit |},
   print_line ("[CACHE-HIT] " +:+ bpk_atom pkg +:+ " (" +:+ format_byte_count (bpk_size pkg) +:+ ")") r).

Definition start_download (pkg : BuiltPackage) (r : SyncProgressReporter) : SyncProgressReporter :=
  print_line ("[DOWNLOAD] " +:+ bpk_atom pkg +:+ " (" +:+ format_byte_count (bpk_size pkg) +:+ ")") (drawn_at None r).

Definition should_draw (received total now : Z) (r : SyncProgressReporter) : bool :=
  match sp_last_progress_draw r with None => true | Some last => draw_interval (sp_output_mode r) <=? now - last end || (total <=? received).
Definition update_download_progress (atom : string) (received total elapsed : Z) (stalled : bool) (now : Z) (r : SyncProgressReporter) : SyncProgressReporter :=
  if negb (should_draw received total now r) then r
  else
    let l := format_progress_line atom received total elapsed stalled in
    let r := drawn_at (Some now) r in
    match sp_output_mode r with Interactive => printed (carriage_return +:+ l) r | Plain => print_line l r end.

Definition finish_download (pkg : BuiltPackage) (elapsed : Z) (r : SyncProgressReporter) : SyncProgressReporter :=
  let l := format_progress_line (bpk_atom pkg) (bpk_size pkg) (bpk_size pkg) elapsed false in
  drawn_at None (match sp_output_mode r with Interactive => print_line (carriage_return +:+ l) r | Plain => print_line l r end).

Definition refresh_index (packages_url : string) (r : SyncProgressReporter) : SyncProgressReporter :=
  print_line ("[INDEX] Refreshing Packages from " +:+ packages_url) r.

(** The sums are [usize] and [u64]; in a release build they wrap. *)
Definition record_result (st : PackageSyncStatus) : SyncProgressReporter -> SyncProgressReporter := summing (fun s =>
  match pss_disposition st with
  | Downloaded => {| downloaded_packages := u64_wrapping_add (downloaded_packages s) 1; downloaded_bytes := u64_wrapping_add (downloaded_bytes s) (pss_size st);
      reused_packages := reused_packages s; reused_bytes := reused_bytes s; failed_package := failed_package s; elapsed := elapsed s |}
  | CacheHit => {| downloaded_packages := downloaded_packages s; downloaded_bytes := downloaded_bytes s;
      reused_packages := u64_wrapping_add (reused_packages s) 1; reused_bytes := u64_wrapping_add (reused_bytes s) (pss_size st);
      failed_package := failed_package s; elapsed := elapsed s |}
  end).

(** [error]: the text [{error:#}]. *)
Definition record_failure (atom error : string) (r : SyncProgressReporter) : SyncProgressReporter :=
  print_line ("[FAILED] " +:+ atom +:+ " — " +:+ error) (summing (fun s => {|
    downloaded_packages := downloaded_packages s; downloaded_bytes := downloaded_bytes s; reused_packages := reused_packages s;
    reused_bytes := reused_bytes s; failed_package := Some atom; elapsed := elapsed s |}) r).

Definition finish (pkgdir : path) (now : Z) (r : SyncProgressReporter) : BinpkgSyncSummary * list string :=
  let r := summing (fun s => {| downloaded_packages := downloaded_packages s; downloaded_bytes := downloaded_bytes s; reused_packages := reused_packages s;
    reused_bytes := reused_bytes s; failed_package := failed_package s; elapsed := now - sp_started_at r |}) r in
  let s := sp_summary r in
  let r := print_line (if is_some (failed_package s) then "Sync incomplete:" else "Sync complete:") r in
  let r := print_line ("  Downloaded: " +:+ pretty (downloaded_packages s) +:+ " package(s), " +:+ format_byte_count (downloaded_bytes s)) r in
  let r := print_line ("  Reused:     " +:+ pretty (reused_packages s) +:+ " package(s), " +:+ format_byte_count (reused_bytes s)) r in
  let r := match failed_package s with Some atom => print_line ("  Failed:      " +:+ atom) r | None => r end in
  let r := print_line ("  Elapsed:    " +:+ F64.display1 (as_secs_f64 (elapsed s)) +:+ "s") r in
  let r := print_line ("  Location:   " +:+ display pkgdir) r in
  (s, sp_output r).

(** ** The loop over the packages

    What happened to a package: it was there, it was downloaded (with the progress that
    was reported meanwhile), or it failed, before or after the download was started. *)
Record Progressed := { pr_received : Z; pr_total : Z; pr_elapsed : Z; pr_stalled : bool; pr_now : Z }.
Inductive Outcome := WasThere | WasDownloaded (progress : list Progressed) (elapsed : Z) | DidFail (progress : option (list Progressed)) (error : string).

Definition report_progress (atom : string) (ps : list Progressed) (r : SyncProgressReporter) : SyncProgressReporter :=
  fold_left (fun r p => update_download_progress atom (pr_received p) (pr_total p) (pr_elapsed p) (pr_stalled p) (pr_now p) r) ps r.

(** The reporter after the packages, and whether all were synchronised. *)
Fixpoint report_packages (xs : list (BuiltPackage * Outcome)) (r : SyncProgressReporter) : bool * SyncProgressReporter :=
  match xs with
  | [] => (true, r)
  | (pkg, WasThere) :: rest => let '(st, r) := record_cache_hit pkg r in report_packages rest (record_result st r)
  | (pkg, WasDownloaded ps e) :: rest =>
      let r := finish_download pkg e (report_progress (bpk_atom pkg) ps (start_download pkg r)) in
      report_packages rest (record_result {| pss_atom := bpk_atom pkg; pss_size := bpk_size pkg; pss_disposition := Downloaded |} r)
  | (pkg, DidFail ps e) :: rest =>
      let r := match ps with Some ps => report_progress (bpk_atom pkg) ps (start_download pkg r) | None => r end in
      (false, record_failure (bpk_atom pkg) e r)
  end.

(** ** The progress bar *)

Lemma div_even_le n d k : 0 < d -> n <= k * d -> F64.div_even n d <= k.
Proof.
  intros Hd Hn. unfold F64.div_even. cbv zeta. pose proof (Z.div_mod n d ltac:(lia)) as He. pose proof (Z.mod_pos_bound n d Hd) as Hb.
  assert (Hq : n / d < k \/ n / d = k /\ n mod d = 0) by (pose proof (Z.div_le_upper_bound n d k Hd ltac:(lia)); destruct (decide (n / d = k)); [right|left]; nia).
  destruct Hq as [Hq|[Hq Hr]]; (destruct (Z.ltb_spec (2 * (n mod d)) d); [lia|]; destruct (Z.ltb_spec d (2 * (n mod d))); [lia|]; destruct (Z.even (n / d)); lia).
Qed.
Lemma div_even_nonneg n d : 0 < d -> 0 <= n -> 0 <= F64.div_even n d.
Proof.
  intros Hd Hn. unfold F64.div_even. pose proof (Z.div_pos n d Hn Hd). repeat case_match; lia.
Qed.

(** A value is never negative, and its denominator is positive. *)
Definition f64_ok (x : F64.t) : Prop := 0 <= F64.num x /\ 0 < F64.den x.

Lemma round_ok n d : 0 <= n -> 0 < d -> f64_ok (F64.round n d).
Proof.
  intros Hn Hd. unfold F64.round, f64_ok. destruct (Z.eqb_spec n 0); cbn; [lia|]. destruct (Z.leb_spec 0 (F64.exponent n d - 52)); cbn.
  - split; [|lia]. apply Z.mul_nonneg_nonneg; [apply div_even_nonneg; [|lia]|]; pose proof (Z.pow_pos_nonneg 2 (F64.exponent n d - 52)); nia.
  - assert (0 < 2 ^ (- (F64.exponent n d - 52))) by (apply Z.pow_pos_nonneg; lia). split; [|done]. apply div_even_nonneg; nia.
Qed.

(** Rounding does not go past an integer below 2^53. *)
Lemma round_le n d k : 0 <= n -> 0 < d -> 0 <= k < 2 ^ 52 -> n <= k * d -> F64.num (F64.round n d) <= k * F64.den (F64.round n d).
Proof.
  intros Hn Hd Hk Hle. unfold F64.round. destruct (Z.eqb_spec n 0); cbn; [lia|]. destruct (Z.leb_spec 0 (F64.exponent n d - 52)) as [He|He]; cbn.
  - exfalso. unfold F64.exponent in He. cbv zeta in He. assert (Hlog : Z.log2 n <= Z.log2 (k * d)) by (apply Z.log2_le_mono; lia).
    assert (Hpos : 0 < k) by nia. pose proof (Z.log2_mul_above k d ltac:(lia) ltac:(lia)) as Hm.
    assert (Hk' : Z.log2 k < 52) by (apply Z.log2_lt_pow2; lia).
    revert He. set (e := Z.log2 n - Z.log2 d). destruct (Z.leb_spec (d * 2 ^ Z.max e 0) (n * 2 ^ Z.max (- e) 0)) as [Hc|Hc]; intros He; [|lia].
    assert (e = 52) as Ee by lia. rewrite Ee in Hc. change (d * 2 ^ 52 <= n * 1) in Hc. nia.
  - apply div_even_le; [done|]. assert (0 < 2 ^ (- (F64.exponent n d - 52))) by (apply Z.pow_pos_nonneg; lia). nia.
Qed.

Lemma div_even_pos n d : 0 < d -> d <= n -> 1 <= F64.div_even n d.
Proof.
  intros Hd Hn. unfold F64.div_even. cbv zeta. pose proof (Z.div_le_lower_bound n d 1 Hd ltac:(lia)). repeat case_match; lia.
Qed.
Lemma of_u64_pos n : 1 <= n -> 0 < F64.num (F64.of_u64 n).
Proof.
  intros Hn. unfold F64.of_u64, F64.round, F64.exponent. cbv zeta. destruct (Z.eqb_spec n 0); [lia|]. change (Z.log2 1) with 0. rewrite Z.sub_0_r.
  pose proof (Z.log2_nonneg n). pose proof (Z.log2_spec n ltac:(lia)) as [Hl Hu]. rewrite (Z.max_l (Z.log2 n)), (Z.max_r (- Z.log2 n)) by lia.
  destruct (Z.leb_spec (1 * 2 ^ Z.log2 n) (n * 2 ^ 0)); [|lia]. rewrite (Z.mul_1_l (2 ^ _)).
  destruct (Z.leb_spec 0 (Z.log2 n - 52)); cbn [F64.num].
  - pose proof (Z.pow_pos_nonneg 2 (Z.log2 n - 52) ltac:(lia) ltac:(lia)).
    pose proof (Z.pow_le_mono_r 2 (Z.log2 n - 52) (Z.log2 n) ltac:(lia) ltac:(lia)). pose proof (div_even_pos n (2 ^ (Z.log2 n - 52)) ltac:(lia) ltac:(lia)). nia.
  - pose proof (Z.pow_pos_nonneg 2 (- (Z.log2 n - 52)) ltac:(lia) ltac:(lia)). pose proof (div_even_pos (n * 2 ^ (- (Z.log2 n - 52))) 1 ltac:(lia) ltac:(nia)). lia.
Qed.

Lemma ratio_bounds received total : 0 <= received -> 1 <= total -> f64_ok (ratio received total) /\ F64.num (ratio received total) <= F64.den (ratio received total).
Proof.
  intros Hr Ht. unfold ratio, F64.min, F64.ltb. set (q := F64.div _ _). cbn [F64.num F64.den F64.of_Z].
  assert (Hq : f64_ok q).
  { pose proof (round_ok received 1 Hr ltac:(lia)) as [H1 H2]. pose proof (round_ok total 1 ltac:(lia) ltac:(lia)) as [H3 H4]. pose proof (of_u64_pos total Ht).
    unfold F64.of_u64 in *. apply round_ok; nia. }
  destruct Hq. destruct (Z.ltb_spec (1 * F64.den q) (F64.num q * 1)); unfold f64_ok; cbn; lia.
Qed.

(** The bar is full at most. *)
Lemma filled_bounds received total : 0 <= received -> 1 <= total -> 0 <= filled received total <= 20.
Proof.
  intros Hr Ht. destruct (ratio_bounds received total Hr Ht) as [[Hn Hd] Hle]. unfold filled, F64.round_u64, F64.mul.
  set (n := F64.num (ratio received total)) in *. set (d := F64.den (ratio received total)) in *. cbn [F64.num F64.den F64.of_Z].
  pose proof (round_ok (n * 20) (d * 1) ltac:(lia) ltac:(lia)) as [Hn' Hd']. pose proof (round_le (n * 20) (d * 1) 20 ltac:(lia) ltac:(lia) ltac:(lia) ltac:(lia)) as Hb.
  set (x := F64.round _ _) in *. unfold F64.div_away. split; [apply Z.min_glb; [apply Z.div_pos; lia|done]|].
  etrans; [apply Z.le_min_l|]. apply Z.lt_succ_r. apply Z.div_lt_upper_bound; lia.
Qed.

Lemma repeated_length c n : String.length (repeated c n) = n.
Proof. induction n as [|n IH]; [done|]. cbn. by rewrite IH. Qed.

(** The bar of a progress line has 20 places, whatever was received of whatever was announced. *)
Lemma bar_width received total : 0 <= received -> 1 <= total ->
  String.length (repeated "#" (Z.to_nat (filled received total)) +:+ repeated "-" (20 - Z.to_nat (filled received total))) = 20%nat.
Proof.
  intros Hr Ht. pose proof (filled_bounds received total Hr Ht). rewrite <- length_chars, chars_app, length_app, !length_chars, !repeated_length. lia.
Qed.

(** ** How often a download is drawn *)

Definition complete (p : Progressed) : bool := pr_total p <=? pr_received p.
Definition completes (ps : list Progressed) : Z := Z.of_nat (length (List.filter complete ps)).
(** The reports come in order, none before [t]. *)
Fixpoint in_time (t : Z) (ps : list Progressed) : Prop := match ps with [] => True | p :: rest => t <= pr_now p /\ in_time (pr_now p) rest end.
Fixpoint last_time (t : Z) (ps : list Progressed) : Z := match ps with [] => t | p :: rest => last_time (pr_now p) rest end.
Definition lines (r : SyncProgressReporter) : Z := Z.of_nat (length (sp_output r)).

Lemma in_time_last t ps : in_time t ps -> t <= last_time t ps.
Proof. revert t. induction ps as [|p ps IH]; intros t; cbn; [lia|]. intros [H1 H2]. specialize (IH _ H2). lia. Qed.

Lemma draw_interval_pos m : 0 < draw_interval m.
Proof. by destruct m. Qed.

(** One report: it draws one line and restarts the interval, or it changes nothing. *)
Lemma update_cases atom received total e stalled now r :
  let r' := update_download_progress atom received total e stalled now r in
  sp_output_mode r' = sp_output_mode r /\
  if should_draw received total now r then sp_last_progress_draw r' = Some now /\ lines r' = lines r + 1 else r' = r.
Proof.
  unfold update_download_progress. destruct (should_draw received total now r); cbn [negb]; [|done].
  unfold lines. cbn. destruct (sp_output_mode r) eqn:Em; cbn; rewrite length_app; cbn; split_and!; try done; lia.
Qed.

(** After a line was drawn at [l], the lines that follow it are the completed reports and one for each interval that passed. *)
Lemma report_progress_lines atom ps l t r : sp_last_progress_draw r = Some l -> l <= t -> in_time t ps ->
  let i := draw_interval (sp_output_mode r) in
  (lines (report_progress atom ps r) - lines r) * i <= completes ps * i + (last_time t ps - l).
Proof.
  revert l t r. induction ps as [|p ps IH]; intros l t r Hl Ht Hin; [cbn zeta; change (report_progress atom [] r) with r; change (completes []) with 0; cbn [last_time]; nia|]. destruct Hin as [Hp Hin]. cbn zeta.
  change (report_progress atom (p :: ps) r) with (report_progress atom ps
    (update_download_progress atom (pr_received p) (pr_total p) (pr_elapsed p) (pr_stalled p) (pr_now p) r)).
  pose proof (update_cases atom (pr_received p) (pr_total p) (pr_elapsed p) (pr_stalled p) (pr_now p) r) as [Hm Hu].
  set (r1 := update_download_progress _ _ _ _ _ _ _) in *. pose proof (draw_interval_pos (sp_output_mode r)).
  unfold should_draw in Hu. rewrite Hl in Hu. fold (complete p) in Hu. unfold completes. cbn [List.filter last_time].
  assert (Hc : Z.of_nat (length (if complete p then p :: List.filter complete ps else List.filter complete ps)) = (if complete p then 1 else 0) + completes ps)
    by (unfold completes; destruct (complete p); cbn; lia). rewrite Hc. clear Hc.
  destruct (Z.leb_spec (draw_interval (sp_output_mode r)) (pr_now p - l)) as [Hi|Hi]; cbn [orb] in Hu.
  - destruct Hu as [Hd Hn]. specialize (IH (pr_now p) (pr_now p) r1 Hd ltac:(lia) Hin). rewrite Hm in IH. cbn zeta in IH. destruct (complete p); nia.
  - destruct (complete p).
    + destruct Hu as [Hd Hn]. specialize (IH (pr_now p) (pr_now p) r1 Hd ltac:(lia) Hin). rewrite Hm in IH. cbn zeta in IH. nia.
    + subst r1. rewrite Hu in *. specialize (IH l (pr_now p) r Hl ltac:(lia) Hin). cbn zeta in IH. lia.
Qed.

(** A download prints a bounded number of progress lines, however many reports it makes: the announcement, the first report,
    the reports at which it was complete, and one for each draw interval that passed. *)
Theorem download_lines_bounded pkg p ps r : in_time (pr_now p) ps ->
  lines (report_progress (bpk_atom pkg) (p :: ps) (start_download pkg r)) <=
  lines r + 2 + completes ps + (last_time (pr_now p) ps - pr_now p) / draw_interval (sp_output_mode r).
Proof.
  intros Hin. set (r0 := start_download pkg r). assert (H0 : lines r0 = lines r + 1) by (unfold lines, r0; cbn; rewrite length_app; cbn; lia).
  change (report_progress (bpk_atom pkg) (p :: ps) r0) with (report_progress (bpk_atom pkg) ps
    (update_download_progress (bpk_atom pkg) (pr_received p) (pr_total p) (pr_elapsed p) (pr_stalled p) (pr_now p) r0)).
  pose proof (update_cases (bpk_atom pkg) (pr_received p) (pr_total p) (pr_elapsed p) (pr_stalled p) (pr_now p) r0) as [Hm [Hd Hn]].
  set (r1 := update_download_progress _ _ _ _ _ _ _) in *.
  pose proof (report_progress_lines (bpk_atom pkg) ps (pr_now p) (pr_now p) r1 Hd ltac:(lia) Hin) as H. cbn zeta in H. rewrite Hm in H.
  change (sp_output_mode r0) with (sp_output_mode r) in H. pose proof (draw_interval_pos (sp_output_mode r)) as Hp.
  pose proof (Z.div_le_lower_bound (last_time (pr_now p) ps - pr_now p) _ (lines (report_progress (bpk_atom pkg) ps r1) - lines r1 - completes ps) Hp ltac:(nia)).
  lia.
Qed.

(** ** What the summary says *)

Definition succeeded (x : BuiltPackage * Outcome) : bool := match snd x with DidFail _ _ => false | _ => true end.
Definition was_downloaded (x : BuiltPackage * Outcome) : bool := match snd x with WasDownloaded _ _ => true | _ => false end.
Definition was_there (x : BuiltPackage * Outcome) : bool := match snd x with WasThere => true | _ => false end.
(** The packages before the first that failed, and that one. *)
Fixpoint until_failure (xs : list (BuiltPackage * Outcome)) : list (BuiltPackage * Outcome) * option BuiltPackage :=
  match xs with
  | [] => ([], None)
  | x :: rest => if succeeded x then let '(before, failed) := until_failure rest in (x :: before, failed) else ([], Some (fst x))
  end.
Definition sizes (xs : list (BuiltPackage * Outcome)) : Z := foldr (fun x n => bpk_size (fst x) + n) 0 xs.
Definition number (xs : list (BuiltPackage * Outcome)) : Z := Z.of_nat (length xs).

Lemma report_progress_summary atom ps r : sp_summary (report_progress atom ps r) = sp_summary r.
Proof.
  revert r. induction ps as [|p ps IH]; intros r; [done|]. unfold report_progress in *. cbn [fold_left]. rewrite IH.
  unfold update_download_progress. destruct (should_draw _ _ _ _); [|done]. by destruct (sp_output_mode r) eqn:E; cbn; rewrite E.
Qed.
Lemma finish_download_summary pkg e r : sp_summary (finish_download pkg e r) = sp_summary r.
Proof. unfold finish_download. by destruct (sp_output_mode r). Qed.

Lemma report_progress_started atom ps r : sp_started_at (report_progress atom ps r) = sp_started_at r.
Proof.
  revert r. induction ps as [|p ps IH]; intros r; [done|]. unfold report_progress in *. cbn [fold_left]. rewrite IH.
  unfold update_download_progress. destruct (should_draw _ _ _ _); [|done]. by destruct (sp_output_mode r) eqn:E; cbn; rewrite E.
Qed.
Lemma report_packages_started xs r : sp_started_at (snd (report_packages xs r)) = sp_started_at r.
Proof.
  revert r. induction xs as [|[pkg [|ps e|[ps|] e]] xs IH]; intros r; cbn; rewrite ?IH; cbn; rewrite ?report_progress_started; try done.
  unfold finish_download. by destruct (sp_output_mode _); cbn; rewrite report_progress_started.
Qed.

(** What [record_result] adds, in one step, to a summary. *)
Definition tallied (downs hits : list (BuiltPackage * Outcome)) (failed : option BuiltPackage) (s : BinpkgSyncSummary) : BinpkgSyncSummary := {|
  downloaded_packages := (downloaded_packages s + number downs) mod u64_modulus; downloaded_bytes := (downloaded_bytes s + sizes downs) mod u64_modulus;
  reused_packages := (reused_packages s + number hits) mod u64_modulus; reused_bytes := (reused_bytes s + sizes hits) mod u64_modulus;
  failed_package := match failed with Some pkg => Some (bpk_atom pkg) | None => failed_package s end; elapsed := elapsed s |}.
Definition summary_ok (s : BinpkgSyncSummary) : Prop :=
  u64_ok (downloaded_packages s) /\ u64_ok (downloaded_bytes s) /\ u64_ok (reused_packages s) /\ u64_ok (reused_bytes s).

Lemma summary_ext s s' : downloaded_packages s = downloaded_packages s' -> downloaded_bytes s = downloaded_bytes s' ->
  reused_packages s = reused_packages s' -> reused_bytes s = reused_bytes s' -> failed_package s = failed_package s' -> elapsed s = elapsed s' -> s = s'.
Proof. destruct s, s'; cbn; congruence. Qed.

Lemma tallied_nothing s : summary_ok s -> tallied [] [] None s = s.
Proof.
  intros (H1 & H2 & H3 & H4). unfold u64_ok, u64_max in *. apply summary_ext; cbn; rewrite ?Z.add_0_r; try done; apply Z.mod_small; lia.
Qed.
Lemma wrapping_ok a b : u64_ok (u64_wrapping_add a b).
Proof. unfold u64_ok, u64_max, u64_wrapping_add. pose proof (Z.mod_pos_bound (a + b) u64_modulus ltac:(done)). lia. Qed.
Lemma wrapping_then a b c : (u64_wrapping_add a b + c) mod u64_modulus = (a + (b + c)) mod u64_modulus.
Proof. unfold u64_wrapping_add. rewrite Z.add_mod_idemp_l by done. by rewrite Z.add_assoc. Qed.
Lemma number_cons x xs : number (x :: xs) = 1 + number xs.
Proof. unfold number. cbn. lia. Qed.

(** The summary after the loop is the tally of what happened before the first failure. *)
Lemma report_packages_tally xs r : summary_ok (sp_summary r) ->
  let '(before, failed) := until_failure xs in let '(ok, r') := report_packages xs r in
  ok = negb (is_some failed) /\ sp_summary r' = tallied (List.filter was_downloaded before) (List.filter was_there before) failed (sp_summary r).
Proof.
  revert r. induction xs as [|[pkg o] xs IH]; intros r Hok; cbn [until_failure report_packages].
  { by rewrite tallied_nothing. }
  destruct o as [|ps e|ps e]; cbn [succeeded snd fst].
  - cbn zeta. cbn [record_cache_hit]. match goal with |- context [report_packages xs ?r1] => set (r1' := r1) end.
    specialize (IH r1'). destruct (until_failure xs) as [before failed]. destruct (report_packages xs r1') as [ok r'].
    destruct IH as [-> Hs]; [destruct Hok as (? & ? & ? & ?); unfold summary_ok; cbn; split_and!; apply wrapping_ok || done|]. split; [done|]. rewrite Hs.
    unfold tallied. apply summary_ext; cbn; try done; rewrite wrapping_then; [by rewrite number_cons|done].
  - cbn zeta. match goal with |- context [report_packages xs ?r1] => set (r1' := r1) end.
    assert (Hr : sp_summary r1' = sp_summary (record_result {| pss_atom := bpk_atom pkg; pss_size := bpk_size pkg; pss_disposition := Downloaded |} r))
      by (unfold r1', record_result, summing; cbn [sp_summary]; by rewrite finish_download_summary, report_progress_summary).
    specialize (IH r1'). rewrite Hr in IH. destruct (until_failure xs) as [before failed]. destruct (report_packages xs r1') as [ok r'].
    destruct IH as [-> Hs]; [destruct Hok as (? & ? & ? & ?); unfold summary_ok; cbn; split_and!; apply wrapping_ok || done|]. split; [done|]. rewrite Hs.
    unfold tallied. apply summary_ext; cbn; try done; rewrite wrapping_then; [by rewrite number_cons|done].
  - cbn. split; [done|]. destruct Hok as (H1 & H2 & H3 & H4). unfold u64_ok, u64_max in *.
    destruct ps as [ps|]; apply summary_ext; cbn; rewrite ?report_progress_summary; cbn; rewrite ?Z.add_0_r; try done; symmetry; apply Z.mod_small; lia.
Qed.

(** The summary of a synchronisation counts the packages and the bytes that were downloaded and that were already there before the
    first failure, modulo 2^64, names the package that failed, if one did, and has the time the whole took. *)
Theorem summary_tells xs uri started tty dir finished :
  let '(before, failed) := until_failure xs in
  let '(ok, r) := report_packages xs (reporter_new (number xs) uri started tty) in
  let s := fst (finish dir finished r) in
  ok = negb (is_some failed) /\ failed_package s = bpk_atom <$> failed /\ elapsed s = finished - started /\
  downloaded_packages s = number (List.filter was_downloaded before) mod u64_modulus /\ downloaded_bytes s = sizes (List.filter was_downloaded before) mod u64_modulus /\
  reused_packages s = number (List.filter was_there before) mod u64_modulus /\ reused_bytes s = sizes (List.filter was_there before) mod u64_modulus.
Proof.
  pose proof (report_packages_tally xs (reporter_new (number xs) uri started tty) ltac:(by unfold summary_ok; cbn; split_and!; split)) as H.
  destruct (until_failure xs) as [before failed].
  destruct (report_packages xs _) as [ok r] eqn:Er. destruct H as [-> Hs]. cbn. rewrite Hs. cbn. split_and!; try done.
  pose proof (report_packages_started xs (reporter_new (number xs) uri started tty)) as Ht. rewrite Er in Ht. cbn in Ht. by rewrite Ht.
Qed.
