(* ===== verification/Progress.v ===== *)
(** * Waiting for the result

    [crates/cli/src/client.rs], [stream_progress] and what it calls: the client reads
    the progress stream of its order, polls the order's status next to it, and takes
    the result from the status endpoint.  JSON and uuid parsing are parameters.  The
    loop runs as long as the server sends; [rounds] bounds the number of turns of
    [select!] that are looked at, [None] is the loop still running. *)

From S2P Require Import Prelude Types World Effects.

Inductive WsFrame := BinaryFrame (data : bytes) | TextFrame (text : string) | CloseFrame | OtherFrame.
(** What [select!] yields: a tick of the poll timer, a frame, an error, or the end. *)
Inductive Selected := PollTick | Received (frame : WsFrame) | WsError (e : Error) | WsEnd.
Inductive Cleanup := CleanedUp | CleanupFailed | CleanupTimedOut.

Inductive ProgressE : Type -> Type :=
| ConnectWs (url : string) : ProgressE (Result unit Error)
| Select (polling : bool) : ProgressE Selected
| FetchStatus (id : WorkorderId) : ProgressE (Result (option WorkorderResult) Error)
| NowMillis : ProgressE Z
| SleepMillis (n : Z) : ProgressE unit
| StopStdin : ProgressE Cleanup.

Definition WORKORDER_RESULT_POLL_INTERVAL : Z := 200.
Definition WORKORDER_RESULT_WAIT_TIMEOUT : Z := 5000.

(** [await_result_ready], with [tries] polls to go. *)
Fixpoint poll_result (tries : nat) (deadline : Z) (id : WorkorderId) : Prog ProgressE (option (Result WorkorderResult Error)) :=
  match tries with
  | O => Ret None
  | S tries =>
      let* status := ask (FetchStatus id) in
      match status with
      | Ok (Some result) => Ret (Some (Ok result))
      | Err e => Ret (Some (Err e))
      | Ok None =>
          let* now := ask NowMillis in
          if deadline <=? now then Ret (Some (Err (Bail "Workorder finished but the final result was not available")))
          else let* _ := ask (SleepMillis WORKORDER_RESULT_POLL_INTERVAL) in poll_result tries deadline id
      end
  end.
Definition MAX_POLLS : nat := 27.
Definition await_result_ready (id : WorkorderId) : Prog ProgressE (option (Result WorkorderResult Error)) :=
  let* start := ask NowMillis in poll_result MAX_POLLS (start + WORKORDER_RESULT_WAIT_TIMEOUT) id.

(** [fetch_result] *)
Definition fetch_result (id : WorkorderId) : Prog ProgressE (Result WorkorderResult Error) :=
  let* status := ask (FetchStatus id) in
  Ret (let? r := status in ok_or r (Bail "Workorder has no result yet")).

Section Stream.
Context (parse_progress : string -> option BuildProgress) (parse_uuid : string -> option WorkorderId).

Definition workorder_id_from_progress_url (ws_url : string) : option WorkorderId :=
  match rev (split_on "/" ws_url) with _ :: segment :: _ => parse_uuid segment | _ => None end.

(** How the loop ends: with a result, without one, or with an error. *)
Inductive LoopEnd := Got (r : WorkorderResult) | Broke | Failed_ (e : Error).

Definition is_finished (ev : BuildEvent) : bool := match ev with Finished _ _ => true | _ => false end.

(** One frame; [None] goes on with the loop. *)
Definition on_frame (frame : WsFrame) : Prog ProgressE (option (option LoopEnd)) :=
  match frame with
  | BinaryFrame _ | OtherFrame => Ret (Some None)
  | CloseFrame => Ret (Some (Some Broke))
  | TextFrame text =>
      match parse_progress text with
      | None => Ret (Some None)
      | Some progress =>
          if is_finished (bp_event progress) then
            let* r := await_result_ready (bp_workorder_id progress) in
            Ret (match r with
                 | None => None
                 | Some (Ok result) => Some (Some (Got result))
                 | Some (Err e) => Some (Some (Failed_ e))
                 end)
          else Ret (Some None)
      end
  end.

Fixpoint stream_loop (rounds : nat) (id : option WorkorderId) : Prog ProgressE (option LoopEnd) :=
  match rounds with
  | O => Ret None
  | S rounds =>
      let* selected := ask (Select (is_some id)) in
      match selected with
      | PollTick =>
          match id with
          | Some id' =>
              let* r := fetch_result id' in
              match r with Ok result => Ret (Some (Got result)) | Err _ => stream_loop rounds id end
          | None => stream_loop rounds id
          end
      | WsEnd => Ret (Some Broke)
      | WsError e => Ret (Some (Failed_ (in_context "WebSocket error" e)))
      | Received frame =>
          let* r := on_frame frame in
          match r with
          | None => Ret None
          | Some None => stream_loop rounds id
          | Some (Some fin) => Ret (Some fin)
          end
      end
  end.

(** [wait_for_progress_cleanup] *)
Definition wait_for_progress_cleanup : Prog ProgressE (Result unit Error) :=
  let* c := ask StopStdin in
  Ret (match c with
       | CleanedUp => Ok tt
       | CleanupFailed => Err (Bail "Progress stream cleanup failed while shutting down progress-stream stdin forwarding")
       | CleanupTimedOut =>
           Err (Bail "CLI watchdog timed out after 3s while shutting down progress-stream stdin forwarding; the remote build already finished, so the remaining hang is in local progress-stream cleanup")
       end).

Definition no_result : Error := Bail "Build finished but no result was received".

Definition stream_progress (rounds : nat) (ws_url : string) : Prog ProgressE (option (Result WorkorderResult Error)) :=
  let* connected := ask (ConnectWs ws_url) in
  match connected with
  | Err e => Ret (Some (Err (in_context "Failed to connect to progress WebSocket" e)))
  | Ok _ =>
      let id := workorder_id_from_progress_url ws_url in
      let* fin := stream_loop rounds id in
      match fin with
      | None => Ret None
      | Some (Failed_ e) => Ret (Some (Err e))
      | Some (Got result) => let* c := wait_for_progress_cleanup in Ret (Some (let? _ := c in Ok result))
      | Some Broke =>
          let* c := wait_for_progress_cleanup in
          match c, id with
          | Err e, _ => Ret (Some (Err e))
          | Ok _, Some id => await_result_ready id
          | Ok _, None => Ret (Some (Err no_result))
          end
      end
  end.

(** ** The result is the server's *)

(** The status endpoint answered with [result]. *)
Definition fetched (t : list (Event ProgressE)) (result : WorkorderResult) : Prop :=
  exists id, Ev (FetchStatus id) (Ok (Some result)) ∈ t.

Lemma fetched_app t1 t2 r : fetched t1 r \/ fetched t2 r -> fetched (t1 ++ t2) r.
Proof. intros [[id Hin]|[id Hin]]; exists id; set_solver. Qed.

Lemma poll_result_fetched tries deadline id t r : runs (poll_result tries deadline id) t (Some (Ok r)) -> fetched t r.
Proof.
  revert t. induction tries as [|tries IH]; intros t; [by intros [_ ?]|]. cbn [poll_result].
  intros (t1 & t2 & status & -> & ->%runs_ask & H2)%runs_bind. destruct status as [[result|]|e].
  - destruct H2 as [-> [= ->]]. exists id. set_solver.
  - apply runs_bind in H2 as (t3 & t4 & now & -> & _ & H4). destruct (deadline <=? now); [by destruct H4|].
    apply runs_bind in H4 as (t5 & t6 & [] & -> & _ & H6). apply IH in H6. do 3 (apply fetched_app; right). done.
  - by destruct H2.
Qed.

Lemma await_fetched id t r : runs (await_result_ready id) t (Some (Ok r)) -> fetched t r.
Proof. intros (t1 & t2 & now & -> & _ & H2)%runs_bind. apply poll_result_fetched in H2. apply fetched_app. by right. Qed.

(** Time does not run backwards, and a sleep takes at least its time. *)
Fixpoint ticking (now : Z) (t : list (Event ProgressE)) : Prop :=
  match t with
  | [] => True
  | Ev NowMillis x :: rest => now <= x /\ ticking x rest
  | Ev (SleepMillis n) _ :: rest => ticking (now + n) rest
  | _ :: rest => ticking now rest
  end.

Lemma poll_result_ends tries deadline id now t r :
  deadline <= now + 200 * (Z.of_nat tries - 1) -> (0 < tries)%nat -> ticking now t ->
  runs (poll_result tries deadline id) t r -> r <> None.
Proof.
  revert now t. induction tries as [|tries IH]; intros now t Hd Hpos Ht; [lia|]. cbn [poll_result].
  intros (t1 & t2 & status & -> & ->%runs_ask & H2)%runs_bind. simpl in Ht. destruct status as [[result|]|e]; [by destruct H2 as [-> ->]| |by destruct H2 as [-> ->]].
  apply runs_bind in H2 as (t3 & t4 & x & -> & ->%runs_ask & H4). simpl in Ht. destruct Ht as [Hx Ht].
  destruct (Z.leb_spec deadline x) as [Hle|Hgt]; [by destruct H4 as [-> ->]|].
  apply runs_bind in H4 as (t5 & t6 & [] & -> & ->%runs_ask & H6). simpl in Ht. unfold WORKORDER_RESULT_POLL_INTERVAL in Ht.
  eapply (IH (x + 200) t6); [lia|lia|done|done].
Qed.

(** Waiting for the result ends: if the clock never goes back and each pause takes
    its time, a run of [await_result_ready] gives a result or an error; the 27 polls
    of the model are enough for the five seconds of the code. *)
Theorem await_result_ready_ends id now t r :
  ticking now t -> runs (await_result_ready id) t r -> r <> None.
Proof.
  unfold await_result_ready. intros Ht (t1 & t2 & start & -> & ->%runs_ask & H2)%runs_bind. simpl in Ht. destruct Ht as [_ Ht].
  eapply poll_result_ends; [| |exact Ht|exact H2]; unfold MAX_POLLS, WORKORDER_RESULT_WAIT_TIMEOUT; lia.
Qed.

Lemma stream_loop_fetched rounds id t r : runs (stream_loop rounds id) t (Some (Got r)) -> fetched t r.
Proof.
  revert t. induction rounds as [|rounds IH]; intros t; [by intros [_ ?]|]. cbn [stream_loop].
  intros (t1 & t2 & sel & -> & ->%runs_ask & H2)%runs_bind. apply fetched_app. right. destruct sel as [|frame|e|]; try (by destruct H2).
  - destruct id as [id|]; [|by apply IH]. apply runs_bind in H2 as (t3 & t4 & res & -> & H3 & H4). apply fetched_app.
    destruct res as [result|e]; [|right; by apply IH]. destruct H4 as [-> [= ->]]. left.
    apply runs_bind in H3 as (t5 & t6 & status & -> & ->%runs_ask & [-> Hs]). destruct status as [[result'|]|e]; simplify_eq/=. exists id. set_solver.
  - apply runs_bind in H2 as (t3 & t4 & o & -> & H3 & H4). apply fetched_app.
    destruct o as [[fin|]|]; [|right; by apply IH|by destruct H4]. destruct H4 as [-> [= <-]]. left. destruct frame; try (by destruct H3).
    unfold on_frame in H3. destruct (parse_progress text) as [progress|]; [|by destruct H3]. destruct (is_finished (bp_event progress)); [|by destruct H3].
    apply runs_bind in H3 as (t5 & t6 & res & -> & H5 & [-> Hres]). destruct res as [[result|e]|]; [injection Hres as <-|discriminate Hres..].
    apply fetched_app. left. exact (await_fetched _ _ _ H5).
Qed.

(** Whatever the progress stream sends, the result that the client goes on with is
    one that the status endpoint of the server returned; a finished event, a closed
    or a broken stream alone never make one up. *)
Theorem stream_progress_result rounds ws_url t r :
  runs (stream_progress rounds ws_url) t (Some (Ok r)) -> fetched t r.
Proof.
  unfold stream_progress. intros (t1 & t2 & c & -> & _ & H2)%runs_bind. apply fetched_app. right. destruct c as [[]|e]; [|by destruct H2].
  cbv zeta in H2. apply runs_bind in H2 as (t3 & t4 & fin & -> & H3 & H4). apply fetched_app. destruct fin as [[result| |e]|]; try (by destruct H4).
  - apply runs_bind in H4 as (t5 & t6 & c & -> & _ & [-> Hr]). destruct c; simplify_eq/=. left. by eapply stream_loop_fetched.
  - apply runs_bind in H4 as (t5 & t6 & c & -> & _ & H6). destruct c as [[]|e]; [|by destruct H6].
    destruct (workorder_id_from_progress_url ws_url) as [id|]; [|by destruct H6]. right. apply fetched_app. right. by eapply await_fetched.
Qed.
End Stream.

(** A server whose order has a result, and a client that hears of its end. *)
Definition demo_wait_result : WorkorderResult := {|
  wr_workorder_id := 1%N; wr_built_packages := []; wr_failed_packages := []; wr_binhost_uri := ""; wr_fetched_distfiles := ∅;
  wr_parity_manifest := ParityManifest_default |}.
Definition demo_progress (X : Type) (e : ProgressE X) : X :=
  match e with
  | ConnectWs _ => Ok tt
  | Select _ => Received (TextFrame "finished")
  | FetchStatus _ => Ok (Some demo_wait_result)
  | NowMillis => 0
  | SleepMillis _ => tt
  | StopStdin => CleanedUp
  end.
Definition demo_finished (text : string) : option BuildProgress :=
  Some {| bp_workorder_id := 1%N; bp_trace_id := None; bp_event := Finished [] []; bp_timestamp := 0 |}.

Lemma stream_progress_result_witness :
  fetched (fst (interp demo_progress (stream_progress demo_finished (fun _ => None) 3 "ws://host/1/progress"))) demo_wait_result.
Proof.
  apply (stream_progress_result demo_finished (fun _ => None) 3 "ws://host/1/progress").
  exact (interp_runs demo_progress (stream_progress demo_finished (fun _ => None) 3 "ws://host/1/progress")).
Defined.

Lemma await_result_ready_ends_witness : snd (interp demo_progress (await_result_ready 1%N)) <> None.
Proof.
  apply (await_result_ready_ends 1%N 0 (fst (interp demo_progress (await_result_ready 1%N)))); [by vm_compute|].
  apply interp_runs.
Defined.
