(* ===== verification/Terminal.v ===== *)
(** * The terminal of the client while it follows a build ([crates/cli/src/client.rs])

    What [stream_progress] writes to the terminal for the frames it receives, how it
    forwards what is typed, and the guard that switches the echo of the terminal off.
    How [{:?}] prints a string is a parameter. *)

From S2P Require Import Prelude Types World Effects Progress.

(** ** Output *)

Inductive Output := Stdout (text : bytes) | Stderr (text : bytes).

Class DebugStr := debug_str : string -> string.

Section Events.
Context `{DebugStr}.

Definition text (s : string) : bytes := String.list_byte_of_string s.
(** [println!] *)
Definition line (s : string) : bytes := text (s +:+ String "010"%char "").

(** [{:?}] of a status. *)
Definition debug_status (st : WorkorderStatus) : string :=
  match st with
  | Pending => "Pending"
  | Provisioning => "Provisioning"
  | Building => "Building"
  | Completed => "Completed"
  | Failed reason => "Failed { reason: " +:+ debug_str reason +:+ " }"
  | Cancelled => "Cancelled"
  end.

Definition print_event (ev : BuildEvent) : list Output :=
  match ev with
  | StatusChanged _ to => [Stdout (line (">>> Status: " +:+ debug_status to))]
  | Log l => [Stdout (text l)]
  | PackageBuilt atom duration_secs => [Stdout (line ("✔ Built " +:+ atom +:+ " (" +:+ pretty duration_secs +:+ "s)"))]
  | PackageFailed atom reason => [Stderr (line ("✘ Failed " +:+ atom +:+ ": " +:+ reason))]
  | Finished built failed =>
      [Stdout (line ("── Finished: " +:+ pretty (length built) +:+ " built, " +:+ pretty (length failed) +:+ " failed ──"))]
  end.

(** What one round of the loop prints for a frame. *)
Context (parse_progress : string -> option BuildProgress).
Definition frame_output (frame : WsFrame) : list Output :=
  match frame with
  | BinaryFrame data => [Stdout data]
  | TextFrame t => match parse_progress t with Some progress => print_event (bp_event progress) | None => [] end
  | CloseFrame | OtherFrame => []
  end.
Definition event_output (ev : Event ProgressE) : list Output := match ev with Ev (Select _) (Received frame) => frame_output frame | _ => [] end.
(** The output of a run of [stream_progress]. *)
Definition terminal_output (t : list (Event ProgressE)) : list Output := concat (map event_output t).
End Events.

(** ** Input

    A thread reads the terminal in chunks of at most 256 bytes into a channel with room
    for 64; a task sends each chunk as a binary frame.  The end of the stream aborts the
    task; a frame that cannot be sent ends it. *)

Definition STDIN_CHUNK : nat := 256.
Definition STDIN_CHANNEL : nat := 64.

Record Typing := {
  ty_unread : bytes;        (* typed, not read yet *)
  ty_reading : bool;        (* the thread runs *)
  ty_channel : list bytes;  (* in the channel *)
  ty_forwarding : bool;     (* the task runs: the receiving end is open *)
  ty_frames : list bytes;   (* sent *)
}.
Definition typing_start (input : bytes) : Typing :=
  {| ty_unread := input; ty_reading := true; ty_channel := []; ty_forwarding := true; ty_frames := [] |}.

Inductive typing_step : Typing -> Typing -> Prop :=
| read_chunk c rest channel frames :
    c <> [] -> (length c <= STDIN_CHUNK)%nat -> (length channel < STDIN_CHANNEL)%nat ->
    typing_step {| ty_unread := c ++ rest; ty_reading := true; ty_channel := channel; ty_forwarding := true; ty_frames := frames |}
                {| ty_unread := rest; ty_reading := true; ty_channel := channel ++ [c]; ty_forwarding := true; ty_frames := frames |}
| read_after_close c rest channel frames :
    c <> [] -> (length c <= STDIN_CHUNK)%nat ->
    typing_step {| ty_unread := c ++ rest; ty_reading := true; ty_channel := channel; ty_forwarding := false; ty_frames := frames |}
                {| ty_unread := rest; ty_reading := false; ty_channel := channel; ty_forwarding := false; ty_frames := frames |}
| read_ends unread channel forwarding frames :
    typing_step {| ty_unread := unread; ty_reading := true; ty_channel := channel; ty_forwarding := forwarding; ty_frames := frames |}
                {| ty_unread := unread; ty_reading := false; ty_channel := channel; ty_forwarding := forwarding; ty_frames := frames |}
| send_frame unread reading c channel frames :
    typing_step {| ty_unread := unread; ty_reading := reading; ty_channel := c :: channel; ty_forwarding := true; ty_frames := frames |}
                {| ty_unread := unread; ty_reading := reading; ty_channel := channel; ty_forwarding := true; ty_frames := frames ++ [c] |}
| send_fails unread reading c channel frames :
    typing_step {| ty_unread := unread; ty_reading := reading; ty_channel := c :: channel; ty_forwarding := true; ty_frames := frames |}
                {| ty_unread := unread; ty_reading := reading; ty_channel := channel; ty_forwarding := false; ty_frames := frames |}
| channel_ends unread frames :
    typing_step {| ty_unread := unread; ty_reading := false; ty_channel := []; ty_forwarding := true; ty_frames := frames |}
                {| ty_unread := unread; ty_reading := false; ty_channel := []; ty_forwarding := false; ty_frames := frames |}
| task_aborted unread reading channel frames :
    typing_step {| ty_unread := unread; ty_reading := reading; ty_channel := channel; ty_forwarding := true; ty_frames := frames |}
                {| ty_unread := unread; ty_reading := reading; ty_channel := channel; ty_forwarding := false; ty_frames := frames |}.

Definition chunk_ok (c : bytes) : Prop := c <> [] /\ (length c <= STDIN_CHUNK)%nat.

Record typing_ok (input : bytes) (s : Typing) : Prop := {
  tk_prefix : concat (ty_frames s) `prefix_of` input;
  tk_complete : ty_forwarding s = true -> input = concat (ty_frames s) ++ concat (ty_channel s) ++ ty_unread s;
  tk_room : (length (ty_channel s) <= STDIN_CHANNEL)%nat;
  tk_chunks : Forall chunk_ok (ty_frames s ++ ty_channel s);
}.

Lemma typing_step_ok input s s' : typing_step s s' -> typing_ok input s -> typing_ok input s'.
Proof.
  intros Hs [Hp Hc Hr Hk]. destruct Hs; cbn in *; (split; cbn; [..|try done]); try done; try lia; rewrite ?length_app; cbn; try lia.
  - intros _. rewrite concat_app. cbn. rewrite app_nil_r, <- app_assoc. auto.
  - rewrite app_assoc, Forall_app. split; [done|]. constructor; [by split|constructor].
  - rewrite concat_app. cbn. rewrite app_nil_r, (Hc eq_refl). exists (concat channel ++ unread). by rewrite <- !app_assoc.
  - intros _. rewrite concat_app. cbn. rewrite app_nil_r, (Hc eq_refl). by rewrite <- !app_assoc.
  - by rewrite <- app_assoc.
  - rewrite Forall_app, Forall_cons in Hk. rewrite Forall_app. tauto.
Qed.

(** What is typed reaches the server in order and without gaps: at any time the frames
    sent are, put together, a prefix of the input, no frame is empty or longer than the
    buffer, and the channel never holds more than it has room for; and as long as the
    forwarding runs nothing is lost. *)
Theorem typed_in_order input s : rtc typing_step (typing_start input) s -> typing_ok input s.
Proof.
  intros Hr. assert (H0 : typing_ok input (typing_start input)).
  { split; cbn; [apply prefix_nil|done|unfold STDIN_CHANNEL; lia|constructor]. }
  revert H0. induction Hr as [|x y z Hs _ IH]; [done|]. intros Hx. apply IH. by eapply typing_step_ok.
Qed.

(** ** The echo of the terminal *)

(** [libc::termios]: the local modes, the control characters, and the rest. *)
Record Termios := { c_lflag : Z; c_cc : Z -> Z; other_modes : list Z }.
Definition ECHO : Z := 8.
Definition ICANON : Z := 2.
Definition VTIME : Z := 5.
Definition VMIN : Z := 6.

Record EchoGuard := { original : option Termios }.

(** The settings of the terminal, [None] if the input is not one; [set_ok] says
    whether [tcsetattr] succeeds, which the code does not ask. *)
Definition tcsetattr (set_ok : bool) (new : Termios) (tty : option Termios) : option Termios :=
  match tty with Some old => Some (if set_ok then new else old) | None => None end.

Definition raw_modes (t : Termios) : Termios := {|
  c_lflag := Z.land (c_lflag t) (Z.lnot (Z.lor ECHO ICANON));
  c_cc := fun i => if i =? VTIME then 0 else if i =? VMIN then 1 else c_cc t i;
  other_modes := other_modes t |}.

Definition disable (set_ok : bool) (tty : option Termios) : EchoGuard * option Termios :=
  match tty with
  | None => ({| original := None |}, None)
  | Some termios => ({| original := Some termios |}, tcsetattr set_ok (raw_modes termios) tty)
  end.
Definition drop_guard (set_ok : bool) (g : EchoGuard) (tty : option Termios) : option Termios :=
  match original g with Some t => tcsetattr set_ok t tty | None => tty end.

(** The guard leaves the terminal as it found it; in between the terminal neither
    echoes nor waits for lines, and no other local mode is changed. *)
Theorem echo_guard_restores ok tty :
  drop_guard true (fst (disable ok tty)) (snd (disable ok tty)) = tty /\
  forall t t', tty = Some t -> snd (disable true tty) = Some t' ->
    Z.testbit (c_lflag t') 3 = false /\ Z.testbit (c_lflag t') 1 = false /\
    (forall i, i <> 1 -> i <> 3 -> 0 <= i -> Z.testbit (c_lflag t') i = Z.testbit (c_lflag t) i) /\ c_cc t' VMIN = 1 /\ c_cc t' VTIME = 0.
Proof.
  split; [by destruct tty as [t|], ok|]. intros t t' -> [= <-]. cbn [c_lflag raw_modes c_cc].
  assert (Hm : Z.lor ECHO ICANON = 10) by done. rewrite Hm. split_and!; [by rewrite Z.land_spec, andb_false_r..| |done|done].
  intros i H1 H3 H0. rewrite Z.land_spec, Z.lnot_spec by done. assert (Hb : Z.testbit 10 i = false).
  { destruct (Z.le_gt_cases i 3); [|apply Z.bits_above_log2; [lia|]; change (Z.log2 10) with 3; lia]. assert (i = 0 \/ i = 2) as [->| ->] by lia; done. }
  by rewrite Hb, andb_true_r.
Qed.
