(* ===== verification/Routes.v ===== *)
(** * Routes and addresses ([crates/server/src/api.rs] router, [crates/cli/src/client.rs])

    The table of the server's router, what a request of a given method and path
    reaches behind its layers (the guard of the observability routes, the limit on
    bodies), and the addresses the client builds.  Choosing the entry for a path is
    axum's, a parameter ([PathChoice]) of which only what axum documents is assumed. *)

From S2P Require Import Prelude Types World Auth Trace Config ConfigLoad BlobStore Server BlobApi MetricsText PortageFiles Effects Progress.

Inductive Method := GET | POST | PUT | DELETE.
#[global] Instance Method_eq_dec : EqDecision Method.
Proof. solve_decision. Defined.

(** The handlers. *)
Inductive Handler :=
| H_server_info | H_signing_key | H_health | H_submit_workorder | H_list_workorders | H_get_workorder | H_cancel_workorder
| H_ws_progress | H_find_missing_blobs | H_ws_blob_upload | H_download_blob | H_upload_blob | H_list_clients | H_get_client
| H_metrics | H_binpkgs.
#[global] Instance Handler_eq_dec : EqDecision Handler.
Proof. solve_decision. Defined.

Inductive Segment := Lit (s : string) | Param | Rest.

Record Route := { rt_pattern : list Segment; rt_methods : list (Method * Handler); rt_guarded : bool }.
Definition public (pattern : list Segment) (methods : list (Method * Handler)) : Route :=
  {| rt_pattern := pattern; rt_methods := methods; rt_guarded := false |}.
Definition guarded_route (pattern : list Segment) (methods : list (Method * Handler)) : Route :=
  {| rt_pattern := pattern; rt_methods := methods; rt_guarded := true |}.

Definition api (rest : list Segment) : list Segment := Lit "api" :: Lit "v1" :: rest.

Definition routes : list Route := [
  public (api [Lit "info"]) [(GET, H_server_info)];
  public (api [Lit "signing-key"]) [(GET, H_signing_key)];
  public (api [Lit "health"]) [(GET, H_health)];
  public (api [Lit "workorders"]) [(POST, H_submit_workorder); (GET, H_list_workorders)];
  public (api [Lit "workorders"; Param]) [(GET, H_get_workorder); (DELETE, H_cancel_workorder)];
  public (api [Lit "workorders"; Param; Lit "progress"]) [(GET, H_ws_progress)];
  public (api [Lit "snapshots"; Lit "missing-blobs"]) [(POST, H_find_missing_blobs)];
  public (api [Lit "snapshots"; Lit "blobs"; Lit "stream"]) [(GET, H_ws_blob_upload)];
  public (api [Lit "snapshots"; Lit "blobs"; Param]) [(GET, H_download_blob); (PUT, H_upload_blob)];
  public (api [Lit "clients"]) [(GET, H_list_clients)];
  public (api [Lit "clients"; Param]) [(GET, H_get_client)];
  guarded_route [Lit "metrics"] [(GET, H_metrics)];
  guarded_route [Lit "binpkgs"; Rest] [(GET, H_binpkgs)]].

(** The values of the parameters, when the path matches. *)
Fixpoint match_segments (pattern : list Segment) (path : list string) : option (list string) :=
  match pattern, path with
  | [], [] => Some []
  | [Rest], rest => Some rest
  | Lit s :: pattern, x :: path => if bool_decide (s = x) then match_segments pattern path else None
  | Param :: pattern, x :: path => if is_empty x then None else (fun params => x :: params) <$> match_segments pattern path
  | _, _ => None
  end.

(** A literal wins over a parameter at the first segment where two patterns differ. *)
Fixpoint more_literal (p q : list Segment) : bool :=
  match p, q with
  | Lit _ :: p, Lit _ :: q => more_literal p q
  | Lit _ :: _, _ :: _ => true
  | Param :: p, Param :: q => more_literal p q
  | Param :: _, Rest :: _ => true
  | _, _ => false
  end.

(** axum's choice among patterns: the number of the pattern and its parameters.  What is
    chosen matches; and of the patterns that match, the most literal is chosen. *)
Class PathChoice := choose_pattern : list (list Segment) -> list string -> option (nat * list string).
Class PathChoiceLaws `{PathChoice} : Prop := {
  choose_matches : forall patterns path i params, choose_pattern patterns path = Some (i, params) ->
    exists p, patterns !! i = Some p /\ match_segments p path = Some params;
  choose_most_literal : forall patterns path i p params, patterns !! i = Some p -> match_segments p path = Some params ->
    (forall j q, patterns !! j = Some q -> j <> i -> is_Some (match_segments q path) -> more_literal p q = true) ->
    choose_pattern patterns path = Some (i, params);
}.

Definition path_segments (path : string) : list string := match split_on "/" path with _ :: rest => rest | [] => [] end.
Definition find_route `{PathChoice} (path : string) : option (Route * list string) :=
  match choose_pattern (map rt_pattern routes) (path_segments path) with
  | Some (i, params) => (fun r => (r, params)) <$> routes !! i
  | None => None
  end.

Inductive Routed := Refused (status : Z) | Handled (h : Handler) (params : list string).
Definition METHOD_NOT_ALLOWED : Z := 405.
Definition PAYLOAD_TOO_LARGE : Z := 413.

(** The handlers that read the whole body. *)
Definition reads_body (h : Handler) : bool := match h with H_submit_workorder | H_find_missing_blobs | H_upload_blob => true | _ => false end.

Definition router `{HttpLib, PathChoice} (cfg : ServerConfig) (method : Method) (path : string) (headers : HeaderMap) (body_size : Z) : Routed :=
  match find_route path with
  | None => Refused NOT_FOUND
  | Some (r, params) =>
      match (if rt_guarded r then protect_observability_and_binpkgs cfg path headers else Ok tt) with
      | Err status => Refused status
      | Ok _ =>
          match list_find (fun mh => mh.1 = method) (rt_methods r) with
          | None => Refused METHOD_NOT_ALLOWED
          | Some (_, (_, h)) => if reads_body h && (request_body_size_bytes cfg <? body_size) then Refused PAYLOAD_TOO_LARGE else Handled h params
          end
      end
  end.

(** ** The client *)

Record RemergeClient := { base_url : string }.

(** [RemergeClient::new]; [built]: the HTTP client could be created. *)
Definition client_new (built : bool) (url : string) : Result RemergeClient Error :=
  if built then Ok {| base_url := trim_end_slashes url |} else Err (Bail "Failed to create HTTP client").

Definition workorders_url (c : RemergeClient) : string := base_url c +:+ "/api/v1/workorders".
Definition missing_blobs_url (c : RemergeClient) : string := base_url c +:+ "/api/v1/snapshots/missing-blobs".
Definition blob_url (c : RemergeClient) (digest : string) : string := base_url c +:+ "/api/v1/snapshots/blobs/" +:+ digest.
Definition workorder_url (c : RemergeClient) (id : WorkorderId) : string := base_url c +:+ "/api/v1/workorders/" +:+ pretty id.
Definition snapshot_blob_stream_url (c : RemergeClient) : string :=
  match strip_prefix "https://" (base_url c) with
  | Some rest => "wss://" +:+ rest +:+ "/api/v1/snapshots/blobs/stream"
  | None =>
      match strip_prefix "http://" (base_url c) with
      | Some rest => "ws://" +:+ rest +:+ "/api/v1/snapshots/blobs/stream"
      | None => base_url c +:+ "/api/v1/snapshots/blobs/stream"
      end
  end.

(** ** The client reaches what it means to reach *)

Section Facts.
Context `{HttpLib, PathChoice, !PathChoiceLaws} (cfg : ServerConfig) (headers : HeaderMap).

(** A request with a body that fits, to [url] on a server at [origin]. *)
Definition reaches (origin : string) (method : Method) (url : string) (h : Handler) (params : list string) : Prop :=
  exists path, url = origin +:+ path /\ forall size, size <= request_body_size_bytes cfg -> router cfg method path headers size = Handled h params.

(** The route that is found, whatever the value of its parameter. *)
Lemma routed r params method path i h :
  find_route path = Some (r, params) -> rt_guarded r = false -> list_find (fun mh => mh.1 = method) (rt_methods r) = Some (i, (method, h)) ->
  forall size, size <= request_body_size_bytes cfg -> router cfg method path headers size = Handled h params.
Proof.
  intros Hr Hg Hm size Hs. unfold router. rewrite Hr, Hg, Hm. destruct (Z.ltb_spec (request_body_size_bytes cfg) size); [lia|]. by rewrite andb_false_r.
Qed.

(** The entry that matches, when every other one that matches is less literal. *)
Lemma chosen path i r params : routes !! i = Some r -> match_segments (rt_pattern r) (path_segments path) = Some params ->
  Forall (fun x => x.1 = i \/ match_segments (rt_pattern x.2) (path_segments path) = None \/ more_literal (rt_pattern r) (rt_pattern x.2) = true) (imap pair routes) ->
  find_route path = Some (r, params).
Proof.
  intros Hi Hm Hall. unfold find_route. rewrite (choose_most_literal _ _ i (rt_pattern r) params); [by rewrite Hi| |done|].
  - change (map rt_pattern routes) with (rt_pattern <$> routes). by rewrite list_lookup_fmap, Hi.
  - intros j q Hj Hne [x Hx]. change (map rt_pattern routes) with (rt_pattern <$> routes) in Hj. apply list_lookup_fmap_Some in Hj as (r' & -> & Hj).
    rewrite Forall_forall in Hall. destruct (Hall (j, r')) as [He|[He|He]]; [|done|cbn in He; congruence|exact He].
    apply list_elem_of_lookup. exists j. by rewrite list_lookup_imap, Hj.
Qed.

Ltac solve_chosen := unfold routes, public, guarded_route, api; cbn [imap];
  repeat (constructor; [cbn [fst snd rt_pattern]; first [left; reflexivity | right; left; vm_compute; reflexivity | right; right; reflexivity]|]); constructor.

Lemma blob_route d : "/"%char ∉ chars d -> d <> "" -> d <> "stream" ->
  find_route ("/api/v1/snapshots/blobs/" +:+ d) = Some (public (api [Lit "snapshots"; Lit "blobs"; Param]) [(GET, H_download_blob); (PUT, H_upload_blob)], [d]).
Proof.
  intros Hd Hne Hs. assert (Hp : path_segments ("/api/v1/snapshots/blobs/" +:+ d) = ["api"; "v1"; "snapshots"; "blobs"; d]).
  { change (path_segments ("/api/v1/snapshots/blobs/" +:+ d)) with ("api" :: "v1" :: "snapshots" :: "blobs" :: split_on "/" d). by rewrite split_on_none. }
  assert (Hb : bool_decide ("stream" = d) = false) by (apply bool_decide_eq_false; congruence).
  apply (chosen _ 8); [done| |]; rewrite Hp; destruct d as [|a d]; try done.
  unfold routes, public, guarded_route, api; cbn [imap].
  repeat (constructor; [cbn [fst snd rt_pattern]; first [left; reflexivity | right; left; cbn -[bool_decide]; by rewrite ?Hb | right; right; reflexivity]|]); constructor.
Qed.

Lemma workorder_route x : "/"%char ∉ chars x -> x <> "" ->
  find_route ("/api/v1/workorders/" +:+ x) = Some (public (api [Lit "workorders"; Param]) [(GET, H_get_workorder); (DELETE, H_cancel_workorder)], [x]) /\
  find_route ("/api/v1/workorders/" +:+ x +:+ "/progress") = Some (public (api [Lit "workorders"; Param; Lit "progress"]) [(GET, H_ws_progress)], [x]).
Proof.
  intros Hx Hne.
  assert (Hp1 : path_segments ("/api/v1/workorders/" +:+ x) = ["api"; "v1"; "workorders"; x]).
  { change (path_segments ("/api/v1/workorders/" +:+ x)) with ("api" :: "v1" :: "workorders" :: split_on "/" x). by rewrite split_on_none. }
  assert (Hp2 : path_segments ("/api/v1/workorders/" +:+ x +:+ "/progress") = ["api"; "v1"; "workorders"; x; "progress"]).
  { change (path_segments ("/api/v1/workorders/" +:+ x +:+ "/progress")) with ("api" :: "v1" :: "workorders" :: split_on "/" (x +:+ String "/" "progress")).
    by rewrite split_on_app. }
  split; [apply (chosen _ 4)|apply (chosen _ 5)]; rewrite ?Hp1, ?Hp2; try done; (destruct x as [|a x]; [done|]); try done; solve_chosen.
Qed.

Lemma literal_routes :
  find_route "/api/v1/workorders" = Some (public (api [Lit "workorders"]) [(POST, H_submit_workorder); (GET, H_list_workorders)], []) /\
  find_route "/api/v1/snapshots/missing-blobs" = Some (public (api [Lit "snapshots"; Lit "missing-blobs"]) [(POST, H_find_missing_blobs)], []) /\
  find_route "/api/v1/snapshots/blobs/stream" = Some (public (api [Lit "snapshots"; Lit "blobs"; Lit "stream"]) [(GET, H_ws_blob_upload)], []).
Proof. split_and!; [apply (chosen _ 3)|apply (chosen _ 6)|apply (chosen _ 7)]; try done; solve_chosen. Qed.

Lemma digest_plain d : valid_digest d -> ("/"%char ∉ chars d) /\ d <> "" /\ d <> "stream".
Proof.
  intros [Hl Ha]. split_and!; [|by intros ->|by intros ->]. intros Hin. unfold all_chars in Ha. rewrite forallb_forall in Ha.
  apply list_elem_of_In in Hin. by specialize (Ha _ Hin).
Qed.

Lemma pretty_N_nonempty (n : N) : pretty n <> "".
Proof. intros He. destruct (ConfigLoad.pretty_N_digits n) as (d & r & Hd & _). by rewrite He in Hd. Qed.

(** The last two segments of an address, whatever is before them. *)
Lemma split_on_prefix c p s : exists l, split_on c (p +:+ String c s) = l ++ split_on c s /\ l <> [].
Proof.
  induction p as [|a p (l & IH & Hne)].
  - change ("" +:+ String c s) with (String c s). cbn [split_on]. rewrite Ascii.eqb_refl. by exists [""].
  - change (String a p +:+ String c s) with (String a (p +:+ String c s)). cbn [split_on]. rewrite IH. destruct (Ascii.eqb a c).
    + by exists ("" :: l).
    + destruct l as [|x l]; [done|]. by exists (String a x :: l).
Qed.

Lemma id_from_url (parse_uuid : string -> option WorkorderId) origin (id : WorkorderId) :
  workorder_id_from_progress_url parse_uuid (origin +:+ "/api/v1/workorders/" +:+ pretty id +:+ "/progress") = parse_uuid (pretty id).
Proof.
  unfold workorder_id_from_progress_url.
  change (origin +:+ "/api/v1/workorders/" +:+ pretty id +:+ "/progress") with (origin +:+ String "/" ("api/v1/workorders/" +:+ pretty id +:+ "/progress")).
  destruct (split_on_prefix "/" origin ("api/v1/workorders/" +:+ pretty id +:+ "/progress")) as (l & -> & _).
  change (split_on "/" ("api/v1/workorders/" +:+ pretty id +:+ "/progress")) with ("api" :: "v1" :: "workorders" :: split_on "/" (pretty id +:+ String "/" "progress")).
  rewrite split_on_app by by apply pretty_N_avoids. change (split_on "/" "progress") with ["progress"]. rewrite rev_app_distr. done.
Qed.

(** The client and the server agree on the addresses: every request of the client
    reaches the handler it is meant for, with the digest or identifier it names, and the
    address the server returns for the progress of an order leads to its progress
    connection and names the order. *)
Theorem requests_reach_handlers c d (id : WorkorderId) (parse_uuid : string -> option WorkorderId) other_cfg other_headers :
  valid_digest d -> (forall n, parse_uuid (pretty n) = Some n) ->
  reaches (base_url c) POST (workorders_url c) H_submit_workorder [] /\
  reaches (base_url c) POST (missing_blobs_url c) H_find_missing_blobs [] /\
  reaches (base_url c) PUT (blob_url c d) H_upload_blob [d] /\ reaches (base_url c) GET (blob_url c d) H_download_blob [d] /\
  reaches (base_url c) GET (workorder_url c id) H_get_workorder [pretty id] /\
  (exists origin, reaches origin GET (snapshot_blob_stream_url c) H_ws_blob_upload []) /\
  (exists origin, reaches origin GET (progress_ws_url other_cfg other_headers id) H_ws_progress [pretty id]) /\
  workorder_id_from_progress_url parse_uuid (progress_ws_url other_cfg other_headers id) = Some id.
Proof.
  intros (Hslash & Hne & Hstream)%digest_plain Hparse. pose proof (blob_route d Hslash Hne Hstream) as Hblob.
  destruct (workorder_route (pretty id)) as [Hwo Hpr]; [by apply pretty_N_avoids|apply pretty_N_nonempty|].
  assert (Hurl : exists origin, progress_ws_url other_cfg other_headers id = origin +:+ "/api/v1/workorders/" +:+ pretty id +:+ "/progress").
  { unfold progress_ws_url. cbv zeta. match goal with |- exists _, ?scheme +:+ "://" +:+ ?host +:+ _ = _ => exists (scheme +:+ "://" +:+ host) end.
    by rewrite !string_app_assoc. }
  assert (Hws : exists origin, snapshot_blob_stream_url c = origin +:+ "/api/v1/snapshots/blobs/stream").
  { unfold snapshot_blob_stream_url. destruct (strip_prefix "https://" _) as [r|]; [exists ("wss://" +:+ r); by rewrite string_app_assoc|].
    destruct (strip_prefix "http://" _) as [r|]; [exists ("ws://" +:+ r); by rewrite string_app_assoc|]. by eexists. }
  destruct literal_routes as (Hsub & Hmis & Hstr).
  split_and!.
  - eexists. split; [done|]. by eapply routed.
  - eexists. split; [done|]. by eapply routed.
  - eexists. split; [done|]. by eapply routed.
  - eexists. split; [done|]. by eapply routed.
  - eexists. split; [done|]. by eapply routed.
  - destruct Hws as [origin ->]. exists origin. eexists. split; [done|]. by eapply routed.
  - destruct Hurl as [origin ->]. exists origin. eexists. split; [done|]. by eapply routed.
  - destruct Hurl as [origin ->]. by rewrite id_from_url.
Qed.
End Facts.

(** ** A choice of patterns that keeps the laws *)

Lemma more_literal_asym p q : more_literal p q = true -> more_literal q p = false.
Proof. revert q. induction p as [|[s| |] p IH]; intros [|[s'| |] q]; cbn; try done; apply IH. Qed.
Lemma more_literal_irrefl p : more_literal p p = false.
Proof. destruct (more_literal p p) eqn:E; [|done]. pose proof (more_literal_asym _ _ E). congruence. Qed.

Record Candidate := { cd_index : nat; cd_pattern : list Segment; cd_params : list string }.
Definition candidates (patterns : list (list Segment)) (path : list string) : list Candidate :=
  omap (fun x => (fun params => {| cd_index := x.1; cd_pattern := x.2; cd_params := params |}) <$> match_segments x.2 path) (imap pair patterns).
Definition better (best : option Candidate) (x : Candidate) : option Candidate :=
  match best with Some b => if more_literal (cd_pattern x) (cd_pattern b) then Some x else best | None => Some x end.
Definition first_literal : PathChoice := fun patterns path =>
  (fun b => (cd_index b, cd_params b)) <$> fold_left better (candidates patterns path) None.

Lemma candidates_spec patterns path x : x ∈ candidates patterns path <->
  patterns !! cd_index x = Some (cd_pattern x) /\ match_segments (cd_pattern x) path = Some (cd_params x).
Proof.
  unfold candidates. rewrite list_elem_of_omap. split.
  - intros ((i & p) & Hin & Hx). apply list_elem_of_lookup in Hin as [j Hj]. rewrite list_lookup_imap in Hj. apply fmap_Some in Hj as (p' & Hp & [= -> ->]).
    apply fmap_Some in Hx as (params & Hm & ->). done.
  - intros [Hi Hm]. exists (cd_index x, cd_pattern x). split; [|cbn; rewrite Hm; by destruct x].
    apply list_elem_of_lookup. exists (cd_index x). by rewrite list_lookup_imap, Hi.
Qed.

Lemma fold_better_in l best b : fold_left better l best = Some b -> b ∈ l \/ best = Some b.
Proof.
  revert best. induction l as [|x l IH]; intros best; cbn [fold_left]; [by right|]. intros [Hin|Hb]%IH; [set_solver|]. unfold better in Hb.
  destruct best as [b'|]; [case_match|]; simplify_eq; set_solver.
Qed.

Lemma fold_better_best x l best : x ∈ l \/ best = Some x ->
  (forall y, y ∈ l \/ best = Some y -> y = x \/ more_literal (cd_pattern x) (cd_pattern y) = true) -> fold_left better l best = Some x.
Proof.
  revert best. induction l as [|y l IH]; intros best Hx Hall; cbn [fold_left]; [destruct Hx; [set_solver|done]|]. apply IH.
  - destruct Hx as [[->|Hin]%elem_of_cons| ->]; [|by left|]; right; unfold better.
    + destruct best as [b|]; [|done]. destruct (Hall b ltac:(by right)) as [->|Hb]; [by rewrite more_literal_irrefl|by rewrite Hb].
    + destruct (Hall y ltac:(left; set_solver)) as [->|Hb]; [by rewrite more_literal_irrefl|by rewrite (more_literal_asym _ _ Hb)].
  - intros z [Hz|Hz]; [apply Hall; set_solver|]. apply Hall. unfold better in Hz. destruct best as [b|]; [case_match|]; simplify_eq; set_solver.
Qed.

Lemma first_literal_laws : @PathChoiceLaws first_literal.
Proof.
  split.
  - intros patterns path i params. unfold choose_pattern, first_literal. intros (b & Hb & [= -> ->])%fmap_Some.
    apply fold_better_in in Hb as [Hb|]; [|done]. apply candidates_spec in Hb as [H1 H2]. by exists (cd_pattern b).
  - intros patterns path i p params Hi Hm Hall. unfold choose_pattern, first_literal.
    rewrite (fold_better_best {| cd_index := i; cd_pattern := p; cd_params := params |}); [done|left; by apply candidates_spec|].
    intros [j q ps] [[Hj Hq]%candidates_spec|]; [|done]. cbn in *. destruct (decide (j = i)) as [->|Hne]; [left; congruence|right; eauto].
Qed.

(** The reserved name leads to the upload connection, another name to a blob. *)
Example reserved_name `{HttpLib} headers :
  @router _ first_literal ServerConfig_default GET "/api/v1/snapshots/blobs/stream" headers 0 = Handled H_ws_blob_upload [] /\
  @router _ first_literal ServerConfig_default PUT "/api/v1/snapshots/blobs/ab" headers 0 = Handled H_upload_blob ["ab"] /\
  @router _ first_literal ServerConfig_default DELETE "/api/v1/clients" headers 0 = Refused METHOD_NOT_ALLOWED.
Proof. vm_compute. done. Qed.
