(* ===== verification/Payloads.v ===== *)
(** * The snapshot the client announces and the blobs it uploads

    [read_config] lists every file of the snapshots in the manifest by its digest;
    [snapshot_blob_payloads] collects what may have to be uploaded.  The two agree:
    whatever blob of the manifest the server misses, the client has its bytes. *)

From S2P Require Import Prelude Types Registry World BlobStore Repo TreeStore MakeConf PortageFiles WorkerSetup Effects Builder CliRun.

(** ** Loops that may fail *)

Section FoldResult.
Context {S A E : Type} (f : S -> A -> Result S E).

Lemma fold_result_inv (P : S -> Prop) xs s s' :
  P s -> (forall s x s', x ∈ xs -> P s -> f s x = Ok s' -> P s') -> fold_result f xs s = Ok s' -> P s'.
Proof.
  revert s. induction xs as [|x xs IH]; intros s Hs Hf; cbn [fold_result]; [congruence|].
  destruct (f s x) as [s1|e] eqn:E1; [|done]. cbn [rbind]. apply IH; [by eapply (Hf s x); [apply list_elem_of_here|..]|].
  intros s2 y s3 Hy. apply Hf. by apply list_elem_of_further.
Qed.

(** What one round achieves and the later ones keep holds at the end. *)
Lemma fold_result_each (Q : A -> S -> Prop) xs s s' :
  (forall s x s', x ∈ xs -> f s x = Ok s' -> Q x s') -> (forall s x y s', y ∈ xs -> Q x s -> f s y = Ok s' -> Q x s') ->
  fold_result f xs s = Ok s' -> forall x, x ∈ xs -> Q x s'.
Proof.
  revert s. induction xs as [|y xs IH]; intros s Hx Hk Hf x Hin; [by apply elem_of_nil in Hin|]. cbn [fold_result] in Hf.
  destruct (f s y) as [s1|e] eqn:E1; [|done]. cbn [rbind] in Hf. apply elem_of_cons in Hin as [->|Hin].
  - assert (Hq : Q y s1) by (eapply Hx; [apply list_elem_of_here|done]).
    eapply (fold_result_inv (Q y)); [exact Hq| |exact Hf]. intros s2 z s3 Hz. apply Hk. by apply list_elem_of_further.
  - eapply IH; [| |exact Hf|done]; intros *; [intros Hz; apply Hx; by apply list_elem_of_further|intros Hz; apply Hk; by apply list_elem_of_further].
Qed.

End FoldResult.

Section Payloads.
Context `{Commands, Sha256, TreeCodec}.

(** ** The manifest lists the digests of the contents *)

Definition listed_repo (snapshots : gmap string (gmap string string)) (m : SnapshotManifest) : Prop :=
  (forall r rm p e, sm_repo_snapshots m !! r = Some rm -> rsm_entries rm !! p = Some e ->
    exists snapshot content, snapshots !! r = Some snapshot /\ snapshot !! p = Some content /\ se_digest e = sha256_hex (string_bytes content)) /\
  (forall r snapshot, snapshots !! r = Some snapshot -> exists rm, sm_repo_snapshots m !! r = Some rm /\
    forall p content, snapshot !! p = Some content -> exists e, rsm_entries rm !! p = Some e).
Definition listed_distfiles (files : gmap string bytes) (m : SnapshotManifest) : Prop :=
  (forall n e, sm_distfiles m !! n = Some e -> exists b, files !! n = Some b /\ se_digest e = sha256_hex b) /\
  (forall n b, files !! n = Some b -> exists e, sm_distfiles m !! n = Some e).

Lemma manifest_entries_spec stat_repo repo location (snapshot : gmap string string) entries :
  fold_result (manifest_repo_entry stat_repo repo location ((fun content => sha256_hex (string_bytes content)) <$> snapshot)) (btree_keys snapshot) ∅ = Ok entries ->
  (forall p e, entries !! p = Some e -> exists content, snapshot !! p = Some content /\ se_digest e = sha256_hex (string_bytes content)) /\
  (forall p content, snapshot !! p = Some content -> exists e, entries !! p = Some e).
Proof.
  assert (Hstep : forall s x s', manifest_repo_entry stat_repo repo location ((fun content => sha256_hex (string_bytes content)) <$> snapshot) s x = Ok s' ->
    exists content e, snapshot !! x = Some content /\ se_digest e = sha256_hex (string_bytes content) /\ s' = <[x := e]> s).
  { intros s x s' Hf. unfold manifest_repo_entry in Hf. rewrite lookup_fmap in Hf. destruct (snapshot !! x) as [content|] eqn:Ex; [|done]. simpl in Hf.
    destruct (stat_repo location x) as [st|]; [|done]. simpl in Hf. injection Hf as <-.
    exists content, {| se_digest := sha256_hex (string_bytes content); se_size := st.1; se_mtime_secs := st.2 |}. by split_and!. }
  intros Hf. split.
  - revert Hf. apply (fold_result_inv _ (fun s : gmap string SnapshotEntry => forall p e, s !! p = Some e ->
      exists content, snapshot !! p = Some content /\ se_digest e = sha256_hex (string_bytes content))); [intros p e; by rewrite lookup_empty|]. intros s x s' _ Hs (content & e & Hc & He & ->)%Hstep p e'.
    destruct (decide (x = p)) as [->|Hne]; [rewrite lookup_insert_eq; intros [= <-]; eauto|]. rewrite lookup_insert_ne by done. apply Hs.
  - intros p content Hp. revert p Hp. assert (Heach : forall x, x ∈ btree_keys snapshot -> exists e, entries !! x = Some e).
    { revert Hf. apply (fold_result_each (manifest_repo_entry stat_repo repo location _) (fun x (s : gmap string SnapshotEntry) => exists e, s !! x = Some e)).
      - intros s x s' _ (content' & e & _ & _ & ->)%Hstep. exists e. apply lookup_insert_eq.
      - intros s x y s' _ [e He] (content' & e' & _ & _ & ->)%Hstep. destruct (decide (y = x)) as [->|Hne]; [exists e'; apply lookup_insert_eq|].
        exists e. by rewrite lookup_insert_ne. }
    intros p Hp. apply Heach. apply elem_of_btree_keys. by exists content.
Qed.

Lemma fold_manifest_repos stat_repo repos_conf trees (snaps : gmap string (gmap string string)) m m' :
  sm_repo_snapshots m = ∅ ->
  fold_result (manifest_repo stat_repo repos_conf (compute_repo_snapshot_refs snaps) trees) (btree_items snaps) m = Ok m' ->
  listed_repo snaps m' /\ sm_distfiles m' = sm_distfiles m.
Proof.
  set (f := manifest_repo _ _ _ _). intros Hm Hf.
  assert (Hstep : forall s x s', x ∈ btree_items snaps -> f s x = Ok s' -> exists rm,
    sm_repo_snapshots s' = <[x.1 := rm]> (sm_repo_snapshots s) /\ sm_distfiles s' = sm_distfiles s /\ snaps !! x.1 = Some x.2 /\
    (forall p e, rsm_entries rm !! p = Some e -> exists content, x.2 !! p = Some content /\ se_digest e = sha256_hex (string_bytes content)) /\
    (forall p content, x.2 !! p = Some content -> exists e, rsm_entries rm !! p = Some e)).
  { intros s [r snapshot] s' Hx Hs. apply elem_of_btree_items in Hx. subst f. unfold manifest_repo, compute_repo_snapshot_refs in Hs.
    rewrite lookup_fmap, Hx in Hs. cbn [fmap option_fmap option_map ok_or rbind] in Hs.
    destruct (repo_locations repos_conf !! r) as [location|]; [|done]. cbn [ok_or rbind] in Hs.
    destruct (fold_result (manifest_repo_entry _ _ _ _) _ _) as [entries|e] eqn:Ee; [|done]. cbn [rbind] in Hs. injection Hs as <-.
    apply manifest_entries_spec in Ee as [H1' H2']. eexists. cbn. split_and!; try done. }
  split; [split|].
  - revert Hf. apply (fold_result_inv f (fun s => forall r rm p e, sm_repo_snapshots s !! r = Some rm -> rsm_entries rm !! p = Some e ->
      exists snapshot content, snaps !! r = Some snapshot /\ snapshot !! p = Some content /\ se_digest e = sha256_hex (string_bytes content))); [rewrite Hm; intros r rm p e; by rewrite lookup_empty|].
    intros s x s' Hx Hs Hf r rm p e. destruct (Hstep _ _ _ Hx Hf) as (rm' & -> & _ & Hsn & Hfwd & _).
    destruct (decide (x.1 = r)) as [<-|Hne]; [rewrite lookup_insert_eq; intros [= <-] (content & Hc & Hd)%Hfwd; eauto|].
    rewrite lookup_insert_ne by done. apply Hs.
  - intros r snapshot Hr. apply elem_of_btree_items in Hr.
    pose (Q := fun (x : string * gmap string string) (s : SnapshotManifest) => snaps !! x.1 = Some x.2 -> exists rm, sm_repo_snapshots s !! x.1 = Some rm /\
      forall p content, x.2 !! p = Some content -> exists e, rsm_entries rm !! p = Some e).
    refine (fold_result_each f Q _ _ _ _ _ Hf (r, snapshot) Hr _); [| |by apply elem_of_btree_items in Hr].
    + intros s x s' Hx Hs _. destruct (Hstep _ _ _ Hx Hs) as (rm & -> & _ & _ & _ & Hall). exists rm. by rewrite lookup_insert_eq.
    + intros s x y s' Hy Hq Hs Hx. destruct (Hq Hx) as (rm & Hrm & Hall). destruct (Hstep _ _ _ Hy Hs) as (rm' & Heq & _ & Hsn & _ & Hall').
      rewrite Heq. destruct (decide (y.1 = x.1)) as [He|Hne].
      * rewrite He in Hsn |- *. rewrite Hx in Hsn. injection Hsn as Hsn. exists rm'. rewrite lookup_insert_eq. split; [done|]. by rewrite Hsn.
      * exists rm. by rewrite lookup_insert_ne.
  - revert Hf. apply (fold_result_inv f (fun s => sm_distfiles s = sm_distfiles m)); [done|].
    intros s x s' Hx Hs Hf. destruct (Hstep _ _ _ Hx Hf) as (rm & _ & -> & _). done.
Qed.

Lemma fold_manifest_distfiles stat_distfile (files : gmap string bytes) m m' :
  sm_distfiles m = ∅ -> fold_result (manifest_distfile_entry stat_distfile (compute_distfile_snapshot_refs files)) (btree_items files) m = Ok m' ->
  listed_distfiles files m' /\ sm_repo_snapshots m' = sm_repo_snapshots m.
Proof.
  set (f := manifest_distfile_entry _ _). intros Hm Hf.
  assert (Hstep : forall s x s', x ∈ btree_items files -> f s x = Ok s' -> exists e, files !! x.1 = Some x.2 /\
    sm_distfiles s' = <[x.1 := e]> (sm_distfiles s) /\ sm_repo_snapshots s' = sm_repo_snapshots s /\ se_digest e = sha256_hex x.2).
  { intros s [n b] s' Hx Hs. apply elem_of_btree_items in Hx. subst f. unfold manifest_distfile_entry, compute_distfile_snapshot_refs in Hs.
    rewrite lookup_fmap, Hx in Hs. cbn [fmap option_fmap option_map ok_or rbind] in Hs.
    destruct (stat_distfile n) as [st|]; [|done]. cbn [ok_or rbind] in Hs. destruct (negb _); [done|]. injection Hs as <-. eexists. cbn. by split_and!. }
  split; [split|].
  - revert Hf. apply (fold_result_inv f (fun s => forall n e, sm_distfiles s !! n = Some e -> exists b, files !! n = Some b /\ se_digest e = sha256_hex b));
      [rewrite Hm; intros n e; by rewrite lookup_empty|].
    intros s x s' Hx Hs Hf n e. destruct (Hstep _ _ _ Hx Hf) as (e' & Hn & -> & _ & He).
    destruct (decide (x.1 = n)) as [<-|Hne]; [rewrite lookup_insert_eq; intros [= <-]; eauto|]. rewrite lookup_insert_ne by done. apply Hs.
  - intros n b Hn. apply elem_of_btree_items in Hn.
    refine (fold_result_each f (fun x s => exists e, sm_distfiles s !! x.1 = Some e) _ _ _ _ _ Hf (n, b) Hn).
    + intros s x s' Hx Hs. destruct (Hstep _ _ _ Hx Hs) as (e & _ & -> & _). exists e. apply lookup_insert_eq.
    + intros s x y s' Hy [e He] Hs. destruct (Hstep _ _ _ Hy Hs) as (e' & _ & -> & _). destruct (decide (y.1 = x.1)) as [->|Hne];
        [exists e'; apply lookup_insert_eq|exists e; by rewrite lookup_insert_ne].
  - revert Hf. apply (fold_result_inv f (fun s => sm_repo_snapshots s = sm_repo_snapshots m)); [done|].
    intros s x s' Hx Hs Hf. destruct (Hstep _ _ _ Hx Hf) as (e & _ & _ & -> & _). done.
Qed.

Lemma build_snapshot_manifest_listed stat_repo stat_distfile repos_conf snaps trees files m :
  build_snapshot_manifest stat_repo stat_distfile repos_conf snaps (compute_repo_snapshot_refs snaps) trees files (compute_distfile_snapshot_refs files) = Ok m ->
  listed_repo snaps m /\ listed_distfiles files m.
Proof.
  unfold build_snapshot_manifest. destruct (fold_result (manifest_repo _ _ _ _) _ _) as [m1|e] eqn:E1; [|done]. cbn [rbind]. intros E2.
  apply fold_manifest_repos in E1 as [[Hr1 Hr2] Hd]; [|done]. apply fold_manifest_distfiles in E2 as [Hl Heq]; [|by rewrite Hd].
  split; [|done]. split; rewrite Heq; assumption.
Qed.

(** ** The payloads *)

(** Every payload is kept under its own digest; two contents with one digest. *)
Definition keyed (payloads : gmap string bytes) : Prop := forall d b, payloads !! d = Some b -> sha256_hex b = d.
Definition collision : Prop := exists b b', b <> b' /\ sha256_hex b = sha256_hex b'.

Lemma insert_blob_payload_spec payloads b :
  keyed payloads ->
  match insert_blob_payload payloads (sha256_hex b) b with
  | Ok payloads' => keyed payloads' /\ payloads' !! sha256_hex b = Some b /\ payloads ⊆ payloads'
  | Err _ => collision
  end.
Proof.
  intros Hk. unfold insert_blob_payload. destruct (payloads !! sha256_hex b) as [b'|] eqn:Eb.
  - case_bool_decide as Hne; [exists b', b; split; [done|by apply Hk]|]. split_and!; [done| |done]. by destruct (decide (b' = b)) as [<-|].
  - split_and!; [|apply lookup_insert_eq|by apply insert_subseteq]. intros d b'.
    destruct (decide (sha256_hex b = d)) as [<-|Hne]; [rewrite lookup_insert_eq; congruence|rewrite lookup_insert_ne by done; apply Hk].
Qed.

(** A round of a loop that only adds payloads and, in the end, holds what [G] says. *)
Definition gathers {A} (f : gmap string bytes -> A -> Result (gmap string bytes) Error) (G : A -> gmap string bytes -> Prop) (x : A) : Prop :=
  forall payloads, keyed payloads ->
    match f payloads x with
    | Ok payloads' => keyed payloads' /\ payloads ⊆ payloads' /\ G x payloads'
    | Err _ => collision
    end.

Lemma gathers_loop {A} f (G : A -> gmap string bytes -> Prop) xs :
  (forall x p p', p ⊆ p' -> G x p -> G x p') -> (forall x, x ∈ xs -> gathers f G x) ->
  gathers (fun p xs => fold_result f xs p) (fun xs p => forall x, x ∈ xs -> G x p) xs.
Proof.
  intros Hmono. induction xs as [|x xs IH]; intros Hf p Hk; cbn [fold_result].
  - split_and!; [done|done|]. by intros x ?%elem_of_nil.
  - pose proof (Hf x (list_elem_of_here _ _) p Hk) as Hx. destruct (f p x) as [p1|e]; [|done]. destruct Hx as (Hk1 & Hsub1 & Hg). cbn [rbind].
    specialize (IH (fun y Hy => Hf y (list_elem_of_further _ _ _ Hy)) p1 Hk1). cbn beta in IH. destruct (fold_result f xs p1) as [p2|e]; [|done].
    destruct IH as (Hk2 & Hsub2 & Hall). split_and!; [done|by etrans|]. intros y [->|Hy]%elem_of_cons; [by eapply Hmono|by apply Hall].
Qed.

Definition holds (b : bytes) (payloads : gmap string bytes) : Prop := payloads !! sha256_hex b = Some b.
Lemma holds_mono b p p' : p ⊆ p' -> holds b p -> holds b p'.
Proof. intros Hsub Hb. by eapply lookup_weaken. Qed.

Lemma snapshot_blob_payloads_spec c :
  (forall r sn p content, pc_repo_snapshots c !! r = Some sn -> sn !! p = Some content -> repo_file_digest c r p = Some (sha256_hex (string_bytes content))) ->
  (forall n b, pc_distfile_snapshots c !! n = Some b -> distfile_digest c n = Some (sha256_hex b)) ->
  match snapshot_blob_payloads c with
  | Ok payloads => keyed payloads /\
      (forall r sn p content, pc_repo_snapshots c !! r = Some sn -> sn !! p = Some content -> holds (string_bytes content) payloads) /\
      (forall n b, pc_distfile_snapshots c !! n = Some b -> holds b payloads)
  | Err _ => collision
  end.
Proof.
  intros Hr Hd. unfold snapshot_blob_payloads.
  assert (H1' : gathers (fun p xs => fold_result (fun payloads '(repo_name, snapshot) =>
      fold_result (fun payloads '(relative_path, content) =>
        let? digest := ok_or (repo_file_digest c repo_name relative_path)
                         (Bail ("Missing repo snapshot digest for '" +:+ repo_name +:+ ":" +:+ relative_path +:+ "'")) in
        insert_blob_payload payloads digest (string_bytes content)) (btree_items snapshot) payloads) xs p)
      (fun xs p => forall x, x ∈ xs -> forall y, y ∈ btree_items x.2 -> holds (string_bytes y.2) p) (btree_items (pc_repo_snapshots c))).
  { apply (gathers_loop _ (fun (x : string * gmap string string) p => forall y, y ∈ btree_items x.2 -> holds (string_bytes y.2) p)).
    { intros x p p' Hsub Hx y Hy. by eapply holds_mono, Hx. }
    intros [r sn] Hx%elem_of_btree_items. intros p Hk.
    refine (gathers_loop _ (fun (y : string * string) p => holds (string_bytes y.2) p) (btree_items sn) _ _ p Hk); [intros ? ? ?; apply holds_mono|].
    intros [path content] Hy%elem_of_btree_items p1 Hk1. rewrite (Hr r sn path content) by done. cbn [ok_or rbind snd].
    pose proof (insert_blob_payload_spec p1 (string_bytes content) Hk1) as Hi. destruct (insert_blob_payload _ _ _); [|done]. unfold holds. naive_solver. }
  assert (Hk0 : keyed ∅) by (intros d b; by rewrite lookup_empty). specialize (H1' ∅ Hk0). cbn beta in H1'. destruct (fold_result _ _ _) as [p1|e]; [|done].
  destruct H1' as (Hk1 & _ & Hall1). cbn [rbind].
  match goal with |- match fold_result ?f ?xs _ with _ => _ end => 
    assert (H2' : gathers (fun p l => fold_result f l p) (fun l p => forall x, x ∈ l -> holds x.2 p) xs) end.
  { apply (gathers_loop _ (fun (y : string * bytes) p => holds y.2 p)); [intros ? ? ?; apply holds_mono|].
    intros [n b] Hx%elem_of_btree_items p Hk. rewrite (Hd n b) by done. cbn [ok_or rbind snd].
    pose proof (insert_blob_payload_spec p b Hk) as Hi. destruct (insert_blob_payload _ _ _); [|done]. unfold holds. naive_solver. }
  specialize (H2' p1 Hk1). cbn beta in H2'. destruct (fold_result _ _ _) as [p2|e]; [|done]. destruct H2' as (Hk2 & Hsub & Hall2). split_and!; [done| |].
  - intros r sn p content Hsn Hc. eapply holds_mono; [exact Hsub|]. apply (Hall1 (r, sn)) with (y := (p, content)); by apply elem_of_btree_items.
  - intros n b Hn. apply (Hall2 (n, b)). by apply elem_of_btree_items.
Qed.

(** The client has every blob it announces.  When the configuration of a machine
    can be read, then for every entry of its snapshot manifest - files of the
    repositories and distfiles alike - [snapshot_blob_payloads] holds bytes whose
    digest is the one announced, and every payload is keyed by its own digest; it
    fails only if two files with different contents have the same digest. *)
Lemma announced_blobs_uploadable (y : System) (c : PortageConfig) :
  read_config y = Ok c ->
  match snapshot_blob_payloads c with
  | Ok payloads =>
      keyed payloads /\
      (forall r m p e, sm_repo_snapshots (pc_snapshot_manifest c) !! r = Some m -> rsm_entries m !! p = Some e ->
         is_Some (payloads !! se_digest e)) /\
      (forall n e, sm_distfiles (pc_snapshot_manifest c) !! n = Some e -> is_Some (payloads !! se_digest e))
  | Err _ => collision
  end.
Proof.
  unfold read_config. destruct (read_make_conf_from _ _ _) as [make_conf|]; [|done]. cbn [rbind].
  destruct (build_snapshot_manifest _ _ _ _ _ _ _ _) as [m|] eqn:Em; [|done]. cbn [rbind]. intros Hc.
  apply build_snapshot_manifest_listed in Em as [[Hr1 Hr2] [Hd1 Hd2]].
  set (snaps := read_repo_snapshots _ _) in *. set (files := read_distfile_snapshots _ _) in *.
  assert (Hfields : pc_repo_snapshots c = snaps /\ pc_distfile_snapshots c = files /\ pc_snapshot_manifest c = m) by (injection Hc as <-; done).
  destruct Hfields as (E1 & E2 & E3). clear Hc.
  pose proof (snapshot_blob_payloads_spec c) as Hs. rewrite E1, E2 in Hs.
  assert (G1 : forall r sn p content, snaps !! r = Some sn -> sn !! p = Some content -> repo_file_digest c r p = Some (sha256_hex (string_bytes content))).
  { intros r sn p content Hsn Hp. unfold repo_file_digest. rewrite E3. destruct (Hr2 r sn Hsn) as (rm & Erm & Hrm). destruct (Hrm p content Hp) as [e Ee].
    rewrite Erm. cbn. rewrite Ee. cbn. destruct (Hr1 r rm p e Erm Ee) as (sn' & content' & ? & ? & ->). by simplify_eq. }
  assert (G2 : forall n b, files !! n = Some b -> distfile_digest c n = Some (sha256_hex b)).
  { intros n b Hn. unfold distfile_digest. rewrite E3. destruct (Hd2 n b Hn) as [e Ee]. rewrite Ee. cbn. destruct (Hd1 n e Ee) as (b' & ? & ->). by simplify_eq. }
  specialize (Hs G1 G2). rewrite E3. destruct (snapshot_blob_payloads c) as [payloads|e]; [|exact Hs]. destruct Hs as (Hk & Hrepo & Hdist). split_and!; [exact Hk| |].
  - intros r rm p e Hrm He. destruct (Hr1 r rm p e Hrm He) as (sn & content & Hsn & Hp & ->). eexists. by eapply Hrepo.
  - intros n e He. destruct (Hd1 n e He) as (b & Hn & ->). eexists. by eapply Hdist.
Qed.

(** ** The manifest is in the form the server keeps *)

(** What every repository of the manifest is listed with. *)
Lemma manifest_trees stat_repo stat_distfile repos_conf snaps refs trees files distfile_refs m :
  build_snapshot_manifest stat_repo stat_distfile repos_conf snaps refs trees files distfile_refs = Ok m ->
  sm_version m = sm_version SnapshotManifest_default /\
  forall r rm, sm_repo_snapshots m !! r = Some rm -> is_Some (refs !! r) /\ rsm_tree_digest rm = default "" (trees !! r).
Proof.
  unfold build_snapshot_manifest. destruct (fold_result (manifest_repo _ _ _ _) _ _) as [m1|e] eqn:E1; [|done]. cbn [rbind]. intros E2.
  pose (good (m : SnapshotManifest) := sm_version m = sm_version SnapshotManifest_default /\
    forall r rm, sm_repo_snapshots m !! r = Some rm -> is_Some (refs !! r) /\ rsm_tree_digest rm = default "" (trees !! r)).
  assert (H1' : good m1).
  { revert E1. apply (fold_result_inv _ good); [split; [done|]; intros r rm; cbn; by rewrite lookup_empty|]. intros s [r sn] s' _ [Hv Hs]. unfold manifest_repo.
    destruct (refs !! r) eqn:Er; [|done]. destruct (repo_locations repos_conf !! r); [|done]. cbn [ok_or rbind].
    destruct (fold_result (manifest_repo_entry _ _ _ _) _ _); [|done]. cbn [rbind]. intros [= <-]. split; [done|]. cbn. intros r' rm.
    destruct (decide (r = r')) as [<-|Hne]; [rewrite lookup_insert_eq, Er; by intros [= <-]|]. rewrite lookup_insert_ne by done. apply Hs. }
  revert E2. apply (fold_result_inv _ good); [done|]. intros s [n b] s' _ [Hv Hs]. unfold manifest_distfile_entry.
  destruct (distfile_refs !! n); [|done]. destruct (stat_distfile n); [|done]. cbn [ok_or rbind]. destruct (negb _); [done|]. by intros [= <-].
Qed.

(** The references by digest of what a manifest lists. *)
Record listed_form (c : PortageConfig) : Prop := {
  lf_version : sm_version (pc_snapshot_manifest c) = SNAPSHOT_MANIFEST_VERSION_V1;
  lf_refs : dom (pc_repo_snapshot_refs c) ⊆ dom (sm_repo_snapshots (pc_snapshot_manifest c));
  lf_distfiles : dom (pc_distfile_snapshot_refs c) ⊆ dom (sm_distfiles (pc_snapshot_manifest c));
  lf_trees : forall r rm, sm_repo_snapshots (pc_snapshot_manifest c) !! r = Some rm ->
    rsm_tree_digest rm = sha256_hex (tree_manifest_to_vec (se_digest <$> rsm_entries rm));
}.

Lemma read_config_listed (y : System) (c : PortageConfig) : read_config y = Ok c -> listed_form c.
Proof.
  unfold read_config. destruct (read_make_conf_from _ _ _) as [make_conf|]; [|done]. cbn [rbind].
  destruct (build_snapshot_manifest _ _ _ _ _ _ _ _) as [m|] eqn:Em; [|done]. cbn [rbind]. intros [= <-].
  pose proof (manifest_trees _ _ _ _ _ _ _ _ _ Em) as [Hv Ht]. apply build_snapshot_manifest_listed in Em as [[Hr1 Hr2] [Hd1 Hd2]].
  split; cbn [pc_snapshot_manifest pc_repo_snapshot_refs pc_distfile_snapshot_refs].
  - done.
  - intros r Hr. unfold compute_repo_snapshot_refs in Hr. rewrite dom_fmap_L in Hr. apply elem_of_dom in Hr as [sn Hsn].
    destruct (Hr2 r sn Hsn) as (rm & Hrm & _). apply elem_of_dom. by exists rm.
  - intros n Hn. unfold compute_distfile_snapshot_refs in Hn. rewrite dom_fmap_L in Hn. apply elem_of_dom in Hn as [b Hb].
    destruct (Hd2 n b Hb) as [e He]. apply elem_of_dom. by exists e.
  - intros r rm Hrm. destruct (Ht r rm Hrm) as [Hsome ->]. revert Hsome. unfold compute_repo_snapshot_trees, compute_repo_snapshot_refs.
    rewrite !lookup_fmap. destruct (read_repo_snapshots _ _ !! r) as [sn|] eqn:Esn; [|by intros []]. intros _. cbn. do 2 f_equal.
    apply map_eq. intros p. rewrite !lookup_fmap. destruct (Hr2 r sn Esn) as (rm' & Hrm' & Hall). simplify_eq.
    destruct (rsm_entries rm !! p) as [e|] eqn:Ee; cbn.
    + destruct (Hr1 r rm p e Hrm Ee) as (sn' & content & Hsn & Hc & ->). simplify_eq. by rewrite Hc.
    + destruct (sn !! p) as [content|] eqn:Ep; [|done]. by destruct (Hall p content Ep) as [e He]; rewrite He in Ee.
Qed.
End Payloads.

(** ** A machine with one repository *)

Section Demo.
Definition length_digest : Sha256 := fun b => pretty (blen b).
Definition listing_codec : TreeCodec := {|
  tree_manifest_to_vec _ := []; tree_metadata_to_vec _ := []; tree_metadata_from_slice _ _ := None |}.
Definition uname_only : Commands := fun program _ =>
  if bool_decide (program = "uname") then Some {| out_success := true; out_stdout := "x86_64"; out_utf8 := true |} else None.
#[local] Existing Instances length_digest listing_codec uname_only.

Definition line_feed : string := String "010"%char EmptyString.
Definition one_repo : System := {|
  sys_can_query := false; sys_make_conf := Some (Some "USE=x"); sys_legacy_make_conf := None;
  sys_etc name := if bool_decide (name = "repos.conf") then Some (File (Some ("[local]" +:+ line_feed +:+ "location = /r" +:+ line_feed))) else None;
  sys_tree_at location := if bool_decide (location = "/r") then Some (Dir [("Manifest", File (Some "DIST foo.tar 3")); ("a.ebuild", File (Some "EAPI=8"))]) else None;
  sys_distfile name := if bool_decide (name = "foo.tar") then Some (string_bytes "tar") else None;
  sys_stat_repo _ name := Some (if bool_decide (name = "Manifest") then 14 else 6, 1000);
  sys_stat_distfile _ := Some (3, 1000); sys_profile_link := None; sys_world := None |}.

(** Both files of the repository and the distfile are listed. *)
Lemma announced_blobs_uploadable_witness :
  match read_config one_repo with
  | Ok c => pc_distfile_snapshots c !! "foo.tar" = Some (string_bytes "tar") /\
      match snapshot_blob_payloads c with
      | Ok payloads => forall n e, sm_distfiles (pc_snapshot_manifest c) !! n = Some e -> is_Some (payloads !! se_digest e)
      | Err _ => False
      end
  | Err _ => False
  end.
Proof.
  destruct (read_config one_repo) as [c|e] eqn:Ec; [|exfalso; assert (Hok : is_ok (read_config one_repo) = true) by (vm_compute; reflexivity); by rewrite Ec in Hok].
  pose proof (announced_blobs_uploadable one_repo c Ec) as Ht.
  assert (Hd : match read_config one_repo with
               | Ok c => bool_decide (pc_distfile_snapshots c !! "foo.tar" = Some (string_bytes "tar")) && is_ok (snapshot_blob_payloads c)
               | Err _ => false end = true) by (vm_compute; reflexivity).
  rewrite Ec in Hd. apply andb_true_iff in Hd as [Hd Hok]. split; [exact (bool_decide_eq_true_1 _ Hd)|].
  destruct (snapshot_blob_payloads c) as [payloads|e]; [|discriminate]. apply Ht.
Defined.
End Demo.
