(* ===== verification/Negotiation.v ===== *)
(** * The client negotiates with the server

    [prepare_manifest_submission] of [CliRun] against the server of [BlobApi] and
    [Upload]: which blobs are missing, over HTTP; the missing ones, over the upload
    protocol of [UploadClient], whose connections may lose any message.  Then the
    server rebuilds the snapshot manifest of the submitted configuration from its
    stores ([Runtime.effective_snapshot_manifest]).

    [HttpClient] is the part of [crates/cli/src/client.rs] that sends one request and
    reads the answer. *)

From S2P Require Import Prelude Types World Paths Auth Registry Frame Config Metrics BlobStore Upload UploadClient UploadFrame Repo TreeStore TreeService Server BlobApi Runtime Staging MakeConf PortageFiles WorkerSetup Effects Builder CliRun Payloads.

(** ** Requests of [RemergeClient] *)

(** The reason phrases of [http::StatusCode]. *)
Class StatusReasons := canonical_reason : Z -> option string.

Module HttpClient.
Section Requests.
Context `{StatusReasons}.

(** [reqwest::Response]; [rp_json]: what deserialising the body gives. *)
Record Response (A : Type) := { rp_status : Z; rp_text : option string; rp_json : option A }.
Arguments rp_status {A}. Arguments rp_text {A}. Arguments rp_json {A}.

Definition is_success (status : Z) : bool := (200 <=? status) && (status <? 300).
(** [{status}] *)
Definition status_display (status : Z) : string := pretty status +:+ " " +:+ default "<unknown status code>" (canonical_reason status).

(** What the three requests have in common: [sent] is the answer, or the text of the
    error that kept it from arriving. *)
Definition read_response {A} (send_context parse_context : string) (refusal : string -> string -> string) (sent : Result (Response A) string) :
    Result A Error :=
  match sent with
  | Err text => Err (in_context send_context (Bail text))
  | Ok resp =>
      if negb (is_success (rp_status resp)) then
        Err (Bail (refusal (status_display (rp_status resp)) (default "" (rp_text resp))))
      else match rp_json resp with Some a => Ok a | None => Err (ParseErr parse_context) end
  end.

Definition submit_workorder (sent : Result (Response SubmitWorkorderResponse) string) : Result SubmitWorkorderResponse Error :=
  read_response "Failed to send workorder" "Failed to parse workorder response"
    (fun status body => "Server returned " +:+ status +:+ ": " +:+ body) sent.

Definition find_missing_blobs (sent : Result (Response (list string)) string) : Result (list string) Error :=
  read_response "Failed to query missing snapshot blobs" "Failed to parse missing-blobs response"
    (fun status body => "Server returned " +:+ status +:+ " while querying missing blobs: " +:+ body) sent.

Definition upload_blob (digest : string) (sent : Result (Response bool) string) : Result bool Error :=
  read_response ("Failed to upload snapshot blob " +:+ digest) "Failed to parse upload-blob response"
    (fun status body => "Server returned " +:+ status +:+ " while uploading blob " +:+ digest +:+ ": " +:+ body) sent.

(** The answer of a handler of the server, as the client receives it. *)
Definition response_of {A} (r : HttpResult A) : Response A :=
  match r with
  | Ok a => {| rp_status := 200; rp_text := None; rp_json := Some a |}
  | Err (code, text) => {| rp_status := code; rp_text := Some text; rp_json := None |}
  end.
End Requests.
End HttpClient.

(** ** The server the client talks to *)

(** The server and the number of uploads made so far. *)
Record Site := { site_server : AppState; site_uploads : nat }.
Definition with_server (s : AppState) (x : Site) : Site := {| site_server := s; site_uploads := site_uploads x |}.

Section Site.
Context `{StatusReasons, HttpLib, Sha256, BlobMetadataCodec, Zstd, UploadStateCodec, Adler32}.
Context (cfg : ServerConfig) (headers : HeaderMap).
(** What the connections of the n-th upload lose, how long its acknowledgements take,
    its identifier; the address of the server; everything that is not the server. *)
Context (nets : nat -> nat -> nat -> Exchange) (lats : nat -> nat -> nat -> Z) (wids : nat -> Uuid) (url : string).
Context (elsewhere : forall X, CliE X -> X).

(** The server refuses the upgrade of a client it does not know. *)
Definition ws_blob_upload (n : nat) : nat -> nat -> Exchange :=
  match require_snapshot_auth cfg headers with Ok _ => nets n | Err _ => fun _ _ => LostRequest end.

Definition stream_to (digest : string) (payload : bytes) (x : Site) : Result bool Error * Site :=
  let n := site_uploads x in
  let '(r, w) := stream_upload_blob (state_dir cfg) (ws_blob_upload n) (lats n) url (wids n) digest payload (disk (site_server x)) in
  (map_err Bail r, {| site_server := set_disk w (site_server x); site_uploads := S n |}).

Definition query_missing (digests : list string) (x : Site) : Result (list string) Error * Site :=
  let '(r, s) := BlobApi.find_missing_blobs cfg (site_server x) headers digests in
  (HttpClient.find_missing_blobs (Ok (HttpClient.response_of r)), with_server s x).

Definition serve (X : Type) (e : CliE X) : Site -> X * Site :=
  match e with
  | FindMissingBlobs digests => query_missing digests
  | StreamUploadBlob digest payload => stream_to digest payload
  | Sleep _ => fun x => (tt, x)
  | e => fun x => (elsewhere _ e, x)
  end.

Definition negotiate (c : PortageConfig) (x : Site) : Result PortageConfig Error * Site :=
  interp_state serve (prepare_manifest_submission c) x.
End Site.

(** ** Delivery of all payloads *)

Section Negotiation.
Context `{StatusReasons, HttpLib, Sha256, !Sha256Laws, BlobMetadataCodec, !BlobMetadataCodecLaws, Zstd, !ZstdLaws,
  UploadStateCodec, !UploadStateCodecLaws, Adler32, !Adler32Laws}.
Context (cfg : ServerConfig) (headers : HeaderMap).
Context (nets : nat -> nat -> nat -> Exchange) (lats : nat -> nat -> nat -> Z) (wids : nat -> Uuid) (url : string).
Context (elsewhere : forall X, CliE X -> X).
Context (U : bytes -> Prop).
Abbreviation dir := (state_dir cfg).
Abbreviation site_disk x := (disk (site_server x)).

(** The bytes the client sends for a blob, and their encoding. *)
Definition stream_of (b : bytes) : option string * bytes :=
  match encode_zstd_if_worthwhile b with Ok (Some c) => (Some SNAPSHOT_BLOB_ENCODING_ZSTD, c) | _ => (None, b) end.

(** A content that can be sent. *)
Record sendable (b : bytes) : Prop := {
  sn_contents : U b;
  sn_zstd : is_ok (encode_zstd_if_worthwhile b) = true;
  sn_nonempty : snd (stream_of b) <> [];
  sn_u64 : blen (snd (stream_of b)) <= u64_max;
}.

Lemma sendable_plan d b : collision_free U -> sendable b -> sha256_hex b = d -> UploadPlan U d b (snd (stream_of b)) (fst (stream_of b)).
Proof.
  intros CF [HU Hz Hne Hmax] Hd. split; try done. unfold carries, stream_of.
  destruct (encode_zstd_if_worthwhile b) as [[c|]|] eqn:E; cbn; [right|by left..]. split; [done|].
  apply encode_zstd_if_worthwhile_Some in E as (_ & E & _). by apply zstd_decode_encode.
Qed.

Lemma sendable_payload b : sendable b -> exists pl, payload_plan b (snd (stream_of b)) (fst (stream_of b)) pl.
Proof.
  intros [_ Hz _ _]. unfold payload_plan, prepare_upload_payload, stream_of. destruct (encode_zstd_if_worthwhile b) as [[c|]|]; [| |done].
  - eexists. split_and!; [done|done|done].
  - eexists. by split_and!.
Qed.

Abbreviation under_way d b := (UnderWay dir U d b (snd (stream_of b)) (fst (stream_of b))).

(** The server is ready for the payloads: nothing fails, the store is right, sessions
    are honest, and each payload is stored or can be uploaded. *)
Record ready (payloads : gmap string bytes) (w : World) : Prop := {
  rd_quiet : faults w = [];
  rd_store : store_ok U dir (files w);
  rd_honest : forall d, valid_digest d -> honest dir d w;
  rd_under_way : forall d b, payloads !! d = Some b -> under_way d b w;
}.

Lemma under_way_frame d b w w' :
  (forall p, upload_area dir d p -> files w' !! p = files w !! p) -> valid_digest d -> faults w' = [] -> store_ok U dir (files w') ->
  under_way d b w -> under_way d b w'.
Proof.
  intros Hf Hv Hw Hok. assert (Hb : files w' !! blob_file dir d "" = files w !! blob_file dir d "") by (apply Hf; left; split; eauto).
  assert (Hs : forall s, files w' !! session_file dir d s = files w !! session_file dir d s) by (intros s; apply Hf, session_area).
  intros [[p [Hst Hpre _ Habs]]|[_ _ Hst]]; [left; exists p|right; split; [done|done|congruence]]. split; [|done|done|congruence].
  destruct Hst as [[-> (_ & Hm & Hp)]|(st & HO & [_ Hm Hp Hr Ho Hseq])].
  - left. split; [done|]. split_and!; [done|by rewrite <- Hm; apply Hs|by rewrite <- Hp; apply Hs].
  - right. exists st. split; [done|]. pose proof (own_digest _ _ _ _ _ _ HO) as Hd. rewrite <- Hd in Hs.
    split; try done; [by rewrite <- Hm; apply Hs|]. rewrite <- Hp. f_equal. apply Hs.
Qed.

Context (CF : collision_free U).
Context (Hauth : require_snapshot_auth cfg headers = Ok tt).

Definition good_payloads (payloads : gmap string bytes) : Prop :=
  forall d b, payloads !! d = Some b -> sha256_hex b = d /\ sendable b.

Lemma payload_valid payloads d b : good_payloads payloads -> payloads !! d = Some b -> valid_digest d.
Proof. intros Hg Hd. destruct (Hg d b Hd) as [<- _]. apply sha256_hex_digits. Qed.

(** The payload of [d] is stored. *)
Definition stored (payloads : gmap string bytes) (w : World) (d : string) : Prop := files w !! blob_file dir d "" = payloads !! d.

(** What uploads of payloads change. *)
Record progress (payloads : gmap string bytes) (w w' : World) : Prop := {
  pg_ready : ready payloads w';
  pg_frame : forall p, (forall d, is_Some (payloads !! d) -> ~ upload_area dir d p) -> files w' !! p = files w !! p;
}.

Lemma progress_refl payloads w : ready payloads w -> progress payloads w w.
Proof. by split. Qed.
Lemma progress_trans payloads w1 w2 w3 : progress payloads w1 w2 -> progress payloads w2 w3 -> progress payloads w1 w3.
Proof. intros [_ F1] [? F2]. split; [done|]. intros p Hp. by rewrite F2, F1. Qed.

Abbreviation stream_to := (stream_to cfg headers nets lats wids url).
Abbreviation serve := (serve cfg headers nets lats wids url elsewhere).

(** One call of [stream_upload_blob], whatever its connections lose. *)
Lemma stream_to_ok payloads d b x :
  good_payloads payloads -> payloads !! d = Some b -> ready payloads (site_disk x) ->
  let '(r, x') := stream_to d b x in
  progress payloads (site_disk x) (site_disk x') /\ Foot (upload_area dir d) (site_disk x) (site_disk x') /\
  site_uploads x' = S (site_uploads x) /\
  match r with Ok _ => stored payloads (site_disk x') d | Err _ => ~ reliable (nets (site_uploads x)) end.
Proof.
  intros Hg Hd Hr. destruct (Hg d b Hd) as [Hs Hsend]. pose proof (payload_valid payloads d b Hg Hd) as Hv.
  pose proof (sendable_plan d b CF Hsend Hs) as Hplan. destruct (sendable_payload b Hsend) as [pl Hpl].
  unfold Negotiation.stream_to, ws_blob_upload. rewrite Hauth. set (n := site_uploads x).
  pose proof (stream_upload_outcome dir U d b _ _ Hplan (nets n) (lats n) url (wids n) pl _ Hpl (rd_under_way _ _ Hr d b Hd)) as Ho.
  pose proof (stream_upload_own dir (nets n) (lats n) url (wids n) d b _ (rd_honest _ _ Hr d Hv)) as [Hf Hh].
  destruct (stream_upload_blob _ _ _ _ _ _ _ _) as [r w']. cbn in Hf, Hh. cbn [fst snd site_server site_uploads disk set_disk].
  assert (Hun : under_way d b w') by (destruct r; [by right|by destruct Ho]).
  assert (Hq : faults w' = [] /\ store_ok U dir (files w')).
  { destruct Hun as [[p HU]|HSt]; [|by destruct HSt]. split; [by eapply uploading_quiet|apply HU]. }
  assert (Hother : forall d' p, valid_digest d' -> d' <> d -> upload_area dir d' p -> files w' !! p = files (site_disk x) !! p).
  { intros d' p Hv' Hne Hp. apply Hf. eapply upload_area_disjoint; [exact Hv'|exact Hv|exact Hne|exact Hp]. }
  split_and!; [|done|done|destruct r as [u|e]; cbn; [|by destruct Ho]].
  - split; [split; [by apply Hq|by apply Hq| |]|].
    + intros d' Hv'. destruct (decide (d' = d)) as [->|Hne]; [done|]. intros c st. cbn.
      rewrite (Hother d') by (done || apply (session_area dir d' ".json")). by apply (rd_honest _ _ Hr).
    + intros d' b' Hd'. destruct (decide (d' = d)) as [->|Hne]; [by replace b' with b by congruence|].
      assert (Hv' : valid_digest d') by by eapply payload_valid.
      eapply under_way_frame; [|done|apply Hq|apply Hq|by apply (rd_under_way _ _ Hr)]. intros p Hp. by eapply Hother.
    + intros p Hp. apply Hf, Hp. by eexists.
  - unfold stored. rewrite Hd. by destruct Ho.
Qed.

(** The network is patient: of any three uploads in a row one has a connection that
    loses nothing. *)
Definition patient : Prop := forall i, exists m, (m < SNAPSHOT_UPLOAD_MAX_ATTEMPTS)%nat /\ reliable (nets (i + m)).

Lemma foot_stored payloads d d' w w' :
  valid_digest d -> valid_digest d' -> d' <> d -> Foot (upload_area dir d) w w' -> stored payloads w d' -> stored payloads w' d'.
Proof.
  intros Hv Hv' Hne [Hf _]. unfold stored. intros <-. apply Hf. eapply upload_area_disjoint; [exact Hv'|exact Hv|exact Hne|].
  left. split; eauto.
Qed.

(** The loop over the attempts ends in success. *)
Lemma tries_deliver payloads d b attempts delay attempt remaining x :
  good_payloads payloads -> payloads !! d = Some b -> ready payloads (site_disk x) ->
  (attempt + remaining = S attempts)%nat -> (exists m, (m < remaining)%nat /\ reliable (nets (site_uploads x + m))) ->
  exists x', interp_state serve (upload_tries d attempts delay (ask (StreamUploadBlob d b)) attempt remaining) x = (Ok tt, x') /\
    progress payloads (site_disk x) (site_disk x') /\ Foot (upload_area dir d) (site_disk x) (site_disk x') /\ stored payloads (site_disk x') d.
Proof.
  intros Hg Hd. revert attempt x. induction remaining as [|rest IH]; intros attempt x Hr Hatt (m & Hm & Hrel); [lia|].
  cbn [upload_tries]. rewrite interp_state_bind. cbn [interp_state ask Negotiation.serve].
  pose proof (stream_to_ok payloads d b x Hg Hd Hr) as Hst. destruct (stream_to d b x) as [[u|e] x1]; destruct Hst as (Hp & Hf & Hn & Ho).
  { by exists x1. }
  destruct m as [|m]; [by rewrite Nat.add_0_r in Hrel|]. destruct (Nat.ltb_spec attempt attempts); [|lia].
  rewrite interp_state_bind. cbn [interp_state ask Negotiation.serve].
  destruct (IH (S attempt) x1) as (x2 & He & Hp2 & Hf2 & Hs2).
  - apply Hp.
  - lia.
  - exists m. split; [lia|]. by rewrite Hn, Nat.add_succ_comm.
  - exists x2. split_and!; [done|by eapply progress_trans|by eapply foot_trans|done].
Qed.

Lemma upload_missing_ok payloads d b x :
  patient -> good_payloads payloads -> payloads !! d = Some b -> ready payloads (site_disk x) ->
  exists x', interp_state serve (upload_missing_blob payloads d) x = (Ok tt, x') /\ progress payloads (site_disk x) (site_disk x') /\
    forall d', d' = d \/ is_Some (payloads !! d') /\ stored payloads (site_disk x) d' -> stored payloads (site_disk x') d'.
Proof.
  intros Hpat Hg Hd Hr. unfold upload_missing_blob, retry_blob_upload. rewrite Hd.
  destruct (tries_deliver payloads d b (Nat.max SNAPSHOT_UPLOAD_MAX_ATTEMPTS 1) SNAPSHOT_UPLOAD_RETRY_DELAY 1 (Nat.max SNAPSHOT_UPLOAD_MAX_ATTEMPTS 1) x)
    as (x' & He & Hp & Hf & Hs); [done|done|done|done|apply Hpat|]. exists x'. split_and!; [done|done|]. intros d' Hd'.
  destruct (decide (d' = d)) as [->|Hne]; [done|]. destruct Hd' as [->|[[b' Hb'] Hst]]; [done|].
  eapply foot_stored; [| |exact Hne|exact Hf|exact Hst]; by eapply payload_valid.
Qed.

Lemma uploads_deliver payloads ds x :
  patient -> good_payloads payloads -> (forall d, d ∈ ds -> is_Some (payloads !! d)) -> ready payloads (site_disk x) ->
  exists x', interp_state serve (pfor (upload_missing_blob payloads) ds) x = (Ok tt, x') /\ progress payloads (site_disk x) (site_disk x') /\
    forall d, d ∈ ds \/ is_Some (payloads !! d) /\ stored payloads (site_disk x) d -> stored payloads (site_disk x') d.
Proof.
  intros Hpat Hg. revert x. induction ds as [|d ds IH]; intros x Hds Hr.
  - exists x. split_and!; [done|by apply progress_refl|]. by intros d [?%elem_of_nil|[_ ?]].
  - destruct (Hds d (list_elem_of_here _ _)) as [b Hb]. cbn [pfor]. unfold pbind_ok. rewrite interp_state_bind.
    destruct (upload_missing_ok payloads d b x Hpat Hg Hb Hr) as (x1 & -> & Hp1 & Hs1).
    destruct (IH x1) as (x2 & He & Hp2 & Hs2); [intros d' Hd'; apply Hds; by apply list_elem_of_further|apply Hp1|].
    exists x2. split_and!; [done|by eapply progress_trans|]. intros d' Hd'. apply Hs2.
    destruct Hd' as [[->|Hin]%elem_of_cons|[Hsome Hst]]; [right|by left|right]; (split; [by eauto|]); apply Hs1; auto.
Qed.

Lemma ready_same payloads w w' :
  good_payloads payloads -> files w' = files w -> faults w' = [] -> ready payloads w -> ready payloads w'.
Proof.
  intros Hg Hf Hw [_ Hok Hh Hu]. split; [done|by rewrite Hf| |].
  - intros d Hv. unfold honest. rewrite Hf. by apply Hh.
  - intros d b Hd. eapply under_way_frame; [by intros; rewrite Hf|by eapply payload_valid|done|by rewrite Hf|by apply Hu].
Qed.

(** A payload whose blob is there is stored. *)
Lemma present_stored payloads d w : is_Some (payloads !! d) -> ready payloads w -> present cfg w d = true -> stored payloads w d.
Proof.
  intros [b Hb] Hr Hp. unfold present in Hp. unfold stored. rewrite Hb.
  destruct (rd_under_way _ _ Hr d b Hb) as [[p HU]|HSt]; [|by destruct HSt]. by rewrite (up_absent _ _ _ _ _ _ _ _ HU) in Hp.
Qed.

Lemma keys_digests payloads : good_payloads payloads -> forallb is_digest (btree_keys payloads) = true.
Proof.
  intros Hg. apply forallb_forall. intros d Hd%list_elem_of_In%elem_of_btree_keys. destruct Hd as [b Hb].
  unfold is_digest. by rewrite validate_digest_valid by by eapply payload_valid.
Qed.

Lemma query_missing_ok payloads x :
  good_payloads payloads -> ready payloads (site_disk x) ->
  exists x', query_missing cfg headers (btree_keys payloads) x = (Ok (List.filter (fun d => negb (present cfg (site_disk x) d)) (btree_keys payloads)), x') /\
    files (site_disk x') = files (site_disk x) /\ ready payloads (site_disk x').
Proof.
  intros Hg Hr. unfold query_missing, BlobApi.find_missing_blobs.
  pose proof (missing_digests_present U cfg (btree_keys payloads) (site_disk x) (rd_store _ _ Hr) (rd_quiet _ _ Hr)) as (Hfs & Hw & Hm).
  rewrite keys_digests in Hm by done.
  match goal with |- context [blob_handler _ _ _ ?io ?count] =>
    destruct (blob_handler_run cfg (site_server x) headers io count Hauth) as [Hfst Hsnd] end.
  rewrite Hm in Hfst. destruct (blob_handler _ _ _ _ _) as [r s]. cbn [fst snd] in Hfst, Hsnd. subst r. eexists. split; [reflexivity|].
  cbn [site_server with_server]. rewrite Hsnd. split; [done|by eapply ready_same].
Qed.

Lemma negotiate_ok c payloads x :
  patient -> snapshot_blob_payloads c = Ok payloads -> good_payloads payloads -> ready payloads (site_disk x) ->
  exists x', negotiate cfg headers nets lats wids url elsewhere c x = (Ok (without_inline_snapshots c), x') /\
    progress payloads (site_disk x) (site_disk x') /\ forall d, is_Some (payloads !! d) -> stored payloads (site_disk x') d.
Proof.
  intros Hpat Hc Hg Hr. unfold negotiate, prepare_manifest_submission. rewrite Hc.
  unfold pbind_ok at 1. cbn [pbind]. unfold pbind_ok at 1. rewrite interp_state_bind. case_bool_decide as Hempty.
  { exists x. cbn. split_and!; [done|by apply progress_refl|]. intros d. rewrite Hempty, lookup_empty. by intros []. }
  unfold pbind_ok at 1. rewrite interp_state_bind. cbn [interp_state ask Negotiation.serve].
  destruct (query_missing_ok payloads x Hg Hr) as (x1 & -> & Hf1 & Hr1).
  set (missing := List.filter _ _). assert (Hin : forall d, d ∈ missing <-> is_Some (payloads !! d) /\ present cfg (site_disk x) d = false).
  { intros d. subst missing. rewrite list_elem_of_In, filter_In, <- list_elem_of_In, elem_of_btree_keys, negb_true_iff. reflexivity. }
  destruct (uploads_deliver payloads missing x1 Hpat Hg) as (x2 & -> & [Hr2 Hf2] & Hs2); [by intros d [? _]%Hin|done|].
  exists x2. cbn [interp_state]. split_and!; [done| |].
  - split; [done|]. intros p Hp. by rewrite Hf2, Hf1.
  - intros d Hd. apply Hs2. destruct (present cfg (site_disk x) d) eqn:Ep; [right|left; by apply Hin]. split; [done|].
    unfold stored. rewrite Hf1. by apply present_stored.
Qed.
End Negotiation.

(** ** The server rebuilds the manifest *)

(** A loop whose rounds all succeed. *)
Lemma fold_io_ok {E A S : Type} (I : S -> World -> Prop) (f : S -> A -> Comp E S) xs s w :
  I s w -> (forall s x w, x ∈ xs -> I s w -> wp (f s x) (fun r w' => exists s', r = Ok s' /\ I s' w') w) ->
  wp (fold_io f xs s) (fun r w' => exists s', r = Ok s' /\ I s' w') w.
Proof.
  revert s w. induction xs as [|x xs IH]; intros s w Hs Hf; cbn [fold_io]; [apply wp_ret; by exists s|].
  apply wp_bind. eapply wp_mono; [apply Hf; [apply list_elem_of_here|exact Hs]|cbv beta]. intros r w1 (s1 & -> & Hs1). apply IH; [done|].
  intros s2 y w2 Hy. apply Hf. by apply list_elem_of_further.
Qed.

Section Rebuild.
Context `{Sha256, !Sha256Laws, BlobMetadataCodec, TreeCodec, !TreeCodecLaws, Zstd}.
Context (dir : path) (cfg : PortageConfig).
Abbreviation m := (pc_snapshot_manifest cfg).

(** Every blob the manifest lists is there. *)
Definition blobs_there (fs : gmap path bytes) : Prop :=
  (forall r repo p e, sm_repo_snapshots m !! r = Some repo -> rsm_entries repo !! p = Some e ->
     valid_digest (se_digest e) /\ is_Some (fs !! blob_file dir (se_digest e) "")) /\
  (forall n e, sm_distfiles m !! n = Some e -> valid_digest (se_digest e) /\ is_Some (fs !! blob_file dir (se_digest e) "")).

Record rebuildable (w : World) : Prop := {
  rb_quiet : faults w = [];
  rb_trees : trees_ok dir (files w);
  rb_blobs : blobs_there (files w);
}.

Context (Hlisted : listed_form cfg) (Hri : pc_repo_snapshots cfg = ∅) (Hdi : pc_distfile_snapshots cfg = ∅).
Context (Hzstd : forall r repo, sm_repo_snapshots m !! r = Some repo ->
  is_ok (encode_zstd_if_worthwhile (tree_manifest_to_vec (snapshot_refs (rsm_entries repo)))) = true).

Lemma ensure_blob_quiet d w :
  faults w = [] -> valid_digest d -> is_Some (files w !! blob_file dir d "") ->
  wp (ensure_blob_exists dir d) (fun r w' => r = Ok tt /\ w' = w) w.
Proof.
  intros Hw Hv [b Hb]. unfold ensure_blob_exists. eapply wp_lift_Ok; [by apply blob_path_eq|].
  apply wp_bind, wp_with_context. unfold wp at 1. by rewrite stat_len_quiet, Hb.
Qed.

Lemma rebuild_repo r repo w :
  sm_repo_snapshots m !! r = Some repo -> rebuildable w ->
  wp (effective_repo dir cfg m r) (fun res w' => exists s', res = Ok s' /\ s' = m /\ rebuildable w') w.
Proof.
  intros Hr [Hw Ht Hb]. unfold effective_repo, build_repo_snapshot_manifest. rewrite Hri, lookup_empty, Hr. cbv zeta. apply wp_bind, wp_bind.
  unfold for_io. eapply wp_mono; [apply (fold_io_ok (fun _ w' => w' = w)); [done|]|cbv beta].
  { intros [] [p e] w1 Hin ->. cbn [snd]. apply elem_of_btree_items in Hin. destruct (proj1 Hb r repo p e Hr Hin) as [Hv Hsome].
    eapply wp_mono; [by apply ensure_blob_quiet|]. intros res w2 [-> ->]. by exists tt. }
  intros res w1 (u & -> & ->). apply wp_bind. pose proof (foots_store_tree dir (snapshot_refs (rsm_entries repo)) w) as [Hframe _].
  pose proof (store_tree_quiet dir (snapshot_refs (rsm_entries repo)) w Hw Ht (Hzstd r repo Hr)) as (Hst & Hw' & Ht' & _).
  unfold wp at 1. destruct (store_tree _ _ w) as [res w']. cbn [fst snd] in *. subst res. cbn [st_digest].
  pose proof (lf_trees _ Hlisted r repo Hr) as Htree. unfold snapshot_refs. rewrite <- Htree, bool_decide_true, andb_false_r by done.
  cbn [negb]. apply wp_ret. cbn [rsm_entries]. eexists. split; [done|]. split.
  - case_bool_decide; [done|]. apply with_repo_id. rewrite Hr. by destruct repo.
  - split; [done|done|]. assert (Hkeep : forall d, files w' !! blob_file dir d "" = files w !! blob_file dir d "").
    { intros d. apply Hframe. intros [_ [s He]]. by apply blob_file_not_tree in He. }
    split; intros *; rewrite Hkeep; apply Hb.
Qed.

Lemma rebuild_distfile n e w :
  sm_distfiles m !! n = Some e -> rebuildable w ->
  wp (effective_distfile dir cfg m n) (fun res w' => exists s', res = Ok s' /\ s' = m /\ rebuildable w') w.
Proof.
  intros Hn Hw. unfold effective_distfile, build_distfile_snapshot_entry. rewrite Hdi, lookup_empty, Hn. apply wp_bind, wp_bind.
  destruct (proj2 (rb_blobs _ Hw) n e Hn) as [Hv Hsome]. eapply wp_mono; [apply ensure_blob_quiet; [apply Hw|done|done]|].
  intros res w1 [-> ->]. apply wp_ret. cbn. eexists. split; [done|]. split; [by apply with_distfile_id|done].
Qed.

(** The manifest the client announced is the one the server works with. *)
Lemma manifest_rebuilt w : rebuildable w -> fst (effective_snapshot_manifest dir cfg w) = Ok m.
Proof.
  intros Hw. enough (Hok : wp (effective_snapshot_manifest dir cfg) (fun r w' => exists s', r = Ok s' /\ s' = m /\ rebuildable w') w)
    by (destruct Hok as (s' & -> & -> & _); done).
  unfold effective_snapshot_manifest. cbv zeta. rewrite (lf_version _ Hlisted), Z.eqb_refl. cbn [negb]. apply wp_bind.
  eapply wp_mono; [apply (fold_io_ok (fun s w => s = m /\ rebuildable w)); [done|]|cbv beta].
  - intros ? r w1 Hr [-> Hw1]. rewrite elem_of_btree_elements, Hri, dom_empty_L in Hr. pose proof (lf_refs _ Hlisted).
    assert (Hin : r ∈ dom (sm_repo_snapshots m)) by set_solver. apply elem_of_dom in Hin as [repo Hrepo]. by eapply rebuild_repo.
  - intros r w1 (? & -> & -> & Hw1). apply (fold_io_ok (fun s w => s = m /\ rebuildable w)); [done|].
    intros ? n w2 Hn [-> Hw2]. rewrite elem_of_btree_elements, Hdi, dom_empty_L in Hn. pose proof (lf_distfiles _ Hlisted).
    assert (Hin : n ∈ dom (sm_distfiles m)) by set_solver. apply elem_of_dom in Hin as [e He]. by eapply rebuild_distfile.
Qed.
End Rebuild.

(** ** From the machine of the client to the staging of the server *)

Section Together.
Context `{StatusReasons, HttpLib, Commands, Sha256, !Sha256Laws, BlobMetadataCodec, !BlobMetadataCodecLaws, TreeCodec, !TreeCodecLaws,
  Zstd, !ZstdLaws, UploadStateCodec, !UploadStateCodecLaws, Adler32, !Adler32Laws}.
Context (cfg : ServerConfig) (headers : HeaderMap).
Context (nets : nat -> nat -> nat -> Exchange) (lats : nat -> nat -> nat -> Z) (wids : nat -> Uuid) (url : string).
Context (elsewhere : forall X, CliE X -> X).
Context (U : bytes -> Prop).
Abbreviation dir := (state_dir cfg).

(** An upload touches no tree. *)
Lemma upload_area_not_tree d d' s : ~ upload_area dir d (tree_name dir d' s).
Proof.
  intros [[_ [s' He]]|[s' He]]; [by apply (blob_file_not_tree dir d s' d' s)|].
  unfold session_file, tree_name, tree_file, blob_upload_session_dir, join in He. rewrite <- !app_assoc in He. apply app_inv_head in He.
  by injection He as He.
Qed.

Lemma progress_trees payloads w w' : progress cfg U payloads w w' -> trees_ok dir (files w) -> trees_ok dir (files w').
Proof.
  intros [_ Hf] Ht d Hv. destruct (Ht d Hv) as [Hj Hm]. split; intros b; rewrite Hf; auto; intros d' _; apply upload_area_not_tree.
Qed.

(** C31.  The snapshot the client reads reaches the server.  The configuration of a
    machine is read, the client asks which blobs are missing and uploads those over
    connections that may lose any request or reply, as long as one connection in any
    three uploads in a row loses nothing; the server had stored some of the blobs
    already, had parts of others staged, or had none.  Then the negotiation succeeds,
    every file the manifest lists is stored under its digest with exactly the bytes
    the client read, and the server, given the submitted configuration - which has
    the digests only - rebuilds exactly the manifest the client announced. *)
Theorem snapshot_reaches_server (y : System) (c : PortageConfig) (payloads : gmap string bytes) (x : Site) :
  read_config y = Ok c -> snapshot_blob_payloads c = Ok payloads -> (forall d b, payloads !! d = Some b -> sendable U b) ->
  collision_free U -> require_snapshot_auth cfg headers = Ok tt -> patient nets ->
  ready cfg U payloads (disk (site_server x)) -> trees_ok dir (files (disk (site_server x))) ->
  (forall r repo, sm_repo_snapshots (pc_snapshot_manifest c) !! r = Some repo ->
     is_ok (encode_zstd_if_worthwhile (tree_manifest_to_vec (snapshot_refs (rsm_entries repo)))) = true) ->
  exists x', negotiate cfg headers nets lats wids url elsewhere c x = (Ok (without_inline_snapshots c), x') /\
    (forall d b, payloads !! d = Some b -> sha256_hex b = d /\ files (disk (site_server x')) !! blob_file dir d "" = Some b) /\
    (forall r m p e, sm_repo_snapshots (pc_snapshot_manifest c) !! r = Some m -> rsm_entries m !! p = Some e -> is_Some (payloads !! se_digest e)) /\
    (forall n e, sm_distfiles (pc_snapshot_manifest c) !! n = Some e -> is_Some (payloads !! se_digest e)) /\
    fst (effective_snapshot_manifest dir (without_inline_snapshots c) (disk (site_server x'))) = Ok (pc_snapshot_manifest c).
Proof.
  intros Hread Hpay Hsend CF Hauth Hpat Hready Htrees Hz. pose proof (announced_blobs_uploadable y c Hread) as Ha. rewrite Hpay in Ha.
  destruct Ha as (Hkey & Hrepo & Hdist). assert (Hg : good_payloads U payloads) by (intros d b Hd; split; [by apply Hkey|by eapply Hsend]).
  destruct (negotiate_ok cfg headers nets lats wids url elsewhere U CF Hauth c payloads x Hpat Hpay Hg Hready) as (x' & Hneg & Hprog & Hst).
  exists x'. split_and!; [exact Hneg| |exact Hrepo|exact Hdist|].
  { intros d b Hd. split; [by apply Hkey|]. rewrite <- Hd. apply Hst. by eexists. }
  assert (Hthere : forall d, is_Some (payloads !! d) -> valid_digest d /\ is_Some (files (disk (site_server x')) !! blob_file dir d "")).
  { intros d [b Hb]. split; [by eapply payload_valid|]. rewrite (Hst d) by by eexists. by eexists. }
  apply (manifest_rebuilt dir (without_inline_snapshots c)); [|done|done|done|].
  - by destruct (read_config_listed y c Hread).
  - split; [apply Hprog|by eapply progress_trees|]. split.
    + intros r repo p e Hr He. apply Hthere. by eapply Hrepo.
    + intros n e He. apply Hthere. by eapply Hdist.
Qed.
End Together.

(** ** A machine and a server *)

Section Demo.
#[local] Existing Instances codec_reference codec_reference_laws zstd_reference zstd_reference_laws upload_codec_reference
  upload_codec_reference_laws tree_codec_reference tree_codec_reference_laws Auth.http_reference uname_only.
#[local] Instance demo_sha : Sha256 := sha256_reference.
#[local] Instance demo_sha_laws : Sha256Laws := sha256_reference_laws.
#[local] Instance demo_adler : Adler32 := adler32_reference.
#[local] Instance demo_adler_laws : Adler32Laws := adler32_reference_u32.
#[local] Instance reasons : StatusReasons := fun _ => None.

(** The first upload loses the replies of all its connections. *)
Definition lossy_nets (n connection j : nat) : Exchange := if Nat.eqb n 0 then LostReply else Deliver.
Definition demo_site : Site := {| site_server := demo_state ∅ ∅ (demo_world []); site_uploads := 0 |}.
Definition one_repo_contents : list bytes := map string_bytes ["DIST foo.tar 3"; "EAPI=8"; "tar"].
Definition listed_content (b : bytes) : Prop := b ∈ one_repo_contents.

Lemma lossy_patient : patient lossy_nets.
Proof.
  intros i. destruct i as [|i]; [exists 1%nat|exists 0%nat]; (split; [unfold SNAPSHOT_UPLOAD_MAX_ATTEMPTS; lia|]);
    (exists 1%nat; split; [unfold SNAPSHOT_BLOB_STREAM_MAX_CONNECTION_ATTEMPTS; lia|done]).
Qed.

Lemma listed_collision_free : collision_free listed_content.
Proof.
  intros a b Ha Hb Hs. destruct (decide (a = b)) as [|Hne]; [done|exfalso].
  assert (Hall : forallb (fun a => forallb (fun b => bool_decide (a = b) || negb (bool_decide (sha256_hex a = sha256_hex b))) one_repo_contents)
    one_repo_contents = true) by (vm_compute; reflexivity).
  rewrite forallb_forall in Hall. specialize (Hall a (proj1 (list_elem_of_In _ _) Ha)). rewrite forallb_forall in Hall.
  specialize (Hall b (proj1 (list_elem_of_In _ _) Hb)). rewrite bool_decide_false, bool_decide_true in Hall by done. done.
Qed.

Lemma nothing_uploaded cfg (payloads : gmap string bytes) : ready cfg listed_content payloads (demo_world []).
Proof.
  split; [done| | |].
  - intros d Hv s b Hb. discriminate Hb.
  - intros d Hv b st Hb. discriminate Hb.
  - intros d b Hd. left. exists []. split; [left; by split_and!|apply prefix_nil| |done]. intros d2 Hv s c Hc. discriminate Hc.
Qed.

Definition sendableb (b : bytes) : bool :=
  bool_decide (b ∈ one_repo_contents) && is_ok (encode_zstd_if_worthwhile b) && negb (bool_decide (snd (stream_of b) = [])) &&
  (blen (snd (stream_of b)) <=? u64_max).
Lemma sendableb_ok b : sendableb b = true -> sendable listed_content b.
Proof.
  unfold sendableb. rewrite !andb_true_iff. intros [[[Hb Hz] Hn] Hu]. apply negb_true_iff in Hn.
  split; [exact (bool_decide_eq_true_1 _ Hb)|done|exact (bool_decide_eq_false_1 _ Hn)|by apply Z.leb_le].
Qed.

(** What the theorem asks of the configuration of the machine. *)
Definition demo_config_ok (c : PortageConfig) : bool :=
  match snapshot_blob_payloads c with
  | Ok payloads => forallb (fun item => sendableb item.2) (map_to_list payloads) && bool_decide (map_size payloads = 3%nat)
  | Err _ => false
  end && forallb (fun item => is_ok (encode_zstd_if_worthwhile (tree_manifest_to_vec (snapshot_refs (rsm_entries item.2)))))
           (map_to_list (sm_repo_snapshots (pc_snapshot_manifest c))).

Lemma snapshot_reaches_server_witness :
  match read_config one_repo with
  | Ok c => exists x', negotiate ServerConfig_default ∅ lossy_nets (fun _ _ _ => 20) (fun _ => 7%N) "ws://localhost" demo_machine c demo_site =
      (Ok (without_inline_snapshots c), x') /\
      fst (effective_snapshot_manifest (state_dir ServerConfig_default) (without_inline_snapshots c) (disk (site_server x'))) = Ok (pc_snapshot_manifest c)
  | Err _ => False
  end.
Proof.
  assert (Hok : match read_config one_repo with Ok c => demo_config_ok c | Err _ => false end = true) by (vm_compute; reflexivity).
  destruct (read_config one_repo) as [c|e] eqn:Ec; [|discriminate]. unfold demo_config_ok in Hok.
  destruct (snapshot_blob_payloads c) as [payloads|e] eqn:Ep; [|discriminate]. apply andb_true_iff in Hok as [Hok Hz].
  apply andb_true_iff in Hok as [Hok _]. rewrite forallb_forall in Hok, Hz.
  destruct (snapshot_reaches_server ServerConfig_default ∅ lossy_nets (fun _ _ _ => 20) (fun _ => 7%N) "ws://localhost" demo_machine listed_content
    one_repo c payloads demo_site) as (x' & Hneg & _ & _ & _ & Heff); [exact Ec|exact Ep| |exact listed_collision_free|reflexivity|exact lossy_patient
    |exact (nothing_uploaded _ _)| | |exists x'; by split].
  - intros d b Hd. apply sendableb_ok. apply (Hok (d, b)), list_elem_of_In. by apply elem_of_map_to_list.
  - intros d Hv. split; intros b Hb; discriminate Hb.
  - intros r repo Hr. apply (Hz (r, repo)), list_elem_of_In. by apply elem_of_map_to_list.
Defined.
End Demo.
