(* ===== verification/Trees.v ===== *)
(** * Walking trees on an orderly disk

    Reading directories, whole files and whole trees, shared by the worker's capture of
    the final state ([Parity]) and its restoration of staged snapshots ([Restore]); and
    what these operations do on a disk without failures whose entries all lie in
    directories.  The order in which a directory is enumerated is a parameter; names are
    taken to be UTF-8. *)

From S2P Require Import Prelude Types World Text Paths BlobStore Repo PortageFiles Disk LocalState LocalSafety.
From S2P Require Import MakeConf.

(** ** Operations on the disk *)

(** The names in a directory. *)
Definition child_name (dir p : path) : option string :=
  match strip_path dir p with Some [n] => Some n | _ => None end.
Definition child_names (ns : gmap path Node) (dir : path) : gset string :=
  list_to_set (omap (child_name dir) (elements (dom ns))).

(** [fs::read_dir], which opens the directory, and the calls of [next_entry]. *)
Definition d_read_dir `{SetIter} (p : path) : DiskOp (list string) :=
  observe (fun d => let? x := find_node true p (nodes d) in
    match snd x with DirNode _ => Ok (set_iter (child_names (nodes d) (fst x))) | _ => Err OtherIo end).
Definition d_next_entry (ctx : string) : DIO unit := with_context ctx (observe (fun _ => Ok tt)).

(** [fs::read] and [fs::write] *)
Definition d_read (p : path) : DiskOp bytes := do file <- d_open p ;; d_read_all file.
Definition d_write (p : path) (b : bytes) : DiskOp unit := do file <- d_create p ;; d_append file b.

(** [entry_path.strip_prefix(root)] *)
Definition relative_to (root p : path) : Result path Error :=
  match strip_path root p with Some r => Ok r | None => Err (Bail (display p +:+ " is outside " +:+ display root)) end.

(** ** Walking a tree

    The loops over whole trees keep a stack of directories: they pop one, go over its
    entries and push those that are directories.  [on_entry] is what they do with an
    entry; [ws_read] opens a directory, [None] to pass over it. *)

Record WalkStyle := { ws_read : path -> DIO (option (list string)); ws_next : path -> string; ws_stat : path -> string }.

Section Walk.
Context (ws : WalkStyle) {M : Type} (on_entry : M -> path -> Metadata -> DIO M).

Definition visit_entry (current : path) (st : M * list path) (name : string) : DIO (M * list path) :=
  d_next_entry (ws_next ws current) ;;
  let entry_path := join current name in
  do md <- with_context (ws_stat ws entry_path) (d_symlink_metadata entry_path) ;;
  do m <- on_entry (fst st) entry_path md ;;
  ret (m, if bool_decide (md_kind md = IsDir) then entry_path :: snd st else snd st).

(** [fuel] bounds the number of directories; [None] if it runs out. *)
Fixpoint drain (fuel : nat) (stack : list path) (m : M) : DIO (option M) :=
  match stack with
  | [] => ret (Some m)
  | current :: rest =>
      match fuel with
      | O => ret None
      | S fuel =>
          do found <- ws_read ws current ;;
          match found with
          | None => drain fuel rest m
          | Some names =>
              do st <- fold_io (visit_entry current) names (m, rest) ;;
              d_next_entry (ws_next ws current) ;;
              drain fuel (snd st) (fst st)
          end
      end
  end.

(** There are no more directories than nodes. *)
Definition walk_from (root : path) (m : M) : DIO M := fun d =>
  let '(r, d') := drain (S (size (nodes d))) [root] m d in
  (match r with Ok (Some m) => Ok m | Ok None => Err (Bail "out of fuel") | Err e => Err e end, d').
End Walk.

(** ** Orderly disks *)

(** Every entry has a proper name and lies in a directory. *)
Definition tidy (ns : gmap path Node) : Prop :=
  forall p c n, ns !! (p ++ [c]) = Some n -> file_name_ok c /\ (p = [] \/ exists t, ns !! p = Some (DirNode t)).

Lemma tidy_above ns p c q n : tidy ns -> ns !! (p ++ c :: q) = Some n ->
  file_name_ok c /\ (p = [] \/ exists t, ns !! p = Some (DirNode t)).
Proof.
  intros Ht. revert n. induction q as [|x q IH] using rev_ind; intros n Hn; [by eapply Ht|].
  change (c :: q ++ [x]) with ((c :: q) ++ [x]) in Hn. rewrite app_assoc in Hn. apply Ht in Hn as [_ [He|[t Hd]]]; [by destruct p|].
  by eapply IH.
Qed.

(** What is on the disk is found at its own path. *)
Lemma walk_physical links ns follow here rel n :
  tidy ns -> ns !! (here ++ rel) = Some n -> (follow = true -> forall b t, n <> LinkNode b t) -> walk links ns follow here rel = Ok (here ++ rel).
Proof.
  intros Ht. revert here. induction rel as [|c rel IH]; intros here Hn Hl; [by rewrite walk_nil, app_nil_r|].
  destruct (tidy_above _ _ _ _ _ Ht Hn) as [(_ & _ & Hc & _) _]. rewrite walk_cons, bool_decide_false by done.
  assert (He : here ++ c :: rel = join here c ++ rel) by (unfold join; by rewrite <- app_assoc). rewrite He in Hn |- *.
  destruct rel as [|c' rel].
  - rewrite app_nil_r in Hn |- *. rewrite Hn. destruct n as [b t|t|b t]; [done|apply walk_nil|]. destruct follow; [by destruct (Hl eq_refl b t)|done].
  - destruct (tidy_above _ _ _ _ _ Ht Hn) as [_ [Hj|[t Hd]]]; [unfold join in Hj; by destruct here|]. rewrite Hd. by apply IH.
Qed.

Lemma find_physical ns follow p n :
  tidy ns -> ns !! p = Some n -> (follow = true -> forall b t, n <> LinkNode b t) -> find_node follow p ns = Ok (p, n).
Proof.
  intros Ht Hn Hl. apply find_node_Ok. split; [by apply (walk_physical _ _ _ [] p n)|]. unfold node_at. by rewrite Hn.
Qed.

(** A new name in a directory. *)
Lemma walk_new links ns follow here rel c t :
  tidy ns -> ns !! (here ++ rel) = Some (DirNode t) -> c <> ".." -> ns !! (here ++ rel ++ [c]) = None ->
  walk links ns follow here (rel ++ [c]) = Ok (here ++ rel ++ [c]).
Proof.
  intros Ht. revert here. induction rel as [|x rel IH]; intros here Hd Hc Hn.
  - simpl in *. rewrite walk_cons, bool_decide_false by done. unfold join. by rewrite Hn.
  - destruct (tidy_above _ _ _ _ _ Ht Hd) as [(_ & _ & Hx & _) _]. change ((x :: rel) ++ [c]) with (x :: (rel ++ [c])) in *.
    rewrite walk_cons, bool_decide_false by done.
    assert (Hdir : exists t', ns !! join here x = Some (DirNode t')).
    { destruct rel as [|y rel]; [unfold join; by exists t|]. assert (He : here ++ x :: y :: rel = join here x ++ y :: rel) by (unfold join; by rewrite <- app_assoc).
      rewrite He in Hd. destruct (tidy_above _ _ _ _ _ Ht Hd) as [_ [Hj|Hd']]; [unfold join in Hj; by destruct here|done]. }
    destruct Hdir as [t' ->].
    assert (He : forall q, here ++ x :: q = join here x ++ q) by (intros q; unfold join; by rewrite <- app_assoc).
    rewrite !He in *. by apply IH.
Qed.

(** A path whose way is clear: the directories above it are there or missing. *)
Definition clear_way (ns : gmap path Node) (p : path) : Prop :=
  Forall file_name_ok p /\
  forall a b, p = a ++ b -> a <> [] -> b <> [] -> match ns !! a with Some (DirNode _) | None => True | _ => False end.

Lemma walk_absent links ns follow here rel :
  Forall file_name_ok rel ->
  (forall a b, rel = a ++ b -> a <> [] -> b <> [] -> match ns !! (here ++ a) with Some (DirNode _) | None => True | _ => False end) ->
  ns !! (here ++ rel) = None -> rel <> [] ->
  walk links ns follow here rel = Ok (here ++ rel) \/ walk links ns follow here rel = Err NotFound.
Proof.
  revert here. induction rel as [|c rel IH]; intros here Hok Hway Hn Hne; [done|]. apply Forall_cons in Hok as [(_ & _ & Hc & _) Hok].
  rewrite walk_cons, bool_decide_false by done.
  assert (He : here ++ c :: rel = join here c ++ rel) by (unfold join; by rewrite <- app_assoc). rewrite He in Hn |- *.
  destruct rel as [|c' rel]; [rewrite app_nil_r in Hn |- *; rewrite Hn; by left|].
  pose proof (Hway [c] (c' :: rel) eq_refl ltac:(done) ltac:(done)) as Hd. fold (join here c) in Hd.
  destruct (ns !! join here c) as [[b t|t|b t]|]; [done| |done|by right]. apply IH; [done| |done|done].
  intros a b Hab Ha Hb. unfold join. rewrite <- app_assoc. apply (Hway (c :: a) b); [by rewrite Hab|done|done].
Qed.

Lemma find_absent ns follow p : clear_way ns p -> ns !! p = None -> p <> [] -> find_node follow p ns = Err NotFound.
Proof.
  intros [Hok Hway] Hn Hne. unfold find_node, resolve. destruct (walk_absent MAX_LINKS ns follow [] p Hok Hway Hn Hne) as [->| ->]; [|done].
  cbn [rbind]. unfold node_at. simpl. by rewrite Hn, bool_decide_false.
Qed.

Lemma strip_path_app dir q : strip_path dir (dir ++ q) = Some q.
Proof. by apply strip_path_Some. Qed.

Lemma elem_of_child_names ns dir n : n ∈ child_names ns dir <-> is_Some (ns !! (dir ++ [n])).
Proof.
  unfold child_names. rewrite elem_of_list_to_set, list_elem_of_omap. split.
  - intros (p & Hp & Hn). unfold child_name in Hn. destruct (strip_path dir p) as [[|x [|y q]]|] eqn:E; simplify_eq.
    apply strip_path_Some in E as ->. by apply elem_of_elements, elem_of_dom in Hp.
  - intros Hs. exists (dir ++ [n]). split; [by apply elem_of_elements, elem_of_dom|]. unfold child_name. by rewrite strip_path_app.
Qed.

(** ** The operations on an orderly disk without failures *)

Section Ops.
Context `{SetIter, !SetIterLaws}.

Lemma try_quiet {E F A B} (m : StateResult Disk E A) (k : Result A E -> StateResult Disk F B) d r d' : m d = (r, d') -> try_ m k d = k r d'.
Proof. unfold try_. by intros ->. Qed.
Lemma bind_quiet {E A B} (m : StateResult Disk E A) (k : A -> StateResult Disk E B) d a d' : m d = (Ok a, d') -> bind m k d = k a d'.
Proof. unfold bind. by intros ->. Qed.
Lemma context_quiet {A} ctx (m : DiskOp A) d a d' : m d = (Ok a, d') -> with_context ctx m d = (Ok a, d').
Proof. unfold with_context. by intros ->. Qed.

Lemma stat_found follow p d n : disk_faults d = [] -> tidy (nodes d) -> nodes d !! p = Some n -> (follow = true -> forall b t, n <> LinkNode b t) ->
  observe (fun d => let? x := find_node follow p (nodes d) in Ok (metadata_of d (snd x))) d = (Ok (metadata_of d n), d).
Proof. intros Hq Ht Hn Hl. rewrite observe_quiet by done. by rewrite (find_physical _ _ _ _ Ht Hn Hl). Qed.
Lemma stat_missing follow p d : disk_faults d = [] -> clear_way (nodes d) p -> nodes d !! p = None -> p <> [] ->
  observe (fun d => let? x := find_node follow p (nodes d) in Ok (metadata_of d (snd x))) d = (Err NotFound, d).
Proof. intros Hq Hc Hn Hne. rewrite observe_quiet by done. by rewrite find_absent. Qed.

Lemma read_link_found p d b t : disk_faults d = [] -> tidy (nodes d) -> nodes d !! p = Some (LinkNode b t) -> d_read_link p d = (Ok b, d).
Proof. intros Hq Ht Hn. unfold d_read_link. rewrite observe_quiet by done. by rewrite (find_physical _ false p _ Ht Hn). Qed.
Lemma read_found p d b t : disk_faults d = [] -> tidy (nodes d) -> nodes d !! p = Some (FileNode b t) -> d_read p d = (Ok b, d).
Proof.
  intros Hq Ht Hn. unfold d_read. erewrite bind_quiet; cycle 1.
  - unfold d_open. rewrite observe_quiet by done. rewrite (find_physical _ true p _ Ht Hn) by done. done.
  - unfold d_read_all. rewrite observe_quiet by done. cbn [fst]. unfold node_at. by rewrite Hn.
Qed.
Lemma read_dir_found p d t : disk_faults d = [] -> tidy (nodes d) -> nodes d !! p = Some (DirNode t) ->
  d_read_dir p d = (Ok (set_iter (child_names (nodes d) p)), d).
Proof. intros Hq Ht Hn. unfold d_read_dir. rewrite observe_quiet by done. by rewrite (find_physical _ true p _ Ht Hn). Qed.
Lemma next_entry_found ctx d : disk_faults d = [] -> d_next_entry ctx d = (Ok tt, d).
Proof. intros Hq. unfold d_next_entry. apply context_quiet. by rewrite observe_quiet. Qed.

(** Nothing but the entry [p] and the time of its directory changed. *)
Record written (dir : path) (c : string) (b : bytes) (d d' : Disk) : Prop := {
  wt_quiet : disk_faults d' = [];
  wt_clock : disk_clock d' = disk_clock d;
  wt_dir_len : dir_len d' = dir_len d;
  wt_tidy : tidy (nodes d');
  wt_file : nodes d' !! (dir ++ [c]) = Some (FileNode b (disk_clock d));
  wt_dir : exists t, nodes d' !! dir = Some (DirNode t);
  wt_rest : forall p, p <> dir ++ [c] -> p <> dir -> nodes d' !! p = nodes d !! p;
}.

Lemma tidy_insert ns dir c n t : tidy ns -> file_name_ok c -> ns !! dir = Some (DirNode t) \/ dir = [] ->
  (match ns !! (dir ++ [c]) with Some (DirNode _) => False | _ => True end) -> tidy (<[dir ++ [c] := n]> ns).
Proof.
  intros Ht Hc Hd Hn p x m Hp. assert (Hdir : forall q t', ns !! q = Some (DirNode t') -> <[dir ++ [c] := n]> ns !! q = Some (DirNode t')).
  { intros q t' Hq. rewrite lookup_insert_ne; [done|]. intros <-. by rewrite Hq in Hn. }
  destruct (decide (dir ++ [c] = p ++ [x])) as [He|Hne].
  - apply app_inj_tail in He as [<- <-]. split; [done|]. destruct Hd as [Hd| ->]; [right; exists t; by apply Hdir|by left].
  - rewrite lookup_insert_ne in Hp by done. apply Ht in Hp as [Hx [->|[t' Hp]]]; split; try done; [by left|right; exists t'; by apply Hdir].
Qed.
Lemma tidy_touch ns p now : tidy ns -> tidy (touch_parent p now ns).
Proof.
  intros Ht. unfold touch_parent. destruct (ns !! removelast p) as [[b t|t|b t]|] eqn:Hd; try done.
  intros q x n Hq. assert (Hdir : forall q, (exists t', ns !! q = Some (DirNode t')) -> exists t', <[removelast p := DirNode now]> ns !! q = Some (DirNode t')).
  { intros r [t' Hr]. destruct (decide (removelast p = r)) as [<-|Hne]; [rewrite lookup_insert_eq; by exists now|rewrite lookup_insert_ne by done; by exists t']. }
  destruct (decide (removelast p = q ++ [x])) as [He|Hne].
  - rewrite He in Hd. apply Ht in Hd as [Hx [->|Hd]]; split; try done; [by left|right; by apply Hdir].
  - rewrite lookup_insert_ne in Hq by done. apply Ht in Hq as [Hx [->|Hd']]; split; try done; [by left|right; by apply Hdir].
Qed.

Lemma dir_ne_entry (dir : path) c : dir <> dir ++ [c].
Proof. intros He. apply (f_equal length) in He. rewrite length_app in He. simpl in He. lia. Qed.

Lemma disk_append_quiet q c b d : disk_faults d = [] -> nodes d !! q = Some (FileNode c (disk_clock d)) ->
  d_append q b d = (Ok tt, with_nodes (<[q := FileNode (c ++ b) (disk_clock d)]> (nodes d)) d).
Proof. intros Hq Hn. unfold d_append, faulty, pop_disk_fault. rewrite Hq. unfold append_to. by rewrite Hn. Qed.

Lemma create_quiet dir c d t :
  disk_faults d = [] -> tidy (nodes d) -> nodes d !! dir = Some (DirNode t) -> file_name_ok c ->
  match nodes d !! (dir ++ [c]) with None | Some (FileNode _ _) => True | _ => False end ->
  exists d', d_create (join dir c) d = (Ok (dir ++ [c]), d') /\ written dir c [] d d'.
Proof.
  intros Hq Ht Hd Hc Hn. unfold d_create, faulty, pop_disk_fault, resolve, join. rewrite Hq.
  destruct (nodes d !! (dir ++ [c])) as [[b0 t0|t0|b0 t0]|] eqn:E; try done.
  - rewrite (walk_physical _ _ true [] (dir ++ [c]) _ Ht E) by done. cbn [app]. unfold node_at. rewrite E.
    eexists. split; [reflexivity|].
    constructor; simpl; try done; [eapply tidy_insert; eauto; by rewrite E|apply lookup_insert_eq| |intros p H1' H2'; by rewrite lookup_insert_ne].
    exists t. rewrite lookup_insert_ne; [done|]. intros He. symmetry in He. by apply dir_ne_entry in He.
  - assert (Hdir : removelast (dir ++ [c]) = dir) by apply removelast_last. pose proof Hc as (_ & _ & Hc' & _).
    rewrite (walk_new _ _ true [] dir c t Ht Hd Hc' E). cbn [app]. unfold node_at. rewrite E, bool_decide_false by (by destruct dir).
    eexists. split; [reflexivity|].
    assert (Htp : touch_parent (dir ++ [c]) (disk_clock d) (nodes d) = <[dir := DirNode (disk_clock d)]> (nodes d)).
    { unfold touch_parent. by rewrite Hdir, Hd. }
    constructor; simpl; try done.
    + eapply (tidy_insert _ _ _ _ (disk_clock d)); [by apply tidy_touch|done|left; rewrite Htp; apply lookup_insert_eq|].
      rewrite Htp, lookup_insert_ne by apply dir_ne_entry. by rewrite E.
    + apply lookup_insert_eq.
    + exists (disk_clock d). rewrite lookup_insert_ne, Htp, lookup_insert_eq; [done|]. intros He. symmetry in He. by apply dir_ne_entry in He.
    + intros p H1' H2'. by rewrite lookup_insert_ne, Htp, lookup_insert_ne.
Qed.

Lemma append_written dir c a b d d1 : written dir c a d d1 -> file_name_ok c ->
  exists d', d_append (dir ++ [c]) b d1 = (Ok tt, d') /\ written dir c (a ++ b) d d'.
Proof.
  intros [Hq Hk Hl Ht Hf [t Hd] Hr] Hc. rewrite <- Hk in Hf. rewrite (disk_append_quiet _ a) by done. eexists. split; [reflexivity|].
  constructor; simpl; try done.
  - eapply tidy_insert; eauto. by rewrite Hf.
  - by rewrite lookup_insert_eq, Hk.
  - exists t. rewrite lookup_insert_ne; [done|]. intros He. symmetry in He. by apply dir_ne_entry in He.
  - intros p H1' H2'. rewrite lookup_insert_ne by done. by apply Hr.
Qed.

Lemma write_quiet dir c b d t :
  disk_faults d = [] -> tidy (nodes d) -> nodes d !! dir = Some (DirNode t) -> file_name_ok c ->
  match nodes d !! (dir ++ [c]) with None | Some (FileNode _ _) => True | _ => False end ->
  exists d', d_write (join dir c) b d = (Ok tt, d') /\ written dir c b d d'.
Proof.
  intros Hq Ht Hd Hc Hn. destruct (create_quiet dir c d t Hq Ht Hd Hc Hn) as (d1 & Hcr & Hw1). unfold d_write.
  erewrite bind_quiet by exact Hcr. by apply (append_written _ _ []).
Qed.
End Ops.

Lemma make_dirs_there above todo t d : tidy (nodes d) -> nodes d !! (above ++ todo) = Some (DirNode t) -> make_dirs above todo d = (Ok tt, d).
Proof.
  intros Ht. revert above. induction todo as [|c todo IH]; intros above Hn; [done|]. cbn [make_dirs].
  assert (He : above ++ c :: todo = join above c ++ todo) by (unfold join; by rewrite <- app_assoc). rewrite He in Hn.
  assert (Hd : exists t', nodes d !! join above c = Some (DirNode t')).
  { destruct todo as [|x todo]; [rewrite app_nil_r in Hn; by eexists|].
    destruct (tidy_above _ _ _ _ _ Ht Hn) as [_ [Hj|Hd]]; [unfold join in Hj; by destruct above|done]. }
  destruct Hd as [t' Hd]. rewrite (find_physical _ true _ _ Ht Hd) by done. by apply IH.
Qed.

Lemma create_dir_there p t d : disk_faults d = [] -> tidy (nodes d) -> nodes d !! p = Some (DirNode t) -> d_create_dir_all p d = (Ok tt, d).
Proof. intros Hq Ht Hp. unfold d_create_dir_all, faulty, pop_disk_fault. rewrite Hq. by eapply (make_dirs_there []). Qed.

Lemma under_nil (p : path) : under p p.
Proof. exists []. by rewrite app_nil_r. Qed.

(** ** The walk reaches everything *)

(** Reading a directory that is there gives its names. *)
Definition reads_dirs `{SetIter} (ws : WalkStyle) : Prop := forall p d t,
  disk_faults d = [] -> tidy (nodes d) -> nodes d !! p = Some (DirNode t) ->
  ws_read ws p d = (Ok (Some (set_iter (child_names (nodes d) p))), d).

Section Walking.
Context `{SetIter, !SetIterLaws} (ws : WalkStyle) {M : Type} (on_entry : M -> path -> Metadata -> DIO M).
Context (root : path) (ns0 : gmap path Node) (R : list path -> M -> Disk -> Prop).

(** [R h m d]: the entries [h] (relative to the root) have been handled.  Handling an
    entry succeeds, and leaves what is below the root as it is. *)
Hypothesis R_disk : forall h m d, R h m d ->
  disk_faults d = [] /\ tidy (nodes d) /\ forall p, nodes d !! (root ++ p) = ns0 !! (root ++ p).
Hypothesis R_step : forall h m d rel n, R h m d -> rel <> [] -> rel ∉ h -> ns0 !! (root ++ rel) = Some n ->
  exists m' d', on_entry m (root ++ rel) (metadata_of d n) d = (Ok m', d') /\ R (rel :: h) m' d'.

(** An existing directory is opened. *)
Hypothesis ws_reads : reads_dirs ws.

Definition is_dir_at (rel : path) : Prop := exists t, ns0 !! (root ++ rel) = Some (DirNode t).

(** The entries of one directory. *)
Lemma visit_entries p names h m d S :
  R h m d -> NoDup names -> (forall n, n ∈ names -> is_Some (ns0 !! (root ++ p ++ [n])) /\ p ++ [n] ∉ h) ->
  exists h' m' d' L,
    fold_io (visit_entry ws on_entry (root ++ p)) names (m, map (app root) S) d = (Ok (m', map (app root) (L ++ S)), d') /\ R h' m' d' /\
    (forall rel, rel ∈ h' <-> rel ∈ h \/ exists n, n ∈ names /\ rel = p ++ [n]) /\
    NoDup L /\ (forall rel, rel ∈ L <-> is_dir_at rel /\ exists n, n ∈ names /\ rel = p ++ [n]).
Proof.
  revert h m d S. induction names as [|n names IH]; intros h m d S HR Hnd Hin.
  { exists h, m, d, []. split_and!; [done|done| |constructor|]; intros rel; rewrite ?elem_of_nil; set_solver. }
  apply NoDup_cons in Hnd as [Hn Hnd]. destruct (Hin n (list_elem_of_here _ _)) as [[node Hnode] Hfresh].
  destruct (R_disk _ _ _ HR) as (Hq & Ht & Hsame). destruct (R_step h m d (p ++ [n]) node HR) as (m1 & d1 & Hon & HR1); [by destruct p|done..|].
  cbn [fold_io]. assert (Hv : visit_entry ws on_entry (root ++ p) (m, map (app root) S) n d =
    (Ok (m1, map (app root) ((if bool_decide (md_kind (metadata_of d node) = IsDir) then [p ++ [n]] else []) ++ S)), d1)).
  { unfold visit_entry. erewrite bind_quiet by by apply next_entry_found.
    assert (He : join (root ++ p) n = root ++ p ++ [n]) by (unfold join; by rewrite app_assoc). cbv zeta. rewrite He.
    erewrite bind_quiet; cycle 1. { apply context_quiet. apply (stat_found false); [done|done|by rewrite Hsame|done]. }
    cbn [fst]. erewrite bind_quiet by exact Hon. unfold ret. repeat f_equal. case_bool_decide; done. }
  erewrite bind_quiet by exact Hv. set (L1 := if bool_decide _ then _ else _) in *.
  assert (HL1 : forall rel, rel ∈ L1 <-> is_dir_at rel /\ rel = p ++ [n]).
  { intros rel. unfold L1, is_dir_at. case_bool_decide as Hk.
    - rewrite list_elem_of_singleton. split; [intros ->|by intros [_ ->]]. destruct node; try done. split; [by eexists|done].
    - rewrite elem_of_nil. split; [done|]. intros [[t Hd] ->]. rewrite Hnode in Hd. by injection Hd as ->. }
  destruct (IH (( p ++ [n]) :: h) m1 d1 (L1 ++ S) HR1 Hnd) as (h' & m' & d' & L & Hf & HR' & Hh' & HL & HLe).
  { intros x Hx. destruct (Hin x (list_elem_of_further _ _ _ Hx)) as [Hs Hnh]. split; [done|]. rewrite not_elem_of_cons. split; [|done].
    intros He. apply app_inv_head in He. simplify_eq. done. }
  exists h', m', d', (L ++ L1). rewrite <- app_assoc. split_and!; [exact Hf|done| | |].
  - intros rel. rewrite Hh', elem_of_cons. setoid_rewrite elem_of_cons. naive_solver.
  - apply NoDup_app. split_and!; [done| |unfold L1; case_bool_decide; [apply NoDup_singleton|constructor]].
    intros rel HrL HrL1. apply HL1 in HrL1 as [_ ->]. apply HLe in HrL as (_ & x & Hx & He). apply app_inv_head in He. by simplify_eq.
  - intros rel. rewrite elem_of_app, HLe, HL1. setoid_rewrite elem_of_cons. naive_solver.
Qed.

(** Distinct directories are not more than [N]. *)
Context (N : nat) (HN : forall l, NoDup l -> Forall is_dir_at l -> (length l <= N)%nat).
Context (Htidy : forall p c n, ns0 !! (root ++ p ++ [c]) = Some n -> is_dir_at p).

(** When the stack is empty, everything below the root has been handled. *)
Lemma all_handled (h D : list path) :
  (forall rel, rel ∈ h <-> exists p c, rel = p ++ [c] /\ p ∈ D /\ is_Some (ns0 !! (root ++ rel))) ->
  (forall rel, is_dir_at rel /\ (rel = [] \/ rel ∈ h) -> rel ∈ D) ->
  forall rel, rel ∈ h <-> rel <> [] /\ is_Some (ns0 !! (root ++ rel)).
Proof.
  intros Hh HD. assert (Hall : forall rel, is_dir_at rel -> rel ∈ D).
  { intros rel. induction rel as [|c rel IHr] using rev_ind; intros Hd; apply HD; (split; [exact Hd|]); [by left|right].
    apply Hh. exists rel, c. destruct Hd as [t Hd]. split_and!; [done|apply IHr; by eapply Htidy|by eexists]. }
  intros rel. rewrite Hh. split; [intros (p & c & -> & _ & Hs); split; [by destruct p|done]|].
  intros [Hne [n Hn]]. destruct (exists_last Hne) as (p & c & ->). exists p, c. split_and!; [done|by eapply Hall, Htidy|by eexists].
Qed.

(** [D] are the directories done, [S] those on the stack. *)
Lemma drain_total fuel h m d D S :
  R h m d -> (forall rel, rel ∈ h <-> exists p c, rel = p ++ [c] /\ p ∈ D /\ is_Some (ns0 !! (root ++ rel))) ->
  (forall rel, rel ∈ D \/ rel ∈ S <-> is_dir_at rel /\ (rel = [] \/ rel ∈ h)) -> NoDup (D ++ S) -> (N < fuel + length D)%nat ->
  exists h' m' d', drain ws on_entry fuel (map (app root) S) m d = (Ok (Some m'), d') /\ R h' m' d' /\
    forall rel, rel ∈ h' <-> rel <> [] /\ is_Some (ns0 !! (root ++ rel)).
Proof.
  revert h m d D S. induction fuel as [|fuel IH]; intros h m d D S HR Hh HDS Hnd Hfuel.
  all: destruct S as [|p S]; [exists h, m, d; split_and!; [done|done|apply (all_handled h D Hh)]|].
  1,3: intros rel Hrel; apply HDS in Hrel as [?|Hc]; [done|by apply elem_of_nil in Hc].
  - exfalso. assert (Hlen : (length (D ++ p :: S) <= N)%nat).
    { apply HN; [done|]. apply Forall_forall. intros rel Hrel. apply elem_of_app in Hrel. by apply HDS in Hrel as [? _]. }
    rewrite length_app in Hlen. simpl in Hlen. lia.
  - assert (HpD : p ∉ D) by (apply NoDup_app in Hnd as (_ & Hnd & _); intros Hp; by apply (Hnd p Hp), list_elem_of_here).
    assert (Hdir : is_dir_at p) by (apply HDS; right; apply list_elem_of_here). destruct Hdir as [t Hdir].
    destruct (R_disk _ _ _ HR) as (Hq & Ht & Hsame).
    cbn [drain map]. erewrite bind_quiet by (eapply ws_reads; [done|done|by rewrite Hsame]).
    set (names := set_iter _). assert (Hnames : forall n, n ∈ names <-> is_Some (ns0 !! (root ++ p ++ [n]))).
    { intros n. unfold names. rewrite (elem_of_set_iter), elem_of_child_names. by rewrite <- app_assoc, Hsame. }
    destruct (visit_entries p names h m d S HR) as (h1 & m1 & d1 & L & Hf & HR1 & Hh1 & HL & HLe).
    { apply NoDup_set_iter. }
    { intros n Hn. split; [by apply Hnames|]. intros Hin. apply Hh in Hin as (p' & c & He & Hp' & _). by apply app_inj_tail in He as [-> _]. }
    erewrite bind_quiet by exact Hf. destruct (R_disk _ _ _ HR1) as (Hq1 & _). erewrite bind_quiet by by apply next_entry_found. cbn [fst snd].
    assert (Hex : forall rel, (exists n, n ∈ names /\ rel = p ++ [n]) <-> exists c, rel = p ++ [c] /\ is_Some (ns0 !! (root ++ rel))).
    { intros rel. split; [intros (n & Hn & ->); exists n; split; [done|by apply Hnames]|intros (c & -> & Hs); exists c; split; [by apply Hnames|done]]. }
    apply (IH h1 m1 d1 (p :: D) (L ++ S) HR1).
    + intros rel. rewrite Hh1, Hh, Hex. setoid_rewrite elem_of_cons. naive_solver.
    + intros rel. rewrite elem_of_cons, elem_of_app, HLe, Hex. specialize (HDS rel). rewrite elem_of_cons in HDS. rewrite Hh1, Hex. 
      destruct (decide (rel = p)) as [->|Hne]; [|tauto].
      split; [intros _; split; [by eexists|]|by left; left]. destruct (proj1 HDS (or_intror (or_introl eq_refl))) as [_ ?]. tauto.
    + apply NoDup_app in Hnd as (HD & HDp & HpS). apply NoDup_cons in HpS as [HpS HS].
      assert (HLnew : forall rel, rel ∈ L -> ~ rel ∈ D /\ ~ rel ∈ p :: S).
      { intros rel Hrel. apply HLe in Hrel as (_ & n & Hn & ->). specialize (HDS (p ++ [n])).
        assert (Hno : ~ (is_dir_at (p ++ [n]) /\ (p ++ [n] = [] \/ p ++ [n] ∈ h))).
        { intros [_ [He|Hin]]; [by destruct p|]. apply Hh in Hin as (p' & c & He & Hp' & _). by apply app_inj_tail in He as [-> _]. }
        rewrite <- HDS in Hno. tauto. }
      simpl. apply NoDup_cons. split.
      * rewrite !elem_of_app. intros [?|[Hp|?]]; [done| |done]. apply HLnew in Hp as [_ Hp]. by apply Hp, list_elem_of_here.
      * apply NoDup_app. split_and!; [done| |apply NoDup_app; split_and!; [done| |done]].
        -- intros x Hx. rewrite elem_of_app. intros [Hl|Hs]; [by apply HLnew in Hl as [? _]|]. by apply (HDp x Hx), list_elem_of_further.
        -- intros x Hx Hs. apply HLnew in Hx as [_ Hx]. by apply Hx, list_elem_of_further.
    + simpl. lia.
Qed.
End Walking.

Lemma walk_total `{SetIter, !SetIterLaws} ws {M} (on_entry : M -> path -> Metadata -> DIO M) root ns0 (R : list path -> M -> Disk -> Prop) m d :
  reads_dirs ws ->
  (forall h m d, R h m d -> disk_faults d = [] /\ tidy (nodes d) /\ forall p, nodes d !! (root ++ p) = ns0 !! (root ++ p)) ->
  (forall h m d rel n, R h m d -> rel <> [] -> rel ∉ h -> ns0 !! (root ++ rel) = Some n ->
     exists m' d', on_entry m (root ++ rel) (metadata_of d n) d = (Ok m', d') /\ R (rel :: h) m' d') ->
  is_dir_at root ns0 [] -> R [] m d ->
  exists h' m' d', walk_from ws on_entry root m d = (Ok m', d') /\ R h' m' d' /\
    forall rel, rel ∈ h' <-> rel <> [] /\ is_Some (ns0 !! (root ++ rel)).
Proof.
  intros Hws Hdisk Hstep Hroot HR. destruct (Hdisk _ _ _ HR) as (Hq & Ht & Hsame).
  destruct (drain_total ws on_entry root ns0 R Hdisk Hstep Hws (size (nodes d))) with (fuel := S (size (nodes d))) (h := @nil path) (m := m) (d := d) (D := @nil path) (S := [@nil string])
    as (h' & m' & d' & Hd & HR' & Hh').
  - intros l Hnd Hl. rewrite <- (length_fmap (app root) l), <- size_dom.
    rewrite <- (size_list_to_set (C := gset path) (app root <$> l)) by (apply NoDup_fmap_2; [intros x y; apply app_inv_head|done]).
    apply subseteq_size. intros p Hp. apply elem_of_list_to_set, list_elem_of_fmap in Hp as (rel & -> & Hrel).
    rewrite Forall_forall in Hl. destruct (Hl _ Hrel) as [t Hrt]. apply elem_of_dom. rewrite Hsame. by eexists.
  - intros p c n Hn. rewrite app_assoc in Hn. unfold is_dir_at. assert (Hn' : nodes d !! ((root ++ p) ++ [c]) = Some n) by (rewrite <- app_assoc, Hsame, app_assoc; done).
    apply Ht in Hn' as [_ [He|[t Hd]]]; [|exists t; by rewrite <- Hsame]. apply app_eq_nil in He as [-> ->]. by destruct Hroot as [t Hr]; exists t.
  - done.
  - intros rel. rewrite elem_of_nil. split; [done|]. intros (p & c & _ & Hp & _). by apply elem_of_nil in Hp.
  - intros rel. rewrite !elem_of_nil, list_elem_of_singleton. split; [intros [?| ->]; [done|]; auto|]. intros [_ [->|?]]; [by right|done].
  - apply NoDup_singleton.
  - simpl. lia.
  - exists h', m', d'. split_and!; [|done|done]. unfold walk_from. cbn [map] in Hd. rewrite app_nil_r in Hd. by rewrite Hd.
Qed.


(** ** The text of a path *)

Definition path_key (p : path) : string := join_with "/" p.

Lemma split_on_path p : Forall file_name_ok p -> p <> [] -> split_on "/"%char (path_key p) = p.
Proof.
  intros Hp Hne. induction Hp as [|c p (_ & _ & _ & Hc) Hp IH]; [done|]. destruct p as [|c' p].
  - simpl. by apply split_on_none.
  - change (path_key (c :: c' :: p)) with (c +:+ String "/" (path_key (c' :: p))). rewrite split_on_app by done. f_equal. by apply IH.
Qed.

Lemma join_with_app sep p q : p <> [] -> q <> [] -> join_with sep (p ++ q) = join_with sep p +:+ sep +:+ join_with sep q.
Proof.
  intros Hp Hq. induction p as [|c p IH]; [done|]. destruct p as [|c' p].
  - destruct q as [|c' q]; [done|]. done.
  - change ((c :: c' :: p) ++ q) with (c :: (c' :: p) ++ q). cbn [join_with]. change ((c' :: p) ++ q) with (c' :: (p ++ q)) in *.
    rewrite IH by done. cbn [join_with]. by rewrite !string_app_assoc.
Qed.

(** ** Trees given as lists *)

(** A path whose names are proper names without a backslash. *)
Definition path_ok (p : path) : Prop := Forall (fun c => file_name_ok c /\ backslash ∉ chars c) p.
Lemma path_ok_app p q : path_ok (p ++ q) <-> path_ok p /\ path_ok q.
Proof. unfold path_ok. by rewrite Forall_app. Qed.

Lemma tree_forall (l : list (path * Node)) (P : path -> Node -> Prop) :
  Forall (fun x => P (fst x) (snd x)) l -> forall p n, list_to_map (M := gmap path Node) l !! p = Some n -> P p n.
Proof. intros Hl p n Hp. apply elem_of_list_to_map_2 in Hp. rewrite Forall_forall in Hl. by apply (Hl _ Hp). Qed.

Definition name_okb (c : string) : bool :=
  negb (bool_decide (c = "")) && negb (bool_decide (c = ".")) && negb (bool_decide (c = "..")) && negb (contains_char "/" c) && negb (contains_char backslash c).
Definition dirb (ns : gmap path Node) (p : path) : bool := match ns !! p with Some (DirNode _) => true | _ => false end.
Definition clearb (ns : gmap path Node) (p : path) : bool :=
  forallb name_okb p && forallb (fun k => match ns !! take k p with Some (DirNode _) | None => true | _ => false end) (seq 0 (length p)).

Lemma name_okb_ok c : name_okb c = true -> file_name_ok c /\ backslash ∉ chars c.
Proof.
  unfold name_okb. rewrite !andb_true_iff, !negb_true_iff, !bool_decide_eq_false. intros ((((H1 & H2) & H3) & H4) & H5).
  split; [split_and!; try done|]; rewrite <- contains_char_spec; congruence.
Qed.
Lemma names_okb_ok p : forallb name_okb p = true -> path_ok p.
Proof. rewrite forallb_forall. intros Hp. apply Forall_forall. intros c Hc. by apply name_okb_ok, Hp, list_elem_of_In. Qed.

Lemma clearb_ok ns p : clearb ns p = true -> clear_way ns p.
Proof.
  intros [Hn%names_okb_ok Hk]%andb_true_iff. split; [by eapply Forall_impl; [apply Hn|intros ? []]|]. intros a b -> _ Hb.
  rewrite forallb_forall in Hk. specialize (Hk (length a)). rewrite take_app_length in Hk.
  destruct (ns !! a) as [[]|]; try done; (discriminate Hk; apply in_seq; rewrite length_app; destruct b; [done|simpl; lia]).
Qed.

(** A tree as a list of nodes; whether every node has a proper name and a parent. *)
Definition tidyb (ns : gmap path Node) (l : list (path * Node)) : bool :=
  forallb (fun x => forallb name_okb (fst x) && (bool_decide (removelast (fst x) = []) || dirb ns (removelast (fst x)))) l.

Lemma tidyb_ok l : tidyb (list_to_map l) l = true ->
  tidy (list_to_map l) /\ forall p n, list_to_map (M := gmap path Node) l !! p = Some n -> path_ok p.
Proof.
  unfold tidyb. rewrite forallb_forall. intros Hl.
  assert (Hall : forall p n, list_to_map (M := gmap path Node) l !! p = Some n ->
    path_ok p /\ (removelast p = [] \/ dirb (list_to_map l) (removelast p) = true)).
  { intros p n Hp. apply elem_of_list_to_map_2, list_elem_of_In, Hl, andb_true_iff in Hp as [Hp Hd]. cbn [fst] in Hp, Hd.
    split; [by apply names_okb_ok|]. by apply orb_true_iff in Hd as [?%bool_decide_eq_true|?]; [left|right]. }
  split; [|intros p n Hp; by apply Hall in Hp as []]. intros p c n Hp. apply Hall in Hp as [Hok Hd]. rewrite removelast_last in Hd.
  apply path_ok_app in Hok as [_ Hc]. apply Forall_singleton in Hc as [Hc _]. split; [done|]. destruct Hd as [Hd|Hd]; [by left|right].
  unfold dirb in Hd. destruct (list_to_map l !! p) as [[]|] eqn:E; try done. by eexists.
Qed.

Definition tree_disk (l : list (path * Node)) : Disk :=
  {| nodes := list_to_map l; disk_faults := []; disk_clock := 9; dir_len := 4096; replies := [] |}.
