(* ===== verification/Restore.v ===== *)
(** * Restoring staged snapshots in the worker ([crates/worker/src/portage_setup.rs])

    The server exposes the client's repositories and distfiles below a staging directory
    ([Staging]); before it builds, the worker copies every staged repository over the
    location that [repos.conf] gives it, and the distfiles into the distfiles directory.
    The decoder of UTF-8 and the order of enumeration are parameters. *)

From S2P Require Import Prelude Types World Text Paths BlobStore Repo PortageFiles WorkerSetup Disk LocalState LocalSafety Trees.

(** [path.is_file()] and [path.is_dir()], which follow links; an error counts as no. *)
Definition path_kind_is {E} (k : FileKind) (p : path) : StateResult Disk E bool :=
  try_ (d_metadata p) (fun r => ret match r with Ok md => bool_decide (md_kind md = k) | Err _ => false end).

(** [fs::copy]: opens the source, which must be a regular file, then truncates the
    destination and copies. *)
Definition d_open_file (p : path) : DiskOp path :=
  observe (fun d => let? x := find_node true p (nodes d) in match snd x with FileNode _ _ => Ok (fst x) | _ => Err EINVAL end).
Definition d_copy (src dst : path) : DiskOp unit :=
  do from <- d_open_file src ;;
  do to <- d_create dst ;;
  do b <- d_read_all from ;;
  d_append to b.

(** [while let Ok(Some(entry)) = dir.next_entry().await]: the first error ends the loop. *)
Fixpoint for_entries {M} (f : M -> string -> DIO M) (names : list string) (m : M) : DIO M :=
  try_ (d_next_entry "next_entry") (fun r =>
  match r, names with
  | Ok _, name :: rest => do m <- f m name ;; for_entries f rest m
  | _, _ => ret m
  end).

Section Restore.
Context `{SetIter} (text_of : bytes -> option string).

(** The text of a file of [repos.conf], if it can be read. *)
Definition read_text {E} (p : path) : StateResult Disk E (option string) :=
  try_ (d_read p) (fun r => ret match r with Ok b => text_of b | Err _ => None end).

(** Goes over the files of [repos.conf]. *)
Definition over_repos_conf {M} (f : M -> string -> M) (repos_conf_base : path) (m : M) : DIO M :=
  try_ (d_read_dir repos_conf_base) (fun r => match r with
    | Err _ => ret m
    | Ok names =>
        for_entries (fun m name =>
          let p := join repos_conf_base name in
          do file <- path_kind_is IsFile p ;;
          if file : bool then
            do content <- read_text p ;;
            ret match content with Some content => f m content | None => m end
          else ret m) names m
    end).

Definition read_repo_locations (repos_conf_base : path) : DIO (gmap string string) :=
  over_repos_conf (fun m content =>
    fold_left (fun m section => <[wrs_name section := wrs_location section]> m) (worker_parse_repo_sections_full content) m) repos_conf_base ∅.

(** How [copy_tree_recursive] reads a directory: one that vanished is passed over. *)
Definition copy_walk : WalkStyle := {|
  ws_read dir_path := try_ (d_read_dir dir_path) (fun r => match r with
    | Ok names => ret (Some names)
    | Err NotFound => ret None
    | Err e => throw (IoErr e ("Failed to read staged snapshot directory " +:+ display dir_path))
    end);
  ws_next dir_path := "Failed to iterate staged snapshot directory " +:+ display dir_path;
  ws_stat source_path := "Failed to stat staged snapshot path " +:+ display source_path |}.

Definition copy_entry (source_root destination_root : path) (_ : unit) (source_path : path) (md : Metadata) : DIO unit :=
  do relative <- lift (relative_to source_root source_path) ;;
  let destination := destination_root ++ relative in
  if bool_decide (md_kind md = IsDir) then
    with_context ("Failed to create staged snapshot dir " +:+ display destination) (d_create_dir_all destination)
  else if negb (bool_decide (md_kind md = IsFile)) then ret tt
  else
    match destination with
    | [] => ret tt
    | _ => with_context ("Failed to create parent dir for staged snapshot " +:+ display destination) (d_create_dir_all (removelast destination))
    end ;;
    with_context ("Failed to restore staged snapshot " +:+ display source_path +:+ " into " +:+ display destination) (d_copy source_path destination).

Definition copy_tree_recursive (source_root destination_root current : path) : DIO unit :=
  walk_from copy_walk (copy_entry source_root destination_root) current tt.

(** One entry of the staged repositories. *)
Definition restore_repo (locations : gmap string string) (staged_repos_base : path) (_ : unit) (name : string) : DIO unit :=
  let repo_root := join staged_repos_base name in
  do dir <- path_kind_is IsDir repo_root ;;
  if dir : bool then
    match locations !! name with
    | None => ret tt
    | Some location => copy_tree_recursive repo_root (join_str [] location) repo_root
    end
  else ret tt.

(** One entry of the staged distfiles. *)
Definition restore_distfile (staged_distfiles_base distfiles_base : path) (_ : unit) (filename : string) : DIO unit :=
  let p := join staged_distfiles_base filename in
  do file <- path_kind_is IsFile p ;;
  if (file : bool) && is_valid_distfile_basename filename then
    let destination := join distfiles_base filename in
    with_context ("Failed to restore staged distfile " +:+ display p +:+ " into " +:+ display destination) (d_copy p destination)
  else ret tt.

Definition restore_staged_snapshots_inner (repos_conf_base distfiles_base staged_snapshots_base : path) : DIO unit :=
  do locations <- read_repo_locations repos_conf_base ;;
  let staged_repos_base := join staged_snapshots_base "repos" in
  try_ (d_read_dir staged_repos_base) (fun r => match r with
    | Ok names => for_entries (restore_repo locations staged_repos_base) names tt
    | Err _ => ret tt
    end) ;;
  let staged_distfiles_base := join staged_snapshots_base "distfiles" in
  try_ (d_read_dir staged_distfiles_base) (fun r => match r with
    | Ok names =>
        with_context ("Failed to create distfiles dir " +:+ display distfiles_base) (d_create_dir_all distfiles_base) ;;
        for_entries (restore_distfile staged_distfiles_base distfiles_base) names tt
    | Err _ => ret tt
    end).

(** [set_profile], up to the link: the locations in the order of the files on disk, or those
    of the workorder when there are none. *)
Definition profile_locations (c : PortageConfig) (repos_conf_base : path) : DIO (list string) :=
  do on_disk <- over_repos_conf (fun m content => m ++ (parse_repo_sections content).*2) repos_conf_base [] ;;
  ret match on_disk with
      | [] => concat (map (fun item => (parse_repo_sections item.2).*2) (btree_items (pc_repos_conf c)))
      | _ => on_disk
      end.

(** [set_profile_inner]: the first of the candidates that is a directory. *)
Fixpoint first_directory (candidates : list string) : DIO (option string) :=
  match candidates with
  | [] => ret None
  | p :: rest => do dir <- path_kind_is IsDir (join_str [] p) ;; if dir : bool then ret (Some p) else first_directory rest
  end.

(** A link, a file or nothing is replaced; a real directory stays. *)
Definition replace_link (target : string) (link_path : path) : DIO unit :=
  try_ (d_symlink_metadata link_path) (fun present =>
  do real_dir <- (if is_ok present then
                    do dir <- path_kind_is IsDir link_path ;;
                    if dir : bool then
                      try_ (d_symlink_metadata link_path) (fun r => ret match r with Ok md => negb (bool_decide (md_kind md = IsLink)) | Err _ => true end)
                    else ret false
                  else ret false) ;;
  if real_dir : bool then ret tt
  else
    (if is_ok present then try_ (d_remove_file link_path) (fun _ => ret tt) else ret tt) ;;
    with_context ("Failed to symlink " +:+ display link_path) (d_symlink (string_bytes target) link_path)).

Definition set_profile_inner (profile : string) (repo_locations : list string) (link_path : path) : DIO unit :=
  if is_empty profile || bool_decide (profile = "unknown") then ret tt
  else
    do found <- first_directory (map (fun loc => loc +:+ "/profiles/" +:+ profile) repo_locations) ;;
    let target := default ("/var/db/repos/gentoo/profiles/" +:+ profile) found in
    do dir <- path_kind_is IsDir (join_str [] target) ;;
    if dir : bool then replace_link target link_path else ret tt.

Definition set_profile (c : PortageConfig) : DIO unit :=
  do locations <- profile_locations c ["etc"; "portage"; "repos.conf"] ;;
  set_profile_inner (pc_profile c) locations ["etc"; "portage"; "make.profile"].
End Restore.

(** ** Copying a tree *)

Definition untimed (n : Node) : Node := match n with DirNode _ => DirNode 0 | n => n end.

Lemma untimed_dir o : (exists t, o = Some (DirNode t)) <-> untimed <$> o = Some (DirNode 0).
Proof. destruct o as [[b t|t|b t]|]; simpl; naive_solver. Qed.

(** Directories that are there are passed over. *)
Lemma make_dirs_skip above t1 t2 t d : tidy (nodes d) -> nodes d !! (above ++ t1) = Some (DirNode t) ->
  make_dirs above (t1 ++ t2) d = make_dirs (above ++ t1) t2 d.
Proof.
  intros Ht. revert above. induction t1 as [|c t1 IH]; intros above Hn; [by rewrite app_nil_r|]. cbn [make_dirs app].
  assert (He : forall q, above ++ c :: q = join above c ++ q) by (intros q; unfold join; by rewrite <- app_assoc). rewrite He in Hn |- *.
  assert (Hd : exists t', nodes d !! join above c = Some (DirNode t')).
  { destruct t1 as [|x t1]; [rewrite app_nil_r in Hn; by eexists|].
    destruct (tidy_above _ _ _ _ _ Ht Hn) as [_ [Hj|Hd]]; [unfold join in Hj; by destruct above|done]. }
  destruct Hd as [t' Hd]. rewrite (find_physical _ true _ _ Ht Hd) by done. by apply IH.
Qed.

(** What [create_dir_all] may change: below [above], the names of [todo] become directories. *)
Record dirs_made (above todo : path) (d d' : Disk) : Prop := {
  dm_quiet : disk_faults d' = [];
  dm_clock : disk_clock d' = disk_clock d;
  dm_tidy : tidy (nodes d');
  dm_dir : forall a, a `prefix_of` todo -> exists t, nodes d' !! (above ++ a) = Some (DirNode t);
  dm_rest : forall p, (forall a, a `prefix_of` todo -> p <> above ++ a) -> nodes d' !! p = nodes d !! p;
}.

Lemma make_dir_step above c todo d t :
  disk_faults d = [] -> tidy (nodes d) -> nodes d !! above = Some (DirNode t) -> file_name_ok c ->
  match nodes d !! join above c with Some (DirNode _) | None => True | _ => False end ->
  exists d1 t1, make_dirs above (c :: todo) d = make_dirs (join above c) todo d1 /\
    disk_faults d1 = [] /\ disk_clock d1 = disk_clock d /\ tidy (nodes d1) /\ nodes d1 !! join above c = Some (DirNode t1) /\
    (exists t2, nodes d1 !! above = Some (DirNode t2)) /\ forall p, p <> above -> p <> join above c -> nodes d1 !! p = nodes d !! p.
Proof.
  intros Hq Ht Hd Hc Hn. cbn [make_dirs]. 
  destruct (nodes d !! join above c) as [[b0 t0|t0|b0 t0]|] eqn:E; try done.
  - exists d, t0. rewrite (find_physical _ true _ _ Ht E) by done. split_and!; try done. by eexists.
  - assert (Hw : forall follow, resolve follow (join above c) (nodes d) = Ok (join above c)).
    { intros follow. unfold resolve, join. destruct Hc as (_ & _ & Hc & _). by rewrite (walk_new _ _ follow [] above c t Ht Hd Hc E). }
    assert (Hne : join above c <> []) by (unfold join; by destruct above).
    assert (Hf : find_node true (join above c) (nodes d) = Err NotFound).
    { unfold find_node. rewrite Hw. cbn [rbind]. unfold node_at. by rewrite E, bool_decide_false. }
    rewrite Hf, Hw, E. eexists _, (disk_clock d). split; [reflexivity|]. simpl.
    assert (Htp : touch_parent (join above c) (disk_clock d) (nodes d) = <[above := DirNode (disk_clock d)]> (nodes d)).
    { unfold touch_parent, join. by rewrite removelast_last, Hd. }
    rewrite Htp. split_and!; try done.
    + rewrite <- Htp. eapply (tidy_insert _ _ _ _ (disk_clock d)); [by apply tidy_touch|done|left; rewrite Htp; apply lookup_insert_eq|].
      rewrite Htp, lookup_insert_ne by apply dir_ne_entry. unfold join in E. by rewrite E.
    + apply lookup_insert_eq.
    + exists (disk_clock d). rewrite lookup_insert_ne, lookup_insert_eq; [done|]. intros He. symmetry in He. by apply dir_ne_entry in He.
    + intros p H1 H2. by rewrite !lookup_insert_ne.
Qed.

Lemma make_dirs_below todo : forall above d t,
  disk_faults d = [] -> tidy (nodes d) -> nodes d !! above = Some (DirNode t) -> Forall file_name_ok todo ->
  (forall a, a `prefix_of` todo -> match nodes d !! (above ++ a) with Some (DirNode _) | None => True | _ => False end) ->
  exists d', make_dirs above todo d = (Ok tt, d') /\ dirs_made above todo d d'.
Proof.
  induction todo as [|c todo IH]; intros above d t Hq Ht Hd Hok Hway.
  { exists d. split; [done|]. constructor; try done. intros a Ha. apply prefix_nil_inv in Ha as ->. rewrite app_nil_r. by eexists. }
  apply Forall_cons in Hok as [Hc Hok].
  assert (Hj : forall a, above ++ c :: a = join above c ++ a) by (intros a; unfold join; by rewrite <- app_assoc).
  destruct (make_dir_step above c todo d t Hq Ht Hd Hc (Hway [c] ltac:(by exists todo))) as (d1 & t1 & -> & Hq1 & Hk1 & Ht1 & Hd1 & Hab & Hr1).
  destruct (IH (join above c) d1 t1 Hq1 Ht1 Hd1 Hok) as (d' & -> & [Hq' Hk' Ht' Hdir' Hr']).
  { intros a Ha. destruct a as [|x a]; [by rewrite app_nil_r, Hd1|]. rewrite <- Hj. rewrite Hr1.
    - apply Hway. destruct Ha as [k ->]. by exists k.
    - intros He. apply (f_equal length) in He. rewrite length_app in He. simpl in He. lia.
    - intros He. apply (f_equal length) in He. unfold join in He. rewrite !length_app in He. simpl in He. lia. }
  exists d'. split; [done|]. constructor; try done; [by rewrite Hk'| |].
  - intros a Ha. destruct a as [|x a].
    + rewrite app_nil_r. destruct Hab as [t2 Hab]. exists t2. rewrite Hr'; [done|]. intros a _ He. apply (f_equal length) in He.
      unfold join in He. rewrite !length_app in He. simpl in He. lia.
    + pose proof (prefix_cons_inv_1 _ _ _ _ Ha) as ->. apply prefix_cons_inv_2 in Ha. rewrite Hj. by apply Hdir'.
  - intros p Hp. rewrite Hr'; [apply Hr1|].
    + intros ->. apply (Hp []); [apply prefix_nil|by rewrite app_nil_r].
    + intros ->. apply (Hp [c]); [by exists todo|done].
    + intros a Ha ->. apply (Hp (c :: a)); [by apply prefix_cons|by rewrite Hj].
Qed.

Lemma create_dir_below above todo d t :
  disk_faults d = [] -> tidy (nodes d) -> nodes d !! above = Some (DirNode t) -> Forall file_name_ok todo ->
  (forall a, a `prefix_of` todo -> match nodes d !! (above ++ a) with Some (DirNode _) | None => True | _ => False end) ->
  exists d', d_create_dir_all (above ++ todo) d = (Ok tt, d') /\ dirs_made above todo d d'.
Proof.
  intros Hq Ht Hd Hok Hway. destruct (make_dirs_below todo above d t Hq Ht Hd Hok Hway) as (d' & Hm & Hdm). exists d'. split; [|done].
  unfold d_create_dir_all, faulty, pop_disk_fault. rewrite Hq. by rewrite (make_dirs_skip [] above todo t d Ht Hd).
Qed.

(** Copying a file into a directory. *)
Lemma copy_quiet src b t0 dir c d t :
  disk_faults d = [] -> tidy (nodes d) -> nodes d !! src = Some (FileNode b t0) -> nodes d !! dir = Some (DirNode t) -> file_name_ok c ->
  src <> dir ++ [c] ->
  match nodes d !! (dir ++ [c]) with None | Some (FileNode _ _) => True | _ => False end ->
  exists d', d_copy src (dir ++ [c]) d = (Ok tt, d') /\ written dir c b d d'.
Proof.
  intros Hq Ht Hs Hd Hc Hne Hn. destruct (create_quiet dir c d t Hq Ht Hd Hc Hn) as (d1 & Hcr & Hw1). unfold d_copy.
  erewrite bind_quiet; cycle 1.
  { unfold d_open_file. rewrite observe_quiet by done. rewrite (find_physical _ true src _ Ht Hs) by done. reflexivity. }
  cbn [fst snd]. fold (join dir c). erewrite bind_quiet by exact Hcr. pose proof Hw1 as [Hq1 _ _ _ _ _ Hr1].
  erewrite bind_quiet; cycle 1.
  { assert (Hs1 : nodes d1 !! src = Some (FileNode b t0)) by (rewrite Hr1; [done|done|]; intros ->; congruence).
    unfold d_read_all. rewrite observe_quiet by done. unfold node_at. rewrite Hs1. reflexivity. }
  by apply (append_written _ _ []).
Qed.

Section CopyTree.
Context `{SetIter, !SetIterLaws} (source target : path) (ns0 : gmap path Node) (clock : Z).

(** What the copy leaves at [rel] below the target: files and directories of the source,
    and otherwise what was there. *)
Definition overlay (rel : path) : option Node :=
  match ns0 !! (source ++ rel) with
  | Some (FileNode b _) => Some (FileNode b clock)
  | Some (DirNode t) => Some (DirNode t)
  | _ => ns0 !! (target ++ rel)
  end.

(** Files go where a file or nothing is, directories where a directory or nothing is. *)
Definition fits_over : Prop := forall rel,
  match ns0 !! (source ++ rel), ns0 !! (target ++ rel) with
  | Some (FileNode _ _), (Some (FileNode _ _) | None) => True
  | Some (DirNode _), (Some (DirNode _) | None) => True
  | (Some (LinkNode _ _) | None), _ => True
  | _, _ => False
  end.

Definition apart (p q : path) : Prop := ~ under p q /\ ~ under q p.

Context (Hsource : exists t, ns0 !! source = Some (DirNode t)) (Htarget : exists t, ns0 !! target = Some (DirNode t)).
Context (Hapart : apart source target) (Hfits : fits_over) (Htidy0 : tidy ns0).

(** Copied, or above something copied: links are not. *)
Definition is_link (n : option Node) : bool := match n with Some (LinkNode _ _) => true | _ => false end.
Definition reached (h : list path) (rel : path) : Prop := Exists (fun q => rel `prefix_of` q /\ is_link (ns0 !! (source ++ q)) = false) h.
#[local] Instance reached_dec h rel : Decision (reached h rel).
Proof. unfold reached. apply _. Defined.
Lemma reached_cons q h rel : reached (q :: h) rel <-> (rel `prefix_of` q /\ is_link (ns0 !! (source ++ q)) = false) \/ reached h rel.
Proof. apply Exists_cons. Qed.

Record copying (h : list path) (d : Disk) : Prop := {
  cy_quiet : disk_faults d = [];
  cy_clock : disk_clock d = clock;
  cy_tidy : tidy (nodes d);
  cy_rest : forall p, ~ under target p -> nodes d !! p = ns0 !! p;
  cy_below : forall rel, untimed <$> nodes d !! (target ++ rel) = untimed <$> (if decide (reached h rel) then overlay rel else ns0 !! (target ++ rel));
}.

Lemma source_same h d rel : copying h d -> nodes d !! (source ++ rel) = ns0 !! (source ++ rel).
Proof.
  intros Hc. apply (cy_rest _ _ Hc). intros [q He]. destruct Hapart as [H1 H2].
  apply app_eq_inv in He as [(k & -> & _)|(k & -> & _)]; [apply H2|apply H1]; by eexists.
Qed.

(** On the way to an entry of the source, the target has directories or nothing. *)
Lemma way_below h d a q n : copying h d -> ns0 !! (source ++ a ++ q) = Some n -> q <> [] ->
  match nodes d !! (target ++ a) with Some (DirNode _) | None => True | _ => False end.
Proof.
  intros Hc Hn Hq. destruct q as [|c q]; [done|]. rewrite app_assoc in Hn.
  assert (Hd : exists t, ns0 !! (source ++ a) = Some (DirNode t)).
  { destruct (tidy_above _ _ _ _ _ Htidy0 Hn) as [_ [He|?]]; [|done]. apply app_eq_nil in He as [-> ->]. exact Hsource. }
  destruct Hd as [t Hd]. pose proof (cy_below _ _ Hc a) as Hb. unfold overlay in Hb. pose proof (Hfits a) as Hf. rewrite Hd in Hb, Hf.
  destruct (decide (reached h a)); destruct (nodes d !! (target ++ a)) as [[]|], (ns0 !! (target ++ a)) as [[]|]; simpl in Hb; try done.
Qed.

Lemma names_ok rel n : ns0 !! (source ++ rel) = Some n -> Forall file_name_ok rel.
Proof.
  intros Hn. apply Forall_forall. intros c Hc. apply list_elem_of_split in Hc as (a & q & ->). rewrite app_assoc in Hn.
  by destruct (tidy_above _ _ _ _ _ Htidy0 Hn).
Qed.

(** The disk when the directories of [dir] have been made below the target. *)
Lemma copying_dirs h d dir d' : copying h d -> dirs_made target dir d d' -> (exists t, ns0 !! (source ++ dir) = Some (DirNode t)) ->
  copying (dir :: h) d'.
Proof.
  intros [Hq Hk Ht Hr Hb] [Hq' Hk' Ht' Hdir' Hr'] [t Hd]. constructor; try done; [by rewrite Hk'| |].
  - intros p Hp. rewrite Hr'; [by apply Hr|]. intros a _ ->. apply Hp. by eexists.
  - intros rel. destruct (decide (rel `prefix_of` dir)) as [Hpre|Hno].
    + rewrite decide_True by (apply reached_cons; left; by rewrite Hd). destruct (Hdir' rel Hpre) as [t' ->]. unfold overlay.
      destruct Hpre as [q ->]. assert (Hs : exists t, ns0 !! (source ++ rel) = Some (DirNode t)).
      { destruct q as [|c q]; [rewrite app_nil_r in Hd; by eexists|]. rewrite app_assoc in Hd.
        destruct (tidy_above _ _ _ _ _ Htidy0 Hd) as [_ [He|?]]; [|done]. apply app_eq_nil in He as [-> ->]. exact Hsource. }
      by destruct Hs as [ts ->].
    + rewrite Hr'.
      * rewrite Hb. f_equal. apply decide_ext. rewrite reached_cons. tauto.
      * intros a Ha He. apply app_inv_head in He. by subst.
Qed.

(** The disk when a file has been copied into its directory. *)
Lemma copying_file h d dir c b t d' : copying (dir :: h) d -> written (target ++ dir) c b d d' ->
  ns0 !! (source ++ dir ++ [c]) = Some (FileNode b t) -> copying ((dir ++ [c]) :: h) d'.
Proof.
  intros [Hq Hk Ht Hr Hb] [Hq' Hk' _ Ht' Hf' [td Hd'] Hr'] Hs.
  assert (exists t, ns0 !! (source ++ dir) = Some (DirNode t)) as [ts Hsd].
  { rewrite app_assoc in Hs. destruct (Htidy0 _ _ _ Hs) as [_ [He|?]]; [|done]. apply app_eq_nil in He as [-> ->]. exact Hsource. }
  assert (Hnot : forall p, ~ under target p -> p <> (target ++ dir) ++ [c] /\ p <> target ++ dir).
  { intros p Hp. split; intros ->; apply Hp; [exists (dir ++ [c]); by rewrite <- app_assoc|by eexists]. }
  constructor; try done; [by rewrite Hk'| |].
  - intros p Hp. destruct (Hnot p Hp). rewrite Hr' by done. by apply Hr.
  - intros rel. destruct (decide (rel = dir ++ [c])) as [->|Hne].
    + rewrite decide_True by (apply reached_cons; left; by rewrite Hs). unfold overlay. rewrite Hs, app_assoc, Hf', Hk. done.
    + assert (Hiff : reached ((dir ++ [c]) :: h) rel <-> reached (dir :: h) rel).
      { rewrite !reached_cons, Hs, Hsd. split; (intros [[Hp _]|?]; [left; split; [|done]|by right]).
        - destruct Hp as [k He]. destruct (exists_last (l := k)) as (k' & x & ->); [intros ->; rewrite app_nil_r in He; by subst|].
          rewrite app_assoc in He. apply app_inj_tail in He as [-> _]. by eexists.
        - by apply prefix_app_r. }
      rewrite (decide_ext _ _ _ _ Hiff), <- Hb. destruct (decide (rel = dir)) as [->|Hnd].
      * rewrite Hd'. symmetry. rewrite Hb, decide_True by (apply reached_cons; left; by rewrite Hsd). unfold overlay. by rewrite Hsd.
      * rewrite Hr'; [done| |]; rewrite <- ?app_assoc; intros He; by apply app_inv_head in He.
Qed.

Lemma copy_entry_total h d rel n : copying h d -> rel <> [] -> ns0 !! (source ++ rel) = Some n ->
  exists d', copy_entry source target tt (source ++ rel) (metadata_of d n) d = (Ok tt, d') /\ copying (rel :: h) d'.
Proof.
  intros Hc Hne Hn. pose proof Hc as [Hq Hk Ht _ _]. destruct (exists_last Hne) as (dir & c & ->).
  assert (Htd : exists t, nodes d !! target = Some (DirNode t)).
  { apply untimed_dir. pose proof (cy_below _ _ Hc []) as Hb. rewrite !app_nil_r in Hb. rewrite Hb. unfold overlay. rewrite !app_nil_r.
    destruct Hsource as [ts ->], Htarget as [tt ->]. by case_decide. }
  destruct Htd as [td Htd]. pose proof (names_ok _ _ Hn) as Hok.
  unfold copy_entry, relative_to. rewrite strip_path_app. unfold lift. rewrite (bind_quiet (fun d => (Ok (dir ++ [c]), d)) _ d _ d eq_refl). cbv zeta.
  destruct n as [b t|t|b t]; cbn [metadata_of md_kind].
  - rewrite bool_decide_false, bool_decide_true by done. cbn [negb].
    destruct (create_dir_below target dir d td Hq Ht Htd) as (d1 & Hm & Hdm); [by apply Forall_app in Hok as [? _]| |].
    { intros a [k ->]. eapply way_below; [done|by rewrite <- app_assoc in Hn|by destruct k]. }
    assert (Hsd : exists t, ns0 !! (source ++ dir) = Some (DirNode t)).
    { rewrite app_assoc in Hn. destruct (Htidy0 _ _ _ Hn) as [_ [He|?]]; [|done]. apply app_eq_nil in He as [-> ->]. exact Hsource. }
    pose proof (copying_dirs _ _ _ _ Hc Hdm Hsd) as Hc1.
    destruct (target ++ dir ++ [c]) as [|x0 dst] eqn:Ed; [by apply app_eq_nil in Ed as [_ [_ ?]%app_eq_nil]|]. rewrite <- Ed.
    assert (Hrl : removelast (target ++ dir ++ [c]) = target ++ dir) by (rewrite app_assoc; apply removelast_last). rewrite Hrl.
    erewrite bind_quiet by (apply context_quiet; exact Hm).
    destruct (dm_dir _ _ _ _ Hdm dir) as [t1 Hd1]; [done|].
    destruct (copy_quiet (source ++ dir ++ [c]) b t (target ++ dir) c d1 t1) as (d2 & Hcp & Hw); try done; try apply Hc1.
    + rewrite (source_same _ _ _ Hc1). done.
    + apply Forall_app in Hok as [_ Hok]. by apply Forall_cons in Hok as [? _].
    + rewrite <- app_assoc. intros He. destruct Hapart as [H1 H2].
      apply app_eq_inv in He as [(k & -> & _)|(k & -> & _)]; [apply H2|apply H1]; by eexists.
    + rewrite <- app_assoc. pose proof (cy_below _ _ Hc1 (dir ++ [c])) as Hb. unfold overlay in Hb. pose proof (Hfits (dir ++ [c])) as Hf.
      rewrite Hn in Hb, Hf. destruct (decide _); destruct (nodes d1 !! (target ++ dir ++ [c])) as [[]|], (ns0 !! (target ++ dir ++ [c])) as [[]|]; simpl in Hb; done.
    + exists d2. split; [apply context_quiet; rewrite (app_assoc target dir [c]); exact Hcp|]. by eapply copying_file.
  - rewrite bool_decide_true by done.
    destruct (create_dir_below target (dir ++ [c]) d td Hq Ht Htd Hok) as (d1 & Hm & Hdm).
    { intros a [k He]. destruct k as [|x k].
      - rewrite app_nil_r in He. subst a. pose proof (cy_below _ _ Hc (dir ++ [c])) as Hb. unfold overlay in Hb. pose proof (Hfits (dir ++ [c])) as Hf.
        rewrite Hn in Hb, Hf. destruct (decide _); destruct (nodes d !! (target ++ dir ++ [c])) as [[]|], (ns0 !! (target ++ dir ++ [c])) as [[]|]; simpl in Hb; done.
      - eapply (way_below _ _ _ (x :: k)); [done|by rewrite <- He|done]. }
    exists d1. split; [apply context_quiet; exact Hm|]. eapply copying_dirs; eauto.
  - rewrite !bool_decide_false by done. cbn [negb]. exists d. split; [done|].
    destruct Hc as [? ? ? ? Hb]. constructor; try done. intros r. rewrite Hb. f_equal. apply decide_ext. rewrite reached_cons, Hn. naive_solver.
Qed.

Lemma copy_reads : reads_dirs copy_walk.
Proof. intros p d t Hq Ht Hd. simpl. by erewrite try_quiet by by eapply read_dir_found. Qed.

Lemma copying_start d : disk_faults d = [] -> disk_clock d = clock -> nodes d = ns0 -> copying [] d.
Proof.
  intros Hq Hk Hn. constructor; try done; [by rewrite Hn..|]. intros rel. rewrite decide_False, Hn; [done|]. by intros Hr%Exists_nil.
Qed.

(** The whole tree is copied: below the target lies the overlay, outside nothing changes. *)
Lemma copy_tree_total d : disk_faults d = [] -> disk_clock d = clock -> nodes d = ns0 ->
  exists d', copy_tree_recursive source target source d = (Ok tt, d') /\ disk_faults d' = [] /\ disk_clock d' = clock /\ tidy (nodes d') /\
    (forall p, ~ under target p -> nodes d' !! p = ns0 !! p) /\
    (forall rel, untimed <$> nodes d' !! (target ++ rel) = untimed <$> overlay rel).
Proof.
  intros Hq Hk Hn. destruct (walk_total copy_walk (copy_entry source target) source ns0 (fun h _ d => copying h d) tt d)
    as (h & [] & d' & Hw & [Hq' Hk' Ht' Hr' Hb'] & Hh).
  - exact copy_reads.
  - intros h m d1 Hc. split_and!; [apply Hc|apply Hc|]. intros p. by eapply source_same.
  - intros h [] d1 rel n Hc Hne _ Hnode. destruct (copy_entry_total h d1 rel n Hc Hne Hnode) as (d2 & He & Hc2). by exists tt, d2.
  - unfold is_dir_at. rewrite app_nil_r. exact Hsource.
  - by apply copying_start.
  - exists d'. split_and!; try done. intros rel. rewrite Hb'. case_decide as Hreach; [done|]. unfold overlay.
    assert (Hno : rel <> [] -> is_link (ns0 !! (source ++ rel)) = false -> ns0 !! (source ++ rel) = None).
    { intros Hne Hl. destruct (ns0 !! (source ++ rel)) as [n|] eqn:E; [|done]. destruct Hreach. apply Exists_exists. exists rel.
      split; [apply Hh; split; [done|by eexists]|split; [done|by rewrite E]]. }
    destruct rel as [|c rel].
    + rewrite !app_nil_r. destruct Hsource as [ts ->], Htarget as [t' ->]. done.
    + destruct (ns0 !! (source ++ c :: rel)) as [[]|] eqn:E; try done; by specialize (Hno ltac:(done) eq_refl).
Qed.
End CopyTree.

(** ** The loops over directories *)

Lemma for_entries_total {M} (f : M -> string -> DIO M) (P : list string -> M -> Disk -> Prop) names h0 m d :
  (forall h m d, P h m d -> disk_faults d = []) ->
  (forall h m d n, P h m d -> n ∈ names -> n ∉ h -> exists m' d', f m n d = (Ok m', d') /\ P (n :: h) m' d') ->
  NoDup names -> (forall n, n ∈ names -> n ∉ h0) -> P h0 m d ->
  exists h m' d', for_entries f names m d = (Ok m', d') /\ P h m' d' /\ forall n, n ∈ h <-> n ∈ h0 \/ n ∈ names.
Proof.
  intros Hquiet. revert h0 m d. induction names as [|n names IH]; intros h0 m d Hstep Hnd Hfresh HP; cbn [for_entries].
  - erewrite try_quiet by (by eapply next_entry_found, Hquiet). exists h0, m, d. split_and!; [done|done|]. intros n. rewrite elem_of_nil. tauto.
  - erewrite try_quiet by (by eapply next_entry_found, Hquiet). apply NoDup_cons in Hnd as [Hn Hnd].
    destruct (Hstep h0 m d n HP (list_elem_of_here _ _)) as (m1 & d1 & Hf & HP1); [by apply Hfresh, list_elem_of_here|].
    erewrite bind_quiet by exact Hf. destruct (IH (n :: h0) m1 d1) as (h & m' & d' & He & HP' & Hh); [|done| |done|].
    + intros h m2 d2 x HP2 Hx. apply Hstep; [done|by apply list_elem_of_further].
    + intros x Hx. rewrite not_elem_of_cons. split; [by intros ->|by apply Hfresh, list_elem_of_further].
    + exists h, m', d'. split_and!; [done|done|]. intros x. rewrite Hh, !elem_of_cons. tauto.
Qed.

Lemma path_kind_found {E} k p d n : disk_faults d = [] -> tidy (nodes d) -> nodes d !! p = Some n -> (forall b t, n <> LinkNode b t) ->
  @path_kind_is E k p d = (Ok (bool_decide (md_kind (metadata_of d n) = k)), d).
Proof. intros Hq Ht Hn Hl. unfold path_kind_is. by erewrite try_quiet by (by apply (stat_found true)). Qed.

(** Reading [repos.conf] changes nothing. *)
Lemma path_kind_quiet {E} k p d : disk_faults d = [] -> exists b, @path_kind_is E k p d = (Ok b, d).
Proof. intros Hq. unfold path_kind_is. erewrite try_quiet by (unfold d_metadata; by rewrite observe_quiet). eexists. reflexivity. Qed.
Lemma read_text_quiet {E} text_of p d : disk_faults d = [] -> exists o, @read_text text_of E p d = (Ok o, d).
Proof.
  intros Hq. unfold read_text, d_read, d_open, d_read_all. unfold try_, bind. rewrite observe_quiet by done. destruct (rbind _ _).
  - rewrite observe_quiet by done. eexists. reflexivity.
  - eexists. reflexivity.
Qed.

Lemma over_repos_conf_quiet `{SetIter, !SetIterLaws} text_of {M} (f : M -> string -> M) base m d : disk_faults d = [] ->
  exists m', over_repos_conf text_of f base m d = (Ok m', d).
Proof.
  intros Hq. unfold over_repos_conf. erewrite try_quiet by (unfold d_read_dir; by rewrite observe_quiet).
  destruct (rbind _ _) as [names|e] eqn:E; [|by exists m].
  assert (Hnames : NoDup names).
  { destruct (find_node true base (nodes d)) as [[q []]|]; simplify_eq/=. apply NoDup_set_iter. }
  destruct (for_entries_total (fun m name =>
      let p := join base name in
      do file <- path_kind_is IsFile p ;;
      if file : bool then
        do content <- read_text text_of p ;;
        ret match content with Some content => f m content | None => m end
      else ret m) (fun _ _ d' => d' = d) names [] m d) as (h & m' & d' & He & -> & _).
  - by intros h m1 d1 ->.
  - intros h m1 d1 n -> _ _. cbv zeta. destruct (path_kind_quiet (E := Error) IsFile (join base n) d Hq) as [[] Hk]; erewrite bind_quiet by exact Hk.
    + destruct (read_text_quiet (E := Error) text_of (join base n) d Hq) as [o Ho]. erewrite bind_quiet by exact Ho. eexists _, d. split; [reflexivity|done].
    + by exists m1, d.
  - done.
  - intros n _. apply not_elem_of_nil.
  - done.
  - by exists m'.
Qed.

(** ** What is restored *)

Lemma apart_sym p q : apart p q -> apart q p.
Proof. unfold apart. tauto. Qed.
Lemma apart_below p x q : apart p q -> apart (p ++ x) q.
Proof.
  intros [H1 H2]. split; intros [k He].
  - apply H1. exists (x ++ k). by rewrite app_assoc.
  - apply app_eq_inv in He as [(k' & -> & _)|(k' & -> & _)]; [apply H2|apply H1]; by eexists.
Qed.
Lemma apart_not_under p q x : apart p q -> ~ under q (p ++ x).
Proof. intros Ha. by destruct (apart_below p x q Ha). Qed.

Section Restored.
Context `{SetIter, !SetIterLaws} (text_of : bytes -> option string).
Context (repos_conf distfiles staged : path) (locations : gmap string string) (d0 : Disk).

Let ns0 := nodes d0.
Let repos := join staged "repos".
Let staged_dist := join staged "distfiles".

(** The directory over which the staged repository [name] goes. *)
Definition restored_to (name : string) : option path :=
  match ns0 !! (repos ++ [name]), locations !! name with
  | Some (DirNode _), Some location => Some (join_str [] location)
  | _, _ => None
  end.
Definition restored_dist (f : string) (b : bytes) : Prop :=
  is_valid_distfile_basename f = true /\ exists t, ns0 !! (staged_dist ++ [f]) = Some (FileNode b t).

(** An orderly disk: what is staged holds no links at its top, the locations are
    directories, apart from each other, from the staging area and from the distfiles, and
    what is staged fits over what is there. *)
Record restorable : Prop := {
  rs_quiet : disk_faults d0 = [];
  rs_tidy : tidy ns0;
  rs_repos : exists t, ns0 !! repos = Some (DirNode t);
  rs_dist : exists t, ns0 !! staged_dist = Some (DirNode t);
  rs_base : exists t, ns0 !! distfiles = Some (DirNode t);
  rs_plain : forall c b t, ns0 !! (repos ++ [c]) <> Some (LinkNode b t) /\ ns0 !! (staged_dist ++ [c]) <> Some (LinkNode b t);
  rs_loc : forall name target, restored_to name = Some target ->
    (exists t, ns0 !! target = Some (DirNode t)) /\ apart staged target /\ apart target distfiles /\ fits_over (repos ++ [name]) target ns0;
  rs_apart : forall n1 n2 t1 t2, restored_to n1 = Some t1 -> restored_to n2 = Some t2 -> n1 <> n2 -> apart t1 t2;
  rs_dist_apart : apart staged distfiles;
  rs_dist_fits : forall f b, restored_dist f b -> match ns0 !! (distfiles ++ [f]) with None | Some (FileNode _ _) => True | _ => False end;
}.
Context (Hrs : restorable).

(** After the repositories [h]. *)
Record repos_done (h : list string) (d : Disk) : Prop := {
  rd_quiet : disk_faults d = [];
  rd_clock : disk_clock d = disk_clock d0;
  rd_tidy : tidy (nodes d);
  rd_repo : forall name target rel, name ∈ h -> restored_to name = Some target ->
    untimed <$> nodes d !! (target ++ rel) = untimed <$> overlay (repos ++ [name]) target ns0 (disk_clock d0) rel;
  rd_rest : forall p, (forall name target, name ∈ h -> restored_to name = Some target -> ~ under target p) -> nodes d !! p = ns0 !! p;
}.

Lemma repos_below_staged name rel : (repos ++ [name]) ++ rel = staged ++ "repos" :: name :: rel.
Proof. unfold repos, join. by rewrite <- !app_assoc. Qed.

Lemma staged_kept h d x : repos_done h d -> nodes d !! (staged ++ x) = ns0 !! (staged ++ x).
Proof.
  intros Hd. apply (rd_rest _ _ Hd). intros name target _ Ht. apply apart_not_under. by destruct (rs_loc Hrs _ _ Ht) as (_ & ? & _).
Qed.

Lemma restore_repo_total h d name : repos_done h d -> name ∉ h -> is_Some (ns0 !! (repos ++ [name])) ->
  exists d', restore_repo locations repos tt name d = (Ok tt, d') /\ repos_done (name :: h) d'.
Proof.
  intros Hd Hfresh [n Hn]. pose proof Hd as [Hq Hk Ht Hrep Hrest]. unfold restore_repo. cbv zeta. unfold join at 1 2. fold (join repos name).
  assert (Hnode : nodes d !! join repos name = Some n).
  { rewrite <- Hn. unfold join, repos, join. rewrite <- app_assoc. by eapply staged_kept. }
  erewrite bind_quiet; cycle 1.
  { eapply path_kind_found; [done|done|exact Hnode|]. intros b t ->. by destruct (rs_plain Hrs name b t). }
  assert (Hskip : restored_to name = None -> repos_done (name :: h) d).
  { intros Hno. constructor; try done.
    - intros x target rel Hx Hto. apply elem_of_cons in Hx as [->|Hx]; [congruence|]. by apply Hrep.
    - intros p Hp. apply Hrest. intros x target Hx. apply Hp. by apply list_elem_of_further. }
  case_bool_decide as Hdir; [|exists d; split; [done|apply Hskip; unfold restored_to; rewrite Hn; by destruct n]].
  destruct n as [|tn|]; try done. destruct (locations !! name) as [location|] eqn:El; [|exists d; split; [done|apply Hskip; unfold restored_to; by rewrite Hn, El]].
  assert (Hto : restored_to name = Some (join_str [] location)) by (unfold restored_to; by rewrite Hn, El).
  set (target := join_str [] location) in *. destruct (rs_loc Hrs _ _ Hto) as ([tt Htar] & Hst & _ & Hfit).
  assert (Hsrc : forall rel, nodes d !! ((repos ++ [name]) ++ rel) = ns0 !! ((repos ++ [name]) ++ rel)) by (intros rel; rewrite repos_below_staged; by eapply staged_kept).
  assert (Htgt : forall rel, nodes d !! (target ++ rel) = ns0 !! (target ++ rel)).
  { intros rel. apply Hrest. intros x tx Hx Hxt. apply apart_not_under. apply (rs_apart Hrs name x); [done|done|]. by intros ->. }
  destruct (copy_tree_total (repos ++ [name]) target (nodes d) (disk_clock d0)) with (d := d) as (d' & Hcp & Hq' & Hk' & Ht' & Hr' & Hb'); try done.
  - exists tn. rewrite <- (app_nil_r (repos ++ [name])), Hsrc, app_nil_r. done.
  - exists tt. rewrite <- (app_nil_r target), Htgt, app_nil_r. done.
  - unfold repos, join. rewrite <- app_assoc. by apply apart_below.
  - intros rel. rewrite Hsrc, Htgt. apply Hfit.
  - exists d'. split; [exact Hcp|]. constructor; try done.
    + intros x tx rel Hx Hxt. apply elem_of_cons in Hx as [->|Hx].
      * rewrite Hto in Hxt. injection Hxt as <-. rewrite Hb'. unfold overlay. by rewrite Hsrc, Htgt.
      * rewrite Hr'; [by apply Hrep|]. apply apart_not_under. apply (rs_apart Hrs x name); [done|done|]. by intros ->.
    + intros p Hp. rewrite Hr'; [apply Hrest|apply (Hp name); [apply list_elem_of_here|done]].
      intros x tx Hx. apply Hp. by apply list_elem_of_further.
Qed.

(** After the repositories all of which are done, and the distfiles [h]. *)
Record dist_done (ns1 : gmap path Node) (h : list string) (d : Disk) : Prop := {
  dd_quiet : disk_faults d = [];
  dd_clock : disk_clock d = disk_clock d0;
  dd_tidy : tidy (nodes d);
  dd_base : exists t, nodes d !! distfiles = Some (DirNode t);
  dd_file : forall f b, f ∈ h -> restored_dist f b -> nodes d !! (distfiles ++ [f]) = Some (FileNode b (disk_clock d0));
  dd_rest : forall p, p <> distfiles -> (forall f b, f ∈ h -> restored_dist f b -> p <> distfiles ++ [f]) -> nodes d !! p = ns1 !! p;
}.

Lemma restore_distfile_total ns1 h d f :
  (forall x, ns1 !! (staged ++ x) = ns0 !! (staged ++ x)) -> (forall x, ns1 !! (distfiles ++ x) = ns0 !! (distfiles ++ x)) ->
  dist_done ns1 h d -> f ∉ h -> is_Some (ns0 !! (staged_dist ++ [f])) ->
  exists d', restore_distfile staged_dist distfiles tt f d = (Ok tt, d') /\ dist_done ns1 (f :: h) d'.
Proof.
  intros Hst Hdi Hd Hfresh [n Hn]. pose proof Hd as [Hq Hk Ht [tb Hbase] Hfile Hrest]. unfold restore_distfile. cbv zeta.
  assert (Hout : forall x g, staged_dist ++ x <> distfiles ++ g).
  { intros x g He. unfold staged_dist, join in He. rewrite <- app_assoc in He. apply (apart_not_under staged distfiles ("distfiles" :: x) (rs_dist_apart Hrs)).
    exists g. exact He. }
  assert (Hnode : nodes d !! join staged_dist f = Some n).
  { unfold join at 1. rewrite Hrest.
    - rewrite <- Hn. unfold staged_dist, join. rewrite <- !app_assoc. apply Hst.
    - rewrite <- (app_nil_r distfiles). apply Hout.
    - intros g b _ _. apply Hout. }
  erewrite bind_quiet; cycle 1.
  { eapply path_kind_found; [done|done|exact Hnode|]. intros b t ->. by destruct (rs_plain Hrs f b t). }
  destruct (bool_decide (md_kind (metadata_of d n) = IsFile) && is_valid_distfile_basename f) eqn:Ec.
  - apply andb_true_iff in Ec as [Hv' Hv]. apply bool_decide_eq_true in Hv'. destruct n as [b t| |]; try done.
    assert (Hrd : restored_dist f b) by (split; [done|by eexists]).
    destruct (copy_quiet (join staged_dist f) b t distfiles f d tb) as (d' & Hcp & [Hq' Hk' _ Ht' Hf' Hd' Hr']); try done.
    + apply (tidy_above _ _ _ [] _ (rs_tidy Hrs) Hn).
    + apply Hout.
    + pose proof (rs_dist_fits Hrs f b Hrd) as Hfit. rewrite Hrest, Hdi; [done| |].
      * intros He. symmetry in He. by apply dir_ne_entry in He.
      * intros g b' Hg _ He. apply app_inv_head in He. by simplify_eq.
    + exists d'. split; [apply context_quiet; exact Hcp|]. constructor; try done; [by rewrite Hk'| |].
      * intros g b' Hg Hrg. destruct (decide (g = f)) as [->|Hne].
        -- assert (b' = b) as -> by (destruct Hrg as [_ [t' Hg']]; rewrite Hn in Hg'; by injection Hg'). by rewrite Hf', Hk.
        -- apply elem_of_cons in Hg as [?|Hg]; [done|]. rewrite Hr'; [by apply Hfile| |].
           ++ intros He. apply app_inv_head in He. by simplify_eq.
           ++ intros He. symmetry in He. by apply dir_ne_entry in He.
      * intros p Hp Hpf. rewrite Hr'; [apply Hrest; [done|]|by eapply Hpf; [apply list_elem_of_here|]|done].
        intros g b' Hg. apply Hpf. by apply list_elem_of_further.
  - assert (Hno : forall b, ~ restored_dist f b).
    { intros b [Hv [t Hb]]. rewrite Hn in Hb. injection Hb as ->. by rewrite Hv in Ec. }
    exists d. split; [done|]. constructor; try done; [by eexists| |].
    + intros g b Hg Hrg. apply elem_of_cons in Hg as [->|Hg]; [by apply Hno in Hrg|by apply Hfile].
    + intros p Hp Hpf. apply Hrest; [done|]. intros g b Hg. apply Hpf. by apply list_elem_of_further.
Qed.

(** The two loops. *)
Lemma restore_repos_total : exists d1 h,
  try_ (d_read_dir repos) (fun r => match r with
    | Ok names => for_entries (restore_repo locations repos) names tt
    | Err _ => ret tt
    end) d0 = (Ok tt, d1) /\ repos_done h d1 /\ (forall name target, restored_to name = Some target -> name ∈ h).
Proof.
  pose proof Hrs as [Hq Ht [tr Hr] _ _ _ _ _ _ _].
  destruct (for_entries_total (restore_repo locations repos) (fun h _ d => repos_done h d) (set_iter (child_names ns0 repos)) [] tt d0)
    as (h & [] & d1 & Hf & Hd & Hh).
  - by intros h m d [? _ _ _ _].
  - intros h [] d n Hrd Hn Hfresh. apply elem_of_set_iter, elem_of_child_names in Hn.
    destruct (restore_repo_total h d n Hrd Hfresh Hn) as (d' & He & Hrd'). by exists tt, d'.
  - apply NoDup_set_iter.
  - intros n _. apply not_elem_of_nil.
  - constructor; try done. intros name target rel Hn. by apply elem_of_nil in Hn.
  - exists d1, h. split_and!; [erewrite try_quiet by (by eapply read_dir_found); exact Hf|done|].
    intros name target Hto. apply Hh. right. apply elem_of_set_iter, elem_of_child_names. unfold restored_to in Hto.
    destruct (ns0 !! (repos ++ [name])) as [n|]; [by eexists|done].
Qed.

Lemma distfiles_kept h d x : repos_done h d -> nodes d !! (distfiles ++ x) = ns0 !! (distfiles ++ x).
Proof.
  intros Hd. apply (rd_rest _ _ Hd). intros name target _ Hto. apply apart_not_under, apart_sym. by destruct (rs_loc Hrs _ _ Hto) as (_ & _ & ? & _).
Qed.

Lemma restore_dist_total d1 h : repos_done h d1 -> exists d2 h2,
  try_ (d_read_dir staged_dist) (fun r => match r with
    | Ok names =>
        with_context ("Failed to create distfiles dir " +:+ display distfiles) (d_create_dir_all distfiles) ;;
        for_entries (restore_distfile staged_dist distfiles) names tt
    | Err _ => ret tt
    end) d1 = (Ok tt, d2) /\ dist_done (nodes d1) h2 d2 /\ (forall f b, restored_dist f b -> f ∈ h2).
Proof.
  intros Hd1. pose proof Hrs as [_ _ _ [td Hd] [tb Hb] _ _ _ _ _]. pose proof Hd1 as [Hq1 Hk1 Ht1 _ _].
  assert (Hst : forall x, nodes d1 !! (staged ++ x) = ns0 !! (staged ++ x)) by (intros x; by eapply staged_kept).
  assert (Hdi : forall x, nodes d1 !! (distfiles ++ x) = ns0 !! (distfiles ++ x)) by (intros x; by eapply distfiles_kept).
  assert (Hsd : forall x, nodes d1 !! (staged_dist ++ x) = ns0 !! (staged_dist ++ x)) by (intros x; unfold staged_dist, join; rewrite <- app_assoc; apply Hst).
  assert (Hb1 : nodes d1 !! distfiles = Some (DirNode tb)) by (rewrite <- (app_nil_r distfiles), Hdi, app_nil_r; done).
  assert (Hd1' : nodes d1 !! staged_dist = Some (DirNode td)) by (rewrite <- (app_nil_r staged_dist), Hsd, app_nil_r; done).
  destruct (for_entries_total (restore_distfile staged_dist distfiles) (fun h _ d => dist_done (nodes d1) h d) (set_iter (child_names (nodes d1) staged_dist)) [] tt d1)
    as (h2 & [] & d2 & Hf & Hd2 & Hh).
  - by intros h2 m d [? _ _ _ _ _].
  - intros h2 [] d n Hdd Hn Hfresh. apply elem_of_set_iter, elem_of_child_names in Hn. rewrite Hsd in Hn.
    destruct (restore_distfile_total (nodes d1) h2 d n Hst Hdi Hdd Hfresh Hn) as (d' & He & Hdd'). by exists tt, d'.
  - apply NoDup_set_iter.
  - intros n _. apply not_elem_of_nil.
  - constructor; try done; [by eexists|]. intros f b Hn. by apply elem_of_nil in Hn.
  - exists d2, h2. split_and!; [|done|].
    + erewrite try_quiet by (by eapply read_dir_found). cbv beta iota. erewrite bind_quiet by (apply context_quiet; by eapply create_dir_there). exact Hf.
    + intros f b [_ [t Hf']]. apply Hh. right. apply elem_of_set_iter, elem_of_child_names. rewrite Hsd. by eexists.
Qed.
End Restored.

Lemma read_repo_locations_quiet `{SetIter, !SetIterLaws} text_of base d : disk_faults d = [] ->
  exists locations, read_repo_locations text_of base d = (Ok locations, d).
Proof. intros Hq. by apply over_repos_conf_quiet. Qed.

(** C11. On an orderly disk the worker restores exactly what was staged.  Every staged
    repository whose name has a location in [repos.conf] lies over that location - its files
    with their contents, its directories, and beside them what the location held before -;
    every staged distfile with a proper name is in the distfiles directory; and nothing else
    on the disk changes but times of directories. *)
Theorem restore_staged_exact `{SetIter, !SetIterLaws} text_of repos_conf distfiles staged locations d :
  fst (read_repo_locations text_of repos_conf d) = Ok locations ->
  restorable distfiles staged locations d ->
  exists d', restore_staged_snapshots_inner text_of repos_conf distfiles staged d = (Ok tt, d') /\
    (forall name target rel, restored_to staged locations d name = Some target ->
       untimed <$> nodes d' !! (target ++ rel) =
       untimed <$> overlay (join staged "repos" ++ [name]) target (nodes d) (disk_clock d) rel) /\
    (forall f b, restored_dist staged d f b -> nodes d' !! (distfiles ++ [f]) = Some (FileNode b (disk_clock d))) /\
    (forall p, (forall name target, restored_to staged locations d name = Some target -> ~ under target p) ->
       (forall f b, restored_dist staged d f b -> p <> distfiles ++ [f]) ->
       untimed <$> nodes d' !! p = untimed <$> nodes d !! p).
Proof.
  intros Hloc Hrs. destruct (read_repo_locations_quiet text_of repos_conf d (rs_quiet _ _ _ _ Hrs)) as [locs Hread].
  rewrite Hread in Hloc. injection Hloc as ->.
  destruct (restore_repos_total distfiles staged locations d Hrs) as (d1 & h & H1 & Hd1 & Hh).
  destruct (restore_dist_total distfiles staged locations d Hrs d1 h Hd1) as (d2 & h2 & H2 & [_ _ _ [t2 Hb2] Hf2 Hr2] & Hh2).
  pose proof Hrs as [_ _ _ _ [tb Hb] _ Hlocs _ _ _]. exists d2. split_and!.
  - unfold restore_staged_snapshots_inner. erewrite bind_quiet by exact Hread. cbv zeta. by erewrite bind_quiet by exact H1.
  - intros name target rel Hto. rewrite <- (rd_repo _ _ _ _ _ Hd1 name target rel (Hh _ _ Hto) Hto). f_equal.
    destruct (Hlocs _ _ Hto) as (_ & _ & Ha & _). apply Hr2.
    + intros He. apply (apart_not_under target distfiles rel Ha). exists []. by rewrite app_nil_r.
    + intros f b _ _ He. apply (apart_not_under target distfiles rel Ha). by exists [f].
  - intros f b Hf. apply Hf2; [by eapply Hh2|done].
  - intros p Hp Hpf. destruct (decide (p = distfiles)) as [->|Hne]; [rewrite Hb2, Hb; done|].
    rewrite Hr2; [|done|intros f b _; apply Hpf]. f_equal. apply (rd_rest _ _ _ _ _ Hd1). intros name target _. apply Hp.
Qed.

(** ** The profile *)

(** A link at [dir/c] is made, in place of a file or a link that was there. *)
Lemma symlink_quiet dir c target d t : target <> [] ->
  disk_faults d = [] -> tidy (nodes d) -> nodes d !! dir = Some (DirNode t) -> file_name_ok c -> nodes d !! (dir ++ [c]) = None ->
  exists d', d_symlink target (dir ++ [c]) d = (Ok tt, d') /\ nodes d' !! (dir ++ [c]) = Some (LinkNode target (disk_clock d)) /\
    tidy (nodes d') /\ disk_faults d' = [] /\ (exists t', nodes d' !! dir = Some (DirNode t')) /\
    forall q, q <> dir -> q <> dir ++ [c] -> nodes d' !! q = nodes d !! q.
Proof.
  intros Hne Hq Ht Hd Hok Hn. pose proof Hok as (_ & _ & Hc & _). unfold d_symlink, faulty, pop_disk_fault. rewrite Hq. destruct target as [|x target]; [done|].
  unfold resolve. rewrite (walk_new _ _ false [] dir c t Ht Hd Hc Hn). cbn [app]. unfold node_at. rewrite Hn, bool_decide_false by (by destruct dir).
  assert (Htp : touch_parent (dir ++ [c]) (disk_clock d) (nodes d) = <[dir := DirNode (disk_clock d)]> (nodes d)) by (unfold touch_parent; by rewrite removelast_last, Hd).
  eexists. split; [reflexivity|]. simpl. split_and!; [apply lookup_insert_eq| |done| |].
  - eapply (tidy_insert _ _ _ _ (disk_clock d)); [by apply tidy_touch|done|left; rewrite Htp; apply lookup_insert_eq|].
    rewrite Htp, lookup_insert_ne by apply dir_ne_entry. by rewrite Hn.
  - exists (disk_clock d). rewrite lookup_insert_ne, Htp, lookup_insert_eq; [done|]. intros He. symmetry in He. by apply dir_ne_entry in He.
  - intros q H1 H2. by rewrite lookup_insert_ne, Htp, lookup_insert_ne.
Qed.

Lemma disk_remove_quiet dir c d t n : disk_faults d = [] -> tidy (nodes d) -> nodes d !! dir = Some (DirNode t) ->
  nodes d !! (dir ++ [c]) = Some n -> (forall t, n <> DirNode t) ->
  exists d' t', d_remove_file (dir ++ [c]) d = (Ok tt, d') /\ disk_faults d' = [] /\ disk_clock d' = disk_clock d /\ tidy (nodes d') /\
    nodes d' !! dir = Some (DirNode t') /\ nodes d' !! (dir ++ [c]) = None /\
    forall q, q <> dir -> q <> dir ++ [c] -> nodes d' !! q = nodes d !! q.
Proof.
  intros Hq Ht Hd Hn Hnd. unfold d_remove_file, faulty, pop_disk_fault. rewrite Hq, (find_physical _ false _ _ Ht Hn) by done.
  assert (Htp : touch_parent (dir ++ [c]) (disk_clock d) (nodes d) = <[dir := DirNode (disk_clock d)]> (nodes d)) by (unfold touch_parent; by rewrite removelast_last, Hd).
  exists (drop_entry (dir ++ [c]) d), (disk_clock d). split; [destruct n as [| t0 |]; [done|by destruct (Hnd t0)|done]|]. simpl.
  pose proof (tidy_touch _ (dir ++ [c]) (disk_clock d) Ht) as Ht'. rewrite Htp in Ht' |- *. split_and!; try done.
  - intros p x m Hp. apply lookup_delete_Some in Hp as [_ Hp]. destruct (Ht' _ _ _ Hp) as [Hx [?|[t' Hp']]]; split; try done; [by left|right].
    exists t'. rewrite lookup_delete_ne; [done|]. intros <-. rewrite lookup_insert_ne, Hn in Hp' by apply dir_ne_entry. injection Hp' as ->. by apply (Hnd t').
  - rewrite lookup_delete_ne, lookup_insert_eq; [done|]. intros He. symmetry in He. by apply dir_ne_entry in He.
  - apply lookup_delete_eq.
  - intros q H1 H2. by rewrite lookup_delete_ne, lookup_insert_ne by done.
Qed.

Lemma replace_link_total dir c target d t : target <> "" ->
  disk_faults d = [] -> tidy (nodes d) -> nodes d !! dir = Some (DirNode t) -> file_name_ok c ->
  match nodes d !! (dir ++ [c]) with Some (DirNode _) => False | _ => True end ->
  exists d', replace_link target (dir ++ [c]) d = (Ok tt, d') /\ nodes d' !! (dir ++ [c]) = Some (LinkNode (string_bytes target) (disk_clock d)).
Proof.
  intros Hne Hq Ht Hd Hc Hn. assert (Hb : string_bytes target <> []) by (destruct target; done). pose proof Hc as (_ & _ & Hc' & _).
  unfold replace_link. destruct (nodes d !! (dir ++ [c])) as [n|] eqn:E.
  - assert (Hnd : forall t, n <> DirNode t) by (by intros t0 ->).
    erewrite try_quiet by (by eapply (stat_found false)). cbn [is_ok].
    destruct (path_kind_quiet (E := Error) IsDir (dir ++ [c]) d Hq) as [b Hk].
    destruct (disk_remove_quiet dir c d t n Hq Ht Hd E Hnd) as (d1 & t1 & Hrm & Hq1 & Hk1 & Ht1 & Hd1 & Hn1 & _).
    destruct (symlink_quiet dir c (string_bytes target) d1 t1 Hb Hq1 Ht1 Hd1 Hc Hn1) as (d2 & Hs & Hl & _). rewrite Hk1 in Hl.
    exists d2. split; [|done]. rewrite (bind_quiet _ _ d false d); cycle 1.
    { erewrite bind_quiet by exact Hk. destruct b; [|done]. erewrite try_quiet by (by eapply (stat_found false)).
      destruct n as [b0 t0|t0|b0 t0]; [|by destruct (Hnd t0)|done]. exfalso. unfold path_kind_is in Hk.
      erewrite try_quiet in Hk by (by eapply (stat_found true)). done. }
    erewrite bind_quiet by (by erewrite try_quiet by exact Hrm). apply context_quiet. exact Hs.
  - assert (Hst : d_symlink_metadata (dir ++ [c]) d = (Err NotFound, d)).
    { unfold d_symlink_metadata. rewrite observe_quiet by done. unfold find_node, resolve. rewrite (walk_new _ _ false [] dir c t Ht Hd Hc' E).
      cbn [rbind app]. unfold node_at. by rewrite E, bool_decide_false by (by destruct dir). }
    erewrite try_quiet by exact Hst. cbn [is_ok]. rewrite (bind_quiet _ _ d false d) by done. rewrite (bind_quiet _ _ d tt d) by done.
    destruct (symlink_quiet dir c (string_bytes target) d t Hb Hq Ht Hd Hc E) as (d2 & Hs & Hl & _). exists d2. split; [apply context_quiet; exact Hs|done].
Qed.

(** Which profile [set_profile_inner] links is what [profile_target] says of the directories
    on the disk; without one nothing changes. *)
Definition dir_on (d : Disk) (p : string) : bool := match find_node true (join_str [] p) (nodes d) with Ok (_, DirNode _) => true | _ => false end.

Lemma path_kind_dir {E} d p : disk_faults d = [] -> @path_kind_is E IsDir (join_str [] p) d = (Ok (dir_on d p), d).
Proof.
  intros Hq. unfold path_kind_is, dir_on. erewrite try_quiet by (unfold d_metadata; by rewrite observe_quiet).
  by destruct (find_node true (join_str [] p) (nodes d)) as [[q []]|].
Qed.
Lemma first_directory_total cs d : disk_faults d = [] -> first_directory cs d = (Ok (List.find (dir_on d) cs), d).
Proof.
  intros Hq. induction cs as [|p cs IH]; [done|]. cbn [first_directory List.find]. erewrite bind_quiet by (by apply path_kind_dir).
  by destruct (dir_on d p).
Qed.

Lemma set_profile_refines profile locations link d : disk_faults d = [] ->
  set_profile_inner profile locations link d =
  match profile_target (dir_on d) profile locations with Some target => replace_link target link d | None => (Ok tt, d) end.
Proof.
  intros Hq. unfold set_profile_inner, profile_target. destruct (is_empty profile || _); [done|].
  erewrite bind_quiet by (by apply first_directory_total). cbv zeta. erewrite bind_quiet by (by apply path_kind_dir).
  by destruct (dir_on d _).
Qed.

(** ** An example *)

Definition fitsb (ns : gmap path Node) (source target : path) (l : list (path * Node)) : bool :=
  forallb (fun x =>
    match strip_path source (fst x) with
    | None => true
    | Some rel =>
        match snd x, ns !! (target ++ rel) with
        | FileNode _ _, (Some (FileNode _ _) | None) | DirNode _, (Some (DirNode _) | None) | LinkNode _ _, _ => true
        | _, _ => false
        end
    end) l.

Lemma fitsb_ok l source target : fitsb (list_to_map l) source target l = true -> fits_over source target (list_to_map l).
Proof.
  unfold fitsb. rewrite forallb_forall. intros Hl rel. destruct (list_to_map l !! (source ++ rel)) as [n|] eqn:E; [|done].
  apply elem_of_list_to_map_2, list_elem_of_In, Hl in E. cbn [fst snd] in E. rewrite strip_path_app in E.
  by destruct n, (list_to_map (M := gmap path Node) l !! (target ++ rel)) as [[]|].
Qed.

(** A staged repository with a location, one without, and two staged distfiles of which one
    has a blank name. *)
Definition staged_tree : list (path * Node) := [
  (["conf"], DirNode 1); (["conf"; "gentoo.conf"], FileNode (string_bytes ("[gentoo]" +:+ newline_str +:+ "location = /repos/gentoo" +:+ newline_str)) 1);
  (["repos"], DirNode 1); (["repos"; "gentoo"], DirNode 1); (["repos"; "gentoo"; "old"], FileNode [] 1);
  (["repos"; "gentoo"; "eclass"], DirNode 1); (["repos"; "gentoo"; "eclass"; "a.eclass"], FileNode [] 1);
  (["dist"], DirNode 1);
  (["staged"], DirNode 1); (["staged"; "repos"], DirNode 1); (["staged"; "repos"; "gentoo"], DirNode 1); (["staged"; "repos"; "lost"], DirNode 1);
  (["staged"; "repos"; "gentoo"; "eclass"], DirNode 1); (["staged"; "repos"; "gentoo"; "eclass"; "a.eclass"], FileNode (string_bytes "new") 1);
  (["staged"; "repos"; "gentoo"; "eclass"; "link"], LinkNode (string_bytes "a.eclass") 1);
  (["staged"; "repos"; "gentoo"; "app"], DirNode 1); (["staged"; "repos"; "gentoo"; "app"; "b.ebuild"], FileNode (string_bytes "b") 1);
  (["staged"; "distfiles"], DirNode 1); (["staged"; "distfiles"; "x.tar"], FileNode (string_bytes "x") 1); (["staged"; "distfiles"; " "], FileNode [] 1)].
Definition as_text (b : bytes) : option string := Some (String.string_of_list_byte b).
Definition staged_locations : gmap string string := {["gentoo" := "/repos/gentoo"]}.

#[local] Existing Instance set_iter_reference.
#[local] Existing Instance set_iter_reference_laws.

Lemma tree_forallb (l : list (path * Node)) (P : path -> Node -> bool) :
  forallb (fun x => P (fst x) (snd x)) l = true -> forall p n, list_to_map (M := gmap path Node) l !! p = Some n -> P p n = true.
Proof. intros Hl. apply (tree_forall l (fun p n => P p n = true)). apply Forall_forall. intros x Hx. rewrite forallb_forall in Hl. by apply Hl, list_elem_of_In. Qed.

(** The names in a directory of the tree. *)
Definition names_inb (dir : path) (names : list string) (p : path) (n : Node) : bool :=
  match child_name dir p with Some x => bool_decide (x ∈ names) | None => true end.
Lemma staged_names dir names x n : forallb (fun y => names_inb dir names (fst y) (snd y)) staged_tree = true ->
  list_to_map (M := gmap path Node) staged_tree !! (dir ++ [x]) = Some n -> x ∈ names.
Proof.
  intros Hb Hx. apply (tree_forallb _ _ Hb) in Hx. unfold names_inb, child_name in Hx. rewrite strip_path_app in Hx. by apply bool_decide_eq_true in Hx.
Qed.
Definition links_deepb (p : path) (n : Node) : bool := match n with LinkNode _ _ => bool_decide (length p = 5%nat) | _ => true end.

Lemma staged_restorable : restorable ["dist"] ["staged"] staged_locations (tree_disk staged_tree).
Proof.
  destruct (tidyb_ok staged_tree) as [Ht _]; [by vm_compute|].
  assert (Hto : forall name target, restored_to ["staged"] staged_locations (tree_disk staged_tree) name = Some target -> name = "gentoo" /\ target = ["repos"; "gentoo"]).
  { intros name target. unfold restored_to. destruct (nodes _ !! _) as [n|] eqn:E; [|done]. apply (staged_names ["staged"; "repos"] ["gentoo"; "lost"]) in E; [|by vm_compute].
    apply elem_of_cons in E as [->|E]; [|apply list_elem_of_singleton in E as ->; by destruct n].
    change (staged_locations !! "gentoo") with (Some "/repos/gentoo"). destruct n; [done| |done]. intros [= <-]. split; [done|by vm_compute]. }
  constructor.
  - reflexivity.
  - exact Ht.
  - exists 1. vm_compute. reflexivity.
  - exists 1. vm_compute. reflexivity.
  - exists 1. vm_compute. reflexivity.
  - intros c b t. split; intros Hc; apply (tree_forallb _ links_deepb) in Hc; by vm_compute in Hc || by vm_compute.
  - intros name target [-> ->]%Hto. split_and!; [exists 1; vm_compute; reflexivity|split; intros [q Hq]; discriminate Hq..|]. apply fitsb_ok. by vm_compute.
  - intros n1 n2 t1 t2 [-> _]%Hto [-> _]%Hto. done.
  - split; intros [q Hq]; discriminate Hq.
  - intros f b [Hv [t Hf]]. assert (f = "x.tar" \/ f = " ") as [->| ->]; [|by vm_compute|by vm_compute].
    apply (staged_names ["staged"; "distfiles"] ["x.tar"; " "]) in Hf; [|by vm_compute].
    apply elem_of_cons in Hf as [->|Hf]; [by left|right]. by apply list_elem_of_singleton in Hf.
Qed.

Lemma restore_staged_exact_witness :
  exists d', restore_staged_snapshots_inner as_text ["conf"] ["dist"] ["staged"] (tree_disk staged_tree) = (Ok tt, d') /\
    (forall name target rel, restored_to ["staged"] staged_locations (tree_disk staged_tree) name = Some target ->
       untimed <$> nodes d' !! (target ++ rel) = untimed <$> overlay (["staged"; "repos"] ++ [name]) target (list_to_map staged_tree) 9 rel) /\
    (forall f b, restored_dist ["staged"] (tree_disk staged_tree) f b -> nodes d' !! (["dist"] ++ [f]) = Some (FileNode b 9)) /\
    (forall p, (forall name target, restored_to ["staged"] staged_locations (tree_disk staged_tree) name = Some target -> ~ under target p) ->
       (forall f b, restored_dist ["staged"] (tree_disk staged_tree) f b -> p <> ["dist"] ++ [f]) ->
       untimed <$> nodes d' !! p = untimed <$> nodes (tree_disk staged_tree) !! p).
Proof.
  apply (restore_staged_exact as_text ["conf"] ["dist"] ["staged"] staged_locations (tree_disk staged_tree)).
  - vm_compute. reflexivity.
  - exact staged_restorable.
Defined.

(** What is left of the example: the old file stays, the class is replaced, the link is
    not copied. *)
Example staged_restored :
  let d' := snd (restore_staged_snapshots_inner as_text ["conf"] ["dist"] ["staged"] (tree_disk staged_tree)) in
  (nodes d' !! ["repos"; "gentoo"; "old"], nodes d' !! ["repos"; "gentoo"; "eclass"; "a.eclass"], nodes d' !! ["repos"; "gentoo"; "eclass"; "link"],
   nodes d' !! ["repos"; "gentoo"; "app"; "b.ebuild"], nodes d' !! ["dist"; "x.tar"], nodes d' !! ["dist"; " "]) =
  (Some (FileNode [] 1), Some (FileNode (string_bytes "new") 9), None, Some (FileNode (string_bytes "b") 9), Some (FileNode (string_bytes "x") 9), None).
Proof. vm_compute. reflexivity. Qed.
