(* ===== verification/Locations.v ===== *)
(** * The places of the repositories ([ensure_repo_locations_inner] in
      [crates/worker/src/portage_setup.rs])

    Before anything is restored or synchronised, the worker sees to it that the location
    of every repository of the order is a directory: it is there already, it is linked to
    the repository that the server mounts, it is moved to a writable place when the mount
    is read-only, or it is created.  The decoder of UTF-8 is a parameter. *)

From S2P Require Import Prelude Types World Text Paths BlobStore Repo PortageFiles WorkerSetup Disk LocalState LocalSafety Trees Restore.

(** The text of an absolute path, and of [base.join(name)]. *)
Definition path_text (p : path) : string := "/" +:+ path_key p.
Definition joined_text (base : path) (name : string) : string :=
  if is_absolute name then name else path_text base +:+ "/" +:+ name.

Section Ensure.
Context (text_of : bytes -> option string).

Definition rewrite_repo_location_inner (repos_conf_base : path) (filename old_loc new_loc : string) : DIO unit :=
  let p := join_str repos_conf_base filename in
  let ctx := "Failed to read " +:+ display p +:+ " for location rewrite" in
  do b <- with_context ctx (d_read p) ;;
  match text_of b with
  | None => throw (IoErr OtherIo ctx)
  | Some content => with_context ("Failed to rewrite " +:+ display p) (d_write p (string_bytes (rewrite_location_text old_loc new_loc content)))
  end.

(** [meta.is_dir() || (meta.is_symlink() && loc.is_dir())] *)
Definition leads_to_dir (md : Metadata) (loc : path) : DIO bool :=
  if bool_decide (md_kind md = IsDir) then ret true
  else if bool_decide (md_kind md = IsLink) then path_kind_is IsDir loc
  else ret false.

Definition remap_repo (repos_conf_base remap_base : path) (filename name location : string) : DIO unit :=
  let alt := join_str remap_base name in
  with_context ("Failed to create writable repo dir " +:+ display alt) (d_create_dir_all alt) ;;
  rewrite_repo_location_inner repos_conf_base filename location (joined_text remap_base name).

(** What is there already: [true] if the section is done. *)
Definition existing_location (must_remap : bool) (remap : DIO unit) (loc : path) (name : string) : DIO bool :=
  try_ (d_symlink_metadata loc) (fun r => match r with
    | Err _ => ret false
    | Ok md =>
        do remap_now <- (if must_remap then leads_to_dir md loc else ret false) ;;
        if remap_now : bool then remap ;; ret true
        else
          do ready <- leads_to_dir md loc ;;
          if ready : bool then ret true
          else
            with_context ("Failed to remove non-directory at " +:+ display loc +:+ " for repo '" +:+ name +:+ "'") (d_remove_file loc) ;;
            ret false
    end).

Definition create_parent_dir (location : string) (loc : path) : DIO unit :=
  match loc with
  | [] => ret tt
  | _ => with_context ("Failed to create parent dir for " +:+ location) (d_create_dir_all (removelast loc))
  end.

(** Whether the location is below a read-only mount that does not have the repository;
    [skip_sync]: whether REMERGE_SKIP_SYNC is set. *)
Definition needs_remap (skip_sync : bool) (repos_base bind_path : path) (location : string) : DIO bool :=
  if skip_sync && starts_with (path_text repos_base +:+ "/") location
  then do bound <- path_kind_is IsDir bind_path ;; ret (negb bound) else ret false.

(** One section [(name, location)] of the file [filename]. *)
Definition ensure_location (skip_sync : bool) (repos_base repos_conf_base remap_base : path) (filename : string) (section : string * string) : DIO unit :=
  let '(name, location) := section in
  if negb (location_valid location) then
    throw (Bail ("Repo '" +:+ name +:+ "' has invalid location '" +:+ location +:+ "': must be an absolute path with no traversal components"))
  else
    let loc := join_str [] location in
    let bind_path := join_str repos_base name in
    let remap := remap_repo repos_conf_base remap_base filename name location in
    do must_remap <- needs_remap skip_sync repos_base bind_path location ;;
    do finished <- existing_location must_remap remap loc name ;;
    if finished : bool then ret tt
    else
      do bound <- path_kind_is IsDir bind_path ;;
      if bound : bool then
        create_parent_dir location loc ;;
        with_context ("Failed to symlink " +:+ location) (d_symlink (string_bytes (joined_text repos_base name)) loc)
      else if must_remap : bool then remap
      else with_context ("Failed to create repo directory " +:+ location) (d_create_dir_all loc).

Definition ensure_repo_locations_inner (skip_sync : bool) (c : PortageConfig) (repos_base repos_conf_base remap_base : path) : DIO unit :=
  for_io (fun item => for_io (ensure_location skip_sync repos_base repos_conf_base remap_base item.1) (parse_repo_sections item.2))
    (btree_items (pc_repos_conf c)).
End Ensure.

(** ** Links *)

Lemma link_steps_text p : Forall file_name_ok p -> p <> [] -> link_steps (string_bytes (path_text p)) = (true, p).
Proof.
  intros Hp Hne. unfold link_steps, string_bytes. rewrite String.string_of_list_byte_of_string. unfold path_text. f_equal.
  change ("/" +:+ path_key p) with ("" +:+ String "/" (path_key p)). rewrite split_on_app by apply not_elem_of_nil.
  rewrite split_on_path by done. simpl. clear Hne. induction Hp as [|c p (H1 & H2 & _) Hp IH]; [done|]. simpl.
  assert (He : is_empty c = false) by (by apply is_empty_false). rewrite He, bool_decide_false by done. simpl. by rewrite IH.
Qed.

(** A link at the end of a physical path, to a directory. *)
Lemma walk_link links ns here rel target t p t' : tidy ns -> ns !! (here ++ rel) = Some (LinkNode target t) -> rel <> [] ->
  link_steps target = (true, p) -> ns !! p = Some (DirNode t') -> walk (S links) ns true here rel = Ok p.
Proof.
  intros Ht. revert here. induction rel as [|c rel IH]; intros here Hn Hne Hs Hp; [done|].
  destruct (tidy_above _ _ _ _ _ Ht Hn) as [(_ & _ & Hc & _) _]. rewrite walk_cons, bool_decide_false by done.
  assert (He : here ++ c :: rel = join here c ++ rel) by (unfold join; by rewrite <- app_assoc). rewrite He in Hn.
  destruct rel as [|c' rel].
  - rewrite app_nil_r in Hn. rewrite Hn, Hs, app_nil_r. by apply (walk_physical _ _ true [] p _ Ht Hp).
  - destruct (tidy_above _ _ _ _ _ Ht Hn) as [_ [Hj|[td Hd]]]; [unfold join in Hj; by destruct here|]. rewrite Hd. by apply IH.
Qed.

(** ** Names *)

Lemma components_name s : file_name_ok s -> components s = [Normal s].
Proof.
  intros (H1 & H2 & H3 & H4). unfold components. rewrite split_on_none by done.
  assert (He : is_empty s = false) by (by apply is_empty_false). rewrite He, bool_decide_false by done.
  change (omap segment [s]) with (match segment s with Some x => [x] | None => [] end). unfold segment. by rewrite !bool_decide_false by tauto.
Qed.
Lemma join_str_name base s : file_name_ok s -> join_str base s = base ++ [s].
Proof. intros Hs. unfold join_str. by rewrite components_name. Qed.

Lemma joined_text_name base s : base <> [] -> file_name_ok s -> joined_text base s = path_text (base ++ [s]).
Proof.
  intros Hb Hs. unfold joined_text. destruct (is_absolute s) eqn:Ea.
  - exfalso. destruct Hs as (_ & _ & _ & Hs). apply Hs. unfold is_absolute, starts_with in Ea. apply bool_decide_eq_true in Ea as [r Hr].
    apply strip_prefix_Some in Hr as ->. apply list_elem_of_here.
  - unfold path_text, path_key. rewrite join_with_app by done. by rewrite !string_app_assoc.
Qed.

Lemma location_names location : location_valid location = true -> Forall file_name_ok (join_str [] location).
Proof.
  unfold location_valid, join_str. intros [_ Hc]%andb_true_iff.
  assert (Hn : forall n, Normal n ∈ components location -> file_name_ok n) by (intros n; apply components_normal).
  revert Hc Hn. generalize (components location). intros cs. assert (Hb : Forall file_name_ok []) by constructor. revert Hb. generalize (@nil string).
  induction cs as [|c cs IH]; intros base Hb Hc Hn; [done|]. simpl in Hc. apply andb_true_iff in Hc as [Hc Hcs]. simpl.
  apply IH; [|done|intros n Hin; by apply Hn, list_elem_of_further]. destruct c as [| | |n]; try done.
  simpl. unfold join. apply Forall_app. split; [done|]. apply Forall_cons. split; [|constructor]. apply Hn, list_elem_of_here.
Qed.

(** ** One section *)

(** On the way to [p] there are directories or nothing. *)
Definition open_way (ns : gmap path Node) (p : path) : Prop :=
  forall a, a `prefix_of` p -> a <> p -> match ns !! a with Some (DirNode _) | None => True | _ => False end.
(** What changed became a directory or went away. *)
Definition gentle (ns ns' : gmap path Node) : Prop :=
  forall q, ns' !! q = ns !! q \/ match ns' !! q with Some (DirNode _) | None => True | _ => False end.

Lemma open_way_gentle ns ns' p : gentle ns ns' -> open_way ns p -> open_way ns' p.
Proof. intros Hg Ho a Ha Hne. destruct (Hg a) as [->|?]; [by apply Ho|done]. Qed.
Lemma open_way_clear ns p : Forall file_name_ok p -> open_way ns p -> clear_way ns p.
Proof.
  intros Hp Ho. split; [done|]. intros a b -> _ Hb. apply Ho; [by exists b|]. intros He. apply (f_equal length) in He. rewrite length_app in He.
  destruct b; [done|]. simpl in He. lia.
Qed.
Lemma path_kind_at {E} d p : disk_faults d = [] -> tidy (nodes d) -> Forall file_name_ok p -> p <> [] -> open_way (nodes d) p ->
  (forall b t, nodes d !! p <> Some (LinkNode b t)) ->
  exists b, @path_kind_is E IsDir p d = (Ok b, d) /\ (b = true <-> exists t, nodes d !! p = Some (DirNode t)).
Proof.
  intros Hq Ht Hok Hne Ho Hl. destruct (nodes d !! p) as [n|] eqn:En.
  - eexists. split; [eapply path_kind_found; [done|done|exact En|by intros b t ->; apply (Hl b t)]|]. rewrite bool_decide_eq_true.
    destruct n; simpl; naive_solver.
  - exists false. split; [|naive_solver]. unfold path_kind_is. by erewrite try_quiet by (apply (stat_missing true); [done|by apply open_way_clear|done|done]).
Qed.

Section Section_.
Context (text_of : bytes -> option string) (skip_sync : bool) (repos_base repos_conf remap_base : path).
Context (filename name location content : string).

Let loc := join_str [] location.
Let bind_path := repos_base ++ [name].
Let alt := remap_base ++ [name].
Let conf := repos_conf ++ [filename].

(** Names are proper names, and no link or file is in the way. *)
Record orderly (d : Disk) : Prop := {
  or_quiet : disk_faults d = [];
  or_tidy : tidy (nodes d);
  or_root : exists t, nodes d !! [] = Some (DirNode t);
  or_valid : location_valid location = true;
  or_loc : loc <> [] /\ open_way (nodes d) loc /\ loc <> conf;
  or_names : file_name_ok name /\ file_name_ok filename /\ repos_base <> [] /\ remap_base <> [] /\ Forall file_name_ok repos_base /\ Forall file_name_ok remap_base;
  or_bind : open_way (nodes d) bind_path /\ forall b t, nodes d !! bind_path <> Some (LinkNode b t);
  or_alt : open_way (nodes d) alt /\ match nodes d !! alt with Some (DirNode _) | None => True | _ => False end;
  or_conf : (exists t, nodes d !! repos_conf = Some (DirNode t)) /\
            exists b t, nodes d !! conf = Some (FileNode b t) /\ text_of b = Some content;
}.

(** The location is a directory, or a link to one. *)
Definition ready (d : Disk) : Prop := exists q t, find_node true loc (nodes d) = Ok (q, DirNode t).
(** The section has moved: there is a directory for it and the file says so. *)
Definition remapped (d : Disk) : Prop :=
  (exists t, nodes d !! alt = Some (DirNode t)) /\
  exists t, nodes d !! conf = Some (FileNode (string_bytes (rewrite_location_text location (path_text alt) content)) t).

Lemma remap_total d : orderly d -> exists d', remap_repo text_of repos_conf remap_base filename name location d = (Ok tt, d') /\ remapped d'.
Proof.
  intros [Hq Ht [tr Hr] _ _ (Hn & Hfn & _ & Hrb & _ & Hrn) _ [Ha Haa] [[tc Hc] (b & tb & Hf & Htext)]]. unfold remap_repo.
  rewrite join_str_name, joined_text_name by done. fold alt. cbv zeta.
  destruct (create_dir_below [] alt d tr Hq Ht Hr) as (d1 & Hm & [Hq1 Hk1 Ht1 Hdir1 Hr1]).
  { unfold alt. apply Forall_app. split; [done|]. by apply Forall_cons. }
  { intros a Hpre. simpl. destruct (decide (a = alt)) as [->|Hne]; [done|by apply Ha]. }
  simpl in Hm. erewrite bind_quiet by (apply context_quiet; exact Hm).
  assert (Hf1 : nodes d1 !! conf = Some (FileNode b tb)).
  { rewrite Hr1; [done|]. intros a Hpre. simpl. intros <-. destruct (decide (conf = alt)) as [He|Hne]; [rewrite He in Hf; by rewrite Hf in Haa|].
    specialize (Ha conf Hpre Hne). by rewrite Hf in Ha. }
  assert (Hc1 : exists t, nodes d1 !! repos_conf = Some (DirNode t)).
  { destruct (decide (repos_conf `prefix_of` alt)) as [Hpre|Hno]; [by apply (Hdir1 repos_conf)|]. exists tc. rewrite Hr1; [done|]. intros a Hpre. simpl. by intros ->. }
  destruct Hc1 as [tc1 Hc1]. unfold rewrite_repo_location_inner. rewrite join_str_name by done. fold conf. cbv zeta.
  erewrite bind_quiet by (apply context_quiet; by eapply read_found). rewrite Htext.
  destruct (write_quiet repos_conf filename (string_bytes (rewrite_location_text location (path_text alt) content)) d1 tc1 Hq1 Ht1 Hc1 Hfn)
    as (d2 & Hw & [_ _ _ _ Hf2 [tc2 Hc2] Hr2]); [fold conf; by rewrite Hf1|].
  exists d2. split; [apply context_quiet; exact Hw|]. split; [|by eexists].
  destruct (Hdir1 alt) as [ta Hta]; [done|]. simpl in Hta. destruct (decide (alt = repos_conf)) as [->|Hne]; [by eexists|].
  exists ta. rewrite Hr2; [done| |done]. fold conf. intros He. rewrite He in Hta. congruence.
Qed.

Lemma leads_total d n : orderly d -> nodes d !! loc = Some n ->
  exists b, leads_to_dir (metadata_of d n) loc d = (Ok b, d) /\ (b = true -> ready d) /\ (b = false -> forall t, n <> DirNode t).
Proof.
  intros Ho Hn. pose proof Ho as [Hq Ht _ _ _ _ _ _ _]. unfold leads_to_dir. destruct n as [b t|t|b t]; cbn [metadata_of md_kind].
  - rewrite !bool_decide_false by done. by exists false.
  - rewrite bool_decide_true by done. exists true. split_and!; try done. intros _. exists loc, t. by apply find_physical.
  - rewrite bool_decide_false, bool_decide_true by done. pose proof (path_kind_dir (E := Error) d location Hq) as Hk. fold loc in Hk.
    eexists. split_and!; [exact Hk| |done]. unfold dir_on, ready. fold loc. destruct (find_node true loc (nodes d)) as [[q []]|]; try done. by eauto.
Qed.

(** A file or a link that leads nowhere is removed. *)
Lemma remove_total d n : orderly d -> nodes d !! loc = Some n -> (forall t, n <> DirNode t) ->
  exists d', d_remove_file loc d = (Ok tt, d') /\ orderly d' /\ nodes d' !! loc = None.
Proof.
  intros [Hq Ht Hroot Hv (Hne & Hlo & Hlc) Hnames [Hb Hbl] [Ha Haa] [Hc Hf]] Hn Hnd. destruct (exists_last Hne) as (dir & c & El).
  rewrite El in Hn. assert (Hd : exists t, nodes d !! dir = Some (DirNode t)) by (destruct (Ht _ _ _ Hn) as [_ [->|?]]; done). destruct Hd as [t Hd].
  destruct (disk_remove_quiet dir c d t n Hq Ht Hd Hn Hnd) as (d1 & t1 & Hrm & Hq1 & _ & Ht1 & Hd1 & Hn1 & Hr1). rewrite <- El in *.
  exists d1. split_and!; [done| |done].
  assert (Hg : gentle (nodes d) (nodes d1)).
  { intros q. destruct (decide (q = dir)) as [->|H1]; [right; by rewrite Hd1|]. destruct (decide (q = loc)) as [->|H2]; [right; by rewrite Hn1|].
    left. by apply Hr1. }
  assert (Hkeep : forall q m, nodes d !! q = Some m -> q <> loc -> (exists t, m = DirNode t /\ exists t', nodes d1 !! q = Some (DirNode t')) \/ nodes d1 !! q = Some m).
  { intros q m Hm Hql. destruct (decide (q = dir)) as [->|H1]; [left|right; by rewrite Hr1]. rewrite Hd in Hm. injection Hm as <-. eauto. }
  constructor; try done.
  - destruct Hroot as [t0 Hroot]. destruct (Hkeep [] _ Hroot) as [(? & _ & ?)|?]; [by intros He; by rewrite <- He in Hne|done|by eexists].
  - split_and!; [done|by eapply open_way_gentle|done].
  - split; [by eapply open_way_gentle|]. intros b0 t0 He. destruct (Hg bind_path) as [Hs|Hs]; [rewrite Hs in He; by apply Hbl in He|by rewrite He in Hs].
  - split; [by eapply open_way_gentle|]. destruct (Hg alt) as [->|Hs]; done.
  - destruct Hc as [tc Hc], Hf as (b & tb & Hf & Htext). split.
    + destruct (Hkeep _ _ Hc) as [(? & _ & ?)|?]; [|done|by eexists]. intros ->. rewrite Hn in Hc. injection Hc as ->. by apply (Hnd tc).
    + destruct (Hkeep _ _ Hf) as [(? & ? & _)|?]; [by intros He|done|]. by exists b, tb.
Qed.

Lemma existing_total must_remap d : orderly d ->
  exists finished d', existing_location must_remap (remap_repo text_of repos_conf remap_base filename name location) loc name d = (Ok finished, d') /\
    if finished : bool then ready d' \/ must_remap = true /\ remapped d' else orderly d' /\ nodes d' !! loc = None.
Proof.
  intros Ho. pose proof Ho as [Hq Ht _ Hv (Hne & Hlo & _) _ _ _ _]. pose proof (location_names _ Hv) as Hok. unfold existing_location.
  destruct (nodes d !! loc) as [n|] eqn:En; [|exists false, d; split; [|done]].
  - erewrite try_quiet by (by apply (stat_found false)). destruct (leads_total d n Ho En) as (b & Hb & Hready & Hno).
    assert (Hrest : exists finished d', (do ready <- leads_to_dir (metadata_of d n) loc ;; if ready : bool then ret true else
        with_context ("Failed to remove non-directory at " +:+ display loc +:+ " for repo '" +:+ name +:+ "'") (d_remove_file loc) ;; ret false) d =
        (Ok finished, d') /\ if finished : bool then ready d' \/ must_remap = true /\ remapped d' else orderly d' /\ nodes d' !! loc = None).
    { erewrite bind_quiet by exact Hb. destruct b; [exists true, d; split; [done|left; by apply Hready]|].
      destruct (remove_total d n Ho En (Hno eq_refl)) as (d' & Hrm & Ho' & Hn'). exists false, d'. split; [|done].
      by erewrite bind_quiet by (apply context_quiet; exact Hrm). }
    destruct must_remap.
    + erewrite bind_quiet by exact Hb. destruct b; [|exact Hrest]. destruct (remap_total d Ho) as (d' & Hrm & Hre).
      exists true, d'. split; [by erewrite bind_quiet by exact Hrm|by right].
    + rewrite (bind_quiet _ _ d false d) by done. exact Hrest.
  - by erewrite try_quiet by (apply (stat_missing false); [done|by apply open_way_clear|done|done]).
Qed.

(** Nothing is at the location: it is linked to the mounted repository. *)
Lemma link_total d : orderly d -> nodes d !! loc = None -> (exists t, nodes d !! bind_path = Some (DirNode t)) ->
  exists d', bind (create_parent_dir location loc) (fun _ =>
    with_context ("Failed to symlink " +:+ location) (d_symlink (string_bytes (joined_text repos_base name)) loc)) d = (Ok tt, d') /\ ready d'.
Proof.
  intros [Hq Ht [tr Hr] Hv (Hne & Hlo & _) (Hn & _ & Hrb & _ & Hrn & _) _ _ _] Hnone [tb Hb]. pose proof (location_names _ Hv) as Hok. fold loc in Hok.
  unfold create_parent_dir. destruct (exists_last Hne) as (dir & c & El). rewrite El in *. rewrite joined_text_name by done. fold bind_path.
  apply Forall_app in Hok as [Hokd Hokc]. apply Forall_cons in Hokc as [Hokc _].
  assert (Hno : forall a, a `prefix_of` dir -> dir ++ [c] <> a).
  { intros a [k Hk] He. apply (f_equal length) in Hk. rewrite <- He, !length_app in Hk. simpl in Hk. lia. }
  destruct (create_dir_below [] dir d tr Hq Ht Hr Hokd) as (d1 & Hm & [Hq1 Hk1 Ht1 Hdir1 Hr1]).
  { intros a Ha. apply Hlo; [by apply prefix_app_r|]. intros He. by apply (Hno a). }
  simpl in Hm, Hdir1, Hr1. destruct (Hdir1 dir) as [t1 Hd1]; [done|].
  assert (Hn1 : nodes d1 !! (dir ++ [c]) = None) by (rewrite Hr1; done).
  assert (Hb1 : exists t, nodes d1 !! bind_path = Some (DirNode t)).
  { destruct (decide (bind_path `prefix_of` dir)) as [Hp|Hp]; [by apply Hdir1|]. exists tb. rewrite Hr1; [done|]. by intros a Ha <-. }
  destruct Hb1 as [tb1 Hb1].
  destruct (symlink_quiet dir c (string_bytes (path_text bind_path)) d1 t1) as (d2 & Hs & Hl & Ht2 & _ & [t2 Hd2] & Hr2); try done.
  assert (Hb2 : exists t, nodes d2 !! bind_path = Some (DirNode t)).
  { destruct (decide (bind_path = dir)) as [->|Hbd]; [by eexists|]. exists tb1. rewrite Hr2; [done|done|]. intros He. congruence. }
  destruct Hb2 as [tb2 Hb2]. exists d2. split.
  - destruct (dir ++ [c]) as [|x l] eqn:E; [by destruct dir|]. rewrite <- E in *. rewrite removelast_last.
    by erewrite bind_quiet by (apply context_quiet; exact Hm); apply context_quiet.
  - exists bind_path, tb2. unfold find_node, resolve, MAX_LINKS. rewrite El. rewrite (walk_link 39 _ [] (dir ++ [c]) _ _ bind_path tb2 Ht2 Hl); [| |apply link_steps_text|done].
    + cbn [rbind]. unfold node_at. by rewrite Hb2.
    + by destruct dir.
    + unfold bind_path. apply Forall_app. split; [done|]. by apply Forall_cons.
    + intros He. by apply app_eq_nil in He as [_ ?].
Qed.

Lemma ensure_total d : orderly d ->
  exists d', ensure_location text_of skip_sync repos_base repos_conf remap_base filename (name, location) d = (Ok tt, d') /\
    (ready d' \/ skip_sync = true /\ remapped d').
Proof.
  intros Ho. pose proof Ho as [Hq Ht Hroot Hv _ (Hn & _ & _ & _ & Hrn & _) _ _ _]. unfold ensure_location. rewrite Hv. cbn [negb]. fold loc. cbv zeta.
  rewrite join_str_name by done. fold bind_path.
  assert (Hbn : Forall file_name_ok bind_path) by (unfold bind_path; apply Forall_app; split; [done|by apply Forall_cons]).
  assert (Hbe : bind_path <> []) by (intros He; by apply app_eq_nil in He as [_ ?]).
  assert (Hbound : forall d, orderly d -> exists b, path_kind_is (E := Error) IsDir bind_path d = (Ok b, d) /\ (b = true <-> exists t, nodes d !! bind_path = Some (DirNode t)))
    by (intros d1 [? ? _ _ _ _ [? ?] _ _]; by apply path_kind_at).
  assert (Hneed : exists nr, needs_remap skip_sync repos_base bind_path location d = (Ok nr, d) /\ (nr = true -> skip_sync = true)).
  { unfold needs_remap. destruct (skip_sync && _) eqn:Es; [|by exists false]. apply andb_true_iff in Es as [Es _]. destruct (Hbound d Ho) as (b & Hb & _).
    exists (negb b). split; [by erewrite bind_quiet by exact Hb|done]. }
  destruct Hneed as (nr & Hneed & Hnr). erewrite bind_quiet by exact Hneed.
  destruct (existing_total nr d Ho) as (finished & d1 & He & Hf). erewrite bind_quiet by exact He.
  destruct finished; [exists d1; split; [done|]; destruct Hf as [?|[? ?]]; [by left|right; auto]|]. destruct Hf as [Ho1 Hn1].
  destruct (Hbound d1 Ho1) as (b & Hb & Hiff). erewrite bind_quiet by exact Hb. destruct b.
  - destruct (link_total d1 Ho1 Hn1 (proj1 Hiff eq_refl)) as (d2 & Hl & Hready). exists d2. split; [exact Hl|by left].
  - destruct nr.
    + destruct (remap_total d1 Ho1) as (d2 & Hrm & Hre). exists d2. split; [done|right; auto].
    + destruct Ho1 as [Hq1 Ht1 [tr Hr1] _ (Hne & Hlo & _) _ _ _ _].
      destruct (create_dir_below [] loc d1 tr Hq1 Ht1 Hr1) as (d2 & Hm & [_ _ Ht2 Hdir2 _]); [by apply location_names| |].
      { intros a Ha. simpl. destruct (decide (a = loc)) as [->|Hal]; [by rewrite Hn1|by apply Hlo]. }
      exists d2. split; [apply context_quiet; exact Hm|]. left. destruct (Hdir2 loc) as [t2 Hd2]; [done|]. simpl in Hd2.
      exists loc, t2. by apply find_physical.
Qed.
End Section_.

(** Every repository has a place: for a section with a proper name and a valid location the
    worker ends with a directory at the location, or with a link there that leads to the
    mounted repository; or, under a read-only mount, with a writable directory to which the
    file of [repos.conf] has been rewritten - that section and no other location changes. *)
Theorem ensure_location_ready text_of skip_sync repos_base repos_conf remap_base filename name location content d :
  orderly text_of repos_base repos_conf remap_base filename name location content d ->
  tight (path_text (remap_base ++ [name])) -> Text.newline ∉ chars (path_text (remap_base ++ [name])) ->
  exists d', ensure_location text_of skip_sync repos_base repos_conf remap_base filename (name, location) d = (Ok tt, d') /\
    ((exists q t, find_node true (join_str [] location) (nodes d') = Ok (q, DirNode t)) \/
     skip_sync = true /\ (exists t, nodes d' !! (remap_base ++ [name]) = Some (DirNode t)) /\
     exists text t, nodes d' !! (repos_conf ++ [filename]) = Some (FileNode (string_bytes text) t) /\
       worker_parse_repo_sections_full text =
       map (move_section location (path_text (remap_base ++ [name]))) (worker_parse_repo_sections_full content)).
Proof.
  intros Ho Htight Hline. destruct (ensure_total text_of skip_sync repos_base repos_conf remap_base filename name location content d Ho) as (d' & He & Hr).
  exists d'. split; [done|]. destruct Hr as [Hr|(Hs & Ha & t & Hf)]; [by left|right]. split_and!; [done|done|].
  eexists _, t. split; [exact Hf|]. by apply rewrite_location_moves.
Qed.

(** ** Concrete runs *)

Definition open_wayb (ns : gmap path Node) (p : path) : bool :=
  forallb (fun k => match ns !! take k p with Some (DirNode _) | None => true | _ => false end) (seq 0 (length p)).
Lemma open_wayb_ok ns p : open_wayb ns p = true -> open_way ns p.
Proof.
  unfold open_wayb. rewrite forallb_forall. intros Hk a [b ->] Hne. specialize (Hk (length a)). rewrite take_app_length in Hk.
  destruct (ns !! a) as [[]|]; try done; (discriminate Hk; apply in_seq; rewrite length_app; destruct b; [by rewrite app_nil_r in Hne|simpl; lia]).
Qed.

(** A read-only mount with one repository, and the file of another one. *)
Definition local_conf : string := "[local]" +:+ newline_str +:+ "location = /mnt/repos/local" +:+ newline_str.
Definition mount_tree : list (path * Node) := [
  ([], DirNode 1); (["mnt"], DirNode 1); (["mnt"; "repos"], DirNode 1); (["mnt"; "repos"; "gentoo"], DirNode 1); (["mnt"; "secret"], DirNode 1);
  (["conf"], DirNode 1); (["conf"; "local.conf"], FileNode (string_bytes local_conf) 1)].

Lemma mount_orderly : orderly as_text ["mnt"; "repos"] ["conf"] ["tmp"; "repos"] "local.conf" "local" "/mnt/repos/local" local_conf (tree_disk mount_tree).
Proof.
  destruct (tidyb_ok mount_tree) as [Ht _]; [by vm_compute|].
  assert (Hnames : path_ok ["local"; "local.conf"; "mnt"; "repos"; "tmp"]) by (apply names_okb_ok; by vm_compute).
  unfold path_ok in Hnames. rewrite !Forall_cons in Hnames. destruct_and!.
  constructor.
  - reflexivity.
  - exact Ht.
  - exists 1. vm_compute. reflexivity.
  - vm_compute. reflexivity.
  - split_and!; [vm_compute; discriminate|apply open_wayb_ok; by vm_compute|vm_compute; discriminate].
  - split_and!; try done; by rewrite !Forall_cons.
  - split; [apply open_wayb_ok; by vm_compute|]. intros b t. vm_compute. discriminate.
  - split; [apply open_wayb_ok; by vm_compute|by vm_compute].
  - split; [exists 1; vm_compute; reflexivity|]. exists (string_bytes local_conf), 1. split; vm_compute; reflexivity.
Qed.

Lemma ensure_location_ready_witness :
  exists d', ensure_location as_text true ["mnt"; "repos"] ["conf"] ["tmp"; "repos"] "local.conf" ("local", "/mnt/repos/local") (tree_disk mount_tree) = (Ok tt, d') /\
    ((exists q t, find_node true (join_str [] "/mnt/repos/local") (nodes d') = Ok (q, DirNode t)) \/
     true = true /\ (exists t, nodes d' !! (["tmp"; "repos"] ++ ["local"]) = Some (DirNode t)) /\
     exists text t, nodes d' !! (["conf"] ++ ["local.conf"]) = Some (FileNode (string_bytes text) t) /\
       worker_parse_repo_sections_full text =
       map (move_section "/mnt/repos/local" (path_text (["tmp"; "repos"] ++ ["local"]))) (worker_parse_repo_sections_full local_conf)).
Proof.
  apply (ensure_location_ready as_text true ["mnt"; "repos"] ["conf"] ["tmp"; "repos"] "local.conf" "local" "/mnt/repos/local" local_conf (tree_disk mount_tree)).
  - exact mount_orderly.
  - by vm_compute.
  - vm_compute. set_solver.
Defined.

(** The file after the run, and the link that another location gets. *)
Example local_moved :
  let d' := snd (ensure_location as_text true ["mnt"; "repos"] ["conf"] ["tmp"; "repos"] "local.conf" ("local", "/mnt/repos/local") (tree_disk mount_tree)) in
  nodes d' !! ["conf"; "local.conf"] =
  Some (FileNode (string_bytes ("[local]" +:+ newline_str +:+ "location = /tmp/repos/local" +:+ newline_str)) 9).
Proof. vm_compute. reflexivity. Qed.

(** Locations are checked for [..], names are not: a section named [../secret] has its
    location linked to a directory beside the mounted repositories. *)
Example name_leaves_mount :
  let d' := snd (ensure_location as_text false ["mnt"; "repos"] ["conf"] ["tmp"; "repos"] "x.conf" ("../secret", "/srv/x") (tree_disk mount_tree)) in
  nodes d' !! ["srv"; "x"] = Some (LinkNode (string_bytes "/mnt/repos/../secret") 9) /\
  find_node true ["srv"; "x"] (nodes d') = Ok (["mnt"; "secret"], DirNode 1).
Proof. vm_compute. split; reflexivity. Qed.
