(* ===== verification/Confine.v ===== *)
(** * What the restoring of snapshots leaves alone ([crates/worker/src/portage_setup.rs])

    Between the writing of the client's configuration and the linking of the profile the
    worker sees to the places of the repositories and restores snapshots to them.  Here it
    is shown that on a disk without links nothing of this touches what lies in the
    configuration directory, as long as no repository has its place there - whatever the
    names in the snapshots, and whatever fails. *)

From S2P Require Import Prelude Types World Text Paths BlobStore Repo PortageFiles WorkerSetup Disk LocalState LocalSafety Trees Restore Locations.

(** The operations of the set-up on the disk. *)
#[export] Instance Disk_setup : SetupFs Disk :=
  {| sf_create_dir_all := d_create_dir_all; sf_write := d_write; sf_refused := observe (fun _ => Err OtherIo) |}.

Lemma confined_remove (R : path -> Prop) p : (forall p, R p -> R (removelast p)) -> R p -> ".." ∉ p -> confined R (d_remove_file p).
Proof.
  intros Hup HR Hdd. apply confined_faulty; [done|]. intros d Hp. destruct (find_node false p (nodes d)) as [[q n]|] eqn:Ef; [|done].
  apply find_node_plain in Ef as [-> _]; [|done|done]. destruct n; [|done|]; by apply drop_entry_confined.
Qed.

Section Keep.
Context (base : path) (Hbase : ".." ∉ base) (ns0 : gmap path Node).

(** In the configuration directory. *)
Definition in_base (p : path) : Prop := exists c q, p = base ++ c :: q.
(** Where the restoring may write. *)
Definition free (p : path) : Prop := (".." ∉ p) /\ ~ in_base p.
(** A place with everything below it free. *)
Definition clear (root : path) : Prop := forall q, ".." ∉ q -> free (root ++ q).

Lemma free_up p : free p -> free (removelast p).
Proof.
  intros [Hd Hn]. destruct p as [|x p _] using rev_ind; [done|]. rewrite removelast_last. split; [set_solver|].
  intros (c & q & ->). apply Hn. exists c, (q ++ [x]). by rewrite <- app_assoc.
Qed.
Lemma clear_free root : clear root -> free root.
Proof. intros Hc. rewrite <- (app_nil_r root). apply Hc. apply not_elem_of_nil. Qed.
Lemma clear_inside root p : clear root -> inside root p -> free p.
Proof. intros Hc (q & -> & Hq). by apply Hc. Qed.
Lemma clear_join root c : clear root -> c <> ".." -> clear (join root c).
Proof. intros Hc Hne q Hq. unfold join. rewrite <- app_assoc. apply Hc. set_solver. Qed.

(** The disk has no links and no entry named [..], and the configuration is as it was. *)
Record keeps_base (d : Disk) : Prop := {
  kb_plain : plain_tree (nodes d);
  kb_names : forall p n, nodes d !! p = Some n -> ".." ∉ p;
  kb_base : forall p, in_base p -> nodes d !! p = ns0 !! p;
}.

(** A run that keeps it so, with a result that satisfies [Q]. *)
Definition steady {E A} (Q : A -> Prop) (m : StateResult Disk E A) : Prop :=
  forall d, keeps_base d -> keeps_base (snd (m d)) /\ forall a, fst (m d) = Ok a -> Q a.
Abbreviation any := (fun _ => True).

Lemma steady_confined {E A} (m : StateResult Disk E A) : confined free m -> steady any m.
Proof.
  intros Hm d [Hp Hn Hb]. destruct (Hm d Hp) as [Hp' Hf]. split; [|done]. split; [done| |].
  - intros p n Hl Hdd. rewrite Hf in Hl by (by intros [? _]). by eapply Hn.
  - intros p Hin. rewrite Hf by (by intros [_ ?]). by apply Hb.
Qed.
Lemma steady_weaken {E A} (Q Q' : A -> Prop) (m : StateResult Disk E A) : (forall a, Q a -> Q' a) -> steady Q m -> steady Q' m.
Proof. intros HQ Hm d Hd. destruct (Hm d Hd) as [H1 H2]. split; [done|]. intros a Ha. by apply HQ, H2. Qed.
Lemma steady_looks {E A} (m : StateResult Disk E A) : looks m -> steady any m.
Proof. intros Hm. by apply steady_confined, confined_looks. Qed.
Lemma steady_ret {E A} (Q : A -> Prop) a : Q a -> steady Q (ret (S := Disk) (E := E) a).
Proof. intros Ha d Hd. split; [done|]. by intros ? [= <-]. Qed.
Lemma steady_throw {E A} (Q : A -> Prop) (e : E) : steady Q (throw (S := Disk) e).
Proof. by intros d Hd. Qed.
Lemma steady_bind {E A B} Q Q' (m : StateResult Disk E A) (k : A -> StateResult Disk E B) :
  steady Q m -> (forall a, Q a -> steady Q' (k a)) -> steady Q' (bind m k).
Proof.
  intros Hm Hk d Hd. destruct (Hm d Hd) as [H1 H2]. unfold bind. destruct (m d) as [[a|e] d1]; [|done]. by apply Hk; [apply H2|].
Qed.
Lemma steady_try {E F A B} Q Q' (m : StateResult Disk E A) (k : Result A E -> StateResult Disk F B) :
  steady Q m -> (forall r, (forall a, r = Ok a -> Q a) -> steady Q' (k r)) -> steady Q' (try_ m k).
Proof. intros Hm Hk d Hd. destruct (Hm d Hd) as [H1 H2]. unfold try_. destruct (m d) as [r d1]. by apply Hk. Qed.
Lemma steady_context {A} Q ctx (m : DiskOp A) : steady Q m -> steady Q (with_context ctx m).
Proof. intros Hm d Hd. destruct (Hm d Hd) as [H1 H2]. unfold with_context. destruct (m d) as [[a|e] d1]; [|done]. split; [done|]. intros b [= <-]. by apply H2. Qed.
Lemma steady_fold {E A M} (I : M -> Prop) (f : M -> A -> StateResult Disk E M) xs m :
  (forall m x, x ∈ xs -> I m -> steady I (f m x)) -> I m -> steady I (fold_io f xs m).
Proof.
  revert m. induction xs as [|x xs IH]; intros m Hf Hm; cbn [fold_io]; [by apply steady_ret|].
  apply (steady_bind I); [apply Hf; [apply list_elem_of_here|done]|]. intros m' Hm'. apply IH; [|done]. intros y z Hz. by apply Hf, list_elem_of_further.
Qed.
Lemma steady_for {E A} (f : A -> StateResult Disk E unit) xs : (forall x, x ∈ xs -> steady any (f x)) -> steady any (for_io f xs).
Proof. intros Hf. apply (steady_fold any); [intros _ x Hx _; by apply Hf|done]. Qed.
Lemma steady_entries {M} (I : M -> Prop) (f : M -> string -> DIO M) names m :
  (forall m x, x ∈ names -> I m -> steady I (f m x)) -> I m -> steady I (for_entries f names m).
Proof.
  assert (Hnext : steady any (d_next_entry "next_entry")) by (apply steady_looks; unfold d_next_entry; solve_looks).
  revert m. induction names as [|x xs IH]; intros m Hf Hm; cbn [for_entries]; (eapply steady_try; [exact Hnext|]).
  - intros [a|e] _; by apply steady_ret.
  - intros [a|e] _; [|by apply steady_ret]. apply (steady_bind I); [apply Hf; [apply list_elem_of_here|done]|].
    intros m' Hm'. apply IH; [|done]. intros y z Hz. by apply Hf, list_elem_of_further.
Qed.

(** ** Operations *)

Lemma steady_read_dir `{SetIter, !SetIterLaws} p : ".." ∉ p -> steady (fun names => ".." ∉ names) (d_read_dir p).
Proof.
  intros Hp d Hd. pose proof (steady_looks (d_read_dir p) (looks_observe _) d Hd) as [Hd' _]. split; [done|]. intros names Hr.
  unfold d_read_dir in *. destruct (observe _ d) as [r d'] eqn:Eo. cbn [fst snd] in *. subst r. apply observe_Ok in Eo as [_ Eo].
  destruct (find_node true p (nodes d')) as [[q n]|] eqn:Ef; [|done]. apply find_node_plain in Ef as [-> _]; [|apply Hd'|done].
  destruct n; try done. injection Eo as <-. intros [n Hn]%elem_of_set_iter%elem_of_child_names. apply (kb_names _ Hd') in Hn. set_solver.
Qed.
Lemma d_create_at p d q d' : plain_tree (nodes d) -> ".." ∉ p -> d_create p d = (Ok q, d') -> q = p.
Proof.
  intros Hp Hdd. unfold d_create, faulty. pose proof (pop_same d) as Hs. destruct (pop_disk_fault d) as [[f|] d0]; [done|]. cbn [snd] in Hs.
  rewrite <- (st_nodes _ _ Hs) in Hp. destruct (resolve true p (nodes d0)) as [q'|] eqn:Er; [|done]. apply resolve_plain in Er as ->; [|done|done].
  destruct (node_at (nodes d0) p) as [[]|]; congruence.
Qed.
Lemma confined_copy src dst : free dst -> confined free (d_copy src dst).
Proof.
  intros Hf. unfold d_copy. apply confined_bind; [apply confined_looks, looks_observe|]. intros from.
  eapply (confined_bind_if free (fun q => q = dst)); [apply confined_create; [apply free_up|done|apply Hf]|intros d q d' Hp; by apply d_create_at, Hf|].
  intros q ->. apply confined_bind; [apply confined_looks, looks_observe|]. intros b. by apply confined_append.
Qed.
Lemma confined_write p b : free p -> confined free (d_write p b).
Proof.
  intros Hf. unfold d_write. eapply (confined_bind_if free (fun q => q = p)); [apply confined_create; [apply free_up|done|apply Hf]|intros d q d' Hp; by apply d_create_at, Hf|].
  intros q ->. by apply confined_append.
Qed.
Lemma steady_dirs ctx p : free p -> steady any (with_context ctx (d_create_dir_all p)).
Proof. intros Hf. apply steady_context, steady_confined. apply confined_create_dir_all; [apply free_up|done|apply Hf]. Qed.
Lemma steady_path_kind {E} k p : steady any (path_kind_is (E := E) k p).
Proof. apply steady_looks. unfold path_kind_is, d_metadata. solve_looks. Qed.
(** ** Copying trees *)

Section Copy.
Context `{SetIter, !SetIterLaws} (source_root destination_root : path) (Hsrc : ".." ∉ source_root) (Hdst : clear destination_root).

Lemma steady_copy_entry u p md : ".." ∉ p -> steady any (copy_entry source_root destination_root u p md).
Proof.
  intros Hp. unfold copy_entry. eapply (steady_bind (fun rel => ".." ∉ rel)).
  - intros d Hd. split; [done|]. intros rel. unfold lift, relative_to. cbn. destruct (strip_path source_root p) as [r|] eqn:E; [|done].
    intros [= <-]. apply strip_path_Some in E as ->. set_solver.
  - intros rel Hrel. pose proof (Hdst rel Hrel) as Hf. cbv zeta. destruct (bool_decide _); [by apply steady_dirs|].
    destruct (negb _); [by apply steady_ret|]. eapply (steady_bind any).
    + destruct (destination_root ++ rel) as [|x l] eqn:E; [by apply steady_ret|]. by apply steady_dirs, free_up.
    + intros _ _. by apply steady_context, steady_confined, confined_copy.
Qed.

Lemma steady_visit current st name : ".." ∉ current -> name <> ".." -> Forall (fun p => ".." ∉ p) (snd st) ->
  steady (fun st => Forall (fun p => ".." ∉ p) (snd st)) (visit_entry copy_walk (copy_entry source_root destination_root) current st name).
Proof.
  intros Hc Hn Hst. assert (Hj : ".." ∉ join current name) by (unfold join; set_solver). unfold visit_entry.
  eapply (steady_bind any); [apply steady_looks; unfold d_next_entry; solve_looks|]. intros _ _. cbv zeta.
  eapply (steady_bind any); [apply steady_looks; unfold d_symlink_metadata; solve_looks|]. intros md _.
  eapply (steady_bind any); [by apply steady_copy_entry|]. intros m _. apply steady_ret. cbn [snd]. destruct (bool_decide _); [|done].
  by apply Forall_cons.
Qed.

Lemma steady_drain fuel stack u : Forall (fun p => ".." ∉ p) stack ->
  steady any (drain copy_walk (copy_entry source_root destination_root) fuel stack u).
Proof.
  revert stack u. induction fuel as [|fuel IH]; intros [|current rest] u Hs; cbn [drain]; try by apply steady_ret.
  apply Forall_cons in Hs as [Hc Hs]. eapply (steady_bind (fun found => forall names, found = Some names -> ".." ∉ names)).
  - cbn [copy_walk ws_read]. eapply steady_try; [by apply steady_read_dir|]. intros [names|[]] Hr; try by apply steady_throw.
    + apply steady_ret. intros names' [= <-]. by apply Hr.
    + by apply steady_ret.
  - intros [names|] Hn; [|by apply IH]. specialize (Hn names eq_refl).
    eapply (steady_bind (fun st => Forall (fun p => ".." ∉ p) (snd st))).
    + apply steady_fold; [|done]. intros st name Hin Hst. apply steady_visit; [done| |done]. by intros ->.
    + intros st Hst. eapply (steady_bind any); [apply steady_looks; unfold d_next_entry; solve_looks|]. intros _ _. by apply IH.
Qed.

Lemma steady_copy_tree current : ".." ∉ current -> steady any (copy_tree_recursive source_root destination_root current).
Proof.
  intros Hc d Hd. unfold copy_tree_recursive, walk_from.
  destruct (steady_drain (S (size (nodes d))) [current] tt ltac:(by repeat constructor) d Hd) as [H1 _].
  destruct (drain _ _ _ _ _ d) as [r d']. done.
Qed.
End Copy.

(** ** The snapshots *)

Section Restore.
Context `{SetIter, !SetIterLaws} (text_of : bytes -> option string).

(** Every repository of the text has a place that is clear. *)
Definition clear_text (content : string) : Prop :=
  Forall (fun section => clear (join_str [] (wrs_location section))) (worker_parse_repo_sections_full content).
Definition clear_locations (locations : gmap string string) : Prop := forall name location, locations !! name = Some location -> clear (join_str [] location).
(** The texts of the files of [repos.conf]. *)
Context (text_ok : string -> Prop).
Context (Hconf : forall name b t content, ns0 !! (base ++ ["repos.conf"; name]) = Some (FileNode b t) -> text_of b = Some content -> text_ok content).

Lemma steady_read_text name : name <> ".." ->
  steady (fun o => forall content, o = Some content -> text_ok content) (read_text (E := Error) text_of (join (join base "repos.conf") name)).
Proof.
  intros Hn. set (p := join (join base "repos.conf") name).
  assert (Hp : ".." ∉ p) by (unfold p, join; set_solver). assert (Hb : p = base ++ ["repos.conf"; name]) by (unfold p, join; by rewrite <- app_assoc).
  eapply (steady_try (fun b => forall content, text_of b = Some content -> text_ok content)).
  - intros d Hd. unfold d_read. assert (Hl : looks (d_read p)) by (unfold d_read, d_open, d_read_all; solve_looks).
    destruct (steady_looks _ Hl d Hd) as [Hd' _]. split; [done|]. intros b Hr content Hc. unfold d_read in *. destruct (bind _ _ d) as [r d'] eqn:Eb.
    cbn [fst snd] in *. subst r. apply disk_bind_Ok in Eb as (q & d1 & Ho & Hr). apply observe_Ok in Ho as [_ Ho]. apply observe_Ok in Hr as [Hs Hr].
    rewrite <- (st_nodes _ _ Hs) in Ho.
    destruct (find_node true p (nodes d')) as [[q' n]|] eqn:Ef; [|done]. injection Ho as <-. apply find_node_plain in Ef as [-> Hn']; [|by destruct Hd'|done].
    cbn [fst] in Hr. rewrite Hn' in Hr. destruct n as [b' t| |]; try done. injection Hr as ->.
    eapply (Hconf name b t); [|done]. rewrite <- Hb. rewrite <- (kb_base _ Hd') by (rewrite Hb; by exists "repos.conf", [name]).
    unfold node_at in Hn'. destruct (nodes d' !! p); [done|]. by case_bool_decide.
  - intros [b|e] Hr; apply steady_ret; [intros content Hc; by eapply Hr|done].
Qed.

Lemma steady_over_conf {M} (I : M -> Prop) (f : M -> string -> M) m : (forall m content, I m -> text_ok content -> I (f m content)) -> I m ->
  steady I (over_repos_conf text_of f (join base "repos.conf") m).
Proof.
  intros Hf Hm. unfold over_repos_conf. eapply steady_try; [apply steady_read_dir; unfold join; set_solver|]. intros [names|e] Hr; [|by apply steady_ret].
  specialize (Hr names eq_refl). apply steady_entries; [|done]. intros m' name Hin Hm'. cbv zeta. eapply (steady_bind any); [apply steady_path_kind|].
  intros [] _; [|by apply steady_ret]. eapply steady_bind; [apply steady_read_text; by intros ->|]. intros [content|] Hc; apply steady_ret; [|done].
  by apply Hf, Hc.
Qed.

(** The locations that the profile is looked for in. *)
Lemma steady_profile_locations c :
  steady (Forall (fun loc => exists content, (text_ok content \/ exists name, pc_repos_conf c !! name = Some content) /\ loc ∈ (parse_repo_sections content).*2))
    (profile_locations text_of c (join base "repos.conf")).
Proof.
  unfold profile_locations. set (I := Forall _). eapply (steady_bind I).
  - apply steady_over_conf; [|constructor]. intros m content Hm Hc. apply Forall_app. split; [done|]. apply Forall_forall. intros loc Hl. by exists content; auto.
  - intros [|loc locs] Hl; apply steady_ret; [|done]. apply Forall_forall. intros loc Hin. apply list_elem_of_In, in_concat in Hin as (ls & Hls & Hin).
    apply in_map_iff in Hls as ([name content] & <- & Hn). apply list_elem_of_In, elem_of_btree_items in Hn. apply list_elem_of_In in Hin. exists content. eauto.
Qed.

(** Where they are all clear, so are the places of the snapshots. *)
Context (Hclear : forall content, text_ok content -> clear_text content).

Lemma steady_read_locations : steady clear_locations (read_repo_locations text_of (join base "repos.conf")).
Proof.
  apply steady_over_conf; [|intros name location Hl; by rewrite lookup_empty in Hl]. intros m content Hm Hc%Hclear. revert Hc. unfold clear_text.
  generalize (worker_parse_repo_sections_full content). intros sections. revert m Hm. induction sections as [|s sections IH]; intros m Hm; [done|].
  intros [Hs Hss]%Forall_cons. cbn [fold_left]. apply IH; [|done]. intros name location [[<- <-]|[_ Hl]]%lookup_insert_Some; [done|by eapply Hm].
Qed.

Lemma steady_restore_repo locations staged u name : clear_locations locations -> ".." ∉ staged -> name <> ".." ->
  steady any (restore_repo locations staged u name).
Proof.
  intros Hl Hs Hn. unfold restore_repo. cbv zeta. assert (Hj : ".." ∉ join staged name) by (unfold join; set_solver).
  eapply (steady_bind any); [apply steady_path_kind|]. intros [] _; [|by apply steady_ret]. destruct (locations !! name) as [location|] eqn:E; [|by apply steady_ret].
  apply steady_copy_tree; [done|by eapply Hl|done].
Qed.
Lemma steady_restore_distfile staged distfiles u name : clear distfiles -> name <> ".." -> steady any (restore_distfile staged distfiles u name).
Proof.
  intros Hd Hn. unfold restore_distfile. cbv zeta. eapply (steady_bind any); [apply steady_path_kind|]. intros b _. destruct (b && _); [|by apply steady_ret].
  apply steady_context, steady_confined, confined_copy, clear_free. by apply clear_join.
Qed.

Lemma steady_restore_staged distfiles staged : clear distfiles -> ".." ∉ staged ->
  steady any (restore_staged_snapshots_inner text_of (join base "repos.conf") distfiles staged).
Proof.
  intros Hd Hs. unfold restore_staged_snapshots_inner. eapply steady_bind; [apply steady_read_locations|]. intros locations Hl. cbv zeta.
  eapply (steady_bind any).
  - eapply steady_try; [apply steady_read_dir; unfold join; set_solver|]. intros [names|e] Hr; [|by apply steady_ret]. specialize (Hr names eq_refl).
    apply steady_entries; [|done]. intros u name Hin _. apply steady_restore_repo; [done|unfold join; set_solver|by intros ->].
  - intros _ _. eapply steady_try; [apply steady_read_dir; unfold join; set_solver|]. intros [names|e] Hr; [|by apply steady_ret].
    specialize (Hr names eq_refl). eapply (steady_bind any); [by apply steady_dirs, clear_free|]. intros _ _.
    apply steady_entries; [|done]. intros u name Hin _. apply steady_restore_distfile; [done|by intros ->].
Qed.
End Restore.

(** ** The inline snapshots *)

Lemma steady_spelled ctx p as_dir b : free p -> steady any (with_context ctx (write_spelled p as_dir b)).
Proof.
  intros Hf. apply steady_context, steady_confined. unfold write_spelled. destruct as_dir; [apply confined_looks, looks_observe|by apply confined_write].
Qed.

Lemma single_component_inside dir name : is_valid_distfile_basename name = true -> inside dir (join_str dir name).
Proof.
  unfold is_valid_distfile_basename, is_single_normal_path_component. intros [_ Hc]%andb_true_iff. unfold join_str.
  destruct (components name) as [|[| | |n] [|]] eqn:E; try done. simpl. apply inside_join, inside_refl.
  assert (Hin : Normal n ∈ components name) by (rewrite E; apply list_elem_of_here). by destruct (components_normal _ _ Hin) as (_ & _ & ? & _).
Qed.

Lemma steady_restore_snapshots c locations distfiles : clear_locations locations -> clear distfiles ->
  steady any (restore_snapshots_inner c locations distfiles).
Proof.
  intros Hl Hd. unfold restore_snapshots_inner. eapply (steady_bind any).
  - apply steady_for. intros [name files] _. cbn [fst snd]. destruct (locations !! name) as [location|] eqn:E; [|by apply steady_ret]. apply Hl in E.
    apply steady_for. intros [rel content] _. unfold restore_repo_file. cbn [fst snd]. destruct (safe_relative rel) eqn:Hs; [|by apply steady_ret].
    destruct (relative_inside (join_str [] location) rel Hs) as (Hi & Hup & [q Hq]). cbv zeta. rewrite Hq.
    eapply (steady_bind any); [apply steady_dirs; eapply clear_inside; [done|by apply Hup]|]. intros _ _. apply steady_spelled. by eapply clear_inside.
  - intros _ _. eapply (steady_bind any); [destruct (bool_decide _); [by apply steady_ret|by apply steady_dirs, clear_free]|]. intros _ _.
    apply steady_for. intros [name b] _. cbn [fst snd]. destruct (is_valid_distfile_basename name) eqn:Hn; [|by apply steady_ret].
    apply steady_spelled. eapply clear_inside; [done|by apply single_component_inside].
Qed.

(** ** The places of the repositories

    A repository whose place is where the server mounts it: the place is there, or it is
    created. *)

Lemma make_dirs_present p above todo d : is_Some (nodes d !! p) -> is_Some (nodes (snd (make_dirs above todo d)) !! p).
Proof.
  revert above d. induction todo as [|c todo IH]; intros above d Hp; [done|]. cbn [make_dirs].
  destruct (find_node true _ _) as [[q []]|[]]; try done; [by apply IH|]. destruct (resolve _ _ _) as [q|]; [|done].
  destruct (nodes d !! q); [done|]. apply IH. cbn. rewrite lookup_insert_is_Some'. right. unfold touch_parent.
  destruct (nodes d !! removelast q) as [[]|]; try done. rewrite lookup_insert_is_Some'. by right.
Qed.
Lemma create_dir_all_present p dir d : is_Some (nodes d !! p) -> is_Some (nodes (snd (d_create_dir_all dir d)) !! p).
Proof.
  intros Hp. unfold d_create_dir_all, faulty. pose proof (pop_same d) as Hs. destruct (pop_disk_fault d) as [[f|] d0]; cbn [snd] in *;
    rewrite <- (st_nodes _ _ Hs) in Hp; [|by apply make_dirs_present]. destruct (fault_written f); [by apply make_dirs_present|done].
Qed.

(** A link is not made over what is there. *)
Lemma symlink_refused target p d : keeps_base d -> ".." ∉ p -> is_Some (nodes d !! p) -> keeps_base (snd (d_symlink target p d)).
Proof.
  intros Hd Hp [n Hn]. unfold d_symlink, faulty. pose proof (pop_same d) as Hs. destruct (pop_disk_fault d) as [f d0]. cbn [snd] in Hs.
  assert (Hd0 : keeps_base d0) by (destruct Hd; constructor; by rewrite (st_nodes _ _ Hs)).
  destruct f as [f|]; [by cbn; destruct (fault_written f)|]. destruct target; [done|].
  destruct (resolve false p (nodes d0)) as [q|] eqn:Er; [|done]. apply resolve_plain in Er as ->; [|apply Hd0|done].
  unfold node_at. by rewrite (st_nodes _ _ Hs), Hn.
Qed.

Section Ensure.
Context (text_of : bytes -> option string) (repos_base repos_conf_base remap_base : path) (filename name location : string).
Let loc := join_str [] location.
Context (Hplace : join_str repos_base name = loc) (Hclear : clear loc) (Hne : loc <> []).

Lemma steady_ensure : steady any (ensure_location text_of false repos_base repos_conf_base remap_base filename (name, location)).
Proof.
  pose proof (clear_free _ Hclear) as Hfree. unfold ensure_location. destruct (negb _); [by apply steady_throw|]. fold loc. cbv zeta. rewrite Hplace.
  unfold needs_remap. cbn [andb]. eapply (steady_bind (fun b => b = false)); [by apply steady_ret|]. intros b ->.
  eapply (steady_bind any).
  { unfold existing_location. eapply (steady_try any); [apply steady_looks; unfold d_symlink_metadata; solve_looks|]. intros [md|e] _; [|by apply steady_ret].
    assert (Hl : steady any (leads_to_dir md loc)) by (apply steady_looks; unfold leads_to_dir, path_kind_is, d_metadata; solve_looks).
    eapply (steady_bind (fun b => b = false)); [by apply steady_ret|]. intros b ->. eapply (steady_bind any); [done|]. intros [] _; [by apply steady_ret|].
    eapply (steady_bind any); [apply steady_context, steady_confined, confined_remove; [apply free_up|done|apply Hfree]|]. intros _ _. by apply steady_ret. }
  intros [] _; [by apply steady_ret|]. intros d Hd. split; [|done]. unfold bind at 1.
  destruct (path_kind_is (E := Error) IsDir loc d) as [[b|e] d1] eqn:Ek; [|destruct (steady_path_kind (E := Error) IsDir loc d Hd) as [? _]; by rewrite Ek in *].
  destruct (steady_path_kind (E := Error) IsDir loc d Hd) as [Hd1 _]. rewrite Ek in Hd1. cbn [snd] in Hd1. destruct b; [|exact (proj1 (steady_dirs _ loc Hfree d1 Hd1))].
  assert (Hsome : is_Some (nodes d1 !! loc)).
  { unfold path_kind_is, try_ in Ek. destruct (d_metadata loc d) as [[md|e] d2] eqn:Em; [|done]. injection Ek as Hk <-. apply observe_Ok in Em as [_ Em].
    destruct (find_node true loc (nodes d2)) as [[q n]|] eqn:Ef; [|done]. apply find_node_plain in Ef as [_ Hn]; [|apply Hd1|apply Hfree].
    unfold node_at in Hn. destruct (nodes d2 !! loc); [done|]. by rewrite bool_decide_false in Hn. }
  clearbody loc. unfold bind, create_parent_dir. destruct loc as [|x l] eqn:El; [done|]. rewrite <- El in *.
  destruct (steady_dirs ("Failed to create parent dir for " +:+ location) (removelast loc) (free_up _ Hfree) d1 Hd1) as [Hd2 _].
  pose proof (create_dir_all_present loc (removelast loc) d1 Hsome) as Hp2. unfold with_context in *.
  destruct (d_create_dir_all (removelast loc) d1) as [[[]|e] d2]; [|done]. cbn [snd] in *.
  pose proof (symlink_refused (string_bytes (joined_text repos_base name)) loc d2 Hd2 (proj1 Hfree) Hp2) as Hd3. by destruct (d_symlink _ _ d2) as [[]].
Qed.
End Ensure.
End Keep.

(** ** The link to the profile

    What ends a set-up: nothing changes but one entry and the times of the directories
    above it, and the only link there is afterwards is this entry, with a target in [T]. *)

Definition linking {E A} (p : path) (T : bytes -> Prop) (m : StateResult Disk E A) : Prop := forall d, plain_tree (nodes d) ->
  (forall q, ~ q `prefix_of` p -> nodes (snd (m d)) !! q = nodes d !! q) /\
  forall q b t, nodes (snd (m d)) !! q = Some (LinkNode b t) -> q = p /\ T b.

Lemma prefix_up (p q : path) : q `prefix_of` p -> removelast q `prefix_of` p.
Proof. intros Hq. etrans; [|exact Hq]. destruct (removelast_prefix q) as [r Hr]. by exists r. Qed.

Lemma profile_locations_looks `{SetIter} text_of c base : looks (profile_locations text_of c base).
Proof.
  unfold profile_locations, over_repos_conf. apply looks_bind; [|intros on_disk; apply looks_ret]. apply looks_try; [apply looks_observe|].
  intros [names|e]; [|apply looks_ret]. generalize (@nil string). induction names as [|n names IH]; intros m; cbn [for_entries];
    (apply looks_try; [unfold d_next_entry; solve_looks|]); intros [u|e]; try apply looks_ret. apply looks_bind; [|apply IH].
  unfold path_kind_is, d_metadata, read_text, d_read, d_open, d_read_all. solve_looks.
Qed.

Section Linking.
Context (p : path) (Hp : ".." ∉ p) (T : bytes -> Prop).
Abbreviation above := (fun q => q `prefix_of` p).

Lemma linking_confined {E A} (m : StateResult Disk E A) : confined above m -> linking p T m.
Proof. intros Hm d Hd. destruct (Hm d Hd) as [Hpl Hf]. split; [done|]. intros q b t Hl. by apply Hpl in Hl. Qed.
Lemma linking_bind {E A B} (m : StateResult Disk E A) (k : A -> StateResult Disk E B) :
  confined above m -> (forall a, linking p T (k a)) -> linking p T (bind m k).
Proof.
  intros Hm Hk d Hd. destruct (Hm d Hd) as [Hpl Hf]. unfold bind. destruct (m d) as [[a|e] d1]; cbn [snd] in *; [|split; [done|]; intros q b t Hl; by apply Hpl in Hl].
  destruct (Hk a d1 Hpl) as [H1 H2]. split; [|done]. intros q Hq. by rewrite H1, Hf.
Qed.
Lemma linking_try {E F A B} (m : StateResult Disk E A) (k : Result A E -> StateResult Disk F B) :
  confined above m -> (forall r, linking p T (k r)) -> linking p T (try_ m k).
Proof.
  intros Hm Hk d Hd. destruct (Hm d Hd) as [Hpl Hf]. unfold try_. destruct (m d) as [r d1]; cbn [snd] in *.
  destruct (Hk r d1 Hpl) as [H1 H2]. split; [|done]. intros q Hq. by rewrite H1, Hf.
Qed.
Lemma linking_context {A} ctx (m : DiskOp A) : linking p T m -> linking p T (with_context ctx m).
Proof. intros Hm d Hd. unfold with_context. specialize (Hm d Hd). by destruct (m d) as [[a|e] d1]. Qed.

Lemma linking_symlink target : T target -> linking p T (d_symlink target p).
Proof.
  intros HT d Hd. unfold d_symlink, faulty. pose proof (pop_same d) as Hs. destruct (pop_disk_fault d) as [f d0]. cbn [snd] in Hs.
  rewrite <- (st_nodes _ _ Hs) in Hd |- *. assert (Hsame : forall d', d' = d0 -> (forall q, ~ q `prefix_of` p -> nodes d' !! q = nodes d0 !! q) /\
    forall q b t, nodes d' !! q = Some (LinkNode b t) -> q = p /\ T b) by (intros d' ->; split; [done|]; intros q b t Hl; by apply Hd in Hl).
  destruct f as [f|]; [by apply Hsame; cbn; destruct (fault_written f)|]. destruct target as [|x target]; [by apply Hsame|].
  destruct (resolve false p (nodes d0)) as [q|] eqn:Er; [|by apply Hsame]. apply resolve_plain in Er as ->; [|done|done].
  destruct (node_at (nodes d0) p); [by apply Hsame|]. cbn. split.
  - intros q Hq. rewrite lookup_insert_ne by (by intros ->). unfold touch_parent. destruct (nodes d0 !! removelast p) as [[]|]; try done.
    apply lookup_insert_ne. intros <-. apply Hq, prefix_up. done.
  - intros q b t [[<- [= <- <-]]|[_ Hl]]%lookup_insert_Some; [done|]. exfalso. unfold touch_parent in Hl.
    destruct (nodes d0 !! removelast p) as [[]|]; try by apply Hd in Hl. apply lookup_insert_Some in Hl as [[_ ?]|[_ Hl]]; [done|by apply Hd in Hl].
Qed.

Lemma linking_replace target : T (string_bytes target) -> linking p T (replace_link target p).
Proof.
  intros HT. assert (Hk : forall E k q, confined above (path_kind_is (E := E) k q)) by (intros E k q; apply confined_looks; unfold path_kind_is, d_metadata; solve_looks).
  unfold replace_link. apply linking_try; [apply confined_looks, looks_observe|]. intros present. apply linking_bind.
  - destruct (is_ok present); [|apply confined_looks, looks_ret]. apply confined_bind; [apply Hk|]. intros []; [|apply confined_looks, looks_ret].
    apply confined_looks. unfold d_symlink_metadata. solve_looks.
  - intros []; [apply linking_confined, confined_looks, looks_ret|]. apply linking_bind; [|intros _; by apply linking_context, linking_symlink].
    destruct (is_ok present); [|apply confined_looks, looks_ret]. apply confined_try; [|intros r; apply confined_looks, looks_ret].
    apply confined_remove; [apply prefix_up|done|done].
Qed.

Lemma first_directory_looks cs : looks (first_directory cs).
Proof.
  induction cs as [|q cs IH]; cbn [first_directory]; [apply looks_ret|]. apply looks_bind; [unfold path_kind_is, d_metadata; solve_looks|].
  intros []; [apply looks_ret|done].
Qed.
Lemma first_directory_in cs d q d' : first_directory cs d = (Ok (Some q), d') -> q ∈ cs.
Proof.
  revert d. induction cs as [|c cs IH]; intros d; cbn [first_directory]; [done|]. intros (b & d1 & _ & Hr)%disk_bind_Ok.
  destruct b; [injection Hr as <- _; apply list_elem_of_here|]. by eapply list_elem_of_further, IH.
Qed.

Lemma linking_set_profile profile locations :
  (forall loc, loc ∈ "/var/db/repos/gentoo" :: locations -> T (string_bytes (loc +:+ "/profiles/" +:+ profile))) ->
  linking p T (set_profile_inner profile locations p).
Proof.
  intros HT. unfold set_profile_inner. destruct (_ || _); [apply linking_confined, confined_looks, looks_ret|]. intros d Hd.
  match goal with |- context [bind (first_directory ?cs) ?k d] => change (bind (first_directory cs) k d) with
    (match first_directory cs d with (Ok a, d1) => k a d1 | (Err e, d1) => (Err e, d1) end) end.
  pose proof (first_directory_looks (map (fun loc => loc +:+ "/profiles/" +:+ profile) locations) d) as Hl.
  destruct (first_directory _ d) as [[found|e] d1] eqn:Ef; cbn [snd] in Hl; rewrite <- (st_nodes _ _ Hl) in Hd |- *;
    [|split; [done|]; intros q b t Hb; by apply Hd in Hb].
  set (target := default _ found). assert (Ht : T (string_bytes target)).
  { unfold target. destruct found as [q|]; [|exact (HT "/var/db/repos/gentoo" (list_elem_of_here _ _))]. apply first_directory_in in Ef.
    apply list_elem_of_In, in_map_iff in Ef as (loc & <- & Hloc). by apply HT, list_elem_of_further, list_elem_of_In. }
  revert d1 Hl Ef Hd. intros d1 _ _ Hd. revert d1 Hd. apply linking_bind.
  - apply confined_looks. unfold path_kind_is, d_metadata. solve_looks.
  - intros []; [by apply linking_replace|apply linking_confined, confined_looks, looks_ret].
Qed.
End Linking.
