(* ===== verification/ApplyConfig.v ===== *)
(** * The whole set-up of a worker ([apply_config] in [crates/worker/src/portage_setup.rs])

    The set-up writes the client's configuration, sees to the places of the repositories,
    restores the staged and the inline snapshots, writes the profile overlay and the
    patches, and links the profile; here all of it runs on one disk with directories,
    links and failures.  The file writers of [WorkerSetup] are used through their
    interface, and on a disk without links they do what they do to plain files; that the
    steps between them leave the configuration alone is shown in [Confine]. *)

From S2P Require Import Prelude Types Registry World Paths BlobStore Repo Text MakeConf PortageFiles WorkerSetup Disk LocalState LocalSafety Trees Restore Locations Confine.

(** The variables the set-up reads. *)
Record SetupEnv := { parallel_jobs : option string; load_average : option string; skip_sync : bool }.

Section Apply.
Context `{SetIter} (text_of : bytes -> option string).

Definition PORTAGE : path := ["etc"; "portage"].
Definition DISTFILES : path := ["var"; "cache"; "distfiles"].

Definition write_make_conf (env : SetupEnv) (c : PortageConfig) (worker_chost : string) (gpg_key gpg_home : option string) : DIO unit :=
  write_make_conf_inner PORTAGE (pc_make_conf c) worker_chost gpg_key gpg_home (parallel_jobs env) (load_average env).

Definition ensure_repo_locations (env : SetupEnv) (c : PortageConfig) : DIO unit :=
  ensure_repo_locations_inner text_of (skip_sync env) c ["var"; "db"; "repos"] (join PORTAGE "repos.conf") ["var"; "tmp"; "remerge-repos"].

Definition write_repos_conf (env : SetupEnv) (c : PortageConfig) : DIO unit :=
  write_repos_conf_inner PORTAGE c ;; ensure_repo_locations env c.

(** [restore_snapshots_inner], with the reading of repos.conf. *)
Definition restore_inline_snapshots (c : PortageConfig) (repos_conf_base distfiles_base : path) : DIO unit :=
  do repo_locations <- read_repo_locations text_of repos_conf_base ;;
  restore_snapshots_inner c repo_locations distfiles_base.

Definition apply_config (env : SetupEnv) (c : PortageConfig) (worker_chost : string) (gpg_key gpg_home : option string) : DIO unit :=
  write_make_conf env c worker_chost gpg_key gpg_home ;;
  write_package_use_inner PORTAGE c ;;
  write_package_accept_keywords_inner PORTAGE c ;;
  write_package_license_inner PORTAGE c ;;
  write_package_mask_inner PORTAGE c ;;
  write_package_unmask_inner PORTAGE c ;;
  write_package_env_inner PORTAGE c ;;
  write_env_files_inner PORTAGE c ;;
  write_repos_conf env c ;;
  restore_staged_snapshots_inner text_of (join PORTAGE "repos.conf") DISTFILES ["var"; "cache"; "remerge"; "workorder"; "snapshots"] ;;
  restore_inline_snapshots c (join PORTAGE "repos.conf") DISTFILES ;;
  write_profile_overlay_inner (join PORTAGE "profile") c ;;
  write_patches_inner (join PORTAGE "patches") c ;;
  set_profile text_of c.

(** [apply_config_inner] *)
Definition apply_config_inner (base : path) (env : SetupEnv) (c : PortageConfig) (worker_chost : string) (gpg_key gpg_home : option string) : DIO unit :=
  apply_config_files base c worker_chost gpg_key gpg_home (parallel_jobs env) (load_average env) ;;
  set_profile_inner (pc_profile c) (concat (map (fun item => (parse_repo_sections item.2).*2) (btree_items (pc_repos_conf c)))) (join base "make.profile").
End Apply.

(** ** The writers on a disk without links *)

(** The regular files of a disk. *)
Definition regular (ns : gmap path Node) : gmap path bytes := omap (fun n => match n with FileNode b _ => Some b | _ => None end) ns.

Lemma regular_lookup ns p b : regular ns !! p = Some b <-> exists t, ns !! p = Some (FileNode b t).
Proof. unfold regular. rewrite lookup_omap. destruct (ns !! p) as [[]|]; simpl; naive_solver. Qed.
Lemma regular_file ns p b t : regular (<[p := FileNode b t]> ns) = <[p := b]> (regular ns).
Proof. unfold regular. by erewrite omap_insert_Some. Qed.
Lemma regular_dir ns p t : regular ns !! p = None -> regular (<[p := DirNode t]> ns) = regular ns.
Proof. intros Hp. unfold regular. rewrite omap_insert_None by done. by apply delete_id. Qed.
Lemma regular_touch p now ns : regular (touch_parent p now ns) = regular ns.
Proof.
  unfold touch_parent. destruct (ns !! removelast p) as [[]|] eqn:E; try done. apply regular_dir. unfold regular. by rewrite lookup_omap, E.
Qed.

(** A run on the disk that succeeds is a run on its regular files. *)
Definition tracks {E A} (m : StateResult Disk E A) (m' : Comp E A) : Prop := forall d w a d',
  plain_tree (nodes d) -> files w = regular (nodes d) -> faults w = [] -> m d = (Ok a, d') ->
  exists w', m' w = (Ok a, w') /\ plain_tree (nodes d') /\ files w' = regular (nodes d') /\ faults w' = [].

Lemma tracks_context {A} ctx (m : DiskOp A) (m' : FsOp A) : tracks m m' -> tracks (with_context ctx m) (with_context ctx m').
Proof.
  intros Hm d w a d' Hp Hf Hq Hr. apply disk_context_Ok in Hr. destruct (Hm d w a d' Hp Hf Hq Hr) as (w' & Hw & H1). exists w'. split; [|done].
  unfold with_context. by rewrite Hw.
Qed.

Lemma faulty_Ok {A} bad (good : DiskOp A) d a d' : faulty bad good d = (Ok a, d') -> exists d0, same_tree d d0 /\ good d0 = (Ok a, d').
Proof. unfold faulty. pose proof (pop_same d) as Hp. destruct (pop_disk_fault d) as [[f|] d0]; [done|]. intros Hg. by exists d0. Qed.

Lemma make_dirs_tracks above todo d d' : ".." ∉ above ++ todo -> plain_tree (nodes d) -> make_dirs above todo d = (Ok tt, d') ->
  plain_tree (nodes d') /\ regular (nodes d') = regular (nodes d).
Proof.
  revert above d. induction todo as [|c todo IH]; intros above d Hdd Hp; cbn [make_dirs]; [by intros [= <-]|].
  assert (Hassoc : above ++ c :: todo = join above c ++ todo) by (unfold join; by rewrite <- app_assoc). rewrite Hassoc in Hdd.
  destruct (find_node true (join above c) (nodes d)) as [[q [b t|t|b t]]|[]]; try done; [by apply IH|].
  destruct (resolve false (join above c) (nodes d)) as [q|] eqn:Er; [|done]. apply resolve_plain in Er as ->; [|done|set_solver].
  destruct (nodes d !! join above c) eqn:En; [done|]. intros Hr.
  destruct (put_entry_confined (fun _ => True) ltac:(done) (join above c) (DirNode (disk_clock d)) d) as [Hp' _]; [done..|].
  destruct (IH _ _ Hdd Hp' Hr) as [H1 H2]. split; [done|]. rewrite H2. simpl. rewrite regular_dir; [apply regular_touch|].
  rewrite regular_touch. unfold regular. by rewrite lookup_omap, En.
Qed.

Lemma tracks_create_dir_all p : ".." ∉ p -> tracks (d_create_dir_all p) (fs_create_dir_all p).
Proof.
  intros Hdd d w [] d' Hp Hf Hq (d0 & Hs & Hr)%faulty_Ok. exists w. unfold fs_create_dir_all, guarded, pop_fault. rewrite Hq.
  apply make_dirs_tracks in Hr as [H1 H2]; [|done|by rewrite (st_nodes _ _ Hs)]. split_and!; try done. by rewrite H2, (st_nodes _ _ Hs).
Qed.

Lemma d_write_Ok p b d d' : ".." ∉ p -> plain_tree (nodes d) -> d_write p b d = (Ok tt, d') ->
  plain_tree (nodes d') /\ regular (nodes d') = <[p := b]> (regular (nodes d)).
Proof.
  intros Hdd Hp. unfold d_write, bind. destruct (d_create p d) as [[q|] d1] eqn:Ec; [|done]. intros (d2 & Hs2 & Ha)%faulty_Ok.
  assert (Hq : q = p /\ plain_tree (nodes d1) /\ exists t, nodes d1 !! p = Some (FileNode [] t) /\ regular (nodes d1) = <[p := []]> (regular (nodes d))).
  { apply faulty_Ok in Ec as (d0 & Hs0 & Hc). rewrite <- (st_nodes _ _ Hs0) in Hp |- *. destruct (resolve true p (nodes d0)) as [q'|] eqn:Er; [|done].
    apply resolve_plain in Er as ->; [|done|done]. destruct (node_at (nodes d0) p) as [[c t|t|c t]|]; try done; injection Hc as <- <-; cbn.
    - split; [done|]. split; [by apply plain_insert|]. eexists. rewrite lookup_insert_eq. split; [done|]. by rewrite regular_file.
    - split; [done|]. destruct (put_entry_confined (fun _ => True) ltac:(done) p (FileNode [] (disk_clock d0)) d0) as [Hp' _]; [done..|]. split; [done|].
      eexists. rewrite lookup_insert_eq. split; [done|]. by rewrite regular_file, regular_touch. }
  destruct Hq as (-> & Hp1 & t & Hn1 & Hr1). rewrite <- (st_nodes _ _ Hs2) in Hp1, Hn1, Hr1. injection Ha as <-. unfold append_to. rewrite Hn1. cbn.
  split; [by apply plain_insert|]. by rewrite regular_file, Hr1, insert_insert_eq.
Qed.

Lemma tracks_write p b : ".." ∉ p -> tracks (d_write p b) (fs_write p b).
Proof.
  intros Hdd d w [] d' Hp Hf Hq Hr. apply d_write_Ok in Hr as [H1 H2]; [|done|done]. unfold fs_write, guarded, pop_fault. rewrite Hq.
  eexists. split; [done|]. cbn. by rewrite Hf.
Qed.

Lemma tracks_lawful (P : path -> Prop) : (forall p, P p -> ".." ∉ p) -> lawful P (fun m m' => tracks m m').
Proof.
  intros HP. constructor.
  - intros d w a d' Hp Hf Hq [= <- <-]. by exists w.
  - intros m m' k k' Hm Hk d w a d' Hp Hf Hq (u & d1 & Hr & Hr1)%disk_bind_Ok. destruct (Hm d w u d1 Hp Hf Hq Hr) as (w1 & Hw1 & Hp1 & Hf1 & Hq1).
    destruct (Hk u d1 w1 a d' Hp1 Hf1 Hq1 Hr1) as (w' & Hw' & Hrest). exists w'. split; [|done]. unfold bind. by rewrite Hw1.
  - intros ctx p Hp. by apply tracks_context, tracks_create_dir_all, HP.
  - intros ctx p b Hp. by apply tracks_context, tracks_write, HP.
  - intros ctx. apply tracks_context. intros d w a d' _ _ _ Hr. cbn in Hr. apply observe_Ok in Hr. naive_solver.
Qed.

(** Some of the steps: those up to repos.conf, which come before the snapshots, and those
    after them. *)
Definition part (base : path) (c : PortageConfig) (worker_chost : string) (gpg_key gpg_home jobs load : option string) (i j : nat) (S : Type) `{SetupFs S} :
    list (string * StateResult S Error unit) := take j (drop i (setup_steps base c worker_chost gpg_key gpg_home jobs load)).

(** A step is in the list of steps. *)
Ltac in_steps := unfold part, setup_steps; cbn [take drop]; repeat first [apply list_elem_of_here | apply list_elem_of_further].

(** [base], what is below it, and the directories above it. *)
Definition touched (base p : path) : Prop := under base p \/ p `prefix_of` base.

Lemma touched_up base p : touched base p -> touched base (removelast p).
Proof.
  intros [[q ->]|[q ->]].
  - destruct q as [|c q] using rev_ind; [right; rewrite app_nil_r; destruct (removelast_prefix base) as [q Hq]; by exists q|].
    left. rewrite app_assoc, removelast_last. by exists q.
  - right. destruct (removelast_prefix p) as [r Hr]. exists (r ++ q). rewrite Hr at 1. by rewrite app_assoc.
Qed.

Section OnDisk.
Context (base : path) (Hbase : ".." ∉ base).

Lemma inside_base n p : n <> ".." -> inside (join base n) p -> (".." ∉ p) /\ under base p.
Proof. intros Hn (q & -> & Hq). unfold join. split; [set_solver|]. rewrite <- app_assoc. by eexists. Qed.

Lemma confined_lawful (R : path -> Prop) n : (forall p, R p -> R (removelast p)) -> (forall p, (".." ∉ p) -> under base p -> R p) -> n <> ".." ->
  lawful (S1 := Disk) (S2 := Disk) (inside (join base n)) (fun m _ => confined R m).
Proof.
  intros Hup HR Hn. constructor; intros; try match goal with H : inside _ _ |- _ => apply inside_base in H as [Hdd Hu]; [|done]; pose proof (HR _ Hdd Hu) as Ht end.
  - apply confined_looks, looks_ret.
  - by apply confined_bind.
  - apply confined_with_context, confined_create_dir_all; [apply Hup|done..].
  - apply confined_with_context. cbn. unfold d_write. eapply (confined_bind_if _ (fun q => q = p)).
    + apply confined_create; [apply Hup|done..].
    + intros d q d' Hp. by apply d_create_at.
    + intros q ->. by apply confined_append.
  - apply confined_with_context, confined_looks, looks_observe.
Qed.

Section Run.
Context (c : PortageConfig) (worker_chost : string) (gpg_key gpg_home jobs load : option string).
Abbreviation steps S := (setup_steps (S := S) base c worker_chost gpg_key gpg_home jobs load).
Abbreviation parts i j S := (part base c worker_chost gpg_key gpg_home jobs load i j S).

Lemma part_confined R i j : (forall p, R p -> R (removelast p)) -> (forall p, (".." ∉ p) -> under base p -> R p) -> confined R (run_all (parts i j Disk)).
Proof.
  intros Hup HR. apply (related_run_all (S1 := Disk) (S2 := Disk) (inside (join base "")) (fun m _ => confined R m) (parts i j Disk) (parts i j Disk)).
  - by apply (confined_lawful R "").
  - apply Forall2_take, Forall2_drop, (steps_related (fun _ m _ => confined R m)). intros n Hn. by apply confined_lawful.
Qed.
Lemma part_touched i j : confined (touched base) (run_all (parts i j Disk)).
Proof. apply part_confined; [apply touched_up|]. intros p _ Hu. by left. Qed.
Lemma part_dotless i j d : plain_tree (nodes d) -> (forall p n, nodes d !! p = Some n -> ".." ∉ p) ->
  forall p n, nodes (snd (run_all (parts i j Disk) d)) !! p = Some n -> ".." ∉ p.
Proof.
  intros Hp Hn p n Hl Hin. destruct (part_confined (fun p => ".." ∉ p) i j) with (d := d) as [_ Hf]; [|done|done|].
  - intros q Hq. destruct (removelast_prefix q) as [r Hr]. rewrite Hr in Hq. set_solver.
  - rewrite Hf in Hl by auto. by eapply Hn.
Qed.

Lemma part_tracks i j : tracks (run_all (parts i j Disk)) (run_all (parts i j World)).
Proof.
  apply (related_run_all (fun p => ".." ∉ p) (fun m m' => tracks m m') (parts i j Disk) (parts i j World)).
  - by apply tracks_lawful.
  - apply Forall2_take, Forall2_drop, (steps_related (fun _ m m' => tracks m m')). intros n Hn. apply tracks_lawful. intros p Hp. by apply (inside_base n p).
Qed.

(** The package files and their contents. *)
Definition package_contents : list (string * string) :=
  List.filter (fun x => negb (is_empty (snd x)))
    [("package.use", package_use_text (pc_package_use c)); ("package.accept_keywords", package_keywords_text (pc_package_accept_keywords c));
     ("package.license", package_license_text (pc_package_license c)); ("package.mask", package_atoms_text (pc_package_mask c));
     ("package.unmask", package_atoms_text (pc_package_unmask c)); ("package.env", package_env_text (pc_package_env c))].

Lemma part_names i j S `{SetupFs S} : NoDup (map fst (parts i j S)).
Proof.
  assert (Hnd : NoDup (map fst (steps S))) by (apply (bool_decide_unpack _); vm_compute; reflexivity).
  unfold part. change (map fst (take j (drop i (steps S)))) with (fst <$> take j (drop i (steps S))). rewrite fmap_take, fmap_drop.
  eapply sublist_NoDup; [exact Hnd|]. etrans; [apply sublist_take|apply sublist_drop].
Qed.
Lemma part_foots i j : Forall (fun x => foots (inside (join base (fst x))) (snd x)) (parts i j World).
Proof. apply Forall_take, Forall_drop, setup_foots. Qed.

(** What a step leaves below its name is what the sequence leaves there. *)
Lemma step_left i j name m w w' : run_all (parts i j World) w = (Ok tt, w') -> (name, m) ∈ parts i j World ->
  exists w1 w2, m w1 = (Ok tt, w2) /\ forall q, ".." ∉ q ->
    files w1 !! (base ++ name :: q) = files w !! (base ++ name :: q) /\ files w2 !! (base ++ name :: q) = files w' !! (base ++ name :: q).
Proof.
  intros Hr Hin. destruct (run_all_at base (parts i j World) name m w w' (part_names i j World) (part_foots i j) Hr Hin) as (w1 & w2 & Hm & Hw).
  exists w1, w2. split; [done|]. intros q Hq. apply Hw. exists q. split; [|done]. unfold join. by rewrite <- app_assoc.
Qed.

Lemma package_written name content w w' : run_all (parts 0 9 World) w = (Ok tt, w') -> (name, content) ∈ package_contents ->
  files w' !! (base ++ [name; "remerge"]) = Some (string_bytes content).
Proof.
  intros Hr Hin. unfold package_contents in Hin. apply list_elem_of_In, filter_In in Hin as [Hin Hne]. cbn [snd] in Hne. apply negb_true_iff in Hne.
  assert (Hstep : exists nil, (content <> "" -> nil = false) /\ (name, write_package_file base name nil content) ∈ parts 0 9 World).
  { cbn [In] in Hin. destruct_or! Hin; try done; simplify_eq; eexists; (split; [|in_steps]);
      unfold package_use_text, package_keywords_text, package_license_text, package_atoms_text, package_env_text;
      match goal with |- _ -> is_nil ?l = false => by destruct l end. }
  destruct Hstep as (nil & Hnil & Hs). rewrite Hnil in Hs by (by apply is_empty_false). destruct (step_left _ _ _ _ _ _ Hr Hs) as (w1 & w2 & Hm & Hq).
  rewrite <- (proj2 (Hq ["remerge"] ltac:(set_solver))). by apply package_file_written in Hm.
Qed.

Lemma named_written dir fs name content w w' : run_all (parts 0 9 World) w = (Ok tt, w') -> (dir, write_named_files (join base dir) fs) ∈ parts 0 9 World ->
  fs !! name = Some content -> plain_file_name name = true -> files w' !! (base ++ [dir; name]) = Some (string_bytes content).
Proof.
  intros Hr Hin Hn Hp. destruct (step_left _ _ _ _ _ _ Hr Hin) as (w1 & w2 & Hm & Hq). rewrite <- (proj2 (Hq [name] ltac:(by apply plain_name_up))).
  apply (named_file_written _ _ _ _ _ _ Hm Hn) in Hp. unfold join in Hp. by rewrite <- app_assoc in Hp.
Qed.

(** A file of the profile overlay or a patch, if no other name spells the same path. *)
Lemma relative_written what dir fs rel content w w' : run_all (parts 9 2 World) w = (Ok tt, w') -> (dir, write_relative_files what (join base dir) fs) ∈ parts 9 2 World ->
  fs !! rel = Some content -> sole_name fs rel -> files w' !! join_str (join base dir) rel = Some (string_bytes content).
Proof.
  intros Hr Hin Hn Hs. destruct (relative_inside (join base dir) rel (proj1 Hs)) as ((q & Hq & Hdd) & _). destruct (step_left _ _ _ _ _ _ Hr Hin) as (w1 & w2 & Hm & Hl).
  rewrite Hq. unfold join. rewrite <- app_assoc. cbn [app]. rewrite <- (proj2 (Hl q Hdd)). replace (base ++ dir :: q) with (join_str (join base dir) rel) by (rewrite Hq; unfold join; by rewrite <- app_assoc).
  by eapply relative_file_written.
Qed.

(** Each file of repos.conf was there before or is one that was sent. *)
Lemma repos_conf_files name b w w' : run_all (parts 0 9 World) w = (Ok tt, w') -> name <> ".." -> files w' !! (base ++ ["repos.conf"; name]) = Some b ->
  files w !! (base ++ ["repos.conf"; name]) = Some b \/ exists n content, pc_repos_conf c !! n = Some content /\ b = string_bytes content.
Proof.
  intros Hr Hn Hb. destruct (step_left _ _ "repos.conf" (write_repos_conf_inner base c) _ _ Hr ltac:(in_steps)) as (w1 & w2 & Hm & Hl).
  destruct (Hl [name] ltac:(set_solver)) as [H1 H2]. rewrite <- H2 in Hb. rewrite <- H1.
  destruct (named_files_only _ _ _ _ Hm (base ++ ["repos.conf"; name])) as [<-|(n & content & Hc & Hb')]; [by left|right]. exists n, content.
  split; [done|congruence].
Qed.
End Run.
End OnDisk.

(** ** The configuration that is in place *)

(** A regular file of a disk. *)
Definition file_on (d : Disk) (p : path) (content : string) : Prop := exists t, nodes d !! p = Some (FileNode (string_bytes content) t).

Section There.
Context (base : path) (c : PortageConfig) (worker_chost : string) (gpg_key gpg_home jobs load : option string).

(** Every configuration file of the order is there with the contents that were sent; the
    names that are not plain names, or not proper relative paths, are passed over, and of
    several names for one overlay file or patch only one can win. *)
Record config_there (d : Disk) : Prop := {
  ct_make_conf : file_on d (base ++ ["make.conf"]) (make_conf_text (pc_make_conf c) worker_chost gpg_key gpg_home jobs load);
  ct_package : forall name content, (name, content) ∈ package_contents c -> file_on d (base ++ [name; "remerge"]) content;
  ct_env : forall name content, pc_env_files c !! name = Some content -> plain_file_name name = true -> file_on d (base ++ ["env"; name]) content;
  ct_repos : forall name content, pc_repos_conf c !! name = Some content -> plain_file_name name = true -> file_on d (base ++ ["repos.conf"; name]) content;
  ct_overlay : forall rel content, pc_profile_overlay c !! rel = Some content -> sole_name (pc_profile_overlay c) rel ->
    file_on d (join_str (base ++ ["profile"]) rel) content;
  ct_patches : forall rel content, pc_patches c !! rel = Some content -> sole_name (pc_patches c) rel -> file_on d (join_str (base ++ ["patches"]) rel) content;
}.

Context (Hbase : ".." ∉ base).
Abbreviation part_on i j S := (part base c worker_chost gpg_key gpg_home jobs load i j S).

Lemma not_above name q : name <> "make.profile" -> ~ (base ++ name :: q) `prefix_of` (join base "make.profile").
Proof. intros Hn [r Hr]. unfold join in Hr. rewrite <- app_assoc in Hr. apply app_inv_head in Hr. simpl in Hr. by injection Hr as He _. Qed.

Lemma late_foots : foots (fun p => exists n, n ∈ ["profile"; "patches"] /\ inside (join base n) p) (run_all (part_on 9 2 World)).
Proof.
  apply run_all_foots. pose proof (part_foots base c worker_chost gpg_key gpg_home jobs load 9 2) as Hf.
  repeat (apply Forall_cons in Hf as [? Hf]; apply Forall_cons; split; [eapply foots_weaken; [|done]; intros q Hq; eexists; split; [|exact Hq]; cbn [fst]; set_solver|]).
  constructor.
Qed.

(** The two groups of steps with something between them and after them that leaves alone
    what they wrote. *)
Lemma steps_leave d d1 d2 d3 d' : plain_tree (nodes d) -> run_all (part_on 0 9 Disk) d = (Ok tt, d1) ->
  plain_tree (nodes d2) -> (forall p, in_base base p -> nodes d2 !! p = nodes d1 !! p) -> run_all (part_on 9 2 Disk) d2 = (Ok tt, d3) ->
  (forall q, ~ q `prefix_of` join base "make.profile" -> nodes d' !! q = nodes d3 !! q) -> config_there d'.
Proof.
  intros Hp H1 Hp2 Hmid H3 Hend.
  set (w := {| files := regular (nodes d); faults := []; next_uuid := 0; clock := 0 |}).
  destruct (part_tracks base Hbase c worker_chost gpg_key gpg_home jobs load 0 9 d w tt d1 Hp eq_refl eq_refl H1) as (w1 & Hw1 & _ & Hf1 & _).
  set (w2 := {| files := regular (nodes d2); faults := []; next_uuid := 0; clock := 0 |}).
  destruct (part_tracks base Hbase c worker_chost gpg_key gpg_home jobs load 9 2 d2 w2 tt d3 Hp2 eq_refl eq_refl H3) as (w3 & Hw3 & _ & Hf3 & _).
  assert (Hlate : forall name q content, name <> "make.profile" -> files w3 !! (base ++ name :: q) = Some (string_bytes content) -> file_on d' (base ++ name :: q) content).
  { intros name q content Hn Hl. rewrite Hf3 in Hl. apply regular_lookup in Hl as [t Hl]. exists t. by rewrite Hend by by apply not_above. }
  assert (Hearly : forall name q content, name ∉ ["profile"; "patches"; "make.profile"] -> files w1 !! (base ++ name :: q) = Some (string_bytes content) ->
    file_on d' (base ++ name :: q) content).
  { intros name q content Hn Hl. apply Hlate; [set_solver|]. pose proof (late_foots w2) as Hf. rewrite Hw3 in Hf. rewrite (foot_files _ _ _ Hf).
    - unfold w2. cbn [files]. rewrite Hf1 in Hl. apply regular_lookup in Hl as [t Hl]. apply regular_lookup. exists t. by rewrite Hmid by (by exists name, q).
    - intros (n & Hin & r & He & _). unfold join in He. rewrite <- app_assoc in He. apply app_inv_head in He. simpl in He. injection He as -> _. set_solver. }
  assert (Hrel : forall dir rel content, dir <> "make.profile" -> safe_relative rel = true -> files w3 !! join_str (join base dir) rel = Some (string_bytes content) ->
    file_on d' (join_str (base ++ [dir]) rel) content).
  { intros dir rel content Hd Hs Hl. change (base ++ [dir]) with (join base dir). destruct (relative_inside (join base dir) rel Hs) as ((q & Hq & _) & _).
    rewrite Hq in Hl |- *. unfold join in Hl |- *. rewrite <- app_assoc in Hl |- *. by apply Hlate. }
  split.
  - apply Hearly; [set_solver|]. destruct (step_left base c worker_chost gpg_key gpg_home jobs load 0 9 "make.conf"
      (write_make_conf_inner base (pc_make_conf c) worker_chost gpg_key gpg_home jobs load) w w1 Hw1 ltac:(in_steps)) as (v1 & v2 & Hm & Hq).
    rewrite <- (proj2 (Hq [] ltac:(set_solver))). apply context_write_Ok in Hm. rewrite Hm. apply lookup_insert_eq.
  - intros name content Hin. apply Hearly; [|by eapply package_written]. unfold package_contents in Hin.
    apply list_elem_of_In, filter_In in Hin as [Hin _]. cbn [In] in Hin. destruct_or! Hin; simplify_eq; set_solver.
  - intros name content Hn Hpn. apply Hearly; [set_solver|]. eapply named_written; eauto. in_steps.
  - intros name content Hn Hpn. apply Hearly; [set_solver|]. eapply named_written; eauto. in_steps.
  - intros rel content Hn Hs. apply Hrel; [done|apply Hs|]. eapply relative_written; eauto. in_steps.
  - intros rel content Hn Hs. apply Hrel; [done|apply Hs|]. eapply relative_written; eauto. in_steps.
Qed.
End There.

Lemma run_all_app (l1 l2 : list (string * DIO unit)) d : l2 <> [] -> run_all (l1 ++ l2) d = bind (run_all l1) (fun _ => run_all l2) d.
Proof.
  intros Hl2. revert d. induction l1 as [|[n m] l1 IH]; intros d; [done|]. destruct l1 as [|x l1].
  - cbn [app run_all]. by destruct l2.
  - change (run_all (((n, m) :: x :: l1) ++ l2) d) with (bind m (fun _ => run_all ((x :: l1) ++ l2)) d).
    change (run_all ((n, m) :: x :: l1)) with (bind m (fun _ => run_all (x :: l1))).
    change (bind m (fun _ => run_all ((x :: l1) ++ l2)) d) with (match m d with (Ok a, d1) => run_all ((x :: l1) ++ l2) d1 | (Err e, d1) => (Err e, d1) end).
    change (bind (bind m (fun _ => run_all (x :: l1))) (fun _ => run_all l2) d) with
      (match match m d with (Ok a, d1) => run_all (x :: l1) d1 | (Err e, d1) => (Err e, d1) end with (Ok a, d1) => run_all l2 d1 | (Err e, d1) => (Err e, d1) end).
    destruct (m d) as [[[]|] d1]; [|done]. apply IH.
Qed.

(** ** The set-up below a base directory *)

(** On a disk without links, whatever names a configuration carries and whatever fails,
    [apply_config_inner] changes only the base directory, what is below it and the
    directories above it; and if it succeeds the configuration is there, and if
    make.profile is a link it leads to the profile in a repository of the order or in the
    main repository. *)
Theorem config_on_disk base env c worker_chost gpg_key gpg_home d :
  ".." ∉ base -> plain_tree (nodes d) ->
  let '(r, d') := apply_config_inner base env c worker_chost gpg_key gpg_home d in
  (forall p, ~ touched base p -> nodes d' !! p = nodes d !! p) /\
  (r = Ok tt -> config_there base c worker_chost gpg_key gpg_home (parallel_jobs env) (load_average env) d' /\
    forall b t, nodes d' !! (base ++ ["make.profile"]) = Some (LinkNode b t) ->
      exists loc, loc ∈ "/var/db/repos/gentoo" :: concat (map (fun item => (parse_repo_sections item.2).*2) (btree_items (pc_repos_conf c))) /\
        b = string_bytes (loc +:+ "/profiles/" +:+ pc_profile c)).
Proof.
  intros Hb Hp. unfold apply_config_inner. set (locations := concat _).
  set (T := fun b => exists loc, loc ∈ "/var/db/repos/gentoo" :: locations /\ b = string_bytes (loc +:+ "/profiles/" +:+ pc_profile c)).
  assert (Hm : ".." ∉ join base "make.profile") by (unfold join; set_solver).
  pose proof (linking_set_profile (join base "make.profile") Hm T (pc_profile c) locations ltac:(intros loc Hl; by exists loc)) as Hlink.
  rewrite apply_config_steps. pose proof (part_touched base Hb c worker_chost gpg_key gpg_home (parallel_jobs env) (load_average env) 0 11 d Hp) as [Hp1 Hf1].
  unfold part in Hp1, Hf1. rewrite drop_0, take_ge in Hp1, Hf1 by (vm_compute; lia). unfold bind.
  destruct (run_all _ d) as [[[]|e] d3] eqn:Er; cbn [snd] in Hp1, Hf1; [|done]. destruct (Hlink d3 Hp1) as [Hf2 HT].
  destruct (set_profile_inner _ _ _ d3) as [r d'] eqn:Es. cbn [snd] in Hf2, HT. split.
  - intros p Hn. rewrite Hf2, Hf1; [done|done|]. intros [q Hq]. apply Hn. unfold join in Hq. destruct q as [|x q _] using rev_ind.
    + left. exists ["make.profile"]. by rewrite app_nil_r in Hq.
    + right. rewrite app_assoc in Hq. apply app_inj_tail in Hq as [-> _]. by exists q.
  - intros ->. split; [|intros b t Hl; by apply HT in Hl as [_ ?]].
    set (l1 := part base c worker_chost gpg_key gpg_home (parallel_jobs env) (load_average env) 0 9 Disk).
    set (l2 := part base c worker_chost gpg_key gpg_home (parallel_jobs env) (load_average env) 9 2 Disk).
    change (setup_steps (S := Disk) base c worker_chost gpg_key gpg_home (parallel_jobs env) (load_average env)) with (l1 ++ l2) in Er.
    rewrite run_all_app in Er by done. apply disk_bind_Ok in Er as ([] & d1 & H1 & H2).
    eapply (steps_leave base c worker_chost gpg_key gpg_home _ _ Hb d d1 d1 d3); try done.
    pose proof (part_touched base Hb c worker_chost gpg_key gpg_home (parallel_jobs env) (load_average env) 0 9 d Hp) as [Hpl _]. fold l1 in Hpl. by rewrite H1 in Hpl.
Qed.

(** ** The whole set-up *)

Lemma join_str_up base s : ".." ∉ base -> ".." ∉ join_str base s.
Proof.
  unfold join_str. assert (Hn : forall n, Normal n ∈ components s -> n <> "..") by (intros n Hin; by destruct (components_normal _ _ Hin) as (_ & _ & ? & _)).
  revert Hn. generalize (components s). intros cs. revert base. induction cs as [|k cs IH]; intros base Hn Hb; [done|]. cbn [fold_left]. apply IH; [set_solver|].
  destruct k as [| | |n]; cbn [push]; [set_solver|done|destruct (removelast_prefix base) as [r Hr]; rewrite Hr in Hb; set_solver|].
  specialize (Hn n (list_elem_of_here _ _)). unfold join. set_solver.
Qed.

(** A place that is neither in the configuration directory nor above it. *)
Definition elsewhere (p : path) : Prop := ~ p `prefix_of` PORTAGE /\ ~ PORTAGE `prefix_of` p.
Lemma PORTAGE_up : ".." ∉ PORTAGE.
Proof. unfold PORTAGE. set_solver. Qed.
Lemma elsewhere_clear p : ".." ∉ p -> elsewhere p -> clear PORTAGE p.
Proof.
  intros Hp [H1 H2] q Hq. split; [set_solver|]. intros (x & r & He).
  destruct (prefix_weak_total p PORTAGE (p ++ q)) as [?|?]; [by exists q|by exists (x :: r); rewrite He|done|done].
Qed.

Section Whole.
Context `{SetIter, !SetIterLaws} (text_of : bytes -> option string) (Htext : forall b s, text_of b = Some s -> string_bytes s = b).
Context (env : SetupEnv) (c : PortageConfig) (worker_chost : string) (gpg_key gpg_home : option string) (d : Disk).

(** A text of the image's repos.conf, or of the order's. *)
Definition image_text (content : string) : Prop :=
  exists name b t, nodes d !! (PORTAGE ++ ["repos.conf"; name]) = Some (FileNode b t) /\ text_of b = Some content.
Definition order_text (content : string) : Prop := exists name, pc_repos_conf c !! name = Some content.
(** The repositories of the image are outside the configuration directory; those of the
    order are where the server mounts repositories. *)
Record places : Prop := {
  pl_image : forall content section, image_text content -> section ∈ worker_parse_repo_sections_full content -> elsewhere (join_str [] (wrs_location section));
  pl_order : forall content section, order_text content -> section ∈ worker_parse_repo_sections_full content ->
    file_name_ok (wrs_name section) /\ join_str [] (wrs_location section) = ["var"; "db"; "repos"; wrs_name section];
}.
Context (Hplaces : places) (Hskip : skip_sync env = false).
Context (Hplain : plain_tree (nodes d)) (Hnames : forall p n, nodes d !! p = Some n -> ".." ∉ p).

Abbreviation early := (run_all (part PORTAGE c worker_chost gpg_key gpg_home (parallel_jobs env) (load_average env) 0 9 Disk)).
Abbreviation late := (run_all (part PORTAGE c worker_chost gpg_key gpg_home (parallel_jobs env) (load_average env) 9 2 Disk)).
Abbreviation conf := (join PORTAGE "repos.conf").
Abbreviation staging := ["var"; "cache"; "remerge"; "workorder"; "snapshots"].
Definition places_and_snapshots : DIO unit :=
  ensure_repo_locations text_of env c ;; restore_staged_snapshots_inner text_of conf DISTFILES staging ;; restore_inline_snapshots text_of c conf DISTFILES.

Lemma apply_config_order :
  apply_config text_of env c worker_chost gpg_key gpg_home d = bind early (fun _ => bind places_and_snapshots (fun _ => bind late (fun _ => set_profile text_of c))) d.
Proof.
  unfold apply_config, places_and_snapshots, write_make_conf, write_repos_conf, part. cbn [take drop setup_steps run_all]. unfold bind.
  repeat match goal with |- context [match ?m ?s with (_, _) => _ end] => destruct (m s) as [[[]|] ?]; [|reflexivity] end. reflexivity.
Qed.

Lemma order_place content section : order_text content -> section ∈ worker_parse_repo_sections_full content ->
  join_str ["var"; "db"; "repos"] (wrs_name section) = join_str [] (wrs_location section) /\ elsewhere (join_str [] (wrs_location section)).
Proof.
  intros Ho Hs. destruct (pl_order Hplaces _ _ Ho Hs) as [Hn Hl]. rewrite join_str_name, Hl by done. split; [done|].
  split; intros [r Hr]; discriminate Hr.
Qed.

(** The texts in place when the configuration is written. *)
Abbreviation text_there := (fun content => image_text content \/ order_text content).
Lemma texts_clear content : text_there content -> clear_text PORTAGE content.
Proof.
  intros Ht. apply Forall_forall. intros section Hs. apply elsewhere_clear; [apply join_str_up; set_solver|].
  destruct Ht as [Hi|Ho]; [by eapply pl_image|by eapply order_place].
Qed.

Lemma texts_after d1 name b t content : early d = (Ok tt, d1) -> nodes d1 !! (PORTAGE ++ ["repos.conf"; name]) = Some (FileNode b t) -> text_of b = Some content ->
  text_there content.
Proof.
  intros H1 Hn Hc. pose proof PORTAGE_up as Hup.
  pose proof (part_dotless PORTAGE Hup c worker_chost gpg_key gpg_home (parallel_jobs env) (load_average env) 0 9 d Hplain Hnames) as Hd1. rewrite H1 in Hd1.
  set (w := {| files := regular (nodes d); faults := []; next_uuid := 0; clock := 0 |}).
  destruct (part_tracks PORTAGE Hup c worker_chost gpg_key gpg_home _ _ 0 9 d w tt d1 Hplain eq_refl eq_refl H1) as (w1 & Hw1 & _ & Hf1 & _).
  destruct (repos_conf_files PORTAGE Hup c worker_chost gpg_key gpg_home _ _ name b w w1 Hw1) as [Hf|(n & content' & Hn' & ->)].
  - intros ->. apply Hd1 in Hn. set_solver.
  - rewrite Hf1. apply regular_lookup. by exists t.
  - left. apply regular_lookup in Hf as [t' Hf]. by exists name, b, t'.
  - right. apply Htext, (f_equal String.string_of_list_byte) in Hc. unfold string_bytes in Hc. rewrite !String.string_of_list_byte_of_string in Hc. subst content'. by exists n.
Qed.

Lemma places_and_snapshots_steady ns0 :
  (forall name b t content, ns0 !! (PORTAGE ++ ["repos.conf"; name]) = Some (FileNode b t) -> text_of b = Some content -> text_there content) ->
  steady PORTAGE ns0 (fun _ => True) places_and_snapshots.
Proof.
  intros Hconf. pose proof PORTAGE_up as Hup.
  assert (Hdist : clear PORTAGE DISTFILES) by (apply elsewhere_clear; [unfold DISTFILES; set_solver|split; intros [r Hr]; discriminate Hr]).
  unfold places_and_snapshots. apply (steady_bind PORTAGE ns0 (fun _ => True)).
  - unfold ensure_repo_locations, ensure_repo_locations_inner. rewrite Hskip. apply steady_for. intros [file content] Hin. cbn [fst snd].
    apply elem_of_btree_items in Hin. apply steady_for. intros [name location] Hs. unfold parse_repo_sections in Hs.
    apply list_elem_of_In, in_map_iff in Hs as (section & [= <- <-] & Hs). apply list_elem_of_In in Hs.
    destruct (order_place content section) as [Hp He]; [by exists file|done|]. apply steady_ensure; [done|exact Hp|apply elsewhere_clear; [apply join_str_up; set_solver|done]|].
    intros Hz. rewrite Hz in He. destruct He as [He _]. apply He. by exists PORTAGE.
  - intros _ _. apply (steady_bind PORTAGE ns0 (fun _ => True)).
    + eapply (steady_restore_staged PORTAGE Hup ns0 text_of (fun content => text_there content)); [exact Hconf|exact texts_clear|exact Hdist|set_solver].
    + intros _ _. unfold restore_inline_snapshots. eapply (steady_bind PORTAGE ns0).
      * eapply (steady_read_locations PORTAGE Hup ns0 text_of (fun content => text_there content)); [exact Hconf|exact texts_clear].
      * intros locations Hl. by apply steady_restore_snapshots.
Qed.

(** Where a profile may be: in a repository of the image or of the order, or in the main one. *)
Definition profile_place (loc : string) : Prop :=
  loc = "/var/db/repos/gentoo" \/ exists content, (image_text content \/ order_text content) /\ loc ∈ (parse_repo_sections content).*2.

Lemma texts_at_end d1 d2 d3 name b t content : early d = (Ok tt, d1) -> plain_tree (nodes d2) -> (forall p, in_base PORTAGE p -> nodes d2 !! p = nodes d1 !! p) ->
  late d2 = (Ok tt, d3) -> nodes d3 !! (PORTAGE ++ ["repos.conf"; name]) = Some (FileNode b t) -> text_of b = Some content -> text_there content.
Proof.
  intros H1 Hp2 Hmid H3 Hn Hc. pose proof PORTAGE_up as Hup.
  set (w2 := {| files := regular (nodes d2); faults := []; next_uuid := 0; clock := 0 |}).
  destruct (part_tracks PORTAGE Hup c worker_chost gpg_key gpg_home _ _ 9 2 d2 w2 tt d3 Hp2 eq_refl eq_refl H3) as (w3 & Hw3 & _ & Hf3 & _).
  assert (Hr : files w2 !! (PORTAGE ++ ["repos.conf"; name]) = Some b).
  { pose proof (late_foots PORTAGE c worker_chost gpg_key gpg_home (parallel_jobs env) (load_average env) Hup w2) as Hf. rewrite Hw3 in Hf. cbn [snd] in Hf. rewrite <- (foot_files _ _ _ Hf).
    - rewrite Hf3. apply regular_lookup. by exists t.
    - intros (n & Hin & r & He & _). unfold join in He. rewrite <- app_assoc in He. apply app_inv_head in He. simpl in He. injection He as <- _. set_solver. }
  apply regular_lookup in Hr as [t2 Hr]. rewrite Hmid in Hr by (by exists "repos.conf", [name]). by eapply texts_after.
Qed.

Lemma set_profile_links d3 : plain_tree (nodes d3) -> (forall p n, nodes d3 !! p = Some n -> ".." ∉ p) ->
  (forall name b t content, nodes d3 !! (PORTAGE ++ ["repos.conf"; name]) = Some (FileNode b t) -> text_of b = Some content -> text_there content) ->
  (forall q, ~ q `prefix_of` join PORTAGE "make.profile" -> nodes (snd (set_profile text_of c d3)) !! q = nodes d3 !! q) /\
  forall b t, nodes (snd (set_profile text_of c d3)) !! join PORTAGE "make.profile" = Some (LinkNode b t) ->
    exists loc, profile_place loc /\ b = string_bytes (loc +:+ "/profiles/" +:+ pc_profile c).
Proof.
  intros Hp Hn Hconf. pose proof PORTAGE_up as Hup.
  assert (Hk : keeps_base PORTAGE (nodes d3) d3) by (by split).
  destruct (steady_profile_locations PORTAGE Hup (nodes d3) text_of (fun content => text_there content) Hconf c d3 Hk) as [_ Hlocs].
  assert (Hlook : looks (profile_locations text_of c conf)) by apply profile_locations_looks. specialize (Hlook d3).
  unfold set_profile. change ["etc"; "portage"; "repos.conf"] with conf. change ["etc"; "portage"; "make.profile"] with (join PORTAGE "make.profile").
  match goal with |- context [bind ?m ?k d3] => change (bind m k d3) with (match m d3 with (Ok a, d1) => k a d1 | (Err e, d1) => (Err e, d1) end) end.
  destruct (profile_locations text_of c conf d3) as [[locs|e] d4]; cbn [fst snd] in *; rewrite <- (st_nodes _ _ Hlook) in Hp |- *;
    [|split; [done|]; intros b t Hl; by apply Hp in Hl].
  specialize (Hlocs locs eq_refl). rewrite Forall_forall in Hlocs.
  destruct (linking_set_profile (join PORTAGE "make.profile") ltac:(by apply (bool_decide_unpack _))
    (fun b => exists loc, profile_place loc /\ b = string_bytes (loc +:+ "/profiles/" +:+ pc_profile c)) (pc_profile c) locs) with (d := d4) as [H1 H2]; [|done|].
  - intros loc [->|Hin]%elem_of_cons; [exists "/var/db/repos/gentoo"; split; [by left|done]|]. exists loc. split; [|done]. right.
    destruct (Hlocs loc Hin) as (content & Hc & Hl). exists content. split; [|done]. destruct Hc as [?|[name Hc]]; [done|right; by exists name].
  - split; [done|]. intros b t Hl. by apply H2 in Hl as [_ ?].
Qed.
End Whole.

(** C34.  The whole set-up of a worker puts the client's configuration in place.  The worker
    synchronises its repositories itself (REMERGE_SKIP_SYNC is not set); its disk has no
    links; the repositories of the order are at /var/db/repos/<name>, and those that the
    image has in its own repos.conf are not in or above /etc/portage.  If [apply_config]
    then succeeds, make.conf, the package files, the environment files, the repository
    files, the files of the profile overlay and the patches are below /etc/portage with
    the contents that were sent - names that lead elsewhere apart, and of several names
    for one overlay file or patch only one wins -, whatever was restored in between; and a
    link make.profile leads to the client's profile in one of these repositories or in
    the main one. *)
Theorem config_applied `{SetIter, !SetIterLaws} text_of env c worker_chost gpg_key gpg_home d d' :
  (forall b s, text_of b = Some s -> string_bytes s = b) -> skip_sync env = false ->
  plain_tree (nodes d) -> (forall p n, nodes d !! p = Some n -> ".." ∉ p) -> places text_of c d ->
  apply_config text_of env c worker_chost gpg_key gpg_home d = (Ok tt, d') ->
  config_there PORTAGE c worker_chost gpg_key gpg_home (parallel_jobs env) (load_average env) d' /\
  forall b t, nodes d' !! (PORTAGE ++ ["make.profile"]) = Some (LinkNode b t) ->
    exists loc, profile_place text_of c d loc /\ b = string_bytes (loc +:+ "/profiles/" +:+ pc_profile c).
Proof.
  intros Htext Hskip Hp Hn Hpl. rewrite apply_config_order. intros ([] & d1 & H1 & Hr)%disk_bind_Ok.
  apply disk_bind_Ok in Hr as ([] & d2 & H2 & Hr). apply disk_bind_Ok in Hr as ([] & d3 & H3 & Hr).
  pose proof PORTAGE_up as Hup.
  assert (Hk1 : keeps_base PORTAGE (nodes d1) d1).
  { pose proof (part_dotless PORTAGE Hup c worker_chost gpg_key gpg_home (parallel_jobs env) (load_average env) 0 9 d Hp Hn) as Hd1. rewrite H1 in Hd1.
    pose proof (part_touched PORTAGE Hup c worker_chost gpg_key gpg_home (parallel_jobs env) (load_average env) 0 9 d Hp) as [Hp1 _]. rewrite H1 in Hp1. by split. }
  assert (Hmiddle : steady PORTAGE (nodes d1) (fun _ => True) (places_and_snapshots text_of env c)).
  { eapply places_and_snapshots_steady; try done. intros name b t content Hf Hc. by eapply texts_after. }
  destruct (Hmiddle d1 Hk1) as [Hk2 _].
  rewrite H2 in Hk2. cbn [snd] in Hk2. destruct Hk2 as [Hp2 Hn2 Hmid].
  pose proof (part_dotless PORTAGE Hup c worker_chost gpg_key gpg_home (parallel_jobs env) (load_average env) 9 2 d2 Hp2 Hn2) as Hn3. rewrite H3 in Hn3.
  pose proof (part_touched PORTAGE Hup c worker_chost gpg_key gpg_home (parallel_jobs env) (load_average env) 9 2 d2 Hp2) as [Hp3 _]. rewrite H3 in Hp3.
  assert (Htexts : forall name b t content, nodes d3 !! (PORTAGE ++ ["repos.conf"; name]) = Some (FileNode b t) -> text_of b = Some content ->
    image_text text_of d content \/ order_text c content) 
    by (intros name b t content Hf Hc; exact (texts_at_end text_of Htext env c worker_chost gpg_key gpg_home d Hpl Hskip Hp Hn d1 d2 d3 name b t content H1 Hp2 Hmid H3 Hf Hc)).
  destruct (set_profile_links text_of c d d3 Hp3 Hn3 Htexts) as [Hend Hlink].
  rewrite Hr in Hend, Hlink. cbn [snd] in Hend, Hlink. split; [|exact Hlink]. by eapply (steps_leave PORTAGE c worker_chost gpg_key gpg_home _ _ Hup d d1 d2 d3).
Qed.

(** ** A worker *)

Definition worker_conf (location : string) : string := "[local]" +:+ newline_str +:+ "location = " +:+ location +:+ newline_str.
Definition worker_config : PortageConfig :=
  let c := Registry.demo_portage_config in {|
  pc_make_conf := pc_make_conf c; pc_package_use := [{| pu_atom := "dev-libs/openssl"; pu_flags := ["-bindist"; "tls"] |}];
  pc_package_accept_keywords := []; pc_package_license := []; pc_package_mask := ["app-misc/foo"]; pc_package_unmask := []; pc_package_env := [];
  pc_env_files := {[ "../../passwd" := "x"; "fast" := "CFLAGS=-O3" ]}; pc_repos_conf := {[ "local.conf" := worker_conf "/repos/local" ]};
  pc_snapshot_manifest := pc_snapshot_manifest c; pc_repo_snapshots := {[ "local" := {[ "app-misc/foo/Manifest" := "DIST"; "../evil" := "x" ]} ]};
  pc_repo_snapshot_refs := ∅; pc_repo_snapshot_trees := ∅; pc_patches := ∅; pc_profile_overlay := {[ "package.provided" := "sys-kernel/none" ]};
  pc_distfile_snapshots := ∅; pc_distfile_snapshot_refs := ∅; pc_profile := "default/linux"; pc_world := [] |}.

Definition worker_tree : list (path * Node) := [
  (["etc"], DirNode 1); (["etc"; "passwd"], FileNode (string_bytes "root") 1); (["etc"; "portage"], DirNode 1);
  (["repos"], DirNode 1); (["repos"; "local"], DirNode 1); (["repos"; "local"; "profiles"], DirNode 1);
  (["repos"; "local"; "profiles"; "default"], DirNode 1); (["repos"; "local"; "profiles"; "default"; "linux"], DirNode 1);
  (["var"], DirNode 1); (["var"; "cache"], DirNode 1); (["var"; "cache"; "remerge"], DirNode 1);
  (["var"; "cache"; "remerge"; "workorder"], DirNode 1); (["var"; "cache"; "remerge"; "workorder"; "snapshots"], DirNode 1);
  (["var"; "cache"; "remerge"; "workorder"; "snapshots"; "distfiles"], DirNode 1);
  (["var"; "cache"; "remerge"; "workorder"; "snapshots"; "distfiles"; "foo.tar"], FileNode (string_bytes "tar") 1)].

Definition plain_treeb (l : list (path * Node)) : bool := forallb (fun x => match snd x with LinkNode _ _ => false | _ => true end) l.
Lemma plain_treeb_ok l : plain_treeb l = true -> plain_tree (list_to_map l).
Proof.
  intros Hl p b t Hp. pose proof (tree_forallb l (fun _ n => match n with LinkNode _ _ => false | _ => true end) Hl p _ Hp). done.
Qed.

Definition worker_env_vars : SetupEnv := {| parallel_jobs := Some "8"; load_average := None; skip_sync := false |}.

Lemma config_on_disk_witness :
  let '(r, d') := apply_config_inner ["etc"; "portage"] worker_env_vars worker_config "x86_64-pc-linux-gnu" None None (tree_disk worker_tree) in
  r = Ok tt /\ file_on d' ["etc"; "portage"; "package.mask"; "remerge"] ("app-misc/foo" +:+ newline_str) /\
  file_on d' ["etc"; "portage"; "env"; "fast"] "CFLAGS=-O3" /\ nodes d' !! ["etc"; "passwd"] = Some (FileNode (string_bytes "root") 1).
Proof.
  pose proof (config_on_disk ["etc"; "portage"] worker_env_vars worker_config "x86_64-pc-linux-gnu" None None (tree_disk worker_tree)
    ltac:(by apply (bool_decide_unpack _)) ltac:(by apply (plain_treeb_ok worker_tree))) as H.
  assert (Hr : fst (apply_config_inner ["etc"; "portage"] worker_env_vars worker_config "x86_64-pc-linux-gnu" None None (tree_disk worker_tree)) = Ok tt)
    by (vm_compute; reflexivity).
  destruct (apply_config_inner _ _ _ _ _ _ _) as [r d']. cbn in Hr. destruct H as [Ho Hok]. destruct (Hok Hr) as [Hc _]. split_and!.
  - exact Hr.
  - apply (ct_package _ _ _ _ _ _ _ _ Hc). apply (bool_decide_unpack _). vm_compute. reflexivity.
  - apply (ct_env _ _ _ _ _ _ _ _ Hc); [vm_compute; reflexivity|vm_compute; reflexivity].
  - rewrite Ho; [reflexivity|]. intros [[q Hq]|[q Hq]]; discriminate Hq.
Defined.

(** A worker whose image names a repository of its own, and an order whose repository is at
    its usual place; snapshots, an overlay file and a patch come with it. *)
Definition mounted_config : PortageConfig :=
  let c := worker_config in {|
  pc_make_conf := pc_make_conf c; pc_package_use := pc_package_use c; pc_package_accept_keywords := []; pc_package_license := [];
  pc_package_mask := pc_package_mask c; pc_package_unmask := []; pc_package_env := []; pc_env_files := pc_env_files c;
  pc_repos_conf := {[ "local.conf" := worker_conf "/var/db/repos/local" ]}; pc_snapshot_manifest := pc_snapshot_manifest c;
  pc_repo_snapshots := pc_repo_snapshots c; pc_repo_snapshot_refs := ∅; pc_repo_snapshot_trees := ∅;
  pc_patches := {[ "app-misc/foo/fix.patch" := "--- a" ]}; pc_profile_overlay := pc_profile_overlay c;
  pc_distfile_snapshots := ∅; pc_distfile_snapshot_refs := ∅; pc_profile := "default/linux"; pc_world := [] |}.
Definition mounted_tree : list (path * Node) := worker_tree ++ [
  (["etc"; "portage"; "repos.conf"], DirNode 1); (["etc"; "portage"; "repos.conf"; "own.conf"], FileNode (string_bytes ("[own]" +:+ newline_str +:+ "location = /repos/own" +:+ newline_str)) 1);
  (["var"; "db"], DirNode 1); (["var"; "db"; "repos"], DirNode 1); (["var"; "db"; "repos"; "local"], DirNode 1);
  (["var"; "db"; "repos"; "local"; "profiles"], DirNode 1); (["var"; "db"; "repos"; "local"; "profiles"; "default"], DirNode 1);
  (["var"; "db"; "repos"; "local"; "profiles"; "default"; "linux"], DirNode 1)].

Definition elsewhereb (p : path) : bool := bool_decide (~ p `prefix_of` PORTAGE) && bool_decide (~ PORTAGE `prefix_of` p).
Definition image_placesb (l : list (path * Node)) : bool := forallb (fun x => match snd x with
  | FileNode b _ => if bool_decide (take 3 (fst x) = join PORTAGE "repos.conf") then
      forallb (fun section => elsewhereb (join_str [] (wrs_location section))) (worker_parse_repo_sections_full (String.string_of_list_byte b)) else true
  | _ => true end) l.
Lemma image_placesb_ok l content section : image_placesb l = true -> image_text as_text (tree_disk l) content -> section ∈ worker_parse_repo_sections_full content ->
  elsewhere (join_str [] (wrs_location section)).
Proof.
  intros Hl (name & b & t & Hn & [= <-]) Hs.
  pose proof (tree_forallb l (fun p n => match n with FileNode b _ => if bool_decide (take 3 p = join PORTAGE "repos.conf") then
    forallb (fun section => elsewhereb (join_str [] (wrs_location section))) (worker_parse_repo_sections_full (String.string_of_list_byte b)) else true | _ => true end) Hl _ _ Hn) as Hb.
  cbv beta iota in Hb. rewrite bool_decide_true in Hb by done. rewrite forallb_forall in Hb. apply list_elem_of_In, Hb in Hs.
  apply andb_true_iff in Hs as [H1%bool_decide_eq_true H2%bool_decide_eq_true]. by split.
Qed.
Definition dotlessb (l : list (path * Node)) : bool := forallb (fun x => bool_decide (".." ∉ fst x)) l.
Lemma dotlessb_ok l : dotlessb l = true -> forall p n, nodes (tree_disk l) !! p = Some n -> ".." ∉ p.
Proof. intros Hl p n Hn. eapply bool_decide_eq_true. exact (tree_forallb l (fun p _ => bool_decide (".." ∉ p)) Hl p n Hn). Qed.

Lemma mounted_places : places as_text mounted_config (tree_disk mounted_tree).
Proof.
  split; [intros content section; apply image_placesb_ok; vm_compute; reflexivity|].
  intros content section [name Hn] Hs. cbn [pc_repos_conf mounted_config] in Hn. apply lookup_singleton_Some in Hn as [_ <-].
  assert (section = {| wrs_name := "local"; wrs_location := "/var/db/repos/local"; wrs_sync_uri := None |}) as ->.
  { change (worker_parse_repo_sections_full (worker_conf "/var/db/repos/local")) with [{| wrs_name := "local"; wrs_location := "/var/db/repos/local"; wrs_sync_uri := None |}] in Hs.
    by apply list_elem_of_singleton in Hs. }
  split; [|reflexivity]. cbn. unfold file_name_ok. split_and!; try done. vm_compute. set_solver.
Qed.

Lemma config_applied_witness :
  let '(r, d') := @apply_config set_iter_reference as_text worker_env_vars mounted_config "x86_64-pc-linux-gnu" None None (tree_disk mounted_tree) in
  r = Ok tt /\ file_on d' ["etc"; "portage"; "package.mask"; "remerge"] ("app-misc/foo" +:+ newline_str) /\
  file_on d' ["etc"; "portage"; "repos.conf"; "local.conf"] (worker_conf "/var/db/repos/local") /\
  file_on d' ["etc"; "portage"; "profile"; "package.provided"] "sys-kernel/none" /\
  exists loc t, profile_place as_text mounted_config (tree_disk mounted_tree) loc /\
    nodes d' !! ["etc"; "portage"; "make.profile"] = Some (LinkNode (string_bytes (loc +:+ "/profiles/" +:+ "default/linux")) t).
Proof.
  pose proof (@config_applied set_iter_reference set_iter_reference_laws as_text worker_env_vars mounted_config "x86_64-pc-linux-gnu" None None (tree_disk mounted_tree)) as H.
  assert (Hr : fst (@apply_config set_iter_reference as_text worker_env_vars mounted_config "x86_64-pc-linux-gnu" None None (tree_disk mounted_tree)) = Ok tt)
    by (vm_compute; reflexivity).
  assert (Hl : nodes (snd (@apply_config set_iter_reference as_text worker_env_vars mounted_config "x86_64-pc-linux-gnu" None None (tree_disk mounted_tree)))
    !! ["etc"; "portage"; "make.profile"] = Some (LinkNode (string_bytes ("/var/db/repos/local/profiles/" +:+ "default/linux")) 9)) by (vm_compute; reflexivity).
  destruct (apply_config _ _ _ _ _ _ _) as [r d']. cbn [fst snd] in Hr, Hl. subst r. destruct (H d') as [Hc Hlink].
  - intros b s [= <-]. apply String.list_byte_of_string_of_list_byte.
  - reflexivity.
  - by apply (plain_treeb_ok mounted_tree).
  - apply dotlessb_ok. vm_compute. reflexivity.
  - apply mounted_places.
  - reflexivity.
  - split_and!.
    + reflexivity.
    + apply (ct_package _ _ _ _ _ _ _ _ Hc). apply (bool_decide_unpack _). vm_compute. reflexivity.
    + apply (ct_repos _ _ _ _ _ _ _ _ Hc); [vm_compute; reflexivity|vm_compute; reflexivity].
    + apply (ct_overlay _ _ _ _ _ _ _ _ Hc "package.provided"); [vm_compute; reflexivity|]. split; [vm_compute; reflexivity|].
      intros rel' [x Hx] _ _. cbn [pc_profile_overlay mounted_config worker_config] in Hx. by apply lookup_singleton_Some in Hx as [<- _].
    + destruct (Hlink _ _ Hl) as (loc & Hp & Hb). exists loc, 9. split; [exact Hp|]. rewrite Hl, Hb. reflexivity.
Defined.

(** The whole set-up: the profile is linked, the inline and the staged snapshots are in place, and the names that lead elsewhere are passed over. *)
Example worker_set_up :
  let '(r, d) := @apply_config set_iter_reference as_text worker_env_vars worker_config "x86_64-pc-linux-gnu" None None (tree_disk worker_tree) in
  r = Ok tt /\
  nodes d !! ["etc"; "portage"; "make.profile"] = Some (LinkNode (string_bytes "/repos/local/profiles/default/linux") 9) /\
  nodes d !! ["repos"; "local"; "app-misc"; "foo"; "Manifest"] = Some (FileNode (string_bytes "DIST") 9) /\
  nodes d !! ["var"; "cache"; "distfiles"; "foo.tar"] = Some (FileNode (string_bytes "tar") 9) /\
  nodes d !! ["etc"; "portage"; "profile"; "package.provided"] = Some (FileNode (string_bytes "sys-kernel/none") 9) /\
  nodes d !! ["repos"; "evil"] = None /\ nodes d !! ["etc"; "passwd"] = Some (FileNode (string_bytes "root") 1).
Proof. vm_compute. repeat split. Qed.
