(* ===== verification/Parity.v ===== *)
(** * Capture of the final state in the worker ([crates/worker/src/parity.rs])

    After a build the worker copies the state that Portage left behind - repository
    metadata and indexes, the eclass cache, the package index and Portage's own state -
    into an output directory: one blob per content, named by its digest, and a manifest
    with the digest, size and time of every path.  The server ingests that directory
    ([Runtime]), and the client restores the manifest ([LocalState]).  JSON and the order
    in which a directory is enumerated are parameters; names are taken to be UTF-8. *)

From S2P Require Import Prelude Types World Paths BlobStore Repo Text PortageFiles Disk LocalState Trees.

(** [serde_json::to_vec] at the two manifests. *)
Class CaptureCodec := {
  parity_manifest_to_vec : ParityManifest -> bytes;
  distfile_manifest_to_vec : gmap string SnapshotEntry -> bytes;
}.

(** ** Blobs and entries *)

Section Capture.
Context `{Sha256, SetIter, CaptureCodec}.

Definition store_blob_bytes (blobs_dir : path) (b : bytes) : DIO string :=
  let digest := sha256_hex b in
  let blob_path := join blobs_dir digest in
  try_ (d_metadata blob_path) (fun r =>
  (if is_ok r then ret tt else with_context ("Failed to write " +:+ display blob_path) (d_write blob_path b)) ;;
  ret digest).

Definition insert_manifest_entry (m : ParityManifest) (p digest : string) (size mtime_secs : Z) : Result ParityManifest Error :=
  match pm_files m !! p with
  | Some _ => Err (Bail ("Duplicate parity entry for " +:+ p))
  | None => Ok {| pm_files := <[p := {| pfe_digest := digest; pfe_size := size; pfe_mtime_secs := mtime_secs |}]> (pm_files m);
                  pm_directories := pm_directories m; pm_symlinks := pm_symlinks m |}
  end.
Definition insert_directory_entry (m : ParityManifest) (p : string) (mtime_secs : Z) : Result ParityManifest Error :=
  match pm_directories m !! p with
  | Some _ => Err (Bail ("Duplicate parity directory entry for " +:+ p))
  | None => Ok {| pm_files := pm_files m;
                  pm_directories := <[p := {| pde_mtime_secs := mtime_secs |}]> (pm_directories m); pm_symlinks := pm_symlinks m |}
  end.
Definition insert_symlink_entry (m : ParityManifest) (p digest : string) (size mtime_secs : Z) : Result ParityManifest Error :=
  match pm_symlinks m !! p with
  | Some _ => Err (Bail ("Duplicate parity symlink entry for " +:+ p))
  | None => Ok {| pm_files := pm_files m; pm_directories := pm_directories m;
                  pm_symlinks := <[p := {| pse_digest := digest; pse_size := size; pse_mtime_secs := mtime_secs |}]> (pm_symlinks m) |}
  end.

(** [is_runtime_noise_path], by the last component. *)
Definition noise_suffixes : list string := [".lock"; ".tmp"; ".temp"; ".part"; ".swp"; ".pid"; ".running"; "~"].
Definition is_runtime_noise_path (p : path) : bool :=
  match last p with
  | Some name => bool_decide (name = ".lock") || existsb (fun x => ends_with x name) noise_suffixes
  | None => false
  end.

Definition manifest_key (manifest_root : string) (relative : path) : string :=
  replace_backslash (join_with "/" (manifest_root :: relative)).
Definition manifest_path_for_relative (manifest_root : string) (relative : path) : Result string Error :=
  if forallb (fun c => bool_decide (components c = [Normal c])) relative then Ok (manifest_key manifest_root relative)
  else Err (Bail ("Invalid parity path " +:+ display relative)).

(** How the capture loops read a directory. *)
Definition capture_walk : WalkStyle := {|
  ws_read current := do names <- with_context ("Failed to read " +:+ display current) (d_read_dir current) ;; ret (Some names);
  ws_next _ := "I/O error";
  ws_stat entry_path := "Failed to stat " +:+ display entry_path |}.

(** The body of the loop of [capture_tree_if_present]. *)
Definition capture_entry (root : path) (manifest_root : string) (blobs_dir : path) (m : ParityManifest) (entry_path : path)
    (md : Metadata) : DIO ParityManifest :=
  do relative <- lift (relative_to root entry_path) ;;
  do key <- lift (manifest_path_for_relative manifest_root relative) ;;
  if bool_decide (md_kind md = IsDir) then lift (insert_directory_entry m key (md_mtime md))
  else if is_runtime_noise_path relative then ret m
  else if bool_decide (md_kind md = IsLink) then
    do target <- with_context ("Failed to read symlink " +:+ display entry_path) (d_read_link entry_path) ;;
    do digest <- store_blob_bytes blobs_dir target ;;
    lift (insert_symlink_entry m key digest (blen target) (md_mtime md))
  else
    do b <- with_context ("Failed to read " +:+ display entry_path) (d_read entry_path) ;;
    do digest <- store_blob_bytes blobs_dir b ;;
    lift (insert_manifest_entry m key digest (md_len md) (md_mtime md)).

Definition capture_tree_if_present (root : path) (manifest_root : string) (blobs_dir : path) (m : ParityManifest) : DIO ParityManifest :=
  try_ (d_symlink_metadata root) (fun r => match r with
    | Ok md =>
        if bool_decide (md_kind md = IsDir) then
          do m <- lift (insert_directory_entry m manifest_root (md_mtime md)) ;;
          walk_from capture_walk (capture_entry root manifest_root blobs_dir) root m
        else throw (Bail ("Expected directory for parity capture: " +:+ display root))
    | Err NotFound => ret m
    | Err e => throw (IoErr e ("Failed to stat " +:+ display root))
    end).

Definition capture_file_if_present (p : path) (manifest_path : string) (blobs_dir : path) (m : ParityManifest) : DIO ParityManifest :=
  if is_runtime_noise_path p then ret m
  else
  try_ (d_metadata p) (fun r => match r with
    | Ok md =>
        if bool_decide (md_kind md = IsFile) then
          do b <- with_context ("Failed to read " +:+ display p) (d_read p) ;;
          do digest <- store_blob_bytes blobs_dir b ;;
          lift (insert_manifest_entry m manifest_path digest (md_len md) (md_mtime md))
        else throw (Bail ("Expected regular file for parity capture: " +:+ display p))
    | Err NotFound => ret m
    | Err e => throw (IoErr e ("Failed to stat " +:+ display p))
    end).

(** One repository. *)
Definition capture_repo (repo_root blobs_dir : path) (m : ParityManifest) (repo_name : string) : DIO ParityManifest :=
  d_next_entry "I/O error" ;;
  let repo_path := join repo_root repo_name in
  let metadata_path := join repo_path "metadata" in
  try_ (d_metadata metadata_path) (fun r =>
  do m <- (if is_ok r then capture_tree_if_present metadata_path ("var/db/repos/" +:+ repo_name +:+ "/metadata") blobs_dir m else ret m) ;;
  capture_file_if_present (join repo_path "Packages") ("var/db/repos/" +:+ repo_name +:+ "/Packages") blobs_dir m).

Definition capture_repo_metadata_and_indexes (repo_root blobs_dir : path) (m : ParityManifest) : DIO ParityManifest :=
  try_ (d_read_dir repo_root) (fun r => match r with
    | Ok names => do m <- fold_io (capture_repo repo_root blobs_dir) names m ;; d_next_entry "I/O error" ;; ret m
    | Err NotFound => ret m
    | Err e => throw (IoErr e ("Failed to read " +:+ display repo_root))
    end).

Definition write_manifest (output_dir : path) (m : ParityManifest) : DIO unit :=
  let manifest_path := join output_dir "manifest.json" in
  with_context ("Failed to write " +:+ display manifest_path) (d_write manifest_path (parity_manifest_to_vec m)).
Definition write_distfile_manifest (output_dir : path) (m : gmap string SnapshotEntry) : DIO unit :=
  let manifest_path := join output_dir "distfiles.json" in
  with_context ("Failed to write " +:+ display manifest_path) (d_write manifest_path (distfile_manifest_to_vec m)).

(** Both captures start with the output directories. *)
Definition create_output_dirs (output_dir : path) : DIO path :=
  with_context ("Failed to create " +:+ display output_dir) (d_create_dir_all output_dir) ;;
  let blobs_dir := join output_dir "blobs" in
  with_context ("Failed to create " +:+ display blobs_dir) (d_create_dir_all blobs_dir) ;;
  ret blobs_dir.

Definition capture_final_state_parity_from (output_dir repo_root eclass_root binpkg_packages_index portage_state_root : path) : DIO ParityManifest :=
  do blobs_dir <- create_output_dirs output_dir ;;
  do m <- capture_repo_metadata_and_indexes repo_root blobs_dir ParityManifest_default ;;
  do m <- capture_tree_if_present eclass_root "var/cache/eclass" blobs_dir m ;;
  do m <- capture_file_if_present binpkg_packages_index "var/cache/binpkgs/Packages" blobs_dir m ;;
  do m <- capture_tree_if_present portage_state_root "var/lib/portage" blobs_dir m ;;
  write_manifest output_dir m ;;
  ret m.

Definition REPO_METADATA_ROOT : path := ["var"; "db"; "repos"].
Definition ECLASS_CACHE_ROOT : path := ["var"; "cache"; "eclass"].
Definition BINPKG_PACKAGES_INDEX : path := ["var"; "cache"; "binpkgs"; "Packages"].
Definition PORTAGE_STATE_ROOT : path := ["var"; "lib"; "portage"].
Definition DISTFILES_ROOT : path := ["var"; "cache"; "distfiles"].

Definition capture_final_state_parity (output_dir : path) : DIO ParityManifest :=
  capture_final_state_parity_from output_dir REPO_METADATA_ROOT ECLASS_CACHE_ROOT BINPKG_PACKAGES_INDEX PORTAGE_STATE_ROOT.

(** ** Distfiles *)

Definition capture_distfile (root blobs_dir : path) (m : gmap string SnapshotEntry) (entry_path : path) (md : Metadata) :
    DIO (gmap string SnapshotEntry) :=
  if bool_decide (md_kind md = IsFile) then
    do relative <- lift (relative_to root entry_path) ;;
    do b <- with_context ("Failed to read " +:+ display entry_path) (d_read entry_path) ;;
    do digest <- store_blob_bytes blobs_dir b ;;
    ret (<[replace_backslash (join_with "/" relative) :=
           {| se_digest := digest; se_size := md_len md; se_mtime_secs := md_mtime md |}]> m)
  else ret m.

Definition capture_fetched_distfiles_from (output_dir distfiles_root : path) : DIO (gmap string SnapshotEntry) :=
  do blobs_dir <- create_output_dirs output_dir ;;
  try_ (d_symlink_metadata distfiles_root) (fun r => match r with
    | Ok md =>
        if bool_decide (md_kind md = IsDir) then
          do m <- walk_from capture_walk (capture_distfile distfiles_root blobs_dir) distfiles_root ∅ ;;
          write_distfile_manifest output_dir m ;;
          ret m
        else throw (Bail ("Expected distfiles dir for capture: " +:+ display distfiles_root))
    | Err NotFound => write_distfile_manifest output_dir ∅ ;; ret ∅
    | Err e => throw (IoErr e ("Failed to stat " +:+ display distfiles_root))
    end).
Definition capture_fetched_distfiles (output_dir : path) : DIO (gmap string SnapshotEntry) :=
  capture_fetched_distfiles_from output_dir DISTFILES_ROOT.

End Capture.
