(* ===== verification/FinalState.v ===== *)
(** * The final state travels from the worker to the client

    What [Parity] captures is exactly what [LocalState] accepts: on an orderly disk the
    capture succeeds, its manifest describes every approved path and no other, and the
    blobs it leaves have the digests of the manifest; after a successful reconciliation
    the client's disk has the same files, links and directories at those paths. *)

From S2P Require Import Prelude Types World Text Paths BlobStore Repo PortageFiles Disk LocalState LocalSafety Trees Parity.
From S2P Require Import MakeConf.

(** ** Keys of the manifest *)


Lemma split_on_key p : path_ok p -> p <> [] -> split_on "/"%char (path_key p) = p.
Proof. intros Hp. apply split_on_path. by eapply Forall_impl; [exact Hp|intros ? []]. Qed.

Lemma path_key_inj p q : path_ok p -> path_ok q -> p <> [] -> q <> [] -> path_key p = path_key q -> p = q.
Proof. intros Hp Hq Hp0 Hq0 He. by rewrite <- (split_on_key p), <- (split_on_key q), He. Qed.

Lemma omap_segment_ok p : path_ok p -> omap segment p = map Normal p.
Proof.
  intros Hp. induction Hp as [|c p [(H1 & H2 & H3 & _) _] Hp IH]; [done|].
  assert (Hs : segment c = Some (Normal c)) by (unfold segment; rewrite !bool_decide_false by tauto; done).
  change (omap segment (c :: p)) with (match segment c with Some x => x :: omap segment p | None => omap segment p end).
  by rewrite Hs, IH.
Qed.

Lemma components_key p : path_ok p -> p <> [] -> components (path_key p) = map Normal p.
Proof.
  intros Hp Hne. unfold components. rewrite split_on_key by done. destruct p as [|c p]; [done|].
  apply Forall_cons in Hp as Hc. destruct Hc as [[(H1 & H2 & _) _] _].
  assert (Hk : is_empty (path_key (c :: p)) = false).
  { apply is_empty_false. cbn [path_key join_with]. destruct p; [done|]. destruct c; done. }
  rewrite Hk. assert (He : is_empty c = false) by (by apply is_empty_false). rewrite He, bool_decide_false by done. by apply omap_segment_ok.
Qed.

Lemma push_normals_map err safe p : push_normals err safe (map Normal p) = Ok (safe ++ p).
Proof.
  revert safe. induction p as [|c p IH]; intros safe; [by rewrite app_nil_r|]. cbn [map push_normals]. rewrite IH.
  unfold join. by rewrite <- app_assoc.
Qed.

Lemma sanitize_key p : path_ok p -> p <> [] -> sanitize_binpkg_path (path_key p) = Ok p.
Proof.
  intros Hp Hne. unfold sanitize_binpkg_path. destruct (is_absolute (path_key p)) eqn:Ha.
  - exfalso. pose proof (components_key p Hp Hne) as Hc. unfold is_absolute, starts_with in Ha.
    destruct (strip_prefix "/" (path_key p)) as [r|] eqn:E; [|done]. apply strip_prefix_Some in E.
    unfold components in Hc. rewrite E in Hc. cbn in Hc. by destruct p.
  - rewrite components_key, push_normals_map by done. simpl. by destruct p.
Qed.

Lemma resolve_key root p : path_ok p -> is_approved_parity_path p = true -> resolve_parity_target root (path_key p) = Ok (root ++ p).
Proof.
  intros Hp Ha. unfold resolve_parity_target. rewrite sanitize_key by (done || by destruct p). cbn [rbind]. by rewrite Ha.
Qed.

Lemma replace_backslash_none s : backslash ∉ chars s -> replace_backslash s = s.
Proof.
  intros Hs. unfold replace_backslash. rewrite <- (of_chars_chars s) at 2. f_equal. induction (chars s) as [|c l IH]; [done|].
  apply not_elem_of_cons in Hs as [Hc Hs]. simpl. rewrite IH by done. destruct (Ascii.eqb_spec c backslash); [by subst|done].
Qed.

Lemma key_no_backslash p : path_ok p -> backslash ∉ chars (path_key p).
Proof.
  intros Hp. induction Hp as [|c p [_ Hc] Hp IH]; [apply not_elem_of_nil|]. destruct p as [|c' p]; [done|].
  cbn [path_key join_with]. rewrite !chars_app, !elem_of_app. intros [?|[Hin|?]]; [done| |done].
  apply elem_of_cons in Hin as [Hin|Hin]; [done|]. by apply elem_of_nil in Hin.
Qed.

(** The keys the capture makes are the texts of the paths. *)
Lemma manifest_key_path root rel : path_ok (root ++ rel) -> root <> [] -> manifest_key (path_key root) rel = path_key (root ++ rel).
Proof.
  intros Hp Hne. unfold manifest_key. assert (He : join_with "/" (path_key root :: rel) = path_key (root ++ rel)).
  { destruct rel as [|c rel]; [by rewrite app_nil_r|]. unfold path_key. by rewrite join_with_app. }
  rewrite He. by apply replace_backslash_none, key_no_backslash.
Qed.

Lemma manifest_path_ok root rel : path_ok (root ++ rel) -> root <> [] ->
  manifest_path_for_relative (path_key root) rel = Ok (path_key (root ++ rel)).
Proof.
  intros Hp Hne. unfold manifest_path_for_relative. rewrite manifest_key_path by done.
  apply path_ok_app in Hp as [_ Hp]. assert (Hf : forallb (fun c => bool_decide (components c = [Normal c])) rel = true).
  { apply forallb_forall. intros c Hc. apply bool_decide_eq_true_2. unfold path_ok in Hp. rewrite Forall_forall in Hp.
    apply list_elem_of_In in Hc. specialize (Hp _ Hc). apply (components_key [c]); [by constructor|done]. }
  by rewrite Hf.
Qed.

(** ** Blobs *)

Section Keeping.
Context `{Sha256, !Sha256Laws, SetIter, !SetIterLaws, CaptureCodec} (blobs : path) (ns0 : gmap path Node).

(** While the capture runs only the directory of blobs changes, and every file in it
    has its digest for a name. *)
Record keeping (d : Disk) : Prop := {
  kp_quiet : disk_faults d = [];
  kp_tidy : tidy (nodes d);
  kp_dir : exists t, nodes d !! blobs = Some (DirNode t);
  kp_blobs : forall c n, nodes d !! (blobs ++ [c]) = Some n -> exists b t, n = FileNode b t /\ sha256_hex b = c;
  kp_rest : forall p, ~ under blobs p -> nodes d !! p = ns0 !! p;
}.

Definition has_digest (d : Disk) (digest : string) : Prop := is_Some (nodes d !! (blobs ++ [digest])).

Lemma digest_name_ok b : file_name_ok (sha256_hex b).
Proof.
  destruct (sha256_hex_digits b) as [Hl Hh]. rewrite all_chars_spec, Forall_forall in Hh. unfold file_name_ok. split_and!.
  1-3: by intros He; rewrite He in Hl.
  intros Hin. by apply Hh in Hin.
Qed.

Lemma store_blob_total b d : keeping d ->
  exists d', store_blob_bytes blobs b d = (Ok (sha256_hex b), d') /\ keeping d' /\ has_digest d' (sha256_hex b) /\
    forall c, has_digest d c -> has_digest d' c.
Proof.
  intros Hk. pose proof Hk as [Hq Ht [t Hd] Hb Hr]. unfold store_blob_bytes. destruct (nodes d !! (blobs ++ [sha256_hex b])) as [n|] eqn:E.
  - destruct (Hb _ _ E) as (b' & t' & -> & He).
    assert (Hst : d_metadata (join blobs (sha256_hex b)) d = (Ok (metadata_of d (FileNode b' t')), d)) by by apply stat_found.
    erewrite try_quiet by exact Hst. simpl. exists d. split_and!; try done. by eexists.
  - assert (Hst : d_metadata (join blobs (sha256_hex b)) d = (Err NotFound, d)).
    { unfold d_metadata, join. rewrite observe_quiet by done. unfold find_node, resolve. destruct (digest_name_ok b) as (_ & _ & Hc & _).
      rewrite (walk_new _ _ true [] blobs _ t Ht Hd Hc E). cbn [rbind app]. unfold node_at. by rewrite E, bool_decide_false by (by destruct blobs). }
    erewrite try_quiet by exact Hst. cbn [is_ok].
    destruct (write_quiet blobs (sha256_hex b) b d t Hq Ht Hd (digest_name_ok b)) as (d' & Hw & Hwt); [by rewrite E|].
    erewrite bind_quiet by (apply context_quiet; exact Hw). exists d'. destruct Hwt as [Hq' _ _ Ht' Hf' Hd' Hr']. split_and!.
    + done.
    + constructor; try done.
      * intros c n Hn. destruct (decide (c = sha256_hex b)) as [->|Hne]; [rewrite Hf' in Hn; simplify_eq; eauto|].
        rewrite Hr' in Hn; [by apply Hb| |].
        -- intros He. apply app_inv_head in He. by simplify_eq.
        -- intros He. symmetry in He. by apply dir_ne_entry in He.
      * intros p Hp. rewrite Hr'; [by apply Hr| |].
        -- intros ->. apply Hp. by eexists.
        -- intros ->. apply Hp. exists []. by rewrite app_nil_r.
    + by eexists.
    + intros c Hc. unfold has_digest in *. destruct (decide (c = sha256_hex b)) as [->|Hne]; [by eexists|].
      rewrite Hr'; [done| |].
      * intros He. apply app_inv_head in He. by simplify_eq.
      * intros He. symmetry in He. by apply dir_ne_entry in He.
Qed.

(** ** A manifest that describes a set of paths *)

Definition dir_of (t : Z) : ParityDirectoryEntry := {| pde_mtime_secs := t |}.
Definition file_of (b : bytes) (t : Z) : ParityFileEntry := {| pfe_digest := sha256_hex b; pfe_size := blen b; pfe_mtime_secs := t |}.
Definition link_of (b : bytes) (t : Z) : ParitySymlinkEntry := {| pse_digest := sha256_hex b; pse_size := blen b; pse_mtime_secs := t |}.

(** What the manifest says about the node at [p]. *)
Definition dir_entry (p : path) (e : ParityDirectoryEntry) : Prop := exists t, ns0 !! p = Some (DirNode t) /\ e = dir_of t.
Definition file_entry (p : path) (e : ParityFileEntry) : Prop := exists b t, ns0 !! p = Some (FileNode b t) /\ e = file_of b t.
Definition link_entry (p : path) (e : ParitySymlinkEntry) : Prop := exists b t, ns0 !! p = Some (LinkNode b t) /\ e = link_of b t.

(** [f] has the entries of the paths in [C], and no others. *)
Definition lists {E} (node : path -> E -> Prop) (C : path -> Prop) (f : gmap string E) : Prop :=
  forall k e, f !! k = Some e <-> exists p, C p /\ k = path_key p /\ node p e.

Record describes (C : path -> Prop) (m : ParityManifest) : Prop := {
  ds_ok : forall p, C p -> path_ok p /\ p <> [];
  ds_dirs : lists dir_entry C (pm_directories m);
  ds_files : lists file_entry C (pm_files m);
  ds_links : lists link_entry C (pm_symlinks m);
}.

Lemma lists_iff {E} (node : path -> E -> Prop) C C' f : (forall p, C p <-> C' p) -> lists node C f -> lists node C' f.
Proof. intros Hiff Hl k e. rewrite (Hl k e). by setoid_rewrite Hiff. Qed.
Lemma describes_iff C C' m : (forall p, C p <-> C' p) -> describes C m -> describes C' m.
Proof. intros Hiff [H1' H2' H3' H4']. constructor; [intros p Hp; by apply H1', Hiff|by eapply lists_iff..]. Qed.
#[global] Instance describes_proper : Proper (pointwise_relation path iff ==> eq ==> iff) describes.
Proof. intros C C' HC m ? <-. split; apply describes_iff; [done|]. intros p. symmetry. apply HC. Qed.

Lemma lists_empty {E} (node : path -> E -> Prop) : lists node (fun _ => False) ∅.
Proof. intros k e. rewrite lookup_empty. naive_solver. Qed.
Lemma describes_empty : describes (fun _ => False) ParityManifest_default.
Proof. constructor; [done|apply lists_empty..]. Qed.

(** One more path: its entry is new, and maps of the other kinds do not change. *)
Lemma lists_insert {E} (node : path -> E -> Prop) C f p0 e0 :
  (forall p, C p -> path_ok p /\ p <> []) -> path_ok p0 -> p0 <> [] -> ~ C p0 -> (forall e, node p0 e <-> e = e0) -> lists node C f ->
  f !! path_key p0 = None /\ lists node (fun p => C p \/ p = p0) (<[path_key p0 := e0]> f).
Proof.
  intros HC Hok Hne Hnew Hnode Hf. split.
  - destruct (f !! path_key p0) as [e|] eqn:He; [|done]. apply Hf in He as (p & Hp & Hk & _). destruct (HC p Hp) as [Hpo Hpn].
    apply path_key_inj in Hk as <-; done.
  - intros k e. destruct (decide (path_key p0 = k)) as [<-|Hk].
    + rewrite lookup_insert_eq. split; [intros [= <-]; exists p0; rewrite Hnode; auto|]. intros (p & [Hp| ->] & Hk & Hn); [|by apply Hnode in Hn as ->].
      destruct (HC p Hp) as [Hpo Hpn]. apply path_key_inj in Hk as <-; done.
    + rewrite lookup_insert_ne by done. rewrite (Hf k e). split; [intros (p & ? & ? & ?); exists p; auto|].
      intros (p & [Hp| ->] & -> & Hn); [by exists p|done].
Qed.
Lemma lists_skip {E} (node : path -> E -> Prop) C f p0 :
  (forall e, ~ node p0 e) -> lists node C f -> lists node (fun p => C p \/ p = p0) f.
Proof.
  intros Hno Hf k e. rewrite (Hf k e). split; [intros (p & ? & ? & ?); exists p; auto|].
  intros (p & [Hp| ->] & ? & Hn); [by exists p|by apply Hno in Hn].
Qed.

Section Insert.
Context (C : path -> Prop) (m : ParityManifest) (p : path) (Hm : describes C m) (Hok : path_ok p) (Hne : p <> []) (Hnew : ~ C p).

Lemma more_ok q : C q \/ q = p -> path_ok q /\ q <> [].
Proof. intros [Hq| ->]; [by apply (ds_ok _ _ Hm)|done]. Qed.

Lemma insert_directory_total t : ns0 !! p = Some (DirNode t) ->
  exists m', insert_directory_entry m (path_key p) t = Ok m' /\ describes (fun q => C q \/ q = p) m'.
Proof.
  intros Hn. unfold insert_directory_entry. assert (Hnode : forall e, dir_entry p e <-> e = (dir_of t)) by (intros e; unfold dir_entry; rewrite Hn; naive_solver).
  destruct (lists_insert dir_entry C (pm_directories m) p _ (ds_ok _ _ Hm) Hok Hne Hnew Hnode (ds_dirs _ _ Hm)) as [-> Hl].
  eexists. split; [done|]. constructor; simpl; [apply more_ok|exact Hl|..]; apply lists_skip; try apply Hm;
    unfold file_entry, link_entry; rewrite Hn; naive_solver.
Qed.
Lemma insert_file_total b t : ns0 !! p = Some (FileNode b t) ->
  exists m', insert_manifest_entry m (path_key p) (sha256_hex b) (blen b) t = Ok m' /\ describes (fun q => C q \/ q = p) m'.
Proof.
  intros Hn. unfold insert_manifest_entry. assert (Hnode : forall e, file_entry p e <-> e = (file_of b t)) by (intros e; unfold file_entry; rewrite Hn; naive_solver).
  destruct (lists_insert file_entry C (pm_files m) p _ (ds_ok _ _ Hm) Hok Hne Hnew Hnode (ds_files _ _ Hm)) as [-> Hl].
  eexists. split; [done|]. constructor; simpl; [apply more_ok| |exact Hl|]; apply lists_skip; try apply Hm;
    unfold dir_entry, link_entry; rewrite Hn; naive_solver.
Qed.
Lemma insert_symlink_total b t : ns0 !! p = Some (LinkNode b t) ->
  exists m', insert_symlink_entry m (path_key p) (sha256_hex b) (blen b) t = Ok m' /\ describes (fun q => C q \/ q = p) m'.
Proof.
  intros Hn. unfold insert_symlink_entry. assert (Hnode : forall e, link_entry p e <-> e = (link_of b t)) by (intros e; unfold link_entry; rewrite Hn; naive_solver).
  destruct (lists_insert link_entry C (pm_symlinks m) p _ (ds_ok _ _ Hm) Hok Hne Hnew Hnode (ds_links _ _ Hm)) as [-> Hl].
  eexists. split; [done|]. constructor; simpl; [apply more_ok| | |exact Hl]; apply lists_skip; try apply Hm;
    unfold dir_entry, file_entry; rewrite Hn; naive_solver.
Qed.
End Insert.
End Keeping.

(** ** Capturing a tree *)

Section Trees.
Context `{Sha256, !Sha256Laws, SetIter, !SetIterLaws, CaptureCodec} (blobs : path) (ns0 : gmap path Node).

(** Files and links with the name of something transient are left out. *)
Definition transient (ns : gmap path Node) (p : path) : Prop :=
  is_runtime_noise_path p = true /\ forall t, ns !! p <> Some (DirNode t).

(** The state of the capture: [C] are the paths captured so far. *)
Definition captured (C : path -> Prop) (m : ParityManifest) (d : Disk) : Prop :=
  keeping blobs ns0 d /\ describes ns0 C m /\
  (forall p b t, C p -> ns0 !! p = Some (FileNode b t) \/ ns0 !! p = Some (LinkNode b t) -> has_digest blobs d (sha256_hex b)).

Lemma captured_iff C C' m d : (forall p, C p <-> C' p) -> captured C m d -> captured C' m d.
Proof. intros Hiff (Hk & Hd & Hb). split_and!; [done|by eapply describes_iff|]. intros p b t Hp. by apply Hb, Hiff. Qed.

Lemma noise_last root rel : rel <> [] -> is_runtime_noise_path (root ++ rel) = is_runtime_noise_path rel.
Proof. intros Hne. unfold is_runtime_noise_path. rewrite last_app. by destruct (last rel) eqn:E; [|apply last_None in E]. Qed.

(** One path more, of each kind. *)
Section Step.
Context (C : path -> Prop) (m : ParityManifest) (d : Disk) (p : path).
Context (Hc : captured C m d) (Hok : path_ok p) (Hne : p <> []) (Hnew : ~ C p).

Lemma captured_dir t : ns0 !! p = Some (DirNode t) ->
  exists m', insert_directory_entry m (path_key p) t = Ok m' /\ captured (fun q => C q \/ q = p) m' d.
Proof.
  intros Hn. destruct Hc as (Hk & Hd & Hb). destruct (insert_directory_total ns0 C m p Hd Hok Hne Hnew t Hn) as (m' & Hi & Hd').
  exists m'. split_and!; [done|]. split_and!; [done|done|]. intros q b t' [Hq| ->] Hcase; [by eapply Hb|]. rewrite Hn in Hcase. naive_solver.
Qed.

Lemma captured_blob b t (insert : string -> Result ParityManifest Error) :
  ns0 !! p = Some (FileNode b t) \/ ns0 !! p = Some (LinkNode b t) ->
  (exists m', insert (sha256_hex b) = Ok m' /\ describes ns0 (fun q => C q \/ q = p) m') ->
  exists m' d', bind (store_blob_bytes blobs b) (fun digest => lift (insert digest)) d = (Ok m', d') /\ captured (fun q => C q \/ q = p) m' d'.
Proof.
  clear Hok Hne Hnew. intros Hn (m' & Hi & Hd'). destruct Hc as (Hk & Hd & Hb). destruct (store_blob_total blobs ns0 b d Hk) as (d' & Hs & Hk' & Hdig & Hmore).
  exists m', d'. erewrite bind_quiet by exact Hs. unfold lift. rewrite Hi. split_and!; [done|]. split_and!; [done|done|].
  intros q b' t' [Hq| ->] Hcase; [by eapply Hmore, Hb|]. destruct Hn as [Hn|Hn], Hcase as [Hc'|Hc']; rewrite Hn in Hc'; by simplify_eq.
Qed.
End Step.

(** An entry of a tree. *)
Lemma capture_entry_total root C m d rel n :
  captured C m d -> path_ok (root ++ rel) -> root <> [] -> rel <> [] -> ~ C (root ++ rel) -> ~ under blobs (root ++ rel) ->
  ns0 !! (root ++ rel) = Some n ->
  exists m' d', capture_entry root (path_key root) blobs m (root ++ rel) (metadata_of d n) d = (Ok m', d') /\
    captured (fun q => C q \/ (q = root ++ rel /\ ~ transient ns0 q)) m' d'.
Proof.
  intros Hc Hok Hr Hne Hnew Hout Hn. assert (Hpne : root ++ rel <> []) by (by destruct root). pose proof Hc as (Hk & Hd & Hb).
  destruct Hk as [Hq Ht _ _ Hrest]. assert (Hn' : nodes d !! (root ++ rel) = Some n) by (by rewrite Hrest).
  unfold capture_entry, relative_to. rewrite strip_path_app. unfold lift at 1. rewrite (bind_quiet (fun d => (Ok rel, d)) _ d rel d eq_refl).
  rewrite manifest_path_ok by done. unfold lift at 1. rewrite (bind_quiet (fun d => (Ok _, d)) _ d _ d eq_refl).
  assert (Hkind : forall t, n = DirNode t -> ~ transient ns0 (root ++ rel)) by (intros t -> [_ Hno]; by apply (Hno t)).
  assert (Hfin : forall m' d', ~ transient ns0 (root ++ rel) -> captured (fun q => C q \/ q = root ++ rel) m' d' ->
    captured (fun q => C q \/ (q = root ++ rel /\ ~ transient ns0 q)) m' d').
  { intros m' d' Hnt. apply captured_iff. intros q. split; [intros [?| ->]; auto|intros [?|[-> _]]; auto]. }
  destruct n as [b t|t|b t]; cbn [metadata_of md_kind].
  2: { rewrite bool_decide_true by done. destruct (captured_dir C m d _ Hc Hok Hpne Hnew t Hn) as (m' & Hi & Hc').
       exists m', d. cbn [md_mtime]. unfold lift. rewrite Hi. split; [done|]. apply Hfin; [by eapply Hkind|done]. }
  all: rewrite bool_decide_false by done; destruct (is_runtime_noise_path rel) eqn:En.
  1,3: exists m, d; split; [done|]; eapply captured_iff; [|exact Hc]; intros q; split; [by left|];
    intros [?|[-> Hnt]]; [done|]; destruct Hnt; split; [by rewrite noise_last|intros t'; by rewrite Hn].
  all: assert (Hnt : ~ transient ns0 (root ++ rel)) by (intros [Hno _]; rewrite noise_last in Hno by done; congruence).
  - rewrite bool_decide_false by done. erewrite bind_quiet by (apply context_quiet; by eapply read_found).
    destruct (captured_blob C m d (root ++ rel) Hc b t (fun digest => insert_manifest_entry m (path_key (root ++ rel)) digest (blen b) t)) as (m' & d' & He & Hc').
    { by left. } { by apply insert_file_total. }
    exists m', d'. split; [exact He|by apply Hfin].
  - rewrite bool_decide_true by done. erewrite bind_quiet by (apply context_quiet; by eapply read_link_found).
    destruct (captured_blob C m d (root ++ rel) Hc b t (fun digest => insert_symlink_entry m (path_key (root ++ rel)) digest (blen b) t)) as (m' & d' & He & Hc').
    { by right. } { by apply insert_symlink_total. }
    exists m', d'. split; [exact He|by apply Hfin].
Qed.

(** The place [p] is a directory or a file, or it is missing. *)
Definition dir_or_none (ns : gmap path Node) (p : path) : Prop :=
  clear_way ns p /\ match ns !! p with Some (DirNode _) | None => True | _ => False end.
Definition file_or_none (ns : gmap path Node) (p : path) : Prop :=
  clear_way ns p /\ match ns !! p with Some (FileNode _ _) | None => True | _ => False end.

(** What the capture takes from [p], or from below it. *)
Definition taken (p q : path) : Prop := under p q /\ is_Some (ns0 !! q) /\ ~ transient ns0 q.

Lemma clear_way_keeping d p : keeping blobs ns0 d -> ~ under blobs p -> clear_way ns0 p -> clear_way (nodes d) p.
Proof.
  intros Hk Hout [Hok Hway]. split; [done|]. intros a b -> Ha Hb. rewrite (kp_rest _ _ _ Hk); [by eapply Hway|].
  intros [q ->]. apply Hout. exists (q ++ b). by rewrite app_assoc.
Qed.

Lemma missing_total follow d p : keeping blobs ns0 d -> ~ under blobs p -> clear_way ns0 p -> ns0 !! p = None -> p <> [] ->
  observe (fun d => let? x := find_node follow p (nodes d) in Ok (metadata_of d (snd x))) d = (Err NotFound, d).
Proof.
  intros Hk Hout Hway Hn Hne. apply stat_missing; [apply Hk|by eapply clear_way_keeping| |done]. by rewrite (kp_rest _ _ _ Hk).
Qed.

Lemma capture_reads : reads_dirs capture_walk.
Proof. intros p d t Hq Ht Hd. simpl. erewrite bind_quiet by (apply context_quiet; by eapply read_dir_found). done. Qed.

Lemma capture_tree_total root C m d :
  captured C m d -> path_ok root -> root <> [] -> dir_or_none ns0 root ->
  (forall rel n, ns0 !! (root ++ rel) = Some n -> path_ok (root ++ rel)) ->
  (forall q, under root q -> ~ under blobs q /\ ~ C q) ->
  exists m' d', capture_tree_if_present root (path_key root) blobs m d = (Ok m', d') /\ captured (fun q => C q \/ taken root q) m' d'.
Proof.
  intros Hc Hok Hne [Hway Hroot] Hnames Hsep. pose proof Hc as (Hk & _). unfold capture_tree_if_present.
  destruct (Hsep root (under_nil root)) as [Hout Hnew]. destruct (ns0 !! root) as [[b t|t|b t]|] eqn:Hn; try done.
  - erewrite try_quiet; cycle 1. { apply (stat_found false); [apply Hk|apply Hk|by rewrite (kp_rest _ _ _ Hk)|done]. }
    cbn [metadata_of md_kind md_mtime]. rewrite bool_decide_true by done.
    destruct (captured_dir C m d root Hc Hok Hne Hnew t Hn) as (m1 & Hi & Hc1).
    unfold lift. rewrite Hi. erewrite (bind_quiet (fun d => (Ok m1, d)) _ d m1 d eq_refl).
    destruct (walk_total capture_walk (capture_entry root (path_key root) blobs) root ns0
      (fun h m d => captured (fun q => C q \/ exists rel, (rel = [] \/ rel ∈ h) /\ q = root ++ rel /\ ~ transient ns0 q) m d) m1 d)
      as (h & m' & d' & Hw & Hc' & Hh).
    + exact capture_reads.
    + intros h m2 d2 (Hk2 & _). split_and!; [apply Hk2|apply Hk2|]. intros p. apply (kp_rest _ _ _ Hk2). by apply Hsep; eexists.
    + intros h m2 d2 rel n Hc2 Hrel Hfresh Hnode.
      destruct (capture_entry_total root _ m2 d2 rel n Hc2) as (m3 & d3 & He & Hc3); try done; [by eapply Hnames| |by apply Hsep; eexists|].
      { intros [HC|(rel' & [->|Hin] & Heq & _)]; [by apply (Hsep (root ++ rel)) in HC; [|by eexists]| |]; apply app_inv_head in Heq; by subst. }
      exists m3, d3. split; [done|]. eapply captured_iff; [|exact Hc3]. intros q. setoid_rewrite elem_of_cons. split.
      * intros [[?|(r & ? & ? & ?)]|[-> ?]]; [by left|right; exists r; naive_solver|right; exists rel; naive_solver].
      * intros [?|(r & [->|[->|?]] & -> & ?)]; [by do 2 left|left; right; exists []; auto|by right|left; right; exists r; auto].
    + exists t. by rewrite app_nil_r.
    + eapply captured_iff; [|exact Hc1]. intros q. split.
      * intros [?| ->]; [by left|]. right. exists []. rewrite app_nil_r. split_and!; [by left|done|]. intros [_ Hno]. by apply (Hno t).
      * intros [?|(rel & [->|Hin] & -> & _)]; [by left|right; by rewrite app_nil_r|by apply elem_of_nil in Hin].
    + exists m', d'. split; [done|]. eapply captured_iff; [|exact Hc']. intros q. unfold taken. split.
      * intros [?|(rel & [->|Hin] & -> & ?)]; [by left| |]; right; (split_and!; [by eexists| |done]); [rewrite app_nil_r; by eexists|by apply Hh in Hin as [_ ?]].
      * intros [?|([rel ->] & Hs & Hnt)]; [by left|]. right. exists rel. split_and!; [|done|done].
        destruct rel as [|c rel]; [by left|right; by apply Hh].
  - erewrite try_quiet by by apply (missing_total false). exists m, d. split; [done|]. eapply captured_iff; [|exact Hc].
    intros q. split; [by left|]. intros [?|([rel ->] & [n Hs] & _)]; [done|]. destruct rel as [|c rel]; [rewrite app_nil_r in Hs; congruence|].
    exfalso. assert (Hs' : nodes d !! (root ++ c :: rel) = Some n) by (rewrite (kp_rest _ _ _ Hk); [done|apply Hsep; by eexists]).
    destruct (tidy_above _ _ _ _ _ (kp_tidy _ _ _ Hk) Hs') as [_ [?|[t Hd]]]; [done|]. rewrite (kp_rest _ _ _ Hk) in Hd by done. congruence.
Qed.

Lemma capture_file_total p C m d :
  captured C m d -> path_ok p -> p <> [] -> file_or_none ns0 p -> is_runtime_noise_path p = false -> ~ under blobs p -> ~ C p ->
  (forall q, under p q -> is_Some (ns0 !! q) -> q = p) ->
  exists m' d', capture_file_if_present p (path_key p) blobs m d = (Ok m', d') /\ captured (fun q => C q \/ taken p q) m' d'.
Proof.
  intros Hc Hok Hne [Hway Hfile] Hnoise Hout Hnew Hleaf. pose proof Hc as (Hk & _). unfold capture_file_if_present. rewrite Hnoise.
  destruct (ns0 !! p) as [[b t|t|b t]|] eqn:Hn; try done.
  - assert (Hn' : nodes d !! p = Some (FileNode b t)) by (by rewrite (kp_rest _ _ _ Hk)).
    erewrite try_quiet; cycle 1. { apply (stat_found true); [apply Hk|apply Hk|exact Hn'|done]. }
    cbn [metadata_of md_kind md_mtime md_len]. rewrite bool_decide_true by done.
    erewrite bind_quiet; cycle 1. { apply context_quiet. eapply read_found; [apply Hk|apply Hk|exact Hn']. }
    destruct (captured_blob C m d p Hc b t (fun digest => insert_manifest_entry m (path_key p) digest (blen b) t)) as (m' & d' & He & Hc').
    { by left. } { apply insert_file_total; [apply Hc|done..]. }
    exists m', d'. split; [exact He|]. eapply captured_iff; [|exact Hc']. intros q. split; [intros [?| ->]; [by left|]|].
    + right. split_and!; [apply under_nil|by eexists|]. intros [Hno _]. congruence.
    + intros [?|(Hu & Hs & _)]; [by left|right; by apply Hleaf].
  - erewrite try_quiet by by apply (missing_total true). exists m, d. split; [done|]. eapply captured_iff; [|exact Hc].
    intros q. split; [by left|]. intros [?|(Hu & Hs & _)]; [done|]. pose proof (Hleaf q Hu Hs) as ->. rewrite Hn in Hs. by destruct Hs.
Qed.
End Trees.

(** ** The whole capture *)

(** The places the client accepts are the places the worker captures. *)
Lemma approved_iff q : is_approved_parity_path q = true <->
  (exists x, under (REPO_METADATA_ROOT ++ [x; "metadata"]) q \/ q = REPO_METADATA_ROOT ++ [x; "Packages"]) \/
  under ECLASS_CACHE_ROOT q \/ q = BINPKG_PACKAGES_INDEX \/ under PORTAGE_STATE_ROOT q.
Proof.
  split.
  - destruct q as [|v [|x [|y rest]]]; try done. cbn [is_approved_parity_path]. rewrite andb_true_iff, !orb_true_iff, andb_true_iff, !bool_decide_eq_true.
    intros [-> [[[[[= -> ->] ->]|[= -> ->]]|[[= -> ->] Hr]]|[= -> ->]]].
    + right. right. by left.
    + right. left. by exists rest.
    + left. destruct rest as [|r [|z rest]]; [done|done|]. exists r. destruct rest as [|z' rest].
      * apply bool_decide_eq_true in Hr as [->| ->]; [by right|left; apply under_nil].
      * apply bool_decide_eq_true in Hr as ->. left. by exists (z' :: rest).
    + right. right. right. by exists rest.
  - intros [(x & [[rest ->]| ->])|[[rest ->]|[->|[rest ->]]]]; [|done..].
    cbn [REPO_METADATA_ROOT app is_approved_parity_path]. by destruct rest.
Qed.

(** A worker's disk after a build: no failures, proper names, directories and files where
    they belong, and the output directory apart from what is captured. *)
Record capturable `{Sha256} (out : path) (d : Disk) : Prop := {
  cp_quiet : disk_faults d = [];
  cp_tidy : tidy (nodes d);
  cp_names : forall p n, nodes d !! p = Some n -> is_approved_parity_path p = true -> path_ok p;
  cp_repo_root : dir_or_none (nodes d) REPO_METADATA_ROOT;
  cp_repos : forall x n, nodes d !! (REPO_METADATA_ROOT ++ [x]) = Some n ->
    path_ok [x] /\ dir_or_none (nodes d) (REPO_METADATA_ROOT ++ [x; "metadata"]) /\ file_or_none (nodes d) (REPO_METADATA_ROOT ++ [x; "Packages"]);
  cp_eclass : dir_or_none (nodes d) ECLASS_CACHE_ROOT;
  cp_index : file_or_none (nodes d) BINPKG_PACKAGES_INDEX;
  cp_state : dir_or_none (nodes d) PORTAGE_STATE_ROOT;
  cp_out : exists t, nodes d !! out = Some (DirNode t);
  cp_blobs_dir : exists t, nodes d !! (out ++ ["blobs"]) = Some (DirNode t);
  cp_blobs : forall c n, nodes d !! ((out ++ ["blobs"]) ++ [c]) = Some n -> exists b t, n = FileNode b t /\ sha256_hex b = c;
  cp_manifest : match nodes d !! (out ++ ["manifest.json"]) with None | Some (FileNode _ _) => True | _ => False end;
  cp_apart : forall p, under out p -> is_approved_parity_path p = false;
}.

(** What is to be captured. *)
Definition in_scope (ns : gmap path Node) (p : path) : Prop :=
  is_approved_parity_path p = true /\ is_Some (ns !! p) /\ ~ transient ns p.

Section Whole.
Context `{Sha256, !Sha256Laws, SetIter, !SetIterLaws, CaptureCodec} (out : path) (d0 : Disk) (Hcap : capturable out d0).
Abbreviation blobs := (out ++ ["blobs"]).
Abbreviation ns0 := (nodes d0).

Lemma under_blobs_out p : under blobs p -> under out p.
Proof. intros [q ->]. exists ("blobs" :: q). by rewrite <- app_assoc. Qed.
Lemma approved_apart p : is_approved_parity_path p = true -> ~ under blobs p.
Proof. intros Ha Hu. apply under_blobs_out, (cp_apart _ _ Hcap) in Hu. congruence. Qed.

Lemma file_leaf p q : file_or_none ns0 p -> under p q -> is_Some (ns0 !! q) -> p <> [] -> q = p.
Proof.
  intros [_ Hf] [[|c r] ->] [n Hn] Hne; [by rewrite app_nil_r|]. exfalso.
  destruct (tidy_above _ _ _ _ _ (cp_tidy _ _ Hcap) Hn) as [_ [?|[t Hd]]]; [done|]. by rewrite Hd in Hf.
Qed.

Lemma create_output_dirs_there : create_output_dirs out d0 = (Ok blobs, d0).
Proof.
  destruct (cp_out _ _ Hcap) as [t Ho], (cp_blobs_dir _ _ Hcap) as [t' Hb]. pose proof (cp_quiet _ _ Hcap) as Hq. pose proof (cp_tidy _ _ Hcap) as Ht.
  assert (Hmk : forall p t, ns0 !! p = Some (DirNode t) -> d_create_dir_all p d0 = (Ok tt, d0)) by (intros p t0 Hp; by eapply create_dir_there).
  unfold create_output_dirs. erewrite bind_quiet by (apply context_quiet; by eapply Hmk).
  cbv zeta. unfold join. by erewrite bind_quiet by (apply context_quiet; by eapply Hmk).
Qed.

Lemma keeping_start : keeping blobs ns0 d0.
Proof. destruct Hcap. by constructor. Qed.

Definition meta_dir (x : string) : path := REPO_METADATA_ROOT ++ [x; "metadata"].
Definition packages_file (x : string) : path := REPO_METADATA_ROOT ++ [x; "Packages"].

Lemma meta_approved x q : under (meta_dir x) q -> is_approved_parity_path q = true.
Proof. intros Hu. apply approved_iff. left. exists x. by left. Qed.
Lemma packages_approved x : is_approved_parity_path (packages_file x) = true.
Proof. apply approved_iff. left. exists x. by right. Qed.

Lemma tree_names root : (forall q, under root q -> is_approved_parity_path q = true) ->
  forall rel n, ns0 !! (root ++ rel) = Some n -> path_ok (root ++ rel).
Proof. intros Ha rel n Hn. eapply (cp_names _ _ Hcap); [exact Hn|]. apply Ha. by eexists. Qed.

Lemma repo_there x z q : under (REPO_METADATA_ROOT ++ [x; z]) q -> is_Some (ns0 !! q) -> is_Some (ns0 !! (REPO_METADATA_ROOT ++ [x])).
Proof.
  intros [r ->] [n Hn]. change (REPO_METADATA_ROOT ++ [x; z]) with ((REPO_METADATA_ROOT ++ [x]) ++ [z]) in Hn. rewrite <- app_assoc in Hn.
  destruct (tidy_above _ _ _ _ _ (cp_tidy _ _ Hcap) Hn) as [_ [?|[t Hd]]]; [done|by eexists].
Qed.
Lemma packages_leaf x q : under (packages_file x) q -> is_Some (ns0 !! q) -> q = packages_file x.
Proof.
  intros Hu Hs. destruct (repo_there _ _ _ Hu Hs) as [n Hn]. destruct (cp_repos _ _ Hcap x n Hn) as (_ & _ & Hpk). by eapply file_leaf.
Qed.

(** One repository. *)
Lemma capture_repo_total x C m d :
  captured blobs ns0 C m d -> is_Some (ns0 !! (REPO_METADATA_ROOT ++ [x])) -> (forall q, under (REPO_METADATA_ROOT ++ [x]) q -> ~ C q) ->
  exists m' d', capture_repo REPO_METADATA_ROOT blobs m x d = (Ok m', d') /\
    captured blobs ns0 (fun q => C q \/ taken ns0 (meta_dir x) q \/ taken ns0 (packages_file x) q) m' d'.
Proof.
  intros Hc [n Hx] Hnew. destruct (cp_repos _ _ Hcap x n Hx) as (Hxok & Hmeta & Hpk). pose proof Hc as (Hk & _).
  assert (Hbelow : forall z q, under (REPO_METADATA_ROOT ++ [x; z]) q -> under (REPO_METADATA_ROOT ++ [x]) q).
  { intros z q [r ->]. exists (z :: r). by rewrite <- !app_assoc. }
  assert (Hok : forall z, path_ok [z] -> path_ok (REPO_METADATA_ROOT ++ [x; z])).
  { intros z Hz. apply path_ok_app. split; [|apply (path_ok_app [x] [z]); by split]. unfold path_ok. repeat constructor; try done; vm_compute; set_solver. }
  assert (Hz : path_ok ["metadata"] /\ path_ok ["Packages"]) by (split; repeat constructor; try done; vm_compute; set_solver). destruct Hz as [Hz1 Hz2].
  unfold capture_repo. erewrite bind_quiet by (apply next_entry_found; apply Hk). cbv zeta.
  change (join (join REPO_METADATA_ROOT x) "metadata") with (meta_dir x). change (join (join REPO_METADATA_ROOT x) "Packages") with (packages_file x).
  change ("var/db/repos/" +:+ x +:+ "/metadata") with (path_key (meta_dir x)). change ("var/db/repos/" +:+ x +:+ "/Packages") with (path_key (packages_file x)).
  destruct (capture_tree_total blobs ns0 (meta_dir x) C m d Hc) as (m1 & d1 & Ht & Hc1); [by apply Hok|done|done|by apply tree_names, meta_approved|..].
  { intros q Hq. split; [by eapply approved_apart, meta_approved|by eapply Hnew, Hbelow]. }
  assert (Hstep : exists r, d_metadata (meta_dir x) d = (r, d) /\
    (if is_ok r then capture_tree_if_present (meta_dir x) (path_key (meta_dir x)) blobs m else ret m) d = (Ok m1, d1)).
  { assert (Hout : ~ under blobs (meta_dir x)) by (by eapply approved_apart, meta_approved, under_nil). destruct Hmeta as [Hway Hm].
    fold (meta_dir x) in Hway, Hm. destruct (ns0 !! meta_dir x) as [[b t|t|b t]|] eqn:E; try done.
    - eexists. split; [apply (stat_found true); [apply Hk|apply Hk|by rewrite (kp_rest _ _ _ Hk)|done]|exact Ht].
    - eexists. split; [by apply (missing_total blobs ns0 true)|]. unfold capture_tree_if_present in Ht.
      erewrite try_quiet in Ht by by apply (missing_total blobs ns0 false). exact Ht. }
  destruct Hstep as (r & Hst & Hrun). erewrite try_quiet by exact Hst. erewrite bind_quiet by exact Hrun.
  destruct (capture_file_total blobs ns0 (packages_file x) (fun q => C q \/ taken ns0 (meta_dir x) q) m1 d1) as (m' & d' & Hf & Hc');
    [done|by apply Hok|done|done|done|by apply approved_apart, packages_approved| | |].
  { intros [HC|[[r' He] _]]; [|done]. eapply Hnew; [|exact HC]. apply (Hbelow "Packages"), under_nil. }
  { apply packages_leaf. }
  exists m', d'. split; [exact Hf|]. eapply captured_iff; [|exact Hc']. intros q. tauto.
Qed.

Lemma capture_repos_total names C m d :
  captured blobs ns0 C m d -> NoDup names -> (forall x, x ∈ names -> is_Some (ns0 !! (REPO_METADATA_ROOT ++ [x]))) ->
  (forall x q, x ∈ names -> under (REPO_METADATA_ROOT ++ [x]) q -> ~ C q) ->
  exists m' d', fold_io (capture_repo REPO_METADATA_ROOT blobs) names m d = (Ok m', d') /\
    captured blobs ns0 (fun q => C q \/ exists x, x ∈ names /\ (taken ns0 (meta_dir x) q \/ taken ns0 (packages_file x) q)) m' d'.
Proof.
  revert C m d. induction names as [|x names IH]; intros C m d Hc Hnd Hin Hnew.
  { exists m, d. split; [done|]. eapply captured_iff; [|exact Hc]. intros q. split; [by left|]. intros [?|(x & Hx & _)]; [done|by apply elem_of_nil in Hx]. }
  apply NoDup_cons in Hnd as [Hx Hnd].
  destruct (capture_repo_total x C m d Hc) as (m1 & d1 & Hr & Hc1); [apply Hin, list_elem_of_here|intros q; apply Hnew, list_elem_of_here|].
  cbn [fold_io]. erewrite bind_quiet by exact Hr. destruct (IH _ m1 d1 Hc1 Hnd) as (m' & d' & Hf & Hc').
  - intros y Hy. by apply Hin, list_elem_of_further.
  - intros y q Hy Hu [HC|[[[r He] _]|[[r He] _]]]; [by eapply Hnew; [apply list_elem_of_further| |]|..]; destruct Hu as [r' ->];
      unfold meta_dir, packages_file in He; rewrite <- !app_assoc in He; apply app_inv_head in He; by simplify_eq/=.
  - exists m', d'. split; [done|]. eapply captured_iff; [|exact Hc']. intros q. setoid_rewrite elem_of_cons. naive_solver.
Qed.

Lemma read_missing_dir p : dir_or_none ns0 p -> ns0 !! p = None -> p <> [] -> d_read_dir p d0 = (Err NotFound, d0).
Proof. intros [Hway _] Hn Hne. unfold d_read_dir. rewrite observe_quiet by apply Hcap. by rewrite find_absent. Qed.

Lemma capture_all_repos_total :
  exists m' d', capture_repo_metadata_and_indexes REPO_METADATA_ROOT blobs ParityManifest_default d0 = (Ok m', d') /\
    captured blobs ns0 (fun q => exists x, taken ns0 (meta_dir x) q \/ taken ns0 (packages_file x) q) m' d'.
Proof.
  assert (Hc : captured blobs ns0 (fun _ => False) ParityManifest_default d0) by (split_and!; [apply keeping_start|apply describes_empty|done]).
  unfold capture_repo_metadata_and_indexes. pose proof (cp_tidy _ _ Hcap) as Ht. pose proof (cp_quiet _ _ Hcap) as Hq.
  pose proof (cp_repo_root _ _ Hcap) as Hroot. destruct (ns0 !! REPO_METADATA_ROOT) as [n|] eqn:E.
  - destruct Hroot as [_ Hd]. rewrite E in Hd. destruct n as [b t|t|b t]; try done. erewrite try_quiet by by eapply read_dir_found.
    set (names := set_iter _). assert (Hnames : forall x, x ∈ names <-> is_Some (ns0 !! (REPO_METADATA_ROOT ++ [x]))).
    { intros x. unfold names. by rewrite elem_of_set_iter, elem_of_child_names. }
    destruct (capture_repos_total names _ _ _ Hc) as (m' & d' & Hf & Hc'); [apply NoDup_set_iter|intros x; apply Hnames|by intros ? ? ? ? []|].
    erewrite bind_quiet by exact Hf. erewrite bind_quiet by (apply next_entry_found, Hc'). exists m', d'. split; [done|].
    eapply captured_iff; [|exact Hc']. intros q. split; [intros [[]|(x & _ & Hq')]; by exists x|]. intros (x & Hq'). right. exists x.
    split; [|done]. apply Hnames. destruct Hq' as [(?&?&_)|(?&?&_)]; by eapply repo_there.
  - erewrite try_quiet by by apply read_missing_dir. exists ParityManifest_default, d0. split; [done|]. eapply captured_iff; [|exact Hc].
    intros q. split; [done|]. intros (x & Hq'). assert (Hs : is_Some (ns0 !! (REPO_METADATA_ROOT ++ [x]))) by (destruct Hq' as [(?&?&_)|(?&?&_)]; by eapply repo_there).
    destruct Hs as [n Hn]. apply Ht in Hn as [_ [?|[t Hd]]]; [done|]. congruence.
Qed.

Lemma constant_ok p : p ∈ [ECLASS_CACHE_ROOT; BINPKG_PACKAGES_INDEX; PORTAGE_STATE_ROOT] -> path_ok p.
Proof. rewrite !elem_of_cons, elem_of_nil. intros Hp. unfold path_ok. destruct Hp as [->|[->|[->|[]]]]; repeat constructor; try done; vm_compute; set_solver. Qed.

(** The capture up to the writing of the manifest. *)
Lemma capture_all_total :
  exists m d', captured blobs ns0 (in_scope ns0) m d' /\
    capture_final_state_parity out d0 = (write_manifest out m ;; ret m) d'.
Proof.
  unfold capture_final_state_parity, capture_final_state_parity_from. erewrite bind_quiet by exact create_output_dirs_there.
  destruct capture_all_repos_total as (m1 & d1 & Hr & Hc1). erewrite bind_quiet by exact Hr.
  assert (Happ : forall q, under ECLASS_CACHE_ROOT q \/ q = BINPKG_PACKAGES_INDEX \/ under PORTAGE_STATE_ROOT q -> is_approved_parity_path q = true)
    by (intros q Hq; apply approved_iff; by right).
  destruct (capture_tree_total blobs ns0 ECLASS_CACHE_ROOT _ m1 d1 Hc1) as (m2 & d2 & H2' & Hc2);
    [by apply constant_ok; left|done|apply Hcap|apply tree_names; auto|..].
  { intros q Hq. split; [apply approved_apart; auto|]. destruct Hq as [r ->]. by intros (x & [[[r' He] _]|[[r' He] _]]). }
  change (path_key ECLASS_CACHE_ROOT) with "var/cache/eclass" in H2'. erewrite bind_quiet by exact H2'.
  destruct (capture_file_total blobs ns0 BINPKG_PACKAGES_INDEX _ m2 d2 Hc2) as (m3 & d3 & H3' & Hc3);
    [apply constant_ok; set_solver|done|apply Hcap|done|apply approved_apart; auto| |intros q Hq Hs; by eapply file_leaf; [apply Hcap|..]|].
  { by intros [(x & [[[r' He] _]|[[r' He] _]])|[[r' He] _]]. }
  change (path_key BINPKG_PACKAGES_INDEX) with "var/cache/binpkgs/Packages" in H3'. erewrite bind_quiet by exact H3'.
  destruct (capture_tree_total blobs ns0 PORTAGE_STATE_ROOT _ m3 d3 Hc3) as (m4 & d4 & H4' & Hc4);
    [apply constant_ok; set_solver|done|apply Hcap|apply tree_names; auto|..].
  { intros q Hq. split; [apply approved_apart; auto|]. destruct Hq as [r ->]. by intros [[(x & [[[r' He] _]|[[r' He] _]])|[[r' He] _]]|[[r' He] _]]. }
  change (path_key PORTAGE_STATE_ROOT) with "var/lib/portage" in H4'. erewrite bind_quiet by exact H4'.
  exists m4, d4. split; [|done]. eapply captured_iff; [|exact Hc4]. intros q. unfold in_scope, taken. rewrite approved_iff. split.
  - intros [[[(x & [(?&?&?)|(Hu&?&?)])|(?&?&?)]|(Hu&?&?)]|(?&?&?)]; (split_and!; [|done|done]).
    + left. exists x. by left.
    + left. exists x. right. by apply packages_leaf.
    + by right; left.
    + right. right. left. by eapply file_leaf; [apply Hcap|..].
    + by do 3 right.
  - intros ([(x & [Hu| ->])|[Hu|[->|Hu]]] & Hs & Hnt).
    + do 3 left. exists x. by left.
    + do 3 left. exists x. right. split_and!; [apply under_nil|done|done].
    + by do 2 left; right.
    + left. right. split_and!; [apply under_nil|done|done].
    + by right.
Qed.

(** What the capture leaves: a manifest of exactly what is in scope, a blob for every
    content, and nothing changed outside the output directory. *)
Record capture_result (m : ParityManifest) (d' : Disk) : Prop := {
  cr_describes : describes ns0 (in_scope ns0) m;
  cr_blobs : forall p b t, in_scope ns0 p -> ns0 !! p = Some (FileNode b t) \/ ns0 !! p = Some (LinkNode b t) ->
    exists b' t', nodes d' !! (blobs ++ [sha256_hex b]) = Some (FileNode b' t') /\ sha256_hex b' = sha256_hex b;
  cr_manifest : exists t, nodes d' !! (out ++ ["manifest.json"]) = Some (FileNode (parity_manifest_to_vec m) t);
  cr_rest : forall p, ~ under out p -> nodes d' !! p = ns0 !! p;
}.

Lemma capture_run : exists m d', capture_final_state_parity out d0 = (Ok m, d') /\ capture_result m d'.
Proof.
  destruct capture_all_total as (m & d1 & (Hk & Hd & Hb) & ->). exists m.
  assert (Hno : forall c q, c <> "blobs" -> ~ under blobs (out ++ c :: q)).
  { intros c q Hc [r He]. rewrite <- app_assoc in He. apply app_inv_head in He. by simplify_eq/=. }
  assert (Hout : ~ under blobs out).
  { intros [r He]. apply (f_equal length) in He. rewrite !length_app in He. simpl in He. lia. }
  destruct (cp_out _ _ Hcap) as [t Ho].
  destruct (write_quiet out "manifest.json" (parity_manifest_to_vec m) d1 t) as (d2 & Hw & [Hq2 _ _ _ Hf2 _ Hr2]);
    [apply Hk|apply Hk|by rewrite (kp_rest _ _ _ Hk)|repeat split; try done; vm_compute; set_solver|rewrite (kp_rest _ _ _ Hk) by (by apply Hno); apply Hcap|].
  exists d2. split; [unfold write_manifest; by erewrite bind_quiet by (apply context_quiet; exact Hw)|]. constructor; [done| |by eexists|].
  - intros p b t' Hp Hn. destruct (Hb p b t' Hp Hn) as [n Hdig]. destruct (kp_blobs _ _ _ Hk _ _ Hdig) as (b' & t2 & -> & He).
    exists b', t2. split; [|done]. rewrite Hr2; [done| |]; intros Heq; (rewrite <- app_assoc in Heq).
    + apply app_inv_head in Heq. done.
    + apply (f_equal length) in Heq. rewrite length_app in Heq. simpl in Heq. lia.
  - intros p Hp. rewrite Hr2; [apply (kp_rest _ _ _ Hk)| |]; [intros Hu; by apply Hp, under_blobs_out|intros ->; apply Hp; by eexists|intros ->; apply Hp, under_nil].
Qed.

(** The same node, as far as its digest tells: kind, time, and the length and digest of
    the content. *)
Definition same_node (n n' : Node) : Prop :=
  match n, n' with
  | DirNode t, DirNode t' => t = t'
  | FileNode b t, FileNode b' t' | LinkNode b t, LinkNode b' t' => t = t' /\ blen b = blen b' /\ sha256_hex b = sha256_hex b'
  | _, _ => False
  end.
Definition is_file (n : Node) : bool := match n with FileNode _ _ => true | _ => false end.

(** The entry of a path in scope holds on a disk only if the same node is there. *)
Lemma entry_holds m root c p n :
  describes ns0 (in_scope ns0) m -> manifest_holds (nodes c) root m -> in_scope ns0 p -> ns0 !! p = Some n ->
  exists q n', resolve (is_file n) (root ++ p) (nodes c) = Ok q /\ nodes c !! q = Some n' /\ same_node n n'.
Proof.
  intros [Hok Hdirs Hfiles Hlinks] (Hd & Hl & Hf) Hp Hn. destruct (Hok p Hp) as [Hpok _].
  pose proof (resolve_key root p Hpok (proj1 Hp)) as Hkey. destruct n as [b t|t|b t].
  - destruct (Hf (path_key p) (file_of b t)) as (target & q & b' & Ht & Hr & Hnode & Hlen & Hsha).
    { apply Hfiles. exists p. split_and!; [done|done|by exists b, t]. }
    cbn [fst] in Ht. rewrite Hkey in Ht. injection Ht as <-. by exists q, (FileNode b' t).
  - destruct (Hd (path_key p) (dir_of t)) as (target & q & Ht & Hr & Hnode).
    { apply Hdirs. exists p. split_and!; [done|done|by exists t]. }
    cbn [fst] in Ht. rewrite Hkey in Ht. injection Ht as <-. by exists q, (DirNode t).
  - destruct (Hl (path_key p) (link_of b t)) as (target & q & b' & Ht & Hr & Hnode & Hlen & Hsha).
    { apply Hlinks. exists p. split_and!; [done|done|by exists b, t]. }
    cbn [fst] in Ht. rewrite Hkey in Ht. injection Ht as <-. by exists q, (LinkNode b' t).
Qed.
End Whole.

(** C13.  The capture of the final state is exact: on an orderly disk it succeeds, its
    manifest has an entry for each approved path that is there (transient files
    apart), with the digest, size and time of what is there, and for nothing else;
    every content is in a blob named by its digest; and nothing outside the output
    directory has changed. *)
Theorem capture_exact `{Sha256, !Sha256Laws, SetIter, !SetIterLaws, CaptureCodec} out d :
  capturable out d ->
  exists m d', capture_final_state_parity out d = (Ok m, d') /\ capture_result out d m d'.
Proof. apply capture_run. Qed.

(** C12.  The final state travels: when the client reconciles with the manifest that
    the worker captured from an orderly disk and succeeds, then every approved path of the worker's disk
    (transient files apart) names a file, link or directory of the same kind, time,
    length and digest on the client's. *)
Theorem final_state_travels `{Sha256, !Sha256Laws, SetIter, !SetIterLaws, CaptureCodec} out d base_url root r c c' p n :
  capturable out d -> fst (capture_final_state_parity out d) = Ok (wr_parity_manifest r) ->
  reconcile_final_state_parity_into base_url root r c = (Ok tt, c') ->
  in_scope (nodes d) p -> nodes d !! p = Some n ->
  exists q n', resolve (is_file n) (root ++ p) (nodes c') = Ok q /\ nodes c' !! q = Some n' /\ same_node n n'.
Proof.
  intros Hcap Hrun Hrec Hp Hn. destruct (capture_run out d Hcap) as (m & d' & Hrun' & Hres). rewrite Hrun' in Hrun. injection Hrun as Hm.
  apply reconcile_Ok in Hrec. rewrite <- Hm in Hrec. eapply entry_holds; [apply Hres|done..].
Qed.

(** ** Concrete runs *)

Definition demo_tree : list (path * Node) := [
  (["var"], DirNode 1); (["var"; "lib"], DirNode 1); (["var"; "lib"; "portage"], DirNode 5);
  (["var"; "lib"; "portage"; "world"], FileNode (text "vim") 4); (["var"; "lib"; "portage"; "current"], LinkNode (text "world") 6);
  (["var"; "lib"; "portage"; "world.lock"], FileNode (text "") 7); (["var"; "db"], DirNode 1); (["var"; "db"; "repos"], DirNode 1);
  (["var"; "db"; "repos"; "gentoo"], DirNode 1); (["var"; "db"; "repos"; "gentoo"; "metadata"], DirNode 2);
  (["var"; "db"; "repos"; "gentoo"; "metadata"; "layout.conf"], FileNode (text "masters =") 3);
  (["var"; "db"; "repos"; "gentoo"; "profiles"], DirNode 2); (["out"], DirNode 1); (["out"; "blobs"], DirNode 1)].
Definition plain_codec : CaptureCodec := {| parity_manifest_to_vec _ := text "parity"; distfile_manifest_to_vec _ := text "distfiles" |}.

Lemma out_unapproved p : under ["out"] p -> is_approved_parity_path p = false.
Proof. by intros [[|x [|y q]] ->]. Qed.

Lemma demo_capturable : @capturable sha256_reference ["out"] (tree_disk demo_tree).
Proof.
  destruct (tidyb_ok demo_tree) as [Ht Hn]; [by vm_compute|]. constructor; try done.
  - intros p n Hp _. by eapply Hn.
  - split; [by apply clearb_ok; vm_compute|by vm_compute].
  - intros x n Hx. assert (x = "gentoo") as ->.
    { revert x n Hx. pose proof (tree_forall demo_tree (fun p n => forall x, p = REPO_METADATA_ROOT ++ [x] -> x = "gentoo")) as Hall.
      intros x n Hx. eapply Hall; [|exact Hx|done]. unfold demo_tree. repeat (apply Forall_cons_2; [simpl; intros y; congruence|]). apply Forall_nil_2. }
    split; [by apply names_okb_ok|]. by split; (split; [apply clearb_ok|]); vm_compute.
  - split; [by apply clearb_ok; vm_compute|by vm_compute].
  - split; [by apply clearb_ok; vm_compute|by vm_compute].
  - split; [by apply clearb_ok; vm_compute|by vm_compute].
  - by eexists.
  - by eexists.
  - intros c n Hc. exfalso. revert c n Hc. pose proof (tree_forall demo_tree (fun p n => forall c, p = ["out"; "blobs"; c] -> False)) as Hall.
    intros c n Hc. eapply Hall; [|exact Hc|done]. unfold demo_tree. repeat (apply Forall_cons_2; [simpl; intros y; congruence|]). apply Forall_nil_2.
  - apply out_unapproved.
Qed.

#[local] Instance capture_sha : Sha256 := sha256_reference.
#[local] Instance capture_sha_laws : Sha256Laws := sha256_reference_laws.
#[local] Existing Instance set_iter_reference.
#[local] Existing Instance set_iter_reference_laws.
#[local] Existing Instance plain_codec.

(** Two directories, two files and a link are captured; the lock is not. *)
Lemma capture_exact_witness :
  exists m d', capture_final_state_parity ["out"] (tree_disk demo_tree) = (Ok m, d') /\ capture_result ["out"] (tree_disk demo_tree) m d'.
Proof. apply (capture_exact ["out"] (tree_disk demo_tree)). exact demo_capturable. Defined.

Definition demo_capture : Result ParityManifest Error := fst (capture_final_state_parity ["out"] (tree_disk demo_tree)).
Definition capture_sizes (r : Result ParityManifest Error) : option (nat * nat * nat) :=
  match r with Ok m => Some (size (pm_files m), size (pm_directories m), size (pm_symlinks m)) | Err _ => None end.
Example demo_capture_sizes : capture_sizes demo_capture = Some (2, 2, 1)%nat.
Proof. by vm_compute. Qed.

Definition demo_result : WorkorderResult := {|
  wr_workorder_id := 1%N; wr_built_packages := []; wr_failed_packages := []; wr_binhost_uri := ""; wr_fetched_distfiles := ∅;
  wr_parity_manifest := match demo_capture with Ok m => m | Err _ => ParityManifest_default end |}.
Definition demo_client : Disk := demo_disk [Body [text "world"] true; Body [text "masters "; text "="] true; Body [text "vim"] true].

Lemma final_state_travels_witness :
  let c' := snd (reconcile_final_state_parity_into "http://host" [] demo_result demo_client) in
  exists q n', resolve true ["var"; "lib"; "portage"; "world"] (nodes c') = Ok q /\ nodes c' !! q = Some n' /\ same_node (FileNode (text "vim") 4) n'.
Proof.
  apply (final_state_travels ["out"] (tree_disk demo_tree) "http://host" [] demo_result demo_client
           (snd (reconcile_final_state_parity_into "http://host" [] demo_result demo_client)) ["var"; "lib"; "portage"; "world"] (FileNode (text "vim") 4)).
  - exact demo_capturable.
  - vm_compute. reflexivity.
  - vm_compute. reflexivity.
  - split_and!; [reflexivity|by eexists|by intros [? _]].
  - reflexivity.
Defined.

(** A repository whose [metadata] is a link to a directory, or a stray file beside the
    repositories, makes the whole capture fail: the first is looked at through the link
    and then again as a link, and below the second [Packages] is not "not found". *)
Example linked_metadata_fails :
  (capture_final_state_parity ["out"] (tree_disk ((["var"; "db"; "repos"; "local"], DirNode 1) ::
    (["var"; "db"; "repos"; "local"; "metadata"], LinkNode (text "../gentoo/metadata") 1) :: demo_tree))).1 =
  Err (Bail "Expected directory for parity capture: var/db/repos/local/metadata").
Proof. by vm_compute. Qed.
Example stray_file_fails :
  (capture_final_state_parity ["out"] (tree_disk ((["var"; "db"; "repos"; "README"], FileNode [] 1) :: demo_tree))).1 =
  Err (IoErr OtherIo "Failed to stat var/db/repos/README/Packages").
Proof. by vm_compute. Qed.

(** A backslash in a name becomes a slash in the manifest: the entry is restored at
    another path. *)
Example backslash_moves_entry :
  match (capture_final_state_parity ["out"] (tree_disk ((["var"; "lib"; "portage"; String backslash "x"], FileNode [] 1) :: demo_tree))).1 with
  | Ok m => is_Some (pm_files m !! "var/lib/portage//x") /\ resolve_parity_target [] "var/lib/portage//x" = Ok ["var"; "lib"; "portage"; "x"]
  | Err _ => False
  end.
Proof. vm_compute. split; [by eexists|done]. Qed.
